(* ===== verification/_CoqProject ===== *)
-Q . S2P
Prelude.v
GoStrings.v
Keyed.v
Float64.v
Strconv.v
Histogram.v
GraphNode.v
GraphEdge.v
Graph.v
Project.v
ProjectLemmas.v
ProjectProps.v
ProjectFilters.v
StorageScope.v
ProjectStorage.v
ProjectStorageLemmas.v
ProjectStorageProps.v
ProjectK8s.v
PromStrings.v
Selector.v
Queries.v
ScopeChunks.v
PairScope.v
ScopedRender.v
HarvestScope.v
Backend.v
Fanout.v
RedMetrics.v
LabelQuery.v
AppMetadata.v
BuildIdentity.v
VolumeKey.v
TopologyTypes.v
TopologyOwners.v
DeployTime.v
MetadataPicks.v
Alerts.v
NetApp.v
NetAppLemmas.v
NetAppProps.v
Topology.v
StorageFlow.v
NetAddr.v
PeerAddress.v
ServiceGraph.v
ServiceGraphEffects.v
ServiceGraphParse.v
ServiceGraphProps.v
RoutePrescan.v
ServiceGraphTheorems.v
RoutePrescanProps.v
ServiceGraphAdmission.v
NameScopes.v
ScopedReads.v
Upstream.v
ReadPlan.v
K8sRead.v
VolumeLabelScope.v
K8sReadProps.v
VolumeLabelProps.v
K8sLoad.v
K8sReadTheorems.v
Build.v
PodApplication.v
RequestParse.v
StorageReads.v
ReadTopology.v
ReadTopologyProps.v
ClaimRoot.v
QueryCache.v
Guard.v
GuardProps.v
GuardSafety.v
GuardTheorems.v
Router.v
RouterProps.v
Cytoscape.v
CytoscapeProps.v
ServedBody.v
Engine.v
