(* ===== verification/Prelude.v ===== *)
(** * kube-state-graph, verified

    kube-state-graph reads instant vectors of kube-state-metrics, NetApp Harvest,
    kubelet, alert and service-graph series from one or more Prometheus-compatible
    stores, joins them into a graph of a multi-cluster estate, and serves projections
    of it. This library models that path as pure functions and step relations and
    proves what makes it correct. Every definition carries, in its comment, the file
    and the function it translates.

    ** The parts and how they interact

    A request's parameters are parsed into a window, a selector and, for a rooted
    endpoint, a root selection (RequestParse, StorageScope); its end is floored to a
    grid. A plan (ReadPlan) says which families the build reads at once,
    which it reads by reference and how each seed query is rendered. The fan-out
    (ReadTopology) runs the legs of the plan; each leg renders queries
    (Selector, Queries, ScopedRender, HarvestScope, AppMetadata), split under a byte
    budget (ScopeChunks, PairScope), and issues them through a querier. The querier is
    a routing table (Backend) with a fan-out over backends (Fanout), each behind a
    guard (Guard) with a cache (QueryCache); a router (Router) swaps the table at
    run time. What landed is parsed into a topology (Topology, TopologyOwners,
    MetadataPicks, NetApp), joined with the service-graph series (ServiceGraphParse)
    and the alerts (Alerts), assembled and frozen (Build, Graph), projected
    (Project, ProjectStorage, ProjectK8s) and served (Cytoscape). Engine is the whole
    pipeline of the two rooted endpoints in one call. PodApplication is the on-demand
    lookup beside the build.

    ** Files

    Shared: Prelude (orders, sorting, compaction, the result monad, hint database
    [ksg], tactics), GoStrings, Keyed (indexing loops), Float64 (binary64 on the
    Standard Library's executable specification), Strconv, NetAddr (the parts of
    package net in use). They say what the sources use of Go's standard library.

    pkg/graph: GraphNode (node.go; pkg/build/status.go), GraphEdge (edge.go,
    registry.go), Graph (graph.go), Project (scope.go, project.go) with ProjectLemmas,
    ProjectProps, ProjectFilters; StorageScope (storagescope.go), ProjectStorage
    (project_storage.go) with ProjectStorageLemmas, ProjectStorageProps; ProjectK8s
    (project_k8s.go).

    pkg/promql: PromStrings and Selector (selector.go), Queries (queries.go),
    ScopeChunks, PairScope and ScopedRender (scope.go, pairscope.go, qosscope.go,
    rollup.go, appscope.go), HarvestScope (harvestpair.go, volumelabels.go),
    AppMetadata (appmetadata.go), Backend (backend.go), Fanout (fanout.go), LabelQuery
    (labelquery.go), QueryCache (querycache.go), Guard, GuardProps, GuardSafety,
    GuardTheorems (guard.go), Router and RouterProps (router.go).

    pkg/build, the parse: Histogram and RedMetrics (histogram.go, redmetrics.go),
    BuildIdentity (clusteridentity.go, clusterfamily.go, zone.go), VolumeKey
    (volumekey.go), TopologyTypes, TopologyOwners (topology_types.go,
    topology_owners.go, topology_attrs.go, errors.go), DeployTime and MetadataPicks
    (deploytime.go, appmetadata.go), Alerts (alerts.go), NetApp, NetAppLemmas,
    NetAppProps (netapp.go), Topology (topology.go, topology_edges.go), StorageFlow
    (storageflow.go), PeerAddress, ServiceGraph, ServiceGraphEffects,
    ServiceGraphParse, ServiceGraphProps, ServiceGraphTheorems, ServiceGraphAdmission
    (servicegraph.go), RoutePrescan, RoutePrescanProps (routeprescan.go,
    routeresolve.go).

    pkg/build, the reads: NameScopes (the pure half of the scoped reads), ScopedReads
    (scopedread.go, podnamespace.go, claimscope.go, podscope.go, nodescope.go,
    controllerscope.go), ReadPlan (topologyplan.go, claimseed.go), K8sRead
    (k8spairs.go, k8scontrollers.go, k8sworkload.go), VolumeLabelScope
    (volumelabelscope.go), StorageReads (podseed.go, nodeseed.go, expansion.go,
    flowless.go, qosscope.go, appscope.go, appmetadata_scope.go), ReadTopology
    (topology_read.go) and Build (build.go, build_k8s.go). Upstream states what the
    stores document, and K8sReadProps, K8sLoad, K8sReadTheorems, VolumeLabelProps and
    ClaimRoot prove what the reads load from a store that keeps to it;
    ReadTopologyProps is about the fan-out itself.

    pkg/kubegraph: RequestParse (parse.go, align.go) and Engine (engine.go).
    PodApplication is podapplication.go of pkg/build.

    pkg/cytoscape: Cytoscape, CytoscapeProps (cytoscape.go); ServedBody types the
    frozen graph and composes the build with the serialisation.

    ** State

    Go maps are [gmap]s and [gset]s, slices are lists, pointers to immutable values
    are options, a read of an absent key is the zero value. Code that mutates is
    explicit state passing: the admission passes of the projections fold a record;
    the service-graph resolver is a state monad over [sgState] with its undo journal;
    a read is a function from the slots that landed ([landed], the fields of
    [topologyVectors] by family) to the slots that land next; the query cache is its
    list and its index; the guard is a transition function over callers, executions,
    the shared cache, semaphores and flights, with its interleavings as lists of
    actions; a router is a sequence of reloads. Errors are the [result] type and carry
    what [errors.Is] and [errors.As] can see of the chain.

    ** What the theorems show

    - Projections: closed sub-graphs of the built graph, exact edge sets, filters and
      prune that cannot be escaped, no orphaned infrastructure, canonical order.
    - Serving: the edges of a built graph are well typed, id collisions apart; no parent
      of its body dangles, and where ids are distinct the body is a forest; under the
      documented preconditions the application looked up for one pod is the build's.
    - Reads: for pod, node, claim, controller and hub roots, the read returns and
      loads exactly what the root reaches, whatever the chunking; every channel of
      the fan-out has one closer, in time; an unrestricted read fails exactly when a
      required family does; a Kubernetes-only build asks no Harvest family.
    - Requests: a request that parses passes the guards of the builds and carries no
      value unfit for a query; alignment keeps a window's length and moves its end by
      less than a step; requests of one grid step get one answer.
    - Parse: a parsed topology is closed; the storage join and the picks are functions
      of multisets of rows, not of their order; the storage-flow graph and the alert
      overlay equal their specifications by scan; the token index equals the pairwise
      predicate.
    - Service graph: a rejected series leaves no trace; the marker lookup agrees with
      the ladder; the prescan asks all the parse consults.
    - Querying: rendered matchers read back as the request and nothing else; a
      fan-out fails closed, independent of completion order; the cache stays within
      its budget; the guard is live, terminates, bounds its upstream queries, never
      duplicates one in flight, probes apart, and answers only from the client; a
      reload is atomic.

    Theorems beside the numbered properties state further facts of the same parts.

    ** Bounds and fuel

    The reader of rendered fragments runs on the length of its input plus one, or on
    six matchers where a selector has at most that many; eviction runs on the length
    of the list plus one, each step removing an entry; [IP.String] has room for eight
    groups; a month search visits twelve months. Other recursion is structural.
    The program's own bounds are kept: 512 route questions, sixteen seed chunks, the
    chunk budgets, the per-store concurrency. Termination of the guard is by a measure
    of at most sixteen steps per call.

    ** Parameters

    Code outside the repository is an argument: the edge UUID ([EdgeUUID]),
    net/url ([URLHost] and the parser of Backend), the series fingerprint
    ([MetricFingerprint]), regexp compilation ([RegexpCompile]), the weighted
    semaphore and the flight group ([Semaphore], [FlightGroup]), the client factory
    and its answers, the route resolver, the querier of a build ([Querier]) and the
    order in which the failures of a wave are reported ([Scheduler]). [Honest] is what
    a querier documents: a restricted query returns the rows of the unrestricted one
    that its matchers select. Each is instantiated by a concrete function where a
    theorem assumes something of it. A range over a Go map whose order cannot matter
    is taken in the map's own order, and the theorems say what does not depend on it.

    ** Not modelled

    Logs, spans, metrics, per-family tallies and panic recovery throughout: they feed
    no result. The HTTP client, the HTTP API, authentication, telemetry, process
    wiring and configuration flags: glue over third-party libraries. The backends file
    is YAML decoding and a polling loop around [NewTable]. The route store is
    ClickHouse I/O. Of the route engine (pkg/route) only its interface appears: its
    gateways and virtual services are decoded by generated Istio code, so the build
    takes it as a parameter. Of the engine of pkg/kubegraph the constructors, the
    probe and the pipeline of the unrooted endpoint are left out: they forward to the
    guard, the builder and the projection. *)

From stdpp Require Export base tactics list gmap strings sorting sets.
From Stdlib Require Export Lia ZArith.
From Stdlib Require Ascii String.

(** ** Shared vocabulary

    What the sources use of the language and of its standard library, written once
    and executable: three-way comparisons, [slices.SortFunc], [slices.Compact], and
    the generic lemmas about them. A sorted, de-duplicated slice is a function of the
    SET of its elements, which is what makes the program's output deterministic. *)

#[global] Arguments String.append : simpl nomatch.


Create HintDb ksg.

(** Scope of the development's own notations. *)
Declare Scope ksg_scope.
Delimit Scope ksg_scope with ksg.

(** Results of fallible Go functions: the value or the error. *)
Inductive result (E A : Type) : Type :=
  | Ok (a : A)
  | Err (e : E).
Arguments Ok {_ _} _.
Arguments Err {_ _} _.

#[export] Instance result_eq_dec {E A} `{EqDecision E, EqDecision A} :
  EqDecision (result E A).
Proof. solve_decision. Defined.

Definition rbind {E A B} (m : result E A) (k : A → result E B) : result E B :=
  match m with Ok a => k a | Err e => Err e end.
Notation "x <-! m ; k" := (rbind m (λ x, k))
  (at level 100, m at next level, right associativity) : ksg_scope.

(** ** Tactics *)

(** Case analysis on the innermost [match] of a hypothesis, remembering the
    equation, then closing contradictory branches. *)
Ltac dmatch_in H :=
  match type of H with
  | context [ match ?x with _ => _ end ] =>
      lazymatch x with
      | context [ match _ with _ => _ end ] => fail
      | _ => let E := fresh "E" in destruct x eqn:E
      end
  end.
Ltac dmatch :=
  match goal with
  | |- context [ match ?x with _ => _ end ] =>
      lazymatch x with
      | context [ match _ with _ => _ end ] => fail
      | _ => let E := fresh "E" in destruct x eqn:E
      end
  end.

(** Turn boolean equations into propositions. *)
Ltac breflect :=
  repeat match goal with
  | H : bool_decide _ = true |- _ => apply bool_decide_eq_true in H
  | H : bool_decide _ = false |- _ => apply bool_decide_eq_false in H
  | H : (_ && _)%bool = true |- _ => apply andb_true_iff in H as [? ?]
  | H : (_ || _)%bool = false |- _ => apply orb_false_iff in H as [? ?]
  | H : negb _ = true |- _ => apply negb_true_iff in H
  | H : negb _ = false |- _ => apply negb_false_iff in H
  end.

(** ** Three-way comparisons *)

(** [cmp.Or] on comparison results: the first non-equal verdict. *)
Definition cmp_or (c1 c2 : comparison) : comparison :=
  match c1 with Eq => c2 | c => c end.

(** A comparison function usable by [slices.SortFunc]: a total preorder. *)
Class GoCmp {A} (c : A → A → comparison) : Prop := {
  gc_antisym : ∀ x y, c y x = CompOpp (c x y);
  gc_trans : ∀ x y z, c x y ≠ Gt → c y z ≠ Gt → c x z ≠ Gt;
}.
(** ... whose equality is Leibniz equality: a total order. *)
Class GoCmpStrict {A} (c : A → A → comparison) : Prop := {
  gcs_cmp :: GoCmp c;
  gcs_eq : ∀ x y, c x y = Eq → x = y;
}.

Section gocmp.
Context {A} (c : A → A → comparison) `{!GoCmp c}.

Lemma gc_refl x : c x x = Eq.
Proof. pose proof (gc_antisym (c:=c) x x) as H. destruct (c x x); done. Qed.

Lemma gc_le_total x y : c x y ≠ Gt ∨ c y x ≠ Gt.
Proof. rewrite (gc_antisym (c:=c) x y). destruct (c x y); simpl; auto. Qed.

Lemma gc_eq_le x y : c x y = Eq ↔ c x y ≠ Gt ∧ c y x ≠ Gt.
Proof. rewrite (gc_antisym (c:=c) x y). destruct (c x y); simpl; intuition congruence. Qed.

Lemma gc_eq_sym x y : c x y = Eq → c y x = Eq.
Proof. intros H. rewrite (gc_antisym (c:=c) x y), H. done. Qed.

Lemma gc_lt_trans x y z : c x y = Lt → c y z ≠ Gt → c x z = Lt.
Proof.
  intros Hxy Hyz. destruct (c x z) eqn:Hxz; [|done|].
  - assert (c y x ≠ Gt) as Hyx.
    { apply (gc_trans (c:=c) y z x); [exact Hyz|]. by rewrite (gc_antisym (c:=c) x z), Hxz. }
    rewrite (gc_antisym (c:=c) x y), Hxy in Hyx. done.
  - exfalso. apply (gc_trans (c:=c) x y z); [by rewrite Hxy|done|done].
Qed.
End gocmp.

#[export] Instance string_compare_cmp : GoCmp String.compare.
Proof.
  split; [intros x y; apply String.compare_antisym|].
  intros x y z H1 H2.
  assert (∀ a b, String.compare a b ≠ Gt ↔ String.le a b) as Hle.
  { intros a b. unfold String.le, String.leb.
    destruct (String.compare a b); simpl; intuition congruence. }
  apply Hle. apply Hle in H1, H2. by etrans.
Qed.
#[export] Instance string_compare_strict : GoCmpStrict String.compare.
Proof. split; [apply _|]. intros x y. apply String.compare_eq_iff. Qed.

Lemma string_compare_eq x y : String.compare x y = Eq ↔ x = y.
Proof.
  split; [apply (gcs_eq (c:=String.compare))|]. intros ->. by apply gc_refl, _.
Qed.

#[export] Instance Z_compare_cmp : GoCmp Z.compare.
Proof.
  split; [intros x y; by rewrite Z.compare_antisym|].
  intros x y z. rewrite !Z.compare_ngt_iff. lia.
Qed.
#[export] Instance Z_compare_strict : GoCmpStrict Z.compare.
Proof. split; [apply _|]. apply Z.compare_eq. Qed.

(** Comparing through a key: [cmp.Compare(f(a), f(b))]. *)
Definition on_key {A K} (f : A → K) (c : K → K → comparison) (x y : A) : comparison :=
  c (f x) (f y).

#[export] Instance on_key_cmp {A K} (f : A → K) c `{!GoCmp c} : GoCmp (on_key f c).
Proof.
  split; unfold on_key; intros; [apply gc_antisym|by eapply gc_trans].
Qed.

(** Reversed comparison: [cmp.Compare(b, a)]. *)
Definition cmp_rev {A} (c : A → A → comparison) (x y : A) : comparison := c y x.
#[export] Instance cmp_rev_cmp {A} (c : A → A → comparison) `{!GoCmp c} : GoCmp (cmp_rev c).
Proof.
  split; unfold cmp_rev; intros; [apply gc_antisym|by eapply gc_trans].
Qed.

(** Lexicographic combination with [cmp.Or]. *)
Definition cmp_lex {A} (c1 c2 : A → A → comparison) (x y : A) : comparison :=
  cmp_or (c1 x y) (c2 x y).

#[export] Instance cmp_lex_cmp {A} (c1 c2 : A → A → comparison) `{!GoCmp c1, !GoCmp c2} :
  GoCmp (cmp_lex c1 c2).
Proof.
  split; unfold cmp_lex.
  - intros x y. rewrite (gc_antisym (c:=c1) x y), (gc_antisym (c:=c2) x y).
    destruct (c1 x y), (c2 x y); done.
  - intros x y z Hxy Hyz.
    destruct (c1 x y) eqn:E1; simpl in Hxy; [| |done].
    + destruct (c1 y z) eqn:E2; simpl in Hyz; [| |done].
      * assert (c1 x z = Eq) as ->.
        { apply gc_eq_le; [apply _|]. split.
          - apply (gc_trans (c:=c1) x y z); [by rewrite E1|by rewrite E2].
          - apply gc_eq_sym in E1; [|apply _]. apply gc_eq_sym in E2; [|apply _].
            apply (gc_trans (c:=c1) z y x); [by rewrite E2|by rewrite E1]. }
        simpl. by apply (gc_trans (c:=c2) x y z).
      * assert (c1 x z = Lt) as ->; [|done].
        destruct (c1 x z) eqn:E3; [|done|].
        -- assert (c1 y z ≠ Lt); [|done]. intros _.
           assert (c1 z y ≠ Gt) as Hzy.
           { apply (gc_trans (c:=c1) z x y).
             - apply gc_eq_sym in E3; [by rewrite E3|apply _].
             - by rewrite E1. }
           rewrite (gc_antisym (c:=c1) y z), E2 in Hzy. done.
        -- exfalso. apply (gc_trans (c:=c1) x y z); [by rewrite E1|by rewrite E2|done].
    + assert (c1 x z = Lt) as ->; [|done].
      apply (gc_lt_trans c1 x y z); [exact E1|].
      destruct (c1 y z); simpl in Hyz; congruence.
Qed.

#[global] Typeclasses Opaque on_key cmp_rev cmp_lex.

Lemma cmp_lex_eq {A} (c1 c2 : A → A → comparison) x y :
  cmp_lex c1 c2 x y = Eq ↔ c1 x y = Eq ∧ c2 x y = Eq.
Proof. unfold cmp_lex. destruct (c1 x y), (c2 x y); simpl; intuition congruence. Qed.

(** Lexicographic comparison of lists; a proper prefix comes first. *)
Fixpoint cmp_list {A} (c : A → A → comparison) (l1 l2 : list A) : comparison :=
  match l1, l2 with
  | [], [] => Eq
  | [], _ => Lt
  | _, [] => Gt
  | x :: l1, y :: l2 => cmp_or (c x y) (cmp_list c l1 l2)
  end.

#[export] Instance cmp_list_strict {A} (c : A → A → comparison) `{!GoCmpStrict c} :
  GoCmpStrict (cmp_list c).
Proof.
  split; [split|].
  - induction x as [|x l1 IH]; intros [|y l2]; simpl; try done.
    rewrite IH, (gc_antisym (c:=c) x y). by destruct (c x y).
  - induction x as [|x l1 IH]; intros [|y l2] [|z l3]; simpl; try done.
    specialize (IH l2 l3). destruct (c x y) eqn:E1; simpl; [| |done].
    + apply (gcs_eq (c:=c)) in E1 as <-. by destruct (c x z).
    + intros _. destruct (c y z) eqn:E2; simpl; [| |done].
      * apply (gcs_eq (c:=c)) in E2 as <-. by rewrite E1.
      * intros _. rewrite (gc_lt_trans c x y z) by (done || by rewrite E2). done.
  - induction x as [|x l1 IH]; intros [|y l2]; simpl; try done.
    destruct (c x y) eqn:E; simpl; [|done..]. intros Hl.
    apply (gcs_eq (c:=c)) in E as <-. f_equal. by apply IH.
Qed.

(** ** Sorting and compaction *)

#[export] Instance comparison_eq_dec : EqDecision comparison.
Proof. solve_decision. Defined.

Definition cmp_le {A} (c : A → A → comparison) (x y : A) : Prop := c x y ≠ Gt.
Definition cmp_lt {A} (c : A → A → comparison) (x y : A) : Prop := c x y = Lt.
#[export] Instance cmp_le_dec {A} (c : A → A → comparison) x y : Decision (cmp_le c x y).
Proof. unfold cmp_le. apply _. Defined.

(** [slices.SortFunc] / [slices.SortStableFunc]. The merge sort is stable, so
    it is SortStableFunc; Go leaves the order of elements comparing equal
    unspecified for SortFunc, and the stable order is one of those it may
    produce. *)
Definition sort_func {A} (c : A → A → comparison) (l : list A) : list A :=
  merge_sort (cmp_le c) l.

(** [slices.Compact]: one copy of each run of equal elements. *)
Fixpoint compact {A} `{EqDecision A} (l : list A) : list A :=
  match l with
  | x :: (y :: _) as l' => if decide (x = y) then compact l' else x :: compact l'
  | _ => l
  end.

(** The [seen]-map loop: keep the first occurrence of every element. *)
Fixpoint keep_first `{Countable A} (seen : gset A) (l : list A) : list A :=
  match l with
  | [] => []
  | x :: l' => if decide (x ∈ seen) then keep_first seen l'
               else x :: keep_first ({[x]} ∪ seen) l'
  end.

Section sorting.
Context {A} (c : A → A → comparison) `{!GoCmp c}.

#[local] Instance cmp_le_trans : Transitive (cmp_le c).
Proof. intros x y z. apply gc_trans. Qed.
#[local] Instance cmp_le_total : Total (cmp_le c).
Proof. intros x y. apply gc_le_total, _. Qed.

Lemma sort_func_perm l : sort_func c l ≡ₚ l.
Proof. apply merge_sort_Permutation. Qed.

Lemma sort_func_sorted l : StronglySorted (cmp_le c) (sort_func c l).
Proof. apply (StronglySorted_merge_sort (cmp_le c)). Qed.

Lemma elem_of_sort_func l x : x ∈ sort_func c l ↔ x ∈ l.
Proof. by rewrite sort_func_perm. Qed.

Lemma NoDup_sort_func l : NoDup (sort_func c l) ↔ NoDup l.
Proof. by rewrite sort_func_perm. Qed.

Lemma sort_func_nil_iff l : sort_func c l = [] ↔ l = [].
Proof.
  split; intros H.
  - apply Permutation_nil_r. rewrite <-H. symmetry. apply sort_func_perm.
  - apply Permutation_nil_r. rewrite sort_func_perm. by rewrite H.
Qed.

Lemma length_sort_func l : length (sort_func c l) = length l.
Proof. by rewrite sort_func_perm. Qed.
End sorting.

(** Folding a sorted slice whose tied elements may be exchanged is a function
    of the multiset of its elements. *)
Section sorted_fold.
Context {A B} (c : A → A → comparison) `{!GoCmp c} (f : B → A → B).
Hypothesis f_tie : ∀ b x y, c x y = Eq → f (f b x) y = f (f b y) x.

Lemma fold_tied_front p x s b :
  (∀ y, y ∈ p → c y x = Eq) → fold_left f (p ++ x :: s) b = fold_left f (x :: p ++ s) b.
Proof.
  revert b. induction p as [|y p IH]; intros b Hp; [done|].
  rewrite <- app_comm_cons. cbn [fold_left]. rewrite IH by (intros; apply Hp; set_solver).
  cbn [fold_left]. rewrite (f_tie b y x); [done|]. apply Hp. set_solver.
Qed.

Lemma sorted_perm_fold l1 : ∀ l2 b,
  StronglySorted (cmp_le c) l1 → StronglySorted (cmp_le c) l2 → l1 ≡ₚ l2 →
  fold_left f l1 b = fold_left f l2 b.
Proof.
  induction l1 as [|x l1 IH]; intros l2 b H1 H2 Hp.
  - apply Permutation_nil_l in Hp. by subst.
  - assert (x ∈ l2) as Hin by (rewrite <- Hp; set_solver).
    apply list_elem_of_split in Hin as (p & s & ->).
    apply StronglySorted_inv in H1 as [H1 Hx].
    rewrite Forall_forall in Hx.
    assert (l1 ≡ₚ p ++ s) as Hps.
    { apply (Permutation_cons_inv (a:=x)). by rewrite Hp, Permutation_middle. }
    rewrite fold_tied_front.
    + cbn [fold_left]. apply IH; [done| |done].
      clear -H2. induction p as [|y p IHp]; cbn in *.
      * by apply StronglySorted_inv in H2 as [? _].
      * apply StronglySorted_inv in H2 as [H2 Hy]. constructor; [by apply IHp|].
        rewrite Forall_app in Hy |- *. destruct Hy as [? Hy].
        by apply Forall_cons in Hy as [_ ?].
    + intros y Hy. apply gc_eq_le; [done|]. split.
      * clear -H2 Hy. induction p as [|z p IHp]; [by apply elem_of_nil in Hy|].
        apply StronglySorted_inv in H2 as [H2 Hz].
        apply elem_of_cons in Hy as [->|Hy]; [|by apply IHp].
        rewrite Forall_forall in Hz. apply Hz. set_solver.
      * apply Hx. rewrite Hps. set_solver.
Qed.

Lemma sorted_fold_ext l1 l2 b :
  l1 ≡ₚ l2 → fold_left f (sort_func c l1) b = fold_left f (sort_func c l2) b.
Proof.
  intros H. apply sorted_perm_fold; [by apply sort_func_sorted..|].
  by rewrite !sort_func_perm.
Qed.
End sorted_fold.

Section sorting_strict.
Context {A} (c : A → A → comparison) `{!GoCmpStrict c}.

#[local] Instance cmp_le_antisym : AntiSymm (=) (cmp_le c).
Proof.
  intros x y Hxy Hyx. apply (gcs_eq (c:=c)), gc_eq_le; [apply _|done].
Qed.

(** Sorting under a total order forgets the input order. *)
Lemma sort_func_ext l1 l2 : l1 ≡ₚ l2 → sort_func c l1 = sort_func c l2.
Proof.
  intros H. apply (StronglySorted_unique (cmp_le c)).
  - apply (sort_func_sorted c).
  - apply (sort_func_sorted c).
  - by rewrite !sort_func_perm.
Qed.

Lemma sort_func_id l : StronglySorted (cmp_le c) l → sort_func c l = l.
Proof.
  intros H. apply (StronglySorted_unique (cmp_le c)); [|done|].
  - apply (sort_func_sorted c).
  - apply sort_func_perm.
Qed.

Lemma cmp_lt_irrefl x : ¬ cmp_lt c x x.
Proof. unfold cmp_lt. by rewrite gc_refl by apply _. Qed.

Lemma cmp_le_neq_lt x y : cmp_le c x y → x ≠ y → cmp_lt c x y.
Proof.
  unfold cmp_le, cmp_lt. intros Hle Hne. destruct (c x y) eqn:E; [|done|done].
  by apply (gcs_eq (c:=c)) in E.
Qed.

Lemma sorted_lt_NoDup l : StronglySorted (cmp_lt c) l → NoDup l.
Proof.
  induction 1 as [|x l _ IH Hx]; constructor; [|done].
  intros Hin. rewrite Forall_forall in Hx. by apply (cmp_lt_irrefl x), Hx.
Qed.

Lemma sorted_le_NoDup_lt l :
  StronglySorted (cmp_le c) l → NoDup l → StronglySorted (cmp_lt c) l.
Proof.
  induction 1 as [|x l _ IH Hx]; intros Hnd; [constructor|].
  apply NoDup_cons in Hnd as [Hx' Hnd]. constructor; [by apply IH|].
  rewrite Forall_forall in Hx |- *. intros y Hy.
  apply cmp_le_neq_lt; [by apply Hx|]. by intros ->.
Qed.

Lemma sorted_lt_le l : StronglySorted (cmp_lt c) l → StronglySorted (cmp_le c) l.
Proof.
  induction 1 as [|x l _ IH Hx]; constructor; [done|].
  eapply Forall_impl; [exact Hx|]. unfold cmp_lt, cmp_le. by intros y ->.
Qed.

(** A strictly sorted list is determined by the set of its elements. *)
Lemma sorted_lt_ext l1 l2 :
  StronglySorted (cmp_lt c) l1 → StronglySorted (cmp_lt c) l2 →
  (∀ x, x ∈ l1 ↔ x ∈ l2) → l1 = l2.
Proof.
  intros H1 H2 Hext. apply (StronglySorted_unique (cmp_le c)).
  - by apply sorted_lt_le.
  - by apply sorted_lt_le.
  - apply NoDup_Permutation; [by apply sorted_lt_NoDup..|done].
Qed.

Context `{!EqDecision A}.

Lemma compact_cons_ne (x y : A) l :
  x ≠ y → compact (x :: y :: l) = x :: compact (y :: l).
Proof. intros H. cbn [compact]. by rewrite decide_False. Qed.
Lemma compact_cons_eq (x : A) l : compact (x :: x :: l) = compact (x :: l).
Proof. cbn [compact]. by rewrite decide_True. Qed.

Lemma elem_of_compact (l : list A) x : x ∈ compact l ↔ x ∈ l.
Proof.
  induction l as [|y [|z l] IH]; [done|done|].
  destruct (decide (y = z)) as [->|Hne].
  - rewrite compact_cons_eq, IH. set_solver.
  - rewrite compact_cons_ne by done. rewrite elem_of_cons, IH. set_solver.
Qed.

Lemma compact_sorted (l : list A) :
  StronglySorted (cmp_le c) l → StronglySorted (cmp_lt c) (compact l).
Proof.
  induction l as [|y [|z l] IH]; intros Hs; [constructor|repeat constructor|].
  apply StronglySorted_inv in Hs as [Hs Hy].
  destruct (decide (y = z)) as [->|Hne].
  - rewrite compact_cons_eq. by apply IH.
  - rewrite compact_cons_ne by done. constructor; [by apply IH|].
    apply Forall_forall. intros x Hx. rewrite elem_of_compact in Hx.
    rewrite Forall_forall in Hy.
    assert (cmp_lt c y z) as Hyz.
    { apply cmp_le_neq_lt; [|done]. apply Hy. set_solver. }
    apply elem_of_cons in Hx as [->|Hx]; [done|].
    apply StronglySorted_inv in Hs as [_ Hz]. rewrite Forall_forall in Hz.
    apply (gc_lt_trans c y z x); [done|]. by apply Hz.
Qed.

Lemma sort_compact_sorted l : StronglySorted (cmp_lt c) (compact (sort_func c l)).
Proof. apply compact_sorted, (sort_func_sorted c). Qed.

Lemma elem_of_sort_compact l x : x ∈ compact (sort_func c l) ↔ x ∈ l.
Proof. by rewrite elem_of_compact, elem_of_sort_func. Qed.

(** [slices.Sort] then [slices.Compact] is a canonical form of the set. *)
Lemma sort_compact_ext l1 l2 :
  (∀ x, x ∈ l1 ↔ x ∈ l2) →
  compact (sort_func c l1) = compact (sort_func c l2).
Proof.
  intros H. apply sorted_lt_ext; [apply sort_compact_sorted..|].
  intros x. by rewrite !elem_of_sort_compact.
Qed.
End sorting_strict.

Section keep_first.
Context `{Countable A}.
Implicit Types (l : list A) (seen : gset A).

Lemma elem_of_keep_first seen l x : x ∈ keep_first seen l ↔ x ∈ l ∧ x ∉ seen.
Proof.
  revert seen. induction l as [|y l IH]; intros seen; simpl; [set_solver|].
  case_decide as Hy.
  - rewrite IH, elem_of_cons. set_solver.
  - rewrite !elem_of_cons, IH. destruct (decide (x = y)); set_solver.
Qed.

Lemma NoDup_keep_first seen l : NoDup (keep_first seen l).
Proof.
  revert seen. induction l as [|y l IH]; intros seen; simpl; [constructor|].
  case_decide; [done|]. constructor; [|done].
  rewrite elem_of_keep_first. set_solver.
Qed.

Lemma keep_first_snoc seen l x :
  keep_first seen (l ++ [x]) =
  keep_first seen l ++ (if decide (x ∈ l ∨ x ∈ seen) then [] else [x]).
Proof.
  revert seen. induction l as [|y l IH]; intros seen; cbn [keep_first app].
  - destruct (decide (x ∈ seen)), (decide _); set_solver.
  - destruct (decide (y ∈ seen)); rewrite IH; repeat destruct (decide _); set_solver.
Qed.
End keep_first.

#[export] Hint Resolve sort_func_perm NoDup_keep_first : ksg.


(** ** Lists *)

Lemma exists_elem_nil {A} (P : A → Prop) : (∃ y, y ∈ [] ∧ P y) ↔ False.
Proof. split; [|done]. by intros (y & Hy%not_elem_of_nil & _). Qed.

Lemma exists_elem_cons {A} (P : A → Prop) x l :
  (∃ y, y ∈ x :: l ∧ P y) ↔ P x ∨ ∃ y, y ∈ l ∧ P y.
Proof.
  split.
  - intros (y & [->|Hy]%elem_of_cons & HP); [by left|right; by exists y].
  - intros [HP|(y & Hy & HP)]; eexists; (split; [|exact HP]); [by left|by right].
Qed.

Lemma exists_elem_app {A} (P : A → Prop) l1 l2 :
  (∃ y, y ∈ l1 ++ l2 ∧ P y) ↔ (∃ y, y ∈ l1 ∧ P y) ∨ ∃ y, y ∈ l2 ∧ P y.
Proof. setoid_rewrite elem_of_app. naive_solver. Qed.

Lemma elem_of_snoc {A} (l : list A) x y : x ∈ l ++ [y] ↔ x ∈ l ∨ x = y.
Proof. by rewrite elem_of_app, list_elem_of_singleton. Qed.

Lemma elem_of_option_list {A} (o : option A) x : x ∈ option_list o ↔ o = Some x.
Proof.
  destruct o; simpl; rewrite ?list_elem_of_singleton, ?elem_of_nil; intuition congruence.
Qed.

Lemma elem_of_concat {A} (ls : list (list A)) x : x ∈ concat ls ↔ ∃ l, l ∈ ls ∧ x ∈ l.
Proof. rewrite list_elem_of_In, in_concat. by setoid_rewrite <- list_elem_of_In. Qed.
