(* ===== verification/GoStrings.v ===== *)
(** The string functions of the Go standard library the sources use, on byte
    strings ([string] is a list of 8-bit characters, as a Go string is), and
    the lemmas about them. Nothing here is specific to the program. *)

From S2P Require Import Prelude.
From Stdlib Require Export Ascii.
From stdpp Require Export strings.

(** [strings.Contains(s, c)] for a one-byte [c]. *)
Fixpoint contains_byte (c : ascii) (s : string) : bool :=
  match s with
  | "" => false
  | String a s' => Ascii.eqb a c || contains_byte c s'
  end.

(** [strings.Cut(s, sep)] for a one-byte separator: the text before the first
    separator, the text after it, and whether it occurs. *)
Fixpoint cut (sep : ascii) (s : string) : string * string * bool :=
  match s with
  | "" => ("", "", false)
  | String a s' =>
      if Ascii.eqb a sep then ("", s', true)
      else let '(x, y, ok) := cut sep s' in (String a x, y, ok)
  end.

(** [strings.Split(s, sep)] for a one-byte separator; never empty. *)
Fixpoint split (sep : ascii) (s : string) : list string :=
  match s with
  | "" => [""]
  | String a s' =>
      if Ascii.eqb a sep then "" :: split sep s'
      else match split sep s' with
           | [] => [String a ""]
           | w :: ws => String a w :: ws
           end
  end.

(** [strings.Join(l, sep)]. *)
Definition join (sep : string) (l : list string) : string := String.concat sep l.

(** [strings.HasPrefix]. *)
Definition has_prefix (p s : string) : bool := String.prefix p s.

(** [strings.CutSuffix(s, suffix)]. *)
Fixpoint cut_suffix (suffix s : string) : option string :=
  if String.eqb s suffix then Some ""
  else match s with
       | "" => None
       | String a s' => String a <$> cut_suffix suffix s'
       end.

(** [strings.TrimPrefix(s, prefix)]. *)
Definition trim_prefix (p s : string) : string :=
  if has_prefix p s then String.substring (String.length p) (String.length s - String.length p) s else s.

(** The text around the last [sep], [strings.LastIndex]; [None] without one. *)
Fixpoint cut_last (sep : ascii) (s : string) : option (string * string) :=
  match s with
  | "" => None
  | String a s' =>
      match cut_last sep s' with
      | Some (x, y) => Some (String a x, y)
      | None => if Ascii.eqb a sep then Some ("", s') else None
      end
  end.

(** [strings.ReplaceAll(s, c, by_)] for a one-byte [c]. *)
Fixpoint replace_byte (c : ascii) (by_ : string) (s : string) : string :=
  match s with
  | "" => ""
  | String a s' => (if Ascii.eqb a c then by_ else String a "") +:+ replace_byte c by_ s'
  end.

(** ** Unicode-aware helpers, on the UTF-8 bytes

    [strings.ToLower] as far as a comparison with an ASCII word can observe it:
    ASCII letters, and the two runes outside ASCII whose lower case is an ASCII
    letter, U+0130 (bytes C4 B0, lower case "i") and U+212A (E2 84 AA, "k").
    Every other rune is left alone: its lower case holds a non-ASCII byte. *)
Definition byte_of_nat (n : nat) : ascii := ascii_of_nat n.

Definition lower_ascii (a : ascii) : ascii :=
  let n := nat_of_ascii a in
  if (65 <=? n)%nat && (n <=? 90)%nat then byte_of_nat (n + 32) else a.

Fixpoint to_lower_ascii (s : string) : string :=
  match s with "" => "" | String a s' => String (lower_ascii a) (to_lower_ascii s') end.

Fixpoint to_lower (s : string) : string :=
  match s with
  | "" => ""
  | String a s' =>
      match s' with
      | String b s'' =>
          if Ascii.eqb a (byte_of_nat 196) && Ascii.eqb b (byte_of_nat 176)
          then String "i" (to_lower s'')
          else match s'' with
               | String d s''' =>
                   if Ascii.eqb a (byte_of_nat 226) && Ascii.eqb b (byte_of_nat 132)
                      && Ascii.eqb d (byte_of_nat 170)
                   then String "k" (to_lower s''')
                   else String (lower_ascii a) (to_lower s')
               | "" => String (lower_ascii a) (to_lower s')
               end
      | "" => String (lower_ascii a) (to_lower s')
      end
  end.

(** [strings.TrimSpace(s) == ""]: the string is a sequence of runes with the
    Unicode White_Space property (one, two or three bytes each). *)
Definition space1 (a : ascii) : bool :=
  let n := nat_of_ascii a in ((9 <=? n)%nat && (n <=? 13)%nat) || (n =? 32)%nat.
Definition space2 (a b : ascii) : bool :=
  (nat_of_ascii a =? 194)%nat &&
  ((nat_of_ascii b =? 133)%nat || (nat_of_ascii b =? 160)%nat).
Definition space3 (a b c : ascii) : bool :=
  let '(x, y, z) := (nat_of_ascii a, nat_of_ascii b, nat_of_ascii c) in
  ((x =? 225) && (y =? 154) && (z =? 128)
   || (x =? 226) && (y =? 128) &&
      ((128 <=? z) && (z <=? 138) || (z =? 168) || (z =? 169) || (z =? 175))
   || (x =? 226) && (y =? 129) && (z =? 159)
   || (x =? 227) && (y =? 128) && (z =? 128))%nat%bool.

Fixpoint blank (s : string) : bool :=
  match s with
  | "" => true
  | String a s1 =>
      if space1 a then blank s1 else
      match s1 with
      | "" => false
      | String b s2 =>
          if space2 a b then blank s2 else
          match s2 with
          | "" => false
          | String c s3 => if space3 a b c then blank s3 else false
          end
      end
  end.

(** ** Lemmas *)

Lemma append_char c z : String c "" +:+ z = String c z.
Proof. done. Qed.

Lemma append_nil_r s : s +:+ "" = s.
Proof. induction s as [|a s IH]; simpl; [done|by rewrite IH]. Qed.

Lemma append_assoc s t u : (s +:+ t) +:+ u = s +:+ (t +:+ u).
Proof. induction s as [|a s IH]; simpl; [done|by rewrite IH]. Qed.

Lemma length_append s t : String.length (s +:+ t) = String.length s + String.length t.
Proof. induction s as [|a s IH]; simpl; [done|by rewrite IH]. Qed.

Lemma append_inj_l s t u : s +:+ t = s +:+ u → t = u.
Proof. induction s as [|a s IH]; simpl; [done|]. intros [=]. by apply IH. Qed.

Lemma join_cons2 sep x y l : join sep (x :: y :: l) = x +:+ sep +:+ join sep (y :: l).
Proof. done. Qed.

Lemma contains_byte_app c s t :
  contains_byte c (s +:+ t) = contains_byte c s || contains_byte c t.
Proof. induction s as [|a s IH]; simpl; [done|]. by rewrite IH, orb_assoc. Qed.

Lemma cut_found sep x y :
  contains_byte sep x = false → cut sep (x +:+ String sep y) = (x, y, true).
Proof.
  induction x as [|a x IH]; simpl.
  - intros _. by rewrite Ascii.eqb_refl.
  - intros [Ha Hx]%orb_false_iff. by rewrite Ha, IH.
Qed.

Lemma cut_spec sep s x y ok :
  cut sep s = (x, y, ok) →
  contains_byte sep x = false ∧
  ok = contains_byte sep s ∧
  s = if ok then x +:+ String sep y else x.
Proof.
  revert x y ok. induction s as [|a s IH]; simpl; intros x y ok.
  - by intros [= <- <- <-].
  - destruct (Ascii.eqb a sep) eqn:Ha.
    + intros [= <- <- <-]. apply Ascii.eqb_eq in Ha as ->. done.
    + destruct (cut sep s) as [[x' y'] ok'] eqn:E. intros [= <- <- <-].
      destruct (IH _ _ _ eq_refl) as (Hx & Hok & Hs). simpl.
      rewrite Ha, Hx. split_and!; [done|done|]. rewrite Hs at 1. by destruct ok'.
Qed.

Lemma split_no_sep sep s : contains_byte sep s = false → split sep s = [s].
Proof.
  induction s as [|a s IH]; simpl; [done|].
  intros [Ha Hs]%orb_false_iff. by rewrite Ha, IH.
Qed.

Lemma split_app sep x y :
  contains_byte sep x = false → split sep (x +:+ String sep y) = x :: split sep y.
Proof.
  induction x as [|a x IH]; simpl.
  - intros _. by rewrite Ascii.eqb_refl.
  - intros [Ha Hx]%orb_false_iff. by rewrite Ha, IH.
Qed.

(** Splitting a join gives the parts back when none holds the separator. *)
Lemma split_join sep x l :
  Forall (λ w, contains_byte sep w = false) (x :: l) →
  split sep (join (String sep "") (x :: l)) = x :: l.
Proof.
  revert x. induction l as [|y l IH]; intros x Hf.
  - apply split_no_sep. by inv Hf.
  - rewrite join_cons2.
    rewrite append_char. inv Hf.
    rewrite split_app by done. by rewrite IH.
Qed.

Lemma join_split sep s : join (String sep "") (split sep s) = s.
Proof.
  induction s as [|a s IH]; [done|]. simpl.
  destruct (Ascii.eqb a sep) eqn:Ha.
  - apply Ascii.eqb_eq in Ha as ->.
    destruct (split sep s) as [|w ws] eqn:E.
    + destruct s as [|b s]; simpl in E; [done|].
      destruct (Ascii.eqb b sep); [done|]. by destruct (split sep s).
    + rewrite join_cons2.
      rewrite append_char. by rewrite IH.
  - destruct (split sep s) as [|w ws]; simpl in IH |- *; [by rewrite <-IH|].
    destruct ws; simpl in *; by rewrite <-IH.
Qed.

Lemma cut_suffix_spec suf s p : cut_suffix suf s = Some p ↔ s = p +:+ suf.
Proof.
  revert p. induction s as [|a s IH]; intros p; cbn [cut_suffix];
    match goal with |- context [String.eqb ?t suf] =>
      destruct (String.eqb_spec t suf) as [<-|Hne] end.
  - split; [by intros [= <-]|]. by destruct p.
  - split; [done|]. intros H. by destruct p.
  - split; [by intros [= <-]|]. intros Hp.
    apply (f_equal String.length) in Hp. rewrite length_append in Hp.
    destruct p; [done|]. simpl in Hp. lia.
  - rewrite fmap_Some. split.
    + intros (q & Hq%IH & ->). by rewrite Hq.
    + destruct p as [|b p]; [intros H; by destruct Hne|].
      intros [= <- Hs]. exists p. split; [by apply IH|done].
Qed.
