(* ===== verification/Keyed.v ===== *)
(** Indexing loops: a Go loop that reads one row after another and writes a map
    entry under the row's key, keeping the better of the stored value and the
    row's. Such a loop is [fold_keyed]; the lemmas reduce it to one key at a
    time and show that a loop keeping the least value under a total order is a
    function of the set of its rows. *)

From S2P Require Import Prelude.

Section fold_keyed.
Context {R V : Type} `{Countable K}.
Implicit Types (l : list R) (m : gmap K V).

(** One iteration: [key] is [None] when the row is skipped, [upd] is [None]
    when the stored value stays. *)
Definition keyed_step (key : R → option K) (upd : option V → R → option V) m (r : R) : gmap K V :=
  match key r with
  | None => m
  | Some k => match upd (m !! k) r with Some v => <[k := v]> m | None => m end
  end.

Definition fold_keyed (key : R → option K) (upd : option V → R → option V) l m : gmap K V :=
  fold_left (keyed_step key upd) l m.

(** The same loop at one key. *)
Definition at_key (upd : option V → R → option V) (o : option V) (r : R) : option V :=
  match upd o r with Some v => Some v | None => o end.

Lemma lookup_fold_keyed key upd l m k :
  fold_keyed key upd l m !! k =
  fold_left (at_key upd) (filter (λ r, key r = Some k) l) (m !! k).
Proof.
  unfold fold_keyed. revert m. induction l as [|r l IH]; intros m; [done|].
  cbn [fold_left]. rewrite IH, filter_cons. unfold keyed_step at 1.
  destruct (key r) as [k'|] eqn:Ek.
  - destruct (decide (Some k' = Some k)) as [[= ->]|Hne]; cbn [fold_left].
    + f_equal. unfold at_key. destruct (upd (m !! k) r); [by rewrite lookup_insert_eq|done].
    + f_equal. destruct (upd (m !! k') r); [|done].
      rewrite lookup_insert_ne; [done|congruence].
  - rewrite decide_False by done. done.
Qed.
End fold_keyed.

(** ** The least element *)

Section least.
Context {A} (c : A → A → comparison) `{!GoCmpStrict c}.

(** Keep the stored value unless the new one is strictly better. *)
Definition keep_least (o : option A) (x : A) : option A :=
  match o with
  | None => Some x
  | Some y => if bool_decide (c x y = Lt) then Some x else None
  end.
Definition least_step (o : option A) (x : A) : option A :=
  match keep_least o x with Some v => Some v | None => o end.
Definition least (l : list A) : option A := fold_left least_step l None.

Lemma least_step_None x : least_step None x = Some x.
Proof. done. Qed.

Lemma least_step_Some x y :
  least_step (Some y) x = Some x ∧ c x y = Lt ∨ least_step (Some y) x = Some y ∧ c y x ≠ Gt.
Proof.
  unfold least_step, keep_least. case_bool_decide as H; [by left|]. right. split; [done|].
  rewrite (gc_antisym (c:=c) x y). destruct (c x y); done.
Qed.

Lemma least_snoc l x : least (l ++ [x]) = least_step (least l) x.
Proof. unfold least. by rewrite fold_left_app. Qed.

Lemma least_None l : least l = None ↔ l = [].
Proof.
  destruct l as [|x l _] using rev_ind; [done|]. rewrite least_snoc.
  split; [|by destruct l]. destruct (least l) as [y|]; [|done].
  destruct (least_step_Some x y) as [[-> _]|[-> _]]; done.
Qed.

Lemma least_Some l x : least l = Some x → x ∈ l ∧ ∀ y, y ∈ l → c x y ≠ Gt.
Proof.
  revert x. induction l as [|z l IH] using rev_ind; intros x; [done|]. rewrite least_snoc.
  destruct (least l) as [y|] eqn:E.
  - specialize (IH y eq_refl) as [Hy Hle].
    destruct (least_step_Some z y) as [[-> Hlt]|[-> Hge]]; intros [= <-].
    + split; [set_solver|]. intros w [Hw|Hw%list_elem_of_singleton]%elem_of_app.
      * apply (gc_trans (c:=c) z y w); [by rewrite Hlt|by apply Hle].
      * subst. by rewrite gc_refl by apply _.
    + split; [set_solver|]. intros w [Hw|Hw%list_elem_of_singleton]%elem_of_app; [by apply Hle|by subst].
  - apply least_None in E as ->. cbn. intros [= <-]. split; [set_solver|].
    intros y Hy%list_elem_of_singleton. subst. by rewrite gc_refl by apply _.
Qed.

Lemma least_spec l x : least l = Some x ↔ x ∈ l ∧ ∀ y, y ∈ l → c x y ≠ Gt.
Proof.
  split; [apply least_Some|]. intros [Hx Hle]. destruct (least l) as [y|] eqn:E.
  - apply least_Some in E as [Hy Hle']. f_equal. apply (gcs_eq (c:=c)), gc_eq_le; [apply _|].
    split; [by apply Hle'|by apply Hle].
  - apply least_None in E as ->. by apply elem_of_nil in Hx.
Qed.

(** The pick is a function of the set of candidates. *)
Lemma least_ext l1 l2 : (∀ x, x ∈ l1 ↔ x ∈ l2) → least l1 = least l2.
Proof.
  intros H. apply option_eq. intros x. rewrite !least_spec. setoid_rewrite H. done.
Qed.
End least.

(** ** Loops that keep the least value *)

Section keyed_least.
Context {R A : Type} `{Countable K} (c : A → A → comparison) `{!GoCmpStrict c}.
Context (key : R → option K) (val : R → A).
Implicit Types (l : list R) (m : gmap K A).

(** Keep, per key, the least value of the rows with that key. *)
Definition index_least l : gmap K A :=
  fold_keyed key (λ o r, keep_least c o (val r)) l ∅.

Lemma lookup_index_least l k :
  index_least l !! k = least c (map val (filter (λ r, key r = Some k) l)).
Proof.
  unfold index_least. rewrite lookup_fold_keyed, lookup_empty.
  unfold least. generalize (filter (λ r, key r = Some k) l). intros rows.
  generalize (@None A). induction rows as [|r rows IH]; intros o; [done|]. cbn. by rewrite IH.
Qed.

Lemma index_least_Some l k x :
  index_least l !! k = Some x ↔
  (∃ r, r ∈ l ∧ key r = Some k ∧ val r = x) ∧
  ∀ r, r ∈ l → key r = Some k → c x (val r) ≠ Gt.
Proof.
  rewrite lookup_index_least, least_spec by done. split.
  - intros [Hx Hle]. apply list_elem_of_fmap in Hx as (r & -> & Hr).
    apply list_elem_of_filter in Hr as [Hk Hr]. split; [by exists r|].
    intros r' Hr' Hk'. apply Hle, list_elem_of_fmap. exists r'. split; [done|].
    by apply list_elem_of_filter.
  - intros [(r & Hr & Hk & <-) Hle]. split.
    + apply list_elem_of_fmap. exists r. split; [done|]. by apply list_elem_of_filter.
    + intros y Hy. apply list_elem_of_fmap in Hy as (r' & -> & Hr').
      apply list_elem_of_filter in Hr' as [Hk' Hr']. by apply Hle.
Qed.

(** The index is a function of the set of rows. *)
Lemma index_least_ext l1 l2 : (∀ r, r ∈ l1 ↔ r ∈ l2) → index_least l1 = index_least l2.
Proof.
  intros Hl. apply map_eq. intros k. apply option_eq. intros x. rewrite !index_least_Some.
  by setoid_rewrite Hl.
Qed.
End keyed_least.

(** Comparisons on pairs and triples of strings, the shape most picks use. *)
Definition cmp_pair {A B} (c1 : A → A → comparison) (c2 : B → B → comparison) : A * B → A * B → comparison :=
  cmp_lex (on_key fst c1) (on_key snd c2).

#[export] Instance cmp_pair_strict {A B} (c1 : A → A → comparison) (c2 : B → B → comparison)
  `{!GoCmpStrict c1, !GoCmpStrict c2} : GoCmpStrict (cmp_pair c1 c2).
Proof.
  split; [unfold cmp_pair; apply _|]. intros [a1 b1] [a2 b2]. unfold cmp_pair.
  rewrite cmp_lex_eq. unfold on_key. cbn. intros [H1 H2].
  apply (gcs_eq (c:=c1)) in H1. apply (gcs_eq (c:=c2)) in H2. by subst.
Qed.

(** The order a flipped comparison gives. *)
#[export] Instance cmp_rev_strict {A} (c : A → A → comparison) `{!GoCmpStrict c} :
  GoCmpStrict (cmp_rev c).
Proof.
  split; [apply _|]. intros x y. unfold cmp_rev. intros H%(gcs_eq (c:=c)). done.
Qed.

(** A value stored by the loop was written by one of its rows. *)
Lemma fold_keyed_origin {R V} `{Countable K} (key : R → option K) (upd : option V → R → option V)
  (l : list R) (k : K) (v : V) :
  fold_keyed key upd l ∅ !! k = Some v →
  ∃ r o, r ∈ l ∧ key r = Some k ∧ upd o r = Some v.
Proof.
  rewrite lookup_fold_keyed, lookup_empty. intros Hv.
  assert (∃ r o, r ∈ filter (λ r, key r = Some k) l ∧ upd o r = Some v) as (r & o & Hr & Hu).
  { revert Hv. induction (filter (λ r, key r = Some k) l) as [|r rows IH] using rev_ind; [done|].
    rewrite fold_left_app. cbn [fold_left]. unfold at_key at 1.
    destruct (upd _ r) as [w|] eqn:Eu; intros Hv.
    - injection Hv as ->. exists r. eexists. split; [set_solver|exact Eu].
    - destruct (IH Hv) as (r' & o & Hr & Hu). exists r', o. set_solver. }
  apply list_elem_of_filter in Hr as [Hk Hr]. by exists r, o.
Qed.

(** Entries looked up under keys read off a list. *)
Lemma lookup_select {X V} `{Countable K} (f : X → K) (g : K → option V) (l : list X) (k : K) (a : V) :
  (list_to_map (omap (λ x, (λ a, (f x, a)) <$> g (f x)) l) : gmap K V) !! k = Some a ↔
  g k = Some a ∧ ∃ x, x ∈ l ∧ f x = k.
Proof.
  induction l as [|x l IH]; cbn [omap list_omap].
  - cbn. rewrite lookup_empty. split; [done|]. intros (_ & x & Hx & _). by apply elem_of_nil in Hx.
  - destruct (g (f x)) as [b|] eqn:Eg; cbn [fmap option_fmap option_map].
    + cbn [list_to_map foldr fst snd]. destruct (decide (f x = k)) as [<-|Hne].
      * cbn. rewrite lookup_insert_eq. split; [intros [= ->]|intros [Hg _]; congruence].
        split; [done|]. exists x. set_solver.
      * cbn. rewrite lookup_insert_ne by done. rewrite IH. set_solver.
    + rewrite IH. split; intros (Hg & y & Hy & <-); (split; [done|]).
      * exists y. set_solver.
      * apply elem_of_cons in Hy as [->|Hy]; [congruence|]. by exists y.
Qed.

(** A loop that keeps a row's value when it is the first or strictly smaller,
    over rows whose values its own comparison orders. *)
Lemma keep_least_fold_in {R A} `{Countable K} (c : A → A → comparison) `{!GoCmpStrict c}
  (key : R → option K) (val : R → A) (upd : option A → R → option A) (l : list R) :
  (∀ r, r ∈ l → upd None r = Some (val r)) →
  (∀ r r', r ∈ l → r' ∈ l →
     upd (Some (val r')) r = if bool_decide (c (val r) (val r') = Lt) then Some (val r) else None) →
  fold_keyed key upd l ∅ = index_least c key val l.
Proof.
  intros H1 H2. apply map_eq. intros k. rewrite lookup_index_least, lookup_fold_keyed, lookup_empty.
  assert (∀ r, r ∈ filter (λ r, key r = Some k) l → r ∈ l) as Hl
    by (by intros r [_ ?]%list_elem_of_filter).
  revert Hl. generalize (filter (λ r, key r = Some k) l). intros rows Hl.
  induction rows as [|s rows IH] using rev_ind; [done|].
  rewrite fold_left_app, map_app. cbn [map fold_left].
  rewrite least_snoc, IH by (intros x Hx; apply Hl; set_solver).
  destruct (least c (map val rows)) as [cur|] eqn:E; unfold at_key, least_step, keep_least.
  - apply least_Some in E as [(r' & -> & Hr')%list_elem_of_fmap _]; [|apply _].
    by rewrite H2 by (apply Hl; set_solver).
  - by rewrite H1 by (apply Hl; set_solver).
Qed.

(** A loop that keeps the rows of the least class, and refines the stored value
    with each further row of it. *)
Section keep_class.
Context {R V C : Type} (c : C → C → comparison) `{!GoCmpStrict c}.
Context (cls : R → C) (st : V → C) (init : R → V) (refine : V → R → V).

Definition class_step (o : option V) (r : R) : option V :=
  Some match o with
       | None => init r
       | Some v => match c (cls r) (st v) with Lt => init r | Eq => refine v r | Gt => v end
       end.

Context (Hinit : ∀ r, st (init r) = cls r) (Hst : ∀ v r, st (refine v r) = st v).
Context (Hsym : ∀ r1 r2, cls r1 = cls r2 → refine (init r1) r2 = refine (init r2) r1).
Context (Hcomm : ∀ v r1 r2, refine (refine v r1) r2 = refine (refine v r2) r1).

Lemma class_step_comm o r1 r2 :
  class_step (class_step o r1) r2 = class_step (class_step o r2) r1.
Proof using All.
  assert (∀ x y, c x y = Eq ↔ x = y) as Heq
    by (intros x y; split; [apply (gcs_eq (c:=c))|intros ->; by apply (gc_refl c)]).
  unfold class_step. f_equal. destruct o as [v|].
  - pose proof (gc_antisym (c:=c) (cls r1) (cls r2)) as Ha.
    destruct (c (cls r1) (st v)) eqn:E1, (c (cls r2) (st v)) eqn:E2; rewrite ?Hinit, ?Hst, ?E1, ?E2; try done.
    + apply Heq in E1. rewrite E1 in *. by rewrite (gc_antisym (c:=c) (cls r2) (st v)), E2.
    + apply Heq in E2. rewrite E2 in *. by rewrite (gc_antisym (c:=c) (cls r1) (st v)), E1.
    + rewrite Ha. destruct (c (cls r1) (cls r2)) eqn:E; cbn; [|done|done].
      by apply Hsym, Heq.
    + assert (c (cls r2) (cls r1) = Gt) as Hgt.
      { rewrite (gc_antisym (c:=c) (cls r1) (cls r2)).
        rewrite (gc_lt_trans c (cls r1) (st v) (cls r2)); [done|done|].
        rewrite (gc_antisym (c:=c) (cls r2) (st v)), E2. done. }
      by rewrite Hgt.
    + assert (c (cls r1) (cls r2) = Gt) as Hgt.
      { rewrite (gc_antisym (c:=c) (cls r2) (cls r1)).
        rewrite (gc_lt_trans c (cls r2) (st v) (cls r1)); [done|done|].
        rewrite (gc_antisym (c:=c) (cls r1) (st v)), E1. done. }
      by rewrite Hgt.
  - rewrite !Hinit, (gc_antisym (c:=c) (cls r1) (cls r2)).
    destruct (c (cls r1) (cls r2)) eqn:E; cbn; [|done|done]. by apply Hsym, Heq.
Qed.

Lemma class_fold_perm l1 l2 :
  l1 ≡ₚ l2 → fold_left class_step l1 None = fold_left class_step l2 None.
Proof using All.
  intros Hp. generalize (@None V). induction Hp as [|x l1 l2 _ IH|x y l|l1 l2 l3 _ IH1 _ IH2]; intros o; cbn.
  - done.
  - apply IH.
  - by rewrite class_step_comm.
  - by rewrite IH1.
Qed.
End keep_class.

Lemma filter_ext_pred {A} (P Q : A → Prop) `{∀ x, Decision (P x), ∀ x, Decision (Q x)} (l : list A) :
  (∀ x, P x ↔ Q x) → filter P l = filter Q l.
Proof.
  intros HPQ. induction l as [|x l IH]; [done|]. rewrite !filter_cons, IH.
  destruct (decide (P x)), (decide (Q x)); try done; exfalso; naive_solver.
Qed.

(** A loop appending each row under its key. *)
Definition append_by {R V K} `{Countable K} (key : R → option K) (val : R → V) (l : list R)
  (m : gmap K (list V)) : gmap K (list V) :=
  fold_keyed key (λ o r, Some (default [] o ++ [val r])) l m.

Lemma lookup_append_by {R V K} `{Countable K} (key : R → option K) (val : R → V) (l : list R)
  (m : gmap K (list V)) k :
  append_by key val l m !! k =
  match filter (λ r, key r = Some k) l with
  | [] => m !! k
  | rows => Some (default [] (m !! k) ++ map val rows)
  end.
Proof.
  unfold append_by. rewrite lookup_fold_keyed. generalize (filter (λ r, key r = Some k) l).
  intros rows. generalize (m !! k). induction rows as [|r rows IH]; intros o; [done|].
  cbn [fold_left]. rewrite IH. unfold at_key. destruct rows as [|r' rows]; [done|].
  cbn [default from_option]. change (id ?x) with x. by rewrite <- app_assoc.
Qed.

Lemma lookup_append_by_default {R V K} `{Countable K} (key : R → option K) (val : R → V) (l : list R) k :
  default [] (append_by key val l ∅ !! k) = map val (filter (λ r, key r = Some k) l).
Proof. rewrite lookup_append_by, lookup_empty. by destruct (filter _ l). Qed.
