(* ===== verification/Float64.v ===== *)
(** Go's [float64], as IEEE 754 binary64 values of the Standard Library's
    executable specification ([SpecFloat]): 53 bits of precision, exponents
    below 1024, round to nearest even. No axiom about hardware floats. *)

From S2P Require Import Prelude.
From Stdlib Require Export SpecFloat.

#[local] Open Scope Z_scope.

Abbreviation float64 := spec_float.

#[export] Instance float64_eq_dec : EqDecision float64.
Proof. solve_decision. Defined.

Definition fadd (x y : float64) : float64 := SFadd 53 1024 x y.
Definition fdiv (x y : float64) : float64 := SFdiv 53 1024 x y.
(** Go's [==], [>] on floats: false as soon as an operand is NaN. *)
Definition feqb (x y : float64) : bool := SFeqb x y.
Definition fgtb (x y : float64) : bool := SFltb y x.
Definition fnan (x : float64) : bool := match x with S754_nan => true | _ => false end.

(** Conversion [float64(n)] of an integer. *)
Definition f_of_Z (n : Z) : float64 := binary_normalize 53 1024 n 0 false.
Definition f_of_nat (n : nat) : float64 := f_of_Z (Z.of_nat n).

Example fadd_1_2 : fadd (f_of_Z 1) (f_of_Z 2) = f_of_Z 3.
Proof. reflexivity. Qed.
Example fdiv_3_2 : fdiv (f_of_Z 6) (f_of_Z 4) = S754_finite false 6755399441055744 (-52).
Proof. reflexivity. Qed.

Lemma feqb_refl x : fnan x = false → feqb x x = true.
Proof.
  unfold feqb, SFeqb, SFcompare. destruct x as [[]|[]| |[] m e]; try done; intros _.
  - rewrite Z.compare_refl, Pos.compare_cont_refl. done.
  - rewrite Z.compare_refl, Pos.compare_cont_refl. done.
Qed.

(** [x > y] excludes [y > x]. *)
Lemma fgtb_asym x y : fgtb x y = true → fgtb y x = false.
Proof.
  unfold fgtb, SFltb, SFcompare.
  destruct x as [[]|[]| |[] m e], y as [[]|[]| |[] m' e']; try done;
    rewrite (Z.compare_antisym e e');
    change (Pos.compare_cont Eq m' m) with (Pos.compare m' m);
    change (Pos.compare_cont Eq m m') with (Pos.compare m m');
    rewrite (Pos.compare_antisym m m');
    destruct (e ?= e'), (Pos.compare m m'); done.
Qed.

(** [x > y] and [y > z] give [x > z]. *)
Lemma fgtb_trans x y z : fgtb x y = true → fgtb y z = true → fgtb x z = true.
Proof.
  unfold fgtb, SFltb, SFcompare.
  destruct x as [[]|[]| |[] mx ex], y as [[]|[]| |[] my ey], z as [[]|[]| |[] mz ez]; try done;
    change (Pos.compare_cont Eq ?a ?b) with (Pos.compare a b);
    destruct (Z.compare_spec ey ex), (Z.compare_spec ez ey), (Z.compare_spec ez ex);
    try done; try lia;
    destruct (Pos.compare_spec my mx), (Pos.compare_spec mz my), (Pos.compare_spec mz mx);
    try done; try lia.
Qed.

Lemma fgtb_irrefl x : fgtb x x = false.
Proof. destruct (fgtb x x) eqn:E; [|done]. by rewrite (fgtb_asym x x E) in E. Qed.

(** [int64(x)] for a finite [x] in range: truncation towards zero. *)
Definition f_trunc (x : float64) : Z :=
  match x with
  | S754_finite s m e =>
      let v := if (0 <=? e)%Z then (Zpos m * 2 ^ e)%Z else (Zpos m / 2 ^ (- e))%Z in
      if s then (- v)%Z else v
  | _ => 0%Z
  end.

(** ** Ordering and summing

    [cmp.Compare] on floats: a NaN equals a NaN and precedes everything else;
    the two zeros are equal. *)
Definition fcmp (x y : float64) : comparison :=
  match fnan x, fnan y with
  | true, true => Eq
  | true, false => Lt
  | false, true => Gt
  | false, false => default Eq (SFcompare x y)
  end.

Definition fmul (x y : float64) : float64 := SFmul 53 1024 x y.
Definition fsub (x y : float64) : float64 := SFsub 53 1024 x y.
(** Go's [<] and [>=]. *)
Definition fltb (x y : float64) : bool := SFltb x y.
Definition fgeb (x y : float64) : bool := SFleb y x.
Definition fleb (x y : float64) : bool := SFleb x y.
Definition f_zero : float64 := S754_zero false.
Definition f_pinf : float64 := S754_infinity false.
(** [math.IsInf(x, 0)] and [math.IsInf(x, 1)]. *)
Definition finf (x : float64) : bool := match x with S754_infinity _ => true | _ => false end.
Definition fpinf (x : float64) : bool :=
  match x with S754_infinity false => true | _ => false end.

#[export] Instance fcmp_cmp : GoCmp fcmp.
Proof.
  split.
  - intros x y. unfold fcmp, SFcompare.
    destruct x as [[]|[]| |[] m e], y as [[]|[]| |[] m' e']; try done; simpl;
      rewrite (Z.compare_antisym e e');
      change (Pos.compare_cont Eq m' m) with (Pos.compare m' m);
      change (Pos.compare_cont Eq m m') with (Pos.compare m m');
      rewrite (Pos.compare_antisym m m');
      destruct (e ?= e'), (Pos.compare m m'); done.
  - intros x y z. unfold fcmp, SFcompare.
    destruct x as [[]|[]| |[] mx ex], y as [[]|[]| |[] my ey], z as [[]|[]| |[] mz ez];
      simpl; try done;
      change (Pos.compare_cont Eq ?a ?b) with (Pos.compare a b);
      destruct (Z.compare_spec ex ey), (Z.compare_spec ey ez), (Z.compare_spec ex ez);
      try done; try lia;
      destruct (Pos.compare_spec mx my), (Pos.compare_spec my mz), (Pos.compare_spec mx mz);
      try done; try lia.
Qed.

(** Values that compare equal are the same value, up to the sign of zero. *)
Lemma fcmp_Eq x y :
  fcmp x y = Eq → x = y ∨ ∃ s t, x = S754_zero s ∧ y = S754_zero t.
Proof.
  unfold fcmp, SFcompare.
  destruct x as [s|[]| |[] m e], y as [t|[]| |[] m' e']; simpl; try done; eauto;
    change (Pos.compare_cont Eq ?a ?b) with (Pos.compare a b);
    destruct (Z.compare_spec e e'); try done; subst;
    destruct (Pos.compare_spec m m'); try done; subst; by left.
Qed.

(** [slices.Sort] then a running sum, from zero. *)
Definition fsum (l : list float64) : float64 := fold_left fadd l f_zero.

Lemma fadd_zeros_comm a s t :
  fadd (fadd a (S754_zero s)) (S754_zero t) = fadd (fadd a (S754_zero t)) (S754_zero s).
Proof. destruct a as [[]| | |], s, t; done. Qed.

Lemma fadd_tie_comm a x y : fcmp x y = Eq → fadd (fadd a x) y = fadd (fadd a y) x.
Proof. intros [->|(s & t & -> & ->)]%fcmp_Eq; [done|apply fadd_zeros_comm]. Qed.

(** The sum of the sorted values is a function of the multiset of values. *)
Lemma fsum_sorted_perm l1 l2 :
  l1 ≡ₚ l2 → fsum (sort_func fcmp l1) = fsum (sort_func fcmp l2).
Proof. intros H. apply (sorted_fold_ext fcmp fadd fadd_tie_comm _ _ _ H). Qed.

(** ** Ordinary values

    A value that is neither a NaN nor the negative zero: Go's comparisons order
    them totally, and equal ones are the same value. *)
Definition fplain (x : float64) : Prop := fnan x = false ∧ x ≠ S754_zero true.

(** The same order made total on every float: NaN first, -0 before +0. *)
Definition fcmp_total : float64 → float64 → comparison :=
  cmp_lex fcmp (on_key (λ x, match x with S754_zero true => 0%Z | _ => 1%Z end) Z.compare).

#[export] Instance fcmp_total_strict : GoCmpStrict fcmp_total.
Proof.
  split; [unfold fcmp_total; apply _|]. intros x y. unfold fcmp_total. rewrite cmp_lex_eq.
  intros [[->|(s & t & -> & ->)]%fcmp_Eq Hz]; [done|]. by destruct s, t.
Qed.

Lemma fplain_eq x y : fplain x → fplain y → fcmp x y = Eq → x = y.
Proof.
  intros [_ Hx] [_ Hy] [->|(s & t & -> & ->)]%fcmp_Eq; [done|]. by destruct s, t.
Qed.

Lemma fcmp_total_plain x y : fplain x → fplain y → fcmp_total x y = fcmp x y.
Proof.
  intros Hx Hy. unfold fcmp_total, cmp_lex. destruct (fcmp x y) eqn:E; [|done|done].
  apply fplain_eq in E as ->; [|done|done]. unfold on_key. cbn. apply Z.compare_refl.
Qed.

Lemma fltb_total x y : fplain x → fplain y → fltb x y = bool_decide (fcmp_total x y = Lt).
Proof.
  intros Hx Hy. rewrite fcmp_total_plain by done. unfold fltb, SFltb, fcmp.
  destruct Hx as [-> _], Hy as [-> _]. by destruct (SFcompare x y) as [[]|].
Qed.

Lemma feqb_total x y : fplain x → fplain y → feqb x y = bool_decide (x = y).
Proof.
  intros Hx Hy. apply eq_true_iff_eq. rewrite bool_decide_eq_true. split.
  - intros Hb. apply fplain_eq; [done..|]. revert Hb. unfold feqb, SFeqb, fcmp.
    destruct Hx as [-> _], Hy as [-> _]. by destruct (SFcompare x y) as [[]|].
  - intros ->. apply feqb_refl, Hy.
Qed.
