(* ===== verification/Strconv.v ===== *)
(** [strconv.ParseFloat(s, 64)] of the Go standard library: the accepted
    spellings (decimal and hexadecimal literals with digit-separating
    underscores, signed infinities, NaN) and the correctly rounded value. A
    syntax error and an overflow are both [None]. *)

From S2P Require Import Prelude GoStrings Float64.

#[local] Open Scope Z_scope.

(** The two kinds of digits. *)
Definition digit_of (c : ascii) : option Z :=
  let n := Z.of_nat (nat_of_ascii c) in
  if (48 <=? n) && (n <=? 57) then Some (n - 48) else None.
Definition hex_of (c : ascii) : option Z :=
  let n := Z.of_nat (nat_of_ascii (lower_ascii c)) in
  if (97 <=? n) && (n <=? 102) then Some (n - 87) else digit_of c.

(** The scanner's state over the mantissa of base [b]: the integer value of the
    digits so far, how many of them follow the point, whether a point and a
    digit were seen. *)
Record scan := mkScan { sc_mant : Z; sc_frac : Z; sc_dot : bool; sc_digits : bool }.

(** The mantissa loop of [readFloat]: underscores are skipped here and judged
    by [underscoreOK]; it stops at the first other byte or second point. *)
Fixpoint scan_mant (hex : bool) (st : scan) (s : string) : scan * string :=
  match s with
  | "" => (st, "")
  | String c s' =>
      if Ascii.eqb c "_" then scan_mant hex st s' else
      if Ascii.eqb c "." then
        if sc_dot st then (st, s)
        else scan_mant hex (mkScan (sc_mant st) (sc_frac st) true (sc_digits st)) s'
      else match (if hex then hex_of c else digit_of c) with
           | Some d =>
               scan_mant hex
                 (mkScan (sc_mant st * (if hex then 16 else 10) + d)
                         (if sc_dot st then sc_frac st + 1 else sc_frac st) (sc_dot st) true) s'
           | None => (st, s)
           end
  end.

(** The exponent's digits; the value stops growing at 10000. *)
Fixpoint scan_exp (e : Z) (s : string) : Z * string :=
  match s with
  | "" => (e, "")
  | String c s' =>
      if Ascii.eqb c "_" then scan_exp e s' else
      match digit_of c with
      | Some d => scan_exp (if e <? 10000 then e * 10 + d else e) s'
      | None => (e, s)
      end
  end.

(** [underscoreOK], after the sign and the base prefix: [prev] is what the
    previous byte was (["0"] a digit or the prefix, ["_"] an underscore, ["!"]
    anything else, ["^"] the start). *)
Fixpoint underscore_ok (hex : bool) (prev : ascii) (s : string) : bool :=
  match s with
  | "" => negb (Ascii.eqb prev "_")
  | String c s' =>
      match (if hex then hex_of c else digit_of c) with
      | Some _ => underscore_ok hex "0" s'
      | None =>
          if Ascii.eqb c "_" then
            if Ascii.eqb prev "0" then underscore_ok hex "_" s' else false
          else if Ascii.eqb prev "_" then false
          else underscore_ok hex "!" s'
      end
  end.

(** The value [m * 10^e], rounded once; the mantissa's sign is applied last. *)
Definition round_dec (m e : Z) : float64 :=
  match m with
  | Zpos p =>
      if 0 <=? e then binary_normalize 53 1024 (m * 10 ^ e) 0 false
      else match 10 ^ (- e) with
           | Zpos q => SFdiv 53 1024 (S754_finite false p 0) (S754_finite false q 0)
           | _ => f_zero
           end
  | _ => f_zero
  end.
Definition round_hex (m e : Z) : float64 := binary_normalize 53 1024 m e false.

Definition apply_sign (neg : bool) (x : float64) : float64 := if neg then SFopp x else x.

(** The sign prefix. *)
Definition take_sign (s : string) : option bool * string :=
  match s with
  | String "+" s' => (Some false, s')
  | String "-" s' => (Some true, s')
  | _ => (None, s)
  end.

(** [special]: the infinities and the (unsigned) NaN. *)
Definition parse_special (s : string) : option float64 :=
  let '(sg, t) := take_sign s in
  let w := to_lower_ascii t in
  if bool_decide (w = "inf") || bool_decide (w = "infinity")
  then Some (apply_sign (default false sg) f_pinf)
  else if bool_decide (sg = None) && bool_decide (w = "nan") then Some S754_nan
  else None.

(** The hexadecimal prefix. *)
Definition take_hex (s : string) : bool * string :=
  match s with
  | String "0" (String c rest) =>
      if Ascii.eqb (lower_ascii c) "x" then (true, rest) else (false, s)
  | _ => (false, s)
  end.

(** The exponent part: [None] is a malformed one, otherwise whether it is
    there, its value and what follows. *)
Definition take_exp (hex : bool) (s : string) : option (bool * Z * string) :=
  match s with
  | String c s' =>
      if Ascii.eqb (lower_ascii c) (if hex then "p" else "e")%char then
        let '(sg, t) := take_sign s' in
        match t with
        | String d _ =>
            match digit_of d with
            | Some _ =>
                let '(e, rest) := scan_exp 0 t in
                Some (true, (if default false sg then - e else e), rest)
            | None => None
            end
        | "" => None
        end
      else Some (false, 0, s)
  | "" => Some (false, 0, s)
  end.

(** A number literal. *)
Definition parse_number (s : string) : option float64 :=
  let '(sg, t) := take_sign s in
  let '(hex, body) := take_hex t in
  let '(st, rest) := scan_mant hex (mkScan 0 0 false false) body in
  if negb (sc_digits st) then None else
  match take_exp hex rest with
  | None => None
  | Some (has_exp, e, tail) =>
      if negb (bool_decide (tail = "")) || (hex && negb has_exp) ||
         negb (underscore_ok hex (if hex then "0" else "^")%char body)
      then None
      else let v := if hex then round_hex (sc_mant st) (e - 4 * sc_frac st)
                    else round_dec (sc_mant st) (e - sc_frac st) in
           if finf v then None else Some (apply_sign (default false sg) v)
  end.

Definition ParseFloat (s : string) : option float64 :=
  match parse_special s with Some v => Some v | None => parse_number s end.

Example ParseFloat_half : ParseFloat "0.5" = Some (S754_finite false 4503599627370496 (-53)).
Proof. reflexivity. Qed.
Example ParseFloat_tenth : ParseFloat "1e-1" = ParseFloat "0.1".
Proof. reflexivity. Qed.
Example ParseFloat_inf : ParseFloat "+Inf" = Some f_pinf.
Proof. reflexivity. Qed.
Example ParseFloat_hex : ParseFloat "-0x1p-2" = ParseFloat "-.25".
Proof. reflexivity. Qed.
Example ParseFloat_under :
  ParseFloat "1_0.0" = ParseFloat "10" ∧ ParseFloat "1__0" = None ∧ ParseFloat "_1" = None.
Proof. done. Qed.
Example ParseFloat_bad : ParseFloat "" = None ∧ ParseFloat "1e400" = None ∧ ParseFloat "1x" = None.
Proof. done. Qed.
