(* ===== verification/Histogram.v ===== *)
(** pkg/build/histogram.go: the classic cumulative-[le] histogram quantile and
    the parser of its boundary label.

    [classicQuantile] sorts a copy of the buckets and walks it; [walk] is that
    loop, structurally recursive, so it terminates on every input. The theorems
    give the exact condition under which a quantile exists and show that the
    answer does not depend on the order the buckets arrive in. *)

From S2P Require Import Prelude GoStrings Float64 Strconv.

(** pkg/build/histogram.go, [bucket] *)
Record bucket := mkBucket { le : float64; count : float64 }.

#[export] Instance bucket_eq_dec : EqDecision bucket.
Proof. solve_decision. Defined.

(** pkg/build/histogram.go@37-38, [classicQuantile]: the order of the copy. *)
Definition sort_buckets (buckets : list bucket) : list bucket := sort_func (on_key le fcmp) buckets.

(** pkg/build/histogram.go@50-56, [classicQuantile]: the highest finite
    boundary below the last bucket, NaN when there is none. *)
Definition highest_finite (bs : list bucket) : float64 :=
  match List.find (λ b, negb (finf (le b))) (rev (removelast bs)) with
  | Some b => le b
  | None => S754_nan
  end.

(** pkg/build/histogram.go@63-68, [classicQuantile]: the clamp of [q]. *)
Definition clamp01 (q : float64) : float64 :=
  let q := if fltb q f_zero then f_zero else q in
  if fgtb q (f_of_Z 1) then f_of_Z 1 else q.

(** pkg/build/histogram.go@73-96, [classicQuantile]: the walk over the
    cumulative buckets. *)
Fixpoint walk (rank highestFinite prevLe prevCount : float64) (bs : list bucket) : float64 :=
  match bs with
  | [] => highestFinite
  | b :: rest =>
      if fgeb (count b) rank then
        if fpinf (le b) then highestFinite
        else let width := fsub (le b) prevLe in
             let delta := fsub (count b) prevCount in
             if fleb delta f_zero then le b
             else let frac := fdiv (fsub rank prevCount) delta in
                  fadd prevLe (fmul frac width)
      else walk rank highestFinite (if negb (finf (le b)) then le b else prevLe) (count b) rest
  end.

(** pkg/build/histogram.go, [classicQuantile] *)
Definition classicQuantile (q : float64) (buckets : list bucket) : option float64 :=
  if (length buckets <? 2)%nat then None else
  let bs := sort_buckets buckets in
  match last bs with
  | None => None
  | Some top =>
      if negb (fpinf (le top)) then None
      else if fleb (count top) f_zero || fnan (count top) then None
      else let hf := highest_finite bs in
           if fnan hf then None
           else let rank := fmul (clamp01 q) (count top) in
                Some (walk rank hf f_zero f_zero bs)
  end.

(** pkg/build/histogram.go, [parseLe] *)
Definition parseLe (s : string) : option float64 :=
  if bool_decide (s = "") then None else
  match ParseFloat s with
  | Some v => if fnan v then None else Some v
  | None => None
  end.

(** ** Order independence *)

(** No boundary is repeated: two buckets at the same position are one bucket. *)
Definition distinct_le (bs : list bucket) : Prop :=
  ∀ b b', b ∈ bs → b' ∈ bs → fcmp (le b) (le b') = Eq → b = b'.

Lemma sort_buckets_ext b1 b2 :
  b1 ≡ₚ b2 → distinct_le b1 → sort_buckets b1 = sort_buckets b2.
Proof.
  intros Hp Hd. unfold sort_buckets.
  eapply (StronglySorted_unique_strong (cmp_le (on_key le fcmp))).
  - intros x y Hx Hy Hxy Hyx. apply Hd.
    + by rewrite elem_of_sort_func in Hx.
    + rewrite elem_of_sort_func in Hy. by rewrite Hp.
    + apply (gc_eq_le fcmp). split; [exact Hxy|exact Hyx].
  - apply (sort_func_sorted _).
  - apply (sort_func_sorted _).
  - by rewrite !sort_func_perm, Hp.
Qed.

Lemma classicQuantile_perm q b1 b2 :
  b1 ≡ₚ b2 → distinct_le b1 → classicQuantile q b1 = classicQuantile q b2.
Proof.
  intros Hp Hd. unfold classicQuantile.
  by rewrite (Permutation_length Hp), (sort_buckets_ext b1 b2 Hp Hd).
Qed.

(** ** When a quantile exists *)

Lemma highest_finite_some bs top :
  (∀ b, b ∈ bs → fnan (le b) = false) →
  fnan (highest_finite (bs ++ [top])) = false ↔ ∃ b, b ∈ bs ∧ finf (le b) = false.
Proof.
  intros Hn. unfold highest_finite. rewrite removelast_last.
  destruct (List.find _ _) as [b|] eqn:E.
  - apply List.find_some in E as [Hin Hf]. apply in_rev, list_elem_of_In in Hin.
    split; [|intros _; by apply Hn].
    intros _. exists b. split; [done|]. by apply negb_true_iff.
  - split; [done|]. intros (b & Hin & Hf).
    assert (negb (finf (le b)) = false) as Hb.
    { apply (List.find_none _ _ E), in_rev. rewrite rev_involutive. by apply list_elem_of_In. }
    by rewrite Hf in Hb.
Qed.

Lemma fcmp_pinf_le x : fcmp f_pinf x ≠ Gt → x = f_pinf.
Proof. by destruct x as [[]|[]| |[] m e]. Qed.

Lemma fpinf_iff x : fpinf x = true ↔ x = f_pinf.
Proof. by destruct x as [[]|[]| |[] m e]. Qed.

(** A total that is neither non-positive nor NaN is positive. *)
Lemma fpos_iff x : fleb x f_zero || fnan x = false ↔ fgtb x f_zero = true.
Proof. by destruct x as [[]|[]| |[] m e]. Qed.

(** The last bucket of the sorted copy is the [+Inf] one, when there is one. *)
Lemma sorted_top buckets top :
  distinct_le buckets → top ∈ buckets → le top = f_pinf →
  ∃ init, sort_buckets buckets = init ++ [top].
Proof.
  intros Hd Hin Hinf.
  pose proof (sort_func_sorted (on_key le fcmp) buckets) as Hs.
  assert (top ∈ sort_buckets buckets) as Hin' by by apply elem_of_sort_func.
  unfold sort_buckets in *. revert Hs Hin'.
  assert (∀ x, x ∈ sort_func (on_key le fcmp) buckets → x ∈ buckets) as Hsub.
  { intros x. apply elem_of_sort_func. }
  revert Hsub. generalize (sort_func (on_key le fcmp) buckets).
  intros l Hsub Hs Hl. destruct l as [|x init _] using rev_ind; [by apply elem_of_nil in Hl|].
  exists init. apply elem_of_app in Hl as [Hl|Hl%list_elem_of_singleton]; [|by subst].
  enough (top = x) as -> by done.
  apply Hd; [done|apply Hsub; set_solver|].
  assert (cmp_le (on_key le fcmp) top x) as Hle.
  { clear -Hs Hl. induction init as [|y init IH]; [by apply elem_of_nil in Hl|].
    apply StronglySorted_inv in Hs as [Hs Hy]. apply elem_of_cons in Hl as [->|Hl].
    - rewrite Forall_forall in Hy. apply Hy. set_solver.
    - by apply IH. }
  unfold cmp_le, on_key in Hle. rewrite Hinf in Hle |- *.
  apply fcmp_pinf_le in Hle as ->. done.
Qed.

(** [classicQuantile] answers exactly on a usable histogram, one with a
    [+Inf] bucket of positive count and at least one finite boundary; an
    unusable one yields no quantile, and either way the answer does not depend
    on the order the buckets arrive in. *)
Theorem classicQuantile_defined_iff q buckets :
  distinct_le buckets → (∀ b, b ∈ buckets → fnan (le b) = false) →
  ((∃ v, classicQuantile q buckets = Some v) ↔
   ∃ top b, top ∈ buckets ∧ le top = f_pinf ∧ fgtb (count top) f_zero = true ∧
            b ∈ buckets ∧ finf (le b) = false) ∧
  (∀ buckets', buckets ≡ₚ buckets' → classicQuantile q buckets' = classicQuantile q buckets).
Proof.
  intros Hd Hn. split; [|intros b' Hp; symmetry; by apply classicQuantile_perm].
  assert (∀ x, x ∈ sort_buckets buckets ↔ x ∈ buckets) as Hmem
    by (intros x; apply (elem_of_sort_func (on_key le fcmp))).
  unfold classicQuantile. split.
  - intros [v Hv]. destruct (length buckets <? 2)%nat; [done|].
    destruct (sort_buckets buckets) as [|top init _] eqn:Es using rev_ind; [done|].
    rewrite last_snoc in Hv.
    destruct (fpinf (le top)) eqn:Ei; [|done]. apply fpinf_iff in Ei. cbn [negb] in Hv.
    destruct (fleb _ _ || fnan _) eqn:Ep; [done|]. apply fpos_iff in Ep.
    destruct (fnan (highest_finite _)) eqn:Eh; [done|].
    apply highest_finite_some in Eh as (b & Hb & Hf); [|intros b Hb; apply Hn, Hmem; set_solver].
    exists top, b. split_and!; [apply Hmem; set_solver|done..|apply Hmem; set_solver|done].
  - intros (top & b & Hin & Hinf & Hpos & Hb & Hf).
    destruct (sorted_top buckets top Hd Hin Hinf) as [init Hs].
    assert (b ∈ init) as Hbi.
    { apply Hmem in Hb. rewrite Hs in Hb.
      apply elem_of_app in Hb as [?| ->%list_elem_of_singleton]; [done|]. by rewrite Hinf in Hf. }
    assert (2 ≤ length buckets)%nat as Hlen.
    { pose proof (length_sort_func (on_key le fcmp) buckets) as Hl. fold (sort_buckets buckets) in Hl.
      rewrite Hs, length_app in Hl. destruct init; [by apply elem_of_nil in Hbi|].
      cbn in Hl. lia. }
    apply Nat.ltb_ge in Hlen as ->. rewrite Hs, last_snoc.
    apply fpinf_iff in Hinf. rewrite Hinf. cbn [negb].
    apply fpos_iff in Hpos as ->.
    assert (fnan (highest_finite (init ++ [top])) = false) as ->; [|by eexists].
    apply highest_finite_some; [|by eauto].
    intros x Hx. apply Hn, Hmem. rewrite Hs. set_solver.
Qed.

Definition sample_hist : list bucket :=
  [mkBucket f_pinf (f_of_Z 10); mkBucket (f_of_Z 1) (f_of_Z 4); mkBucket (f_of_Z 2) (f_of_Z 8)].

Lemma classicQuantile_defined_iff_witness :
  distinct_le sample_hist ∧ classicQuantile (f_of_Z 1) sample_hist = Some (f_of_Z 2) ∧
  classicQuantile (f_of_Z 1) (rev sample_hist) = classicQuantile (f_of_Z 1) sample_hist.
Proof.
  assert (distinct_le sample_hist) as Hd.
  { intros b b' Hb Hb'. unfold sample_hist in Hb, Hb'.
    rewrite !elem_of_cons, elem_of_nil in Hb, Hb'.
    destruct Hb as [->|[->|[->|[]]]], Hb' as [->|[->|[->|[]]]]; done. }
  split; [done|]. split; [reflexivity|].
  apply (classicQuantile_defined_iff (f_of_Z 1) sample_hist); [done| |].
  - intros b Hb. unfold sample_hist in Hb. rewrite !elem_of_cons, elem_of_nil in Hb.
    destruct Hb as [->|[->|[->|[]]]]; done.
  - apply Permutation_rev.
Defined.

(** A boundary [parseLe] accepts is never NaN. *)
Lemma parseLe_not_nan s v : parseLe s = Some v → fnan v = false.
Proof.
  unfold parseLe. case_bool_decide; [done|].
  destruct (ParseFloat s) as [x|]; [|done]. destruct (fnan x) eqn:E; naive_solver.
Qed.

Example parseLe_examples :
  parseLe "+Inf" = Some f_pinf ∧ parseLe "NaN" = None ∧ parseLe "" = None ∧
  parseLe "2.5" = Some (fdiv (f_of_Z 5) (f_of_Z 2)).
Proof. done. Qed.
