(* ===== verification/GraphNode.v ===== *)
(** pkg/graph/node.go: the node kinds of the graph, their accessors (the
    [GraphNode] interface), the id grammar, the status fold and the alert
    normalisation; pkg/build/status.go: the build step that stamps the verdict.

    Pointers to immutable values are options; a Go map read of an absent key is
    the zero value, [lget]. *)

From S2P Require Import Prelude GoStrings Float64.

Abbreviation labels := (gmap string string).

(** [m[k]] on a [map[string]string]: "" when absent. *)
Definition lget (m : labels) (k : string) : string := default "" (m !! k).

(** pkg/graph/node.go@11-22, [NodeType]: the node kinds. *)
Inductive NodeType :=
  | NodeTypePod | NodeTypeK8sNode | NodeTypePVC | NodeTypeService
  | NodeTypeExternal | NodeTypeNetAppAggr | NodeTypeNetAppNode | NodeTypeNetAppSVM.

#[export] Instance NodeType_eq_dec : EqDecision NodeType.
Proof. solve_decision. Defined.

(** pkg/graph/node.go@13-22, [NodeType]: the constants' values. *)
Definition node_type_string (t : NodeType) : string :=
  match t with
  | NodeTypePod => "pod"
  | NodeTypeK8sNode => "node"
  | NodeTypePVC => "pvc"
  | NodeTypeService => "service"
  | NodeTypeExternal => "external"
  | NodeTypeNetAppAggr => "netapp-aggr"
  | NodeTypeNetAppNode => "netapp-node"
  | NodeTypeNetAppSVM => "netapp-svm"
  end.

(** pkg/graph/node.go, [Owner] *)
Record Owner := mkOwner { owner_Kind : string; owner_Name : string }.
(** pkg/graph/node.go, [Container] *)
Record Container := mkContainer { container_Name : string; container_Image : string }.
(** pkg/graph/node.go, [QoSCeiling] *)
Record QoSCeiling := mkQoSCeiling {
  qos_PolicyGroup : string;
  qos_MaxIOPS : option float64;
  qos_MaxBytesPerSec : option float64;
}.
(** pkg/graph/node.go, [UsageBytes] *)
Record UsageBytes := mkUsageBytes {
  usage_UsedBytes : option float64;
  usage_CapacityBytes : option float64;
}.
(** pkg/graph/node.go, [Hardware] *)
Record Hardware := mkHardware {
  hw_Model : string; hw_Serial : string; hw_Version : string;
  hw_Vendor : string; hw_Location : string;
}.
(** pkg/graph/node.go, [NodePerf] *)
Record NodePerf := mkNodePerf {
  perf_CPUBusyPct : option float64;
  perf_TotalOps : option float64;
  perf_TotalLatencyUs : option float64;
  perf_TotalBytesPerSec : option float64;
}.

(** pkg/graph/node.go, [Hardware.Empty] *)
Definition Hardware_Empty (h : Hardware) : bool :=
  bool_decide (hw_Model h = "") && bool_decide (hw_Serial h = "") &&
  bool_decide (hw_Version h = "") && bool_decide (hw_Vendor h = "") &&
  bool_decide (hw_Location h = "").

(** pkg/graph/node.go, [NodePerf.Empty] *)
Definition NodePerf_Empty (p : NodePerf) : bool :=
  bool_decide (perf_CPUBusyPct p = None) && bool_decide (perf_TotalOps p = None) &&
  bool_decide (perf_TotalLatencyUs p = None) && bool_decide (perf_TotalBytesPerSec p = None).

(** pkg/graph/node.go, [Alert]: [alert_Time] is an instant in nanoseconds
    since the zero [time.Time], which is therefore 0. *)
Record Alert := mkAlert {
  alert_Name : string;
  alert_State : string;
  alert_Severity : string;
  alert_Time : Z;
}.

#[export] Instance Owner_eq_dec : EqDecision Owner.
Proof. solve_decision. Defined.
#[export] Instance Container_eq_dec : EqDecision Container.
Proof. solve_decision. Defined.
#[export] Instance QoSCeiling_eq_dec : EqDecision QoSCeiling.
Proof. solve_decision. Defined.
#[export] Instance UsageBytes_eq_dec : EqDecision UsageBytes.
Proof. solve_decision. Defined.
#[export] Instance Hardware_eq_dec : EqDecision Hardware.
Proof. solve_decision. Defined.
#[export] Instance NodePerf_eq_dec : EqDecision NodePerf.
Proof. solve_decision. Defined.
#[export] Instance Alert_eq_dec : EqDecision Alert.
Proof. solve_decision. Defined.

(** pkg/graph/node.go@238-242, [StatusNormal]: the verdict vocabulary. *)
Inductive StatusValue := StatusNormal | StatusWarning | StatusCritical.
(** pkg/graph/node.go@238-242, [StatusNormal]: the constants' values. *)
Definition status_string (s : StatusValue) : string :=
  match s with
  | StatusNormal => "normal" | StatusWarning => "warning" | StatusCritical => "critical"
  end.
(** pkg/graph/node.go@298-301, [HealthDegraded] *)
Definition HealthOnline := "online".
(** pkg/graph/node.go@298-301, [HealthDegraded] *)
Definition HealthDegraded := "degraded".
(** pkg/graph/node.go@307-311, [ReadyStatusReady] *)
Definition ReadyStatusReady := "Ready".
(** pkg/graph/node.go@307-311, [ReadyStatusNotReady] *)
Definition ReadyStatusNotReady := "NotReady".
(** pkg/graph/node.go@307-311, [ReadyStatusUnknown] *)
Definition ReadyStatusUnknown := "Unknown".

#[export] Instance StatusValue_eq_dec : EqDecision StatusValue.
Proof. solve_decision. Defined.

(** The loop of [FoldStatus] over the alerts: [None] is its early
    [return StatusCritical]. *)
Fixpoint fold_alerts (status : StatusValue) (alerts : list Alert) : option StatusValue :=
  match alerts with
  | [] => Some status
  | a :: rest =>
      let sev := to_lower (alert_Severity a) in
      if bool_decide (sev = "critical") then None
      else if bool_decide (sev = "info") || bool_decide (sev = "none")
      then fold_alerts status rest
      else fold_alerts StatusWarning rest
  end.

(** pkg/graph/node.go, [FoldStatus] *)
Definition FoldStatus (alerts : list Alert) (health readyStatus : string) : StatusValue :=
  match fold_alerts StatusNormal alerts with
  | None => StatusCritical
  | Some status =>
      if bool_decide (health = HealthDegraded) || bool_decide (readyStatus = ReadyStatusNotReady)
      then StatusCritical
      else if bool_decide (readyStatus = ReadyStatusUnknown) then StatusWarning
      else status
  end.

(** The comparison [SortAlerts] sorts by. *)
Definition alert_cmp : Alert → Alert → comparison :=
  cmp_lex (on_key alert_Name String.compare) (on_key alert_Severity String.compare).

Definition same_alert_key (a b : Alert) : bool :=
  bool_decide (alert_Name a = alert_Name b) && bool_decide (alert_Severity a = alert_Severity b).

Definition with_time (a : Alert) (t : Z) : Alert :=
  mkAlert (alert_Name a) (alert_State a) (alert_Severity a) t.

(** [if a.Time.After(out[n-1].Time) { out[n-1].Time = a.Time }]. *)
Definition bump (last a : Alert) : Alert :=
  if bool_decide (alert_Time last < alert_Time a)%Z then with_time last (alert_Time a) else last.

(** The compaction loop: [last] is the last element of [out], already kept. *)
Fixpoint merge_alerts (last : Alert) (alerts : list Alert) : list Alert :=
  match alerts with
  | [] => [last]
  | a :: rest =>
      if same_alert_key last a then
        merge_alerts (bump last a) rest
      else last :: merge_alerts a rest
  end.

(** pkg/graph/node.go, [SortAlerts] *)
Definition SortAlerts (alerts : list Alert) : list Alert :=
  match sort_func alert_cmp alerts with
  | [] => []
  | a :: rest => merge_alerts a rest
  end.

(** ** Node types: the struct fields, and the interface they implement *)

(** pkg/graph/node.go@315-344, [PodNode] *)
Record PodNode := mkPodNode {
  pod_ID : string; pod_Name : string; pod_Labels : labels;
  pod_IPAddress : list string; pod_Owner : option Owner; pod_Application : string;
  pod_Containers : list Container; pod_Alerts : list Alert; pod_Status : string;
}.
(** pkg/graph/node.go@350-377, [K8sNode] *)
Record K8sNode := mkK8sNode {
  k8s_ID : string; k8s_Name : string; k8s_Labels : labels;
  k8s_IPAddress : list string; k8s_ReadyStatus : string;
  k8s_Alerts : list Alert; k8s_Status : string;
}.
(** pkg/graph/node.go@384-413, [PVCNode] *)
Record PVCNode := mkPVCNode {
  pvc_ID : string; pvc_Name : string; pvc_Labels : labels;
  pvc_StorageClass : string; pvc_Application : string;
  pvc_Usage : option UsageBytes; pvc_QoS : option QoSCeiling;
  pvc_Alerts : list Alert; pvc_Status : string;
}.
(** pkg/graph/node.go@421-446, [ServiceNode] *)
Record ServiceNode := mkServiceNode {
  svc_ID : string; svc_Name : string; svc_Labels : labels;
  svc_IPAddress : list string; svc_Application : string;
}.
(** pkg/graph/node.go@452-475, [ExternalNode] *)
Record ExternalNode := mkExternalNode {
  ext_ID : string; ext_Name : string; ext_Labels : labels;
}.
(** pkg/graph/node.go@480-507, [NetAppAggrNode] *)
Record NetAppAggrNode := mkNetAppAggrNode {
  aggr_ID : string; aggr_Name : string; aggr_Labels : labels;
  aggr_Health : string; aggr_Usage : option UsageBytes;
  aggr_Alerts : list Alert; aggr_Status : string;
}.
(** pkg/graph/node.go@513-541, [NetAppNode] *)
Record NetAppNode := mkNetAppNode {
  ctrl_ID : string; ctrl_Name : string; ctrl_Labels : labels;
  ctrl_Health : string; ctrl_Hardware : option Hardware; ctrl_Perf : option NodePerf;
  ctrl_Alerts : list Alert; ctrl_Status : string;
}.
(** pkg/graph/node.go@553-576, [NetAppSVMNode] *)
Record NetAppSVMNode := mkNetAppSVMNode {
  svm_ID : string; svm_Name : string; svm_Labels : labels;
}.

(** pkg/graph/node.go@31-119, [GraphNode]: the interface, as the sum of the
    types that implement it ([isGraphNode] is unexported: there are no others). *)
Inductive GraphNode :=
  | NPod (p : PodNode)
  | NK8sNode (n : K8sNode)
  | NPVC (p : PVCNode)
  | NService (s : ServiceNode)
  | NExternal (e : ExternalNode)
  | NNetAppAggr (n : NetAppAggrNode)
  | NNetAppNode (n : NetAppNode)
  | NNetAppSVM (n : NetAppSVMNode).

#[export] Instance PodNode_eq_dec : EqDecision PodNode.
Proof. solve_decision. Defined.
#[export] Instance K8sNode_eq_dec : EqDecision K8sNode.
Proof. solve_decision. Defined.
#[export] Instance PVCNode_eq_dec : EqDecision PVCNode.
Proof. solve_decision. Defined.
#[export] Instance ServiceNode_eq_dec : EqDecision ServiceNode.
Proof. solve_decision. Defined.
#[export] Instance ExternalNode_eq_dec : EqDecision ExternalNode.
Proof. solve_decision. Defined.
#[export] Instance NetAppAggrNode_eq_dec : EqDecision NetAppAggrNode.
Proof. solve_decision. Defined.
#[export] Instance NetAppNode_eq_dec : EqDecision NetAppNode.
Proof. solve_decision. Defined.
#[export] Instance NetAppSVMNode_eq_dec : EqDecision NetAppSVMNode.
Proof. solve_decision. Defined.
#[export] Instance GraphNode_eq_dec : EqDecision GraphNode.
Proof. solve_decision. Defined.

(** pkg/graph/node.go@32-32, [GraphNode.ID] *)
Definition ID (n : GraphNode) : string :=
  match n with
  | NPod p => pod_ID p | NK8sNode n => k8s_ID n | NPVC p => pvc_ID p
  | NService s => svc_ID s | NExternal e => ext_ID e | NNetAppAggr n => aggr_ID n
  | NNetAppNode n => ctrl_ID n | NNetAppSVM n => svm_ID n
  end.
(** pkg/graph/node.go@33-33, [GraphNode.Name] *)
Definition Name (n : GraphNode) : string :=
  match n with
  | NPod p => pod_Name p | NK8sNode n => k8s_Name n | NPVC p => pvc_Name p
  | NService s => svc_Name s | NExternal e => ext_Name e | NNetAppAggr n => aggr_Name n
  | NNetAppNode n => ctrl_Name n | NNetAppSVM n => svm_Name n
  end.
(** pkg/graph/node.go@34-34, [GraphNode.Type] *)
Definition Type_ (n : GraphNode) : NodeType :=
  match n with
  | NPod _ => NodeTypePod | NK8sNode _ => NodeTypeK8sNode | NPVC _ => NodeTypePVC
  | NService _ => NodeTypeService | NExternal _ => NodeTypeExternal
  | NNetAppAggr _ => NodeTypeNetAppAggr | NNetAppNode _ => NodeTypeNetAppNode
  | NNetAppSVM _ => NodeTypeNetAppSVM
  end.
(** pkg/graph/node.go@35-35, [GraphNode.Labels] *)
Definition Labels (n : GraphNode) : labels :=
  match n with
  | NPod p => pod_Labels p | NK8sNode n => k8s_Labels n | NPVC p => pvc_Labels p
  | NService s => svc_Labels s | NExternal e => ext_Labels e | NNetAppAggr n => aggr_Labels n
  | NNetAppNode n => ctrl_Labels n | NNetAppSVM n => svm_Labels n
  end.
(** pkg/graph/node.go@53-53, [GraphNode.Application] *)
Definition Application (n : GraphNode) : string :=
  match n with
  | NPod p => pod_Application p | NPVC p => pvc_Application p
  | NService s => svc_Application s | _ => ""
  end.
(** pkg/graph/node.go@67-67, [GraphNode.ReadyStatus] *)
Definition ReadyStatus (n : GraphNode) : string :=
  match n with NK8sNode n => k8s_ReadyStatus n | _ => "" end.
(** pkg/graph/node.go@74-74, [GraphNode.Health] *)
Definition Health (n : GraphNode) : string :=
  match n with
  | NNetAppAggr n => aggr_Health n | NNetAppNode n => ctrl_Health n | _ => ""
  end.
(** pkg/graph/node.go@114-114, [GraphNode.Alerts] *)
Definition Alerts (n : GraphNode) : list Alert :=
  match n with
  | NPod p => pod_Alerts p | NK8sNode n => k8s_Alerts n | NPVC p => pvc_Alerts p
  | NNetAppAggr n => aggr_Alerts n | NNetAppNode n => ctrl_Alerts n | _ => []
  end.
(** pkg/graph/node.go@119-119, [GraphNode.Status] *)
Definition Status (n : GraphNode) : string :=
  match n with
  | NPod p => pod_Status p | NK8sNode n => k8s_Status n | NPVC p => pvc_Status p
  | NNetAppAggr n => aggr_Status n | NNetAppNode n => ctrl_Status n | _ => ""
  end.

(** The assignment [node.StatusValue = status] of the five kinds that carry one. *)
Definition set_status (st : string) (n : GraphNode) : GraphNode :=
  match n with
  | NPod p => NPod (mkPodNode (pod_ID p) (pod_Name p) (pod_Labels p) (pod_IPAddress p)
                     (pod_Owner p) (pod_Application p) (pod_Containers p) (pod_Alerts p) st)
  | NK8sNode n => NK8sNode (mkK8sNode (k8s_ID n) (k8s_Name n) (k8s_Labels n)
                     (k8s_IPAddress n) (k8s_ReadyStatus n) (k8s_Alerts n) st)
  | NPVC p => NPVC (mkPVCNode (pvc_ID p) (pvc_Name p) (pvc_Labels p) (pvc_StorageClass p)
                     (pvc_Application p) (pvc_Usage p) (pvc_QoS p) (pvc_Alerts p) st)
  | NNetAppNode n => NNetAppNode (mkNetAppNode (ctrl_ID n) (ctrl_Name n) (ctrl_Labels n)
                     (ctrl_Health n) (ctrl_Hardware n) (ctrl_Perf n) (ctrl_Alerts n) st)
  | NNetAppAggr n => NNetAppAggr (mkNetAppAggrNode (aggr_ID n) (aggr_Name n) (aggr_Labels n)
                     (aggr_Health n) (aggr_Usage n) (aggr_Alerts n) st)
  | n => n
  end.

(** pkg/build/status.go, [attachStatus] *)
Definition attachStatus (nodes : list GraphNode) : list GraphNode :=
  map (λ n, set_status (status_string (FoldStatus (Alerts n) (Health n) (ReadyStatus n))) n) nodes.

(** pkg/graph/node.go, [SortNodes] *)
Definition SortNodes (nodes : list GraphNode) : list GraphNode :=
  sort_func (on_key ID String.compare) nodes.

(** pkg/graph/node.go@584-584, [PodID] *)
Definition PodID (cluster uid : string) : string := cluster +:+ "/" +:+ uid.
(** pkg/graph/node.go@587-587, [K8sNodeID] *)
Definition K8sNodeID (cluster name : string) : string := cluster +:+ "/" +:+ name.
(** pkg/graph/node.go, [PVCID] *)
Definition PVCID (cluster namespace claim : string) : string :=
  cluster +:+ "/" +:+ namespace +:+ "/" +:+ claim.
(** pkg/graph/node.go, [ServiceID] *)
Definition ServiceID (cluster namespace service : string) : string :=
  cluster +:+ "/" +:+ namespace +:+ "/" +:+ service.
(** pkg/graph/node.go, [NetAppAggrID] *)
Definition NetAppAggrID (ontapCluster aggr : string) : string :=
  "netapp/" +:+ ontapCluster +:+ "/aggr/" +:+ aggr.
(** pkg/graph/node.go, [NetAppNodeID] *)
Definition NetAppNodeID (ontapCluster node : string) : string :=
  "netapp/" +:+ ontapCluster +:+ "/" +:+ node.
(** pkg/graph/node.go, [NetAppSVMID] *)
Definition NetAppSVMID (ontapCluster svm : string) : string :=
  "netapp/" +:+ ontapCluster +:+ "/svm/" +:+ svm.
(** pkg/graph/node.go@620-620, [ExternalID] *)
Definition ExternalID (value : string) : string := "external/" +:+ value.

(** ** The status fold is worst-wins *)

Definition sev_rank (s : StatusValue) : nat :=
  match s with StatusNormal => 0 | StatusWarning => 1 | StatusCritical => 2 end.

(** The verdict of one signal. *)
Definition alert_verdict (a : Alert) : StatusValue :=
  let sev := to_lower (alert_Severity a) in
  if bool_decide (sev = "critical") then StatusCritical
  else if bool_decide (sev = "info") || bool_decide (sev = "none") then StatusNormal
  else StatusWarning.
Definition health_verdict (h : string) : StatusValue :=
  if bool_decide (h = HealthDegraded) then StatusCritical else StatusNormal.
Definition ready_verdict (r : string) : StatusValue :=
  if bool_decide (r = ReadyStatusNotReady) then StatusCritical
  else if bool_decide (r = ReadyStatusUnknown) then StatusWarning else StatusNormal.

Definition worst (s t : StatusValue) : StatusValue :=
  if (sev_rank s <? sev_rank t)%nat then t else s.
Definition worst_of (l : list StatusValue) : StatusValue := foldr worst StatusNormal l.

Lemma worst_comm s t : worst s t = worst t s.
Proof. by destruct s, t. Qed.
Lemma worst_assoc s t u : worst s (worst t u) = worst (worst s t) u.
Proof. by destruct s, t, u. Qed.

Lemma worst_of_cons s l : worst_of (s :: l) = worst s (worst_of l).
Proof. done. Qed.

Lemma fold_alerts_worst st alerts :
  st ≠ StatusCritical →
  default StatusCritical (fold_alerts st alerts) = worst st (worst_of (map alert_verdict alerts)).
Proof.
  revert st. induction alerts as [|a l IH]; intros st Hst; [by destruct st|].
  cbn [map fold_alerts]. rewrite worst_of_cons. unfold alert_verdict at 1.
  destruct (bool_decide _); [by destruct st, (worst_of _)|].
  destruct (_ || _).
  - rewrite IH by done. by destruct (worst_of _).
  - rewrite IH by done. by destruct st, (worst_of _).
Qed.

Lemma fold_alerts_not_critical st alerts s :
  st ≠ StatusCritical → fold_alerts st alerts = Some s → s ≠ StatusCritical.
Proof.
  revert st. induction alerts as [|a l IH]; intros st Hst; cbn [fold_alerts];
    [by intros [= <-]|].
  destruct (bool_decide _); [done|]. destruct (_ || _); by apply IH.
Qed.

(** The status a node is stamped with is the worst verdict of its own
    signals (every alert, its health, its Ready condition), whatever their
    order; an early return never hides a worse signal. *)
Theorem FoldStatus_worst alerts health readyStatus :
  FoldStatus alerts health readyStatus =
  worst_of (health_verdict health :: ready_verdict readyStatus :: map alert_verdict alerts).
Proof.
  unfold FoldStatus. rewrite !worst_of_cons.
  pose proof (fold_alerts_worst StatusNormal alerts) as Hw.
  pose proof (fold_alerts_not_critical StatusNormal alerts) as Hc.
  destruct (fold_alerts StatusNormal alerts) as [s|] eqn:E; simpl in Hw.
  - specialize (Hw ltac:(done)). specialize (Hc s ltac:(done) eq_refl).
    unfold worst in Hw at 1. simpl in Hw.
    assert (worst_of (map alert_verdict alerts) = s) as -> by (destruct (worst_of _); done).
    unfold health_verdict, ready_verdict.
    repeat (case_bool_decide; simpl); destruct s; done || congruence.
  - assert (worst_of (map alert_verdict alerts) = StatusCritical) as ->.
    { specialize (Hw ltac:(done)). destruct (worst_of _); done. }
    by destruct (health_verdict health), (ready_verdict readyStatus).
Qed.

(** ** Alert normalisation *)

#[export] Instance alert_cmp_cmp : GoCmp alert_cmp.
Proof. unfold alert_cmp. apply _. Qed.

Lemma alert_cmp_eq a b :
  alert_cmp a b = Eq ↔ alert_Name a = alert_Name b ∧ alert_Severity a = alert_Severity b.
Proof.
  unfold alert_cmp. rewrite cmp_lex_eq. unfold on_key.
  by rewrite !string_compare_eq.
Qed.

Lemma same_alert_key_spec a b : same_alert_key a b = true ↔ alert_cmp a b = Eq.
Proof.
  rewrite alert_cmp_eq. unfold same_alert_key.
  by rewrite andb_true_iff, !bool_decide_eq_true.
Qed.

(** Alerts are compared by their key alone, so bumping a time moves nothing. *)
Lemma bump_cmp last a b : alert_cmp (bump last a) b = alert_cmp last b.
Proof. unfold bump. by case_bool_decide. Qed.
Lemma bump_cmp_self last a : alert_cmp (bump last a) last = Eq.
Proof. rewrite bump_cmp. by apply (gc_refl alert_cmp). Qed.
Lemma bump_time last a : alert_Time (bump last a) = Z.max (alert_Time last) (alert_Time a).
Proof. unfold bump. case_bool_decide; simpl; lia. Qed.
Lemma bump_sorted last a x l :
  StronglySorted (cmp_le alert_cmp) (last :: x :: l) →
  StronglySorted (cmp_le alert_cmp) (bump last a :: l).
Proof.
  intros Hs. apply StronglySorted_inv in Hs as [Hs Hl].
  apply StronglySorted_inv in Hs as [Hs _]. constructor; [done|].
  apply Forall_cons in Hl as [_ Hl]. eapply Forall_impl; [exact Hl|].
  unfold cmp_le. intros y. by rewrite bump_cmp.
Qed.

Lemma alert_cmp_eq_trans a b c : alert_cmp a b = Eq → alert_cmp b c = Eq → alert_cmp a c = Eq.
Proof. rewrite !alert_cmp_eq. intuition congruence. Qed.

(** The group of an output alert among the inputs, and its greatest time. *)
Definition group_max (l : list Alert) (b : Alert) : Prop :=
  (∃ a, a ∈ l ∧ alert_cmp a b = Eq ∧ alert_Time a = alert_Time b) ∧
  (∀ a, a ∈ l → alert_cmp a b = Eq → (alert_Time a <= alert_Time b)%Z).

Definition alert_lt (a b : Alert) : Prop := alert_cmp a b = Lt.

Lemma alert_key_lt_le a b c : alert_cmp a b = Lt → alert_cmp b c ≠ Gt → alert_cmp a c = Lt.
Proof. apply (gc_lt_trans alert_cmp). Qed.

Lemma group_max_merge last a l b :
  alert_cmp last a = Eq → group_max (bump last a :: l) b → group_max (last :: a :: l) b.
Proof.
  intros Hla [(x & Hx & Hxb & Hxt) Hmax]. pose proof (bump_time last a) as Ht. split.
  - apply elem_of_cons in Hx as [->|Hx]; [|by exists x; set_solver].
    rewrite bump_cmp in Hxb.
    destruct (Z.max_spec (alert_Time last) (alert_Time a)) as [[_ Hm]|[_ Hm]];
      rewrite Hm in Ht.
    + exists a. split_and!; [set_solver| |congruence].
      eapply alert_cmp_eq_trans; [|done]. by apply (gc_eq_sym alert_cmp).
    + exists last. split_and!; [set_solver|done|congruence].
  - intros y [->|[->|Hy]%elem_of_cons]%elem_of_cons Hyb; [| |apply Hmax; set_solver].
    + specialize (Hmax (bump last a) ltac:(set_solver)). rewrite bump_cmp in Hmax.
      specialize (Hmax Hyb). lia.
    + specialize (Hmax (bump last a) ltac:(set_solver)). rewrite bump_cmp in Hmax.
      specialize (Hmax ltac:(by eapply alert_cmp_eq_trans)). lia.
Qed.

Lemma merge_alerts_head last l :
  StronglySorted (cmp_le alert_cmp) (last :: l) →
  Forall (λ b, alert_cmp last b ≠ Gt) (merge_alerts last l).
Proof.
  revert last. induction l as [|a l IH]; intros last Hs; cbn [merge_alerts].
  - repeat constructor. by rewrite (gc_refl alert_cmp).
  - destruct (same_alert_key last a) eqn:E.
    + eapply Forall_impl; [apply IH; by eapply bump_sorted|].
      intros b. simpl. by rewrite bump_cmp.
    + apply StronglySorted_inv in Hs as [Hs Hl].
      constructor; [by rewrite (gc_refl alert_cmp)|].
      eapply Forall_impl; [by apply IH|]. intros b Hb. simpl in Hb.
      apply (gc_trans (c:=alert_cmp) last a b); [by inv Hl|done].
Qed.

Lemma sorted_distinct_lt last a l :
  StronglySorted (cmp_le alert_cmp) (last :: a :: l) → same_alert_key last a = false →
  alert_cmp last a = Lt.
Proof.
  intros [_ Hl]%StronglySorted_inv E. apply Forall_cons in Hl as [Hla _].
  assert (alert_cmp last a ≠ Eq) by (rewrite <-same_alert_key_spec; congruence).
  unfold cmp_le in Hla. by destruct (alert_cmp last a).
Qed.

Lemma merge_alerts_group_max last l b :
  StronglySorted (cmp_le alert_cmp) (last :: l) →
  b ∈ merge_alerts last l → group_max (last :: l) b.
Proof.
  revert last. induction l as [|a l IH]; intros last Hs; cbn [merge_alerts].
  { intros ->%list_elem_of_singleton. split.
    - exists last. split_and!; [set_solver|by apply (gc_refl alert_cmp)|done].
    - intros y ->%list_elem_of_singleton _. lia. }
  destruct (same_alert_key last a) eqn:E.
  { intros Hb. apply group_max_merge; [by apply same_alert_key_spec|].
    apply IH; [by eapply bump_sorted|done]. }
  pose proof (sorted_distinct_lt last a l Hs E) as Hlt.
  apply StronglySorted_inv in Hs as [Hs Hl].
  intros [->|Hb]%elem_of_cons.
  - split; [exists last; split_and!; [set_solver|by apply (gc_refl alert_cmp)|done]|].
    intros y [->|Hy]%elem_of_cons Hyl; [lia|]. exfalso.
    assert (alert_cmp last y = Lt) as Hly.
    { apply (alert_key_lt_le last a y); [done|].
      apply elem_of_cons in Hy as [->|Hy]; [by rewrite (gc_refl alert_cmp)|].
      apply StronglySorted_inv in Hs as [_ Ha]. rewrite Forall_forall in Ha. by apply Ha. }
    rewrite (gc_antisym (c:=alert_cmp) y last), Hyl in Hly. done.
  - pose proof (merge_alerts_head a l Hs) as Hhd. rewrite Forall_forall in Hhd.
    destruct (IH a Hs Hb) as [(x & Hx & ?) Hmax]. split; [exists x; set_solver|].
    intros y [->|Hy]%elem_of_cons Hyb; [|by apply Hmax]. exfalso.
    assert (alert_cmp last b = Lt) by (apply (alert_key_lt_le last a b); auto).
    congruence.
Qed.

Lemma merge_alerts_sorted last l :
  StronglySorted (cmp_le alert_cmp) (last :: l) → StronglySorted alert_lt (merge_alerts last l).
Proof.
  revert last. induction l as [|a l IH]; intros last Hs; cbn [merge_alerts].
  - repeat constructor.
  - destruct (same_alert_key last a) eqn:E; [by eapply IH, bump_sorted|].
    pose proof (sorted_distinct_lt last a l Hs E) as Hlt.
    apply StronglySorted_inv in Hs as [Hs Hl].
    constructor; [by apply IH|]. pose proof (merge_alerts_head a l Hs) as Hhd.
    eapply Forall_impl; [exact Hhd|]. intros b Hb. by apply (alert_key_lt_le last a b).
Qed.

Lemma merge_alerts_covers last l a :
  alert_cmp a last = Eq ∨ a ∈ l → ∃ b, b ∈ merge_alerts last l ∧ alert_cmp a b = Eq.
Proof.
  revert last. induction l as [|x l IH]; intros last Ha; cbn [merge_alerts].
  - exists last. split; [set_solver|]. destruct Ha as [?|Ha]; [done|by inv Ha].
  - destruct (same_alert_key last x) eqn:E.
    + apply same_alert_key_spec in E. apply IH.
      destruct Ha as [Ha|[->|Ha]%elem_of_cons]; [left|left|by right].
      * eapply alert_cmp_eq_trans; [exact Ha|].
        apply (gc_eq_sym alert_cmp), bump_cmp_self.
      * apply (gc_eq_sym alert_cmp). by rewrite bump_cmp.
    + destruct Ha as [Ha|Ha]; [exists last; set_solver|].
      destruct (IH x) as (b & Hb & Hab).
      { apply elem_of_cons in Ha as [->|Ha]; [left; by apply (gc_refl alert_cmp)|by right]. }
      exists b. split; [set_solver|done].
Qed.

(** [SortAlerts] is the canonical form of an alert set: strictly sorted by
    (name, severity), one entry per pair that occurs, and each entry carries
    the greatest time of its pair; series arrival order is forgotten. *)
Theorem SortAlerts_canonical alerts :
  StronglySorted alert_lt (SortAlerts alerts) ∧
  (∀ a, a ∈ alerts → ∃ b, b ∈ SortAlerts alerts ∧ alert_cmp a b = Eq) ∧
  (∀ b, b ∈ SortAlerts alerts → group_max alerts b).
Proof.
  unfold SortAlerts. pose proof (sort_func_sorted alert_cmp alerts) as Hs.
  pose proof (sort_func_perm alert_cmp alerts) as Hp.
  destruct (sort_func alert_cmp alerts) as [|x l].
  - apply Permutation_nil_l in Hp as <-. split_and!; [constructor|set_solver|set_solver].
  - split_and!; [by apply merge_alerts_sorted| |].
    + intros a Ha. apply merge_alerts_covers. rewrite <-Hp in Ha.
      apply elem_of_cons in Ha as [->|Ha]; [left; by apply (gc_refl alert_cmp)|by right].
    + intros b Hb. destruct (merge_alerts_group_max x l b Hs Hb) as [(a & Ha & ?) Hmax].
      rewrite Hp in Ha. split; [by exists a|]. intros y Hy. apply Hmax. by rewrite Hp.
Qed.

Example SortAlerts_ex :
  SortAlerts [mkAlert "b" "firing" "warning" 5; mkAlert "a" "firing" "x" 1;
              mkAlert "b" "firing" "warning" 9; mkAlert "b" "firing" "warning" 7]
  = [mkAlert "a" "firing" "x" 1; mkAlert "b" "firing" "warning" 9].
Proof. vm_compute. reflexivity. Qed.
