(* ===== verification/GraphEdge.v ===== *)
(** pkg/graph/edge.go and registry.go: edges, their derived identity, the
    measurements they carry, and the in-code registry of edge types. *)

From S2P Require Import Prelude GoStrings Float64 GraphNode.

(** pkg/graph/edge.go@11-21, [EdgeType] *)
Inductive EdgeType :=
  | EdgeTypePodMountsPVC | EdgeTypePodCallsPod | EdgeTypePodCallsService
  | EdgeTypeServiceSelectsPod | EdgeTypePodToNode | EdgeTypePVCToNetAppAggr
  | EdgeTypeStorageFlow.

#[export] Instance EdgeType_eq_dec : EqDecision EdgeType.
Proof. solve_decision. Defined.

(** pkg/graph/edge.go@13-21, [EdgeType]: the constants' values. *)
Definition edge_type_string (t : EdgeType) : string :=
  match t with
  | EdgeTypePodMountsPVC => "pod-mounts-pvc"
  | EdgeTypePodCallsPod => "pod-calls-pod"
  | EdgeTypePodCallsService => "pod-calls-service"
  | EdgeTypeServiceSelectsPod => "service-selects-pod"
  | EdgeTypePodToNode => "pod-to-node"
  | EdgeTypePVCToNetAppAggr => "pvc-to-netapp-aggr"
  | EdgeTypeStorageFlow => "storage-flow"
  end.

(** pkg/graph/edge.go@31-37, [StorageTierNodeAggr] *)
Definition StorageTierNodeAggr := "node-aggr".
(** pkg/graph/edge.go@31-37, [StorageTierAggrSVM] *)
Definition StorageTierAggrSVM := "aggr-svm".
(** pkg/graph/edge.go@31-37, [StorageTierSVMPVC] *)
Definition StorageTierSVMPVC := "svm-pvc".
(** pkg/graph/edge.go@31-37, [StorageTierPVCPod] *)
Definition StorageTierPVCPod := "pvc-pod".
(** pkg/graph/edge.go@31-37, [StorageTierPodNode] *)
Definition StorageTierPodNode := "pod-node".

(** pkg/graph/edge.go, [StorageTiers]: chain order, storage first. *)
Definition StorageTiers : list string :=
  [StorageTierNodeAggr; StorageTierAggrSVM; StorageTierSVMPVC; StorageTierPVCPod; StorageTierPodNode].

(** pkg/graph/edge.go, [ClaimAggrLabel] *)
Definition ClaimAggrLabel := "claim_aggr".

(** pkg/graph/edge.go, [EdgeMetrics] *)
Record EdgeMetrics := mkEdgeMetrics {
  em_Rate : float64;
  em_ErrorRate : option float64;
  em_P90ServerMs : option float64;
}.

(** pkg/graph/edge.go, [IOMetrics] *)
Record IOMetrics := mkIOMetrics {
  ReadOps : option float64;
  WriteOps : option float64;
  ReadLatencyUs : option float64;
  WriteLatencyUs : option float64;
  ReadBytesPerSec : option float64;
  WriteBytesPerSec : option float64;
  MaxIOPS : option float64;
  MaxBytesPerSec : option float64;
  ReadOpsDelta : option float64;
  WriteOpsDelta : option float64;
  ReadLatencyUsDelta : option float64;
  WriteLatencyUsDelta : option float64;
  ReadBytesPerSecDelta : option float64;
  WriteBytesPerSecDelta : option float64;
}.

(** The zero value of the struct. *)
Definition IOMetrics_zero : IOMetrics :=
  mkIOMetrics None None None None None None None None None None None None None None.

(** pkg/graph/edge.go, [Edge] *)
Record Edge := mkEdge {
  edge_ID : string;
  edge_Type : EdgeType;
  Source : string;
  Target : string;
  edge_Labels : labels;
  edge_Metrics : option EdgeMetrics;
  edge_IO : option IOMetrics;
}.

#[export] Instance EdgeMetrics_eq_dec : EqDecision EdgeMetrics.
Proof. solve_decision. Defined.
#[export] Instance IOMetrics_eq_dec : EqDecision IOMetrics.
Proof. solve_decision. Defined.
#[export] Instance Edge_eq_dec : EqDecision Edge.
Proof. solve_decision. Defined.

(** The UUIDv5 of a name under the fixed edge namespace, rendered as text:
    github.com/google/uuid's [NewSHA1] and [String], a parameter. *)
Class EdgeUUID := edge_uuid : string → string.

(** The name the identity is derived from: [string(t)+"|"+source+"|"+target]. *)
Definition edge_name (t : EdgeType) (source target : string) : string :=
  edge_type_string t +:+ "|" +:+ source +:+ "|" +:+ target.

Section edges.
  Context `{EdgeUUID}.

(** pkg/graph/edge.go, [NewEdge] *)
Definition NewEdge (t : EdgeType) (source target : string) (ls : labels) : Edge :=
  mkEdge (edge_uuid (edge_name t source target)) t source target ls None None.

(** pkg/graph/edge.go, [Edge.WithMetrics] *)
Definition WithMetrics (e : option Edge) (m : EdgeMetrics) : option Edge :=
  match e with
  | None => None
  | Some e => Some (mkEdge (edge_ID e) (edge_Type e) (Source e) (Target e)
                           (edge_Labels e) (Some m) (edge_IO e))
  end.

(** pkg/graph/edge.go, [Edge.WithIO] *)
Definition WithIO (e : option Edge) (m : IOMetrics) : option Edge :=
  match e with
  | None => None
  | Some e => Some (mkEdge (edge_ID e) (edge_Type e) (Source e) (Target e)
                           (edge_Labels e) (edge_Metrics e) (Some m))
  end.

(** pkg/graph/edge.go, [SortEdges] *)
Definition SortEdges (edges : list Edge) : list Edge :=
  sort_func (on_key edge_ID String.compare) edges.

(** ** Identity *)

(** The invariant every edge built through [NewEdge] has: its id is a function
    of (type, source, target) alone. *)
Definition edge_wf (e : Edge) : Prop :=
  edge_ID e = edge_uuid (edge_name (edge_Type e) (Source e) (Target e)).

Lemma NewEdge_wf t s d ls : edge_wf (NewEdge t s d ls).
Proof. done. Qed.

Lemma edge_type_string_inj t t' : edge_type_string t = edge_type_string t' → t = t'.
Proof. by destruct t, t'. Qed.

Lemma edge_type_no_bar t : contains_byte "|"%char (edge_type_string t) = false.
Proof. by destruct t. Qed.

Lemma edge_name_split t s d :
  contains_byte "|"%char s = false → contains_byte "|"%char d = false →
  split "|"%char (edge_name t s d) = [edge_type_string t; s; d].
Proof.
  intros Hs Hd. unfold edge_name.
  rewrite !append_char.
  rewrite split_app by apply edge_type_no_bar.
  rewrite split_app by done. by rewrite split_no_sep.
Qed.

(** An edge's identity is (type, source, target) and nothing else:
    attaching measurements never moves it, and two edges whose endpoints hold
    no separator, and on whose names the hash does not collide, share an id
    exactly when they are the same hop. *)
Theorem edge_identity t s d ls t' s' d' ls' m io e' e'' :
  contains_byte "|"%char s = false → contains_byte "|"%char d = false →
  contains_byte "|"%char s' = false → contains_byte "|"%char d' = false →
  (edge_uuid (edge_name t s d) = edge_uuid (edge_name t' s' d') →
   edge_name t s d = edge_name t' s' d') →
  WithMetrics (Some (NewEdge t s d ls)) m = Some e' →
  WithIO (Some (NewEdge t' s' d' ls')) io = Some e'' →
  (edge_ID e' = edge_ID e'' ↔ t = t' ∧ s = s' ∧ d = d') ∧ edge_wf e' ∧ edge_wf e''.
Proof.
  intros Hs Hd Hs' Hd' Hinj [= <-] [= <-]. simpl. split_and!; [|done|done].
  split; [|by intros (-> & -> & ->)].
  intros Hname%Hinj%(f_equal (split "|"%char)). rewrite !edge_name_split in Hname by done.
  injection Hname as Ht -> ->. by apply edge_type_string_inj in Ht as ->.
Qed.

End edges.

(** ** The registry of edge types *)

(** pkg/graph/registry.go, [EdgeTypeLabel]: the prose description is omitted. *)
Record EdgeTypeLabel := mkEdgeTypeLabel { etl_Name : string; etl_ValueType : string }.

(** pkg/graph/registry.go, [EdgeTypeDefinition]: the prose description is omitted. *)
Record EdgeTypeDefinition := mkEdgeTypeDefinition {
  etd_Type : EdgeType;
  etd_SourceType : list NodeType;
  etd_TargetType : list NodeType;
  etd_Directed : bool;
  etd_MayCrossCluster : bool;
  etd_Labels : list EdgeTypeLabel;
}.

(** pkg/graph/registry.go, [EdgeTypes] *)
Definition EdgeTypes : list EdgeTypeDefinition := [
  mkEdgeTypeDefinition EdgeTypePodMountsPVC [NodeTypePod] [NodeTypePVC] true false
    [mkEdgeTypeLabel "claim_name" "string"];
  mkEdgeTypeDefinition EdgeTypePodCallsPod
    [NodeTypePod; NodeTypeService; NodeTypeExternal] [NodeTypePod; NodeTypeExternal] true true
    [mkEdgeTypeLabel "cluster" "string"; mkEdgeTypeLabel "relation" "string"];
  mkEdgeTypeDefinition EdgeTypePodCallsService
    [NodeTypePod; NodeTypeService; NodeTypeExternal] [NodeTypeService] true true
    [mkEdgeTypeLabel "cluster" "string"; mkEdgeTypeLabel "relation" "string"];
  mkEdgeTypeDefinition EdgeTypeServiceSelectsPod [NodeTypeService] [NodeTypePod] true true
    [mkEdgeTypeLabel "namespace" "string"];
  mkEdgeTypeDefinition EdgeTypePodToNode [NodeTypePod] [NodeTypeK8sNode] true false [];
  mkEdgeTypeDefinition EdgeTypePVCToNetAppAggr [NodeTypePVC] [NodeTypeNetAppAggr] true false [];
  mkEdgeTypeDefinition EdgeTypeStorageFlow
    [NodeTypeNetAppNode; NodeTypeNetAppAggr; NodeTypeNetAppSVM; NodeTypePVC; NodeTypePod]
    [NodeTypeNetAppAggr; NodeTypeNetAppSVM; NodeTypePVC; NodeTypePod; NodeTypeK8sNode] true false
    [mkEdgeTypeLabel "tier" "string"; mkEdgeTypeLabel "attribution" "string"]
].

(** pkg/graph/graph.go, [neverCrossCluster]: membership in the set derived
    from the registry at initialisation. *)
Definition neverCrossCluster (t : EdgeType) : bool :=
  existsb (λ d, bool_decide (etd_Type d = t) && negb (etd_MayCrossCluster d)) EdgeTypes.

Lemma edge_identity_witness :
  contains_byte "|"%char "c/p1" = false ∧
  ∃ e' e'', @WithMetrics (Some (@NewEdge (λ x, x) EdgeTypePodCallsPod "c/p1" "c/p2" ∅))
              (mkEdgeMetrics (f_of_Z 1) None None) = Some e' ∧
            @WithIO (Some (@NewEdge (λ x, x) EdgeTypePodToNode "c/p1" "c/n1" ∅)) IOMetrics_zero
              = Some e'' ∧
            edge_ID e' ≠ edge_ID e''.
Proof.
  split; [reflexivity|].
  eexists _, _. split; [reflexivity|]. split; [reflexivity|]. intros Hid.
  assert (EdgeTypePodCallsPod = EdgeTypePodToNode ∧ "c/p1" = "c/p1" ∧ "c/p2" = "c/n1")
    as (Ht & _); [|discriminate Ht].
  apply (@edge_identity (λ x, x) EdgeTypePodCallsPod "c/p1" "c/p2" ∅
           EdgeTypePodToNode "c/p1" "c/n1" ∅
           (mkEdgeMetrics (f_of_Z 1) None None) IOMetrics_zero _ _
           eq_refl eq_refl eq_refl eq_refl (λ e, e) eq_refl eq_refl).
  exact Hid.
Defined.
