(* ===== verification/Graph.v ===== *)
(** pkg/graph/graph.go: the in-memory multi-cluster graph of one time window,
    its construction (keep-first de-duplication of node ids) and the
    self-metrics counted over it. *)

From S2P Require Import Prelude GoStrings Float64 GraphNode GraphEdge.

(** pkg/graph/graph.go, [ClusterIdentity] *)
Record ClusterIdentity := mkClusterIdentity { ci_AZ : string; ci_Env : string; ci_Name : string }.
#[export] Instance ClusterIdentity_eq_dec : EqDecision ClusterIdentity.
Proof. solve_decision. Defined.

(** pkg/graph/graph.go, [NamespaceMeta] *)
Record NamespaceMeta := mkNamespaceMeta {
  nm_Owner : string; nm_Group : string; nm_GroupOwner : string; nm_Alias : string;
}.
(** pkg/graph/graph.go, [ApplicationMeta] *)
Record ApplicationMeta := mkApplicationMeta { am_DeployedBy : string; am_DeployedAt : Z }.
(** pkg/graph/graph.go, [NamespaceRef]: (cluster, namespace). *)
Definition NamespaceRef : Type := string * string.
(** pkg/graph/graph.go, [ApplicationRef]: (cluster, namespace, application). *)
Definition ApplicationRef : Type := string * string * string.

(** pkg/graph/graph.go, [Graph] *)
Record Graph := mkGraph {
  BuiltAt : Z;
  NodesByID : gmap string GraphNode;
  Edges : list Edge;
  ClusterIdentities : gmap string ClusterIdentity;
  NamespaceMetadata : gmap (string * string) NamespaceMeta;
  ApplicationMetadata : gmap (string * string * string) ApplicationMeta;
}.

(** pkg/graph/graph.go, [Graph.ClusterRawName]: [None] is the nil graph. *)
Definition ClusterRawName (g : option Graph) (id : string) : string :=
  match g with
  | None => id
  | Some g => match ClusterIdentities g !! id with
              | Some ci => ci_Name ci
              | None => id
              end
  end.

(** The de-duplicating loop of [NewGraph]: the first node of an id wins. *)
Definition add_node (m : gmap string GraphNode) (n : GraphNode) : gmap string GraphNode :=
  match m !! ID n with
  | Some _ => m
  | None => <[ID n := n]> m
  end.

(** pkg/graph/graph.go, [NewGraph]: the builder sets the identity and metadata
    tables afterwards. *)
Definition NewGraph (nodes : list GraphNode) (edges : list Edge) (builtAt : Z) : Graph :=
  mkGraph builtAt (fold_left add_node nodes ∅) edges ∅ ∅ ∅.

(** The nodes of a graph, in the (unspecified) iteration order of the map. *)
Definition graph_nodes (g : Graph) : list GraphNode := (map_to_list (NodesByID g)).*2.

(** pkg/graph/graph.go, [Graph.ClusterNames] *)
Definition ClusterNames (g : Graph) : list string :=
  let seen : gset string :=
    foldr (λ n s, if decide (Type_ n = NodeTypeExternal) then s
                  else let c := lget (Labels n) "cluster" in
                       if decide (c = "") then s else {[c]} ∪ s) ∅ (graph_nodes g) in
  sort_func String.compare (elements seen).

(** [out[k]++] on a map of counters. *)
Definition incr `{Countable K} (k : K) (m : gmap K nat) : gmap K nat :=
  <[k := S (default 0 (m !! k))]> m.

(** pkg/graph/graph.go, [Graph.NodeCountByKind] *)
Definition NodeCountByKind (g : Graph) : gmap (string * string) nat :=
  foldr (λ n, incr (lget (Labels n) "cluster", node_type_string (Type_ n))) ∅ (graph_nodes g).

(** pkg/graph/graph.go, [Graph.isCrossCluster] *)
Definition isCrossCluster (g : Graph) (e : Edge) : bool :=
  match NodesByID g !! Source e, NodesByID g !! Target e with
  | Some src, Some tgt =>
      if bool_decide (Type_ src = NodeTypeExternal) || bool_decide (Type_ tgt = NodeTypeExternal)
      then false
      else
        let srcCluster := lget (Labels src) "cluster" in
        let tgtCluster := lget (Labels tgt) "cluster" in
        if bool_decide (srcCluster = "") || bool_decide (tgtCluster = "") then false
        else negb (bool_decide (srcCluster = tgtCluster))
  | _, _ => false
  end.

(** The cross-cluster bucket of one edge. *)
Definition cross_bucket (g : Graph) (e : Edge) : string :=
  if negb (neverCrossCluster (edge_Type e)) && isCrossCluster g e then "true" else "false".

(** pkg/graph/graph.go, [Graph.EdgeCountByType] *)
Definition EdgeCountByType (g : Graph) : gmap (string * string) nat :=
  fold_left (λ out e, incr (edge_type_string (edge_Type e), cross_bucket g e) out) (Edges g) ∅.

(** ** Well-formedness *)

(** Nodes are filed under their own id. *)
Definition graph_wf (g : Graph) : Prop :=
  map_Forall (λ id n, ID n = id) (NodesByID g).

Lemma graph_wf_ID g id n : graph_wf g → NodesByID g !! id = Some n → ID n = id.
Proof. intros Hwf. apply Hwf. Qed.

Lemma fold_add_node_lookup nodes m id :
  fold_left add_node nodes m !! id =
  match m !! id with
  | Some n => Some n
  | None => snd <$> list_find (λ n, ID n = id) nodes
  end.
Proof.
  revert m. induction nodes as [|n l IH]; intros m; simpl; [by destruct (m !! id)|].
  rewrite IH. unfold add_node. destruct (decide (ID n = id)) as [<-|Hne].
  - destruct (m !! ID n) as [n'|] eqn:E; [by rewrite E|]. by rewrite lookup_insert_eq.
  - assert ((match m !! ID n with Some _ => m | None => <[ID n:=n]> m end) !! id = m !! id) as ->.
    { destruct (m !! ID n); [done|]. by rewrite lookup_insert_ne. }
    destruct (m !! id); [done|]. by destruct (list_find _ l) as [[??]|].
Qed.

(** [NewGraph] files every node under its own id, keeps the FIRST node of
    each id in input order (so the winner never depends on map iteration) and
    drops no id. *)
Theorem NewGraph_keep_first nodes edges builtAt id :
  NodesByID (NewGraph nodes edges builtAt) !! id
    = (snd <$> list_find (λ n, ID n = id) nodes) ∧
  graph_wf (NewGraph nodes edges builtAt) ∧
  (is_Some (NodesByID (NewGraph nodes edges builtAt) !! id) ↔ id ∈ map ID nodes).
Proof.
  assert (∀ i, NodesByID (NewGraph nodes edges builtAt) !! i
               = (snd <$> list_find (λ n, ID n = i) nodes)) as Hl.
  { intros i. simpl. rewrite fold_add_node_lookup. done. }
  split_and!; [apply Hl| |].
  - intros i n. rewrite Hl. intros ([k m] & Hf & ->)%fmap_Some. simpl.
    by apply list_find_Some in Hf as (_ & ? & _).
  - rewrite Hl, fmap_is_Some. split.
    + intros [[k m] Hf]. apply list_find_Some in Hf as (Hk & <- & _).
      apply list_elem_of_fmap_2. by eapply list_elem_of_lookup_2.
    + intros (n & -> & Hn)%list_elem_of_fmap.
      destruct (list_find (λ m, ID m = ID n) nodes) eqn:E; [by eexists|].
      apply list_find_None in E. rewrite Forall_forall in E. by destruct (E n Hn).
Qed.

Lemma elem_of_graph_nodes g n :
  graph_wf g → n ∈ graph_nodes g ↔ NodesByID g !! ID n = Some n.
Proof.
  intros Hwf. unfold graph_nodes. rewrite list_elem_of_fmap. split.
  - intros ([k m] & -> & Hin%elem_of_map_to_list). simpl.
    by rewrite (Hwf _ _ Hin).
  - intros H. exists (ID n, n). by rewrite elem_of_map_to_list.
Qed.

(** The cluster list of a response is sorted, duplicate-free and holds
    exactly the non-empty cluster labels of the non-external nodes. *)
Theorem ClusterNames_spec g :
  StronglySorted (cmp_lt String.compare) (ClusterNames g) ∧
  ∀ c, c ∈ ClusterNames g ↔
       ∃ id n, NodesByID g !! id = Some n ∧ Type_ n ≠ NodeTypeExternal ∧
               lget (Labels n) "cluster" = c ∧ c ≠ "".
Proof.
  unfold ClusterNames. set (f := λ n s, _). split.
  { apply (sorted_le_NoDup_lt String.compare); [apply (sort_func_sorted String.compare)|].
    rewrite (NoDup_sort_func String.compare). apply NoDup_elements. }
  intros c. rewrite elem_of_sort_func, elem_of_elements.
  assert (∀ l, c ∈ foldr f (∅ : gset string) l ↔
     ∃ n, n ∈ l ∧ Type_ n ≠ NodeTypeExternal ∧ lget (Labels n) "cluster" = c ∧ c ≠ "") as ->.
  { induction l as [|n l IH]; simpl; [set_solver|]. subst f. cbn beta.
    repeat case_decide; rewrite ?elem_of_union, IH; [set_solver..|].
    rewrite elem_of_singleton. set_solver. }
  unfold graph_nodes. split.
  - intros (n & ([k m] & -> & Hin%elem_of_map_to_list)%list_elem_of_fmap & H). by exists k, m.
  - intros (id & n & Hin & H). exists n. split; [|done].
    apply list_elem_of_fmap. exists (id, n). by rewrite elem_of_map_to_list.
Qed.

Lemma lookup_incr `{Countable K} (k k' : K) m :
  default 0 (incr k m !! k') = (if decide (k = k') then 1 else 0) + default 0 (m !! k').
Proof.
  unfold incr. case_decide as Hk; [subst; by rewrite lookup_insert_eq|].
  by rewrite lookup_insert_ne.
Qed.

Lemma fold_incr `{Countable K} {A} (key : A → K) l m k :
  default 0 (fold_left (λ out a, incr (key a) out) l m !! k) =
  length (filter (λ a, key a = k) l) + default 0 (m !! k).
Proof.
  revert m. induction l as [|a l IH]; intros m; simpl; [done|].
  rewrite IH, lookup_incr, filter_cons. case_decide; simpl; lia.
Qed.

(** The per-type edge counts partition the edges: the count of
    (type, "true") is the number of edges of that type that may cross clusters
    and whose endpoints resolve to two different non-empty clusters, every
    other edge of the type is counted under "false", and no edge is lost. *)
Theorem EdgeCountByType_spec g t :
  let n b := length (filter (λ e, edge_Type e = t ∧ cross_bucket g e = b) (Edges g)) in
  default 0 (EdgeCountByType g !! (edge_type_string t, "true")) = n "true" ∧
  default 0 (EdgeCountByType g !! (edge_type_string t, "false")) = n "false" ∧
  n "true" + n "false" = length (filter (λ e, edge_Type e = t) (Edges g)) ∧
  (∀ e, cross_bucket g e = "true" ↔
        neverCrossCluster (edge_Type e) = false ∧ isCrossCluster g e = true).
Proof.
  simpl. unfold EdgeCountByType.
  assert (∀ b, default 0 (fold_left (λ out e, incr (edge_type_string (edge_Type e),
      cross_bucket g e) out) (Edges g) ∅ !! (edge_type_string t, b)) =
      length (filter (λ e, edge_Type e = t ∧ cross_bucket g e = b) (Edges g))) as Hb.
  { intros b. rewrite (fold_incr (λ e, (edge_type_string (edge_Type e), cross_bucket g e))).
    rewrite lookup_empty. simpl. rewrite Nat.add_0_r. f_equal.
    apply list_filter_iff. intros e. split.
    - intros [= Ht ->]. split; [by apply edge_type_string_inj|done].
    - by intros [-> ->]. }
  split_and!; [apply Hb..| |].
  - clear Hb. induction (Edges g) as [|e l IH]; [done|].
    assert (cross_bucket g e = "true" ∨ cross_bucket g e = "false") as Hc.
    { unfold cross_bucket. by destruct (_ && _); [left|right]. }
    rewrite !filter_cons.
    destruct Hc as [Hc|Hc]; rewrite Hc; repeat case_decide; simpl;
      solve [lia | exfalso; naive_solver].
  - intros e. unfold cross_bucket.
    destruct (neverCrossCluster _), (isCrossCluster g e); simpl; naive_solver.
Qed.
