(* ===== verification/Project.v ===== *)
(** pkg/graph/scope.go: the projection filter of /v1/graph. A Go
    [map\[string\]struct{}] is a [gset]; nil and empty both mean "no filter".

    pkg/graph/project.go: the projection of a built graph served by /v1/graph.
    Connectivity prune, cluster / namespace admission, infrastructure admission
    by reference, edge filtering with the single partner re-add, and the sweep
    that admits the owning controller of every aggregate. *)

From S2P Require Import Prelude GoStrings Float64 GraphNode GraphEdge Graph.

(** pkg/graph/scope.go, [Scope] *)
Record Scope := mkScope {
  Clusters : gset string;
  Namespaces : gset string;
  Inventory : bool;
}.

(** pkg/graph/scope.go, [stringSet] *)
Definition stringSet (values : list string) : gset string :=
  fold_left (λ out v, if decide (v = "") then out else {[v]} ∪ out) values ∅.

(** pkg/graph/scope.go, [NewScope] *)
Definition NewScope (clusters namespaces : list string) (inventory : bool) : Scope :=
  mkScope (stringSet clusters) (stringSet namespaces) inventory.

(** pkg/graph/scope.go, [SortedKeys] *)
Definition SortedKeys (m : gset string) : list string :=
  sort_func String.compare (elements m).

(** [len(m) > 0]. *)
Definition nonempty (s : gset string) : bool := negb (bool_decide (s = ∅)).

(** [if len(filter) > 0 { if _, ok := filter[v]; !ok { return false } }]: an
    empty filter admits everything. *)
Definition admits (filter : gset string) (v : string) : bool :=
  negb (nonempty filter) || bool_decide (v ∈ filter).

Lemma admits_spec f v : admits f v = true ↔ f = ∅ ∨ v ∈ f.
Proof.
  unfold admits, nonempty. rewrite negb_involutive, orb_true_iff, !bool_decide_eq_true. done.
Qed.

Lemma nonempty_spec s : nonempty s = true ↔ s ≠ ∅.
Proof. unfold nonempty. by rewrite negb_true_iff, bool_decide_eq_false. Qed.

Lemma elem_of_stringSet values v : v ∈ stringSet values ↔ v ∈ values ∧ v ≠ "".
Proof.
  unfold stringSet.
  assert (∀ s : gset string, v ∈ fold_left (λ out v, if decide (v = "") then out else {[v]} ∪ out)
            values s ↔ v ∈ s ∨ v ∈ values ∧ v ≠ "") as ->; [|set_solver].
  induction values as [|w l IH]; intros s; simpl; [set_solver|].
  rewrite IH, elem_of_cons. case_decide; [naive_solver|].
  rewrite elem_of_union, elem_of_singleton. naive_solver.
Qed.

Lemma elem_of_SortedKeys m v : v ∈ SortedKeys m ↔ v ∈ m.
Proof. unfold SortedKeys. by rewrite elem_of_sort_func, elem_of_elements. Qed.

(** pkg/graph/project.go, [View] *)
Record View := mkView { view_Nodes : list GraphNode; view_Edges : list Edge }.

(** ** Connectivity prune *)

(** The edge types that make their endpoints connected. *)
Definition connectivity_edge (t : EdgeType) : bool :=
  match t with
  | EdgeTypePodCallsPod | EdgeTypePodCallsService | EdgeTypeServiceSelectsPod => true
  | EdgeTypePodMountsPVC | EdgeTypePodToNode | EdgeTypePVCToNetAppAggr
  | EdgeTypeStorageFlow => false
  end.

(** One edge of the scan: the connected endpoints, and the mounters of a claim. *)
Definition connectivity_step (st : gset string * gmap string (list string)) (e : Edge)
  : gset string * gmap string (list string) :=
  let '(connectedPods, pvcMounters) := st in
  match edge_Type e with
  | EdgeTypePodCallsPod | EdgeTypePodCallsService | EdgeTypeServiceSelectsPod =>
      ({[Target e]} ∪ ({[Source e]} ∪ connectedPods), pvcMounters)
  | EdgeTypePodMountsPVC =>
      (connectedPods,
       <[Target e := default [] (pvcMounters !! Target e) ++ [Source e]]> pvcMounters)
  | EdgeTypePodToNode | EdgeTypePVCToNetAppAggr | EdgeTypeStorageFlow => st
  end.

(** Whether the node filed under [id] is pruned. *)
Definition node_excluded (connectedPods : gset string) (pvcMounters : gmap string (list string))
    (id : string) (n : GraphNode) : bool :=
  match Type_ n with
  | NodeTypePod => negb (bool_decide (id ∈ connectedPods))
  | NodeTypePVC =>
      negb (existsb (λ podID, bool_decide (podID ∈ connectedPods)) (default [] (pvcMounters !! id)))
  | _ => false
  end.

(** pkg/graph/project.go, [connectivityExcluded] *)
Definition connectivityExcluded (g : Graph) : gset string :=
  let '(connectedPods, pvcMounters) := fold_left connectivity_step (Edges g) (∅, ∅) in
  dom (filter (λ kn : string * GraphNode,
                 Is_true (node_excluded connectedPods pvcMounters kn.1 kn.2)) (NodesByID g)).

(** ** Node admission *)

(** pkg/graph/project.go, [nodePassesFilters] *)
Definition nodePassesFilters (n : GraphNode) (scope : Scope) (rawName : string → string) : bool :=
  let labels := Labels n in
  (if nonempty (Clusters scope) then
     match Type_ n with
     | NodeTypeExternal => false
     | NodeTypeNetAppAggr | NodeTypeNetAppNode => true
     | _ => bool_decide (rawName (lget labels "cluster") ∈ Clusters scope)
     end
   else true) &&
  (if nonempty (Namespaces scope) then
     match Type_ n with
     | NodeTypeExternal => true
     | _ => bool_decide (lget labels "namespace" ∈ Namespaces scope)
     end
   else true).

(** pkg/graph/project.go, [infraNodePassesFilters] *)
Definition infraNodePassesFilters (n : GraphNode) (scope : Scope) (referenced : gset string)
    (rawName : string → string) : bool :=
  if nonempty (Clusters scope) &&
     negb (bool_decide (rawName (lget (Labels n) "cluster") ∈ Clusters scope)) then false
  else if Inventory scope && negb (nonempty (Namespaces scope)) then true
  else bool_decide (ID n ∈ referenced).

(** pkg/graph/project.go, [netappInfraPassesFilters] *)
Definition netappInfraPassesFilters (n : GraphNode) (scope : Scope) (referenced : gset string) : bool :=
  if Inventory scope && negb (nonempty (Clusters scope)) && negb (nonempty (Namespaces scope))
  then true
  else bool_decide (ID n ∈ referenced).

(** pkg/graph/project.go, [nodePassesNonClusterFilters] *)
Definition nodePassesNonClusterFilters (n : GraphNode) (scope : Scope) : bool :=
  if nonempty (Namespaces scope) then
    match Type_ n with
    | NodeTypeExternal | NodeTypeK8sNode | NodeTypeNetAppAggr | NodeTypeNetAppNode => true
    | _ => bool_decide (lget (Labels n) "namespace" ∈ Namespaces scope)
    end
  else true.

(** The accumulators of the first loop of [filterNodes]. *)
Record admission := mkAdmission {
  adm_out : gmap string GraphNode;
  deferredK8s : list GraphNode;
  deferredAggr : list GraphNode;
  deferredNetAppNode : list GraphNode;
  hostNodes : gset string;
}.

Definition admission0 : admission := mkAdmission ∅ [] [] [] ∅.

(** One node of that loop. *)
Definition admit_step (scope : Scope) (rawName : string → string) (excluded : gset string)
    (kn : string * GraphNode) (a : admission) : admission :=
  let '(id, n) := kn in
  if bool_decide (id ∈ excluded) then a else
  match Type_ n with
  | NodeTypeK8sNode =>
      mkAdmission (adm_out a) (n :: deferredK8s a) (deferredAggr a) (deferredNetAppNode a) (hostNodes a)
  | NodeTypeNetAppAggr =>
      mkAdmission (adm_out a) (deferredK8s a) (n :: deferredAggr a) (deferredNetAppNode a) (hostNodes a)
  | NodeTypeNetAppNode =>
      mkAdmission (adm_out a) (deferredK8s a) (deferredAggr a) (n :: deferredNetAppNode a) (hostNodes a)
  | _ =>
      if negb (nodePassesFilters n scope rawName) then a else
      let hn := lget (Labels n) "node" in
      mkAdmission (<[id := n]> (adm_out a)) (deferredK8s a) (deferredAggr a) (deferredNetAppNode a)
        (if bool_decide (Type_ n = NodeTypePod) && negb (bool_decide (hn = ""))
         then {[hn]} ∪ hostNodes a else hostNodes a)
  end.

(** [for _, n := range deferred { if !pass(n) { continue }; out[n.ID()] = n }] *)
Definition admit_deferred (pass : GraphNode → bool) (deferred : list GraphNode)
    (out : gmap string GraphNode) : gmap string GraphNode :=
  foldr (λ n out, if pass n then <[ID n := n]> out else out) out deferred.

(** The owning controller an aggregate names, when both labels are present. *)
Definition owner_id (n : GraphNode) : option string :=
  let oc := lget (Labels n) "ontap_cluster" in
  let node := lget (Labels n) "node" in
  if bool_decide (Type_ n = NodeTypeNetAppAggr) && negb (bool_decide (oc = "")) &&
     negb (bool_decide (node = ""))
  then Some (NetAppNodeID oc node) else None.

(** Targets of the pvc-to-netapp-aggr edges leaving an admitted claim. *)
Definition referencedAggr (g : Graph) (out : gmap string GraphNode) : gset string :=
  list_to_set (Target <$> filter (λ e, edge_Type e = EdgeTypePVCToNetAppAggr ∧
                                       is_Some (out !! Source e)) (Edges g)).

(** Controllers named by an admitted aggregate. *)
Definition referencedCtrl (out : gmap string GraphNode) : gset string :=
  list_to_set (omap owner_id (map_to_list out).*2).

(** pkg/graph/project.go, [filterNodes] *)
Definition filterNodes (g : Graph) (scope : Scope) (excluded : gset string) : gmap string GraphNode :=
  let rawName := ClusterRawName (Some g) in
  let a := foldr (admit_step scope rawName excluded) admission0 (map_to_list (NodesByID g)) in
  let refAggr := referencedAggr g (adm_out a) in
  let out := admit_deferred (λ n, infraNodePassesFilters n scope (hostNodes a) rawName)
               (deferredK8s a) (adm_out a) in
  let out := admit_deferred (λ n, netappInfraPassesFilters n scope refAggr) (deferredAggr a) out in
  let refCtrl := referencedCtrl out in
  admit_deferred (λ n, netappInfraPassesFilters n scope refCtrl) (deferredNetAppNode a) out.

(** pkg/graph/project.go, [pullNetAppParents]: entries added while the map is
    ranged over are controllers, which the loop skips, so the range over the
    entries present at the start is every one that matters. *)
Definition pullNetAppParents (g : Graph) (nodes : gmap string GraphNode) : gmap string GraphNode :=
  foldr (λ n nodes,
           match owner_id n with
           | None => nodes
           | Some id =>
               match nodes !! id, NodesByID g !! id with
               | None, Some parent => <[id := parent]> nodes
               | _, _ => nodes
               end
           end) nodes (map_to_list nodes).*2.

(** ** Edge admission *)

(** Bring in one missing endpoint; [None] when it may not be re-added. *)
Definition readd_partner (g : Graph) (id : string) (nodes : gmap string GraphNode) (scope : Scope)
    (excluded : gset string) (pred : GraphNode → Scope → bool) : option (gmap string GraphNode) :=
  if bool_decide (id ∈ excluded) then None else
  match NodesByID g !! id with
  | None => None
  | Some partner => if pred partner scope then Some (<[id := partner]> nodes) else None
  end.

(** pkg/graph/project.go, [readdEdgePartners]: the nodes map after the call
    (a source re-added before the target fails stays) and the result. *)
Definition readdEdgePartners (g : Graph) (e : Edge) (nodes : gmap string GraphNode)
    (srcOK tgtOK : bool) (scope : Scope) (excluded : gset string)
    (pred : GraphNode → Scope → bool) : gmap string GraphNode * bool :=
  match (if srcOK then Some nodes else readd_partner g (Source e) nodes scope excluded pred) with
  | None => (nodes, false)
  | Some nodes =>
      match (if tgtOK then Some nodes else readd_partner g (Target e) nodes scope excluded pred) with
      | None => (nodes, false)
      | Some nodes => (nodes, true)
      end
  end.

(** One edge of the scan; [primary] is the in-scope snapshot taken at entry. *)
Definition edge_step (g : Graph) (scope : Scope) (excluded primary : gset string)
    (st : gmap string GraphNode * list Edge) (e : Edge) : gmap string GraphNode * list Edge :=
  let '(nodes, out) := st in
  let srcOK := bool_decide (Source e ∈ primary) in
  let tgtOK := bool_decide (Target e ∈ primary) in
  if srcOK && tgtOK then (nodes, out ++ [e])
  else if negb srcOK && negb tgtOK then (nodes, out)
  else
    let '(nodes, ok) := readdEdgePartners g e nodes srcOK tgtOK scope excluded
                          nodePassesNonClusterFilters in
    if ok then (nodes, out ++ [e]) else (nodes, out).

(** pkg/graph/project.go, [filterEdges]: also returns the nodes map it mutates. *)
Definition filterEdges (g : Graph) (scope : Scope) (nodes : gmap string GraphNode)
    (excluded : gset string) : gmap string GraphNode * list Edge :=
  fold_left (edge_step g scope excluded (dom nodes)) (Edges g) (nodes, []).

(** pkg/graph/project.go, [Project]: [None] is the nil graph. *)
Definition Project (g : option Graph) (scope : Scope) : View :=
  match g with
  | None => mkView [] []
  | Some g =>
      let excluded := if Inventory scope then ∅ else connectivityExcluded g in
      let nodes := filterNodes g scope excluded in
      let '(nodes, edges) := filterEdges g scope nodes excluded in
      let nodes := pullNetAppParents g nodes in
      mkView (SortNodes (map_to_list nodes).*2) (SortEdges edges)
  end.
