(* ===== verification/ProjectLemmas.v ===== *)
(** Lemmas about the passes of pkg/graph/project.go (file Project): what each
    pass admits, in terms of the built graph. The properties of the projection
    itself are in ProjectProps. *)

From S2P Require Import Prelude GoStrings Float64 GraphNode GraphEdge Graph Project.

(** ** Connectivity *)

(** The node is an endpoint of a connectivity edge of the graph. *)
Definition connected (g : Graph) (id : string) : Prop :=
  ∃ e, e ∈ Edges g ∧ connectivity_edge (edge_Type e) = true ∧ (Source e = id ∨ Target e = id).

(** The pod mounts the claim. *)
Definition mounts (g : Graph) (pod pvc : string) : Prop :=
  ∃ e, e ∈ Edges g ∧ edge_Type e = EdgeTypePodMountsPVC ∧ Source e = pod ∧ Target e = pvc.

Lemma connectivity_fold es c m c' m' :
  fold_left connectivity_step es (c, m) = (c', m') →
  (∀ id, id ∈ c' ↔ id ∈ c ∨ ∃ e, e ∈ es ∧ connectivity_edge (edge_Type e) = true ∧
                                 (Source e = id ∨ Target e = id)) ∧
  (∀ pod pvc, pod ∈ default [] (m' !! pvc) ↔ pod ∈ default [] (m !! pvc) ∨
     ∃ e, e ∈ es ∧ edge_Type e = EdgeTypePodMountsPVC ∧ Source e = pod ∧ Target e = pvc).
Proof.
  revert c m. induction es as [|e es IH]; intros c m; cbn [fold_left].
  { intros [= <- <-]. split; intros; rewrite exists_elem_nil; tauto. }
  destruct (connectivity_step (c, m) e) as [c1 m1] eqn:E1. intros E.
  destruct (IH _ _ E) as [IHc IHm]. clear IH E.
  unfold connectivity_step in E1. split.
  - intros id. rewrite IHc, exists_elem_cons. clear IHc IHm.
    destruct (edge_Type e) eqn:Et; inv E1;
      rewrite ?elem_of_union, ?elem_of_singleton; simpl; intuition (congruence || auto).
  - intros pod pvc. rewrite IHm, exists_elem_cons. clear IHc IHm.
    destruct (edge_Type e) eqn:Et; inv E1; try solve [intuition (congruence || auto)].
    destruct (decide (Target e = pvc)) as [<-|Hne].
    + rewrite lookup_insert_eq. simpl. rewrite elem_of_app, list_elem_of_singleton.
      intuition (congruence || auto).
    + rewrite lookup_insert_ne by done. intuition (congruence || auto).
Qed.

Lemma elem_of_connectivityExcluded g id :
  id ∈ connectivityExcluded g ↔
  ∃ n, NodesByID g !! id = Some n ∧
       ((Type_ n = NodeTypePod ∧ ¬ connected g id) ∨
        (Type_ n = NodeTypePVC ∧ ∀ pod, mounts g pod id → ¬ connected g pod)).
Proof.
  unfold connectivityExcluded.
  destruct (fold_left _ _ _) as [c m] eqn:E. apply connectivity_fold in E as [Hc Hm].
  assert (∀ i, i ∈ c ↔ connected g i) as Hc'.
  { intros i. rewrite Hc. unfold connected. split; [intros [?%not_elem_of_empty|?]|]; auto. done. }
  assert (∀ p v, p ∈ default [] (m !! v) ↔ mounts g p v) as Hm'.
  { intros p v. rewrite Hm, lookup_empty. unfold mounts. simpl.
    split; [intros [?%not_elem_of_nil|?]|]; auto. done. }
  clear Hc Hm. rewrite elem_of_dom. unfold is_Some. setoid_rewrite map_lookup_filter_Some.
  unfold node_excluded. f_equiv. intros n. simpl. f_equiv.
  destruct (Type_ n);
    try (split; [done|intros [[? _]|[? _]]; discriminate]); rewrite Is_true_true.
  - rewrite negb_true_iff, bool_decide_eq_false, Hc'.
    split; [by left|]. by intros [[_ ?]|[? _]].
  - rewrite negb_true_iff, <-not_true_iff_false, existsb_exists.
    setoid_rewrite bool_decide_eq_true. setoid_rewrite <-list_elem_of_In.
    setoid_rewrite Hm'. setoid_rewrite Hc'. split.
    + intros H. right. split; [done|]. intros pod ??. apply H. by exists pod.
    + intros [[? _]|[_ H]] (pod & ? & ?); [discriminate|by eapply H].
Qed.

(** ** First pass of filterNodes *)

Definition direct_type (t : NodeType) : bool :=
  match t with
  | NodeTypeK8sNode | NodeTypeNetAppAggr | NodeTypeNetAppNode => false
  | _ => true
  end.

Section first_pass.
Context (scope : Scope) (raw : string → string) (excluded : gset string).
Implicit Types (l : list (string * GraphNode)) (n : GraphNode) (id : string).

Let pass l := foldr (admit_step scope raw excluded) admission0 l.

(** A node admitted directly by the first pass. *)
Definition direct_ok (kn : string * GraphNode) : Prop :=
  (kn.1 ∉ excluded) ∧ direct_type (Type_ kn.2) = true ∧
  nodePassesFilters kn.2 scope raw = true.

Lemma pass_out l id n :
  NoDup (l.*1) → (adm_out (pass l) !! id = Some n ↔ (id, n) ∈ l ∧ direct_ok (id, n)).
Proof.
  unfold direct_ok. simpl.
  induction l as [|[k m] l IH]; intros Hnd; simpl; [set_solver|].
  apply NoDup_cons in Hnd as [Hk Hnd]. specialize (IH Hnd). fold (pass l).
  assert (∀ x, (k, x) ∉ l) as Hkl.
  { intros x Hx. apply Hk. apply list_elem_of_fmap. by exists (k, x). }
  rewrite elem_of_cons.
  case_bool_decide as Hex; [rewrite IH; naive_solver|].
  destruct (Type_ m) eqn:Ht; simpl;
    try (rewrite IH; split; [naive_solver|];
         intros [[[= -> ->]|Hin] (? & Hd & ?)]; [rewrite Ht in Hd; done|done]).
  all: destruct (nodePassesFilters m scope raw) eqn:Hp; simpl; [|rewrite IH; naive_solver congruence].
  all: destruct (decide (id = k)) as [->|Hne];
    [rewrite lookup_insert_eq; split;
      [intros [= ->]; rewrite Ht; naive_solver|naive_solver]
    |rewrite lookup_insert_ne by done; rewrite IH; naive_solver].
Qed.

Lemma pass_deferred l n :
  (n ∈ deferredK8s (pass l) ↔ (Type_ n = NodeTypeK8sNode ∧ ∃ id, (id, n) ∈ l ∧ id ∉ excluded)) ∧
  (n ∈ deferredAggr (pass l) ↔ (Type_ n = NodeTypeNetAppAggr ∧ ∃ id, (id, n) ∈ l ∧ id ∉ excluded)) ∧
  (n ∈ deferredNetAppNode (pass l) ↔
     Type_ n = NodeTypeNetAppNode ∧ ∃ id, (id, n) ∈ l ∧ id ∉ excluded).
Proof.
  induction l as [|[k m] l IH]; simpl; [set_solver|]. fold (pass l).
  setoid_rewrite elem_of_cons. destruct IH as (IH1 & IH2 & IH3).
  case_bool_decide as Hex; [rewrite IH1, IH2, IH3; naive_solver|].
  assert (∀ t (d : list GraphNode), (n ∈ d ↔ Type_ n = t ∧ ∃ id, (id, n) ∈ l ∧ id ∉ excluded) → Type_ m = t →
    (n ∈ m :: d ↔ Type_ n = t ∧ ∃ id, ((id, n) = (k, m) ∨ (id, n) ∈ l) ∧ id ∉ excluded)) as Hyes.
  { intros t d Hd Ht. rewrite elem_of_cons, Hd. naive_solver. }
  assert (∀ t (d : list GraphNode), (n ∈ d ↔ Type_ n = t ∧ ∃ id, (id, n) ∈ l ∧ id ∉ excluded) → Type_ m ≠ t →
    n ∈ d ↔ Type_ n = t ∧ ∃ id, ((id, n) = (k, m) ∨ (id, n) ∈ l) ∧ id ∉ excluded) as Hno.
  { intros t d Hd Ht. rewrite Hd. naive_solver. }
  destruct (Type_ m) eqn:Ht; try destruct (negb _); simpl;
    (split_and!; [eapply Hyes || eapply Hno|eapply Hyes || eapply Hno|eapply Hyes || eapply Hno]);
    solve [eassumption | discriminate | reflexivity | done].
Qed.

Lemma pass_hosts l hn :
  hn ∈ hostNodes (pass l) ↔
  hn ≠ "" ∧ ∃ id n, (id, n) ∈ l ∧ direct_ok (id, n) ∧ Type_ n = NodeTypePod ∧
                    lget (Labels n) "node" = hn.
Proof.
  unfold direct_ok. simpl.
  induction l as [|[k m] l IH]; simpl; [set_solver|]. fold (pass l).
  setoid_rewrite elem_of_cons.
  case_bool_decide as Hex; [rewrite IH; naive_solver|].
  destruct (Type_ m) eqn:Ht; simpl;
    try (rewrite IH; naive_solver congruence).
  all: destruct (nodePassesFilters m scope raw) eqn:Hp; simpl;
    try (rewrite IH; naive_solver congruence).
  case_bool_decide as Hn; simpl.
  - rewrite IH. naive_solver congruence.
  - rewrite elem_of_union, elem_of_singleton, IH. split; [|naive_solver congruence].
    intros [->|?]; [|naive_solver]. split; [done|]. exists k, m. rewrite Ht. naive_solver.
Qed.
End first_pass.

(** ** Deferred admission *)

Section deferred.
Context (nb : gmap string GraphNode) (pass : GraphNode → bool).
Implicit Types (d : list GraphNode) (out : gmap string GraphNode).

Lemma admit_deferred_subseteq d out :
  (∀ n, n ∈ d → nb !! ID n = Some n) → out ⊆ nb → admit_deferred pass d out ⊆ nb.
Proof.
  intros Hd Hout. induction d as [|n d IH]; simpl; [done|].
  assert (foldr (λ n out, if pass n then <[ID n:=n]> out else out) out d ⊆ nb) as Hrec.
  { apply IH. intros m Hm. apply Hd. by right. }
  destruct (pass n); [|done].
  apply insert_subseteq_l; [apply Hd; by left|done].
Qed.

Lemma admit_deferred_mono d out :
  (∀ n, n ∈ d → nb !! ID n = Some n) → out ⊆ nb → out ⊆ admit_deferred pass d out.
Proof.
  intros Hd Hout. induction d as [|n d IH]; cbn [admit_deferred foldr]; [done|].
  fold (admit_deferred pass d out).
  assert (out ⊆ admit_deferred pass d out) as Hrec.
  { apply IH. intros m Hm. apply Hd. by right. }
  destruct (pass n); [|done]. etrans; [exact Hrec|].
  apply map_subseteq_spec. intros i m Hi.
  destruct (decide (ID n = i)) as [<-|]; [|by rewrite lookup_insert_ne].
  rewrite lookup_insert_eq. f_equal.
  assert (admit_deferred pass d out ⊆ nb) as Hs.
  { apply admit_deferred_subseteq; [|done]. intros x Hx. apply Hd. by right. }
  pose proof (lookup_weaken _ _ _ _ Hi Hs). pose proof (Hd n ltac:(by left)). congruence.
Qed.

Lemma elem_of_dom_admit_deferred d out id :
  id ∈ dom (admit_deferred pass d out) ↔
  id ∈ dom out ∨ ∃ n, n ∈ d ∧ pass n = true ∧ ID n = id.
Proof.
  induction d as [|n d IH]; cbn [admit_deferred foldr].
  - rewrite exists_elem_nil. tauto.
  - fold (admit_deferred pass d out). rewrite exists_elem_cons.
    destruct (pass n) eqn:Hp.
    + rewrite dom_insert_L, elem_of_union, elem_of_singleton, IH.
      intuition congruence.
    + rewrite IH. intuition congruence.
Qed.
End deferred.

(** ** The nodes filterNodes admits *)

(** The K8s nodes hosting an admitted pod. *)
Definition host_ref (g : Graph) (scope : Scope) (excluded : gset string) (hn : string) : Prop :=
  hn ≠ "" ∧ ∃ id n, NodesByID g !! id = Some n ∧
    direct_ok scope (ClusterRawName (Some g)) excluded (id, n) ∧
    Type_ n = NodeTypePod ∧ lget (Labels n) "node" = hn.

Section filter_nodes.
Context (g : Graph) (scope : Scope) (excluded : gset string) (Hwf : graph_wf g).
Let raw := ClusterRawName (Some g).
Let a := foldr (admit_step scope raw excluded) admission0 (map_to_list (NodesByID g)).

Lemma first_pass_lookup id n :
  adm_out a !! id = Some n ↔
  NodesByID g !! id = Some n ∧ direct_ok scope raw excluded (id, n).
Proof.
  subst a. rewrite (pass_out scope raw excluded) by apply NoDup_fst_map_to_list.
  by rewrite elem_of_map_to_list.
Qed.

Lemma first_pass_hosts hn : hn ∈ hostNodes a ↔ host_ref g scope excluded hn.
Proof.
  subst a. rewrite (pass_hosts scope raw excluded). unfold host_ref.
  by setoid_rewrite elem_of_map_to_list.
Qed.

(** Whether a node id is deferred to the infrastructure passes. *)
Definition deferred_as (t : NodeType) (n : GraphNode) : Prop :=
  Type_ n = t ∧ NodesByID g !! ID n = Some n ∧ ID n ∉ excluded.

Lemma deferred_exists n :
  (∃ id, (id, n) ∈ map_to_list (NodesByID g) ∧ id ∉ excluded) ↔
  NodesByID g !! ID n = Some n ∧ ID n ∉ excluded.
Proof.
  setoid_rewrite elem_of_map_to_list. split.
  - intros (id & Hid & Hex). by rewrite (Hwf _ _ Hid).
  - intros [??]. by exists (ID n).
Qed.

Lemma first_pass_deferred n :
  (n ∈ deferredK8s a ↔ deferred_as NodeTypeK8sNode n) ∧
  (n ∈ deferredAggr a ↔ deferred_as NodeTypeNetAppAggr n) ∧
  (n ∈ deferredNetAppNode a ↔ deferred_as NodeTypeNetAppNode n).
Proof.
  unfold deferred_as. rewrite <-deferred_exists. apply pass_deferred.
Qed.

Lemma first_pass_subseteq : adm_out a ⊆ NodesByID g.
Proof. apply map_subseteq_spec. intros id n. rewrite first_pass_lookup. by intros [??]. Qed.

(** The three maps filterNodes goes through. *)
Let out1 := admit_deferred (λ n, infraNodePassesFilters n scope (hostNodes a) raw)
              (deferredK8s a) (adm_out a).
Let out2 := admit_deferred (λ n, netappInfraPassesFilters n scope (referencedAggr g (adm_out a)))
              (deferredAggr a) out1.

Lemma out2_subseteq : out2 ⊆ NodesByID g.
Proof.
  apply admit_deferred_subseteq; [|apply admit_deferred_subseteq].
  - intros n Hn. by apply (proj1 (proj2 (first_pass_deferred n))) in Hn as (? & ? & ?).
  - intros n Hn. by apply (proj1 (first_pass_deferred n)) in Hn as (? & ? & ?).
  - apply first_pass_subseteq.
Qed.

Lemma filterNodes_subseteq : filterNodes g scope excluded ⊆ NodesByID g.
Proof.
  apply admit_deferred_subseteq; [|apply out2_subseteq].
  intros n Hn. by apply (proj2 (proj2 (first_pass_deferred n))) in Hn as (? & ? & ?).
Qed.

(** The controller pass only adds to the aggregates admitted before it. *)
Lemma out2_in_filterNodes : out2 ⊆ filterNodes g scope excluded.
Proof.
  apply (admit_deferred_mono (NodesByID g)); [|apply out2_subseteq].
  intros n Hn. by apply (proj2 (proj2 (first_pass_deferred n))) in Hn as (? & ? & ?).
Qed.

(** What an admitted node satisfies, by kind. *)
Definition admitted (n : GraphNode) : Prop :=
  (ID n ∉ excluded) ∧
  match Type_ n with
  | NodeTypeK8sNode => infraNodePassesFilters n scope (hostNodes a) raw = true
  | NodeTypeNetAppAggr =>
      netappInfraPassesFilters n scope (referencedAggr g (adm_out a)) = true
  | NodeTypeNetAppNode => netappInfraPassesFilters n scope (referencedCtrl out2) = true
  | _ => nodePassesFilters n scope raw = true
  end.

Lemma filterNodes_lookup id n :
  filterNodes g scope excluded !! id = Some n ↔ NodesByID g !! id = Some n ∧ admitted n.
Proof.
  assert (∀ i m, filterNodes g scope excluded !! i = Some m → NodesByID g !! i = Some m) as Hsub.
  { apply map_subseteq_spec, filterNodes_subseteq. }
  enough (NodesByID g !! id = Some n →
    (id ∈ dom (filterNodes g scope excluded) ↔ admitted n)) as H.
  { split.
    - intros Hl. pose proof (Hsub _ _ Hl) as Hn. split; [done|].
      apply H; [done|]. by apply elem_of_dom_2 in Hl.
    - intros [Hn Hadm]. apply (H Hn), elem_of_dom in Hadm as [m Hm].
      pose proof (Hsub _ _ Hm). congruence. }
  intros Hn. pose proof (graph_wf_ID _ _ _ Hwf Hn) as <-.
  assert (∀ t (d : list GraphNode) (f : GraphNode → bool), (∀ m, m ∈ d ↔ deferred_as t m) →
    (∃ m, m ∈ d ∧ f m = true ∧ ID m = ID n) ↔
    ((ID n ∉ excluded) ∧ Type_ n = t ∧ f n = true)) as Hdef.
  { intros t d f Hd. setoid_rewrite Hd. unfold deferred_as. split.
    - intros (m & (Ht & Hm & Hex) & Hf & Hmn). rewrite Hmn in Hm, Hex.
      assert (m = n) as -> by congruence. done.
    - intros (? & ? & ?). by exists n. }
  unfold filterNodes. rewrite elem_of_dom_admit_deferred. fold raw. fold a. fold out1. fold out2.
  rewrite (Hdef NodeTypeNetAppNode) by (intros m; apply first_pass_deferred).
  unfold out2 at 1. rewrite elem_of_dom_admit_deferred.
  rewrite (Hdef NodeTypeNetAppAggr) by (intros m; apply first_pass_deferred).
  unfold out1 at 1. rewrite elem_of_dom_admit_deferred.
  rewrite (Hdef NodeTypeK8sNode) by (intros m; apply first_pass_deferred).
  assert (ID n ∈ dom (adm_out a) ↔ direct_ok scope raw excluded (ID n, n)) as ->.
  { rewrite elem_of_dom. split.
    - intros [m [Hm Hd]%first_pass_lookup]. congruence.
    - intros Hd. exists n. by apply first_pass_lookup. }
  unfold direct_ok, admitted. simpl.
  destruct (Type_ n) eqn:Ht; simpl; intuition congruence.
Qed.
End filter_nodes.

(** A graph as the builder makes it: nodes filed under their ids, and the node
    an aggregate names as its owner is a controller. *)
Definition graph_ok (g : Graph) : Prop :=
  graph_wf g ∧
  ∀ i n id p, NodesByID g !! i = Some n → owner_id n = Some id →
              NodesByID g !! id = Some p → Type_ p = NodeTypeNetAppNode.
