(* ===== verification/ProjectProps.v ===== *)
(** A small built graph the witnesses of the projection theorems run on: one
    cluster with a calling pair of pods, an idle pod, a mounted claim on an
    aggregate with its controller, and the storage-flow chain of that claim.

    Properties of the /v1/graph projection (file Project): it is a closed,
    sorted sub-graph of the built graph, the filters cannot be escaped, the
    connectivity prune is sound, infrastructure is never orphaned, and without
    filters the inventory projection is the whole graph. *)

From S2P Require Import Prelude GoStrings Float64 GraphNode GraphEdge Graph Project.
From S2P Require Import ProjectLemmas.

(** The identity of a sample edge is its name. *)
Definition sample_uuid : EdgeUUID := λ name, name.

Definition sample_pod (id name ns node : string) : GraphNode :=
  NPod (mkPodNode id name (list_to_map [("cluster", "c1"); ("namespace", ns); ("node", node)])
          [] None "" [] [] "normal").

Definition sample_nodes : list GraphNode := [
  sample_pod "c1/pa" "a-0" "shop" "c1/n1";
  sample_pod "c1/pb" "b-0" "shop" "c1/n1";
  sample_pod "c1/pi" "idle-0" "lab" "";
  NPVC (mkPVCNode "c1/shop/d" "d" (list_to_map [("cluster", "c1"); ("namespace", "shop");
          ("volumename", "pv-1")]) "gold" "" None None [] "normal");
  NK8sNode (mkK8sNode "c1/n1" "n1" (list_to_map [("cluster", "c1")]) [] "Ready" [] "normal");
  NExternal (mkExternalNode "external/x" "x" ∅);
  NNetAppAggr (mkNetAppAggrNode (NetAppAggrID "o" "a1") "a1"
     (list_to_map [("ontap_cluster", "o"); ("node", "k1")]) "online" None [] "normal");
  NNetAppNode (mkNetAppNode (NetAppNodeID "o" "k1") "k1"
     (list_to_map [("ontap_cluster", "o")]) "online" None None [] "normal");
  NNetAppSVM (mkNetAppSVMNode (NetAppSVMID "o" "s1") "s1" (list_to_map [("ontap_cluster", "o")]))
].

Definition sample_edge := @NewEdge sample_uuid.

(** The edges of a /v1/graph build. *)
Definition sample_edges : list Edge := [
  sample_edge EdgeTypePodCallsPod "c1/pa" "c1/pb" ∅;
  sample_edge EdgeTypePodMountsPVC "c1/pa" "c1/shop/d" ∅;
  sample_edge EdgeTypePodToNode "c1/pa" "c1/n1" ∅;
  sample_edge EdgeTypePodToNode "c1/pi" "c1/n9" ∅;
  sample_edge EdgeTypePVCToNetAppAggr "c1/shop/d" "netapp/o/aggr/a1" ∅
].

Definition sample_graph : Graph := NewGraph sample_nodes sample_edges 0.

Definition sample_io : IOMetrics :=
  mkIOMetrics (Some (f_of_Z 30)) (Some (f_of_Z 6)) (Some (f_of_Z 250)) None None None
    (Some (f_of_Z 500)) None None None None None None None.

Definition sample_tier (tier source target : string) (extra : list (string * string)) : Edge :=
  sample_edge EdgeTypeStorageFlow source target (list_to_map (("tier", tier) :: extra)).

(** The edges of a /v1/storage-graph build: one claim mounted by two pods. *)
Definition sample_flow : list Edge := [
  sample_tier StorageTierNodeAggr "netapp/o/k1" "netapp/o/aggr/a1" [];
  sample_tier StorageTierAggrSVM "netapp/o/aggr/a1" "netapp/o/svm/s1" [];
  default (sample_tier "" "" "" [])
    (@WithIO (Some (sample_tier StorageTierSVMPVC "netapp/o/svm/s1" "c1/shop/d"
                      [(ClaimAggrLabel, "netapp/o/aggr/a1")])) sample_io);
  sample_tier StorageTierPVCPod "c1/shop/d" "c1/pa" [];
  sample_tier StorageTierPVCPod "c1/shop/d" "c1/pb" [];
  sample_tier StorageTierPodNode "c1/pa" "c1/n1" [];
  sample_tier StorageTierPodNode "c1/pb" "c1/n1" []
].

Definition sample_storage_graph : Graph := NewGraph sample_nodes sample_flow 0.

Lemma sample_nodes_ok edges : graph_ok (NewGraph sample_nodes edges 0).
Proof.
  unfold graph_ok, graph_wf. split.
  - simpl. apply (bool_decide_unpack _). vm_compute. exact I.
  - assert (forallb (λ kn : string * GraphNode, match owner_id kn.2 with
              | Some id => match NodesByID (NewGraph sample_nodes edges 0) !! id with
                           | Some p => bool_decide (Type_ p = NodeTypeNetAppNode)
                           | None => true
                           end
              | None => true end) (map_to_list (NodesByID (NewGraph sample_nodes edges 0))) = true)
      as H by (vm_compute; reflexivity).
    intros i n id p Hn Ho Hp. apply elem_of_map_to_list, list_elem_of_In in Hn.
    pose proof (proj1 (forallb_forall _ _) H (i, n) Hn) as Hf. simpl in Hf, Hp.
    rewrite Ho, Hp in Hf. by apply bool_decide_eq_true in Hf.
Qed.

Lemma sample_ok : graph_ok sample_graph.
Proof. apply sample_nodes_ok. Qed.
Lemma sample_storage_ok : graph_ok sample_storage_graph.
Proof. apply sample_nodes_ok. Qed.

(** Scopes of the witnesses. *)
Definition scope_all : Scope := NewScope [] [] true.
Definition scope_shop : Scope := NewScope ["c1"] ["shop"] false.

(** ** Edge pass *)

(** Membership in a list grown at its end: in the old part, or the new element. *)
Ltac old := apply elem_of_snoc; left; eauto.
Ltac new := apply elem_of_snoc; right; reflexivity.

Section edges.
Context (g : Graph) (scope : Scope) (excluded primary : gset string).
Let nb := NodesByID g.
Implicit Types (nodes : gmap string GraphNode) (out : list Edge) (e : Edge).

(** [id] is the missing endpoint of [e], whose other endpoint is in scope. *)
Definition missing_end (e : Edge) (id : string) : Prop :=
  (id ∉ primary) ∧
  ((Source e = id ∧ Target e ∈ primary) ∨ (Target e = id ∧ Source e ∈ primary)).

Definition may_readd (id : string) (n : GraphNode) : Prop :=
  NodesByID g !! id = Some n ∧ (id ∉ excluded) ∧ nodePassesNonClusterFilters n scope = true.

Lemma readd_partner_Some id nodes nodes' :
  readd_partner g id nodes scope excluded nodePassesNonClusterFilters = Some nodes' →
  ∃ n, may_readd id n ∧ nodes' = <[id := n]> nodes.
Proof.
  unfold readd_partner, may_readd. case_bool_decide; [done|].
  destruct (NodesByID g !! id) as [n|]; [|done].
  destruct (nodePassesNonClusterFilters n scope) eqn:?; [|done].
  intros [= <-]. by exists n.
Qed.

Lemma readd_partner_None id nodes n :
  readd_partner g id nodes scope excluded nodePassesNonClusterFilters = None →
  ¬ may_readd id n.
Proof.
  unfold readd_partner, may_readd. intros H (Hn & He & Hp). rewrite bool_decide_false in H by done.
  by rewrite Hn, Hp in H.
Qed.

(** The three things one edge can do. *)
Lemma edge_step_cases nodes out e nodes' out' :
  edge_step g scope excluded primary (nodes, out) e = (nodes', out') →
  (Source e ∈ primary ∧ Target e ∈ primary ∧ nodes' = nodes ∧ out' = out ++ [e]) ∨
  (¬ (Source e ∈ primary ∧ Target e ∈ primary) ∧
   (∀ id n, missing_end e id → may_readd id n → False) ∧ nodes' = nodes ∧ out' = out) ∨
  (∃ id n, missing_end e id ∧ may_readd id n ∧
           nodes' = <[id := n]> nodes ∧ out' = out ++ [e]).
Proof.
  unfold edge_step, readdEdgePartners. intros H.
  destruct (bool_decide_reflect (Source e ∈ primary)) as [Hs|Hs],
    (bool_decide_reflect (Target e ∈ primary)) as [Ht|Ht]; simpl in H.
  - inv H. by left.
  - destruct (readd_partner _ _ _ _ _ _) as [m|] eqn:E; inv H.
    + apply readd_partner_Some in E as (n & Hn & ->). right. right.
      exists (Target e), n. unfold missing_end. naive_solver.
    + right. left. split_and!; [tauto| |done|done].
      intros id n [Hi [[<- ?]|[<- ?]]] Hmr; [done|by eapply readd_partner_None].
  - destruct (readd_partner _ _ _ _ _ _) as [m|] eqn:E; inv H.
    + apply readd_partner_Some in E as (n & Hn & ->). right. right.
      exists (Source e), n. unfold missing_end. naive_solver.
    + right. left. split_and!; [tauto| |done|done].
      intros id n [Hi [[<- ?]|[<- ?]]] Hmr; [by eapply readd_partner_None|done].
  - inv H. right. left. split_and!; [tauto| |done|done].
    intros id n [_ [[_ ?]|[_ ?]]] _; done.
Qed.

Record edges_inv (seen : list Edge) (nodes0 nodes : gmap string GraphNode) (out : list Edge) : Prop := {
  ei_mono : nodes0 ⊆ nodes;
  ei_sub : nodes ⊆ NodesByID g;
  ei_edges : ∀ e, e ∈ out → e ∈ seen;
  ei_closed : ∀ e, e ∈ out → Source e ∈ dom nodes ∧ Target e ∈ dom nodes;
  ei_new : ∀ id n, nodes !! id = Some n → nodes0 !! id = Some n ∨
             ∃ e, e ∈ out ∧ missing_end e id ∧ may_readd id n;
  ei_anchor : ∀ e, e ∈ out → Source e ∈ primary ∨ Target e ∈ primary;
  ei_complete : ∀ e, e ∈ seen → Source e ∈ primary → Target e ∈ primary → e ∈ out;
  ei_readd : ∀ e id n, e ∈ seen → missing_end e id → may_readd id n → e ∈ out;
  ei_exact : ∀ e, e ∈ out → (Source e ∈ primary ∧ Target e ∈ primary) ∨
               ∃ id n, missing_end e id ∧ may_readd id n;
}.

Lemma dom_insert_in id (n : GraphNode) nodes i :
  i = id ∨ i ∈ dom nodes → i ∈ dom (<[id := n]> nodes).
Proof. rewrite dom_insert_L, elem_of_union, elem_of_singleton. done. Qed.

Lemma edge_step_inv seen nodes0 nodes out e nodes' out' :
  primary = dom nodes0 →
  edges_inv seen nodes0 nodes out →
  edge_step g scope excluded primary (nodes, out) e = (nodes', out') →
  edges_inv (seen ++ [e]) nodes0 nodes' out'.
Proof.
  intros Hprim [Hm Hs He Hc Hn Ha Hcp Hra Hx] Hstep.
  assert (∀ i, i ∈ primary → i ∈ dom nodes) as Hpd.
  { intros i. rewrite Hprim. intros Hi. by apply (subseteq_dom _ _ Hm). }
  destruct (edge_step_cases _ _ _ _ _ Hstep)
    as [(Hse & Hte & -> & ->)|[(Hne & Hno & -> & ->)|(id & n & Hme & Hmr & -> & ->)]].
  - split; [done|done| | | | | | |].
    + intros x [Hin| ->]%elem_of_snoc; [old|new].
    + intros x [Hin| ->]%elem_of_snoc; [by apply Hc|]. auto.
    + intros i m Him. destruct (Hn i m Him) as [|(x & ? & ?)]; [by left|right].
      exists x. split; [old|done].
    + intros x [Hin| ->]%elem_of_snoc; [by apply Ha|by left].
    + intros x [Hin| ->]%elem_of_snoc ??; [old|new].
    + intros x i m [Hin| ->]%elem_of_snoc ??; [old|new].
    + intros x [Hin| ->]%elem_of_snoc; [by apply Hx|by left].
  - split; [done|done| |done|done|done| | |done].
    + intros x Hin. old.
    + intros x [Hin| ->]%elem_of_snoc ??; [auto|by destruct Hne].
    + intros x i m [Hin| ->]%elem_of_snoc ??; [eauto|by exfalso; eapply Hno].
  - pose proof Hme as [Hip Hends]. pose proof Hmr as (Hnb & Hex & Hpass).
    assert (Source e ∈ dom (<[id := n]> nodes) ∧ Target e ∈ dom (<[id := n]> nodes)) as Hends'.
    { destruct Hends as [[<- Ht]|[<- Ht]]; split; apply dom_insert_in; auto. }
    split.
    + apply map_subseteq_spec. intros i m Hi.
      rewrite lookup_insert_ne; [by eapply lookup_weaken|].
      intros <-. apply Hip. rewrite Hprim. by apply elem_of_dom_2 in Hi.
    + by apply insert_subseteq_l.
    + intros x [Hin| ->]%elem_of_snoc; [old|new].
    + intros x [Hin| ->]%elem_of_snoc; [|done].
      destruct (Hc _ Hin). split; apply dom_insert_in; by right.
    + intros i m. destruct (decide (id = i)) as [<-|Hne].
      * rewrite lookup_insert_eq. intros [= <-]. right. exists e. split; [new|done].
      * rewrite lookup_insert_ne by done. intros Him.
        destruct (Hn i m Him) as [|(x & ? & ?)]; [by left|right].
        exists x. split; [old|done].
    + intros x [Hin| ->]%elem_of_snoc; [by apply Ha|].
      destruct Hends as [[_ ?]|[_ ?]]; auto.
    + intros x [Hin| ->]%elem_of_snoc ??; [old|new].
    + intros x i m [Hin| ->]%elem_of_snoc ??; [old|new].
    + intros x [Hin| ->]%elem_of_snoc; [by apply Hx|]. right. by exists id, n.
Qed.

Lemma fold_edge_step_inv es seen nodes0 nodes out :
  primary = dom nodes0 → edges_inv seen nodes0 nodes out →
  let r := fold_left (edge_step g scope excluded primary) es (nodes, out) in
  edges_inv (seen ++ es) nodes0 r.1 r.2.
Proof.
  intros Hp. revert seen nodes out. induction es as [|e es IH]; intros seen nodes out Hinv.
  { simpl. by rewrite app_nil_r. }
  cbn [fold_left]. destruct (edge_step _ _ _ _ _ _) as [n1 o1] eqn:E.
  replace (seen ++ e :: es) with ((seen ++ [e]) ++ es) by (by rewrite <-app_assoc).
  apply IH. by eapply edge_step_inv.
Qed.
End edges.

Lemma filterEdges_inv g scope excluded nodes :
  nodes ⊆ NodesByID g →
  let r := filterEdges g scope nodes excluded in
  edges_inv g scope excluded (dom nodes) (Edges g) nodes r.1 r.2.
Proof.
  intros Hsub. unfold filterEdges.
  apply (fold_edge_step_inv g scope excluded (dom nodes) (Edges g) [] nodes); [done|].
  split; try done; try set_solver.
Qed.

(** ** Controller sweep *)

Section pull.
Context (g : Graph).
Implicit Types (nodes : gmap string GraphNode) (l : list GraphNode).

Lemma pull_fold l nodes :
  nodes ⊆ NodesByID g →
  let r := foldr (λ n nodes, match owner_id n with
                             | None => nodes
                             | Some id => match nodes !! id, NodesByID g !! id with
                                          | None, Some parent => <[id := parent]> nodes
                                          | _, _ => nodes
                                          end
                             end) nodes l in
  nodes ⊆ r ∧ r ⊆ NodesByID g ∧
  (∀ id, id ∈ dom r ↔ id ∈ dom nodes ∨
     ∃ n, n ∈ l ∧ owner_id n = Some id ∧ is_Some (NodesByID g !! id)).
Proof.
  intros Hsub. induction l as [|n l IH]; cbn [foldr].
  { split_and!; [done|done|]. intros id. rewrite exists_elem_nil. tauto. }
  destruct IH as (IH1 & IH2 & IH3). set (r := foldr _ nodes l) in *.
  destruct (owner_id n) as [id|] eqn:Ho.
  2:{ split_and!; [done|done|]. intros i. rewrite IH3, exists_elem_cons, Ho.
      intuition congruence. }
  destruct (r !! id) as [m|] eqn:Er; [|destruct (NodesByID g !! id) as [p|] eqn:Ep].
  - split_and!; [done|done|]. intros i. rewrite exists_elem_cons, IH3, Ho.
    split; [tauto|]. intros [?|[([= <-] & _)|?]]; [by left| |by right].
    apply IH3. by apply elem_of_dom_2 in Er.
  - split_and!.
    + etrans; [exact IH1|]. by apply insert_subseteq.
    + by apply insert_subseteq_l.
    + intros i. rewrite dom_insert_L, elem_of_union, elem_of_singleton, IH3.
      rewrite exists_elem_cons, Ho. split.
      * intros [->|[?|?]]; [right; left; rewrite Ep; by split|by left|by right; right].
      * intros [?|[([= <-] & _)|?]]; [by right; left|by left|by right; right].
  - split_and!; [done|done|]. intros i. rewrite exists_elem_cons, IH3, Ho.
    split; [tauto|]. intros [?|[([= <-] & [? Hs])|?]]; [by left|congruence|by right].
Qed.

Lemma pullNetAppParents_spec nodes :
  nodes ⊆ NodesByID g →
  nodes ⊆ pullNetAppParents g nodes ∧ pullNetAppParents g nodes ⊆ NodesByID g ∧
  (∀ id, id ∈ dom (pullNetAppParents g nodes) ↔ id ∈ dom nodes ∨
     ∃ i n, nodes !! i = Some n ∧ owner_id n = Some id ∧ is_Some (NodesByID g !! id)).
Proof.
  intros Hsub. destruct (pull_fold (map_to_list nodes).*2 nodes Hsub) as (H1 & H2 & H3).
  split_and!; [done|done|]. intros id. unfold pullNetAppParents. rewrite H3. f_equiv. split.
  - intros (n & ([i m] & -> & Him%elem_of_map_to_list)%list_elem_of_fmap & Ho). by exists i, m.
  - intros (i & n & Hin & Ho). exists n. split; [|done].
    apply list_elem_of_fmap. exists (i, n). by rewrite elem_of_map_to_list.
Qed.
End pull.

(** ** The projection, pass by pass *)

Section project.
Context (g : Graph) (scope : Scope) (Hok : graph_ok g).

Let excluded : gset string := if Inventory scope then ∅ else connectivityExcluded g.
Let nodes0 := filterNodes g scope excluded.
Let r := filterEdges g scope nodes0 excluded.
Let final := pullNetAppParents g r.1.
Let view := Project (Some g) scope.

Lemma nodes0_sub : nodes0 ⊆ NodesByID g.
Proof. apply filterNodes_subseteq, Hok. Qed.

Lemma r_inv : edges_inv g scope excluded (dom nodes0) (Edges g) nodes0 r.1 r.2.
Proof. apply filterEdges_inv, nodes0_sub. Qed.

Lemma final_spec :
  r.1 ⊆ final ∧ final ⊆ NodesByID g ∧
  (∀ id, id ∈ dom final ↔ id ∈ dom r.1 ∨
     ∃ i n, r.1 !! i = Some n ∧ owner_id n = Some id ∧ is_Some (NodesByID g !! id)).
Proof. apply pullNetAppParents_spec, r_inv. Qed.

Lemma view_eq : view = mkView (SortNodes (map_to_list final).*2) (SortEdges r.2).
Proof.
  unfold view, Project. fold excluded. fold nodes0. fold r. subst final.
  by destruct r.
Qed.

Lemma elem_of_view_Nodes n : n ∈ view_Nodes view ↔ final !! ID n = Some n.
Proof.
  rewrite view_eq. simpl. unfold SortNodes. rewrite elem_of_sort_func, list_elem_of_fmap.
  split.
  - intros ([i m] & -> & Him%elem_of_map_to_list). simpl.
    pose proof (lookup_weaken _ _ _ _ Him (proj1 (proj2 final_spec))) as Hg.
    by rewrite (graph_wf_ID _ _ _ (proj1 Hok) Hg).
  - intros Hn. exists (ID n, n). by rewrite elem_of_map_to_list.
Qed.

Lemma elem_of_view_Edges e : e ∈ view_Edges view ↔ e ∈ r.2.
Proof. rewrite view_eq. simpl. unfold SortEdges. by rewrite elem_of_sort_func. Qed.

Lemma final_node i n : final !! i = Some n → n ∈ view_Nodes view ∧ ID n = i.
Proof.
  intros Hi. pose proof (lookup_weaken _ _ _ _ Hi (proj1 (proj2 final_spec))) as Hg.
  pose proof (graph_wf_ID _ _ _ (proj1 Hok) Hg) as <-. by rewrite elem_of_view_Nodes.
Qed.

Lemma view_loaded n : n ∈ view_Nodes view → NodesByID g !! ID n = Some n.
Proof. rewrite elem_of_view_Nodes. intros Hn. eapply lookup_weaken; [done|apply final_spec]. Qed.

Lemma final_id i : i ∈ dom final → i ∈ map ID (view_Nodes view).
Proof.
  intros [n Hn]%elem_of_dom. apply final_node in Hn as [Hv <-].
  by apply list_elem_of_fmap_2.
Qed.

Lemma nodes0_node i n : nodes0 !! i = Some n → n ∈ view_Nodes view ∧ ID n = i.
Proof.
  intros Hi. apply final_node. eapply lookup_weaken; [|apply final_spec].
  eapply lookup_weaken; [exact Hi|apply r_inv].
Qed.

(** Every node of the view came in through one of three doors. *)
Lemma view_node_cases n :
  n ∈ view_Nodes view →
  (nodes0 !! ID n = Some n ∧ admitted g scope excluded n) ∨
  (∃ e, e ∈ view_Edges view ∧ missing_end (dom nodes0) e (ID n) ∧
        may_readd g scope excluded (ID n) n) ∨
  (∃ m, m ∈ view_Nodes view ∧ owner_id m = Some (ID n) ∧ Type_ n = NodeTypeNetAppNode).
Proof.
  rewrite elem_of_view_Nodes. intros Hn.
  destruct final_spec as (Hrf & Hfg & Hdom).
  pose proof (lookup_weaken _ _ _ _ Hn Hfg) as Hg.
  pose proof (proj1 (Hdom _) (elem_of_dom_2 _ _ _ Hn)) as [Hr|(i & m & Hi & Ho & _)].
  - apply elem_of_dom in Hr as [m Hr].
    assert (m = n) as ->.
    { pose proof (lookup_weaken _ _ _ _ Hr (ei_sub _ _ _ _ _ _ _ _ r_inv)). congruence. }
    destruct (ei_new _ _ _ _ _ _ _ _ r_inv _ _ Hr) as [H0|(e & He & Hm & Hmr)].
    + left. split; [done|]. by apply (filterNodes_lookup g scope excluded (proj1 Hok)) in H0 as [_ ?].
    + right. left. exists e. by rewrite elem_of_view_Edges.
  - right. right. exists m.
    pose proof (lookup_weaken _ _ _ _ Hi Hrf) as Hf.
    split_and!; [by apply final_node in Hf as [? _]|done|].
    eapply (proj2 Hok); [|exact Ho|exact Hg]. by eapply lookup_weaken.
Qed.

Lemma view_edge_ends e :
  e ∈ view_Edges view →
  Source e ∈ map ID (view_Nodes view) ∧ Target e ∈ map ID (view_Nodes view).
Proof.
  rewrite elem_of_view_Edges. intros [Hs Ht]%(ei_closed _ _ _ _ _ _ _ _ r_inv).
  pose proof (subseteq_dom _ _ (proj1 final_spec)) as Hd.
  split; apply final_id; by apply Hd.
Qed.
End project.

(** C1: the projection is a closed sub-graph of the built graph: every node and
    edge of the view is one of the graph's, and both endpoints of every edge
    are nodes of the view, whatever the filters. *)
Theorem Project_closed_subgraph g scope :
  graph_ok g →
  (∀ n, n ∈ view_Nodes (Project (Some g) scope) → NodesByID g !! ID n = Some n) ∧
  (∀ e, e ∈ view_Edges (Project (Some g) scope) →
        e ∈ Edges g ∧
        Source e ∈ map ID (view_Nodes (Project (Some g) scope)) ∧
        Target e ∈ map ID (view_Nodes (Project (Some g) scope))).
Proof.
  intros Hok. split.
  - intros n. by apply view_loaded.
  - intros e He. split; [|by apply view_edge_ends].
    apply elem_of_view_Edges in He. by eapply ei_edges in He; [|apply r_inv].
Qed.

(** C8: the serialised order is a function of the view alone: nodes are in
    strictly increasing id order (no id twice), edges in increasing id order. *)
Theorem Project_sorted g scope :
  graph_ok g →
  StronglySorted (λ a b, String.compare (ID a) (ID b) = Lt) (view_Nodes (Project (Some g) scope)) ∧
  StronglySorted (λ a b, String.compare (edge_ID a) (edge_ID b) ≠ Gt)
    (view_Edges (Project (Some g) scope)).
Proof.
  intros Hok. rewrite (view_eq g scope) by done. simpl. split.
  2: { apply (sort_func_sorted (on_key edge_ID String.compare)). }
  set (f := pullNetAppParents _ _). set (l := (map_to_list f).*2).
  assert (NoDup (map ID (SortNodes l))) as Hnd.
  { unfold SortNodes. rewrite (sort_func_perm (on_key ID String.compare)).
    assert (map ID l = (map_to_list f).*1) as ->; [|apply NoDup_fst_map_to_list].
    subst l. change (map ID ?x) with (ID <$> x). rewrite <-list_fmap_compose.
    apply list_fmap_ext. intros k [i n] Hk%list_elem_of_lookup_2%elem_of_map_to_list. simpl.
    by eapply final_node in Hk as [_ ?]. }
  pose proof (sort_func_sorted (on_key ID String.compare) l) as Hs. fold (SortNodes l) in Hs.
  induction Hs as [|a l' Hs IH Ha]; [constructor|].
  apply NoDup_cons in Hnd as [Hin Hnd]. constructor; [by apply IH|].
  rewrite Forall_forall in Ha |- *. intros b Hb. specialize (Ha b Hb).
  unfold cmp_le, on_key in Ha. destruct (String.compare (ID a) (ID b)) eqn:E; [|done|done].
  exfalso. apply Hin. apply string_compare_eq in E as ->. by apply list_elem_of_fmap_2.
Qed.

Lemma Project_closed_subgraph_witness :
  graph_ok sample_graph ∧
  (∀ e, e ∈ view_Edges (Project (Some sample_graph) scope_shop) → e ∈ Edges sample_graph).
Proof.
  split; [exact sample_ok|]. intros e He.
  exact (proj1 (proj2 (Project_closed_subgraph sample_graph scope_shop sample_ok) e He)).
Defined.

Lemma Project_sorted_witness :
  graph_ok sample_graph ∧
  StronglySorted (λ a b, String.compare (ID a) (ID b) = Lt)
    (view_Nodes (Project (Some sample_graph) scope_shop)).
Proof.
  split; [exact sample_ok|]. exact (proj1 (Project_sorted sample_graph scope_shop sample_ok)).
Defined.
