(* ===== verification/ProjectFilters.v ===== *)
(** The filter properties of the /v1/graph projection: the connectivity prune
    and the cluster / namespace filters cannot be escaped, infrastructure is
    never orphaned, the owner of a drawn aggregate is drawn, and without
    filters the inventory projection is the whole graph. *)

From S2P Require Import Prelude GoStrings Float64 GraphNode GraphEdge Graph Project.
From S2P Require Import ProjectLemmas ProjectProps.

(** The exclusion set [Project] consults. *)
Definition prune_set (g : Graph) (scope : Scope) : gset string :=
  if Inventory scope then ∅ else connectivityExcluded g.

(** The nodes of the graph that the node pass admits. *)
Definition primary_nodes (g : Graph) (scope : Scope) : gmap string GraphNode :=
  filterNodes g scope (prune_set g scope).

(** The edge touches the id. *)
Definition touches (e : Edge) (id : string) : Prop := Source e = id ∨ Target e = id.

Section facts.
Context (g : Graph) (scope : Scope) (Hok : graph_ok g).
Let view := Project (Some g) scope.
Let excluded := prune_set g scope.
Let primary := primary_nodes g scope.
Implicit Types (n m : GraphNode) (e : Edge) (id : string).

Lemma primary_in_view id n : primary !! id = Some n → n ∈ view_Nodes view ∧ ID n = id.
Proof. apply nodes0_node, Hok. Qed.

Lemma view_cases n :
  n ∈ view_Nodes view →
  (primary !! ID n = Some n ∧ admitted g scope excluded n) ∨
  (∃ e, e ∈ view_Edges view ∧ missing_end (dom primary) e (ID n) ∧
        may_readd g scope excluded (ID n) n) ∨
  (∃ m, m ∈ view_Nodes view ∧ owner_id m = Some (ID n) ∧ Type_ n = NodeTypeNetAppNode).
Proof. apply view_node_cases, Hok. Qed.

(** No drawn pod or claim is in the prune set. *)
Lemma view_not_excluded n :
  n ∈ view_Nodes view → Type_ n ≠ NodeTypeNetAppNode → ID n ∉ excluded.
Proof.
  intros [[_ [? _]]|[(e & _ & _ & _ & ? & _)|(m & _ & _ & ?)]]%view_cases ?; done.
Qed.

(** The owner of a drawn aggregate is drawn, when it was loaded. *)
Lemma view_owner m id :
  m ∈ view_Nodes view → owner_id m = Some id → is_Some (NodesByID g !! id) →
  id ∈ map ID (view_Nodes view).
Proof.
  intros Hm Ho Hid. apply final_id; [done|].
  destruct (final_spec g scope Hok) as (Hrf & Hfg & Hdom). apply Hdom.
  apply elem_of_view_Nodes in Hm; [|done].
  destruct (proj1 (Hdom _) (elem_of_dom_2 _ _ _ Hm)) as [Hr|(i & n & Hi & Hon & _)].
  - right. apply elem_of_dom in Hr as [m' Hr]. exists (ID m), m.
    pose proof (lookup_weaken _ _ _ _ Hr Hrf). split; [congruence|done].
  - (* m is itself a swept-in controller: it owns nothing *)
    exfalso. assert (Type_ m = NodeTypeNetAppNode) as Ht.
    { eapply (proj2 Hok); [|exact Hon|by eapply lookup_weaken].
      eapply lookup_weaken; [exact Hi|]. by etrans. }
    unfold owner_id in Ho. by rewrite Ht in Ho.
Qed.

(** An edge between two admitted nodes is drawn. *)
Lemma primary_edge e :
  e ∈ Edges g → Source e ∈ dom primary → Target e ∈ dom primary → e ∈ view_Edges view.
Proof.
  intros. apply elem_of_view_Edges. eapply ei_complete; try done. by apply r_inv.
Qed.

(** What puts a claim-backing aggregate in scope is a drawn edge. *)
Lemma primary_aggr n :
  admitted g scope excluded n → primary !! ID n = Some n → Type_ n = NodeTypeNetAppAggr →
  (Inventory scope = true ∧ Clusters scope = ∅ ∧ Namespaces scope = ∅) ∨
  ∃ e, e ∈ view_Edges view ∧ touches e (ID n).
Proof.
  intros [_ Ha] Hp Ht. rewrite Ht in Ha. unfold netappInfraPassesFilters in Ha.
  destruct (Inventory scope && negb (nonempty (Clusters scope)) &&
            negb (nonempty (Namespaces scope))) eqn:Einv.
  { left. apply andb_true_iff in Einv as [[Hi Hc]%andb_true_iff Hn].
    unfold nonempty in *. rewrite negb_involutive in Hc, Hn.
    split_and!; [done|by apply bool_decide_eq_true in Hc|by apply bool_decide_eq_true in Hn]. }
  right. apply bool_decide_eq_true in Ha. unfold referencedAggr in Ha.
  apply elem_of_list_to_set, list_elem_of_fmap in Ha as (e & He & Hf).
  apply list_elem_of_filter in Hf as [[_ [s Hs]] Hin].
  exists e. split; [|by right]. apply primary_edge; [done| |].
  - apply first_pass_lookup in Hs as [Hs Hd]. apply elem_of_dom. exists s.
    apply filterNodes_lookup; [apply Hok|]. split; [done|].
    destruct Hd as (Hex & Hty & Hpass). unfold admitted. simpl in *.
    rewrite (graph_wf_ID _ _ _ (proj1 Hok) Hs). split; [done|].
    destruct (Type_ s); done.
  - rewrite <-He. by eapply elem_of_dom_2.
Qed.
End facts.

#[export] Instance connected_dec g id : Decision (connected g id).
Proof. unfold connected. apply list_exist_dec. intros e. apply _. Defined.

(** A claim outside the prune set has a connected mounter. *)
Lemma claim_mounter_dec g id :
  ¬ (∀ pod, mounts g pod id → ¬ connected g pod) → ∃ pod, mounts g pod id ∧ connected g pod.
Proof.
  intros H.
  assert (Decision (∃ e, e ∈ Edges g ∧ edge_Type e = EdgeTypePodMountsPVC ∧ Target e = id ∧
                         connected g (Source e))) as [(e & ? & ? & ? & ?)|Hn].
  { apply list_exist_dec. intros e. apply _. }
  - exists (Source e). split; [by exists e|done].
  - exfalso. apply H. intros pod (e & ? & ? & <- & ?) ?. apply Hn. by exists e.
Qed.

(** ** Properties *)

(** C3: the connectivity prune is sound: unless the inventory is asked for,
    every drawn pod is an endpoint of a traffic edge of the graph and every
    drawn claim is mounted by such a pod; a partner re-add does not bring a
    pruned node back. *)
Theorem Project_prune_sound g scope n :
  graph_ok g → Inventory scope = false → n ∈ view_Nodes (Project (Some g) scope) →
  (Type_ n = NodeTypePod → connected g (ID n)) ∧
  (Type_ n = NodeTypePVC → ∃ pod, mounts g pod (ID n) ∧ connected g pod).
Proof.
  intros Hok Hinv Hn.
  assert (Type_ n ≠ NodeTypeNetAppNode → ID n ∉ connectivityExcluded g) as Hex.
  { intros Ht. pose proof (view_not_excluded g scope Hok n Hn Ht) as H.
    unfold prune_set in H. by rewrite Hinv in H. }
  pose proof (view_loaded g scope Hok n Hn) as Hl.
  rewrite elem_of_connectivityExcluded in Hex. split; intros Ht.
  - destruct (connected_dec g (ID n)) as [|Hc]; [done|]. exfalso.
    apply Hex; [by rewrite Ht|]. exists n. auto.
  - apply claim_mounter_dec. intros Hc.
    apply Hex; [by rewrite Ht|]. exists n. auto.
Qed.

(** The kinds of node that carry a namespace of their own. *)
Definition namespaced_kind (t : NodeType) : bool :=
  match t with
  | NodeTypeExternal | NodeTypeK8sNode | NodeTypeNetAppAggr | NodeTypeNetAppNode => false
  | _ => true
  end.

(** C4: the namespace filter cannot be escaped, partner re-adds included: with
    a namespace filter every drawn node that belongs to a namespace belongs to
    a selected one. *)
Theorem Project_namespace_filter g scope n :
  graph_ok g → Namespaces scope ≠ ∅ → n ∈ view_Nodes (Project (Some g) scope) →
  namespaced_kind (Type_ n) = true →
  lget (Labels n) "namespace" ∈ Namespaces scope.
Proof.
  intros Hok Hns%nonempty_spec Hn Hk.
  destruct (view_cases g scope Hok n Hn) as [[_ [_ Ha]]|[(e & _ & _ & _ & _ & Hp)|(m & _ & _ & Ht)]].
  - unfold nodePassesFilters in Ha. rewrite Hns in Ha.
    destruct (Type_ n); simpl in Hk, Ha; try done;
      apply andb_true_iff in Ha as [_ Ha]; by apply bool_decide_eq_true in Ha.
  - unfold nodePassesNonClusterFilters in Hp. rewrite Hns in Hp.
    destruct (Type_ n); simpl in Hk, Hp; try done; by apply bool_decide_eq_true in Hp.
  - by rewrite Ht in Hk.
Qed.

(** The node is inside the cluster filter: its raw cluster is selected, or it
    is a NetApp node, which belongs to no cluster. *)
Definition in_clusters (g : Graph) (scope : Scope) (n : GraphNode) : Prop :=
  ClusterRawName (Some g) (lget (Labels n) "cluster") ∈ Clusters scope ∨
  Type_ n = NodeTypeNetAppAggr ∨ Type_ n = NodeTypeNetAppNode.

(** C5: with a cluster filter, a drawn node is inside the selected clusters, or
    is the far end of a drawn edge whose near end is inside them: foreign
    partners are one hop away and never pull in partners of their own. *)
Theorem Project_cluster_filter g scope n :
  graph_ok g → Clusters scope ≠ ∅ → n ∈ view_Nodes (Project (Some g) scope) →
  in_clusters g scope n ∨
  ∃ e m, e ∈ view_Edges (Project (Some g) scope) ∧ m ∈ view_Nodes (Project (Some g) scope) ∧
         ((Source e = ID n ∧ Target e = ID m) ∨ (Target e = ID n ∧ Source e = ID m)) ∧
         in_clusters g scope m.
Proof.
  intros Hok Hcl%nonempty_spec Hn.
  assert (∀ i m, primary_nodes g scope !! i = Some m → in_clusters g scope m) as Hin.
  { intros i m Hm. apply filterNodes_lookup in Hm as [Hm [_ Ha]]; [|apply Hok].
    unfold nodePassesFilters, infraNodePassesFilters in Ha. rewrite Hcl in Ha. unfold in_clusters.
    destruct (bool_decide_reflect (ClusterRawName (Some g) (lget (Labels m) "cluster")
                                     ∈ Clusters scope)); [by left|].
    destruct (Type_ m); simpl in Ha; auto; done. }
  destruct (view_cases g scope Hok n Hn) as [[Hp _]|[(e & He & Hm & _)|(m & _ & _ & Ht)]].
  - left. by eapply Hin.
  - destruct Hm as [_ [[Hs [m Hm]%elem_of_dom]|[Ht [m Hm]%elem_of_dom]]]; right;
      pose proof (primary_in_view g scope Hok _ _ Hm) as [Hv Hi];
      exists e, m; rewrite Hi; split_and!; eauto.
  - left. unfold in_clusters. auto.
Qed.

(** What the inventory draws with nothing in scope referring to it: a Kubernetes node
    of a selected cluster when no namespace is selected, a NetApp object when nothing
    is. *)
Definition lifted (g : Graph) (scope : Scope) (n : GraphNode) : Prop :=
  Inventory scope = true ∧ Namespaces scope = ∅ ∧
  (Clusters scope = ∅ ∨
   Type_ n = NodeTypeK8sNode ∧ ClusterRawName (Some g) (lget (Labels n) "cluster") ∈ Clusters scope).

Lemma empty_spec (s : gset string) : nonempty s = false → s = ∅.
Proof. unfold nonempty. by intros ?%negb_false_iff%bool_decide_eq_true. Qed.

Lemma infraNode_cases g n scope refs : Type_ n = NodeTypeK8sNode →
  infraNodePassesFilters n scope refs (ClusterRawName (Some g)) = true → lifted g scope n ∨ ID n ∈ refs.
Proof.
  unfold infraNodePassesFilters. intros Ht H. destruct (nonempty (Clusters scope)) eqn:Ec.
  - destruct (bool_decide_reflect (ClusterRawName (Some g) (lget (Labels n) "cluster") ∈ Clusters scope)); [|done].
    cbn [negb] in H. destruct (Inventory scope && negb (nonempty (Namespaces scope))) eqn:E; [|right; by apply bool_decide_eq_true in H].
    apply andb_true_iff in E as [Hi Hn%negb_true_iff%empty_spec]. left. split_and!; auto.
  - destruct (Inventory scope && negb (nonempty (Namespaces scope))) eqn:E; [|right; by apply bool_decide_eq_true in H].
    apply andb_true_iff in E as [Hi Hn%negb_true_iff%empty_spec]. left. split_and!; [done|done|]. left. by apply empty_spec.
Qed.

Lemma netappInfra_cases g n scope refs : netappInfraPassesFilters n scope refs = true → lifted g scope n ∨ ID n ∈ refs.
Proof.
  unfold netappInfraPassesFilters. intros H. destruct (_ && _ && _) eqn:E; [|right; by apply bool_decide_eq_true in H].
  apply andb_true_iff in E as [[Hi Hc%negb_true_iff%empty_spec]%andb_true_iff Hn%negb_true_iff%empty_spec].
  left. by split_and!; [| |left].
Qed.

(** C6: infrastructure is never orphaned: a drawn Kubernetes node hosts a drawn
    pod or ends a drawn edge, a drawn aggregate ends a drawn edge, and a drawn
    controller owns a drawn aggregate or ends a drawn edge, unless the inventory
    lifts the rule for it - which it does for the Kubernetes nodes of the selected
    clusters when no namespace is selected, and for NetApp objects when neither a
    cluster nor a namespace is; conversely the controller that owns a drawn
    aggregate is drawn whenever it was loaded, so no compound parent is missing. *)
Theorem Project_infra_justified g scope n :
  graph_ok g → n ∈ view_Nodes (Project (Some g) scope) →
  let V := Project (Some g) scope in
  let ends := ∃ e, e ∈ view_Edges V ∧ touches e (ID n) in
  (∀ id, owner_id n = Some id → is_Some (NodesByID g !! id) → id ∈ map ID (view_Nodes V)) ∧
  match Type_ n with
  | NodeTypeK8sNode =>
      ends ∨ (∃ p, p ∈ view_Nodes V ∧ Type_ p = NodeTypePod ∧ lget (Labels p) "node" = ID n) ∨ lifted g scope n
  | NodeTypeNetAppAggr => ends ∨ lifted g scope n
  | NodeTypeNetAppNode => ends ∨ (∃ m, m ∈ view_Nodes V ∧ owner_id m = Some (ID n)) ∨ lifted g scope n
  | _ => True
  end.
Proof.
  intros Hok Hn V ends. split; [intros id; by apply view_owner|].
  destruct (view_cases g scope Hok n Hn) as [[Hp Ha]|[(e & He & [_ Hm] & _)|(m & Hm & Ho & Ht)]].
  - pose proof (primary_aggr g scope Hok n Ha Hp) as Hagg. destruct Ha as [_ Ha].
    destruct (Type_ n) eqn:Ht; try done.
    + right. destruct (infraNode_cases g n scope _ Ht Ha) as [Hl|Hh]; [by right|left].
      apply first_pass_hosts in Hh as (_ & i & p & Hi & Hd & Htp & Hl).
      exists p. split_and!; [|done|done].
      apply (primary_in_view g scope Hok i). apply filterNodes_lookup; [apply Hok|].
      split; [done|]. destruct Hd as (Hex & _ & Hpass). simpl in *.
      split; [by rewrite (graph_wf_ID _ _ _ (proj1 Hok) Hi)|by rewrite Htp].
    + destruct (Hagg eq_refl) as [(Hi & Hc & Hns)|?]; [right; by split_and!; [| |left]|by left].
    + right. destruct (netappInfra_cases g n scope _ Ha) as [Hl|Hr]; [by right|left].
      apply elem_of_list_to_set, list_elem_of_omap in Hr as (m & Hm & Ho).
      apply list_elem_of_fmap in Hm as ([i m'] & -> & Hm%elem_of_map_to_list). simpl in Ho.
      exists m'. split; [|done]. apply (primary_in_view g scope Hok i).
      eapply lookup_weaken; [exact Hm|]. apply out2_in_filterNodes, Hok.
  - assert (ends) as Hends by (exists e; unfold touches; naive_solver).
    destruct (Type_ n); auto; done.
  - rewrite Ht. right. left. by exists m.
Qed.

(** C2: the edge pass is exact: an edge of the graph is drawn if and only if
    both its endpoints were admitted by the node pass, or exactly one was and
    the other is a loaded, unpruned node inside the namespace filter. *)
Theorem Project_edges_exact g scope e :
  graph_ok g →
  e ∈ view_Edges (Project (Some g) scope) ↔
  e ∈ Edges g ∧
  ((Source e ∈ dom (primary_nodes g scope) ∧ Target e ∈ dom (primary_nodes g scope)) ∨
   ∃ id n, missing_end (dom (primary_nodes g scope)) e id ∧
           NodesByID g !! id = Some n ∧ (id ∉ prune_set g scope) ∧
           nodePassesNonClusterFilters n scope = true).
Proof.
  intros Hok. pose proof (r_inv g scope Hok) as Hr. fold (prune_set g scope) in Hr.
  rewrite elem_of_view_Edges by done. split.
  - intros He. split; [by eapply ei_edges in He|]. exact (ei_exact _ _ _ _ _ _ _ _ Hr e He).
  - intros [He [[Hs Ht]|(id & n & Hm & Hmr)]].
    + by eapply (ei_complete _ _ _ _ _ _ _ _ Hr).
    + by eapply (ei_readd _ _ _ _ _ _ _ _ Hr).
Qed.

(** Both endpoints of the edge are loaded. *)
Definition loaded_edge (g : Graph) (e : Edge) : Prop :=
  is_Some (NodesByID g !! Source e) ∧ is_Some (NodesByID g !! Target e).

Lemma primary_nodes_all g scope :
  graph_ok g → Inventory scope = true → Clusters scope = ∅ → Namespaces scope = ∅ →
  primary_nodes g scope = NodesByID g.
Proof.
  intros Hok Hi Hc Hn. apply map_eq. intros i. apply option_eq. intros n.
  unfold primary_nodes, prune_set. rewrite Hi, filterNodes_lookup by apply Hok.
  split; [by intros [??]|]. intros Hl. split; [done|].
  unfold admitted, infraNodePassesFilters, netappInfraPassesFilters, nodePassesFilters.
  rewrite Hi, Hc, Hn. split; [set_solver|]. by destruct (Type_ n).
Qed.

Lemma edge_step_all g scope es nodes out :
  nodes = NodesByID g →
  fold_left (edge_step g scope ∅ (dom (NodesByID g))) es (nodes, out) =
  (nodes, out ++ filter (loaded_edge g) es).
Proof.
  intros ->. revert out. induction es as [|e es IH]; intros out; [by rewrite app_nil_r|].
  cbn [fold_left]. rewrite filter_cons. unfold loaded_edge at 2. unfold edge_step at 2.
  unfold readdEdgePartners, readd_partner.
  destruct (bool_decide_reflect (Source e ∈ dom (NodesByID g))) as [Hs|Hs],
    (bool_decide_reflect (Target e ∈ dom (NodesByID g))) as [Ht|Ht]; simpl.
  - rewrite decide_True by (by rewrite <- !elem_of_dom). rewrite IH. by rewrite <-app_assoc.
  - rewrite decide_False by (rewrite <- !elem_of_dom; tauto).
    apply not_elem_of_dom in Ht as ->. by case_bool_decide.
  - rewrite decide_False by (rewrite <- !elem_of_dom; tauto).
    apply not_elem_of_dom in Hs as ->. by case_bool_decide.
  - rewrite decide_False by (rewrite <- !elem_of_dom; tauto). done.
Qed.

(** C7: without filters the inventory projection is the whole graph: all of
    its nodes, and all of its edges whose endpoints were both loaded. *)
Theorem Project_inventory_whole g scope :
  graph_ok g → Inventory scope = true → Clusters scope = ∅ → Namespaces scope = ∅ →
  Project (Some g) scope =
  mkView (SortNodes (graph_nodes g)) (SortEdges (filter (loaded_edge g) (Edges g))).
Proof.
  intros Hok Hi Hc Hn. pose proof (primary_nodes_all g scope Hok Hi Hc Hn) as Hp.
  unfold primary_nodes, prune_set in Hp. unfold Project. rewrite Hi in *. rewrite Hp.
  unfold filterEdges. rewrite edge_step_all by done. simpl.
  destruct (pullNetAppParents_spec g (NodesByID g)) as (H1 & H2 & _); [done|].
  assert (pullNetAppParents g (NodesByID g) = NodesByID g) as -> by by apply (anti_symm (⊆)).
  done.
Qed.

(** ** Witnesses *)

Definition pod_a : GraphNode := sample_pod "c1/pa" "a-0" "shop" "c1/n1".
Definition aggr_1 : GraphNode := default pod_a (NodesByID sample_graph !! "netapp/o/aggr/a1").

Lemma pod_a_shown : pod_a ∈ view_Nodes (Project (Some sample_graph) scope_shop).
Proof. apply (bool_decide_unpack _). vm_compute. exact I. Qed.
Lemma aggr_1_shown : aggr_1 ∈ view_Nodes (Project (Some sample_graph) scope_shop).
Proof. apply (bool_decide_unpack _). vm_compute. exact I. Qed.

Lemma Project_prune_sound_witness :
  graph_ok sample_graph ∧ connected sample_graph "c1/pa".
Proof.
  split; [exact sample_ok|].
  exact (proj1 (Project_prune_sound sample_graph scope_shop pod_a sample_ok eq_refl pod_a_shown)
           eq_refl).
Defined.

Lemma Project_namespace_filter_witness :
  Namespaces scope_shop ≠ ∅ ∧ lget (Labels pod_a) "namespace" ∈ Namespaces scope_shop.
Proof.
  assert (Namespaces scope_shop ≠ ∅) as Hne
    by (apply (bool_decide_unpack _); vm_compute; exact I).
  split; [exact Hne|].
  exact (Project_namespace_filter sample_graph scope_shop pod_a sample_ok Hne pod_a_shown eq_refl).
Defined.

Lemma Project_cluster_filter_witness :
  Clusters scope_shop ≠ ∅ ∧
  (in_clusters sample_graph scope_shop aggr_1 ∨
   ∃ e m, e ∈ view_Edges (Project (Some sample_graph) scope_shop) ∧
          m ∈ view_Nodes (Project (Some sample_graph) scope_shop) ∧
          ((Source e = ID aggr_1 ∧ Target e = ID m) ∨ (Target e = ID aggr_1 ∧ Source e = ID m)) ∧
          in_clusters sample_graph scope_shop m).
Proof.
  assert (Clusters scope_shop ≠ ∅) as Hne by (apply (bool_decide_unpack _); vm_compute; exact I).
  split; [exact Hne|].
  exact (Project_cluster_filter sample_graph scope_shop aggr_1 sample_ok Hne aggr_1_shown).
Defined.

(** A filtered scope: nothing is lifted, and the aggregate ends a drawn edge. *)
Lemma Project_infra_justified_witness :
  Inventory scope_shop = false ∧
  ∃ e, e ∈ view_Edges (Project (Some sample_graph) scope_shop) ∧ touches e (ID aggr_1).
Proof.
  split; [reflexivity|].
  destruct (proj2 (Project_infra_justified sample_graph scope_shop aggr_1 sample_ok aggr_1_shown)) as [He|[Hi _]];
    [exact He|discriminate Hi].
Defined.

Lemma Project_edges_exact_witness :
  graph_ok sample_graph ∧
  sample_edge EdgeTypePodToNode "c1/pi" "c1/n9" ∅ ∉
    view_Edges (Project (Some sample_graph) scope_shop).
Proof.
  split; [exact sample_ok|]. intros He.
  apply (Project_edges_exact sample_graph scope_shop _ sample_ok) in He as [_ [[Hs _]|H]].
  - revert Hs. apply (bool_decide_unpack _). vm_compute. exact I.
  - destruct H as (id & n & [_ [[_ Ht]|[_ Hs]]] & _); [revert Ht|revert Hs];
      apply (bool_decide_unpack _); vm_compute; exact I.
Defined.

Lemma Project_inventory_whole_witness :
  Inventory scope_all = true ∧
  Project (Some sample_graph) scope_all =
  mkView (SortNodes (graph_nodes sample_graph))
         (SortEdges (filter (loaded_edge sample_graph) (Edges sample_graph))).
Proof.
  split; [reflexivity|].
  exact (Project_inventory_whole sample_graph scope_all sample_ok eq_refl
           ltac:(apply (bool_decide_unpack _); vm_compute; exact I)
           ltac:(apply (bool_decide_unpack _); vm_compute; exact I)).
Defined.
