(* ===== verification/StorageScope.v ===== *)
(** pkg/graph/storagescope.go: the root selection of /v1/storage-graph and
    /v1/k8s-graph, parsed from raw query values. *)

From S2P Require Import Prelude GoStrings Project.

(** pkg/graph/storagescope.go, [PodRef] *)
Record PodRef := mkPodRef { pr_Namespace : string; pr_Name : string }.
(** pkg/graph/storagescope.go, [PodRef.String] *)
Definition PodRef_String (r : PodRef) : string := pr_Namespace r +:+ "/" +:+ pr_Name r.
(** pkg/graph/storagescope.go, [ClaimRef] *)
Record ClaimRef := mkClaimRef { cr_Namespace : string; cr_Name : string }.
(** pkg/graph/storagescope.go, [ClaimRef.String] *)
Definition ClaimRef_String (r : ClaimRef) : string := cr_Namespace r +:+ "/" +:+ cr_Name r.
(** pkg/graph/storagescope.go, [ONTAPRef] *)
Record ONTAPRef := mkONTAPRef { or_ONTAPCluster : string; or_Name : string }.
(** pkg/graph/storagescope.go, [ONTAPRef.String] *)
Definition ONTAPRef_String (r : ONTAPRef) : string := or_ONTAPCluster r +:+ "/" +:+ or_Name r.
(** pkg/graph/storagescope.go, [namespacedRef] *)
Record namespacedRef := mkNamespacedRef { nr_Namespace : string; nr_Name : string }.

#[export] Instance PodRef_eq_dec : EqDecision PodRef.
Proof. solve_decision. Defined.
#[export] Instance ClaimRef_eq_dec : EqDecision ClaimRef.
Proof. solve_decision. Defined.
#[export] Instance ONTAPRef_eq_dec : EqDecision ONTAPRef.
Proof. solve_decision. Defined.
#[export] Instance namespacedRef_eq_dec : EqDecision namespacedRef.
Proof. solve_decision. Defined.
#[export] Instance namespacedRef_countable : Countable namespacedRef.
Proof.
  by apply (inj_countable' (λ r, (nr_Namespace r, nr_Name r))
             (λ p, mkNamespacedRef p.1 p.2)); intros [].
Defined.

(** pkg/graph/storagescope.go@53-67, [StorageRootKind]: a string; the empty
    string is no root. *)
Definition StorageRootKind : Type := string.
(** pkg/graph/storagescope.go@57-57, [StorageRootONTAPCluster] *)
Definition StorageRootONTAPCluster : StorageRootKind := "ontap_cluster".
(** pkg/graph/storagescope.go@58-58, [StorageRootONTAPNode] *)
Definition StorageRootONTAPNode : StorageRootKind := "ontap_node".
(** pkg/graph/storagescope.go@59-59, [StorageRootAggr] *)
Definition StorageRootAggr : StorageRootKind := "aggr".
(** pkg/graph/storagescope.go@60-60, [StorageRootSVM] *)
Definition StorageRootSVM : StorageRootKind := "svm".
(** pkg/graph/storagescope.go@61-61, [StorageRootNode] *)
Definition StorageRootNode : StorageRootKind := "node".
(** pkg/graph/storagescope.go@62-62, [StorageRootPod] *)
Definition StorageRootPod : StorageRootKind := "pod".
(** pkg/graph/storagescope.go@63-63, [StorageRootPVC] *)
Definition StorageRootPVC : StorageRootKind := "pvc".
(** pkg/graph/storagescope.go@64-64, [StorageRootPV] *)
Definition StorageRootPV : StorageRootKind := "pv".
(** pkg/graph/storagescope.go@65-65, [StorageRootApplication] *)
Definition StorageRootApplication : StorageRootKind := "application".

(** pkg/graph/storagescope.go, [StorageRootKinds] *)
Definition StorageRootKinds : list StorageRootKind :=
  [StorageRootONTAPCluster; StorageRootONTAPNode; StorageRootAggr; StorageRootSVM;
   StorageRootNode; StorageRootPod; StorageRootPVC; StorageRootPV; StorageRootApplication].

(** pkg/graph/storagescope.go, [StorageRoots] *)
Record StorageRoots := mkStorageRoots {
  roots_Kind : StorageRootKind;
  roots_Names : list string;
  roots_Qualified : list ONTAPRef;
  roots_Pods : list PodRef;
  roots_Claims : list ClaimRef;
}.

(** The zero value: no root. *)
Definition no_roots : StorageRoots := mkStorageRoots "" [] [] [] [].

(** pkg/graph/storagescope.go, [StorageRoots.Any] *)
Definition Any (r : StorageRoots) : bool :=
  negb (bool_decide (roots_Kind r = "")) &&
  (negb (bool_decide (roots_Names r = [])) || negb (bool_decide (roots_Qualified r = [])) ||
   negb (bool_decide (roots_Pods r = [])) || negb (bool_decide (roots_Claims r = []))).

(** pkg/graph/storagescope.go, [StorageScope] *)
Record StorageScope := mkStorageScope {
  ss_Clusters : gset string;
  ss_Namespaces : gset string;
  Roots : StorageRoots;
}.

(** The errors of this file, by what their messages name. *)
Inductive root_error :=
  | ErrValuesRequireKind
  | ErrUnknownRootKind (kind : StorageRootKind)
  | ErrInvalidNamespaced (param : StorageRootKind) (value nameHint : string)
  | ErrInvalidONTAP (kind : StorageRootKind) (value : string).

(** pkg/graph/storagescope.go, [nonEmpty] *)
Definition nonEmpty (values : list string) : list string := filter (λ v, v ≠ "") values.

(** ** [<namespace>/<name>] values *)

Definition ref_cmp : namespacedRef → namespacedRef → comparison :=
  cmp_lex (on_key nr_Namespace String.compare) (on_key nr_Name String.compare).

(** The loop of [namespacedRefs]: the [seen] set, and the refs in order. *)
Fixpoint parse_refs (values : list string) (param : StorageRootKind) (nameHint : string)
    (seen : gset namespacedRef) : result root_error (list namespacedRef) :=
  match values with
  | [] => Ok []
  | v :: rest =>
      let '(ns, name, ok) := cut "/"%char v in
      if negb ok || bool_decide (ns = "") || bool_decide (name = "") || contains_byte "/"%char name
      then Err (ErrInvalidNamespaced param v nameHint)
      else
        let ref := mkNamespacedRef ns name in
        if bool_decide (ref ∈ seen) then parse_refs rest param nameHint seen
        else match parse_refs rest param nameHint ({[ref]} ∪ seen) with
             | Err e => Err e
             | Ok out => Ok (ref :: out)
             end
  end.

(** pkg/graph/storagescope.go, [namespacedRefs] *)
Definition namespacedRefs (values : list string) (param : StorageRootKind) (nameHint : string)
  : result root_error (list namespacedRef) :=
  match parse_refs values param nameHint ∅ with
  | Err e => Err e
  | Ok out => Ok (sort_func ref_cmp out)
  end.

(** pkg/graph/storagescope.go, [podRefs] *)
Definition podRefs (values : list string) : result root_error (list PodRef) :=
  match namespacedRefs values StorageRootPod "pod-name" with
  | Err e => Err e
  | Ok refs => Ok (map (λ r, mkPodRef (nr_Namespace r) (nr_Name r)) refs)
  end.

(** pkg/graph/storagescope.go, [claimRefs] *)
Definition claimRefs (values : list string) : result root_error (list ClaimRef) :=
  match namespacedRefs values StorageRootPVC "claim-name" with
  | Err e => Err e
  | Ok refs => Ok (map (λ r, mkClaimRef (nr_Namespace r) (nr_Name r)) refs)
  end.

(** ** [<name>] and [<ontap_cluster>/<name>] values *)

Definition ontap_cmp : ONTAPRef → ONTAPRef → comparison :=
  cmp_lex (on_key or_ONTAPCluster String.compare) (on_key or_Name String.compare).

(** The loop of [ontapRoots]: bare names and qualified refs, in input order. *)
Fixpoint split_ontap (kind : StorageRootKind) (values : list string)
  : result root_error (list string * list ONTAPRef) :=
  match values with
  | [] => Ok ([], [])
  | v :: rest =>
      if negb (contains_byte "/"%char v) then
        match split_ontap kind rest with
        | Err e => Err e
        | Ok (bare, qualified) => Ok (v :: bare, qualified)
        end
      else
        let '(oc, name, _) := cut "/"%char v in
        if bool_decide (oc = "") || bool_decide (name = "") || contains_byte "/"%char name
        then Err (ErrInvalidONTAP kind v)
        else match split_ontap kind rest with
             | Err e => Err e
             | Ok (bare, qualified) => Ok (bare, mkONTAPRef oc name :: qualified)
             end
  end.

(** pkg/graph/storagescope.go, [ontapRoots] *)
Definition ontapRoots (kind : StorageRootKind) (values : list string)
  : result root_error StorageRoots :=
  match split_ontap kind values with
  | Err e => Err e
  | Ok (bare, qualified) =>
      let bare := compact (sort_func String.compare bare) in
      let qualified := compact (sort_func ontap_cmp qualified) in
      let qualified := filter (λ r, ¬ or_Name r ∈ bare) qualified in
      Ok (mkStorageRoots kind bare qualified [] [])
  end.

(** pkg/graph/storagescope.go, [newStorageRoots] *)
Definition newStorageRoots (kind : StorageRootKind) (values : list string)
  : result root_error StorageRoots :=
  if bool_decide (kind = "") then
    if bool_decide (nonEmpty values = []) then Ok no_roots else Err ErrValuesRequireKind
  else if negb (bool_decide (kind ∈ StorageRootKinds)) then Err (ErrUnknownRootKind kind)
  else
    let kept := nonEmpty values in
    if bool_decide (kept = []) then Ok no_roots
    else if bool_decide (kind = StorageRootPod) then
      match podRefs kept with
      | Err e => Err e
      | Ok pods => Ok (mkStorageRoots kind [] [] pods [])
      end
    else if bool_decide (kind = StorageRootPVC) then
      match claimRefs kept with
      | Err e => Err e
      | Ok claims => Ok (mkStorageRoots kind [] [] [] claims)
      end
    else if bool_decide (kind = StorageRootAggr) || bool_decide (kind = StorageRootSVM) then
      ontapRoots kind kept
    else Ok (mkStorageRoots kind (compact (sort_func String.compare kept)) [] [] []).

(** pkg/graph/storagescope.go, [NewStorageScope] *)
Definition NewStorageScope (clusters namespaces : list string) (kind : StorageRootKind)
    (values : list string) : result root_error StorageScope :=
  match newStorageRoots kind values with
  | Err e => Err e
  | Ok roots => Ok (mkStorageScope (stringSet clusters) (stringSet namespaces) roots)
  end.

(** ** What the parsers accept *)

(** A segment of a qualified value. *)
Definition segment (s : string) : Prop := s ≠ "" ∧ contains_byte "/"%char s = false.

Lemma cut_slash v ns name ok :
  cut "/"%char v = (ns, name, ok) →
  negb ok || bool_decide (ns = "") || bool_decide (name = "") || contains_byte "/"%char name = false →
  v = ns +:+ "/" +:+ name ∧ segment ns ∧ segment name.
Proof.
  intros Hc [[[Hok Hns]%orb_false_iff Hn]%orb_false_iff Hs]%orb_false_iff.
  apply cut_spec in Hc as (Hx & -> & Hv). breflect. rewrite Hok in Hv.
  by rewrite append_char.
Qed.

Lemma cut_segments ns name :
  segment ns → segment name → cut "/"%char (ns +:+ "/" +:+ name) = (ns, name, true).
Proof. intros [_ Hn] _. rewrite append_char. by apply cut_found. Qed.

(** A list of [<a>/<b>] values parses exactly when all of them are two
    non-empty segments. *)
Definition two_segments (v : string) : Prop :=
  ∃ a b, segment a ∧ segment b ∧ v = a +:+ "/" +:+ b.

Lemma parse_refs_spec values param hint seen :
  match parse_refs values param hint seen with
  | Ok out =>
      (∀ v, v ∈ values → two_segments v) ∧ NoDup out ∧
      ∀ r, r ∈ out ↔ (r ∉ seen) ∧ segment (nr_Namespace r) ∧ segment (nr_Name r) ∧
                     nr_Namespace r +:+ "/" +:+ nr_Name r ∈ values
  | Err e => ∃ v, v ∈ values ∧ ¬ two_segments v ∧ e = ErrInvalidNamespaced param v hint
  end.
Proof.
  revert seen. induction values as [|v rest IH]; intros seen; cbn [parse_refs].
  { split_and!; [by intros ? ?%not_elem_of_nil|constructor|].
    intros r. rewrite !elem_of_nil. tauto. }
  destruct (cut _ v) as [[ns name] ok] eqn:Hc.
  destruct (_ || _) eqn:Hbad.
  { exists v. split_and!; [by left| |done]. intros (a & b & [Ha Ha'] & [Hb Hb'] & ->).
    rewrite cut_segments in Hc by done. injection Hc as <- <- <-.
    rewrite !bool_decide_false in Hbad by done. by rewrite Hb' in Hbad. }
  destruct (cut_slash _ _ _ _ Hc Hbad) as (-> & Hns & Hname).
  set (ref := mkNamespacedRef ns name).
  assert (∀ r, segment (nr_Namespace r) → segment (nr_Name r) →
    nr_Namespace r +:+ "/" +:+ nr_Name r = ns +:+ "/" +:+ name → r = ref) as Hinj.
  { intros [a b] Ha Hb Hab. pose proof (cut_segments a b Ha Hb) as Hcut. simpl in *.
    rewrite Hab, Hc in Hcut. injection Hcut as <- <- _. done. }
  destruct (bool_decide_reflect (ref ∈ seen)) as [Hseen|Hseen].
  - specialize (IH seen). destruct (parse_refs _ _ _ _) as [out|e].
    + destruct IH as (H1 & H2 & H3). split_and!; [|done|].
      * intros v [->|Hv]%elem_of_cons; [by exists ns, name|by apply H1].
      * intros r. rewrite H3, elem_of_cons. split.
        -- intros (? & ? & ? & ?). split_and!; auto.
        -- intros (Hr & Ha & Hb & [Hv|Hv]); [|by split_and!].
           apply Hinj in Hv; [by subst|done|done].
    + destruct IH as (v & ? & ? & ?). exists v. split; [by right|done].
  - specialize (IH ({[ref]} ∪ seen)). destruct (parse_refs _ _ _ _) as [out|e].
    + destruct IH as (H1 & H2 & H3). split_and!.
      * intros v [->|Hv]%elem_of_cons; [by exists ns, name|by apply H1].
      * constructor; [|done]. rewrite H3, elem_of_union, elem_of_singleton. intros [[] _]. by left.
      * intros r. rewrite elem_of_cons, H3, elem_of_union, elem_of_singleton, elem_of_cons. split.
        -- intros [->|(? & ? & ? & ?)]; split_and!; auto.
        -- intros (Hr & Ha & Hb & [Hv|Hv]).
           ++ left. by apply Hinj.
           ++ destruct (decide (r = ref)); [by left|right]. split_and!; auto. by intros [?|?].
    + destruct IH as (v & ? & ? & ?). exists v. split; [by right|done].
Qed.

#[export] Instance ref_cmp_strict : GoCmpStrict ref_cmp.
Proof.
  split; [unfold ref_cmp; apply _|]. intros [a b] [a' b'].
  unfold ref_cmp. rewrite cmp_lex_eq. unfold on_key. rewrite !string_compare_eq. simpl.
  by intros [-> ->].
Qed.
#[export] Instance ontap_cmp_strict : GoCmpStrict ontap_cmp.
Proof.
  split; [unfold ontap_cmp; apply _|]. intros [a b] [a' b'].
  unfold ontap_cmp. rewrite cmp_lex_eq. unfold on_key. rewrite !string_compare_eq. simpl.
  by intros [-> ->].
Qed.

Lemma namespacedRefs_spec values param hint :
  match namespacedRefs values param hint with
  | Ok out =>
      (∀ v, v ∈ values → two_segments v) ∧ StronglySorted (cmp_lt ref_cmp) out ∧
      ∀ r, r ∈ out ↔ segment (nr_Namespace r) ∧ segment (nr_Name r) ∧
                     nr_Namespace r +:+ "/" +:+ nr_Name r ∈ values
  | Err e => ∃ v, v ∈ values ∧ ¬ two_segments v ∧ e = ErrInvalidNamespaced param v hint
  end.
Proof.
  unfold namespacedRefs. pose proof (parse_refs_spec values param hint ∅) as H.
  destruct (parse_refs _ _ _ _) as [out|e]; [|done].
  destruct H as (H1 & H2 & H3). split_and!; [done| |].
  - apply sorted_le_NoDup_lt; [apply _|apply (sort_func_sorted ref_cmp)|].
    by apply (NoDup_sort_func ref_cmp).
  - intros r. rewrite elem_of_sort_func, H3. split; [by intros [_ ?]|].
    intros ?. split; [apply not_elem_of_empty|done].
Qed.

Lemma split_ontap_spec kind values :
  match split_ontap kind values with
  | Ok (bare, qualified) =>
      (∀ v, v ∈ values → contains_byte "/"%char v = true → two_segments v) ∧
      (∀ v, v ∈ bare ↔ v ∈ values ∧ contains_byte "/"%char v = false) ∧
      (∀ r, r ∈ qualified ↔ segment (or_ONTAPCluster r) ∧ segment (or_Name r) ∧
                            ONTAPRef_String r ∈ values)
  | Err e => ∃ v, v ∈ values ∧ contains_byte "/"%char v = true ∧ ¬ two_segments v ∧
                  e = ErrInvalidONTAP kind v
  end.
Proof.
  induction values as [|v rest IH]; cbn [split_ontap].
  { split_and!; intros x; rewrite ?elem_of_nil; tauto. }
  destruct (contains_byte "/"%char v) eqn:Hv; simpl.
  - destruct (cut _ v) as [[oc name] ok] eqn:Hc.
    assert (ok = true) as ->.
    { apply cut_spec in Hc as (_ & -> & _). done. }
    destruct (_ || _) eqn:Hbad.
    { exists v. split_and!; [by left|done| |done]. intros (a & b & [Ha Ha'] & [Hb Hb'] & ->).
      rewrite cut_segments in Hc by done. injection Hc as <- <-.
      rewrite !bool_decide_false in Hbad by done. by rewrite Hb' in Hbad. }
    destruct (cut_slash _ _ _ _ Hc) as (-> & Hns & Hname); [done|].
    destruct (split_ontap kind rest) as [[bare q]|e].
    + destruct IH as (H1 & H2 & H3). split_and!.
      * intros v [->|Hin]%elem_of_cons; [by exists oc, name|by apply H1].
      * intros x. rewrite H2, elem_of_cons. split; [tauto|]. intros [[->|?] ?]; [congruence|done].
      * intros [a b]. rewrite !elem_of_cons, H3. unfold ONTAPRef_String. cbn [or_ONTAPCluster or_Name]. split.
        -- intros [[= -> ->]|(? & ? & ?)]; auto.
        -- intros (Ha & Hb & [Hab|?]); [left|by right].
           pose proof (cut_segments a b Ha Hb) as Hcut. rewrite Hab, Hc in Hcut.
           by injection Hcut as -> ->.
    + destruct IH as (x & ? & ?). exists x. split; [by right|done].
  - destruct (split_ontap kind rest) as [[bare q]|e].
    + destruct IH as (H1 & H2 & H3). split_and!.
      * intros x [->|Hin]%elem_of_cons; [congruence|by apply H1].
      * intros x. rewrite !elem_of_cons, H2. split; [intros [->|?]; tauto|tauto].
      * intros r. rewrite elem_of_cons, H3. split; [tauto|]. intros (? & ? & [Hx|?]); [|done].
        rewrite <-Hx in Hv. unfold ONTAPRef_String in Hv.
        rewrite contains_byte_app in Hv. by apply orb_false_iff in Hv as [_ ?].
    + destruct IH as (x & ? & ?). exists x. split; [by right|done].
Qed.

(** A [pod=] list is accepted exactly when every value is two non-empty
    segments around one slash (else the error names an offending value), and
    the refs are the values, sorted, without duplicates: printing a ref gives
    its value back. *)
Theorem podRefs_roundtrip values :
  match podRefs values with
  | Ok refs =>
      (∀ v, v ∈ values → two_segments v) ∧ NoDup refs ∧
      (∀ v, v ∈ map PodRef_String refs ↔ v ∈ values)
  | Err e => ∃ v, v ∈ values ∧ ¬ two_segments v ∧ e = ErrInvalidNamespaced StorageRootPod v "pod-name"
  end.
Proof.
  unfold podRefs. pose proof (namespacedRefs_spec values StorageRootPod "pod-name") as H.
  destruct (namespacedRefs _ _ _) as [refs|e]; [|done].
  destruct H as (H1 & H2 & H3). split_and!; [done| |].
  - apply NoDup_fmap_2_strong; [by intros [] [] _ _ [= -> ->]|].
    by eapply (sorted_lt_NoDup ref_cmp).
  - intros v. change (map ?f ?l) with (f <$> l). rewrite <-list_fmap_compose, list_elem_of_fmap.
    split.
    + intros (r & -> & Hr). by apply H3 in Hr as (_ & _ & ?).
    + intros Hv. destruct (H1 v Hv) as (a & b & Ha & Hb & ->).
      exists (mkNamespacedRef a b). split; [done|]. by apply H3.
Qed.

(** Aggregate and SVM roots mean what they say: after parsing, the
    component [name] of the filer [oc] is rooted, bare or qualified, exactly
    when [name] or [oc/name] was among the values, and no qualified root is
    subsumed by a bare one. *)
Theorem ontapRoots_spec kind values :
  match ontapRoots kind values with
  | Ok r =>
      (∀ oc name, segment oc → segment name →
         (name ∈ roots_Names r ∨ mkONTAPRef oc name ∈ roots_Qualified r) ↔
         (name ∈ values ∨ oc +:+ "/" +:+ name ∈ values)) ∧
      (∀ q, q ∈ roots_Qualified r → or_Name q ∉ roots_Names r) ∧
      roots_Kind r = kind ∧ roots_Pods r = [] ∧ roots_Claims r = []
  | Err e => ∃ v, v ∈ values ∧ contains_byte "/"%char v = true ∧ ¬ two_segments v ∧
                  e = ErrInvalidONTAP kind v
  end.
Proof.
  unfold ontapRoots. pose proof (split_ontap_spec kind values) as H.
  destruct (split_ontap kind values) as [[bare q]|e]; [|done].
  destruct H as (H1 & H2 & H3). cbn [roots_Names roots_Qualified roots_Kind roots_Pods roots_Claims].
  split_and!; [|by intros r [? _]%list_elem_of_filter|done|done|done].
  intros oc name Hoc Hname.
  assert (name ∈ compact (sort_func String.compare bare) ↔ name ∈ values) as Hb.
  { rewrite elem_of_sort_compact by apply _. rewrite H2. destruct Hname. tauto. }
  rewrite list_elem_of_filter. cbn [or_Name or_ONTAPCluster]. rewrite Hb.
  rewrite (elem_of_sort_compact ontap_cmp), H3.
  unfold ONTAPRef_String. cbn [or_Name or_ONTAPCluster]. destruct (decide (name ∈ values)); tauto.
Qed.

(** ** Canonical form *)

Lemma namespacedRefs_ext v1 v2 param hint :
  (∀ x, x ∈ v1 ↔ x ∈ v2) →
  match namespacedRefs v1 param hint, namespacedRefs v2 param hint with
  | Ok a, Ok b => a = b
  | Err _, Err _ => True
  | _, _ => False
  end.
Proof.
  intros Hext. pose proof (namespacedRefs_spec v1 param hint) as S1.
  pose proof (namespacedRefs_spec v2 param hint) as S2.
  destruct (namespacedRefs v1 _ _) as [a|e1], (namespacedRefs v2 _ _) as [b|e2]; [| | |done].
  - destruct S1 as (_ & Ha & Ma), S2 as (_ & Hb & Mb).
    apply (sorted_lt_ext ref_cmp); [done..|]. intros r. by rewrite Ma, Mb, Hext.
  - destruct S1 as (H1 & _), S2 as (v & Hv & Hn & _). apply Hn, H1, Hext, Hv.
  - destruct S2 as (H1 & _), S1 as (v & Hv & Hn & _). apply Hn, H1, Hext, Hv.
Qed.

Lemma ontapRoots_ext kind v1 v2 :
  (∀ x, x ∈ v1 ↔ x ∈ v2) →
  match ontapRoots kind v1, ontapRoots kind v2 with
  | Ok a, Ok b => a = b
  | Err _, Err _ => True
  | _, _ => False
  end.
Proof.
  intros Hext. unfold ontapRoots. pose proof (split_ontap_spec kind v1) as S1.
  pose proof (split_ontap_spec kind v2) as S2.
  destruct (split_ontap kind v1) as [[b1 q1]|e1], (split_ontap kind v2) as [[b2 q2]|e2]; [| | |done].
  - destruct S1 as (_ & Hb1 & Hq1), S2 as (_ & Hb2 & Hq2).
    assert (compact (sort_func String.compare b1) = compact (sort_func String.compare b2)) as ->.
    { apply (sort_compact_ext String.compare). intros x. by rewrite Hb1, Hb2, Hext. }
    assert (compact (sort_func ontap_cmp q1) = compact (sort_func ontap_cmp q2)) as ->; [|done].
    apply (sort_compact_ext ontap_cmp). intros x. by rewrite Hq1, Hq2, Hext.
  - destruct S1 as (H1 & _), S2 as (v & Hv & Hc & Hn & _). apply Hn, H1; [by apply Hext|done].
  - destruct S2 as (H1 & _), S1 as (v & Hv & Hc & Hn & _). apply Hn, H1; [by apply Hext|done].
Qed.

Lemma elem_of_nonEmpty values v : v ∈ nonEmpty values ↔ v ≠ "" ∧ v ∈ values.
Proof. unfold nonEmpty. by rewrite list_elem_of_filter. Qed.

Lemma same_elements_nil {A} (l1 l2 : list A) :
  (∀ x, x ∈ l1 ↔ x ∈ l2) → l1 = [] ↔ l2 = [].
Proof.
  intros H. split; intros ->; apply elem_of_nil_inv; intros x Hx;
    by apply H, elem_of_nil in Hx.
Qed.

(** Parsing is canonical: the outcome depends only on the SET of non-empty
    values, not on their order, repetition or empty values, so equal requests
    share one cache key. *)
Theorem newStorageRoots_canonical kind v1 v2 :
  (∀ x, x ≠ "" → x ∈ v1 ↔ x ∈ v2) →
  match newStorageRoots kind v1, newStorageRoots kind v2 with
  | Ok a, Ok b => a = b
  | Err _, Err _ => True
  | _, _ => False
  end.
Proof.
  intros Hext.
  assert (∀ x, x ∈ nonEmpty v1 ↔ x ∈ nonEmpty v2) as Hk.
  { intros x. rewrite !elem_of_nonEmpty. specialize (Hext x). tauto. }
  unfold newStorageRoots.
  rewrite (bool_decide_ext _ _ (same_elements_nil _ _ Hk)).
  destruct (bool_decide (kind = "")); [by destruct (bool_decide _)|].
  destruct (negb _); [done|]. destruct (bool_decide (nonEmpty v2 = [])); [done|].
  destruct (bool_decide (kind = StorageRootPod)).
  { pose proof (namespacedRefs_ext _ _ StorageRootPod "pod-name" Hk) as H. unfold podRefs.
    destruct (namespacedRefs (nonEmpty v1) _ _), (namespacedRefs (nonEmpty v2) _ _); by subst. }
  destruct (bool_decide (kind = StorageRootPVC)).
  { pose proof (namespacedRefs_ext _ _ StorageRootPVC "claim-name" Hk) as H. unfold claimRefs.
    destruct (namespacedRefs (nonEmpty v1) _ _), (namespacedRefs (nonEmpty v2) _ _); by subst. }
  destruct (_ || _); [by apply ontapRoots_ext|].
  f_equal. by apply (sort_compact_ext String.compare).
Qed.

Lemma newStorageRoots_canonical_witness :
  newStorageRoots StorageRootAggr ["a"; ""; "f/b"; "a"] =
  Ok (mkStorageRoots "aggr" ["a"] [mkONTAPRef "f" "b"] [] []) ∧
  newStorageRoots StorageRootAggr ["f/b"; "a"] =
  newStorageRoots StorageRootAggr ["a"; ""; "f/b"; "a"].
Proof.
  split; [reflexivity|].
  assert (∀ x, x ≠ "" → x ∈ ["f/b"; "a"] ↔ x ∈ ["a"; ""; "f/b"; "a"]) as H.
  { intros x Hx. rewrite !elem_of_cons, !elem_of_nil. tauto. }
  pose proof (newStorageRoots_canonical StorageRootAggr _ _ H) as Hc.
  destruct (newStorageRoots StorageRootAggr ["f/b"; "a"]) eqn:E1; [|discriminate E1].
  destruct (newStorageRoots StorageRootAggr ["a"; ""; "f/b"; "a"]) eqn:E2; [|discriminate E2].
  by rewrite Hc.
Defined.
