(* ===== verification/ProjectStorage.v ===== *)
(** pkg/graph/project_storage.go: the storage-flow projection served by
    /v1/storage-graph. Flow units, one per (claim, mounting pod); the one root
    kind resolved to node ids; the retained units, their nodes and their edges
    weighted over the retained units only. *)

From S2P Require Import Prelude GoStrings Float64 GraphNode GraphEdge Graph Project.
From S2P Require Import StorageScope.

(** ** Figures *)

(** pkg/graph/project_storage.go, [divPtr] *)
Definition divPtr (p : option float64) (by_ : float64) : option float64 :=
  match p with None => None | Some x => Some (fdiv x by_) end.

(** pkg/graph/project_storage.go, [addPtr] *)
Definition addPtr (dst src : option float64) : option float64 :=
  match src with
  | None => dst
  | Some y => match dst with
              | None => Some y
              | Some x => Some (fadd x y)
              end
  end.

(** A change field, carried only beside its base figure. *)
Definition beside (base delta : option float64) (f : float64) : option float64 :=
  match base with None => None | Some _ => divPtr delta f end.

Definition is_some {A} (o : option A) : bool := match o with Some _ => true | None => false end.

(** pkg/graph/project_storage.go, [scaleFlow]: [None] is [ok = false]. *)
Definition scaleFlow (io : option IOMetrics) (n : nat) : option IOMetrics :=
  match io with
  | None => None
  | Some io =>
      if bool_decide (n = 0) then None else
      let f := f_of_nat n in
      let out := mkIOMetrics
        (divPtr (ReadOps io) f) (divPtr (WriteOps io) f) None None
        (divPtr (ReadBytesPerSec io) f) (divPtr (WriteBytesPerSec io) f) None None
        (beside (ReadOps io) (ReadOpsDelta io) f) (beside (WriteOps io) (WriteOpsDelta io) f)
        None None
        (beside (ReadBytesPerSec io) (ReadBytesPerSecDelta io) f)
        (beside (WriteBytesPerSec io) (WriteBytesPerSecDelta io) f) in
      if is_some (ReadOps io) || is_some (WriteOps io) ||
         is_some (ReadBytesPerSec io) || is_some (WriteBytesPerSec io)
      then Some out else None
  end.

(** pkg/graph/project_storage.go, [hasLatency] *)
Definition hasLatency (io : option IOMetrics) : bool :=
  match io with
  | None => false
  | Some io => is_some (ReadLatencyUs io) || is_some (WriteLatencyUs io)
  end.

(** ** Flow units *)

(** pkg/graph/project_storage.go, [flowUnit] *)
Record flowUnit := mkFlowUnit {
  claimID : string; podID : string; nodeID : string;
  svmID : string; aggrID : string; ctrlID : string;
  fu_n : nat;
  sink : bool;
  fu_io : option IOMetrics;
  fu_edges : list Edge;
  fu_ids : list string;
}.

(** pkg/graph/project_storage.go, [flowUnit.intersects] *)
Definition intersects (u : flowUnit) (ids : gset string) : bool :=
  existsb (λ id, bool_decide (id ∈ ids)) (fu_ids u).

(** pkg/graph/project_storage.go, [workloadPassesFilters] *)
Definition workloadPassesFilters (n : GraphNode) (scope : StorageScope) (rawName : string → string)
  : bool :=
  let labels := Labels n in
  (if nonempty (ss_Clusters scope) then
     match Type_ n with
     | NodeTypeNetAppAggr | NodeTypeNetAppNode | NodeTypeNetAppSVM => true
     | _ => bool_decide (rawName (lget labels "cluster") ∈ ss_Clusters scope)
     end
   else true) &&
  (if nonempty (ss_Namespaces scope) then
     match Type_ n with
     | NodeTypePod | NodeTypePVC => bool_decide (lget labels "namespace" ∈ ss_Namespaces scope)
     | _ => true
     end
   else true).

(** pkg/graph/project_storage.go, [flowUnit.passesFilters] *)
Definition passesFilters (u : flowUnit) (g : Graph) (scope : StorageScope)
    (rawName : string → string) : bool :=
  forallb (λ id,
    if bool_decide (id = "") then true else
    match NodesByID g !! id with
    | None => false
    | Some n => workloadPassesFilters n scope rawName
    end) [claimID u; podID u; nodeID u].

(** pkg/graph/project_storage.go, [cmpUnit] *)
Definition cmpUnit : flowUnit → flowUnit → comparison :=
  cmp_lex (on_key claimID String.compare) (on_key podID String.compare).

(** The storage-flow edges of one tier, in graph order. *)
Definition tier_edges (g : Graph) (tier : string) : list Edge :=
  filter (λ e, edge_Type e = EdgeTypeStorageFlow ∧ lget (edge_Labels e) "tier" = tier) (Edges g).

(** [m[key(e)] = e] over a slice: the last edge of a key wins. *)
Definition last_by `{Countable K} (key : Edge → K) (es : list Edge) : gmap K Edge :=
  fold_left (λ m e, <[key e := e]> m) es ∅.

(** [m[key(e)] = append(m[key(e)], e)] over a slice. *)
Definition group_by (key : Edge → string) (es : list Edge) : gmap string (list Edge) :=
  fold_left (λ m e, <[key e := default [] (m !! key e) ++ [e]]> m) es ∅.

(** pkg/graph/project_storage.go, [claimAggrOf] *)
Definition claimAggrOf (claim : Edge) (incoming : list Edge) (stamped : bool) : string :=
  let id := lget (edge_Labels claim) ClaimAggrLabel in
  if negb (bool_decide (id = "")) then id
  else match incoming with
       | [e] => if negb stamped then Source e else ""
       | _ => ""
       end.

Section extract.
Context (g : Graph).
Let nodeAggr := tier_edges g StorageTierNodeAggr.
Let aggrSVM := tier_edges g StorageTierAggrSVM.
Let svmPVC := tier_edges g StorageTierSVMPVC.
Let pvcPod := tier_edges g StorageTierPVCPod.
Let podNode := tier_edges g StorageTierPodNode.

Definition nodeAggrOf : gmap string Edge := last_by Target nodeAggr.
Definition aggrSVMOf : gmap (string * string) Edge := last_by (λ e, (Source e, Target e)) aggrSVM.
Definition incomingAggr : gmap string (list Edge) := group_by Target aggrSVM.
Definition mountersOf : gmap string (list Edge) := group_by Source pvcPod.
Definition nodeOf : gmap string Edge := last_by Source podNode.
(** [ownerOf], filled beside [nodeAggrOf]: the source of that edge. *)
Definition ownerOf (aggr : string) : string :=
  match nodeAggrOf !! aggr with Some e => Source e | None => "" end.
Definition stamped : bool :=
  existsb (λ e, negb (bool_decide (lget (edge_Labels e) ClaimAggrLabel = ""))) svmPVC.

(** [addUpstream]: the ids and the edges above the claim. *)
Definition upstream_ids (aggr ctrl : string) : list string :=
  (if bool_decide (aggr = "") then [] else [aggr]) ++
  (if bool_decide (ctrl = "") then [] else [ctrl]).
Definition upstream_edges (svm aggr ctrl : string) : list Edge :=
  (if bool_decide (aggr = "") then [] else option_list (aggrSVMOf !! (aggr, svm))) ++
  (if bool_decide (ctrl = "") then [] else option_list (nodeAggrOf !! aggr)).

(** The pod-node hop of a mounter, when its target is a loaded node. *)
Definition pod_hop (pod : string) : option Edge :=
  match nodeOf !! pod with
  | None => None
  | Some ne => match NodesByID g !! Target ne with
               | Some _ => Some ne
               | None => None
               end
  end.

(** The unit of one mounter of a claim. *)
Definition mounted_unit (claim : Edge) (aggr ctrl : string) (n : nat) (pe : Edge) : flowUnit :=
  let ne := pod_hop (Target pe) in
  mkFlowUnit (Target claim) (Target pe) (match ne with Some e => Target e | None => "" end)
    (Source claim) aggr ctrl n false (edge_IO claim)
    ([claim; pe] ++ upstream_edges (Source claim) aggr ctrl ++ option_list ne)
    ([Source claim; Target claim; Target pe] ++ upstream_ids aggr ctrl ++
     option_list (Target <$> ne)).

(** The unit of a claim no pod mounts. *)
Definition sink_unit (claim : Edge) (aggr ctrl : string) : flowUnit :=
  mkFlowUnit (Target claim) "" "" (Source claim) aggr ctrl 1 true (edge_IO claim)
    ([claim] ++ upstream_edges (Source claim) aggr ctrl)
    ([Source claim; Target claim] ++ upstream_ids aggr ctrl).

(** The units of one claim edge. *)
Definition claim_units (claim : Edge) : list flowUnit :=
  let mounters := default [] (mountersOf !! Target claim) in
  let aggr := claimAggrOf claim (default [] (incomingAggr !! Source claim)) stamped in
  let ctrl := ownerOf aggr in
  match mounters with
  | [] => [sink_unit claim aggr ctrl]
  | _ => map (mounted_unit claim aggr ctrl (length mounters)) mounters
  end.

(** pkg/graph/project_storage.go, [extractFlowUnits] *)
Definition extractFlowUnits : list flowUnit :=
  sort_func cmpUnit (concat (map claim_units svmPVC)).
End extract.

(** ** Roots *)

(** The four id sets [resolveStorageRoots] returns. *)
Record root_sets := mkRootSets {
  rs_storage : gset string;
  rs_workload : gset string;
  rs_claimHits : gset string;
  rs_claimRoots : gset string;
}.
Definition no_root_sets : root_sets := mkRootSets ∅ ∅ ∅ ∅.

Definition add_storage (id : string) (r : root_sets) : root_sets :=
  mkRootSets ({[id]} ∪ rs_storage r) (rs_workload r) (rs_claimHits r) (rs_claimRoots r).
Definition add_workload (id : string) (r : root_sets) : root_sets :=
  mkRootSets (rs_storage r) ({[id]} ∪ rs_workload r) (rs_claimHits r) (rs_claimRoots r).
Definition add_claim_hit (id : string) (r : root_sets) : root_sets :=
  mkRootSets (rs_storage r) (rs_workload r) ({[id]} ∪ rs_claimHits r) (rs_claimRoots r).
Definition add_claim_root (id : string) (r : root_sets) : root_sets :=
  mkRootSets (rs_storage r) ({[id]} ∪ rs_workload r) (rs_claimHits r) ({[id]} ∪ rs_claimRoots r).

Definition is_type (n : GraphNode) (t : NodeType) : bool := bool_decide (Type_ n = t).

(** [named] and [rooted]: the name match of a root value. *)
Definition named (roots : StorageRoots) (n : GraphNode) : bool :=
  bool_decide (Name n ∈ roots_Names roots).
Definition rooted (roots : StorageRoots) (n : GraphNode) : bool :=
  named roots n ||
  bool_decide (mkONTAPRef (lget (Labels n) "ontap_cluster") (Name n) ∈ roots_Qualified roots).

(** One node of the loop of [resolveStorageRoots]. *)
Definition resolve_step (roots : StorageRoots) (n : GraphNode) (r : root_sets) : root_sets :=
  let kind := roots_Kind roots in
  let kind_is k := bool_decide (kind = k) in
  if kind_is StorageRootONTAPCluster then
    if (is_type n NodeTypeNetAppAggr || is_type n NodeTypeNetAppSVM || is_type n NodeTypeNetAppNode)
       && bool_decide (lget (Labels n) "ontap_cluster" ∈ roots_Names roots)
    then add_storage (ID n) r else r
  else if kind_is StorageRootONTAPNode then
    if is_type n NodeTypeNetAppNode && named roots n then add_storage (ID n) r else r
  else if kind_is StorageRootAggr then
    if is_type n NodeTypeNetAppAggr && rooted roots n then add_storage (ID n) r else r
  else if kind_is StorageRootSVM then
    if is_type n NodeTypeNetAppSVM && rooted roots n then add_storage (ID n) r else r
  else if kind_is StorageRootNode then
    if is_type n NodeTypeK8sNode && named roots n then add_workload (ID n) r else r
  else if kind_is StorageRootPod then
    if is_type n NodeTypePod &&
       bool_decide (mkPodRef (lget (Labels n) "namespace") (Name n) ∈ roots_Pods roots)
    then add_workload (ID n) r else r
  else if kind_is StorageRootPVC then
    if is_type n NodeTypePVC &&
       bool_decide (mkClaimRef (lget (Labels n) "namespace") (Name n) ∈ roots_Claims roots)
    then add_claim_root (ID n) r else r
  else if kind_is StorageRootPV then
    let vn := lget (Labels n) "volumename" in
    if is_type n NodeTypePVC && negb (bool_decide (vn = "")) &&
       bool_decide (vn ∈ roots_Names roots)
    then add_claim_root (ID n) r else r
  else if kind_is StorageRootApplication then
    let app := Application n in
    if bool_decide (app = "") then r
    else if negb (bool_decide (app ∈ roots_Names roots)) then r
    else match Type_ n with
         | NodeTypePod => add_workload (ID n) r
         | NodeTypePVC => add_claim_hit (ID n) r
         | _ => r
         end
  else r.

(** pkg/graph/project_storage.go, [resolveStorageRoots] *)
Definition resolveStorageRoots (g : Graph) (scope : StorageScope) : root_sets :=
  if negb (Any (Roots scope)) then no_root_sets
  else foldr (resolve_step (Roots scope)) no_root_sets (graph_nodes g).

(** ** Weights *)

(** The loop of [sumUnitShares]: the sum, and the measurement the claim-level
    fields come from, set by the first unit that fills anything. *)
Fixpoint sum_shares (claimTier : bool) (units : list flowUnit) (acc : IOMetrics)
    (claimIO : option IOMetrics) (filled : bool) : IOMetrics * option IOMetrics * bool :=
  match units with
  | [] => (acc, claimIO, filled)
  | u :: rest =>
      match scaleFlow (fu_io u) (fu_n u) with
      | None =>
          if claimTier && hasLatency (fu_io u) then
            sum_shares claimTier rest acc
              (match claimIO with None => fu_io u | _ => claimIO end) true
          else sum_shares claimTier rest acc claimIO filled
      | Some share =>
          let acc := mkIOMetrics
            (addPtr (ReadOps acc) (ReadOps share)) (addPtr (WriteOps acc) (WriteOps share))
            (ReadLatencyUs acc) (WriteLatencyUs acc)
            (addPtr (ReadBytesPerSec acc) (ReadBytesPerSec share))
            (addPtr (WriteBytesPerSec acc) (WriteBytesPerSec share))
            (MaxIOPS acc) (MaxBytesPerSec acc)
            (addPtr (ReadOpsDelta acc) (ReadOpsDelta share))
            (addPtr (WriteOpsDelta acc) (WriteOpsDelta share))
            (ReadLatencyUsDelta acc) (WriteLatencyUsDelta acc)
            (addPtr (ReadBytesPerSecDelta acc) (ReadBytesPerSecDelta share))
            (addPtr (WriteBytesPerSecDelta acc) (WriteBytesPerSecDelta share)) in
          sum_shares claimTier rest acc (match claimIO with None => fu_io u | _ => claimIO end) true
      end
  end.

(** The claim-level fields, copied from the claim's own measurement. *)
Definition with_claim_level (acc io : IOMetrics) : IOMetrics :=
  mkIOMetrics (ReadOps acc) (WriteOps acc) (ReadLatencyUs io) (WriteLatencyUs io)
    (ReadBytesPerSec acc) (WriteBytesPerSec acc) (MaxIOPS io) (MaxBytesPerSec io)
    (ReadOpsDelta acc) (WriteOpsDelta acc)
    (if is_some (ReadLatencyUs io) then ReadLatencyUsDelta io else ReadLatencyUsDelta acc)
    (if is_some (WriteLatencyUs io) then WriteLatencyUsDelta io else WriteLatencyUsDelta acc)
    (ReadBytesPerSecDelta acc) (WriteBytesPerSecDelta acc).

(** pkg/graph/project_storage.go, [sumUnitShares] *)
Definition sumUnitShares (edge : Edge) (units : list flowUnit) : option IOMetrics :=
  let claimTier := bool_decide (lget (edge_Labels edge) "tier" = StorageTierSVMPVC) in
  let '(acc, claimIO, filled) := sum_shares claimTier units IOMetrics_zero None false in
  if negb filled then None
  else match claimIO with
       | Some io => if claimTier then Some (with_claim_level acc io) else Some acc
       | None => Some acc
       end.

(** ** Projection *)

Section project.
  Context `{EdgeUUID}.

(** pkg/graph/project_storage.go, [projectedEdge] *)
Definition projectedEdge (e : Edge) (io : option IOMetrics) : Edge :=
  let out := NewEdge (edge_Type e) (Source e) (Target e) (delete ClaimAggrLabel (edge_Labels e)) in
  match io with
  | None => out
  | Some io => default out (WithIO (Some out) io)
  end.

(** The accumulator of [weightRetained], keyed by (source, target): the first
    edge of the pair, and the units that pass through it. *)
Definition weight_step (u : flowUnit) (m : gmap (string * string) (Edge * list flowUnit)) (e : Edge)
  : gmap (string * string) (Edge * list flowUnit) :=
  let key := (Source e, Target e) in
  let '(e0, contrib) := default (e, []) (m !! key) in
  <[key := (e0, contrib ++ [u])]> m.

Definition weigh (retained : list flowUnit) : gmap (string * string) (Edge * list flowUnit) :=
  fold_left (λ m u, fold_left (weight_step u) (fu_edges u) m) retained ∅.

(** pkg/graph/project_storage.go, [weightRetained] *)
Definition weightRetained (retained : list flowUnit) : list Edge :=
  map (λ a : Edge * list flowUnit, projectedEdge a.1 (sumUnitShares a.1 (sort_func cmpUnit a.2)))
    (map_to_list (weigh retained)).*2.

(** pkg/graph/project_storage.go, [admitRoot] *)
Definition admitRoot (g : Graph) (nodes : gmap string GraphNode) (id : string) (workload : bool)
    (scope : StorageScope) (rawName : string → string) : gmap string GraphNode :=
  match nodes !! id with
  | Some _ => nodes
  | None =>
      match NodesByID g !! id with
      | None => nodes
      | Some n => if workload && negb (workloadPassesFilters n scope rawName) then nodes
                  else <[id := n]> nodes
      end
  end.

(** Whether [ProjectStorage] keeps a unit. *)
Definition retained_unit (g : Graph) (scope : StorageScope) (r : root_sets) (u : flowUnit) : bool :=
  (negb (sink u) || bool_decide (claimID u ∈ rs_claimRoots r)) &&
  (intersects u (rs_storage r) || intersects u (rs_workload r) || intersects u (rs_claimHits r)) &&
  passesFilters u g scope (ClusterRawName (Some g)).

(** The loaded nodes of the retained units. *)
Definition add_unit_nodes (g : Graph) (nodes : gmap string GraphNode) (u : flowUnit)
  : gmap string GraphNode :=
  fold_left (λ nodes id, match NodesByID g !! id with
                         | Some n => <[id := n]> nodes
                         | None => nodes
                         end) (fu_ids u) nodes.

(** pkg/graph/project_storage.go, [ProjectStorage] *)
Definition ProjectStorage (g : option Graph) (scope : StorageScope) : View :=
  match g with
  | None => mkView [] []
  | Some g =>
      let r := resolveStorageRoots g scope in
      let raw := ClusterRawName (Some g) in
      let retained := filter (λ u, retained_unit g scope r u = true) (extractFlowUnits g) in
      let nodes := fold_left (add_unit_nodes g) retained ∅ in
      let nodes := fold_left (λ nodes id, admitRoot g nodes id false scope raw)
                     (elements (rs_storage r)) nodes in
      let nodes := fold_left (λ nodes id, admitRoot g nodes id true scope raw)
                     (elements (rs_workload r)) nodes in
      let nodes := pullNetAppParents g nodes in
      mkView (SortNodes (map_to_list nodes).*2) (SortEdges (weightRetained retained))
  end.
End project.
