(* ===== verification/ProjectStorageLemmas.v ===== *)
(** Lemmas about pkg/graph/project_storage.go (file ProjectStorage): what a
    flow unit is made of, what the roots resolve to, and which edges and nodes
    the projection accumulates. *)

From S2P Require Import Prelude GoStrings Float64 GraphNode GraphEdge Graph Project.
From S2P Require Import ProjectLemmas ProjectProps StorageScope ProjectStorage.

(** ** Indexes *)

Lemma group_by_lookup key es k :
  default [] (group_by key es !! k) = filter (λ e, key e = k) es.
Proof.
  unfold group_by.
  assert (∀ m : gmap string (list Edge),
    default [] (fold_left (λ m e, <[key e := default [] (m !! key e) ++ [e]]> m) es m !! k) =
    default [] (m !! k) ++ filter (λ e, key e = k) es) as H.
  { induction es as [|e es IH]; intros m; cbn [fold_left]; [by rewrite app_nil_r|].
    rewrite IH, filter_cons. destruct (decide (key e = k)) as [<-|Hne].
    - rewrite lookup_insert_eq. simpl. by rewrite <-app_assoc.
    - by rewrite lookup_insert_ne. }
  rewrite H, lookup_empty. done.
Qed.

Lemma last_by_Some `{Countable K} (key : Edge → K) es k e :
  last_by key es !! k = Some e → e ∈ es ∧ key e = k.
Proof.
  unfold last_by.
  assert (∀ m : gmap K Edge, fold_left (λ m e, <[key e := e]> m) es m !! k = Some e →
    m !! k = Some e ∨ e ∈ es ∧ key e = k) as Hf.
  { induction es as [|x es IH]; intros m; cbn [fold_left]; [by left|].
    intros [Hm|[? ?]]%IH; [|right; split; [by right|done]].
    destruct (decide (key x = k)) as [<-|Hne].
    - rewrite lookup_insert_eq in Hm. injection Hm as ->. right. split; [by left|done].
    - rewrite lookup_insert_ne in Hm by done. by left. }
  intros [Hm|?]%Hf; [by rewrite lookup_empty in Hm|done].
Qed.

Lemma elem_of_tier_edges g t e :
  e ∈ tier_edges g t ↔
  e ∈ Edges g ∧ edge_Type e = EdgeTypeStorageFlow ∧ lget (edge_Labels e) "tier" = t.
Proof. unfold tier_edges. rewrite list_elem_of_filter. naive_solver. Qed.

(** ** Units *)

Section units.
Context (g : Graph).
Implicit Types (u : flowUnit) (e claim pe : Edge) (id aggr ctrl svm : string).

(** The aggregate and the controller of a claim edge. *)
Definition claim_aggr_id claim : string :=
  claimAggrOf claim (default [] (incomingAggr g !! Source claim)) (stamped g).
Definition claim_ctrl_id claim : string := ownerOf g (claim_aggr_id claim).

(** The pods mounting the claim of an edge. *)
Definition claim_mounters claim : list Edge :=
  filter (λ e, Source e = Target claim) (tier_edges g StorageTierPVCPod).

Lemma elem_of_extractFlowUnits u :
  u ∈ extractFlowUnits g ↔
  ∃ claim, claim ∈ tier_edges g StorageTierSVMPVC ∧
    ((claim_mounters claim = [] ∧ u = sink_unit g claim (claim_aggr_id claim) (claim_ctrl_id claim)) ∨
     ∃ pe, pe ∈ claim_mounters claim ∧
           u = mounted_unit g claim (claim_aggr_id claim) (claim_ctrl_id claim)
                 (length (claim_mounters claim)) pe).
Proof.
  unfold extractFlowUnits. rewrite elem_of_sort_func, list_elem_of_In, in_concat.
  setoid_rewrite in_map_iff. setoid_rewrite <- list_elem_of_In.
  assert (∀ claim, default [] (mountersOf g !! Target claim) = claim_mounters claim) as Hm.
  { intros claim. unfold mountersOf. by rewrite group_by_lookup. }
  split.
  - intros (l & (claim & <- & Hc) & Hu). exists claim. split; [done|].
    unfold claim_units in Hu. rewrite Hm in Hu.
    destruct (claim_mounters claim) as [|m ms] eqn:E.
    + apply list_elem_of_singleton in Hu. by left.
    + apply list_elem_of_fmap in Hu as (pe & -> & Hpe). right. by exists pe.
  - intros (claim & Hc & Hu). exists (claim_units g claim).
    split; [by exists claim|]. unfold claim_units. rewrite Hm.
    destruct Hu as [[E ->]|(pe & Hpe & ->)].
    + rewrite E. by left.
    + destruct (claim_mounters claim) as [|m ms] eqn:E; [by apply elem_of_nil in Hpe|].
      by apply list_elem_of_fmap_2.
Qed.

Lemma elem_of_upstream_edges svm aggr ctrl e :
  ctrl = ownerOf g aggr → e ∈ upstream_edges g svm aggr ctrl →
  (aggr ≠ "" ∧ e ∈ tier_edges g StorageTierAggrSVM ∧ Source e = aggr ∧ Target e = svm) ∨
  (ctrl ≠ "" ∧ e ∈ tier_edges g StorageTierNodeAggr ∧ Source e = ctrl ∧ Target e = aggr).
Proof.
  intros -> He. unfold upstream_edges in He.
  apply elem_of_app in He as [He|He]; case_bool_decide; try by apply elem_of_nil in He.
  - apply elem_of_option_list in He. apply last_by_Some in He as [He [= -> ->]]. by left.
  - apply elem_of_option_list in He. pose proof He as Hl.
    apply last_by_Some in He as [He Ht]. right. unfold ownerOf in *. by rewrite Hl in *.
Qed.

Lemma elem_of_upstream_ids aggr ctrl id :
  id ∈ upstream_ids aggr ctrl ↔ (id = aggr ∧ aggr ≠ "") ∨ (id = ctrl ∧ ctrl ≠ "").
Proof.
  unfold upstream_ids. rewrite elem_of_app.
  do 2 case_bool_decide; rewrite ?elem_of_nil, ?list_elem_of_singleton; tauto.
Qed.

Lemma pod_hop_Some pod e :
  pod_hop g pod = Some e →
  e ∈ tier_edges g StorageTierPodNode ∧ Source e = pod ∧ is_Some (NodesByID g !! Target e).
Proof.
  unfold pod_hop, nodeOf. intros H.
  destruct (last_by _ _ !! pod) as [ne|] eqn:E; [|done].
  destruct (NodesByID g !! Target ne) eqn:En; [|done]. injection H as <-.
  apply last_by_Some in E as [? ?]. rewrite En. by split_and!.
Qed.

(** Every edge of a unit is a storage-flow edge of the graph between two of
    the unit's ids, an empty aggregate aside. *)
Lemma unit_edge u e :
  u ∈ extractFlowUnits g → e ∈ fu_edges u →
  e ∈ Edges g ∧ edge_Type e = EdgeTypeStorageFlow ∧
  (Source e ∈ fu_ids u) ∧ (Target e ∈ fu_ids u ∨ Target e = "").
Proof.
  assert (∀ t, e ∈ tier_edges g t → e ∈ Edges g ∧ edge_Type e = EdgeTypeStorageFlow) as Ht.
  { intros t (? & ? & _)%elem_of_tier_edges. done. }
  intros (claim & Hc & Hu)%elem_of_extractFlowUnits He.
  assert (∀ ids, ids ⊆ fu_ids u → Source claim ∈ ids →
    upstream_ids (claim_aggr_id claim) (claim_ctrl_id claim) ⊆ ids →
    e ∈ upstream_edges g (Source claim) (claim_aggr_id claim) (claim_ctrl_id claim) →
    e ∈ Edges g ∧ edge_Type e = EdgeTypeStorageFlow ∧
    (Source e ∈ fu_ids u) ∧ (Target e ∈ fu_ids u ∨ Target e = "")) as Hup.
  { intros ids Hsub Hs Hids [(Ha & Hin & Hsrc & Htg)|(Ha & Hin & Hsrc & Htg)]%elem_of_upstream_edges;
      [| |done]; destruct (Ht _ Hin) as [? ?]; (split; [done|split; [done|]]);
      rewrite Hsrc, Htg; split.
    - apply Hsub, Hids, elem_of_upstream_ids. by left.
    - left. by apply Hsub.
    - apply Hsub, Hids, elem_of_upstream_ids. by right.
    - destruct (decide (claim_aggr_id claim = "")) as [|Hne]; [by right|left].
      apply Hsub, Hids, elem_of_upstream_ids. by left. }
  destruct Hu as [[_ ->]|(pe & Hpe & ->)].
  - cbn [sink_unit fu_edges fu_ids] in He.
    apply elem_of_cons in He as [->|He].
    { destruct (Ht _ Hc). split_and!; [done|done| |left]; simpl; set_solver. }
    eapply Hup; [| | |exact He]; [reflexivity|..]; simpl; set_solver.
  - apply list_elem_of_filter in Hpe as [Hps Hpe].
    cbn [mounted_unit fu_edges] in He.
    apply elem_of_cons in He as [->|He].
    { destruct (Ht _ Hc). split_and!; [done|done| |left]; simpl; set_solver. }
    apply elem_of_cons in He as [->|He].
    { destruct (Ht _ Hpe). split_and!; [done|done| |left]; simpl; rewrite ?Hps; set_solver. }
    apply elem_of_app in He as [He|He].
    + eapply Hup; [| | |exact He]; [reflexivity|..]; simpl; set_solver.
    + apply elem_of_option_list in He. cbn [mounted_unit fu_ids]. rewrite He.
      apply pod_hop_Some in He as (Hin & Hs & _). destruct (Ht _ Hin).
      split_and!; [done|done| |left]; simpl; rewrite ?Hs; set_solver.
Qed.
End units.

(** ** Roots *)

Definition netapp_type (t : NodeType) : Prop :=
  t = NodeTypeNetAppAggr ∨ t = NodeTypeNetAppNode ∨ t = NodeTypeNetAppSVM.

(** What one node can add to the root sets. *)
Inductive root_addition (n : GraphNode) (r : root_sets) : root_sets → Prop :=
  | add_none : root_addition n r r
  | add_st : netapp_type (Type_ n) → root_addition n r (add_storage (ID n) r)
  | add_wl : Type_ n = NodeTypeK8sNode ∨ Type_ n = NodeTypePod →
             root_addition n r (add_workload (ID n) r)
  | add_cr : Type_ n = NodeTypePVC → root_addition n r (add_claim_root (ID n) r)
  | add_ch : Type_ n = NodeTypePVC → root_addition n r (add_claim_hit (ID n) r).

Lemma is_type_spec n t : is_type n t = true ↔ Type_ n = t.
Proof. apply bool_decide_eq_true. Qed.

Lemma resolve_step_cases roots n r : root_addition n r (resolve_step roots n r).
Proof.
  unfold resolve_step, netapp_type.
  repeat match goal with
  | |- root_addition _ _ (if ?b then _ else _) => destruct b eqn:?
  | |- root_addition _ _ (match Type_ n with _ => _ end) => destruct (Type_ n) eqn:?
  end; breflect; rewrite ?is_type_spec in *;
  try constructor; auto; unfold netapp_type;
  repeat match goal with
  | H : (_ || _)%bool = true |- _ => apply orb_true_iff in H as [?|?]
  end; rewrite ?is_type_spec in *; auto.
Qed.

(** The typing of the resolved sets. *)
Record roots_wf (g : Graph) (r : root_sets) : Prop := {
  rw_storage id : id ∈ rs_storage r →
    ∃ n, n ∈ graph_nodes g ∧ ID n = id ∧ netapp_type (Type_ n);
  rw_workload id : id ∈ rs_workload r →
    ∃ n, n ∈ graph_nodes g ∧ ID n = id ∧
         ((Type_ n = NodeTypeK8sNode ∨ Type_ n = NodeTypePod) ∨
          (Type_ n = NodeTypePVC ∧ id ∈ rs_claimRoots r));
  rw_claimRoots id : id ∈ rs_claimRoots r → id ∈ rs_workload r;
}.

Lemma roots_wf_step g n r r' :
  n ∈ graph_nodes g → root_addition n r r' → roots_wf g r → roots_wf g r'.
Proof.
  intros Hn Hadd [Hs Hw Hc].
  destruct Hadd as [|Ht|Ht|Ht|Ht]; [by split| | | |by split]; split; simpl; try done;
    intros id; rewrite ?elem_of_union, ?elem_of_singleton.
  - intros [->|?]; [by exists n|by apply Hs].
  - intros [->|?]; [exists n; auto|by apply Hw].
  - auto.
  - intros [->|Hid]; [exists n|apply Hw in Hid as (m & ? & ? & Hm); exists m];
      rewrite ?elem_of_union, ?elem_of_singleton; [tauto|].
    split_and!; [done|done|]. destruct Hm as [?|[? ?]]; tauto.
  - intros [->|?]; [by left|right; by apply Hc].
Qed.

Lemma resolveStorageRoots_wf g scope : roots_wf g (resolveStorageRoots g scope).
Proof.
  unfold resolveStorageRoots. destruct (negb _).
  { split; simpl; intros id Hid; by apply not_elem_of_empty in Hid. }
  assert (∀ l, l ⊆ graph_nodes g →
    roots_wf g (foldr (resolve_step (Roots scope)) no_root_sets l)) as H; [|by apply H].
  induction l as [|n l IH]; intros Hl; cbn [foldr].
  { split; simpl; intros id Hid; by apply not_elem_of_empty in Hid. }
  eapply roots_wf_step; [|apply resolve_step_cases|]; [apply Hl; by left|].
  apply IH. intros x Hx. apply Hl. by right.
Qed.

(** ** Accumulated edges *)

Definition edge_pair (e : Edge) : string * string := (Source e, Target e).

(** The (unit, edge) occurrences of a list of units, in order. *)
Definition unit_edges (units : list flowUnit) : list (flowUnit * Edge) :=
  concat (map (λ u, map (pair u) (fu_edges u)) units).

Lemma elem_of_unit_edges units u e :
  (u, e) ∈ unit_edges units ↔ u ∈ units ∧ e ∈ fu_edges u.
Proof.
  unfold unit_edges. rewrite list_elem_of_In, in_concat. setoid_rewrite in_map_iff.
  setoid_rewrite <- list_elem_of_In. split.
  - intros (l & (v & <- & Hv) & (x & [= -> ->] & Hx)%list_elem_of_fmap). done.
  - intros [Hu He]. exists (map (pair u) (fu_edges u)). split; [by exists u|].
    by apply list_elem_of_fmap_2.
Qed.

(** A pair's entry: its first edge, and the units of its occurrences in order. *)
Definition pair_entry (k : string * string) (l : list (flowUnit * Edge))
  : option (Edge * list flowUnit) :=
  match filter (λ ue, edge_pair ue.2 = k) l with
  | [] => None
  | (u, e) :: rest => Some (e, u :: map fst rest)
  end.

Lemma pair_entry_snoc k l ue :
  pair_entry k (l ++ [ue]) =
  if decide (edge_pair ue.2 = k)
  then Some (match pair_entry k l with
             | Some (e0, c) => (e0, c ++ [ue.1])
             | None => (ue.2, [ue.1])
             end)
  else pair_entry k l.
Proof.
  unfold pair_entry. rewrite filter_app, filter_cons, filter_nil.
  destruct (decide _); [|by rewrite app_nil_r].
  destruct (filter _ l) as [|[u x] rest]; simpl; [by destruct ue|]. by rewrite map_app.
Qed.

Lemma weigh_lookup units k : weigh units !! k = pair_entry k (unit_edges units).
Proof.
  assert (weigh units = fold_left (λ m ue, weight_step ue.1 m ue.2) (unit_edges units) ∅) as ->.
  { unfold weigh, unit_edges. generalize (∅ : gmap (string * string) (Edge * list flowUnit)).
    induction units as [|u units IH]; intros m; [done|].
    cbn [fold_left map concat]. rewrite fold_left_app, IH. f_equal. generalize m.
    induction (fu_edges u) as [|e es IHe]; intros m'; [done|]. cbn [fold_left map]. apply IHe. }
  induction (unit_edges units) as [|[u e] l IH] using rev_ind; [done|].
  rewrite fold_left_app, pair_entry_snoc. cbn [fold_left fst snd]. unfold weight_step.
  fold (edge_pair e). destruct (default _ _) as [e0 c] eqn:E.
  destruct (decide (edge_pair e = k)) as [<-|Hne].
  - rewrite lookup_insert_eq. f_equal. rewrite <-IH.
    destruct (fold_left _ l ∅ !! edge_pair e) as [[e1 c1]|]; simpl in E; by injection E as <- <-.
  - by rewrite lookup_insert_ne.
Qed.

Lemma pair_entry_Some k l e0 c :
  pair_entry k l = Some (e0, c) →
  edge_pair e0 = k ∧ (∃ u, (u, e0) ∈ l) ∧ c = (filter (λ ue, edge_pair ue.2 = k) l).*1.
Proof.
  unfold pair_entry. destruct (filter _ l) as [|[u x] rest] eqn:E; [done|]. intros [= -> <-].
  assert ((u, e0) ∈ filter (λ ue : flowUnit * Edge, edge_pair ue.2 = k) l) as Hin.
  { rewrite E. by left. }
  apply list_elem_of_filter in Hin as [? ?]. split_and!; [done|by exists u|done].
Qed.

Lemma pair_entry_is_Some k l :
  is_Some (pair_entry k l) ↔ ∃ u e, (u, e) ∈ l ∧ edge_pair e = k.
Proof.
  split.
  - intros [[e0 c] (? & [u ?] & _)%pair_entry_Some]. by exists u, e0.
  - intros (u & e & Hin & Hk). unfold pair_entry.
    assert ((u, e) ∈ filter (λ ue : flowUnit * Edge, edge_pair ue.2 = k) l) as Hf
      by by apply list_elem_of_filter.
    destruct (filter _ l) as [|[u' e'] rest]; [by apply elem_of_nil in Hf|by eexists].
Qed.

(** ** Accumulated nodes *)

Section nodes.
Context (g : Graph).
Implicit Types (nodes : gmap string GraphNode) (ids : list string).

Definition loaded (id : string) : Prop := is_Some (NodesByID g !! id).

Lemma load_fold ids nodes :
  nodes ⊆ NodesByID g →
  let r := fold_left (λ nodes id, match NodesByID g !! id with
                                  | Some n => <[id := n]> nodes
                                  | None => nodes
                                  end) ids nodes in
  r ⊆ NodesByID g ∧ ∀ id, id ∈ dom r ↔ id ∈ dom nodes ∨ id ∈ ids ∧ loaded id.
Proof.
  revert nodes. induction ids as [|i ids IH]; intros nodes Hsub; cbn [fold_left].
  { split; [done|]. intros id. rewrite elem_of_nil. tauto. }
  destruct (NodesByID g !! i) as [n|] eqn:E.
  - destruct (IH (<[i := n]> nodes)) as [H1 H2]; [by apply insert_subseteq_l|].
    split; [done|]. intros id. rewrite H2, dom_insert_L, elem_of_union, elem_of_singleton, elem_of_cons.
    unfold loaded. destruct (decide (id = i)) as [->|]; [rewrite E|]; naive_solver.
  - destruct (IH nodes Hsub) as [H1 H2]. split; [done|]. intros id. rewrite H2, elem_of_cons.
    unfold loaded. destruct (decide (id = i)) as [->|]; [rewrite E|]; [|naive_solver].
    split; [tauto|]. intros [?|[_ [? ?]]]; [by left|done].
Qed.

Lemma units_fold units nodes :
  nodes ⊆ NodesByID g →
  let r := fold_left (add_unit_nodes g) units nodes in
  r ⊆ NodesByID g ∧
  ∀ id, id ∈ dom r ↔ id ∈ dom nodes ∨ (∃ u, u ∈ units ∧ id ∈ fu_ids u) ∧ loaded id.
Proof.
  revert nodes. induction units as [|u units IH]; intros nodes Hsub; cbn [fold_left].
  { split; [done|]. intros id. rewrite exists_elem_nil. tauto. }
  destruct (load_fold (fu_ids u) nodes Hsub) as [H1 H2].
  destruct (IH (add_unit_nodes g nodes u) H1) as [H3 H4].
  split; [done|]. intros id. rewrite H4. unfold add_unit_nodes. rewrite H2, exists_elem_cons. tauto.
Qed.

Context (scope : StorageScope) (raw : string → string).

Definition root_ok (workload : bool) (id : string) : Prop :=
  ∃ n, NodesByID g !! id = Some n ∧
       (workload = true → workloadPassesFilters n scope raw = true).

Lemma admitRoot_spec nodes id workload :
  nodes ⊆ NodesByID g →
  admitRoot g nodes id workload scope raw ⊆ NodesByID g ∧
  ∀ i, i ∈ dom (admitRoot g nodes id workload scope raw) ↔
       i ∈ dom nodes ∨ i = id ∧ root_ok workload id.
Proof.
  intros Hsub. unfold admitRoot, root_ok.
  destruct (nodes !! id) as [n|] eqn:En.
  { split; [done|]. intros i. split; [by left|]. intros [?|[-> _]]; [done|by eapply elem_of_dom_2]. }
  destruct (NodesByID g !! id) as [n|] eqn:Eg.
  2:{ split; [done|]. intros i. split; [by left|]. by intros [?|[_ (? & ? & _)]]. }
  destruct (workload && negb (workloadPassesFilters n scope raw)) eqn:Ew.
  - split; [done|]. intros i. split; [by left|]. intros [?|[_ (m & [= <-] & Hm)]]; [done|].
    apply andb_true_iff in Ew as [-> Hf]. by rewrite (Hm eq_refl) in Hf.
  - split; [by apply insert_subseteq_l|]. intros i.
    rewrite dom_insert_L, elem_of_union, elem_of_singleton. split; [|tauto].
    intros [->|?]; [right|by left]. split; [done|]. exists n. split; [done|]. intros ->.
    simpl in Ew. by apply negb_false_iff in Ew.
Qed.

Lemma roots_fold workload ids nodes :
  nodes ⊆ NodesByID g →
  let r := fold_left (λ nodes id, admitRoot g nodes id workload scope raw) ids nodes in
  r ⊆ NodesByID g ∧
  ∀ id, id ∈ dom r ↔ id ∈ dom nodes ∨ id ∈ ids ∧ root_ok workload id.
Proof.
  revert nodes. induction ids as [|i ids IH]; intros nodes Hsub; cbn [fold_left].
  { split; [done|]. intros id. rewrite elem_of_nil. tauto. }
  destruct (admitRoot_spec nodes i workload Hsub) as [H1 H2].
  destruct (IH _ H1) as [H3 H4]. split; [done|]. intros id. rewrite H4, H2, elem_of_cons.
  split; [intros [[?|[-> ?]]|?]; tauto|]. intros [?|[[->|?] ?]]; tauto.
Qed.
End nodes.
