(* ===== verification/ProjectStorageProps.v ===== *)
(** Properties of the storage-flow projection: it is exact over the retained
    units, closed, filtered and root-driven; a root that matches nothing
    draws nothing; an unmounted claim is drawn only as a claim root. *)

From S2P Require Import Prelude GoStrings Float64 GraphNode GraphEdge Graph Project.
From S2P Require Import ProjectLemmas ProjectProps StorageScope ProjectStorage.
From S2P Require Import ProjectStorageLemmas.

Section projection.
Context `{EdgeUUID} (g : Graph) (scope : StorageScope) (Hok : graph_ok g).
Implicit Types (u : flowUnit) (e : Edge) (n : GraphNode) (id : string).

Definition roots_of : root_sets := resolveStorageRoots g scope.
Definition retained : list flowUnit :=
  filter (λ u, retained_unit g scope roots_of u = true) (extractFlowUnits g).
Let raw := ClusterRawName (Some g).
Let nodes1 := fold_left (add_unit_nodes g) retained ∅.
Let nodes2 := fold_left (λ nodes id, admitRoot g nodes id false scope raw)
                (elements (rs_storage roots_of)) nodes1.
Let nodes3 := fold_left (λ nodes id, admitRoot g nodes id true scope raw)
                (elements (rs_workload roots_of)) nodes2.
Let final := pullNetAppParents g nodes3.
Let view := ProjectStorage (Some g) scope.

(** Why an id is drawn, before the controller sweep. *)
Definition shown (id : string) : Prop :=
  ((∃ u, u ∈ retained ∧ id ∈ fu_ids u) ∧ loaded g id) ∨
  (id ∈ rs_storage roots_of ∧ loaded g id) ∨
  (id ∈ rs_workload roots_of ∧
   ∃ n, NodesByID g !! id = Some n ∧ workloadPassesFilters n scope raw = true).

Lemma nodes3_spec : nodes3 ⊆ NodesByID g ∧ ∀ id, id ∈ dom nodes3 ↔ shown id.
Proof.
  destruct (units_fold g retained ∅) as [H1 D1]; [apply map_empty_subseteq|].
  destruct (roots_fold g scope raw false (elements (rs_storage roots_of)) nodes1 H1) as [H2 D2].
  destruct (roots_fold g scope raw true (elements (rs_workload roots_of)) nodes2 H2) as [H3 D3].
  split; [exact H3|]. intros id. unfold nodes3. rewrite D3. fold nodes2. unfold nodes2. rewrite D2.
  unfold nodes1. rewrite D1, dom_empty_L, !elem_of_elements.
  unfold shown, root_ok, loaded. split.
  - intros [[[?%not_elem_of_empty|?]|[? (n & ? & _)]]|[? (n & ? & ?)]]; [done|by left| |].
    + right. left. split; [done|by eexists].
    + right. right. split; [done|]. exists n. auto.
  - intros [?|[[? [n ?]]|[? (n & ? & ?)]]]; [left; left; by right|left; right|right];
      (split; [done|]); exists n; (split; [done|by intros]).
Qed.

Lemma storage_final_spec :
  nodes3 ⊆ final ∧ final ⊆ NodesByID g ∧
  (∀ id, id ∈ dom final ↔ id ∈ dom nodes3 ∨
     ∃ i n, nodes3 !! i = Some n ∧ owner_id n = Some id ∧ is_Some (NodesByID g !! id)).
Proof. apply pullNetAppParents_spec, nodes3_spec. Qed.

Lemma elem_of_storage_nodes n : n ∈ view_Nodes view ↔ final !! ID n = Some n.
Proof.
  unfold view, ProjectStorage. cbn [view_Nodes]. fold roots_of raw. fold retained. fold nodes1.
  fold nodes2. fold nodes3. fold final.
  unfold SortNodes. rewrite elem_of_sort_func, list_elem_of_fmap.
  split.
  - intros ([i m] & -> & Him%elem_of_map_to_list). simpl.
    pose proof (lookup_weaken _ _ _ _ Him (proj1 (proj2 storage_final_spec))) as Hg.
    by rewrite (graph_wf_ID _ _ _ (proj1 Hok) Hg).
  - intros Hn. exists (ID n, n). by rewrite elem_of_map_to_list.
Qed.

Lemma storage_node_loaded n : n ∈ view_Nodes view → NodesByID g !! ID n = Some n.
Proof.
  rewrite elem_of_storage_nodes. intros Hn. eapply lookup_weaken; [done|].
  apply storage_final_spec.
Qed.

Lemma shown_drawn id : shown id → id ∈ map ID (view_Nodes view).
Proof.
  intros [n Hn]%nodes3_spec%elem_of_dom.
  pose proof (lookup_weaken _ _ _ _ Hn (proj1 nodes3_spec)) as Hg.
  pose proof (graph_wf_ID _ _ _ (proj1 Hok) Hg) as <-. apply list_elem_of_fmap_2.
  apply elem_of_storage_nodes. eapply lookup_weaken; [exact Hn|apply storage_final_spec].
Qed.

(** A drawn node is shown, or is the controller of a drawn aggregate. *)
Lemma drawn_cases n :
  n ∈ view_Nodes view → shown (ID n) ∨ Type_ n = NodeTypeNetAppNode.
Proof.
  intros Hn. pose proof (storage_node_loaded n Hn) as Hg.
  apply elem_of_storage_nodes, elem_of_dom_2 in Hn.
  apply storage_final_spec in Hn as [Hn|(i & m & Hi & Ho & _)].
  - left. by apply nodes3_spec.
  - right. eapply (proj2 Hok); [|exact Ho|exact Hg]. eapply lookup_weaken; [exact Hi|apply nodes3_spec].
Qed.

Lemma elem_of_storage_edges x :
  x ∈ view_Edges view ↔
  ∃ k e0 c, pair_entry k (unit_edges retained) = Some (e0, c) ∧
            x = projectedEdge e0 (sumUnitShares e0 (sort_func cmpUnit c)).
Proof.
  unfold view, ProjectStorage. cbn [view_Edges]. fold roots_of. fold retained.
  unfold SortEdges, weightRetained. rewrite elem_of_sort_func, list_elem_of_fmap. split.
  - intros ([e0 c] & -> & ([k [e1 c1]] & [= -> ->] & Hin%elem_of_map_to_list)%list_elem_of_fmap).
    rewrite weigh_lookup in Hin. by exists k, e1, c1.
  - intros (k & e0 & c & Hk & ->). exists (e0, c). split; [done|]. apply list_elem_of_fmap.
    exists (k, (e0, c)). rewrite elem_of_map_to_list, weigh_lookup. done.
Qed.

Lemma retained_spec u :
  u ∈ retained ↔ u ∈ extractFlowUnits g ∧ retained_unit g scope roots_of u = true.
Proof. unfold retained. rewrite list_elem_of_filter. tauto. Qed.

Lemma projectedEdge_fields e io :
  Source (projectedEdge e io) = Source e ∧ Target (projectedEdge e io) = Target e ∧
  edge_Type (projectedEdge e io) = edge_Type e ∧
  edge_Labels (projectedEdge e io) = delete ClaimAggrLabel (edge_Labels e) ∧
  edge_IO (projectedEdge e io) = io ∧ edge_wf (projectedEdge e io).
Proof. by destruct io. Qed.

Lemma projectedEdge_pair e io : edge_pair (projectedEdge e io) = edge_pair e.
Proof. by destruct io. Qed.

(** One edge per pair: the accumulator is keyed by the pair. *)
Lemma storage_edges_nodup : NoDup (map edge_pair (view_Edges view)).
Proof.
  unfold view, ProjectStorage. cbn [view_Edges]. fold roots_of. fold retained.
  unfold SortEdges, weightRetained. rewrite sort_func_perm, !map_map.
  rewrite (map_ext_in _ fst); [apply NoDup_fst_map_to_list|].
  intros [k [e0 c]] Hin%list_elem_of_In%elem_of_map_to_list. rewrite weigh_lookup in Hin.
  cbn [fst snd]. rewrite projectedEdge_pair. by apply pair_entry_Some in Hin as (? & _).
Qed.

(** A drawn edge comes from an edge of a retained unit. *)
Lemma drawn_edge x :
  x ∈ view_Edges view →
  ∃ u e, u ∈ retained ∧ e ∈ fu_edges u ∧ ∃ io, x = projectedEdge e io.
Proof.
  intros (k & e0 & c & Hk & ->)%elem_of_storage_edges.
  apply pair_entry_Some in Hk as (_ & [u Hu] & _). apply elem_of_unit_edges in Hu as [? ?].
  exists u, e0. eauto.
Qed.
End projection.

(** ** Properties *)

(** A storage-flow graph as the assembler makes it: the storage end of every
    tier edge is a loaded node of the tier's kind, and no id is empty. *)
Record flow_ok (g : Graph) : Prop := {
  fo_graph : graph_ok g;
  fo_empty : NodesByID g !! "" = None;
  fo_node_aggr e : e ∈ tier_edges g StorageTierNodeAggr →
    (∃ n, NodesByID g !! Source e = Some n ∧ Type_ n = NodeTypeNetAppNode) ∧
    (∃ n, NodesByID g !! Target e = Some n ∧ Type_ n = NodeTypeNetAppAggr);
  fo_aggr_svm e : e ∈ tier_edges g StorageTierAggrSVM →
    (∃ n, NodesByID g !! Source e = Some n ∧ Type_ n = NodeTypeNetAppAggr);
  fo_svm_pvc e : e ∈ tier_edges g StorageTierSVMPVC →
    (∃ n, NodesByID g !! Source e = Some n ∧ Type_ n = NodeTypeNetAppSVM) ∧ Target e ≠ "" ∧
    (lget (edge_Labels e) ClaimAggrLabel ≠ "" →
     ∃ n, NodesByID g !! lget (edge_Labels e) ClaimAggrLabel = Some n ∧
          Type_ n = NodeTypeNetAppAggr);
  fo_pvc_pod e : e ∈ tier_edges g StorageTierPVCPod → Target e ≠ "" ∧
    ∀ n, NodesByID g !! Target e = Some n → Type_ n = NodeTypePod;
  fo_pod_node e : e ∈ tier_edges g StorageTierPodNode →
    ∀ n, NodesByID g !! Target e = Some n → Type_ n = NodeTypeK8sNode;
}.

Section flow.
Context (g : Graph) (Hf : flow_ok g).
Implicit Types (u : flowUnit) (e : Edge) (id : string).

Lemma claim_aggr_loaded claim :
  claim ∈ tier_edges g StorageTierSVMPVC → claim_aggr_id g claim ≠ "" →
  ∃ n, NodesByID g !! claim_aggr_id g claim = Some n ∧ Type_ n = NodeTypeNetAppAggr.
Proof.
  intros Hc. unfold claim_aggr_id, claimAggrOf.
  case_bool_decide as Hl; simpl; [|intros _; by apply (fo_svm_pvc g Hf)].
  destruct (default _ _) as [|e [|]] eqn:E; [done| |done].
  destruct (negb _); [|done]. intros _. apply (fo_aggr_svm g Hf).
  unfold incomingAggr in E. rewrite group_by_lookup in E.
  assert (e ∈ filter (λ e, Target e = Source claim) (tier_edges g StorageTierAggrSVM)) as He
    by (rewrite E; by left).
  by apply list_elem_of_filter in He as [_ ?].
Qed.

Lemma claim_ctrl_loaded claim :
  claim_ctrl_id g claim ≠ "" →
  ∃ n, NodesByID g !! claim_ctrl_id g claim = Some n ∧ Type_ n = NodeTypeNetAppNode.
Proof.
  unfold claim_ctrl_id, ownerOf. destruct (nodeAggrOf g !! _) as [e|] eqn:E; [|done].
  intros _. apply last_by_Some in E as [He _]. by apply (fo_node_aggr g Hf).
Qed.

(** Where the ids of a unit come from: its claim, pod and node, or a loaded
    NetApp node. *)
Lemma unit_id u id :
  u ∈ extractFlowUnits g → id ∈ fu_ids u →
  (id ≠ "" ∧ (id = claimID u ∨ id = podID u ∨ id = nodeID u)) ∨
  ∃ n, NodesByID g !! id = Some n ∧ netapp_type (Type_ n).
Proof.
  intros (claim & Hc & Hu)%elem_of_extractFlowUnits Hid.
  assert (∀ i, i ∈ upstream_ids (claim_aggr_id g claim) (claim_ctrl_id g claim) →
    ∃ n, NodesByID g !! i = Some n ∧ netapp_type (Type_ n)) as Hup.
  { intros i [[-> Ha]|[-> Ha]]%elem_of_upstream_ids;
      [apply claim_aggr_loaded in Ha as (n & ? & ?); [|done]
      |apply claim_ctrl_loaded in Ha as (n & ? & ?)];
      exists n; unfold netapp_type; auto. }
  destruct (fo_svm_pvc g Hf claim Hc) as ((n & Hn & Ht) & Hne & _).
  assert (∃ n, NodesByID g !! Source claim = Some n ∧ netapp_type (Type_ n)) as Hsvm.
  { exists n. unfold netapp_type. auto. }
  destruct Hu as [[_ ->]|(pe & Hpe & ->)]; simpl in *.
  - apply elem_of_cons in Hid as [->|Hid]; [by right|].
    apply elem_of_cons in Hid as [->|Hid]; [by left; auto|]. right. by apply Hup.
  - apply list_elem_of_filter in Hpe as [_ Hpe].
    apply elem_of_cons in Hid as [->|Hid]; [by right|].
    apply elem_of_cons in Hid as [->|Hid]; [by left; auto|].
    apply elem_of_cons in Hid as [->|Hid].
    { left. split; [by apply (fo_pvc_pod g Hf)|auto]. }
    apply elem_of_app in Hid as [Hid|Hid]; [right; by apply Hup|].
    apply elem_of_option_list in Hid. destruct (pod_hop g (Target pe)) as [ne|] eqn:E; [|done].
    injection Hid as <-. left. split; [|auto]. intros Htn.
    apply pod_hop_Some in E as (_ & _ & [m Hm]). rewrite Htn, (fo_empty g Hf) in Hm. done.
Qed.

Lemma passes_claim u scope id :
  passesFilters u g scope (ClusterRawName (Some g)) = true →
  id ≠ "" → id = claimID u ∨ id = podID u ∨ id = nodeID u →
  ∃ n, NodesByID g !! id = Some n ∧
       workloadPassesFilters n scope (ClusterRawName (Some g)) = true.
Proof.
  unfold passesFilters. rewrite forallb_forall. intros H Hne Hid.
  specialize (H id). rewrite bool_decide_false in H by done.
  destruct (NodesByID g !! id) as [n|].
  - exists n. split; [done|]. apply H. destruct Hid as [->|[->| ->]]; simpl; auto.
  - discriminate H. destruct Hid as [->|[->| ->]]; simpl; auto.
Qed.

Lemma retained_parts scope u :
  u ∈ retained g scope →
  u ∈ extractFlowUnits g ∧
  (sink u = true → claimID u ∈ rs_claimRoots (roots_of g scope)) ∧
  (∃ id, id ∈ fu_ids u ∧ (id ∈ rs_storage (roots_of g scope) ∨ id ∈ rs_workload (roots_of g scope) ∨
                          id ∈ rs_claimHits (roots_of g scope))) ∧
  passesFilters u g scope (ClusterRawName (Some g)) = true.
Proof.
  intros [Hu Hr]%retained_spec. split; [done|].
  unfold retained_unit in Hr. apply andb_true_iff in Hr as [[Hs Hi]%andb_true_iff Hp].
  split_and!; [| |done].
  - intros Hsk. rewrite Hsk in Hs. by apply bool_decide_eq_true in Hs.
  - unfold intersects in Hi. rewrite !orb_true_iff, !existsb_exists in Hi.
    destruct Hi as [[(i & Hi & Hb)|(i & Hi & Hb)]|(i & Hi & Hb)]; exists i;
      apply list_elem_of_In in Hi; apply bool_decide_eq_true in Hb; auto.
Qed.

Lemma retained_id_loaded scope u id :
  u ∈ retained g scope → id ∈ fu_ids u → loaded g id.
Proof.
  intros (Hu & _ & _ & Hp)%retained_parts Hid. unfold loaded.
  destruct (unit_id u id Hu Hid) as [[Hne Hc]|(n & Hn & _)]; [|by rewrite Hn].
  destruct (passes_claim u scope id Hp Hne Hc) as (n & Hn & _). by rewrite Hn.
Qed.

Lemma retained_edge scope u e :
  u ∈ retained g scope → e ∈ fu_edges u →
  e ∈ Edges g ∧ edge_Type e = EdgeTypeStorageFlow ∧
  Source e ∈ fu_ids u ∧ Target e ∈ fu_ids u.
Proof.
  intros Hr He. destruct (retained_parts scope u Hr) as (Hu & _).
  destruct (unit_edge g u e Hu He) as (Hin & Ht & Hs & [?|Hte]); [done|].
  exfalso. (* no tier edge ends at the empty id *)
  apply elem_of_extractFlowUnits in Hu as (claim & Hc & Hu).
  assert (e ∈ upstream_edges g (Source claim) (claim_aggr_id g claim) (claim_ctrl_id g claim) →
    False) as Hup.
  { intros [(_ & Hin' & _ & Hsvm)|(_ & Hin' & _)]%elem_of_upstream_edges; [| |done].
    - destruct (fo_svm_pvc g Hf claim Hc) as ((n & Hn & _) & _).
      by rewrite <-Hsvm, Hte, (fo_empty g Hf) in Hn.
    - destruct (fo_node_aggr g Hf e Hin') as [_ (n & Hn & _)].
      by rewrite Hte, (fo_empty g Hf) in Hn. }
  destruct (fo_svm_pvc g Hf claim Hc) as (_ & Hne & _).
  destruct Hu as [[_ ->]|(pe & Hpe & ->)]; simpl in He.
  - apply elem_of_cons in He as [->|He]; auto.
  - apply list_elem_of_filter in Hpe as [_ Hpe].
    apply elem_of_cons in He as [->|He]; [auto|].
    apply elem_of_cons in He as [->|He]; [by apply (fo_pvc_pod g Hf) in Hpe as [? _]|].
    apply elem_of_app in He as [He|He]; [auto|].
    apply elem_of_option_list, pod_hop_Some in He as (_ & _ & [n Hn]).
    by rewrite Hte, (fo_empty g Hf) in Hn.
Qed.
End flow.

(** C10: the storage view is a closed sub-graph: its nodes are the graph's, and
    both endpoints of every drawn edge are drawn. *)
Theorem ProjectStorage_closed `{EdgeUUID} g scope :
  flow_ok g →
  (∀ n, n ∈ view_Nodes (ProjectStorage (Some g) scope) → NodesByID g !! ID n = Some n) ∧
  (∀ e, e ∈ view_Edges (ProjectStorage (Some g) scope) →
        Source e ∈ map ID (view_Nodes (ProjectStorage (Some g) scope)) ∧
        Target e ∈ map ID (view_Nodes (ProjectStorage (Some g) scope))).
Proof.
  intros Hf. pose proof (fo_graph g Hf) as Hok. split; [intros n; by apply storage_node_loaded|].
  intros x (u & e & Hu & He & io & ->)%drawn_edge.
  destruct (projectedEdge_fields e io) as (-> & -> & _).
  destruct (retained_edge g Hf scope u e Hu He) as (_ & _ & Hs & Ht).
  split; apply shown_drawn; try done; left;
    (split; [by exists u|by eapply retained_id_loaded]).
Qed.

(** A root selection that matches nothing draws nothing: with no root, or
    root values that name no loaded component, the view is empty, never the
    estate. *)
Theorem ProjectStorage_no_match_empty `{EdgeUUID} g scope :
  rs_storage (resolveStorageRoots g scope) = ∅ → rs_workload (resolveStorageRoots g scope) = ∅ →
  rs_claimHits (resolveStorageRoots g scope) = ∅ →
  ProjectStorage (Some g) scope = mkView [] [].
Proof.
  intros Hs Hw Hc. unfold ProjectStorage.
  assert (filter (λ u, retained_unit g scope (resolveStorageRoots g scope) u = true)
            (extractFlowUnits g) = []) as ->.
  { apply elem_of_nil_inv. intros u [Hr _]%list_elem_of_filter.
    unfold retained_unit in Hr. apply andb_true_iff in Hr as [[_ Hi]%andb_true_iff _].
    unfold intersects in Hi. rewrite Hs, Hw, Hc, !orb_true_iff, !existsb_exists in Hi.
    destruct Hi as [[(i & _ & Hb)|(i & _ & Hb)]|(i & _ & Hb)];
      by apply bool_decide_eq_true, not_elem_of_empty in Hb. }
  rewrite Hs, Hw, !elements_empty. reflexivity.
Qed.

(** The drawn edges, exactly: one per (source, target) pair of a retained
    unit's hop. *)
(** C9: the drawn edges are exactly the hops of the retained units, one edge
    per (source, target) pair and no pair twice, weighted over the retained units through that
    pair in (claim, pod) order; each is a storage-flow edge of the graph with
    its own derived identity and without the internal claim_aggr label. *)
Theorem ProjectStorage_edges_exact `{EdgeUUID} g scope :
  flow_ok g →
  NoDup (map edge_pair (view_Edges (ProjectStorage (Some g) scope))) ∧
  (∀ k, (∃ x, x ∈ view_Edges (ProjectStorage (Some g) scope) ∧ edge_pair x = k) ↔
        ∃ u e, u ∈ retained g scope ∧ e ∈ fu_edges u ∧ edge_pair e = k) ∧
  (∀ x, x ∈ view_Edges (ProjectStorage (Some g) scope) →
     edge_wf x ∧ edge_Type x = EdgeTypeStorageFlow ∧ edge_Labels x !! ClaimAggrLabel = None ∧
     ∃ e, e ∈ Edges g ∧ edge_pair e = edge_pair x ∧
          edge_Labels x = delete ClaimAggrLabel (edge_Labels e) ∧
          edge_IO x = sumUnitShares e (sort_func cmpUnit
            (filter (λ ue, edge_pair ue.2 = edge_pair x) (unit_edges (retained g scope))).*1)).
Proof.
  intros Hf. split; [apply storage_edges_nodup|]. split.
  - intros k. transitivity (is_Some (pair_entry k (unit_edges (retained g scope)))).
    + split.
      * intros (x & (k' & e0 & c & Hk & ->)%elem_of_storage_edges & <-).
        unfold edge_pair at 1. destruct (projectedEdge_fields e0
          (sumUnitShares e0 (sort_func cmpUnit c))) as (-> & -> & _).
        pose proof Hk as (Hp & _)%pair_entry_Some. unfold edge_pair in Hp. rewrite Hp, Hk. by eexists.
      * intros [[e0 c] Hk]. exists (projectedEdge e0 (sumUnitShares e0 (sort_func cmpUnit c))).
        split; [apply elem_of_storage_edges; by exists k, e0, c|].
        apply pair_entry_Some in Hk as (Hp & _).
        unfold edge_pair at 1. by destruct (projectedEdge_fields e0
          (sumUnitShares e0 (sort_func cmpUnit c))) as (-> & -> & _).
    + rewrite pair_entry_is_Some. setoid_rewrite elem_of_unit_edges. naive_solver.
  - intros x (k & e0 & c & Hk & ->)%elem_of_storage_edges.
    pose proof (pair_entry_Some _ _ _ _ Hk) as (Hp & [u [Hu He]%elem_of_unit_edges] & ->).
    set (io := sumUnitShares _ _). rewrite projectedEdge_pair.
    destruct (projectedEdge_fields e0 io) as (_ & _ & -> & -> & -> & Hwf).
    destruct (retained_edge g Hf scope u e0 Hu He) as (Hin & Ht & _).
    split_and!; [done|done|apply lookup_delete_eq|]. exists e0. split_and!; [done|done|done|].
    subst io k. reflexivity.
Qed.

(** The cluster and namespace filters cannot be escaped: every drawn pod,
    claim and Kubernetes node passes them, whether a path or a root brought it
    in. *)
Theorem ProjectStorage_filters `{EdgeUUID} g scope n :
  flow_ok g → n ∈ view_Nodes (ProjectStorage (Some g) scope) →
  Type_ n = NodeTypePod ∨ Type_ n = NodeTypePVC ∨ Type_ n = NodeTypeK8sNode →
  workloadPassesFilters n scope (ClusterRawName (Some g)) = true.
Proof.
  intros Hf Hn Ht. pose proof (fo_graph g Hf) as Hok.
  pose proof (storage_node_loaded g scope Hok n Hn) as Hg.
  destruct (drawn_cases g scope Hok n Hn)
    as [[[(u & Hu & Hid) _]|[[Hst _]|[_ (m & Hm & Hp)]]]|Hc].
  - destruct (retained_parts g scope u Hu) as (Hx & _ & _ & Hp).
    destruct (unit_id g Hf u _ Hx Hid) as [[Hne Hcl]|(m & Hm & Hnt)].
    + destruct (passes_claim g u scope _ Hp Hne Hcl) as (m & Hm & Hpm). congruence.
    + unfold netapp_type in Hnt. assert (m = n) as -> by congruence. intuition congruence.
  - apply (resolveStorageRoots_wf g scope) in Hst as (m & Hm & Hi & Hnt).
    apply elem_of_graph_nodes in Hm; [|apply Hok]. rewrite Hi in Hm.
    assert (m = n) as -> by congruence. unfold netapp_type in Hnt. intuition congruence.
  - congruence.
  - intuition congruence.
Qed.

(** A claim no pod mounts is drawn only when it is itself a pvc / pv root:
    no storage, workload or application root it merely touches brings it in. *)
Theorem ProjectStorage_sink `{EdgeUUID} g scope n :
  flow_ok g → n ∈ view_Nodes (ProjectStorage (Some g) scope) → Type_ n = NodeTypePVC →
  (∀ e, e ∈ tier_edges g StorageTierPVCPod → Source e ≠ ID n) →
  ID n ∈ rs_claimRoots (resolveStorageRoots g scope).
Proof.
  intros Hf Hn Ht Hum. pose proof (fo_graph g Hf) as Hok.
  pose proof (storage_node_loaded g scope Hok n Hn) as Hg.
  destruct (drawn_cases g scope Hok n Hn)
    as [[[(u & Hu & Hid) _]|[[Hst _]|[Hw _]]]|Hc]; [| | |congruence].
  - destruct (retained_parts g scope u Hu) as (Hx & Hsink & _ & _).
    destruct (unit_id g Hf u _ Hx Hid) as [[Hne Hcl]|(m & Hm & Hnt)].
    2:{ unfold netapp_type in Hnt. assert (m = n) as -> by congruence. intuition congruence. }
    apply elem_of_extractFlowUnits in Hx as (claim & Hc & [[_ ->]|(pe & Hpe & ->)]); simpl in *.
    + destruct Hcl as [->|[?|?]]; [by apply Hsink|done|done].
    + apply list_elem_of_filter in Hpe as [Hps Hpe]. destruct Hcl as [Hcl|[Hcl|Hcl]].
      * exfalso. apply (Hum pe Hpe). congruence.
      * exfalso. apply (fo_pvc_pod g Hf) in Hpe as [_ Hpt].
        rewrite <-Hcl in Hpt. specialize (Hpt n Hg). congruence.
      * exfalso. destruct (pod_hop g (Target pe)) as [ne|] eqn:E; [|done].
        apply pod_hop_Some in E as (Hne' & _ & _). apply (fo_pod_node g Hf) with (n := n) in Hne';
          congruence.
  - apply (resolveStorageRoots_wf g scope) in Hst as (m & Hm & Hi & Hnt).
    apply elem_of_graph_nodes in Hm; [|apply Hok]. rewrite Hi in Hm.
    assert (m = n) as -> by congruence. unfold netapp_type in Hnt. intuition congruence.
  - apply (resolveStorageRoots_wf g scope) in Hw as (m & Hm & Hi & Hwt).
    apply elem_of_graph_nodes in Hm; [|apply Hok]. rewrite Hi in Hm.
    assert (m = n) as -> by congruence. destruct Hwt as [[?|?]|[_ ?]]; [congruence..|done].
Qed.

(** ** Weights *)

(** What a sum may hold before the claim-level fields are copied in. *)
Definition delta_beside (base delta : option float64) : Prop := delta ≠ None → base ≠ None.
Definition flow_only (io : IOMetrics) : Prop :=
  delta_beside (ReadOps io) (ReadOpsDelta io) ∧ delta_beside (WriteOps io) (WriteOpsDelta io) ∧
  delta_beside (ReadBytesPerSec io) (ReadBytesPerSecDelta io) ∧
  delta_beside (WriteBytesPerSec io) (WriteBytesPerSecDelta io) ∧
  ReadLatencyUs io = None ∧ WriteLatencyUs io = None ∧ ReadLatencyUsDelta io = None ∧
  WriteLatencyUsDelta io = None ∧ MaxIOPS io = None ∧ MaxBytesPerSec io = None.

(** A unit that gives an edge of the tier something to carry. *)
Definition fills (claimTier : bool) (u : flowUnit) : bool :=
  is_some (scaleFlow (fu_io u) (fu_n u)) || (claimTier && hasLatency (fu_io u)).

Lemma addPtr_None a b : addPtr a b = None ↔ a = None ∧ b = None.
Proof. destruct a, b; simpl; intuition congruence. Qed.

Lemma delta_beside_add b1 d1 b2 d2 :
  delta_beside b1 d1 → delta_beside b2 d2 → delta_beside (addPtr b1 b2) (addPtr d1 d2).
Proof.
  unfold delta_beside. rewrite !addPtr_None. destruct d1, d2, b1, b2; intuition congruence.
Qed.

Lemma delta_beside_div b d f : delta_beside (divPtr b f) (beside b d f).
Proof. unfold delta_beside. destruct b; simpl; congruence. Qed.

Lemma scaleFlow_flow_only io n s : scaleFlow io n = Some s → flow_only s ∧ io ≠ None.
Proof.
  destruct io as [io|]; [|done]. simpl. destruct (bool_decide _); [done|].
  destruct (_ || _); [|done]. intros [= <-]. unfold flow_only. simpl.
  split_and!; try done; apply delta_beside_div.
Qed.

Lemma sum_shares_spec tier units acc c filled :
  flow_only acc →
  let r := sum_shares tier units acc c filled in
  flow_only r.1.1 ∧
  r.2 = filled || existsb (fills tier) units ∧
  (∀ m, r.1.2 = Some m → c = Some m ∨ ∃ u, u ∈ units ∧ fu_io u = Some m) ∧
  ((filled = true → c ≠ None) → r.2 = true → r.1.2 ≠ None).
Proof.
  revert acc c filled. induction units as [|u units IH]; intros acc c filled Hacc.
  { simpl. rewrite orb_false_r. split_and!; auto. }
  cbn [sum_shares existsb]. unfold fills at 1.
  assert (∀ acc' c' , flow_only acc' → c' ≠ None →
    (∀ m, c' = Some m → c = Some m ∨ fu_io u = Some m) →
    let r := sum_shares tier units acc' c' true in
    flow_only r.1.1 ∧ r.2 = true ∧
    (∀ m, r.1.2 = Some m → c = Some m ∨ ∃ u0, u0 ∈ u :: units ∧ fu_io u0 = Some m) ∧
    ((filled = true → c ≠ None) → r.2 = true → r.1.2 ≠ None)) as Hfill.
  { intros acc' c' Ha Hc Hm. destruct (IH acc' c' true Ha) as (H1 & H2 & H3 & H4).
    split_and!; [done|done| |].
    - intros m [Hc'|(v & ? & ?)]%H3; [|right; exists v; split; [by right|done]].
      destruct (Hm m Hc') as [?|?]; [by left|right; exists u; split; [by left|done]].
    - intros _. by apply H4. }
  destruct (scaleFlow (fu_io u) (fu_n u)) as [s|] eqn:Es; cbn [is_some orb].
  - apply scaleFlow_flow_only in Es as [Hs Hio]. rewrite orb_true_r.
    apply Hfill; [|by destruct c|intros m; destruct c; auto].
    destruct Hacc as (? & ? & ? & ? & ? & ? & ? & ? & ? & ?), Hs as (? & ? & ? & ? & _).
    unfold flow_only. simpl. split_and!; first [assumption | by apply delta_beside_add].
  - destruct (tier && hasLatency (fu_io u)) eqn:El.
    + rewrite orb_true_r. apply andb_true_iff in El as [_ Hl].
      apply Hfill; [done| |intros m; destruct c; auto].
      destruct c; [done|]. by destruct (fu_io u).
    + destruct (IH acc c filled Hacc) as (H1 & H2 & H3 & H4).
      split_and!; [done|done| |done].
      intros m [?|(v & ? & ?)]%H3; [by left|right; exists v; split; [by right|done]].
Qed.

(** The tier of the claim's own edge. *)
Definition claim_tier (e : Edge) : bool :=
  bool_decide (lget (edge_Labels e) "tier" = StorageTierSVMPVC).

(** What an edge carries: nothing exactly when no unit through it is
    measured; a change figure only beside its base figure; latency and
    ceilings only on the claim's own edge, verbatim from a claim's measurement
    and never summed or shared. *)
Theorem sumUnitShares_shape e units :
  match sumUnitShares e units with
  | None => ∀ u, u ∈ units → fills (claim_tier e) u = false
  | Some io =>
      (∃ u, u ∈ units ∧ fills (claim_tier e) u = true) ∧
      delta_beside (ReadOps io) (ReadOpsDelta io) ∧
      delta_beside (WriteOps io) (WriteOpsDelta io) ∧
      delta_beside (ReadBytesPerSec io) (ReadBytesPerSecDelta io) ∧
      delta_beside (WriteBytesPerSec io) (WriteBytesPerSecDelta io) ∧
      delta_beside (ReadLatencyUs io) (ReadLatencyUsDelta io) ∧
      delta_beside (WriteLatencyUs io) (WriteLatencyUsDelta io) ∧
      if claim_tier e
      then ∃ u m, u ∈ units ∧ fu_io u = Some m ∧
             ReadLatencyUs io = ReadLatencyUs m ∧ WriteLatencyUs io = WriteLatencyUs m ∧
             MaxIOPS io = MaxIOPS m ∧ MaxBytesPerSec io = MaxBytesPerSec m
      else ReadLatencyUs io = None ∧ WriteLatencyUs io = None ∧
           MaxIOPS io = None ∧ MaxBytesPerSec io = None
  end.
Proof.
  unfold sumUnitShares. fold (claim_tier e).
  destruct (sum_shares_spec (claim_tier e) units IOMetrics_zero None false) as (H1 & H2 & H3 & H4).
  { unfold flow_only, delta_beside. simpl. by split_and!. }
  destruct (sum_shares _ _ _ _ _) as [[acc c] filled]. cbn [fst snd] in *. subst filled. simpl.
  destruct (existsb (fills (claim_tier e)) units) eqn:Ef; simpl.
  2:{ intros u Hu. destruct (fills _ u) eqn:E; [|done]. exfalso.
      apply not_true_iff_false in Ef. apply Ef, existsb_exists. exists u.
      by rewrite <- list_elem_of_In. }
  assert (∃ u, u ∈ units ∧ fills (claim_tier e) u = true) as Hex.
  { apply existsb_exists in Ef as (u & Hu & ?). exists u. by rewrite list_elem_of_In. }
  destruct c as [m|]; [|by destruct H4].
  destruct (H3 m eq_refl) as [?|(u & Hu & Hm)]; [done|].
  destruct H1 as (Hd1 & Hd2 & Hd3 & Hd4 & Hl1 & Hl2 & Hl3 & Hl4 & Hm1 & Hm2).
  destruct (claim_tier e); split_and!; try done; unfold delta_beside; simpl;
    try (destruct (ReadLatencyUs m), (WriteLatencyUs m); simpl; congruence).
  exists u, m. split_and!; done.
Qed.

(** ** Witnesses *)

Lemma sample_flow_ok : flow_ok sample_storage_graph.
Proof.
  assert (∀ t (P : Edge → Prop) `{∀ e, Decision (P e)},
    forallb (λ e, bool_decide (P e)) (tier_edges sample_storage_graph t) = true →
    ∀ e, e ∈ tier_edges sample_storage_graph t → P e) as Hall.
  { intros t P ? H e He%list_elem_of_In. rewrite forallb_forall in H.
    by apply H, bool_decide_eq_true in He. }
  assert (∀ id t, bool_decide (Type_ <$> NodesByID sample_storage_graph !! id = Some t) = true →
    ∃ n, NodesByID sample_storage_graph !! id = Some n ∧ Type_ n = t) as Hty.
  { intros id t (n & Hn & ->)%bool_decide_eq_true%fmap_Some. by exists n. }
  assert (∀ id t, bool_decide (Type_ <$> NodesByID sample_storage_graph !! id = Some t) = true →
    ∀ n, NodesByID sample_storage_graph !! id = Some n → Type_ n = t) as Hty'.
  { intros id t (n & Hn & ->)%bool_decide_eq_true%fmap_Some m Hm. congruence. }
  split.
  - exact sample_storage_ok.
  - vm_compute. reflexivity.
  - intros e He. pose proof (λ X, Hall StorageTierNodeAggr (λ e, e ∈ take 1 sample_flow) _ X e He) as Hin.
    specialize (Hin ltac:(vm_compute; reflexivity)).
    apply list_elem_of_singleton in Hin as ->. split; apply Hty; vm_compute; reflexivity.
  - intros e He. pose proof (λ X, Hall StorageTierAggrSVM (λ e, e ∈ take 1 (drop 1 sample_flow)) _ X e He) as Hin.
    specialize (Hin ltac:(vm_compute; reflexivity)).
    apply list_elem_of_singleton in Hin as ->. apply Hty; vm_compute; reflexivity.
  - intros e He. pose proof (λ X, Hall StorageTierSVMPVC (λ e, e ∈ take 1 (drop 2 sample_flow)) _ X e He) as Hin.
    specialize (Hin ltac:(vm_compute; reflexivity)).
    apply list_elem_of_singleton in Hin as ->.
    split_and!; [apply Hty; vm_compute; reflexivity|done|intros _; apply Hty; vm_compute; reflexivity].
  - intros e He. pose proof (λ X, Hall StorageTierPVCPod (λ e, Target e = "c1/pa" ∨ Target e = "c1/pb") _ X e He) as Ht.
    specialize (Ht ltac:(vm_compute; reflexivity)).
    split; [by destruct Ht as [-> | ->]|]. destruct Ht as [-> | ->];
      apply Hty'; vm_compute; reflexivity.
  - intros e He. pose proof (λ X, Hall StorageTierPodNode (λ e, Target e = "c1/n1") _ X e He) as Heq.
    specialize (Heq ltac:(vm_compute; reflexivity)).
    simpl in Heq. rewrite Heq. apply Hty'; vm_compute; reflexivity.
Qed.

(** [?aggr=a1] and [?aggr=typo] on the sample. *)
Definition scope_aggr (name : string) : StorageScope :=
  mkStorageScope ∅ {["shop"]} (mkStorageRoots StorageRootAggr [name] [] [] []).
(** [?pv=pv-1]. *)
Definition scope_pv : StorageScope :=
  mkStorageScope ∅ ∅ (mkStorageRoots StorageRootPV ["pv-1"] [] [] []).

Definition pod_b : GraphNode := sample_pod "c1/pb" "b-0" "shop" "c1/n1".
Definition claim_d : GraphNode := default pod_b (NodesByID sample_storage_graph !! "c1/shop/d").

(** The same filer with the mounts removed: the claim is a sink. *)
Definition sink_graph : Graph := NewGraph sample_nodes (take 3 sample_flow) 0.

Lemma sink_graph_ok : flow_ok sink_graph.
Proof.
  assert (∀ t, tier_edges sink_graph t ⊆ tier_edges sample_storage_graph t) as Hsub.
  { intros t e (He & ? & ?)%elem_of_tier_edges. apply elem_of_tier_edges. split; [|done].
    simpl in *. set_solver. }
  destruct sample_flow_ok as [_ H2 H3 H4 H5 H6 H7].
  split; [apply sample_nodes_ok|exact H2|..]; intros e He%Hsub; eauto.
Qed.

Lemma ProjectStorage_closed_witness :
  flow_ok sample_storage_graph ∧
  ∀ e, e ∈ view_Edges (@ProjectStorage sample_uuid (Some sample_storage_graph) (scope_aggr "a1")) →
       Source e ∈ map ID (view_Nodes (@ProjectStorage sample_uuid (Some sample_storage_graph)
                                        (scope_aggr "a1"))).
Proof.
  split; [exact sample_flow_ok|]. intros e He.
  exact (proj1 (proj2 (@ProjectStorage_closed sample_uuid _ _ sample_flow_ok) e He)).
Defined.

Lemma ProjectStorage_no_match_empty_witness :
  Any (Roots (scope_aggr "typo")) = true ∧
  @ProjectStorage sample_uuid (Some sample_storage_graph) (scope_aggr "typo") = mkView [] [].
Proof.
  split; [reflexivity|].
  exact (@ProjectStorage_no_match_empty sample_uuid sample_storage_graph (scope_aggr "typo")
           ltac:(vm_compute; reflexivity) ltac:(vm_compute; reflexivity)
           ltac:(vm_compute; reflexivity)).
Defined.

Lemma ProjectStorage_edges_exact_witness :
  flow_ok sample_storage_graph ∧
  ∀ x, x ∈ view_Edges (@ProjectStorage sample_uuid (Some sample_storage_graph) (scope_aggr "a1")) →
       edge_Labels x !! ClaimAggrLabel = None.
Proof.
  split; [exact sample_flow_ok|]. intros x Hx.
  exact (proj1 (proj2 (proj2 (proj2 (proj2 (@ProjectStorage_edges_exact sample_uuid _ _ sample_flow_ok))
           x Hx)))).
Defined.

Lemma ProjectStorage_filters_witness :
  flow_ok sample_storage_graph ∧
  workloadPassesFilters pod_b (scope_aggr "a1") (ClusterRawName (Some sample_storage_graph)) = true.
Proof.
  split; [exact sample_flow_ok|].
  assert (pod_b ∈ view_Nodes (@ProjectStorage sample_uuid (Some sample_storage_graph)
                                (scope_aggr "a1"))) as Hin
    by (apply (bool_decide_unpack _); vm_compute; exact I).
  exact (@ProjectStorage_filters sample_uuid _ _ _ sample_flow_ok Hin (or_introl eq_refl)).
Defined.

Lemma ProjectStorage_sink_witness :
  flow_ok sink_graph ∧ ID claim_d ∈ rs_claimRoots (resolveStorageRoots sink_graph scope_pv).
Proof.
  split; [exact sink_graph_ok|].
  assert (claim_d ∈ view_Nodes (@ProjectStorage sample_uuid (Some sink_graph) scope_pv)) as Hin
    by (apply (bool_decide_unpack _); vm_compute; exact I).
  assert (tier_edges sink_graph StorageTierPVCPod = []) as Hno by (vm_compute; reflexivity).
  refine (@ProjectStorage_sink sample_uuid _ _ _ sink_graph_ok Hin eq_refl _).
  rewrite Hno. intros e He. by apply elem_of_nil in He.
Defined.
