(* ===== verification/ProjectK8s.v ===== *)
(** pkg/graph/project_k8s.go: the Kubernetes-only projection served by
    /v1/k8s-graph, and its properties: the drawn nodes and edges are exactly
    those reachable from the pod and node roots, inside the filters. *)

From S2P Require Import Prelude GoStrings Float64 GraphNode GraphEdge Graph Project.
From S2P Require Import ProjectLemmas ProjectProps StorageScope ProjectStorage.
From S2P Require Import ProjectStorageLemmas.

(** One id of the loop of [resolveK8sRoots]. The ids come from the graph's own
    nodes, so the read of [g.NodesByID] never misses there. *)
Definition k8s_root_step (g : Graph) (scope : StorageScope) (acc : gset string * gset string)
    (id : string) : gset string * gset string :=
  let '(nodeRoots, podRoots) := acc in
  match NodesByID g !! id with
  | None => acc
  | Some n =>
      if negb (workloadPassesFilters n scope (ClusterRawName (Some g))) then acc
      else match Type_ n with
           | NodeTypeK8sNode => ({[id]} ∪ nodeRoots, podRoots)
           | NodeTypePod => (nodeRoots, {[id]} ∪ podRoots)
           | _ => acc
           end
  end.

(** pkg/graph/project_k8s.go, [resolveK8sRoots]: the node roots and the pod
    roots. *)
Definition resolveK8sRoots (g : Graph) (scope : StorageScope) : gset string * gset string :=
  let kind := roots_Kind (Roots scope) in
  if negb (bool_decide (kind = StorageRootNode) || bool_decide (kind = StorageRootPod)) then (∅, ∅)
  else fold_left (k8s_root_step g scope)
         (elements (rs_workload (resolveStorageRoots g scope))) (∅, ∅).

(** The edges of the scan: the ones a pod owns. *)
Definition pod_edge (e : Edge) : bool :=
  bool_decide (edge_Type e = EdgeTypePodToNode) || bool_decide (edge_Type e = EdgeTypePodMountsPVC).

(** One edge of the scan: [podEdges] and [runsOnRoot]. *)
Definition k8s_scan (nodeRoots : gset string) (acc : list Edge * gset string) (e : Edge)
  : list Edge * gset string :=
  let '(podEdges, runsOnRoot) := acc in
  match edge_Type e with
  | EdgeTypePodToNode =>
      (podEdges ++ [e],
       if bool_decide (Target e ∈ nodeRoots) then {[Source e]} ∪ runsOnRoot else runsOnRoot)
  | EdgeTypePodMountsPVC => (podEdges ++ [e], runsOnRoot)
  | _ => acc
  end.

(** [pods[id] = n] for the pods running on a node root. *)
Definition add_runner (g : Graph) (scope : StorageScope) (pods : gmap string GraphNode) (id : string)
  : gmap string GraphNode :=
  match NodesByID g !! id with
  | Some n => if is_type n NodeTypePod &&
                 workloadPassesFilters n scope (ClusterRawName (Some g))
              then <[id := n]> pods else pods
  | None => pods
  end.

(** [m[id] = g.NodesByID[id]] for ids of the graph. *)
Definition add_loaded (g : Graph) (m : gmap string GraphNode) (id : string) : gmap string GraphNode :=
  match NodesByID g !! id with
  | Some n => <[id := n]> m
  | None => m
  end.

(** One edge of the second scan: the referenced node and the edge. *)
Definition k8s_reference (g : Graph) (scope : StorageScope) (pods : gmap string GraphNode)
    (acc : gmap string GraphNode * list Edge) (e : Edge) : gmap string GraphNode * list Edge :=
  let '(nodes, edges) := acc in
  match pods !! Source e with
  | None => acc
  | Some _ =>
      match NodesByID g !! Target e with
      | None => acc
      | Some target =>
          if negb (workloadPassesFilters target scope (ClusterRawName (Some g))) then acc
          else (<[Target e := target]> nodes, edges ++ [e])
      end
  end.

(** pkg/graph/project_k8s.go, [ProjectK8s] *)
Definition ProjectK8s (g : option Graph) (scope : StorageScope) : View :=
  match g with
  | None => mkView [] []
  | Some g =>
      let '(nodeRoots, podRoots) := resolveK8sRoots g scope in
      if bool_decide (size nodeRoots + size podRoots = 0) then mkView [] []
      else
        let '(podEdges, runsOnRoot) := fold_left (k8s_scan nodeRoots) (Edges g) ([], ∅) in
        let pods := fold_left (add_loaded g) (elements podRoots) ∅ in
        let pods := fold_left (add_runner g scope) (elements runsOnRoot) pods in
        let '(nodes, edges) := fold_left (k8s_reference g scope pods) podEdges (pods, []) in
        let nodes := fold_left (add_loaded g) (elements nodeRoots) nodes in
        mkView (SortNodes (map_to_list nodes).*2) (SortEdges edges)
  end.

(** ** What the passes accumulate *)

Section lemmas.
Context (g : Graph) (scope : StorageScope).
Let raw := ClusterRawName (Some g).
Implicit Types (id : string) (n : GraphNode) (e : Edge).

(** [id] is one of [l], a loaded node of kind [t] that passes the filters. *)
Definition passing (t : NodeType) (l : list string) (id : string) : Prop :=
  id ∈ l ∧ ∃ n, NodesByID g !! id = Some n ∧ Type_ n = t ∧ workloadPassesFilters n scope raw = true.

Lemma k8s_root_fold l a b id :
  let r := fold_left (k8s_root_step g scope) l (a, b) in
  (id ∈ r.1 ↔ id ∈ a ∨ passing NodeTypeK8sNode l id) ∧
  (id ∈ r.2 ↔ id ∈ b ∨ passing NodeTypePod l id).
Proof.
  revert a b. induction l as [|i l IH]; intros a b; cbn [fold_left].
  { unfold passing. simpl. rewrite !elem_of_nil. tauto. }
  assert (∀ t, passing t (i :: l) id ↔ passing t l id ∨
    (id = i ∧ ∃ n, NodesByID g !! i = Some n ∧ Type_ n = t ∧
       workloadPassesFilters n scope raw = true)) as Hc.
  { intros t. unfold passing. rewrite elem_of_cons. naive_solver. }
  rewrite !Hc. unfold k8s_root_step at 2 4. fold raw.
  destruct (NodesByID g !! i) as [n|] eqn:En.
  2:{ destruct (IH a b) as [-> ->]. naive_solver. }
  destruct (workloadPassesFilters n scope raw) eqn:Ew; cbn [negb].
  2:{ destruct (IH a b) as [-> ->]. naive_solver congruence. }
  destruct (Type_ n) eqn:Et; match goal with
    |- context [fold_left _ l (?a', ?b')] => destruct (IH a' b') as [-> ->] end;
    rewrite ?elem_of_union, ?elem_of_singleton; clear IH Hc; split; naive_solver congruence.
Qed.

Definition k8s_root (t : NodeType) (id : string) : Prop :=
  (roots_Kind (Roots scope) = StorageRootNode ∨ roots_Kind (Roots scope) = StorageRootPod) ∧
  passing t (elements (rs_workload (resolveStorageRoots g scope))) id.

Lemma resolveK8sRoots_spec id :
  (id ∈ (resolveK8sRoots g scope).1 ↔ k8s_root NodeTypeK8sNode id) ∧
  (id ∈ (resolveK8sRoots g scope).2 ↔ k8s_root NodeTypePod id).
Proof.
  unfold resolveK8sRoots, k8s_root.
  destruct (_ || _) eqn:Ek; simpl.
  - assert (roots_Kind (Roots scope) = StorageRootNode ∨
            roots_Kind (Roots scope) = StorageRootPod) as Hk.
    { apply orb_true_iff in Ek as [Ek|Ek]; apply bool_decide_eq_true in Ek; auto. }
    destruct (k8s_root_fold (elements (rs_workload (resolveStorageRoots g scope))) ∅ ∅ id)
      as [-> ->].
    split; (split; [intros [[]%not_elem_of_empty|?]|]); tauto.
  - apply orb_false_iff in Ek as [E1 E2]. breflect.
    split; (split; [intros []%not_elem_of_empty|intros ([?|?] & _); done]).
Qed.

Lemma k8s_scan_eq nodeRoots pe ro e :
  k8s_scan nodeRoots (pe, ro) e =
  (if pod_edge e then pe ++ [e] else pe,
   if bool_decide (edge_Type e = EdgeTypePodToNode) && bool_decide (Target e ∈ nodeRoots)
   then {[Source e]} ∪ ro else ro).
Proof. unfold k8s_scan, pod_edge. by destruct (edge_Type e). Qed.

Lemma k8s_scan_fold nodeRoots es pe ro :
  let r := fold_left (k8s_scan nodeRoots) es (pe, ro) in
  r.1 = pe ++ filter (λ e, pod_edge e = true) es ∧
  ∀ id, id ∈ r.2 ↔ id ∈ ro ∨
    ∃ e, e ∈ es ∧ edge_Type e = EdgeTypePodToNode ∧ Source e = id ∧ Target e ∈ nodeRoots.
Proof.
  revert pe ro. induction es as [|e es IH]; intros pe ro; cbn [fold_left].
  { simpl. rewrite app_nil_r. split; [done|]. intros id. rewrite exists_elem_nil. tauto. }
  rewrite k8s_scan_eq, filter_cons. setoid_rewrite exists_elem_cons.
  match goal with |- context [fold_left _ es (?a, ?b)] => destruct (IH a b) as [-> IH2] end.
  split.
  - destruct (pod_edge e); [|done]. by rewrite <-app_assoc.
  - intros id. rewrite IH2. clear IH IH2.
    do 2 case_bool_decide; cbn [andb]; rewrite ?elem_of_union, ?elem_of_singleton;
      intuition congruence.
Qed.

Lemma add_loaded_fold ids nodes :
  nodes ⊆ NodesByID g →
  let r := fold_left (add_loaded g) ids nodes in
  r ⊆ NodesByID g ∧ ∀ id, id ∈ dom r ↔ id ∈ dom nodes ∨ id ∈ ids ∧ loaded g id.
Proof. apply load_fold. Qed.

Lemma add_runner_fold ids pods :
  pods ⊆ NodesByID g →
  let r := fold_left (add_runner g scope) ids pods in
  r ⊆ NodesByID g ∧ ∀ id, id ∈ dom r ↔ id ∈ dom pods ∨ passing NodeTypePod ids id.
Proof.
  revert pods. induction ids as [|i ids IH]; intros pods Hsub; cbn [fold_left].
  { split; [done|]. intros id. unfold passing. rewrite elem_of_nil. tauto. }
  assert (add_runner g scope pods i ⊆ NodesByID g ∧
    ∀ id, id ∈ dom (add_runner g scope pods i) ↔ id ∈ dom pods ∨
      (id = i ∧ ∃ n, NodesByID g !! id = Some n ∧ Type_ n = NodeTypePod ∧
         workloadPassesFilters n scope raw = true)) as [H1 H2].
  { unfold add_runner. fold raw.
    destruct (NodesByID g !! i) as [n|] eqn:En.
    2:{ split; [done|]. intros id. split; [by left|]. intros [?|[-> (? & ? & _)]]; [done|congruence]. }
    destruct (_ && _) eqn:Ep.
    - apply andb_true_iff in Ep as [Ht%is_type_spec Hp].
      split; [by apply insert_subseteq_l|]. intros id.
      rewrite dom_insert_L, elem_of_union, elem_of_singleton. naive_solver.
    - split; [done|]. intros id. split; [by left|]. intros [?|[-> (m & Hm & Ht & Hp)]]; [done|].
      assert (m = n) as -> by congruence. rewrite Hp, andb_true_r in Ep.
      apply is_type_spec in Ht. congruence. }
  destruct (IH _ H1) as [H3 H4]. split; [done|]. intros id. rewrite H4, H2.
  unfold passing. rewrite elem_of_cons. tauto.
Qed.

(** The edge of a kept pod, to a loaded node inside the filters. *)
Definition reference (pods : gmap string GraphNode) (e : Edge) : Prop :=
  Source e ∈ dom pods ∧
  ∃ n, NodesByID g !! Target e = Some n ∧ workloadPassesFilters n scope raw = true.

Lemma k8s_reference_fold pods es nodes edges :
  nodes ⊆ NodesByID g →
  let r := fold_left (k8s_reference g scope pods) es (nodes, edges) in
  r.1 ⊆ NodesByID g ∧
  (∀ id, id ∈ dom r.1 ↔ id ∈ dom nodes ∨ ∃ e, e ∈ es ∧ reference pods e ∧ Target e = id) ∧
  (∀ e, e ∈ r.2 ↔ e ∈ edges ∨ e ∈ es ∧ reference pods e).
Proof.
  revert nodes edges. induction es as [|e es IH]; intros nodes edges Hsub; cbn [fold_left].
  { split_and!; [done| |]; intros x; [rewrite exists_elem_nil|rewrite elem_of_nil]; tauto. }
  setoid_rewrite exists_elem_cons. setoid_rewrite elem_of_cons.
  assert ((reference pods e ∧ ∃ n, NodesByID g !! Target e = Some n ∧
             k8s_reference g scope pods (nodes, edges) e = (<[Target e := n]> nodes, edges ++ [e])) ∨
          (¬ reference pods e ∧ k8s_reference g scope pods (nodes, edges) e = (nodes, edges)))
    as [[Hr (n & Hn & ->)]|[Hr ->]].
  { unfold k8s_reference, reference. rewrite elem_of_dom. fold raw.
    destruct (pods !! Source e); [|right; split; [by intros [[? ?] _]|done]].
    destruct (NodesByID g !! Target e) as [n|] eqn:En; [|right; split; [by intros [_ (? & ? & _)]|done]].
    destruct (workloadPassesFilters n scope raw) eqn:Ew; cbn [negb].
    - left. split; [by eauto|by exists n].
    - right. split; [|done]. intros [_ (m & [= <-] & ?)]. congruence. }
  - destruct (IH (<[Target e := n]> nodes) (edges ++ [e])) as (H1 & H2 & H3);
      [by apply insert_subseteq_l|]. split_and!; [done| |].
    + intros id. rewrite H2, dom_insert_L, elem_of_union, elem_of_singleton. intuition congruence.
    + intros x. rewrite H3, elem_of_snoc. intuition congruence.
  - destruct (IH nodes edges Hsub) as (H1 & H2 & H3). split_and!; [done| |].
    + intros id. rewrite H2. intuition congruence.
    + intros x. rewrite H3. intuition congruence.
Qed.
End lemmas.

(** ** Properties *)

(** A pod the view keeps: a pod root, or a pod inside the filters that a
    pod-to-node edge places on a node root. *)
Definition kept_pod (g : Graph) (scope : StorageScope) (id : string) : Prop :=
  k8s_root g scope NodeTypePod id ∨
  ((∃ n, NodesByID g !! id = Some n ∧ Type_ n = NodeTypePod ∧
         workloadPassesFilters n scope (ClusterRawName (Some g)) = true) ∧
   ∃ e, e ∈ Edges g ∧ edge_Type e = EdgeTypePodToNode ∧ Source e = id ∧
        k8s_root g scope NodeTypeK8sNode (Target e)).

(** The edges the view keeps: a kept pod's placement and mounts, to a loaded
    target inside the filters. *)
Definition kept_edge (g : Graph) (scope : StorageScope) (e : Edge) : Prop :=
  e ∈ Edges g ∧ pod_edge e = true ∧ kept_pod g scope (Source e) ∧
  ∃ n, NodesByID g !! Target e = Some n ∧
       workloadPassesFilters n scope (ClusterRawName (Some g)) = true.

Lemma k8s_root_loaded g scope t id : k8s_root g scope t id → loaded g id.
Proof. intros (_ & _ & n & Hn & _). unfold loaded. rewrite Hn. by eexists. Qed.

Lemma no_roots_no_kept g scope :
  (∀ id t, t = NodeTypePod ∨ t = NodeTypeK8sNode → ¬ k8s_root g scope t id) →
  ∀ id, ¬ kept_pod g scope id.
Proof. intros H id [?|(_ & e & _ & _ & _ & ?)]; (eapply H; [|done]); auto. Qed.

(** The k8s root kinds are only ever pods and nodes. *)
Lemma k8s_root_sets_empty g scope :
  size (resolveK8sRoots g scope).1 + size (resolveK8sRoots g scope).2 = 0 →
  ∀ id t, t = NodeTypePod ∨ t = NodeTypeK8sNode → ¬ k8s_root g scope t id.
Proof.
  intros Hz id t Ht Hr.
  destruct (resolveK8sRoots_spec g scope id) as [H1 H2].
  assert (size (resolveK8sRoots g scope).1 = 0 ∧ size (resolveK8sRoots g scope).2 = 0) as [Hz1 Hz2] by lia.
  apply size_empty_iff in Hz1, Hz2.
  destruct Ht as [-> | ->]; [apply H2, Hz2 in Hr|apply H1, Hz1 in Hr]; by apply not_elem_of_empty in Hr.
Qed.

Lemma elem_of_sorted_values (m : gmap string GraphNode) g n :
  graph_wf g → m ⊆ NodesByID g →
  n ∈ SortNodes (map_to_list m).*2 ↔ NodesByID g !! ID n = Some n ∧ ID n ∈ dom m.
Proof.
  intros Hwf Hsub. unfold SortNodes. rewrite elem_of_sort_func, list_elem_of_fmap. split.
  - intros ([i x] & -> & Hx%elem_of_map_to_list). simpl.
    pose proof (lookup_weaken _ _ _ _ Hx Hsub) as Hg.
    rewrite (graph_wf_ID _ _ _ Hwf Hg). split; [done|by eapply elem_of_dom_2].
  - intros [Hg [x Hx]%elem_of_dom]. exists (ID n, x). rewrite elem_of_map_to_list.
    pose proof (lookup_weaken _ _ _ _ Hx Hsub) as Hg'. simpl. split; [congruence|done].
Qed.

(** C11: the /v1/k8s-graph view is exact: it draws the pod roots, the pods
    inside the filters on a node root, the node roots, and the loaded targets
    inside the filters of those pods' placement and mount edges, with exactly
    those edges; so its edges are closed and a root kind other than pod and
    node draws nothing. *)
Theorem ProjectK8s_exact g scope :
  graph_ok g →
  (∀ n, n ∈ view_Nodes (ProjectK8s (Some g) scope) ↔
     NodesByID g !! ID n = Some n ∧
     (kept_pod g scope (ID n) ∨ k8s_root g scope NodeTypeK8sNode (ID n) ∨
      ∃ e, kept_edge g scope e ∧ Target e = ID n)) ∧
  (∀ e, e ∈ view_Edges (ProjectK8s (Some g) scope) ↔ kept_edge g scope e).
Proof.
  intros Hok. pose proof (resolveK8sRoots_spec g scope) as Hroots.
  unfold ProjectK8s. pose proof (k8s_root_sets_empty g scope) as Hempty.
  destruct (resolveK8sRoots g scope) as [nodeRoots podRoots]. cbn [fst snd] in *.
  destruct (bool_decide_reflect (size nodeRoots + size podRoots = 0)) as [Hz|_].
  { specialize (Hempty Hz). pose proof (no_roots_no_kept g scope Hempty) as Hkept.
    split; intros x; cbn [view_Nodes view_Edges]; rewrite elem_of_nil; (split; [done|]).
    - intros (_ & [?|[?|(e & (_ & _ & ? & _) & _)]]); [by eapply Hkept| |by eapply Hkept].
      eapply Hempty; [|done]. auto.
    - intros (_ & _ & ? & _). by eapply Hkept. }
  destruct (fold_left (k8s_scan nodeRoots) _ _) as [podEdges runs] eqn:Escan.
  pose proof (k8s_scan_fold g nodeRoots (Edges g) [] ∅) as [Hpe Hruns].
  rewrite Escan in Hpe, Hruns. cbn [fst snd app] in Hpe, Hruns. clear Escan.
  destruct (add_loaded_fold g (elements podRoots) ∅) as [S1 D1]; [apply map_empty_subseteq|].
  destruct (add_runner_fold g scope (elements runs) _ S1) as [S2 D2].
  set (pods := fold_left (add_runner g scope) _ _) in *.
  assert (∀ id, id ∈ dom pods ↔ kept_pod g scope id) as Hpods.
  { intros id. rewrite D2, D1, dom_empty_L, elem_of_elements. destruct (Hroots id) as [_ ->].
    unfold passing, kept_pod. rewrite elem_of_elements, Hruns.
    setoid_rewrite (λ i, proj1 (Hroots i)). split.
    - intros [[[]%not_elem_of_empty|[? _]]|[[[]%not_elem_of_empty|?] ?]]; auto.
    - intros [Hr|[? ?]]; [|right; auto]. left. right. split; [done|by eapply k8s_root_loaded]. }
  destruct (k8s_reference_fold g scope pods podEdges pods [] S2) as (S3 & D3 & E3).
  destruct (fold_left (k8s_reference g scope pods) _ _) as [nodes edges]. cbn [fst snd] in *.
  destruct (add_loaded_fold g (elements nodeRoots) nodes S3) as [S4 D4].
  assert (∀ e, e ∈ podEdges ∧ reference g scope pods e ↔ kept_edge g scope e) as Href.
  { intros e. rewrite Hpe, list_elem_of_filter. unfold reference, kept_edge. rewrite Hpods. tauto. }
  cbn [view_Nodes view_Edges]. split.
  - intros n. rewrite (elem_of_sorted_values _ g n (proj1 Hok) S4), D4, D3, elem_of_elements, Hpods.
    destruct (Hroots (ID n)) as [-> _]. f_equiv. split.
    + intros [[?|(e & ? & ? & ?)]|[? _]]; [by left| |auto].
      right. right. exists e. split; [by apply Href|done].
    + intros [?|[?|(e & He & <-)]]; [auto|right; split; [done|by eapply k8s_root_loaded]|].
      left. right. exists e. by apply Href in He as [? ?].
  - intros e. unfold SortEdges. rewrite elem_of_sort_func, E3, elem_of_nil, Href. tauto.
Qed.

Definition scope_node : StorageScope :=
  mkStorageScope ∅ ∅ (mkStorageRoots StorageRootNode ["n1"] [] [] []).

Lemma ProjectK8s_exact_witness :
  graph_ok sample_graph ∧
  kept_edge sample_graph scope_node (sample_edge EdgeTypePodMountsPVC "c1/pa" "c1/shop/d" ∅).
Proof.
  split; [exact sample_ok|].
  apply (proj2 (ProjectK8s_exact sample_graph scope_node sample_ok)).
  apply (bool_decide_unpack _). vm_compute. exact I.
Defined.
