(* ===== verification/PromStrings.v ===== *)
(** The two escapings of pkg/promql/selector.go ([regexp.QuoteMeta], then
    [escapeLiteral]) and the readers they are inverse to: a double-quoted
    PromQL string literal, and an anchored alternation of literal branches.
    What a rendered matcher means is defined by these readers. *)

From S2P Require Import Prelude GoStrings.

Definition backslash : ascii := Eval cbv in ascii_of_nat 92.
Definition dquote : ascii := Eval cbv in ascii_of_nat 34.

(** The bytes [regexp.QuoteMeta] escapes: backslash, dot, plus, star, question
    mark, parentheses, bar, brackets, braces, caret, dollar. *)
Definition meta_bytes : list ascii :=
  Eval cbv in map ascii_of_nat [92; 46; 43; 42; 63; 40; 41; 124; 91; 93; 123; 125; 94; 36].
Definition is_meta (a : ascii) : bool := existsb (Ascii.eqb a) meta_bytes.

(** [regexp.QuoteMeta] *)
Fixpoint QuoteMeta (s : string) : string :=
  match s with
  | "" => ""
  | String a s' => if is_meta a then String backslash (String a (QuoteMeta s'))
                   else String a (QuoteMeta s')
  end.

(** pkg/promql/selector.go, [escapeLiteral]: the replacer's two rules. *)
Fixpoint escapeLiteral (s : string) : string :=
  match s with
  | "" => ""
  | String a s' =>
      if Ascii.eqb a backslash || Ascii.eqb a dquote
      then String backslash (String a (escapeLiteral s'))
      else String a (escapeLiteral s')
  end.

(** ** Readers *)

(** The rest of a double-quoted literal, after its opening quote: its value and
    what follows its closing quote. An escape other than of a backslash or a
    quote, or a missing closing quote, is an error. *)
Fixpoint read_literal (s : string) : option (string * string) :=
  match s with
  | "" => None
  | String a s1 =>
      if Ascii.eqb a dquote then Some ("", s1)
      else if Ascii.eqb a backslash then
        match s1 with
        | "" => None
        | String b s2 =>
            if Ascii.eqb b backslash || Ascii.eqb b dquote then
              match read_literal s2 with
              | Some (v, rest) => Some (String b v, rest)
              | None => None
              end
            else None
        end
      else match read_literal s1 with
           | Some (v, rest) => Some (String a v, rest)
           | None => None
           end
  end.

(** The branches of an alternation of literals; [None] for a regular
    expression that is anything else (an unescaped metacharacter, or an escape
    of an ordinary byte). *)
Fixpoint read_branches (s : string) : option (list string) :=
  match s with
  | "" => Some [""]
  | String a s1 =>
      if Ascii.eqb a backslash then
        match s1 with
        | "" => None
        | String b s2 =>
            if is_meta b then
              match read_branches s2 with
              | Some (w :: ws) => Some (String b w :: ws)
              | _ => None
              end
            else None
        end
      else if Ascii.eqb a "|"%char then
        match read_branches s1 with
        | Some ws => Some ("" :: ws)
        | None => None
        end
      else if is_meta a then None
      else match read_branches s1 with
           | Some (w :: ws) => Some (String a w :: ws)
           | _ => None
           end
  end.

(** ** Inverses *)

Lemma read_escape v rest :
  read_literal (escapeLiteral v +:+ String dquote rest) = Some (v, rest).
Proof.
  induction v as [|a v IH]; [done|]. cbn [escapeLiteral].
  destruct (Ascii.eqb a backslash || Ascii.eqb a dquote) eqn:E.
  - cbn [String.append read_literal]. rewrite E, IH. done.
  - apply orb_false_iff in E as [E1 E2]. cbn [String.append read_literal].
    rewrite E1, E2, IH. done.
Qed.

Lemma read_branches_quote v s w ws :
  read_branches s = Some (w :: ws) →
  read_branches (QuoteMeta v +:+ s) = Some ((v +:+ w) :: ws).
Proof.
  intros Hs. induction v as [|a v IH]; [done|]. cbn [QuoteMeta].
  destruct (is_meta a) eqn:E.
  - cbn [String.append read_branches]. rewrite E, IH. done.
  - cbn [String.append read_branches].
    destruct (Ascii.eqb_spec a backslash) as [->|_]; [done|].
    destruct (Ascii.eqb_spec a "|"%char) as [->|_]; [done|].
    by rewrite E, IH.
Qed.

Lemma read_alternation v vs :
  read_branches (join "|" (map QuoteMeta (v :: vs))) = Some (v :: vs).
Proof.
  revert v. induction vs as [|w vs IH]; intros v.
  - cbn [map]. change (join "|" [QuoteMeta v]) with (QuoteMeta v).
    rewrite <-(append_nil_r (QuoteMeta v)).
    rewrite (read_branches_quote v "" "" []) by done. by rewrite append_nil_r.
  - cbn [map]. rewrite join_cons2. cbn [map] in IH.
    rewrite (read_branches_quote v _ "" (w :: vs)); [by rewrite append_nil_r|].
    rewrite append_char. cbn [read_branches]. change (Ascii.eqb "|"%char backslash) with false.
    change (Ascii.eqb "|"%char "|"%char) with true. cbn iota. by rewrite IH.
Qed.

(** Escaping branch by branch is escaping the alternation. *)
Lemma escape_append a b : escapeLiteral (a +:+ b) = escapeLiteral a +:+ escapeLiteral b.
Proof.
  induction a as [|c a IH]; [done|]. cbn [String.append escapeLiteral].
  by destruct (_ || _); cbn [String.append]; rewrite IH.
Qed.

Lemma escape_join vs : escapeLiteral (join "|" vs) = join "|" (map escapeLiteral vs).
Proof.
  induction vs as [|v vs IH]; [done|]. destruct vs as [|w vs]; [done|].
  cbn [map]. rewrite !join_cons2, !escape_append, IH. done.
Qed.
