(* ===== verification/Selector.v ===== *)
(** pkg/promql/selector.go: the request-scoped matchers pushed into every
    upstream query. A rendered fragment is a function of the value SETS, and
    reads back as exactly those sets: no value can escape its literal. *)

From S2P Require Import Prelude GoStrings PromStrings.

(** pkg/promql/selector.go@14-14, [DefaultAZLabel] *)
Definition DefaultAZLabel := "az".
(** pkg/promql/selector.go@15-15, [DefaultEnvLabel] *)
Definition DefaultEnvLabel := "env".
(** pkg/promql/selector.go@27-27, [ClusterUnknownValue] *)
Definition ClusterUnknownValue := "unknown".

(** pkg/promql/selector.go, [LabelKeys] *)
Record LabelKeys := mkLabelKeys { key_AZ : string; key_Env : string }.

(** pkg/promql/selector.go, [DefaultLabelKeys] *)
Definition DefaultLabelKeys : LabelKeys := mkLabelKeys DefaultAZLabel DefaultEnvLabel.

(** pkg/promql/selector.go, [LabelKeys.OrDefault] *)
Definition OrDefault (k : LabelKeys) : LabelKeys :=
  mkLabelKeys (if bool_decide (key_AZ k = "") then DefaultAZLabel else key_AZ k)
              (if bool_decide (key_Env k = "") then DefaultEnvLabel else key_Env k).

(** pkg/promql/selector.go, [Selector] *)
Record Selector := mkSelector {
  sel_AZ : list string;
  sel_Env : list string;
  sel_Cluster : list string;
  sel_Namespace : list string;
}.

(** pkg/promql/selector.go, [hasValue] *)
Definition hasValue (values : list string) : bool :=
  existsb (λ v, negb (bool_decide (v = ""))) values.

(** pkg/promql/selector.go, [Selector.Active] *)
Definition Active (s : Selector) : bool :=
  hasValue (sel_AZ s) || hasValue (sel_Env s) || hasValue (sel_Cluster s) ||
  hasValue (sel_Namespace s).

(** pkg/promql/selector.go@99-99, [dims]: the bit mask of accepted dimensions. *)
Definition dims : Type := N.
(** pkg/promql/selector.go@102-102, [dimAZ] *)
Definition dimAZ : dims := 1%N.
(** pkg/promql/selector.go@103-103, [dimEnv] *)
Definition dimEnv : dims := 2%N.
(** pkg/promql/selector.go@104-104, [dimCluster] *)
Definition dimCluster : dims := 4%N.
(** pkg/promql/selector.go@105-105, [dimNamespace] *)
Definition dimNamespace : dims := 8%N.
(** pkg/promql/selector.go@114-122, [dimNamespaceOrAbsent] *)
Definition dimNamespaceOrAbsent : dims := 16%N.
(** pkg/promql/selector.go@120-124, [dimAZRoute] *)
Definition dimAZRoute : dims := 32%N.
(** pkg/promql/selector.go@128-128, [dimsNone] *)
Definition dimsNone : dims := 0%N.
(** pkg/promql/selector.go@136-136, [dimsHarvest] *)
Definition dimsHarvest : dims := dimAZRoute.
(** pkg/promql/selector.go@139-139, [dimsClusterScoped] *)
Definition dimsClusterScoped : dims := N.lor (N.lor dimAZ dimEnv) dimCluster.
(** pkg/promql/selector.go@142-142, [dimsNamespaced] *)
Definition dimsNamespaced : dims := N.lor (N.lor (N.lor dimAZ dimEnv) dimCluster) dimNamespace.
(** pkg/promql/selector.go@155-155, [dimsAlerts] *)
Definition dimsAlerts : dims := N.lor (N.lor dimAZ dimEnv) dimNamespaceOrAbsent.

(** [d&m != 0] *)
Definition accepts (d m : dims) : bool := negb (N.eqb (N.land d m) 0).

(** pkg/promql/selector.go, [normaliseValues] *)
Definition normaliseValues (values : list string) : list string :=
  sort_func String.compare (keep_first ∅ (filter (λ v, v ≠ "") values)).

(** A value between double quotes. *)
Definition quoted (s : string) : string := String dquote (s +:+ String dquote "").

(** [escapeLiteral(regexp.QuoteMeta(v))] *)
Definition branch (v : string) : string := escapeLiteral (QuoteMeta v).

(** pkg/promql/selector.go, [appendMatcher] *)
Definition appendMatcher (dst : list string) (key : string) (values : list string) : list string :=
  match normaliseValues values with
  | [] => dst
  | [v] => dst ++ [key +:+ "=" +:+ quoted (escapeLiteral v)]
  | vals => dst ++ [key +:+ "=~" +:+ quoted (join "|" (map branch vals))]
  end.

(** pkg/promql/selector.go, [appendMatcherOrAbsent] *)
Definition appendMatcherOrAbsent (dst : list string) (key : string) (values : list string)
  : list string :=
  match normaliseValues values with
  | [] => dst
  | vals => dst ++ [key +:+ "=~" +:+ quoted (join "|" (map branch vals ++ [""]))]
  end.

(** pkg/promql/selector.go, [appendClusterMatcher] *)
Definition appendClusterMatcher (dst : list string) (values : list string) : list string :=
  match normaliseValues values with
  | [] => dst
  | vals =>
      if negb (existsb (String.eqb ClusterUnknownValue) vals) then appendMatcher dst "cluster" vals
      else dst ++ ["cluster=~" +:+ quoted (join "|" (map branch vals ++ [""]))]
  end.

(** pkg/promql/selector.go, [Selector.render] *)
Definition render (s : Selector) (d : dims) (keys : LabelKeys) : string :=
  if N.eqb d 0 then "" else
  let keys := OrDefault keys in
  let out := [] in
  let out := if accepts d dimAZ then appendMatcher out (key_AZ keys) (sel_AZ s) else out in
  let out := if accepts d dimEnv then appendMatcher out (key_Env keys) (sel_Env s) else out in
  let out := if accepts d dimCluster then appendClusterMatcher out (sel_Cluster s) else out in
  let out := if accepts d dimNamespace then appendMatcher out "namespace" (sel_Namespace s) else out in
  let out := if accepts d dimNamespaceOrAbsent
             then appendMatcherOrAbsent out "namespace" (sel_Namespace s) else out in
  join "," out.

(** ** Value sets *)

Lemma elem_of_normaliseValues values v : v ∈ normaliseValues values ↔ v ∈ values ∧ v ≠ "".
Proof.
  unfold normaliseValues. rewrite elem_of_sort_func, elem_of_keep_first, list_elem_of_filter.
  set_solver.
Qed.

Lemma normaliseValues_sorted values : StronglySorted (cmp_lt String.compare) (normaliseValues values).
Proof.
  apply sorted_le_NoDup_lt; [apply _|apply (sort_func_sorted String.compare)|].
  apply (NoDup_sort_func String.compare), NoDup_keep_first.
Qed.

Lemma normaliseValues_ext v1 v2 :
  (∀ v, v ≠ "" → v ∈ v1 ↔ v ∈ v2) → normaliseValues v1 = normaliseValues v2.
Proof.
  intros H. apply (sorted_lt_ext String.compare); [apply normaliseValues_sorted..|].
  intros v. rewrite !elem_of_normaliseValues. specialize (H v). tauto.
Qed.

Lemma normaliseValues_idem values : normaliseValues (normaliseValues values) = normaliseValues values.
Proof. apply normaliseValues_ext. intros v Hv. rewrite elem_of_normaliseValues. tauto. Qed.

Lemma hasValue_spec values : hasValue values = true ↔ ∃ v, v ∈ values ∧ v ≠ "".
Proof.
  unfold hasValue. rewrite existsb_exists. setoid_rewrite <- list_elem_of_In.
  setoid_rewrite negb_true_iff. setoid_rewrite bool_decide_eq_false. done.
Qed.

Lemma normaliseValues_nil values : normaliseValues values = [] ↔ hasValue values = false.
Proof.
  rewrite <-not_true_iff_false, hasValue_spec. split.
  - intros H (v & Hv & Hne). assert (v ∈ normaliseValues values) as Hin
      by by apply elem_of_normaliseValues.
    rewrite H in Hin. by apply elem_of_nil in Hin.
  - intros H. apply elem_of_nil_inv. intros v [??]%elem_of_normaliseValues. apply H. by exists v.
Qed.

(** ** Reading a fragment back *)

(** One matcher at the head of a fragment: its label, the values it admits, and
    what follows. *)
Definition read_matcher (s : string) : option (string * list string * string) :=
  match cut "="%char s with
  | (key, String a rest, true) =>
      if Ascii.eqb a dquote then
        match read_literal rest with
        | Some (v, after) => Some (key, [v], after)
        | None => None
        end
      else match rest with
           | String b rest' =>
               if Ascii.eqb a "~"%char && Ascii.eqb b dquote then
                 match read_literal rest' with
                 | Some (re, after) =>
                     match read_branches re with
                     | Some vs => Some (key, vs, after)
                     | None => None
                     end
                 | None => None
                 end
               else None
           | "" => None
           end
  | _ => None
  end.

(** A comma-separated fragment, matcher by matcher; [fuel] bounds their number. *)
Fixpoint read_fragment (fuel : nat) (s : string) : option (list (string * list string)) :=
  match fuel with
  | 0 => None
  | S fuel =>
      match read_matcher s with
      | None => None
      | Some (key, vs, "") => Some [(key, vs)]
      | Some (key, vs, String c rest) =>
          if Ascii.eqb c ","%char then
            match read_fragment fuel rest with
            | Some ms => Some ((key, vs) :: ms)
            | None => None
            end
          else None
      end
  end.

(** The matchers a selector means for a query accepting dimensions [d]: per
    dimension the sorted set of its values, with the empty value standing for
    "no such label". *)
Definition meant_values (absent : bool) (values : list string) : list string :=
  normaliseValues values ++ (if absent then [""] else []).
Definition meant (s : Selector) (d : dims) (keys : LabelKeys) : list (string * list string) :=
  let keys := OrDefault keys in
  let one m key absent values :=
    if accepts d m && hasValue values then [(key, meant_values absent values)] else [] in
  one dimAZ (key_AZ keys) false (sel_AZ s) ++
  one dimEnv (key_Env keys) false (sel_Env s) ++
  one dimCluster "cluster" (bool_decide (ClusterUnknownValue ∈ sel_Cluster s)) (sel_Cluster s) ++
  one dimNamespace "namespace" false (sel_Namespace s) ++
  one dimNamespaceOrAbsent "namespace" true (sel_Namespace s).

(** [text] is a rendering of the matcher [m]. *)
Definition reads_as (text : string) (m : string * list string) : Prop :=
  ∀ rest, read_matcher (text +:+ rest) = Some (m.1, m.2, rest).

Lemma cut_key key rest :
  contains_byte "="%char key = false → cut "="%char (key +:+ "=" +:+ rest) = (key, rest, true).
Proof. intros H. rewrite append_char. by apply cut_found. Qed.

Lemma quoted_append v rest : quoted v +:+ rest = String dquote (v +:+ String dquote rest).
Proof. unfold quoted. cbn [String.append]. by rewrite append_assoc. Qed.

Lemma reads_equality key v :
  contains_byte "="%char key = false → reads_as (key +:+ "=" +:+ quoted (escapeLiteral v)) (key, [v]).
Proof.
  intros Hk rest. unfold read_matcher. rewrite !append_assoc, quoted_append, cut_key by done.
  cbn [Ascii.eqb]. rewrite Ascii.eqb_refl, read_escape. done.
Qed.

Lemma reads_alternation key v vs :
  contains_byte "="%char key = false →
  reads_as (key +:+ "=~" +:+ quoted (join "|" (map branch (v :: vs)))) (key, v :: vs).
Proof.
  intros Hk rest. unfold read_matcher.
  change ("=~" +:+ ?x) with ("=" +:+ String "~"%char x).
  rewrite !append_assoc. cbn [String.append]. rewrite <-append_char.
  rewrite quoted_append, cut_key by done.
  change (Ascii.eqb "~"%char dquote) with false. change (Ascii.eqb "~"%char "~"%char) with true.
  rewrite Ascii.eqb_refl. cbn iota. cbn [andb].
  assert (map branch (v :: vs) = map escapeLiteral (map QuoteMeta (v :: vs))) as ->.
  { by rewrite map_map. }
  by rewrite <-escape_join, read_escape, read_alternation.
Qed.

Lemma branch_absent vs : map branch vs ++ [""] = map branch (vs ++ [""]).
Proof. by rewrite map_app. Qed.

Lemma read_fragment_join fuel t ts m ms :
  length ts < fuel → reads_as t m → Forall2 reads_as ts ms →
  read_fragment fuel (join "," (t :: ts)) = Some (m :: ms).
Proof.
  intros Hf Ht Hts. revert fuel t m Hf Ht.
  induction Hts as [|t' m' ts ms Ht' Hts IH]; intros fuel t m Hf Ht;
    (destruct fuel as [|fuel]; [simpl in Hf; lia|]); cbn [read_fragment].
  - specialize (Ht ""). rewrite append_nil_r in Ht. change (join "," [t]) with t.
    rewrite Ht. by destruct m.
  - rewrite join_cons2, append_char, (Ht _). change (Ascii.eqb ","%char ","%char) with true. cbn iota.
    rewrite (IH fuel t' m'); [by destruct m|simpl in Hf; lia|done].
Qed.

(** Appending a dimension appends the text of its matcher, or nothing. *)
Definition appends (f : list string → list string) (ms : list (string * list string)) : Prop :=
  ∃ ts, (∀ dst, f dst = dst ++ ts) ∧ Forall2 reads_as ts ms.

Lemma appends_none : appends (λ dst, dst) [].
Proof. exists []. split; [intros; by rewrite app_nil_r|constructor]. Qed.

Lemma appends_one t m f : (∀ dst, f dst = dst ++ [t]) → reads_as t m → appends f [m].
Proof. intros Hf Hr. exists [t]. split; [done|]. by repeat constructor. Qed.

Lemma appends_if (b : bool) f ms :
  appends f ms → appends (λ dst, if b then f dst else dst) (if b then ms else []).
Proof. intros H. destruct b; [done|apply appends_none]. Qed.

Lemma appends_app f1 f2 ms1 ms2 :
  appends f1 ms1 → appends f2 ms2 → appends (λ dst, f2 (f1 dst)) (ms1 ++ ms2).
Proof.
  intros (t1 & H1 & F1) (t2 & H2 & F2). exists (t1 ++ t2). split; [|by apply Forall2_app].
  intros dst. by rewrite H1, H2, <-app_assoc.
Qed.

Lemma appendMatcher_appends key values :
  contains_byte "="%char key = false →
  appends (λ dst, appendMatcher dst key values)
    (if hasValue values then [(key, meant_values false values)] else []).
Proof.
  intros Hk. unfold appendMatcher, meant_values. rewrite app_nil_r.
  destruct (hasValue values) eqn:Hv.
  - destruct (normaliseValues values) as [|v [|w vs]] eqn:E.
    + apply normaliseValues_nil in E. congruence.
    + eapply appends_one; [done|]. by apply reads_equality.
    + eapply appends_one; [done|]. by apply reads_alternation.
  - apply normaliseValues_nil in Hv. rewrite Hv. apply appends_none.
Qed.

Lemma appendMatcherOrAbsent_appends key values :
  contains_byte "="%char key = false →
  appends (λ dst, appendMatcherOrAbsent dst key values)
    (if hasValue values then [(key, meant_values true values)] else []).
Proof.
  intros Hk. unfold appendMatcherOrAbsent, meant_values.
  destruct (hasValue values) eqn:Hv.
  - destruct (normaliseValues values) as [|v vs] eqn:E.
    + apply normaliseValues_nil in E. congruence.
    + eapply appends_one; [done|]. rewrite branch_absent. by apply (reads_alternation key v (vs ++ [""])).
  - apply normaliseValues_nil in Hv. rewrite Hv. apply appends_none.
Qed.

Lemma appendClusterMatcher_appends values :
  appends (λ dst, appendClusterMatcher dst values)
    (if hasValue values
     then [("cluster", meant_values (bool_decide (ClusterUnknownValue ∈ values)) values)] else []).
Proof.
  unfold appendClusterMatcher, meant_values.
  destruct (hasValue values) eqn:Hv.
  2:{ apply normaliseValues_nil in Hv. rewrite Hv. apply appends_none. }
  assert (existsb (String.eqb ClusterUnknownValue) (normaliseValues values) =
          bool_decide (ClusterUnknownValue ∈ values)) as Hu.
  { apply eq_iff_eq_true. rewrite existsb_exists, bool_decide_eq_true.
    setoid_rewrite String.eqb_eq. setoid_rewrite <- list_elem_of_In.
    setoid_rewrite elem_of_normaliseValues. split; [by intros (x & [? _] & <-)|].
    intros ?. by exists ClusterUnknownValue. }
  rewrite <-Hu. destruct (normaliseValues values) as [|v vs] eqn:E.
  { apply normaliseValues_nil in E. congruence. }
  destruct (existsb (String.eqb ClusterUnknownValue) (v :: vs)) eqn:Ex; cbn [negb].
  - eapply appends_one; [done|]. rewrite branch_absent.
    by apply (reads_alternation "cluster" v (vs ++ [""])).
  - rewrite <-E. pose proof (appendMatcher_appends "cluster" (normaliseValues values) eq_refl) as H.
    assert (hasValue (normaliseValues values) = true) as Hv'.
    { destruct (hasValue (normaliseValues values)) eqn:E'; [done|].
      apply normaliseValues_nil in E'. rewrite normaliseValues_idem in E'. congruence. }
    rewrite Hv' in H. unfold meant_values in H. by rewrite normaliseValues_idem in H.
Qed.

Lemma andb_if (a b : bool) {A} (x : list A) :
  (if a && b then x else []) = (if a then if b then x else [] else []).
Proof. by destruct a, b. Qed.

(** A label key a deployment may configure: it holds no equals sign. *)
Definition plain_keys (keys : LabelKeys) : Prop :=
  contains_byte "="%char (key_AZ keys) = false ∧ contains_byte "="%char (key_Env keys) = false.

Lemma plain_OrDefault keys : plain_keys keys → plain_keys (OrDefault keys).
Proof. intros [??]. unfold OrDefault. split; simpl; by case_bool_decide. Qed.

Lemma render_texts s d keys :
  plain_keys keys →
  ∃ ts, render s d keys = join "," ts ∧ Forall2 reads_as ts (meant s d keys).
Proof.
  intros [Haz Henv]%plain_OrDefault. unfold render, meant.
  destruct (N.eqb_spec d 0) as [->|_]; [by exists []|].
  set (k := OrDefault keys) in *. cbv zeta. rewrite !andb_if.
  pose proof (appends_if (accepts d dimAZ) _ _ (appendMatcher_appends _ (sel_AZ s) Haz)) as H1.
  pose proof (appends_if (accepts d dimEnv) _ _ (appendMatcher_appends _ (sel_Env s) Henv)) as H2.
  pose proof (appends_if (accepts d dimCluster) _ _ (appendClusterMatcher_appends (sel_Cluster s))) as H3.
  pose proof (appends_if (accepts d dimNamespace) _ _
    (appendMatcher_appends "namespace" (sel_Namespace s) eq_refl)) as H4.
  pose proof (appends_if (accepts d dimNamespaceOrAbsent) _ _
    (appendMatcherOrAbsent_appends "namespace" (sel_Namespace s) eq_refl)) as H5.
  destruct (appends_app _ _ _ _ (appends_app _ _ _ _ (appends_app _ _ _ _
    (appends_app _ _ _ _ H1 H2) H3) H4) H5) as (ts & Hts & HF).
  exists ts. specialize (Hts []). cbn beta in Hts. rewrite Hts. split; [done|].
  by rewrite <- !app_assoc in HF.
Qed.

(** C40: a rendered fragment means exactly the request: read back as PromQL
    matchers it gives, per accepted dimension, the sorted set of the
    non-empty values (with the absent-label alternative where the dimension
    has one) and nothing else, so no value, whatever bytes it holds, can close
    its literal, add a matcher or act as a regular expression. The reader takes raw
    newlines and invalid UTF-8 inside a literal, which PromQL refuses and the request
    parser turns away before they get here. *)
Theorem render_reads_back s d keys :
  plain_keys keys →
  match meant s d keys with
  | [] => render s d keys = ""
  | ms => read_fragment 6 (render s d keys) = Some ms
  end.
Proof.
  intros (ts & -> & HF)%(render_texts s d).
  assert (length (meant s d keys) ≤ 5) as Hlen.
  { unfold meant. rewrite !length_app. repeat destruct (_ && _); simpl; lia. }
  destruct HF as [|t m ts ms Ht HF]; [done|].
  apply read_fragment_join; [|done|done]. apply Forall2_length in HF. simpl in Hlen. lia.
Qed.

(** Rendering is canonical: two selectors with the same sets of non-empty
    values per dimension render byte-identical fragments, so equal requests
    share upstream results. *)
Theorem render_canonical s1 s2 d keys :
  (∀ v, v ≠ "" → v ∈ sel_AZ s1 ↔ v ∈ sel_AZ s2) →
  (∀ v, v ≠ "" → v ∈ sel_Env s1 ↔ v ∈ sel_Env s2) →
  (∀ v, v ≠ "" → v ∈ sel_Cluster s1 ↔ v ∈ sel_Cluster s2) →
  (∀ v, v ≠ "" → v ∈ sel_Namespace s1 ↔ v ∈ sel_Namespace s2) →
  render s1 d keys = render s2 d keys ∧ Active s1 = Active s2.
Proof.
  intros Ha%normaliseValues_ext He%normaliseValues_ext Hc%normaliseValues_ext Hn%normaliseValues_ext.
  assert (∀ v1 v2, normaliseValues v1 = normaliseValues v2 → hasValue v1 = hasValue v2) as Hv.
  { intros v1 v2 H. pose proof (normaliseValues_nil v1) as H1. pose proof (normaliseValues_nil v2) as H2.
    rewrite H in H1. destruct (hasValue v1), (hasValue v2); intuition congruence. }
  unfold render, Active, appendMatcher, appendClusterMatcher, appendMatcherOrAbsent.
  rewrite Ha, He, Hc, Hn, (Hv _ _ Ha), (Hv _ _ He), (Hv _ _ Hc), (Hv _ _ Hn). done.
Qed.

(** A value built to break out of its literal and of its branch. *)
Definition hostile : string := "a|b" +:+ String dquote (",x=" +:+ String backslash ".*").

Lemma render_reads_back_witness :
  plain_keys DefaultLabelKeys ∧
  read_fragment 6 (render (mkSelector [hostile; ""; "z"] [] ["unknown"] []) dimsNamespaced
                     DefaultLabelKeys)
  = Some [("az", [hostile; "z"]); ("cluster", ["unknown"; ""])].
Proof.
  split; [split; reflexivity|].
  exact (render_reads_back (mkSelector [hostile; ""; "z"] [] ["unknown"] []) dimsNamespaced
           DefaultLabelKeys (conj eq_refl eq_refl)).
Defined.

Lemma render_canonical_witness :
  render (mkSelector ["b"; "a"; "b"] [] [] []) dimsNamespaced DefaultLabelKeys =
  render (mkSelector ["a"; ""; "b"] [] [] []) dimsNamespaced DefaultLabelKeys.
Proof.
  refine (proj1 (render_canonical _ _ _ _ _ _ _ _)); try done.
  intros v Hv. cbn [sel_AZ]. rewrite !elem_of_cons, !elem_of_nil. tauto.
Defined.
