(* ===== verification/Queries.v ===== *)
(** pkg/promql/queries.go: the upstream series the program reads, which request
    dimensions reach which series, the upstream family of each, the fixed
    selectors, and the rendering of a query. The tables are the source's maps,
    entry by entry. *)

From S2P Require Import Prelude GoStrings Float64 PromStrings Selector.
From stdpp Require Import pretty.

(** pkg/promql/queries.go@19-19, [Query]: a metric name. *)
Definition Query : Type := string.

(** pkg/promql/queries.go@22-22, [QPodInfo] *)
Definition QPodInfo : Query := "kube_pod_info".
(** pkg/promql/queries.go@23-23, [QNodeInfo] *)
Definition QNodeInfo : Query := "kube_node_info".
(** pkg/promql/queries.go@24-24, [QNodeAddresses] *)
Definition QNodeAddresses : Query := "kube_node_status_addresses".
(** pkg/promql/queries.go@25-25, [QPVCBindings] *)
Definition QPVCBindings : Query := "kube_pod_spec_volumes_persistentvolumeclaims_info".
(** pkg/promql/queries.go@26-26, [QNodeLabels] *)
Definition QNodeLabels : Query := "kube_node_labels".
(** pkg/promql/queries.go@27-27, [QServiceGraphTotal] *)
Definition QServiceGraphTotal : Query := "traces_service_graph_request_total".
(** pkg/promql/queries.go@32-32, [QServiceGraphFailedTotal] *)
Definition QServiceGraphFailedTotal : Query := "traces_service_graph_request_failed_total".
(** pkg/promql/queries.go@39-39, [QServiceGraphServerSecondsBucket] *)
Definition QServiceGraphServerSecondsBucket : Query := "traces_service_graph_request_server_seconds_bucket".
(** pkg/promql/queries.go@40-40, [QUpProbe] *)
Definition QUpProbe : Query := "up".
(** pkg/promql/queries.go@43-43, [QServiceInfo] *)
Definition QServiceInfo : Query := "kube_service_info".
(** pkg/promql/queries.go@44-44, [QEndpointSliceEndpoints] *)
Definition QEndpointSliceEndpoints : Query := "kube_endpointslice_endpoints".
(** pkg/promql/queries.go@45-45, [QEndpointSliceLabels] *)
Definition QEndpointSliceLabels : Query := "kube_endpointslice_labels".
(** pkg/promql/queries.go@55-55, [QPodOwner] *)
Definition QPodOwner : Query := "kube_pod_owner".
(** pkg/promql/queries.go@56-56, [QReplicaSetOwner] *)
Definition QReplicaSetOwner : Query := "kube_replicaset_owner".
(** pkg/promql/queries.go@74-74, [QJobOwner] *)
Definition QJobOwner : Query := "kube_job_owner".
(** pkg/promql/queries.go@84-84, [QPVCInfo] *)
Definition QPVCInfo : Query := "kube_persistentvolumeclaim_info".
(** pkg/promql/queries.go@91-91, [QPodContainerInfo] *)
Definition QPodContainerInfo : Query := "kube_pod_container_info".
(** pkg/promql/queries.go@103-103, [QNodeStatusCondition] *)
Definition QNodeStatusCondition : Query := "kube_node_status_condition".
(** pkg/promql/queries.go@115-115, [QServiceAnnotations] *)
Definition QServiceAnnotations : Query := "kube_service_annotations".
(** pkg/promql/queries.go@116-116, [QPVCAnnotations] *)
Definition QPVCAnnotations : Query := "kube_persistentvolumeclaim_annotations".
(** pkg/promql/queries.go@156-156, [QDeploymentAnnotations] *)
Definition QDeploymentAnnotations : Query := "kube_deployment_annotations".
(** pkg/promql/queries.go@157-157, [QStatefulSetAnnotations] *)
Definition QStatefulSetAnnotations : Query := "kube_statefulset_annotations".
(** pkg/promql/queries.go@158-158, [QDaemonSetAnnotations] *)
Definition QDaemonSetAnnotations : Query := "kube_daemonset_annotations".
(** pkg/promql/queries.go@159-159, [QReplicaSetAnnotations] *)
Definition QReplicaSetAnnotations : Query := "kube_replicaset_annotations".
(** pkg/promql/queries.go@160-160, [QJobAnnotations] *)
Definition QJobAnnotations : Query := "kube_job_annotations".
(** pkg/promql/queries.go@161-161, [QCronJobAnnotations] *)
Definition QCronJobAnnotations : Query := "kube_cronjob_annotations".
(** pkg/promql/queries.go@172-172, [QVolumeLabels] *)
Definition QVolumeLabels : Query := "volume_labels".
(** pkg/promql/queries.go@184-184, [QQoSReadOps] *)
Definition QQoSReadOps : Query := "qos_read_ops".
(** pkg/promql/queries.go@185-185, [QQoSWriteOps] *)
Definition QQoSWriteOps : Query := "qos_write_ops".
(** pkg/promql/queries.go@186-186, [QQoSReadLatency] *)
Definition QQoSReadLatency : Query := "qos_read_latency".
(** pkg/promql/queries.go@187-187, [QQoSWriteLatency] *)
Definition QQoSWriteLatency : Query := "qos_write_latency".
(** pkg/promql/queries.go@188-188, [QQoSReadData] *)
Definition QQoSReadData : Query := "qos_read_data".
(** pkg/promql/queries.go@189-189, [QQoSWriteData] *)
Definition QQoSWriteData : Query := "qos_write_data".
(** pkg/promql/queries.go@197-197, [QQoSPolicyFixedMaxIOPS] *)
Definition QQoSPolicyFixedMaxIOPS : Query := "qos_policy_fixed_max_throughput_iops".
(** pkg/promql/queries.go@198-198, [QQoSPolicyFixedMaxMBps] *)
Definition QQoSPolicyFixedMaxMBps : Query := "qos_policy_fixed_max_throughput_mbps".
(** pkg/promql/queries.go@203-203, [QAggrStatus] *)
Definition QAggrStatus : Query := "aggr_new_status".
(** pkg/promql/queries.go@204-204, [QAggrSpaceUsed] *)
Definition QAggrSpaceUsed : Query := "aggr_space_used".
(** pkg/promql/queries.go@205-205, [QAggrSpaceTotal] *)
Definition QAggrSpaceTotal : Query := "aggr_space_total".
(** pkg/promql/queries.go@206-206, [QNetAppNodeStatus] *)
Definition QNetAppNodeStatus : Query := "node_new_status".
(** pkg/promql/queries.go@215-215, [QNetAppNodeLabels] *)
Definition QNetAppNodeLabels : Query := "node_labels".
(** pkg/promql/queries.go@230-230, [QNetAppNodeCPUBusy] *)
Definition QNetAppNodeCPUBusy : Query := "node_cpu_busy".
(** pkg/promql/queries.go@231-231, [QNetAppNodeTotalOps] *)
Definition QNetAppNodeTotalOps : Query := "node_total_ops".
(** pkg/promql/queries.go@232-232, [QNetAppNodeTotalLatency] *)
Definition QNetAppNodeTotalLatency : Query := "node_total_latency".
(** pkg/promql/queries.go@233-233, [QNetAppNodeTotalData] *)
Definition QNetAppNodeTotalData : Query := "node_total_data".
(** pkg/promql/queries.go@238-238, [QKubeletVolumeUsedBytes] *)
Definition QKubeletVolumeUsedBytes : Query := "kubelet_volume_stats_used_bytes".
(** pkg/promql/queries.go@239-239, [QKubeletVolumeCapacityBytes] *)
Definition QKubeletVolumeCapacityBytes : Query := "kubelet_volume_stats_capacity_bytes".
(** pkg/promql/queries.go@257-257, [QAlerts] *)
Definition QAlerts : Query := "ALERTS".
(** pkg/promql/queries.go@265-265, [QAppMetadata] *)
Definition QAppMetadata : Query := "app_metadata".

(** Every query the package declares. *)
Definition all_queries : list Query := [
  QPodInfo; QNodeInfo; QNodeAddresses; QPVCBindings; QNodeLabels; QServiceGraphTotal;
  QServiceGraphFailedTotal; QServiceGraphServerSecondsBucket; QUpProbe; QServiceInfo;
  QEndpointSliceEndpoints; QEndpointSliceLabels; QPodOwner; QReplicaSetOwner; QJobOwner;
  QPVCInfo; QPodContainerInfo; QNodeStatusCondition; QServiceAnnotations; QPVCAnnotations;
  QDeploymentAnnotations; QStatefulSetAnnotations; QDaemonSetAnnotations;
  QReplicaSetAnnotations; QJobAnnotations; QCronJobAnnotations; QVolumeLabels; QQoSReadOps;
  QQoSWriteOps; QQoSReadLatency; QQoSWriteLatency; QQoSReadData; QQoSWriteData;
  QQoSPolicyFixedMaxIOPS; QQoSPolicyFixedMaxMBps; QAggrStatus; QAggrSpaceUsed; QAggrSpaceTotal;
  QNetAppNodeStatus; QNetAppNodeLabels; QNetAppNodeCPUBusy; QNetAppNodeTotalOps;
  QNetAppNodeTotalLatency; QNetAppNodeTotalData; QKubeletVolumeUsedBytes;
  QKubeletVolumeCapacityBytes; QAlerts; QAppMetadata
].

(** pkg/promql/queries.go@293-362, [queryDims]: absent reads as 0. *)
Definition queryDims_table : list (Query * dims) := [
  (QPodInfo, dimsNamespaced); (QPVCBindings, dimsNamespaced); (QServiceInfo, dimsNamespaced);
  (QEndpointSliceEndpoints, dimsNamespaced); (QEndpointSliceLabels, dimsNamespaced);
  (QPodOwner, dimsNamespaced); (QReplicaSetOwner, dimsNamespaced); (QJobOwner, dimsNamespaced);
  (QPVCInfo, dimsNamespaced); (QPodContainerInfo, dimsNamespaced);
  (QServiceAnnotations, dimsNamespaced); (QPVCAnnotations, dimsNamespaced);
  (QDeploymentAnnotations, dimsNamespaced); (QStatefulSetAnnotations, dimsNamespaced);
  (QDaemonSetAnnotations, dimsNamespaced); (QReplicaSetAnnotations, dimsNamespaced);
  (QJobAnnotations, dimsNamespaced); (QCronJobAnnotations, dimsNamespaced);
  (QKubeletVolumeUsedBytes, dimsNamespaced); (QKubeletVolumeCapacityBytes, dimsNamespaced);
  (QNodeInfo, dimsClusterScoped); (QNodeAddresses, dimsClusterScoped);
  (QNodeLabels, dimsClusterScoped); (QNodeStatusCondition, dimsClusterScoped);
  (QVolumeLabels, dimsHarvest); (QQoSReadOps, dimsHarvest); (QQoSWriteOps, dimsHarvest);
  (QQoSReadLatency, dimsHarvest); (QQoSWriteLatency, dimsHarvest); (QQoSReadData, dimsHarvest);
  (QQoSWriteData, dimsHarvest); (QQoSPolicyFixedMaxIOPS, dimsHarvest);
  (QQoSPolicyFixedMaxMBps, dimsHarvest); (QAggrStatus, dimsHarvest);
  (QAggrSpaceUsed, dimsHarvest); (QAggrSpaceTotal, dimsHarvest);
  (QNetAppNodeStatus, dimsHarvest); (QNetAppNodeLabels, dimsHarvest);
  (QNetAppNodeCPUBusy, dimsHarvest); (QNetAppNodeTotalOps, dimsHarvest);
  (QNetAppNodeTotalLatency, dimsHarvest); (QNetAppNodeTotalData, dimsHarvest);
  (QAlerts, dimsAlerts); (QAppMetadata, dimsNamespaced); (QServiceGraphTotal, dimsNone);
  (QServiceGraphFailedTotal, dimsNone); (QServiceGraphServerSecondsBucket, dimsNone);
  (QUpProbe, dimsNone)
].
Definition queryDims_map : gmap string dims := list_to_map queryDims_table.
(** pkg/promql/queries.go@293-362, [queryDims] *)
Definition queryDims (q : Query) : dims := default 0%N (queryDims_map !! q).

(** pkg/promql/queries.go@373-373, [Family] *)
Definition Family : Type := string.
(** pkg/promql/queries.go@378-378, [FamilyKSM] *)
Definition FamilyKSM : Family := "ksm".
(** pkg/promql/queries.go@382-382, [FamilyKubelet] *)
Definition FamilyKubelet : Family := "kubelet".
(** pkg/promql/queries.go@386-386, [FamilyHarvest] *)
Definition FamilyHarvest : Family := "harvest".
(** pkg/promql/queries.go@388-388, [FamilyServiceGraph] *)
Definition FamilyServiceGraph : Family := "servicegraph".
(** pkg/promql/queries.go@390-390, [FamilyProbe] *)
Definition FamilyProbe : Family := "probe".
(** pkg/promql/queries.go@395-395, [FamilyAlerts] *)
Definition FamilyAlerts : Family := "alerts".
(** pkg/promql/queries.go@400-400, [FamilyAppMeta] *)
Definition FamilyAppMeta : Family := "appmeta".

(** pkg/promql/queries.go, [Families] *)
Definition Families : list Family :=
  [FamilyKSM; FamilyKubelet; FamilyHarvest; FamilyServiceGraph; FamilyProbe; FamilyAlerts;
   FamilyAppMeta].
(** pkg/promql/queries.go, [requiredFamilies] *)
Definition requiredFamilies : list Family :=
  [FamilyKSM; FamilyKubelet; FamilyHarvest; FamilyServiceGraph; FamilyProbe].
(** pkg/promql/queries.go, [Family.Optional] *)
Definition Optional (f : Family) : bool := negb (bool_decide (f ∈ requiredFamilies)).
(** pkg/promql/queries.go, [ParseFamily] *)
Definition ParseFamily (s : string) : option Family :=
  if bool_decide (s ∈ Families) then Some s else None.

(** pkg/promql/queries.go@468-530, [queryFamily] *)
Definition queryFamily_table : list (Query * Family) := [
  (QPodInfo, FamilyKSM); (QNodeInfo, FamilyKSM); (QNodeAddresses, FamilyKSM);
  (QNodeLabels, FamilyKSM); (QNodeStatusCondition, FamilyKSM); (QPVCBindings, FamilyKSM);
  (QPVCInfo, FamilyKSM); (QPVCAnnotations, FamilyKSM); (QServiceInfo, FamilyKSM);
  (QServiceAnnotations, FamilyKSM); (QEndpointSliceEndpoints, FamilyKSM);
  (QEndpointSliceLabels, FamilyKSM); (QPodOwner, FamilyKSM); (QReplicaSetOwner, FamilyKSM);
  (QJobOwner, FamilyKSM); (QPodContainerInfo, FamilyKSM); (QDeploymentAnnotations, FamilyKSM);
  (QStatefulSetAnnotations, FamilyKSM); (QDaemonSetAnnotations, FamilyKSM);
  (QReplicaSetAnnotations, FamilyKSM); (QJobAnnotations, FamilyKSM);
  (QCronJobAnnotations, FamilyKSM); (QKubeletVolumeUsedBytes, FamilyKubelet);
  (QKubeletVolumeCapacityBytes, FamilyKubelet); (QVolumeLabels, FamilyHarvest);
  (QQoSReadOps, FamilyHarvest); (QQoSWriteOps, FamilyHarvest);
  (QQoSReadLatency, FamilyHarvest); (QQoSWriteLatency, FamilyHarvest);
  (QQoSReadData, FamilyHarvest); (QQoSWriteData, FamilyHarvest);
  (QQoSPolicyFixedMaxIOPS, FamilyHarvest); (QQoSPolicyFixedMaxMBps, FamilyHarvest);
  (QAggrStatus, FamilyHarvest); (QAggrSpaceUsed, FamilyHarvest);
  (QAggrSpaceTotal, FamilyHarvest); (QNetAppNodeStatus, FamilyHarvest);
  (QNetAppNodeLabels, FamilyHarvest); (QNetAppNodeCPUBusy, FamilyHarvest);
  (QNetAppNodeTotalOps, FamilyHarvest); (QNetAppNodeTotalLatency, FamilyHarvest);
  (QNetAppNodeTotalData, FamilyHarvest); (QServiceGraphTotal, FamilyServiceGraph);
  (QServiceGraphFailedTotal, FamilyServiceGraph);
  (QServiceGraphServerSecondsBucket, FamilyServiceGraph); (QUpProbe, FamilyProbe);
  (QAlerts, FamilyAlerts); (QAppMetadata, FamilyAppMeta)
].
Definition queryFamily_map : gmap string Family := list_to_map queryFamily_table.

(** pkg/promql/queries.go, [FamilyOf] *)
Definition FamilyOf (q : Query) : option Family := queryFamily_map !! q.

(** One entry of the loop of [buildFamilyDim]. *)
Definition family_dim_step (mask : dims) (qf : Query * Family) (out : gmap string bool)
  : gmap string bool :=
  let '(q, f) := qf in
  let set := accepts (queryDims q) mask in
  match out !! f with
  | None => <[f := set]> out
  | Some b => <[f := b && set]> out
  end.

(** pkg/promql/queries.go, [buildFamilyDim] *)
Definition buildFamilyDim (mask : dims) : gmap string bool :=
  foldr (family_dim_step mask) ∅ (map_to_list queryFamily_map).

(** pkg/promql/queries.go@554-554, [familyAcceptsAZ] *)
Definition familyAcceptsAZ : gmap string bool := buildFamilyDim (N.lor dimAZ dimAZRoute).
(** pkg/promql/queries.go, [Family.AcceptsAZ] *)
Definition AcceptsAZ (f : Family) : bool := default false (familyAcceptsAZ !! f).
(** pkg/promql/queries.go@590-590, [familyRendersAZ] *)
Definition familyRendersAZ : gmap string bool := buildFamilyDim dimAZ.
(** pkg/promql/queries.go, [Family.RendersAZ] *)
Definition RendersAZ (f : Family) : bool := default false (familyRendersAZ !! f).

(** pkg/promql/queries.go@604-604, [HarvestVolumeLabel] *)
Definition HarvestVolumeLabel := "volume".

(** ** Fixed selectors *)

(** pkg/promql/queries.go@611-611, [jobOwnerCronJobSelector] *)
Definition jobOwnerCronJobSelector : string :=
  "owner_kind=" +:+ quoted "CronJob" +:+ ",owner_is_controller=" +:+ quoted "true".
(** pkg/promql/queries.go@627-627, [argoTrackingIDPresentSelector] *)
Definition argoTrackingIDPresentSelector : string :=
  "annotation_argocd_argoproj_io_tracking_id!=" +:+ quoted "".
(** pkg/promql/queries.go@676-676, [alertsFiringSelector] *)
Definition alertsFiringSelector : string := "alertstate=" +:+ quoted "firing".
(** pkg/promql/queries.go@703-703, [serviceGraphSentinelSelector] *)
Definition serviceGraphSentinelSelector : string :=
  "client!~" +:+ quoted "user|unknown" +:+ ",server!~" +:+ quoted "user".
(** pkg/promql/queries.go@731-731, [serviceGraphLinkExclusionSelector] *)
Definition serviceGraphLinkExclusionSelector : string := "edge_relation!=" +:+ quoted "link".
(** pkg/promql/queries.go@739-739, [serviceGraphFailedSelector] *)
Definition serviceGraphFailedSelector : string :=
  serviceGraphSentinelSelector +:+ "," +:+ serviceGraphLinkExclusionSelector.
(** pkg/promql/queries.go@740-740, [serviceGraphBucketSelector] *)
Definition serviceGraphBucketSelector : string :=
  serviceGraphSentinelSelector +:+ "," +:+ serviceGraphLinkExclusionSelector.

(** pkg/promql/queries.go@751-765, [fixedSelector]: absent reads as "". *)
Definition fixedSelector_table : list (Query * string) := [
  (QNodeAddresses, "type=~" +:+ quoted "ExternalIP|InternalIP");
  (QNodeStatusCondition, "condition=" +:+ quoted "Ready");
  (QJobOwner, jobOwnerCronJobSelector);
  (QDeploymentAnnotations, argoTrackingIDPresentSelector);
  (QStatefulSetAnnotations, argoTrackingIDPresentSelector);
  (QDaemonSetAnnotations, argoTrackingIDPresentSelector);
  (QReplicaSetAnnotations, argoTrackingIDPresentSelector);
  (QJobAnnotations, argoTrackingIDPresentSelector);
  (QCronJobAnnotations, argoTrackingIDPresentSelector); (QAlerts, alertsFiringSelector);
  (QServiceGraphTotal, serviceGraphSentinelSelector);
  (QServiceGraphFailedTotal, serviceGraphFailedSelector);
  (QServiceGraphServerSecondsBucket, serviceGraphBucketSelector)
].
Definition fixedSelector_map : gmap string string := list_to_map fixedSelector_table.
(** pkg/promql/queries.go@751-765, [fixedSelector] *)
Definition fixedSelector (q : Query) : string := default "" (fixedSelector_map !! q).

(** ** Rendering *)

(** One second, minute and hour in nanoseconds. *)
Definition Second : Z := 1000000000%Z.
Definition Minute : Z := 60000000000%Z.
Definition Hour : Z := 3600000000000%Z.

(** [int64(d.Seconds())]: whole seconds plus the fraction, in binary64,
    truncated. *)
Definition seconds_of (d : Z) : Z :=
  f_trunc (fadd (f_of_Z (Z.quot d Second)) (fdiv (f_of_Z (Z.rem d Second)) (f_of_Z 1000000000))).

(** pkg/promql/client.go, [FormatDuration]: [d] in nanoseconds. *)
Definition FormatDuration (d : Z) : string :=
  if (d <=? 0)%Z then "0s"
  else if (Z.rem d Hour =? 0)%Z then pretty (Z.quot d Hour) +:+ "h"
  else if (Z.rem d Minute =? 0)%Z then pretty (Z.quot d Minute) +:+ "m"
  else
    let secs := seconds_of d in
    let secs := if (secs <? 1)%Z then 1%Z else secs in
    pretty secs +:+ "s".

(** pkg/promql/queries.go, [selectorBraces] *)
Definition selectorBraces (q : Query) (keys : LabelKeys) (sel : Selector) : string :=
  let fixed := fixedSelector q in
  let req := render sel (queryDims q) keys in
  if bool_decide (fixed = "") && bool_decide (req = "") then ""
  else if bool_decide (req = "") then "{" +:+ fixed +:+ "}"
  else if bool_decide (fixed = "") then "{" +:+ req +:+ "}"
  else "{" +:+ fixed +:+ "," +:+ req +:+ "}".

(** pkg/promql/queries.go, [RenderAlertsPortable] *)
Definition RenderAlertsPortable (window : Z) (keys : LabelKeys) (sel : Selector) : string :=
  "last_over_time(ALERTS" +:+ selectorBraces QAlerts keys sel +:+ "[" +:+ FormatDuration window +:+ "])".

(** The queries whose case of [Render] is [last_over_time] over the metric of
    that name (the case spells the name out, or passes [q]). *)
Definition last_over_time_queries : list Query := [
  QPodInfo; QNodeInfo; QNodeAddresses; QPVCBindings; QNodeLabels; QServiceInfo;
  QEndpointSliceEndpoints; QEndpointSliceLabels; QPodOwner; QReplicaSetOwner; QJobOwner; QPVCInfo;
  QNodeStatusCondition; QServiceAnnotations; QPVCAnnotations; QDeploymentAnnotations;
  QStatefulSetAnnotations; QDaemonSetAnnotations; QReplicaSetAnnotations; QJobAnnotations;
  QCronJobAnnotations; QVolumeLabels; QQoSReadOps; QQoSWriteOps; QQoSReadLatency;
  QQoSWriteLatency; QQoSReadData; QQoSWriteData; QQoSPolicyFixedMaxIOPS; QQoSPolicyFixedMaxMBps;
  QAggrStatus; QAggrSpaceUsed; QAggrSpaceTotal; QNetAppNodeStatus; QNetAppNodeLabels;
  QNetAppNodeCPUBusy; QNetAppNodeTotalOps; QNetAppNodeTotalLatency; QNetAppNodeTotalData;
  QKubeletVolumeUsedBytes; QKubeletVolumeCapacityBytes
].

(** [fmt.Sprintf("f(%s%s[%s])", metric, fx, w)] *)
Definition over (f metric fx w : string) : string :=
  f +:+ "(" +:+ metric +:+ fx +:+ "[" +:+ w +:+ "])".

(** pkg/promql/queries.go, [Render] *)
Definition Render (q : Query) (window : Z) (keys : LabelKeys) (sel : Selector) : string :=
  let w := FormatDuration window in
  let fx := selectorBraces q keys sel in
  if bool_decide (q ∈ last_over_time_queries) then over "last_over_time" q fx w
  else if bool_decide (q = QPodContainerInfo) then over "tlast_over_time" q fx w
  else if bool_decide (q = QServiceGraphTotal) || bool_decide (q = QServiceGraphFailedTotal) ||
          bool_decide (q = QServiceGraphServerSecondsBucket) then over "rate" q fx w
  else if bool_decide (q = QAlerts) then over "tlast_over_time" q fx w
  else if bool_decide (q = QUpProbe) then "up"
  else "".

(** pkg/promql/selector.go, [Selector.Reaches] *)
Definition Reaches (s : Selector) (q : Query) : bool :=
  let d := queryDims q in
  (accepts d dimAZ && hasValue (sel_AZ s)) ||
  (accepts d dimEnv && hasValue (sel_Env s)) ||
  (accepts d dimCluster && hasValue (sel_Cluster s)) ||
  (accepts d (N.lor dimNamespace dimNamespaceOrAbsent) && hasValue (sel_Namespace s)).

(** ** The tables *)

Lemma accepts_lor d m1 m2 : accepts d (N.lor m1 m2) = accepts d m1 || accepts d m2.
Proof.
  unfold accepts. rewrite N.land_lor_distr_r. rewrite <-negb_andb. f_equal.
  apply eq_iff_eq_true. rewrite andb_true_iff, !N.eqb_eq, N.lor_eq_0_iff. done.
Qed.

(** The three tables fit together: every declared query has its
    dimensions and exactly one family, the tables name no other query, and
    every query of a family agrees with the family on zone routing and on
    rendering an az matcher, so routing by family never drops a zone a query
    needs nor asks a store the request excludes. *)
Theorem tables_consistent :
  NoDup all_queries ∧
  (∀ q, q ∈ all_queries ↔ is_Some (queryDims_map !! q)) ∧
  (∀ q, q ∈ all_queries ↔ is_Some (FamilyOf q)) ∧
  (∀ q, is_Some (fixedSelector_map !! q) → q ∈ all_queries) ∧
  (∀ q f, FamilyOf q = Some f →
     f ∈ Families ∧
     AcceptsAZ f = accepts (queryDims q) (N.lor dimAZ dimAZRoute) ∧
     RendersAZ f = accepts (queryDims q) dimAZ) ∧
  (∀ f, f ∈ requiredFamilies → f ∈ Families).
Proof.
  assert (∀ (A : Type) (m : gmap string A), bool_decide (dom m = list_to_set all_queries) = true →
    ∀ q, q ∈ all_queries ↔ is_Some (m !! q)) as Hdom.
  { intros A m Hm%bool_decide_eq_true q. rewrite <-elem_of_dom, Hm. by rewrite elem_of_list_to_set. }
  split_and!.
  - apply (bool_decide_unpack _). vm_compute. exact I.
  - apply Hdom. vm_compute. reflexivity.
  - apply Hdom. vm_compute. reflexivity.
  - intros q Hq%elem_of_dom.
    assert (dom fixedSelector_map ⊆ (list_to_set all_queries : gset string)) as Hs
      by (apply (bool_decide_unpack _); vm_compute; exact I).
    apply Hs in Hq. by apply elem_of_list_to_set in Hq.
  - intros q f Hf.
    assert (forallb (λ qf : Query * Family,
        bool_decide (qf.2 ∈ Families) &&
        eqb (AcceptsAZ qf.2) (accepts (queryDims qf.1) (N.lor dimAZ dimAZRoute)) &&
        eqb (RendersAZ qf.2) (accepts (queryDims qf.1) dimAZ)) (map_to_list queryFamily_map) = true)
      as Hall by (vm_compute; reflexivity).
    rewrite forallb_forall in Hall. specialize (Hall (q, f)).
    rewrite <- list_elem_of_In, elem_of_map_to_list in Hall. specialize (Hall Hf).
    apply andb_true_iff in Hall as [[H1%bool_decide_eq_true H2%eqb_prop]%andb_true_iff H3%eqb_prop].
    split; [exact H1|]. split; [exact H2|exact H3].
  - intros f Hf. assert (Forall (λ f, f ∈ Families) requiredFamilies) as H
      by (apply (bool_decide_unpack _); vm_compute; exact I).
    rewrite Forall_forall in H. by apply H.
Qed.

(** [Reaches] is what the rendering does: a selector reaches a query
    exactly when it renders a matcher on it, so an empty result is attributed
    to the request only when the request could have caused it. *)
Theorem Reaches_iff_renders s q keys :
  plain_keys keys →
  Reaches s q = true ↔ render s (queryDims q) keys ≠ "".
Proof.
  intros Hk. pose proof (render_texts s (queryDims q) keys Hk) as (ts & Hr & HF).
  assert (render s (queryDims q) keys ≠ "" ↔ meant s (queryDims q) keys ≠ []) as ->.
  { rewrite Hr. destruct HF as [|t m ts ms Ht HF]; [done|]. split; [done|]. intros _.
    intros He. pose proof (read_fragment_join (S (length (t :: ts))) t ts m ms) as Hread.
    rewrite He in Hread. cbn [length] in Hread. specialize (Hread ltac:(lia) Ht HF). done. }
  unfold Reaches, meant. cbv zeta. rewrite accepts_lor.
  destruct (accepts (queryDims q) dimAZ), (accepts (queryDims q) dimEnv),
    (accepts (queryDims q) dimCluster), (accepts (queryDims q) dimNamespace),
    (accepts (queryDims q) dimNamespaceOrAbsent),
    (hasValue (sel_AZ s)), (hasValue (sel_Env s)), (hasValue (sel_Cluster s)),
    (hasValue (sel_Namespace s)); simpl; split; congruence || done.
Qed.

Lemma Reaches_iff_renders_witness :
  plain_keys DefaultLabelKeys ∧
  render (mkSelector [] [] [] ["shop"]) (queryDims QPodInfo) DefaultLabelKeys ≠ "" ∧
  ¬ render (mkSelector [] [] [] ["shop"]) (queryDims QNodeInfo) DefaultLabelKeys ≠ "".
Proof.
  assert (plain_keys DefaultLabelKeys) as Hk by (split; reflexivity).
  split; [exact Hk|]. split.
  - apply (Reaches_iff_renders (mkSelector [] [] [] ["shop"]) QPodInfo DefaultLabelKeys Hk).
    vm_compute. reflexivity.
  - intros H. apply (Reaches_iff_renders (mkSelector [] [] [] ["shop"]) QNodeInfo DefaultLabelKeys Hk) in H.
    vm_compute in H. discriminate H.
Defined.
