(* ===== verification/ScopeChunks.v ===== *)
(** pkg/promql/scope.go and pairscope.go: splitting a large scope into queries
    whose rendered alternations stay inside a byte budget and a value bound. *)

From S2P Require Import Prelude GoStrings PromStrings Selector.

#[local] Open Scope Z_scope.

(** [len(s)] *)
Definition len (s : string) : Z := Z.of_nat (String.length s).
(** [len(l)] *)
Definition llen {A} (l : list A) : Z := Z.of_nat (length l).

(** pkg/promql/scope.go@164-164, [MaxAlternationValues] *)
Definition MaxAlternationValues : Z := 100.

(** The loop of [chunkScope]: the open chunk, its rendered cost, the rest. *)
Fixpoint chunk_loop (budget overhead maxValues : Z) (cur : list string) (used : Z)
    (values : list string) : list (list string) :=
  match values with
  | [] => [cur]
  | v :: rest =>
      let base := len (branch v) + overhead in
      let cost := if bool_decide (cur = []) then base else base + 1 in
      let overBytes := (0 <? budget) && (budget <? used + cost) in
      let overCount := (0 <? maxValues) && (maxValues <=? llen cur) in
      if negb (bool_decide (cur = [])) && (overBytes || overCount)
      then cur :: chunk_loop budget overhead maxValues [v] base rest
      else chunk_loop budget overhead maxValues (cur ++ [v]) (used + cost) rest
  end.

(** pkg/promql/scope.go, [chunkScope] *)
Definition chunkScope (values : list string) (budget overhead maxValues : Z) : list (list string) :=
  match values with
  | [] => []
  | _ => chunk_loop budget (Z.max overhead 0) maxValues [] 0 values
  end.

(** pkg/promql/scope.go, [ChunkScopeWithOverhead] *)
Definition ChunkScopeWithOverhead (values : list string) (budget overhead : Z) : list (list string) :=
  chunkScope values budget overhead MaxAlternationValues.

(** pkg/promql/scope.go, [ChunkScope] *)
Definition ChunkScope (values : list string) (budget : Z) : list (list string) :=
  ChunkScopeWithOverhead values budget 0.

(** pkg/promql/volumelabels.go@125-125, [VolumeTokenBranchOverhead] *)
Definition VolumeTokenBranchOverhead : Z := len ".*".

(** pkg/promql/scope.go, [ChunkSuffixTokenScope] *)
Definition ChunkSuffixTokenScope (tokens : list string) (budget : Z) : list (list string) :=
  chunkScope tokens budget VolumeTokenBranchOverhead 0.

(** pkg/promql/qosscope.go, [ChunkQoSVolumeScope] *)
Definition ChunkQoSVolumeScope (volumes : list string) (budget : Z) : list (list string) :=
  ChunkScope volumes budget.

(** ** Cost *)

(** The bytes of the rendered alternation of a chunk, and the fixed extra of
    each of its branches. *)
Definition alternation (c : list string) : string := join "|" (map branch c).
Definition chunk_cost (overhead : Z) (c : list string) : Z :=
  len (alternation c) + overhead * llen c.

Lemma len_append a b : len (a +:+ b) = len a + len b.
Proof. unfold len. rewrite length_append. lia. Qed.

Lemma join_snoc sep l x : l ≠ [] → join sep (l ++ [x]) = join sep l +:+ sep +:+ x.
Proof.
  induction l as [|y [|z l] IH]; intros Hl; [done|done|].
  change ((y :: z :: l) ++ [x]) with (y :: z :: (l ++ [x])).
  rewrite !join_cons2. change (z :: (l ++ [x])) with ((z :: l) ++ [x]).
  rewrite IH by done. by rewrite !append_assoc.
Qed.

Lemma chunk_cost_nil o : chunk_cost o [] = 0.
Proof. unfold chunk_cost, llen. change (len (alternation [])) with 0. cbn [length]. lia. Qed.

Lemma chunk_cost_snoc o c v :
  chunk_cost o (c ++ [v]) =
  chunk_cost o c + (len (branch v) + o + (if bool_decide (c = []) then 0 else 1)).
Proof.
  unfold chunk_cost, alternation, llen. rewrite length_app, map_app. cbn [map length].
  case_bool_decide as Hc.
  { subst c. change (len (join "|" (map branch [] ++ [branch v]))) with (len (branch v)).
    change (len (join "|" (map branch []))) with 0. cbn [length]. lia. }
  rewrite join_snoc by (by destruct c). rewrite !len_append.
  change (len "|") with 1. lia.
Qed.

(** ** Chunks *)

(** What a chunk respects; a single value is never dropped. *)
Definition chunk_ok (budget overhead maxValues : Z) (c : list string) : Prop :=
  c ≠ [] ∧ (0 < maxValues → llen c ≤ maxValues) ∧
  (0 < budget → llen c = 1 ∨ chunk_cost overhead c ≤ budget).

(** The next chunk starts because its first value did not fit. *)
Fixpoint chunks_tight (budget overhead maxValues : Z) (cs : list (list string)) : Prop :=
  match cs with
  | c :: ((c' :: _) as rest) =>
      (∃ v, head c' = Some v ∧
            ((0 < budget ∧ budget < chunk_cost overhead (c ++ [v])) ∨
             (0 < maxValues ∧ maxValues ≤ llen c))) ∧
      chunks_tight budget overhead maxValues rest
  | _ => True
  end.

Lemma llen_snoc {A} (c : list A) v : llen (c ++ [v]) = llen c + 1.
Proof. unfold llen. rewrite length_app. simpl. lia. Qed.

Lemma llen_pos {A} (c : list A) : c ≠ [] → 1 ≤ llen c.
Proof. destruct c; [done|]. unfold llen. simpl. lia. Qed.

Lemma chunk_loop_spec budget o maxv values cur used :
  used = chunk_cost o cur → (cur = [] ∨ chunk_ok budget o maxv cur) → (cur ≠ [] ∨ values ≠ []) →
  let cs := chunk_loop budget o maxv cur used values in
  concat cs = cur ++ values ∧ Forall (chunk_ok budget o maxv) cs ∧
  chunks_tight budget o maxv cs ∧ (cur ≠ [] → ∃ t, head cs = Some (cur ++ t)).
Proof.
  intros Hused Hcur Hne. revert cur used Hused Hcur Hne.
  induction values as [|v rest IH]; intros cur used Hused Hcur Hne; cbn [chunk_loop].
  { destruct Hne as [Hne|]; [|done]. destruct Hcur as [|Hcur]; [done|].
    split_and!; [done|by constructor|done|]. intros _. exists []. simpl. by rewrite app_nil_r. }
  destruct (negb _ && _) eqn:Ecut.
  - apply andb_true_iff in Ecut as [Hcn Hover].
    apply negb_true_iff, bool_decide_eq_false in Hcn.
    destruct Hcur as [|Hcur]; [done|].
    destruct (IH [v] (len (branch v) + o)) as (H1 & H2 & H3 & H4).
    { unfold chunk_cost, llen. change (len (alternation [v])) with (len (branch v)).
      cbn [length]. lia. }
    { right. unfold chunk_ok, llen. simpl. split_and!; [done|lia|lia]. }
    { by left. }
    destruct H4 as [t Ht]; [done|].
    split_and!.
    + simpl. by rewrite H1.
    + by constructor.
    + cbn [chunks_tight]. destruct (chunk_loop _ _ _ [v] _ rest) as [|c' cs']; [done|].
      split; [|done]. injection Ht as ->. exists v. split; [done|].
      rewrite chunk_cost_snoc. rewrite (bool_decide_eq_false_2 _ Hcn) in Hover |- *.
      apply orb_true_iff in Hover as [Hb|Hm].
      * left. lia.
      * right. lia.
    + intros _. exists []. by rewrite app_nil_r.
  - destruct (IH (cur ++ [v]) (used + (if bool_decide (cur = []) then len (branch v) + o
                                      else len (branch v) + o + 1))) as (H1 & H2 & H3 & H4).
    { rewrite chunk_cost_snoc, Hused. case_bool_decide; lia. }
    { right. destruct (decide (cur = [])) as [->|Hcn].
      - unfold chunk_ok, llen. simpl. split_and!; [done|lia|lia].
      - rewrite (bool_decide_eq_false_2 _ Hcn) in Ecut. simpl in Ecut.
        apply orb_false_iff in Ecut as [Hb Hm].
        assert (chunk_ok budget o maxv cur) as (_ & Hok1 & Hok2) by (by destruct Hcur).
        unfold chunk_ok. rewrite llen_snoc, chunk_cost_snoc, (bool_decide_eq_false_2 _ Hcn).
        split_and!; [by destruct cur|lia|lia]. }
    { left. by destruct cur. }
    split_and!; [rewrite H1; by rewrite <-app_assoc|done|done|].
    intros _. destruct H4 as [t Ht]; [by destruct cur|]. exists (v :: t).
    rewrite Ht. by rewrite <-app_assoc.
Qed.

(** A scope is split without losing, repeating or reordering a value;
    every chunk's rendered alternation, its branches' extra cost included, fits
    the byte budget (a value longer than the budget keeps a chunk of its own)
    and the value bound past which the upstream stops resolving it by lookup;
    and a chunk is closed only when the next value did not fit, so no query is
    issued needlessly. *)
Theorem chunkScope_spec values budget overhead maxValues :
  let o := Z.max overhead 0 in
  let cs := chunkScope values budget overhead maxValues in
  concat cs = values ∧
  Forall (chunk_ok budget o maxValues) cs ∧
  chunks_tight budget o maxValues cs.
Proof.
  unfold chunkScope. destruct values as [|v rest]; [by split_and!|].
  destruct (chunk_loop_spec budget (Z.max overhead 0) maxValues (v :: rest) [] 0)
    as (H1 & H2 & H3 & _); [|by left|by right|done].
  by rewrite chunk_cost_nil.
Qed.
