(* ===== verification/PairScope.v ===== *)
(** pkg/promql/pairscope.go: scopes keyed by (namespace, name). A pair set has
    one canonical form; a chunk's two rendered alternations are each bounded;
    the rows a pair-restricted read returns in excess are dropped. *)

From stdpp Require Import sorting.
From S2P Require Import Prelude GoStrings PromStrings Selector ScopeChunks.

#[local] Open Scope Z_scope.

(** pkg/promql/pairscope.go, [NamePair] *)
Record NamePair := mkNamePair { Namespace : string; Name : string }.

#[export] Instance NamePair_eq_dec : EqDecision NamePair.
Proof. solve_decision. Defined.
#[export] Instance NamePair_countable : Countable NamePair.
Proof.
  by refine (inj_countable' (λ p, (Namespace p, Name p)) (λ '(a, b), mkNamePair a b) _); intros [].
Defined.

(** Both halves non-empty (the filter of [SortedNamePairs]). *)
Definition usable (p : NamePair) : Prop := Namespace p ≠ "" ∧ Name p ≠ "".
#[export] Instance usable_dec p : Decision (usable p).
Proof. unfold usable. apply _. Defined.

(** The comparison [SortedNamePairs] sorts by. *)
Definition pair_compare : NamePair → NamePair → comparison :=
  cmp_lex (on_key Namespace String.compare) (on_key Name String.compare).

(** pkg/promql/pairscope.go, [SortedNamePairs] *)
Definition SortedNamePairs (pairs : list NamePair) : list NamePair :=
  compact (sort_func pair_compare (filter usable pairs)).

(** pkg/promql/scope.go@241-241, [NamespaceLabel] *)
Definition NamespaceLabel := "namespace".

(** The closure [valueCost] of [ChunkNamePairs]. *)
Definition valueCost (v : string) (n : Z) : Z := len (branch v) + (if 0 <? n then 1 else 0).

(** The bytes of [=~], its two quotes included. *)
Definition wrap_len : Z := len ("=~" +:+ quoted "").

(** The wrappers and the comma [ChunkNamePairs] charges a chunk once. *)
Definition pair_wrapper (label : string) : Z :=
  len NamespaceLabel + wrap_len + 1 + len label + wrap_len.

Definition setlen (s : gset string) : Z := Z.of_nat (size s).

(** The loop of [ChunkNamePairs]: the open chunk, its two value sets, its cost. *)
Fixpoint pairs_loop (wrapper budget : Z) (cur : list NamePair) (namespaces names : gset string)
    (used : Z) (sorted : list NamePair) : list (list NamePair) :=
  match sorted with
  | [] => [cur]
  | p :: rest =>
      let add := (if decide (Namespace p ∈ namespaces) then 0
                  else valueCost (Namespace p) (setlen namespaces)) +
                 (if decide (Name p ∈ names) then 0 else valueCost (Name p) (setlen names)) in
      let overCount :=
        (negb (bool_decide (Namespace p ∈ namespaces)) && (MaxAlternationValues <=? setlen namespaces)) ||
        (negb (bool_decide (Name p ∈ names)) && (MaxAlternationValues <=? setlen names)) in
      if negb (bool_decide (cur = [])) && (((0 <? budget) && (budget <? used + add)) || overCount)
      then cur :: pairs_loop wrapper budget [p] {[Namespace p]} {[Name p]}
                    (wrapper + (valueCost (Namespace p) 0 + valueCost (Name p) 0)) rest
      else pairs_loop wrapper budget (cur ++ [p]) ({[Namespace p]} ∪ namespaces)
             ({[Name p]} ∪ names) (used + add) rest
  end.

(** pkg/promql/pairscope.go, [ChunkNamePairs] *)
Definition ChunkNamePairs (pairs : list NamePair) (label : string) (budget : Z)
  : list (list NamePair) :=
  match SortedNamePairs pairs with
  | [] => []
  | sorted => pairs_loop (pair_wrapper label) budget [] ∅ ∅ (pair_wrapper label) sorted
  end.

(** A label set of an upstream sample; an absent label reads as empty. *)
Abbreviation Metric := (gmap string string).
Definition label_of (m : Metric) (l : string) : string := default "" (m !! l).

(** pkg/promql/pairscope.go, [KeepNamePairs]: the samples are what the caller
    shares with the cache, so they are abstract but for their label set. *)
Definition KeepNamePairs {Sample} (metric : Sample → Metric) (rows : list Sample) (label : string)
    (pairs : list NamePair) : list Sample :=
  let want : gset NamePair := list_to_set pairs in
  filter (λ s, mkNamePair (label_of (metric s) NamespaceLabel) (label_of (metric s) label) ∈ want)
         rows.

(** ** Costs *)

(** The bytes of the alternation of a value set. *)
Definition set_cost (s : gset string) : Z := len (alternation (elements s)).
Definition nsof (c : list NamePair) : gset string := list_to_set (map Namespace c).
Definition namesof (c : list NamePair) : gset string := list_to_set (map Name c).
Definition pair_cost (wrapper : Z) (c : list NamePair) : Z :=
  wrapper + set_cost (nsof c) + set_cost (namesof c).

Lemma len_alternation v l :
  len (alternation (v :: l)) = foldr (λ w a, len (branch w) + 1 + a) (len (branch v)) l.
Proof.
  revert v. induction l as [|w l IH]; intros v; [done|].
  unfold alternation in *. cbn [map]. rewrite join_cons2, !len_append.
  change (branch w :: map branch l) with (map branch (w :: l)).
  rewrite IH. cbn [foldr]. change (len "|") with 1.
  clear IH. revert v w. induction l as [|u l IH]; intros v w; simpl; [lia|].
  specialize (IH v w). lia.
Qed.

Lemma len_alternation_sum l :
  len (alternation l) = foldr (λ w a, len (branch w) + a) 0 l + Z.max 0 (llen l - 1).
Proof.
  destruct l as [|v l]; [done|]. rewrite len_alternation. unfold llen.
  induction l as [|w l IH]; cbn [foldr length] in *; lia.
Qed.

Lemma len_alternation_perm l1 l2 : l1 ≡ₚ l2 → len (alternation l1) = len (alternation l2).
Proof.
  intros H. rewrite !len_alternation_sum. unfold llen. rewrite (Permutation_length H). f_equal.
  induction H; cbn [foldr]; lia.
Qed.

Lemma setlen_elements s : setlen s = llen (elements s).
Proof. done. Qed.

Lemma set_cost_add v s :
  set_cost ({[v]} ∪ s) = set_cost s + (if decide (v ∈ s) then 0 else valueCost v (setlen s)).
Proof.
  destruct (decide (v ∈ s)) as [Hin|Hin].
  - assert ({[v]} ∪ s = s) as -> by set_solver. lia.
  - unfold set_cost. rewrite (len_alternation_perm _ (v :: elements s)).
    2: by apply elements_union_singleton.
    rewrite !len_alternation_sum, setlen_elements. unfold valueCost, llen. cbn [foldr length].
    destruct (Z.ltb_spec 0 (Z.of_nat (length (elements s)))); lia.
Qed.

Lemma setlen_add v s : setlen ({[v]} ∪ s) = setlen s + (if decide (v ∈ s) then 0 else 1).
Proof.
  destruct (decide (v ∈ s)) as [Hin|Hin].
  - assert ({[v]} ∪ s = s) as -> by set_solver. lia.
  - unfold setlen. rewrite size_union by set_solver. rewrite size_singleton. lia.
Qed.

Lemma setlen_nonneg s : 0 ≤ setlen s.
Proof. unfold setlen. lia. Qed.

Lemma nsof_snoc c p : nsof (c ++ [p]) = {[Namespace p]} ∪ nsof c.
Proof. unfold nsof. apply leibniz_equiv. rewrite map_app, list_to_set_app. set_solver. Qed.
Lemma namesof_snoc c p : namesof (c ++ [p]) = {[Name p]} ∪ namesof c.
Proof. unfold namesof. apply leibniz_equiv. rewrite map_app, list_to_set_app. set_solver. Qed.

Lemma set_cost_single v : set_cost {[v]} = valueCost v 0.
Proof. unfold set_cost. rewrite elements_singleton. unfold valueCost. simpl.
  change (alternation [v]) with (branch v). lia. Qed.

Lemma nsof_single p : nsof [p] = {[Namespace p]}.
Proof. apply leibniz_equiv. unfold nsof. set_solver. Qed.
Lemma namesof_single p : namesof [p] = {[Name p]}.
Proof. apply leibniz_equiv. unfold namesof. set_solver. Qed.

(** ** Chunks *)

(** What a chunk of pairs respects. *)
Definition pairs_ok (wrapper budget : Z) (c : list NamePair) : Prop :=
  c ≠ [] ∧ setlen (nsof c) ≤ MaxAlternationValues ∧ setlen (namesof c) ≤ MaxAlternationValues ∧
  (0 < budget → llen c = 1 ∨ pair_cost wrapper c ≤ budget).

Lemma pair_cost_snoc wrapper c p :
  pair_cost wrapper (c ++ [p]) = pair_cost wrapper c +
    ((if decide (Namespace p ∈ nsof c) then 0 else valueCost (Namespace p) (setlen (nsof c))) +
     (if decide (Name p ∈ namesof c) then 0 else valueCost (Name p) (setlen (namesof c)))).
Proof. unfold pair_cost. rewrite nsof_snoc, namesof_snoc, !set_cost_add. lia. Qed.

Lemma pair_cost_single wrapper p :
  pair_cost wrapper [p] = wrapper + (valueCost (Namespace p) 0 + valueCost (Name p) 0).
Proof. unfold pair_cost. rewrite nsof_single, namesof_single, !set_cost_single. lia. Qed.

Lemma pair_cost_nil wrapper : pair_cost wrapper [] = wrapper.
Proof. unfold pair_cost. change (nsof []) with (∅ : gset string). 
  change (namesof []) with (∅ : gset string). change (set_cost ∅) with 0. lia. Qed.

Lemma pairs_ok_single wrapper budget p : pairs_ok wrapper budget [p].
Proof.
  unfold pairs_ok. rewrite nsof_single, namesof_single. unfold setlen. rewrite !size_singleton.
  split_and!; [done|done|done|by left].
Qed.

(** The next pair goes into the open chunk. *)
Lemma pairs_ok_snoc wrapper budget c p :
  pairs_ok wrapper budget c →
  (0 < budget → pair_cost wrapper (c ++ [p]) ≤ budget) →
  (Namespace p ∈ nsof c ∨ setlen (nsof c) < MaxAlternationValues) →
  (Name p ∈ namesof c ∨ setlen (namesof c) < MaxAlternationValues) →
  pairs_ok wrapper budget (c ++ [p]).
Proof.
  intros (Hne & H1 & H2 & _) Hb Hns Hnm. unfold pairs_ok.
  rewrite nsof_snoc, namesof_snoc, !setlen_add. split_and!; [by destruct c| | |auto].
  - destruct (decide _), Hns; (done || lia).
  - destruct (decide _), Hnm; (done || lia).
Qed.

Lemma over_count_false (known : Prop) `{Decision known} n :
  negb (bool_decide known) && (MaxAlternationValues <=? n) = false →
  known ∨ n < MaxAlternationValues.
Proof. case_bool_decide; simpl; intros; [by left|right; lia]. Qed.

Lemma pairs_loop_spec wrapper budget sorted cur :
  cur = [] ∨ pairs_ok wrapper budget cur → cur ≠ [] ∨ sorted ≠ [] →
  let cs := pairs_loop wrapper budget cur (nsof cur) (namesof cur) (pair_cost wrapper cur) sorted in
  concat cs = cur ++ sorted ∧ Forall (pairs_ok wrapper budget) cs.
Proof.
  revert cur. induction sorted as [|p rest IH]; intros cur Hcur Hne; cbn [pairs_loop].
  { destruct Hcur as [->|Hcur]; [naive_solver|]. split; [done|by constructor]. }
  destruct (negb (bool_decide (cur = [])) && _) eqn:Ecut.
  - apply andb_true_iff in Ecut as [Hcn _]. apply negb_true_iff, bool_decide_eq_false in Hcn.
    destruct (IH [p]) as [H1 H2]; [right; apply pairs_ok_single|by left|].
    rewrite nsof_single, namesof_single, pair_cost_single in H1, H2.
    split; [cbn [concat]; by rewrite H1|]. constructor; [by destruct Hcur|done].
  - rewrite <- nsof_snoc, <- namesof_snoc, <- pair_cost_snoc.
    destruct (IH (cur ++ [p])) as [H1 H2].
    { right. destruct (decide (cur = [])) as [->|Hcn]; [apply pairs_ok_single|].
      rewrite (bool_decide_eq_false_2 _ Hcn) in Ecut. cbn [negb andb] in Ecut.
      rewrite <- pair_cost_snoc in Ecut.
      apply orb_false_iff in Ecut as [Hb Hm]. apply orb_false_iff in Hm as [Hm1 Hm2].
      apply pairs_ok_snoc; [by destruct Hcur|intros; lia|eapply over_count_false, Hm1|eapply over_count_false, Hm2]. }
    { left. by destruct cur. }
    split; [rewrite H1; by rewrite <-app_assoc|done].
Qed.

(** ** Canonical pair sets *)

#[export] Instance pair_compare_strict : GoCmpStrict pair_compare.
Proof.
  split; [unfold pair_compare; apply _|]. intros [a b] [c d] H.
  apply cmp_lex_eq in H as [H1 H2]. unfold on_key in *. simpl in *.
  apply string_compare_eq in H1, H2. by subst.
Qed.

Lemma elem_of_SortedNamePairs pairs p : p ∈ SortedNamePairs pairs ↔ p ∈ pairs ∧ usable p.
Proof.
  unfold SortedNamePairs. rewrite (elem_of_sort_compact pair_compare).
  rewrite list_elem_of_filter. tauto.
Qed.

Lemma SortedNamePairs_sorted pairs :
  StronglySorted (cmp_lt pair_compare) (SortedNamePairs pairs).
Proof. apply (sort_compact_sorted pair_compare). Qed.

Lemma NoDup_SortedNamePairs pairs : NoDup (SortedNamePairs pairs).
Proof. eapply (sorted_lt_NoDup pair_compare). apply SortedNamePairs_sorted. Qed.

(** ** What a chunk renders to *)

(** The restriction [RenderNamesAcrossNamespaces] appends for a chunk. *)
Definition pair_restriction (label : string) (c : list NamePair) : string :=
  join "," (appendMatcher (appendMatcher [] NamespaceLabel (map Namespace c)) label (map Name c)).

Lemma len_cons a s : len (String a s) = 1 + len s.
Proof. unfold len. cbn [String.length]. lia. Qed.

Lemma len_escape_quote v : len (escapeLiteral v) ≤ len (branch v).
Proof.
  unfold branch. induction v as [|a v IH]; [done|]. cbn [QuoteMeta].
  destruct (Ascii.eqb a backslash || Ascii.eqb a dquote) eqn:E;
    destruct (is_meta a); cbn [escapeLiteral]; rewrite ?E;
    change (Ascii.eqb backslash backslash || _) with true; cbn iota;
    cbn [escapeLiteral]; rewrite ?E, ?len_cons; lia.
Qed.

Lemma len_quoted s : len (quoted s) = len s + 2.
Proof. unfold quoted. rewrite len_cons, len_append. change (len (String dquote "")) with 1. lia. Qed.

Lemma len_appendMatcher dst key values :
  normaliseValues values ≠ [] →
  ∃ t, appendMatcher dst key values = dst ++ [t] ∧
       len t ≤ len key + wrap_len + len (alternation (normaliseValues values)).
Proof.
  intros Hne. unfold appendMatcher. destruct (normaliseValues values) as [|v [|w vs]] eqn:E; [done| |].
  - eexists; split; [done|]. rewrite !len_append, len_quoted.
    change (alternation [v]) with (branch v). pose proof (len_escape_quote v).
    change (len "=") with 1. change wrap_len with 4. lia.
  - eexists; split; [done|]. rewrite !len_append, len_quoted. change (len "=~") with 2.
    change wrap_len with 4. unfold alternation. lia.
Qed.

Lemma normaliseValues_elements (l : list string) :
  Forall (λ v, v ≠ "") l → normaliseValues l ≡ₚ elements (list_to_set l : gset string).
Proof.
  intros Hl. rewrite Forall_forall in Hl. apply NoDup_Permutation.
  - eapply (sorted_lt_NoDup String.compare), normaliseValues_sorted.
  - apply NoDup_elements.
  - intros v. rewrite elem_of_normaliseValues, elem_of_elements, elem_of_list_to_set. naive_solver.
Qed.

Lemma normaliseValues_ne_nil (l : list string) :
  l ≠ [] → Forall (λ v, v ≠ "") l → normaliseValues l ≠ [].
Proof.
  intros Hne Hl E. destruct l as [|v l]; [done|].
  assert (v ∈ normaliseValues (v :: l)) as Hv.
  { apply elem_of_normaliseValues. split; [left|by inversion Hl]. }
  rewrite E in Hv. by apply elem_of_nil in Hv.
Qed.

Lemma pair_restriction_cost label c :
  c ≠ [] → Forall usable c → len (pair_restriction label c) ≤ pair_cost (pair_wrapper label) c.
Proof.
  intros Hne Hu.
  assert (Forall (λ v, v ≠ "") (map Namespace c)) as H1.
  { apply Forall_map. eapply Forall_impl; [exact Hu|]. by intros p []. }
  assert (Forall (λ v, v ≠ "") (map Name c)) as H2.
  { apply Forall_map. eapply Forall_impl; [exact Hu|]. by intros p []. }
  assert (∀ (A : Type) (f : NamePair → A), map f c ≠ []) as Hm by (by destruct c).
  destruct (len_appendMatcher [] NamespaceLabel (map Namespace c)) as (t1 & E1 & L1);
    [by apply normaliseValues_ne_nil|].
  destruct (len_appendMatcher [t1] label (map Name c)) as (t2 & E2 & L2);
    [by apply normaliseValues_ne_nil|].
  unfold pair_restriction. rewrite E1. cbn [app]. rewrite E2.
  change (join "," ([t1] ++ [t2])) with (t1 +:+ "," +:+ t2). rewrite !len_append.
  rewrite (len_alternation_perm _ _ (normaliseValues_elements _ H1)) in L1.
  rewrite (len_alternation_perm _ _ (normaliseValues_elements _ H2)) in L2.
  change (len ",") with 1. unfold pair_cost, pair_wrapper, set_cost, nsof, namesof. lia.
Qed.

Lemma ChunkNamePairs_ok pairs label budget :
  let cs := ChunkNamePairs pairs label budget in
  concat cs = SortedNamePairs pairs ∧ Forall (pairs_ok (pair_wrapper label) budget) cs.
Proof.
  unfold ChunkNamePairs. destruct (SortedNamePairs pairs) as [|p rest]; [by split|].
  pose proof (pairs_loop_spec (pair_wrapper label) budget (p :: rest) []) as H.
  rewrite pair_cost_nil in H. apply H; [by left|by right].
Qed.

Lemma setlen_normalise (f : NamePair → string) c :
  Forall (λ p, f p ≠ "") c →
  llen (normaliseValues (map f c)) = setlen (list_to_set (map f c)).
Proof.
  intros H. apply (Forall_map f (λ v, v ≠ "")) in H. rewrite setlen_elements. unfold llen.
  by rewrite (Permutation_length (normaliseValues_elements (map f c) H)).
Qed.

(** Chunking a pair set keeps every usable pair, once and in canonical
    order; in every chunk each of the two alternations stays within the value
    bound the upstream resolves by lookup, and the whole rendered restriction
    (both matchers, escaped and wrapped) fits the byte budget unless the chunk is
    a single pair. *)
Theorem ChunkNamePairs_spec pairs label budget :
  let cs := ChunkNamePairs pairs label budget in
  concat cs = SortedNamePairs pairs ∧
  Forall (λ c, c ≠ [] ∧
    llen (normaliseValues (map Namespace c)) ≤ MaxAlternationValues ∧
    llen (normaliseValues (map Name c)) ≤ MaxAlternationValues ∧
    (0 < budget → llen c = 1 ∨ len (pair_restriction label c) ≤ budget)) cs.
Proof.
  intros cs. destruct (ChunkNamePairs_ok pairs label budget) as [H1 H2]. fold cs in H1, H2.
  split; [done|]. rewrite Forall_forall in H2 |- *. intros c Hc.
  destruct (H2 c Hc) as (Hne & Hns & Hnm & Hb).
  assert (Forall usable c) as Hu.
  { apply Forall_forall. intros p Hp. apply (elem_of_SortedNamePairs pairs). rewrite <- H1.
    apply list_elem_of_In, in_concat. exists c. by rewrite <- !list_elem_of_In. }
  rewrite !setlen_normalise by (eapply Forall_impl; [exact Hu|by intros p []]).
  split_and!; [done..|]. intros Hpos. destruct (Hb Hpos) as [|Hle]; [by left|right].
  etrans; [by apply pair_restriction_cost|done].
Qed.

(** ** Reading by pairs *)

Section read.
Context {Sample : Type} (metric : Sample → Metric) (label : string).

(** The pair a row is about. *)
Definition row_pair (s : Sample) : NamePair :=
  mkNamePair (label_of (metric s) NamespaceLabel) (label_of (metric s) label).

(** The rows a chunk's two independent alternations match. *)
Definition crosses (c : list NamePair) (s : Sample) : Prop :=
  Namespace (row_pair s) ∈ map Namespace c ∧ Name (row_pair s) ∈ map Name c.
#[export] Instance crosses_dec c s : Decision (crosses c s).
Proof. unfold crosses. apply _. Defined.

(** Reading a pair set chunk by chunk, each chunk through two independent
    alternations, and then dropping the rows that name no requested pair leaves
    exactly the rows of the usable pairs: no row of another object and none
    missing, whatever the budget. A row may appear more than once: a requested
    pair of one chunk can be a cross pair of another. *)
Theorem pairs_read_exact (rows : list Sample) pairs budget s :
  s ∈ KeepNamePairs metric (flat_map (λ c, filter (crosses c) rows) (ChunkNamePairs pairs label budget)) label pairs
  ↔ s ∈ rows ∧ row_pair s ∈ pairs ∧ usable (row_pair s).
Proof.
  destruct (ChunkNamePairs_ok pairs label budget) as [Hc _].
  unfold KeepNamePairs. rewrite list_elem_of_filter, elem_of_list_to_set, (list_elem_of_In (flat_map _ _)), in_flat_map.
  setoid_rewrite <- list_elem_of_In. setoid_rewrite list_elem_of_filter. fold (row_pair s). split.
  - intros (Hp & c & Hcin & [Hns Hname] & Hs). split_and!; [done..|].
    assert (∀ p, p ∈ c → usable p) as Hu.
    { intros p Hpc. apply (elem_of_SortedNamePairs pairs p). rewrite <-Hc. apply elem_of_concat. by exists c. }
    apply list_elem_of_fmap in Hns as (p1 & E1 & Hp1), Hname as (p2 & E2 & Hp2).
    unfold usable. rewrite E1, E2. split; [by apply (Hu p1)|by apply (Hu p2)].
  - intros (Hs & Hp & Hu). split; [done|].
    assert (row_pair s ∈ concat (ChunkNamePairs pairs label budget)) as (c & Hcin & Hpc)%elem_of_concat
      by (rewrite Hc; by apply elem_of_SortedNamePairs).
    exists c. split; [done|]. split; [|done]. split; by apply list_elem_of_fmap_2.
Qed.
End read.
