(* ===== verification/ScopedRender.v ===== *)
(** pkg/promql/scope.go, pairscope.go, qosscope.go, rollup.go and appscope.go:
    rendering a query restricted to values the build already knows. A scoped
    rendering is the unscoped one with matchers appended, or nothing at all: it
    never falls back to an unscoped read. *)

From S2P Require Import Prelude GoStrings PromStrings Selector Queries ScopeChunks PairScope.

(** pkg/promql/scope.go@13-13, [PodLabel] *)
Definition PodLabel := "pod".
(** pkg/promql/scope.go@17-17, [NodeLabel] *)
Definition NodeLabel := "node".
(** pkg/promql/scope.go@46-46, [VolumeNameLabel] *)
Definition VolumeNameLabel := "volumename".
(** pkg/promql/scope.go@50-50, [ClaimLabel] *)
Definition ClaimLabel := "persistentvolumeclaim".

(** pkg/promql/scope.go@21-21, [PodScopedQueries] *)
Definition PodScopedQueries : list Query := [QPodInfo; QPodOwner].
(** pkg/promql/scope.go@26-26, [NodeScopedQueries] *)
Definition NodeScopedQueries : list Query :=
  [QNodeInfo; QNodeAddresses; QNodeLabels; QNodeStatusCondition].
(** pkg/promql/scope.go@31-35, [ControllerScopedQueries] *)
Definition ControllerScopedQueries : list Query := [
  QReplicaSetOwner; QReplicaSetAnnotations;
  QJobOwner; QJobAnnotations;
  QDeploymentAnnotations; QStatefulSetAnnotations; QDaemonSetAnnotations; QCronJobAnnotations
].
(** pkg/promql/scope.go@42-42, [ReferenceScopedQueries] *)
Definition ReferenceScopedQueries : list Query :=
  PodScopedQueries ++ NodeScopedQueries ++ ControllerScopedQueries.
(** pkg/promql/scope.go@59-61, [ClaimScopedQueries] *)
Definition ClaimScopedQueries : list Query :=
  [QPVCInfo; QPVCBindings; QPVCAnnotations; QKubeletVolumeUsedBytes; QKubeletVolumeCapacityBytes].

(** pkg/promql/scope.go@66-93, [scopedLabel] *)
Definition scopedLabel_table : list (Query * string) := [
  (QPodInfo, PodLabel);
  (QPodOwner, PodLabel);
  (QNodeInfo, NodeLabel);
  (QNodeAddresses, NodeLabel);
  (QNodeLabels, NodeLabel);
  (QNodeStatusCondition, NodeLabel);
  (QReplicaSetOwner, "replicaset");
  (QReplicaSetAnnotations, "replicaset");
  (QJobOwner, "job_name");
  (QJobAnnotations, "job_name");
  (QDeploymentAnnotations, "deployment");
  (QStatefulSetAnnotations, "statefulset");
  (QDaemonSetAnnotations, "daemonset");
  (QCronJobAnnotations, "cronjob");
  (QPVCInfo, VolumeNameLabel);
  (QPVCBindings, ClaimLabel);
  (QPVCAnnotations, ClaimLabel);
  (QKubeletVolumeUsedBytes, ClaimLabel);
  (QKubeletVolumeCapacityBytes, ClaimLabel)
].
Definition scopedLabel_map : gmap string string := list_to_map scopedLabel_table.
Definition scopedLabel (q : Query) : option string := scopedLabel_map !! q.

(** The leading matchers every scoped rendering carries: the query's fixed
    selector, then the request's fragment. *)
Definition base_matchers (q : Query) (keys : LabelKeys) (sel : Selector) : list string :=
  (if bool_decide (fixedSelector q = "") then [] else [fixedSelector q]) ++
  (if bool_decide (render sel (queryDims q) keys = "") then [] else [render sel (queryDims q) keys]).

(** [fmt.Sprintf("last_over_time(%s{%s}[%s])", q, join, window)] *)
Definition last_over (q : Query) (window : Z) (matchers : list string) : string :=
  over "last_over_time" q ("{" +:+ join "," matchers +:+ "}") (FormatDuration window).

(** pkg/promql/scope.go, [RenderOnLabel] *)
Definition RenderOnLabel (q : Query) (window : Z) (keys : LabelKeys) (sel : Selector)
    (label : string) (values : list string) : option string :=
  if bool_decide (label = "") then None else
  let vals := normaliseValues values in
  if bool_decide (vals = []) then None else
  Some (last_over q window (appendMatcher (base_matchers q keys sel) label vals)).

(** pkg/promql/scope.go, [RenderScoped] *)
Definition RenderScoped (q : Query) (window : Z) (keys : LabelKeys) (sel : Selector)
    (values : list string) : option string :=
  match scopedLabel q with
  | None => None
  | Some label => RenderOnLabel q window keys sel label values
  end.

(** pkg/promql/scope.go, [RenderPodInfoByNode] *)
Definition RenderPodInfoByNode (window : Z) (keys : LabelKeys) (sel : Selector)
    (nodes : list string) : option string :=
  RenderOnLabel QPodInfo window keys sel NodeLabel nodes.

(** pkg/promql/scope.go@262-262, [PodNamespaceScopedQueries] *)
Definition PodNamespaceScopedQueries : list Query := [QPodInfo; QPodOwner; QPVCBindings].
(** pkg/promql/scope.go@269-269, [ClaimNamespaceScopedQueries] *)
Definition ClaimNamespaceScopedQueries : list Query := ClaimScopedQueries.

(** pkg/promql/scope.go, [namespaceNameLabel] *)
Definition namespaceNameLabel (q : Query) (label : string) : bool :=
  if bool_decide (label = PodLabel) then bool_decide (q ∈ PodNamespaceScopedQueries)
  else if bool_decide (label = ClaimLabel) then bool_decide (q ∈ ClaimNamespaceScopedQueries)
  else false.

(** pkg/promql/scope.go, [namespaceEquality] *)
Definition namespaceEquality (namespace : string) : string :=
  NamespaceLabel +:+ "=" +:+ quoted (escapeLiteral namespace).

(** pkg/promql/scope.go, [NamespaceEqualityCost] *)
Definition NamespaceEqualityCost (namespace : string) : Z := len (namespaceEquality namespace) + 1.

(** pkg/promql/scope.go, [RenderNamesInNamespace] *)
Definition RenderNamesInNamespace (q : Query) (window : Z) (keys : LabelKeys) (sel : Selector)
    (namespace label : string) (names : list string) : option string :=
  if negb (namespaceNameLabel q label) then None else
  let ns := normaliseValues names in
  if bool_decide (ns = []) then None else
  let matchers := base_matchers q keys sel ++ [namespaceEquality namespace] in
  Some (last_over q window (appendMatcher matchers label ns)).

(** pkg/promql/pairscope.go, [RenderNamesAcrossNamespaces] *)
Definition RenderNamesAcrossNamespaces (q : Query) (window : Z) (keys : LabelKeys) (sel : Selector)
    (label : string) (namespaces names : list string) : option string :=
  if negb (namespaceNameLabel q label) then None else
  let ns := normaliseValues namespaces in
  let ps := normaliseValues names in
  if bool_decide (ns = []) || bool_decide (ps = []) then None else
  let matchers := appendMatcher (base_matchers q keys sel) NamespaceLabel ns in
  Some (last_over q window (appendMatcher matchers label ps)).

(** pkg/promql/scope.go, [RenderClaimBindingsByPod] *)
Definition RenderClaimBindingsByPod (window : Z) (keys : LabelKeys) (sel : Selector)
    (namespaces pods : list string) : option string :=
  RenderNamesAcrossNamespaces QPVCBindings window keys sel PodLabel namespaces pods.

(** pkg/promql/volumelabels.go, [requestMatchers] *)
Definition requestMatchers (q : Query) (keys : LabelKeys) (sel : Selector) : list string :=
  if bool_decide (render sel (queryDims q) keys = "") then [] else [render sel (queryDims q) keys].

(** pkg/promql/volumelabels.go, [RequestMatcherCost] *)
Definition RequestMatcherCost (q : Query) (keys : LabelKeys) (sel : Selector) : Z :=
  let m := render sel (queryDims q) keys in
  if bool_decide (m = "") then 0%Z else (len m + 1)%Z.

(** pkg/promql/volumelabels.go, [MatcherCost] *)
Definition MatcherCost (key : string) (values : list string) : Z :=
  match appendMatcher [] key values with
  | [] => 0%Z
  | m :: _ => len m
  end.

(** ** Rollups (rollup.go) *)

(** pkg/promql/rollup.go@20-20, [Rollup]: a string type, so any text can reach
    the functions below. *)
Definition Rollup : Type := string.
(** pkg/promql/rollup.go@22-25, [RollupLast] *)
Definition RollupLast : Rollup := "last".
(** pkg/promql/rollup.go@26-28, [RollupMax] *)
Definition RollupMax : Rollup := "max".
(** pkg/promql/rollup.go@29-31, [RollupAvg] *)
Definition RollupAvg : Rollup := "avg".

(** pkg/promql/rollup.go@37-37, [rollupChoices] *)
Definition rollupChoices := "last, max, avg".

(** pkg/promql/rollup.go, [InvalidRollupMessage]: [quote] is the verb [%q]. *)
Definition InvalidRollupMessage (quote : string → string) (param got : string) : string :=
  param +:+ " must be one of " +:+ rollupChoices +:+ ", got " +:+ quote got.

(** pkg/promql/rollup.go, [ParseRollup] *)
Definition ParseRollup (quote : string → string) (s : string) : result string Rollup :=
  if bool_decide (s = "") || bool_decide (s = RollupLast) then Ok RollupLast
  else if bool_decide (s = RollupMax) || bool_decide (s = RollupAvg) then Ok s
  else Err (InvalidRollupMessage quote "rollup" s).

(** pkg/promql/rollup.go, [Rollup.Valid] *)
Definition Valid (r : Rollup) : bool :=
  bool_decide (r = "") || bool_decide (r = RollupLast) || bool_decide (r = RollupMax) ||
  bool_decide (r = RollupAvg).

(** pkg/promql/rollup.go, [Rollup.rangeFunc] *)
Definition rangeFunc (r : Rollup) : string :=
  if bool_decide (r = RollupMax) then "max_over_time"
  else if bool_decide (r = RollupAvg) then "avg_over_time"
  else "last_over_time".

(** ** The QoS workload families (qosscope.go) *)

(** pkg/promql/qosscope.go@15-18, [QoSWorkloadQueries] *)
Definition QoSWorkloadQueries : list Query := [
  QQoSReadOps; QQoSWriteOps; QQoSReadLatency; QQoSWriteLatency;
  QQoSReadData; QQoSWriteData
].

(** pkg/promql/qosscope.go, [isQoSWorkloadQuery] *)
Definition isQoSWorkloadQuery (q : Query) : bool := bool_decide (q ∈ QoSWorkloadQueries).

(** pkg/promql/qosscope.go, [qosVolumeSelector] *)
Definition qosVolumeSelector (q : Query) (window : Z) (keys : LabelKeys) (sel : Selector)
    (volumes : list string) : option string :=
  if negb (isQoSWorkloadQuery q) then None else
  let vals := normaliseValues volumes in
  if bool_decide (vals = []) then None else
  let matchers := appendMatcher (requestMatchers q keys sel) HarvestVolumeLabel vals in
  Some (q +:+ "{" +:+ join "," matchers +:+ "}[" +:+ FormatDuration window +:+ "]").

(** pkg/promql/qosscope.go, [RenderQoSVolumeScopedRollup] *)
Definition RenderQoSVolumeScopedRollup (q : Query) (window : Z) (keys : LabelKeys) (sel : Selector)
    (volumes : list string) (rollup : Rollup) : option string :=
  match qosVolumeSelector q window keys sel volumes with
  | None => None
  | Some selector => Some (rangeFunc rollup +:+ "(" +:+ selector +:+ ")")
  end.

(** pkg/promql/qosscope.go, [RenderQoSVolumeScoped] *)
Definition RenderQoSVolumeScoped (q : Query) (window : Z) (keys : LabelKeys) (sel : Selector)
    (volumes : list string) : option string :=
  RenderQoSVolumeScopedRollup q window keys sel volumes "".

(** pkg/promql/qosscope.go, [RenderQoSVolumeScopedDelta] *)
Definition RenderQoSVolumeScopedDelta (q : Query) (window : Z) (keys : LabelKeys) (sel : Selector)
    (volumes : list string) : option string :=
  match qosVolumeSelector q window keys sel volumes with
  | None => None
  | Some selector =>
      Some ("last_over_time(" +:+ selector +:+ ") - last_over_time(" +:+ selector +:+
            " offset " +:+ FormatDuration window +:+ ")")
  end.

(** ** Application recovery (appscope.go) *)

(** pkg/promql/appscope.go@14-14, [TrackingIDLabel] *)
Definition TrackingIDLabel := "annotation_argocd_argoproj_io_tracking_id".
(** The two halves of the tracking-id wrapper. *)
Definition tracking_open := "(?:".
Definition tracking_close := ")(?::.*)?".
(** pkg/promql/appscope.go@20-20, [TrackingIDWrapperCost] *)
Definition TrackingIDWrapperCost : Z := (len tracking_open + len tracking_close)%Z.

(** pkg/promql/appscope.go, [trackingIDFamily] *)
Definition trackingIDFamily (q : Query) : bool :=
  bool_decide (q ∈ [QDeploymentAnnotations; QStatefulSetAnnotations; QDaemonSetAnnotations;
                    QReplicaSetAnnotations; QJobAnnotations; QCronJobAnnotations; QPVCAnnotations]).

(** pkg/promql/appscope.go, [RenderTrackingIDScoped] *)
Definition RenderTrackingIDScoped (q : Query) (window : Z) (keys : LabelKeys) (sel : Selector)
    (apps : list string) : option string :=
  if negb (trackingIDFamily q) then None else
  let vals := normaliseValues apps in
  if bool_decide (vals = []) then None else
  let alts := map branch vals in
  let matchers := base_matchers q keys sel ++
    [TrackingIDLabel +:+ "=~" +:+ quoted (tracking_open +:+ join "|" alts +:+ tracking_close)] in
  Some (last_over q window matchers).

(** [owner_kind="<kind>"] of [RenderOwnerScoped]. *)
Definition owner_kind_matcher (kind : string) : string :=
  "owner_kind=" +:+ quoted (escapeLiteral kind).

(** pkg/promql/appscope.go, [RenderOwnerScoped] *)
Definition RenderOwnerScoped (q : Query) (window : Z) (keys : LabelKeys) (sel : Selector)
    (kind : string) (names : list string) : option string :=
  if bool_decide (kind = "") then None else
  let vals := normaliseValues names in
  if bool_decide (vals = []) then None else
  let render_with kindMatchers :=
    Some (last_over q window
            (appendMatcher (base_matchers q keys sel ++ kindMatchers) "owner_name" vals)) in
  if bool_decide (q = QReplicaSetOwner) then render_with [owner_kind_matcher kind]
  else if bool_decide (q = QPodOwner)
  then render_with ["owner_is_controller=" +:+ quoted "true"; owner_kind_matcher kind]
  else if bool_decide (q = QJobOwner)
  then if bool_decide (kind ≠ "CronJob") then None else render_with []
  else None.

(** ** What a scoped rendering is *)

Lemma selectorBraces_base q keys sel :
  selectorBraces q keys sel =
  match base_matchers q keys sel with
  | [] => ""
  | _ => "{" +:+ join "," (base_matchers q keys sel) +:+ "}"
  end.
Proof.
  unfold selectorBraces, base_matchers.
  destruct (bool_decide (fixedSelector q = "")) eqn:E1,
    (bool_decide (render sel (queryDims q) keys = "")) eqn:E2; try done.
  cbn [andb app]. rewrite join_cons2. change (join "," [?x]) with x.
  by rewrite !append_assoc.
Qed.

Lemma last_over_Render q window keys sel :
  q ∈ last_over_time_queries →
  Render q window keys sel =
  over "last_over_time" q (selectorBraces q keys sel) (FormatDuration window).
Proof. intros H. unfold Render. by rewrite bool_decide_eq_true_2. Qed.

(** The text [t] is [Render]'s, with the matchers [ms] appended to its own. *)
Definition extends_render (q : Query) (window : Z) (keys : LabelKeys) (sel : Selector)
    (ms : list (string * list string)) (text : string) : Prop :=
  ∃ base ts,
    selectorBraces q keys sel = match base with [] => "" | _ => "{" +:+ join "," base +:+ "}" end ∧
    Forall2 reads_as ts ms ∧
    text = over "last_over_time" q ("{" +:+ join "," (base ++ ts) +:+ "}") (FormatDuration window).

Lemma hasValue_normalise values : normaliseValues values ≠ [] → hasValue values = true.
Proof. intros H. destruct (hasValue values) eqn:E; [done|]. by apply normaliseValues_nil in E. Qed.

(** [appendMatcher] on an already normalised, non-empty list. *)
Lemma appendMatcher_normalised dst key values :
  contains_byte "="%char key = false → normaliseValues values ≠ [] →
  ∃ t, appendMatcher dst key (normaliseValues values) = dst ++ [t] ∧
       reads_as t (key, normaliseValues values).
Proof.
  intros Hk Hne. unfold appendMatcher. rewrite normaliseValues_idem.
  destruct (normaliseValues values) as [|v [|w vs]] eqn:E; [done| |]; eexists; (split; [done|]).
  - by apply reads_equality.
  - by apply reads_alternation.
Qed.

Lemma RenderOnLabel_extends q window keys sel label values :
  contains_byte "="%char label = false →
  match RenderOnLabel q window keys sel label values with
  | None => label = "" ∨ hasValue values = false
  | Some text => label ≠ "" ∧ hasValue values = true ∧
      extends_render q window keys sel [(label, normaliseValues values)] text
  end.
Proof.
  intros Hk. unfold RenderOnLabel. case_bool_decide as Hl; [by left|].
  case_bool_decide as Hv; [right; by apply normaliseValues_nil|].
  destruct (appendMatcher_normalised (base_matchers q keys sel) label values Hk Hv) as (t & Et & Rt).
  split_and!; [done|by apply hasValue_normalise|].
  exists (base_matchers q keys sel), [t]. split_and!; [apply selectorBraces_base|by repeat constructor|].
  unfold last_over. by rewrite Et.
Qed.

(** What the scoping table holds: a plain label, and a query [Render] reads
    with [last_over_time]. *)
Lemma scopedLabel_ok q label :
  scopedLabel q = Some label →
  contains_byte "="%char label = false ∧ label ≠ "" ∧ q ∈ last_over_time_queries.
Proof.
  intros H.
  assert (forallb (λ ql : Query * string, negb (contains_byte "="%char ql.2) &&
      bool_decide (ql.2 ≠ "") && bool_decide (ql.1 ∈ last_over_time_queries))
      (map_to_list scopedLabel_map) = true) as Hall by (vm_compute; reflexivity).
  rewrite forallb_forall in Hall. specialize (Hall (q, label)).
  rewrite <- list_elem_of_In, elem_of_map_to_list in Hall. specialize (Hall H).
  apply andb_true_iff in Hall as [[H1%negb_true_iff H2%bool_decide_eq_true]%andb_true_iff
    H3%bool_decide_eq_true]. split; [exact H1|]. split; [exact H2|exact H3].
Qed.

(** Scoping fails closed: a scoped rendering exists exactly when the query
    has a scope label and the scope holds a non-empty value, and then it is
    the unscoped query with one matcher added on that label, which reads back
    as exactly the scope's values; the fixed selector and the request's own
    matchers are kept. *)
Theorem RenderScoped_fail_closed q window keys sel values :
  match RenderScoped q window keys sel values with
  | None => scopedLabel q = None ∨ hasValue values = false
  | Some text => hasValue values = true ∧ ∃ label,
      scopedLabel q = Some label ∧
      extends_render q window keys sel [(label, normaliseValues values)] text ∧
      Render q window keys sel =
        over "last_over_time" q (selectorBraces q keys sel) (FormatDuration window)
  end.
Proof.
  unfold RenderScoped. destruct (scopedLabel q) as [label|] eqn:E; [|by left].
  destruct (scopedLabel_ok q label E) as (Hk & Hne & Hq).
  pose proof (RenderOnLabel_extends q window keys sel label values Hk) as H.
  destruct (RenderOnLabel _ _ _ _ _ _) as [text|].
  - destruct H as (_ & Hv & Hx). split; [done|]. exists label. split_and!; [done..|].
    by apply last_over_Render.
  - destruct H; [done|by right].
Qed.

Lemma namespaceNameLabel_ok q label :
  namespaceNameLabel q label = true → contains_byte "="%char label = false.
Proof.
  unfold namespaceNameLabel. case_bool_decide; [by subst|]. case_bool_decide; [by subst|done].
Qed.

(** A read of named objects never spans more than it names: it is
    rendered only for a (query, identity label) pair the table knows and a
    non-empty name set, and then restricts both halves: the one namespace
    (even the empty one) with the names, or the namespace set with the name
    set, next to the query's own matchers. *)
Theorem RenderNames_fail_closed q window keys sel namespace label namespaces names :
  match RenderNamesInNamespace q window keys sel namespace label names with
  | None => namespaceNameLabel q label = false ∨ hasValue names = false
  | Some text => namespaceNameLabel q label = true ∧ hasValue names = true ∧
      extends_render q window keys sel
        [(NamespaceLabel, [namespace]); (label, normaliseValues names)] text
  end ∧
  match RenderNamesAcrossNamespaces q window keys sel label namespaces names with
  | None => namespaceNameLabel q label = false ∨ hasValue namespaces = false ∨ hasValue names = false
  | Some text => namespaceNameLabel q label = true ∧ hasValue namespaces = true ∧
      hasValue names = true ∧
      extends_render q window keys sel
        [(NamespaceLabel, normaliseValues namespaces); (label, normaliseValues names)] text
  end.
Proof.
  unfold RenderNamesInNamespace, RenderNamesAcrossNamespaces.
  destruct (namespaceNameLabel q label) eqn:E; cbn [negb]; [|by split; left].
  apply namespaceNameLabel_ok in E as Hk.
  destruct (bool_decide_reflect (normaliseValues names = [])) as [Hv|Hv].
  { rewrite orb_true_r. apply normaliseValues_nil in Hv. auto. }
  rewrite orb_false_r. split.
  - destruct (appendMatcher_normalised (base_matchers q keys sel ++ [namespaceEquality namespace])
      label names Hk Hv) as (t & Et & Rt).
    split_and!; [done|by apply hasValue_normalise|].
    exists (base_matchers q keys sel), [namespaceEquality namespace; t].
    split_and!; [apply selectorBraces_base| |].
    + repeat constructor; [by apply reads_equality|done].
    + unfold last_over. rewrite Et. by rewrite <-app_assoc.
  - case_bool_decide as Hn; [apply normaliseValues_nil in Hn; auto|].
    destruct (appendMatcher_normalised (base_matchers q keys sel) NamespaceLabel namespaces
      eq_refl Hn) as (t1 & E1 & R1). rewrite E1.
    destruct (appendMatcher_normalised (base_matchers q keys sel ++ [t1]) label names Hk Hv)
      as (t2 & E2 & R2).
    split_and!; [done|by apply hasValue_normalise|by apply hasValue_normalise|].
    exists (base_matchers q keys sel), [t1; t2].
    split_and!; [apply selectorBraces_base|by repeat constructor|].
    unfold last_over. rewrite E2. by rewrite <-app_assoc.
Qed.
