(* ===== verification/HarvestScope.v ===== *)
(** pkg/promql/harvestpair.go and volumelabels.go: the Harvest reads. A name is
    unique only within its ONTAP cluster, so pair-keyed reads name one cluster
    each and are split so that the rendered selector stays inside its budget. *)

From stdpp Require Import sorting.
From S2P Require Import Prelude GoStrings PromStrings Selector Queries ScopeChunks PairScope.
From S2P Require Import ScopedRender.

#[local] Open Scope Z_scope.

(** pkg/promql/harvestpair.go@13-13, [AggrPairQueries] *)
Definition AggrPairQueries : list Query := [QAggrStatus; QAggrSpaceUsed; QAggrSpaceTotal].
(** pkg/promql/harvestpair.go@17-20, [NetAppNodePairQueries] *)
Definition NetAppNodePairQueries : list Query := [
  QNetAppNodeStatus; QNetAppNodeLabels; QNetAppNodeCPUBusy;
  QNetAppNodeTotalOps; QNetAppNodeTotalLatency; QNetAppNodeTotalData
].
(** pkg/promql/harvestpair.go@24-24, [PolicyPairQueries] *)
Definition PolicyPairQueries : list Query := [QQoSPolicyFixedMaxIOPS; QQoSPolicyFixedMaxMBps].
(** pkg/promql/harvestpair.go@27-27, [HarvestPairQueries] *)
Definition HarvestPairQueries : list Query :=
  AggrPairQueries ++ NetAppNodePairQueries ++ PolicyPairQueries.

(** pkg/promql/volumelabels.go@18-18, [VolumeLabelsClusterLabel] *)
Definition VolumeLabelsClusterLabel := "cluster".
(** pkg/promql/volumelabels.go@19-19, [volumeLabelsAggrLabel] *)
Definition volumeLabelsAggrLabel := "aggr".
(** pkg/promql/volumelabels.go@20-20, [volumeLabelsSVMLabel] *)
Definition volumeLabelsSVMLabel := "svm".

(** pkg/promql/harvestpair.go, [harvestPairLabel] *)
Definition harvestPairLabel (q : Query) : option string :=
  if bool_decide (q ∈ [QAggrStatus; QAggrSpaceUsed; QAggrSpaceTotal]) then Some volumeLabelsAggrLabel
  else if bool_decide (q ∈ [QNetAppNodeStatus; QNetAppNodeLabels; QNetAppNodeCPUBusy;
                            QNetAppNodeTotalOps; QNetAppNodeTotalLatency; QNetAppNodeTotalData])
  then Some NodeLabel
  else if bool_decide (q ∈ [QQoSPolicyFixedMaxIOPS; QQoSPolicyFixedMaxMBps])
  then Some volumeLabelsSVMLabel
  else None.

(** The cluster equality every pair-keyed read renders. *)
Definition cluster_equality (cluster : string) : string :=
  VolumeLabelsClusterLabel +:+ "=" +:+ quoted (escapeLiteral cluster).

(** pkg/promql/harvestpair.go, [renderHarvest] *)
Definition renderHarvest (q : Query) (window : Z) (matchers : list string) : string :=
  last_over q window matchers.

(** The matchers of [RenderHarvestPair]. *)
Definition harvest_pair_matchers (q : Query) (keys : LabelKeys) (sel : Selector)
    (label cluster : string) (vals : list string) : list string :=
  appendMatcher (requestMatchers q keys sel ++ [cluster_equality cluster]) label vals.

(** pkg/promql/harvestpair.go, [RenderHarvestPair] *)
Definition RenderHarvestPair (q : Query) (window : Z) (keys : LabelKeys) (sel : Selector)
    (cluster : string) (names : list string) : option string :=
  match harvestPairLabel q with
  | None => None
  | Some label =>
      let vals := normaliseValues names in
      if bool_decide (vals = []) then None else
      Some (renderHarvest q window (harvest_pair_matchers q keys sel label cluster vals))
  end.

(** pkg/promql/harvestpair.go, [renderHarvestRestricted] *)
Definition renderHarvestRestricted (q : Query) (window : Z) (keys : LabelKeys) (sel : Selector)
    (label : string) (values : list string) : option string :=
  if bool_decide (normaliseValues values = []) then None
  else Some (renderHarvest q window (appendMatcher (requestMatchers q keys sel) label values)).

(** pkg/promql/harvestpair.go, [RenderHarvestByName] *)
Definition RenderHarvestByName (q : Query) (window : Z) (keys : LabelKeys) (sel : Selector)
    (names : list string) : option string :=
  match harvestPairLabel q with
  | None => None
  | Some label => renderHarvestRestricted q window keys sel label names
  end.

(** pkg/promql/harvestpair.go, [RenderHarvestByCluster] *)
Definition RenderHarvestByCluster (q : Query) (window : Z) (keys : LabelKeys) (sel : Selector)
    (clusters : list string) : option string :=
  match harvestPairLabel q with
  | None => None
  | Some _ => renderHarvestRestricted q window keys sel VolumeLabelsClusterLabel clusters
  end.

(** pkg/promql/volumelabels.go, [OwnerCompletionClusterCost] *)
Definition OwnerCompletionClusterCost (cluster : string) : Z := len (cluster_equality cluster) + 1.

(** pkg/promql/harvestpair.go, [HarvestNameChunk] *)
Record HarvestNameChunk := mkHarvestNameChunk { chunk_Cluster : string; chunk_Names : list string }.

(** The chunks of one cluster: the body of the loop of [ChunkHarvestPairs]. *)
Definition cluster_chunks (q : Query) (keys : LabelKeys) (sel : Selector) (budget : Z)
    (cluster : string) (values : list string) : list HarvestNameChunk :=
  let names := normaliseValues values in
  if bool_decide (names = []) then [] else
  let remain :=
    if 0 <? budget
    then Z.max (budget - RequestMatcherCost q keys sel - OwnerCompletionClusterCost cluster) 1
    else budget in
  map (mkHarvestNameChunk cluster) (ChunkScope names remain).

(** pkg/promql/harvestpair.go, [ChunkHarvestPairs] *)
Definition ChunkHarvestPairs (q : Query) (keys : LabelKeys) (sel : Selector)
    (byCluster : gmap string (list string)) (budget : Z) : list HarvestNameChunk :=
  match harvestPairLabel q with
  | None => []
  | Some _ =>
      flat_map (λ cluster,
        cluster_chunks q keys sel budget cluster (default [] (byCluster !! cluster)))
        (sort_func String.compare (elements (dom byCluster)))
  end.

(** ** The volume-label family (volumelabels.go) *)

(** pkg/promql/volumelabels.go, [RenderVolumeLabelsRooted] *)
Definition RenderVolumeLabelsRooted (window : Z) (keys : LabelKeys) (sel : Selector)
    (clusters aggrs : list string) : option string :=
  let restriction := appendMatcher [] VolumeLabelsClusterLabel clusters in
  let restriction := appendMatcher restriction volumeLabelsAggrLabel aggrs in
  if bool_decide (restriction = []) then None
  else Some (last_over QVolumeLabels window (requestMatchers QVolumeLabels keys sel ++ restriction)).

(** pkg/promql/volumelabels.go, [RenderVolumeLabelsSVMRooted] *)
Definition RenderVolumeLabelsSVMRooted (window : Z) (keys : LabelKeys) (sel : Selector)
    (clusters svms : list string) : option string :=
  if bool_decide (normaliseValues svms = []) then None else
  let matchers := requestMatchers QVolumeLabels keys sel in
  let matchers := appendMatcher matchers VolumeLabelsClusterLabel clusters in
  let matchers := appendMatcher matchers volumeLabelsSVMLabel svms in
  Some (last_over QVolumeLabels window matchers).

(** pkg/promql/volumelabels.go, [RenderVolumeLabelsOwnerCompletion] *)
Definition RenderVolumeLabelsOwnerCompletion (window : Z) (keys : LabelKeys) (sel : Selector)
    (cluster : string) (aggrs : list string) : option string :=
  let vals := normaliseValues aggrs in
  if bool_decide (vals = []) then None else
  let matchers := requestMatchers QVolumeLabels keys sel ++ [cluster_equality cluster] in
  Some (last_over QVolumeLabels window (appendMatcher matchers volumeLabelsAggrLabel vals)).

(** pkg/promql/volumelabels.go, [RenderVolumeLabelsTokenScoped] *)
Definition RenderVolumeLabelsTokenScoped (window : Z) (keys : LabelKeys) (sel : Selector)
    (tokens : list string) (suffix : bool) (excludeClusters : list string) : option string :=
  let vals := normaliseValues tokens in
  if bool_decide (vals = []) then None else
  let matchers := requestMatchers QVolumeLabels keys sel in
  let excl := normaliseValues excludeClusters in
  let matchers :=
    if bool_decide (excl = []) then matchers
    else matchers ++ [VolumeLabelsClusterLabel +:+ "!~" +:+ quoted (join "|" (map branch excl))] in
  let matchers :=
    if suffix
    then matchers ++ [HarvestVolumeLabel +:+ "=~" +:+
                      quoted (join "|" (map (λ v, ".*" +:+ branch v) vals))]
    else appendMatcher matchers HarvestVolumeLabel vals in
  Some (last_over QVolumeLabels window matchers).

(** pkg/promql/volumelabels.go, [RenderVolumeLabelsByNode] *)
Definition RenderVolumeLabelsByNode (window : Z) (keys : LabelKeys) (sel : Selector)
    (nodes : list string) : option string :=
  RenderOnLabel QVolumeLabels window keys sel NodeLabel nodes.

(** ** Chunks *)

Lemma len_branch_pos v : v ≠ "" → 1 ≤ len (branch v).
Proof.
  intros Hv. pose proof (len_escape_quote v). destruct v as [|a v]; [done|].
  cbn [escapeLiteral] in H. destruct (_ || _); rewrite ?len_cons in H;
    unfold len in *; lia.
Qed.

(** An alternation of two or more values is longer than one byte. *)
Lemma len_alternation_many c :
  Forall (λ v, v ≠ "") c → len (alternation c) ≤ 1 → llen c ≤ 1.
Proof.
  intros Hc. rewrite len_alternation_sum.
  destruct c as [|v [|w c]]; [unfold llen; simpl; lia..|].
  apply Forall_cons in Hc as [Hv%len_branch_pos Hc]. apply Forall_cons in Hc as [Hw%len_branch_pos _].
  assert (0 ≤ foldr (λ u a, len (branch u) + a) 0 c) as Hs.
  { clear. induction c as [|u c IH]; simpl; [lia|]. unfold len at 1. lia. }
  unfold llen. cbn [foldr length]. lia.
Qed.

Lemma normaliseValues_perm (l : list string) :
  NoDup l → Forall (λ v, v ≠ "") l → normaliseValues l ≡ₚ l.
Proof.
  intros Hnd Hl. rewrite normaliseValues_elements by done. by apply elements_list_to_set.
Qed.

Lemma requestMatchers_cost q keys sel t ts :
  len (join "," (requestMatchers q keys sel ++ t :: ts)) =
  RequestMatcherCost q keys sel + len (join "," (t :: ts)).
Proof.
  unfold requestMatchers, RequestMatcherCost. case_bool_decide; cbn [app]; [lia|].
  rewrite join_cons2, !len_append. change (len ",") with 1. lia.
Qed.

(** The rendered selector of a pair-keyed chunk, against the cost charged. *)
Lemma harvest_pair_len q keys sel label cluster c :
  c ≠ [] → NoDup c → Forall (λ v, v ≠ "") c →
  len (join "," (harvest_pair_matchers q keys sel label cluster (normaliseValues c))) ≤
  RequestMatcherCost q keys sel + OwnerCompletionClusterCost cluster +
    (len label + wrap_len) + len (alternation c).
Proof.
  intros Hne Hnd Hf. unfold harvest_pair_matchers.
  destruct (len_appendMatcher (requestMatchers q keys sel ++ [cluster_equality cluster]) label
    (normaliseValues c)) as (t & -> & Ht).
  { rewrite normaliseValues_idem. by apply normaliseValues_ne_nil. }
  rewrite normaliseValues_idem, (len_alternation_perm _ _ (normaliseValues_perm c Hnd Hf)) in Ht.
  rewrite <- app_assoc. cbn [app]. rewrite requestMatchers_cost, join_cons2, !len_append.
  change (join "," [t]) with t. change (len ",") with 1.
  unfold OwnerCompletionClusterCost. lia.
Qed.

(** What a pair-keyed chunk respects. *)
Definition harvest_chunk_ok (q : Query) (keys : LabelKeys) (sel : Selector) (label : string)
    (budget : Z) (ch : HarvestNameChunk) : Prop :=
  chunk_Names ch ≠ [] ∧ llen (chunk_Names ch) ≤ MaxAlternationValues ∧
  (0 < budget → llen (chunk_Names ch) = 1 ∨
     len (join "," (harvest_pair_matchers q keys sel label (chunk_Cluster ch)
                      (normaliseValues (chunk_Names ch)))) ≤ budget + (len label + wrap_len)).

Lemma ChunkScope_ok values budget :
  concat (ChunkScope values budget) = values ∧
  Forall (chunk_ok budget 0 MaxAlternationValues) (ChunkScope values budget).
Proof.
  unfold ChunkScope, ChunkScopeWithOverhead, chunkScope.
  destruct values as [|v rest]; [by split|].
  destruct (chunk_loop_spec budget (Z.max 0 0) MaxAlternationValues (v :: rest) [] 0)
    as (H1 & H2 & _); [by rewrite chunk_cost_nil|by left|by right|done].
Qed.

Lemma cluster_chunks_spec q keys sel label budget cluster values :
  let chs := cluster_chunks q keys sel budget cluster values in
  flat_map (λ ch, map (pair (chunk_Cluster ch)) (chunk_Names ch)) chs =
    map (pair cluster) (normaliseValues values) ∧
  Forall (harvest_chunk_ok q keys sel label budget) chs.
Proof.
  unfold cluster_chunks. case_bool_decide as Hn; [by rewrite Hn|].
  set (remain := if 0 <? budget then _ else budget).
  destruct (ChunkScope_ok (normaliseValues values) remain) as [Hc Hok].
  assert (NoDup (concat (ChunkScope (normaliseValues values) remain)) ∧
          Forall (λ v, v ≠ "") (concat (ChunkScope (normaliseValues values) remain))) as [Hnd Hf].
  { rewrite Hc. split; [eapply (sorted_lt_NoDup String.compare), normaliseValues_sorted|].
    apply Forall_forall. intros v Hv. by apply elem_of_normaliseValues in Hv as []. }
  rewrite <- Hc at 2. clear Hc Hn.
  induction Hok as [|c cs Hc Hok IH]; [by split|]. cbn [concat] in Hnd, Hf.
  apply NoDup_app in Hnd as (Hnd1 & _ & Hnd2). apply Forall_app in Hf as [Hf1 Hf2].
  destruct (IH Hnd2 Hf2) as [IH1 IH2]. cbn [map flat_map concat chunk_Cluster chunk_Names].
  rewrite map_app, IH1. split; [done|]. constructor; [|done].
  destruct Hc as (Hne & Hm & Hb). unfold harvest_chunk_ok. cbn [chunk_Cluster chunk_Names].
  split_and!; [done|by apply Hm|]. intros Hpos.
  pose proof (harvest_pair_len q keys sel label cluster c Hne Hnd1 Hf1) as Hlen.
  subst remain. rewrite (proj2 (Z.ltb_lt 0 budget) Hpos) in Hb.
  destruct (Hb ltac:(lia)) as [|Hcost]; [by left|]. unfold chunk_cost in Hcost.
  pose proof (llen_pos c Hne).
  destruct (Z.le_gt_cases (len (alternation c)) 1) as [Hs|Hs].
  - left. pose proof (len_alternation_many c Hf1 Hs). lia.
  - right. lia.
Qed.

(** Pair-keyed Harvest reads: chunking keeps every non-empty name of every
    cluster exactly once, clusters and names in sorted order, and no chunk
    mixes clusters; each chunk stays inside the value bound; and, unless it is
    a single name, the whole selector [RenderHarvestPair] renders for it (the
    request's matchers, the cluster equality and the names) is at most the
    budget plus the fixed wrapper of the name matcher. *)
Theorem ChunkHarvestPairs_spec q keys sel byCluster budget label :
  harvestPairLabel q = Some label →
  let chs := ChunkHarvestPairs q keys sel byCluster budget in
  flat_map (λ ch, map (pair (chunk_Cluster ch)) (chunk_Names ch)) chs =
    flat_map (λ c, map (pair c) (normaliseValues (default [] (byCluster !! c))))
      (sort_func String.compare (elements (dom byCluster))) ∧
  Forall (λ ch, harvest_chunk_ok q keys sel label budget ch ∧
    ∀ window, RenderHarvestPair q window keys sel (chunk_Cluster ch) (chunk_Names ch) =
      Some (renderHarvest q window (harvest_pair_matchers q keys sel label (chunk_Cluster ch)
              (normaliseValues (chunk_Names ch))))) chs.
Proof.
  intros Hq chs. subst chs. unfold ChunkHarvestPairs. rewrite Hq.
  set (cl := sort_func _ _). clearbody cl.
  assert (∀ ch, ch ∈ flat_map (λ c, cluster_chunks q keys sel budget c (default [] (byCluster !! c))) cl →
    harvest_chunk_ok q keys sel label budget ch ∧ Forall (λ v, v ≠ "") (chunk_Names ch)) as Hall.
  { intros ch Hch. apply list_elem_of_In, in_flat_map in Hch as (c & _ & Hch%list_elem_of_In).
    destruct (cluster_chunks_spec q keys sel label budget c (default [] (byCluster !! c))) as [H1 H2].
    rewrite Forall_forall in H2. split; [by apply H2|]. apply Forall_forall. intros v Hv.
    assert ((chunk_Cluster ch, v) ∈ map (pair c) (normaliseValues (default [] (byCluster !! c)))) as Hin.
    { rewrite <- H1. apply list_elem_of_In, in_flat_map. exists ch.
      split; [by apply list_elem_of_In|]. by apply in_map, list_elem_of_In. }
    apply list_elem_of_fmap in Hin as (w & [= _ ->] & Hw). by apply elem_of_normaliseValues in Hw as []. }
  split.
  - clear Hall. induction cl as [|c cl IH]; [done|]. cbn [flat_map].
    rewrite flat_map_app, IH. f_equal. apply (cluster_chunks_spec q keys sel label).
  - apply Forall_forall. intros ch Hch. destruct (Hall ch Hch) as [Hok Hf]. split; [done|].
    intros window. unfold RenderHarvestPair. rewrite Hq, bool_decide_eq_false_2; [done|].
    apply normaliseValues_ne_nil; [by destruct Hok|done].
Qed.

Definition sample_aggrs : gmap string (list string) :=
  {[ "ontap-b" := ["aggr2"; ""; "aggr1"]; "ontap-a" := ["aggr1"; "aggr1"] ]}.

Lemma ChunkHarvestPairs_spec_witness :
  ∃ chs, ChunkHarvestPairs QAggrSpaceUsed DefaultLabelKeys (mkSelector ["z1"] [] [] []) sample_aggrs 40
         = chs ∧ length chs = 2%nat ∧
  flat_map (λ ch, map (pair (chunk_Cluster ch)) (chunk_Names ch)) chs =
    [("ontap-a", "aggr1"); ("ontap-b", "aggr1"); ("ontap-b", "aggr2")].
Proof.
  eexists. split; [reflexivity|]. split; [vm_compute; reflexivity|].
  etransitivity; [exact (proj1 (ChunkHarvestPairs_spec QAggrSpaceUsed DefaultLabelKeys
    (mkSelector ["z1"] [] [] []) sample_aggrs 40 "aggr" eq_refl))|].
  vm_compute. reflexivity.
Defined.
