(* ===== verification/Backend.v ===== *)
(** pkg/promql/backend.go: the routing table. [NewTable] is the only producer
    of a table; a validated table is a canonical form of the declared set, and
    [Select] picks the backends a query of a family must be issued to. *)

From stdpp Require Import sorting.
From S2P Require Import Prelude GoStrings PromStrings Selector Queries.

#[local] Open Scope ksg_scope.

(** pkg/promql/backend.go, [Backend] *)
Record Backend := mkBackend {
  b_name : string;
  b_url : string;
  b_families : list Family;
  b_zones : list string;
  b_username : string;
  b_password : string;
}.

#[export] Instance Backend_eq_dec : EqDecision Backend.
Proof. solve_decision. Defined.

(** pkg/promql/backend.go, [NewBackend] *)
Definition NewBackend (name rawURL : string) (families : list Family) (zones : list string)
    (username password : string) : Backend :=
  mkBackend name rawURL families zones username password.

(** pkg/promql/backend.go, [Backend.serves] *)
Definition serves (b : Backend) (f : Family) : bool :=
  existsb (λ have, bool_decide (have = f)) (b_families b).

(** pkg/promql/backend.go, [Backend.coversZone] *)
Definition coversZone (b : Backend) (az : list string) : bool :=
  if bool_decide (b_zones b = []) then true
  else existsb (λ want,
         if bool_decide (want = "") then false
         else existsb (λ have, bool_decide (have = want)) (b_zones b)) az.

(** pkg/promql/backend.go, [joinFamilies] *)
Definition joinFamilies (fs : list Family) : string := join "," fs.

(** [fmt.Sprintf] of a boolean with [%t]. *)
Definition show_bool (b : bool) : string := if b then "true" else "false".

(** pkg/promql/backend.go@94-98, [Backend.String] *)
Definition Backend_String (b : Backend) : string :=
  b_name b +:+ "{url=" +:+ b_url b +:+ " families=" +:+ joinFamilies (b_families b) +:+
  " zones=" +:+ join "," (b_zones b) +:+ " auth=" +:+
  show_bool (negb (bool_decide (b_username b = "")) || negb (bool_decide (b_password b = ""))) +:+ "}".

(** pkg/promql/backend.go, [Table] *)
Record Table := mkTable { backends : list Backend }.

(** The errors of [NewTable] and [validateBackendURL], one per message. *)
Inductive TableError :=
  | NoBackends
  | EmptyName
  | DuplicateName (name : string)
  | EmptyURL (name : string)
  | UnparseableURL (name : string)
  | URLScheme (name scheme : string)
  | URLNoHost (name raw : string)
  | NoFamilies (name : string)
  | UnknownFamily (name : string) (f : Family)
  | DuplicateFamily (name : string) (f : Family)
  | EmptyZone (name : string)
  | FamilyUnserved (f : Family).

(** pkg/promql/backend.go, [normaliseBackend] *)
Definition normaliseBackend (b : Backend) : Backend :=
  mkBackend (b_name b) (b_url b)
    (sort_func String.compare (b_families b))
    (sort_func String.compare (keep_first ∅ (b_zones b)))
    (b_username b) (b_password b).

Section table.
(** [url.Parse]: the scheme and the host of a raw URL, [None] on an error. *)
Variable url_Parse : string → option (string * string).

(** pkg/promql/backend.go, [validateBackendURL] *)
Definition validateBackendURL (name raw : string) : result TableError unit :=
  if blank raw then Err (EmptyURL name) else
  match url_Parse raw with
  | None => Err (UnparseableURL name)
  | Some (scheme, host) =>
      if negb (bool_decide (scheme = "http")) && negb (bool_decide (scheme = "https"))
      then Err (URLScheme name scheme)
      else if bool_decide (host = "") then Err (URLNoHost name raw)
      else Ok tt
  end.

(** The family loop of [NewTable]: the families seen in this backend. *)
Fixpoint check_families (name : string) (seen : gset Family) (fs : list Family)
  : result TableError unit :=
  match fs with
  | [] => Ok tt
  | f :: rest =>
      match ParseFamily f with
      | None => Err (UnknownFamily name f)
      | Some _ =>
          if decide (f ∈ seen) then Err (DuplicateFamily name f)
          else check_families name ({[f]} ∪ seen) rest
      end
  end.

(** The zone loop of [NewTable]. *)
Definition check_zones (name : string) (zones : list string) : result TableError unit :=
  if existsb blank zones then Err (EmptyZone name) else Ok tt.

(** The backend loop of [NewTable]: names seen and families served so far. *)
Fixpoint check_backends (seenName : gset string) (served : gset Family) (out : list Backend)
    (bs : list Backend) : result TableError (gset Family * list Backend) :=
  match bs with
  | [] => Ok (served, out)
  | b :: rest =>
      if blank (b_name b) then Err EmptyName else
      if decide (b_name b ∈ seenName) then Err (DuplicateName (b_name b)) else
      _ <-! validateBackendURL (b_name b) (b_url b);
      if bool_decide (b_families b = []) then Err (NoFamilies (b_name b)) else
      _ <-! check_families (b_name b) ∅ (b_families b);
      _ <-! check_zones (b_name b) (b_zones b);
      check_backends ({[b_name b]} ∪ seenName) (list_to_set (b_families b) ∪ served)
        (out ++ [normaliseBackend b]) rest
  end.

(** The required-family loop of [NewTable]. *)
Fixpoint check_required (served : gset Family) (fs : list Family) : result TableError unit :=
  match fs with
  | [] => Ok tt
  | f :: rest => if decide (f ∈ served) then check_required served rest else Err (FamilyUnserved f)
  end.

(** pkg/promql/backend.go, [NewTable] *)
Definition NewTable (bs : list Backend) : result TableError Table :=
  if bool_decide (bs = []) then Err NoBackends else
  sr <-! check_backends ∅ ∅ [] bs;
  _ <-! check_required sr.1 requiredFamilies;
  Ok (mkTable (sort_func (on_key b_name String.compare) sr.2)).

(** pkg/promql/backend.go@296-296, [DefaultBackendName] *)
Definition DefaultBackendName := "default".

(** pkg/promql/backend.go, [SingleBackendTable] *)
Definition SingleBackendTable (promURL username password : string) : result TableError Table :=
  NewTable [NewBackend DefaultBackendName promURL Families [] username password].
End table.

(** pkg/promql/backend.go, [Table.Backends]: [None] is the nil table. *)
Definition Backends (t : option Table) : list Backend :=
  match t with None => [] | Some t => backends t end.

(** pkg/promql/backend.go, [Table.Len] *)
Definition Len (t : option Table) : nat := match t with None => 0 | Some t => length (backends t) end.

(** pkg/promql/backend.go, [Table.Select] *)
Definition Select (t : option Table) (f : Family) (az : list string) : list Backend :=
  match t with
  | None => []
  | Some t =>
      let zoneRouted := AcceptsAZ f && hasValue az in
      filter (λ b, serves b f = true ∧ (zoneRouted && negb (coversZone b az)) = false) (backends t)
  end.

(** pkg/promql/backend.go, [Table.String] *)
Definition Table_String (t : option Table) : string :=
  match t with
  | None => "[]"
  | Some t => "[" +:+ join " " (map Backend_String (backends t)) +:+ "]"
  end.

(** pkg/promql/router.go, [familyServed] *)
Definition familyServed (t : option Table) (f : Family) : bool :=
  match t with None => false | Some _ => (0 <? length (Select t f []))%nat end.

(** pkg/promql/backend.go, [Table.Unserved] *)
Definition Unserved (t : option Table) : list Family :=
  match t with
  | None => []
  | Some _ => filter (λ f, Optional f = true ∧ familyServed t f = false) Families
  end.

(** ** What a table guarantees *)

Section valid.
Variable url_Parse : string → option (string * string).

(** The rules one backend is checked against. *)
Definition valid_url (raw : string) : Prop :=
  blank raw = false ∧
  ∃ scheme host, url_Parse raw = Some (scheme, host) ∧ (scheme = "http" ∨ scheme = "https") ∧
                 host ≠ "".

Definition valid_backend (b : Backend) : Prop :=
  blank (b_name b) = false ∧ valid_url (b_url b) ∧
  b_families b ≠ [] ∧ Forall (λ f, f ∈ Families) (b_families b) ∧ NoDup (b_families b) ∧
  Forall (λ z, blank z = false) (b_zones b).

(** ... and the rules of the set. *)
Definition valid_table (bs : list Backend) : Prop :=
  bs ≠ [] ∧ Forall valid_backend bs ∧ NoDup (map b_name bs) ∧
  ∀ f, f ∈ requiredFamilies → ∃ b, b ∈ bs ∧ f ∈ b_families b.

Lemma validateBackendURL_ok name raw :
  validateBackendURL url_Parse name raw = Ok tt ↔ valid_url raw.
Proof.
  unfold validateBackendURL, valid_url.
  destruct (blank raw); [split; [done|by intros [? _]]|].
  destruct (url_Parse raw) as [[scheme host]|].
  - destruct (bool_decide_reflect (scheme = "http")), (bool_decide_reflect (scheme = "https")),
      (bool_decide_reflect (host = "")); cbn [negb andb]; split; try done; intros; naive_solver.
  - split; [done|]. intros (_ & ? & ? & ? & _). done.
Qed.

Lemma ParseFamily_some f : is_Some (ParseFamily f) ↔ f ∈ Families.
Proof. unfold ParseFamily. case_bool_decide; split; [done|by eexists|by intros []|done]. Qed.

Lemma check_families_ok name seen fs :
  check_families name seen fs = Ok tt ↔
  Forall (λ f, f ∈ Families) fs ∧ NoDup fs ∧ ∀ f, f ∈ fs → f ∉ seen.
Proof.
  revert seen. induction fs as [|f fs IH]; intros seen; cbn [check_families].
  { split; [|done]. intros _. split_and!; [constructor|constructor|set_solver]. }
  pose proof (ParseFamily_some f) as Hp. rewrite Forall_cons, NoDup_cons.
  destruct (ParseFamily f) as [f'|].
  2:{ split; [done|]. intros [[[? ?]%Hp _] _]. done. }
  destruct (decide (f ∈ seen)).
  { split; [done|]. intros (_ & _ & H). exfalso. apply (H f); [left|done]. }
  rewrite IH. assert (f ∈ Families) by (apply Hp; by eexists).
  split; [intros (H1 & H2 & H3)|intros ([_ H1] & [H2 H2'] & H3)].
  - split_and!; [done|done| |done|set_solver]. intros Hf. apply (H3 f Hf). set_solver.
  - split_and!; [done|done|]. intros g Hg. specialize (H3 g). set_solver.
Qed.

Lemma check_zones_ok name zones :
  check_zones name zones = Ok tt ↔ Forall (λ z, blank z = false) zones.
Proof.
  unfold check_zones. induction zones as [|z zones IH]; [done|]. cbn [existsb].
  rewrite Forall_cons. destruct (blank z); cbn [orb]; [split; [done|by intros []]|].
  rewrite IH. tauto.
Qed.

Lemma rbind_unit_ok {B} (m : result TableError unit) (k : unit → result TableError B) x :
  rbind m k = Ok x ↔ m = Ok tt ∧ k tt = Ok x.
Proof. destruct m as [[]|]; simpl; naive_solver. Qed.

Lemma check_backends_ok seen served out bs served' out' :
  check_backends url_Parse seen served out bs = Ok (served', out') ↔
  Forall valid_backend bs ∧ NoDup (map b_name bs) ∧ (∀ b, b ∈ bs → b_name b ∉ seen) ∧
  served' = list_to_set (concat (map b_families (rev bs))) ∪ served ∧
  out' = out ++ map normaliseBackend bs.
Proof.
  revert seen served out. induction bs as [|b bs IH]; intros seen served out; cbn [check_backends].
  { rewrite app_nil_r. split; [intros [= <- <-]|by intros (_ & _ & _ & -> & ->); f_equal; f_equal; set_solver].
    split_and!; [constructor|constructor|set_solver|set_solver|done]. }
  cbn [map]. rewrite Forall_cons, NoDup_cons. unfold valid_backend at 1.
  destruct (blank (b_name b)) eqn:Eb; [split; [done|naive_solver]|].
  destruct (decide (b_name b ∈ seen)) as [Hs|Hs].
  { split; [done|]. intros (_ & _ & H & _). exfalso. apply (H b); [left|done]. }
  rewrite rbind_unit_ok, validateBackendURL_ok.
  destruct (bool_decide_reflect (b_families b = [])); [split; [naive_solver|]; intros; naive_solver|].
  rewrite !rbind_unit_ok, check_families_ok, check_zones_ok, IH.
  rewrite <- app_assoc. cbn [app rev]. rewrite map_app, concat_app. cbn [map concat].
  rewrite app_nil_r.
  assert (list_to_set (concat (map b_families (rev bs))) ∪ (list_to_set (b_families b) ∪ served)
    = list_to_set (concat (map b_families (rev bs)) ++ b_families b) ∪ served) as ->.
  { apply leibniz_equiv. rewrite list_to_set_app. set_solver. }
  split.
  - intros (Hu & (Hf1 & Hf2 & _) & Hz & Hbs & Hnd & Hseen & -> & ->).
    split_and!; try done.
    + intros Hin. apply list_elem_of_fmap in Hin as (b' & Hb' & Hin).
      apply (Hseen b' Hin). rewrite <- Hb'. set_solver.
    + intros b' [->|Hin]%elem_of_cons; [done|]. specialize (Hseen b' Hin). set_solver.
  - intros (((_ & Hu & _ & Hf1 & Hf2 & Hz) & Hbs) & [Hni Hnd] & Hseen & -> & ->).
    split_and!; try done.
    intros b' Hin. apply not_elem_of_union. split; [|apply Hseen; by right].
    rewrite elem_of_singleton. intros Hb'. apply Hni. rewrite <- Hb'. by apply list_elem_of_fmap_2.
Qed.

Lemma check_required_ok served fs :
  check_required served fs = Ok tt ↔ ∀ f, f ∈ fs → f ∈ served.
Proof.
  induction fs as [|f fs IH]; cbn [check_required]; [set_solver|].
  destruct (decide (f ∈ served)); [rewrite IH; set_solver|].
  split; [done|]. intros H. exfalso. set_solver.
Qed.

Lemma NewTable_ok bs t :
  NewTable url_Parse bs = Ok t ↔
  valid_table bs ∧
  t = mkTable (sort_func (on_key b_name String.compare) (map normaliseBackend bs)).
Proof.
  unfold NewTable, valid_table. case_bool_decide as Hn; [split; [done|naive_solver]|].
  destruct (check_backends url_Parse ∅ ∅ [] bs) as [[served out]|e] eqn:E; cbn [rbind].
  - apply check_backends_ok in E as (H1 & H2 & _ & -> & ->). cbn [fst snd app].
    rewrite rbind_unit_ok, check_required_ok.
    assert (∀ f, f ∈ (list_to_set (concat (map b_families (rev bs))) ∪ ∅ : gset Family) ↔
      ∃ b, b ∈ bs ∧ f ∈ b_families b) as Hs.
    { intros f. rewrite elem_of_union, elem_of_list_to_set, list_elem_of_In, in_concat.
      split; [intros [(fs & Hfs & Hf)|?%elem_of_empty]; [|done]|intros (b & Hb & Hf)].
      - apply in_map_iff in Hfs as (b & <- & Hb). rewrite <- in_rev in Hb.
        exists b. by rewrite !list_elem_of_In.
      - left. exists (b_families b). split; [|by apply list_elem_of_In].
        apply list_elem_of_In in Hb. apply in_map. by rewrite <- in_rev. }
    setoid_rewrite Hs. naive_solver.
  - split; [done|]. intros [(_ & H1 & H2 & _) ->]. exfalso.
    pose proof (check_backends_ok ∅ ∅ [] bs
      (list_to_set (concat (map b_families (rev bs))) ∪ ∅) (map normaliseBackend bs)) as [_ Hok].
    rewrite E in Hok. discriminate Hok. split_and!; try done; set_solver.
Qed.

(** Normalising keeps what the rules read. *)
Lemma normaliseBackend_valid b : valid_backend (normaliseBackend b) ↔ valid_backend b.
Proof.
  unfold valid_backend, normaliseBackend. cbn.
  assert (∀ P : string → Prop, Forall P (sort_func String.compare (keep_first ∅ (b_zones b))) ↔
    Forall P (b_zones b)) as Hz.
  { intros P. rewrite !Forall_forall. setoid_rewrite elem_of_sort_func.
    setoid_rewrite elem_of_keep_first. set_solver. }
  rewrite Hz, (sort_func_nil_iff String.compare), (NoDup_sort_func String.compare).
  assert (Forall (λ f, f ∈ Families) (sort_func String.compare (b_families b)) ↔
    Forall (λ f, f ∈ Families) (b_families b)) as ->; [|done].
  rewrite !Forall_forall. by setoid_rewrite elem_of_sort_func.
Qed.

Lemma valid_table_normalised bs : valid_table (map normaliseBackend bs) ↔ valid_table bs.
Proof.
  unfold valid_table. rewrite map_map. cbn [normaliseBackend b_name].
  assert (map normaliseBackend bs ≠ [] ↔ bs ≠ []) as -> by (by destruct bs).
  assert (Forall valid_backend (map normaliseBackend bs) ↔ Forall valid_backend bs) as ->.
  { rewrite !Forall_forall. split; intros H b Hb.
    - apply normaliseBackend_valid, H. by apply list_elem_of_fmap_2.
    - apply list_elem_of_fmap in Hb as (b' & -> & Hb). by apply normaliseBackend_valid, H. }
  assert (∀ f, (∃ b, b ∈ map normaliseBackend bs ∧ f ∈ b_families b) ↔
    ∃ b, b ∈ bs ∧ f ∈ b_families b) as Hf; [|by setoid_rewrite Hf].
  intros f. split; intros (b & Hb & Hin).
  - apply list_elem_of_fmap in Hb as (b' & -> & Hb). exists b'. split; [done|].
    cbn in Hin. by rewrite (elem_of_sort_func String.compare) in Hin.
  - exists (normaliseBackend b). split; [by apply list_elem_of_fmap_2|].
    cbn. by rewrite (elem_of_sort_func String.compare).
Qed.

Lemma valid_table_perm bs1 bs2 : bs1 ≡ₚ bs2 → valid_table bs1 → valid_table bs2.
Proof.
  intros Hp (Hn & Hf & Hd & Hr). split_and!.
  - intros ->. by apply Permutation_nil_r in Hp.
  - by rewrite <- Hp.
  - by rewrite <- Hp.
  - intros f Hin. destruct (Hr f Hin) as (b & Hb & ?). exists b. by rewrite <- Hp.
Qed.

(** Sorting by a key no two elements share is canonical. *)
Lemma sort_by_name_sorted bs :
  NoDup (map b_name bs) →
  StronglySorted (λ a b, String.compare (b_name a) (b_name b) = Lt)
    (sort_func (on_key b_name String.compare) bs).
Proof.
  intros Hd. pose proof (sort_func_sorted (on_key b_name String.compare) bs) as Hs.
  pose proof (sort_func_perm (on_key b_name String.compare) bs) as Hp.
  rewrite <- Hp in Hd. clear Hp. induction Hs as [|b l Hs IH Hb]; [constructor|].
  cbn [map] in Hd. apply NoDup_cons in Hd as [Hni Hd]. constructor; [by apply IH|].
  rewrite Forall_forall in Hb |- *. intros b' Hb'. specialize (Hb b' Hb').
  unfold cmp_le, on_key in Hb. destruct (String.compare (b_name b) (b_name b')) eqn:E; [|done|done].
  apply string_compare_eq in E. exfalso. apply Hni. rewrite E. by apply list_elem_of_fmap_2.
Qed.

Definition name_lt (a b : Backend) : Prop := String.compare (b_name a) (b_name b) = Lt.

#[export] Instance name_lt_antisymm : AntiSymm (=) name_lt.
Proof.
  intros a b H1 H2. unfold name_lt in *.
  rewrite (gc_antisym (c:=String.compare) (b_name a) (b_name b)), H1 in H2. done.
Qed.

Lemma sorted_table_unique bs1 bs2 :
  NoDup (map b_name bs1) → bs1 ≡ₚ bs2 →
  sort_func (on_key b_name String.compare) bs1 = sort_func (on_key b_name String.compare) bs2.
Proof.
  intros Hd Hp. apply (StronglySorted_unique name_lt).
  - by apply sort_by_name_sorted.
  - apply sort_by_name_sorted. by rewrite <- Hp.
  - by rewrite !(sort_func_perm (on_key b_name String.compare)).
Qed.

(** [NewTable] accepts exactly the valid declarations (non-blank unique
    names, http(s) URLs with a host, known families each declared once, no
    blank zone, every required family served by someone) and the table is a
    canonical form: declarations differing only in the order of backends,
    families or zones, or in repeated zones, give the same table, so a
    cosmetic edit of the routing file changes nothing. *)
Theorem NewTable_canonical bs :
  (∀ t, NewTable url_Parse bs = Ok t ↔
        valid_table bs ∧
        t = mkTable (sort_func (on_key b_name String.compare) (map normaliseBackend bs))) ∧
  (∀ bs' t, map normaliseBackend bs ≡ₚ map normaliseBackend bs' →
            NewTable url_Parse bs = Ok t → NewTable url_Parse bs' = Ok t).
Proof.
  split; [apply NewTable_ok|].
  intros bs' t Hp [Hv ->]%NewTable_ok. apply NewTable_ok.
  apply valid_table_normalised in Hv. split.
  - apply valid_table_normalised. by apply (valid_table_perm (map normaliseBackend bs)).
  - f_equal. apply sorted_table_unique; [|done]. by destruct Hv as (_ & _ & ? & _).
Qed.

Lemma serves_spec b f : serves b f = true ↔ f ∈ b_families b.
Proof.
  unfold serves. rewrite existsb_exists. setoid_rewrite bool_decide_eq_true.
  setoid_rewrite <- list_elem_of_In. naive_solver.
Qed.

Lemma coversZone_spec b az :
  coversZone b az = true ↔ b_zones b = [] ∨ ∃ z, z ∈ az ∧ z ≠ "" ∧ z ∈ b_zones b.
Proof.
  unfold coversZone. case_bool_decide as Hz; [naive_solver|].
  rewrite existsb_exists. split.
  - intros (z & Hz1 & Hz2). case_bool_decide; [done|]. right. exists z.
    apply existsb_exists in Hz2 as (z' & Hz' & Heq). apply bool_decide_eq_true in Heq as ->.
    by rewrite !list_elem_of_In.
  - intros [?|(z & Hz1 & Hz2 & Hz3)]; [done|]. exists z. split; [by apply list_elem_of_In|].
    rewrite bool_decide_eq_false_2 by done. apply existsb_exists. exists z.
    split; [by apply list_elem_of_In|]. by apply bool_decide_eq_true.
Qed.

Lemma table_backends_valid bs t :
  NewTable url_Parse bs = Ok t →
  Forall valid_backend (backends t) ∧ StronglySorted name_lt (backends t) ∧
  ∀ f, (∃ b, b ∈ backends t ∧ f ∈ b_families b) ↔ ∃ b, b ∈ bs ∧ f ∈ b_families b.
Proof.
  intros [(Hn & Hf & Hd & Hr) ->]%NewTable_ok. cbn [backends]. split_and!.
  - apply Forall_forall. intros b Hb. rewrite (elem_of_sort_func (on_key b_name String.compare)) in Hb.
    apply list_elem_of_fmap in Hb as (b' & -> & Hb). rewrite Forall_forall in Hf.
    by apply normaliseBackend_valid, Hf.
  - apply sort_by_name_sorted. by rewrite map_map.
  - intros f. split; intros (b & Hb & Hin).
    + rewrite (elem_of_sort_func (on_key b_name String.compare)) in Hb.
      apply list_elem_of_fmap in Hb as (b' & -> & Hb). exists b'. split; [done|].
      cbn in Hin. by rewrite (elem_of_sort_func String.compare) in Hin.
    + exists (normaliseBackend b). split.
      * rewrite (elem_of_sort_func (on_key b_name String.compare)). by apply list_elem_of_fmap_2.
      * cbn. by rewrite (elem_of_sort_func String.compare).
Qed.

Lemma StronglySorted_filter {A} (R : A → A → Prop) (P : A → Prop) `{!∀ x, Decision (P x)} l :
  StronglySorted R l → StronglySorted R (filter P l).
Proof.
  induction 1 as [|x l Hs IH Hx]; [constructor|]. rewrite filter_cons.
  destruct (decide (P x)); [|done]. constructor; [done|].
  rewrite Forall_forall in Hx |- *. intros y [_ Hy]%list_elem_of_filter. by apply Hx.
Qed.

(** Routing: on a validated table the selected backends come in ascending
    name order, and are exactly those declaring the family, narrowed to the
    requested zones only when the family is zone-routed and a zone is
    requested (a backend declaring no zone always answers); a required family
    always has a backend; and the families reported unserved are exactly the
    optional ones nobody declares. *)
Theorem Select_spec bs t f az :
  NewTable url_Parse bs = Ok t →
  StronglySorted name_lt (Select (Some t) f az) ∧
  (∀ b, b ∈ Select (Some t) f az ↔
     b ∈ backends t ∧ f ∈ b_families b ∧
     (AcceptsAZ f = true → hasValue az = true → b_zones b = [] ∨ ∃ z, z ∈ az ∧ z ∈ b_zones b)) ∧
  (f ∈ requiredFamilies → Select (Some t) f [] ≠ []) ∧
  (∀ g, g ∈ Unserved (Some t) ↔
     g ∈ Families ∧ (g ∉ requiredFamilies) ∧ ¬ (∃ b, b ∈ bs ∧ g ∈ b_families b)).
Proof.
  intros Ht. destruct (table_backends_valid bs t Ht) as (Hval & Hsort & Hfam).
  assert (∀ g, (∃ b, b ∈ Select (Some t) g []) ↔ ∃ b, b ∈ bs ∧ g ∈ b_families b) as Hserved.
  { intros g. rewrite <- Hfam. unfold Select. rewrite andb_false_r.
    split; intros (b & Hb).
    - exists b. apply list_elem_of_filter in Hb as [[Hs _] Hb]. by apply serves_spec in Hs.
    - exists b. apply list_elem_of_filter. destruct Hb as [Hb Hs]. by apply serves_spec in Hs. }
  split_and!.
  - by apply StronglySorted_filter.
  - intros b. unfold Select. rewrite list_elem_of_filter, serves_spec.
    destruct (AcceptsAZ f && hasValue az) eqn:Eaz; cbn [andb].
    2:{ apply andb_false_iff in Eaz. split; [intros ((?&_)&?)|intros (?&?&_); done].
        split_and!; [done..|]. intros. destruct Eaz; congruence. }
    apply andb_true_iff in Eaz as [Ea1 Ea2].
    rewrite negb_false_iff, coversZone_spec. split.
    { intros ((Hf & Hz) & Hb). split_and!; [done..|]. intros _ _.
      destruct Hz as [Hz|(z & Hz1 & _ & Hz2)]; [left; exact Hz|right].
      exists z. split; [exact Hz1|exact Hz2]. }
    intros (Hb & Hf & Hz). split; [split; [done|]|done].
    destruct (Hz Ea1 Ea2) as [|(z & Hz1 & Hz2)]; [by left|]. right. exists z. split; [exact Hz1|split; [|exact Hz2]].
    intros ->. rewrite Forall_forall in Hval. destruct (Hval b Hb) as (_ & _ & _ & _ & _ & Hzs).
    rewrite Forall_forall in Hzs. by specialize (Hzs "" Hz2).
  - intros Hr Hnil. apply NewTable_ok in Ht as [(_ & _ & _ & Hreq) _].
    destruct (proj2 (Hserved f) (Hreq f Hr)) as [b Hb]. rewrite Hnil in Hb. by apply elem_of_nil in Hb.
  - intros g. unfold Unserved. rewrite list_elem_of_filter. unfold Optional.
    rewrite negb_true_iff, bool_decide_eq_false. rewrite <- Hserved. unfold familyServed.
    destruct (Select (Some t) g []) as [|b l] eqn:E.
    + cbn [length Nat.ltb Nat.leb]. split.
      * intros [[H1 _] H2]. split; [exact H2|split; [exact H1|]].
        intros [b Hb]. by apply elem_of_nil in Hb.
      * intros (H1 & H2 & _). split; [split; [exact H2|reflexivity]|exact H1].
    + split; [intros [[_ [=]] _]|]. intros (_ & _ & H). exfalso. apply H. exists b. left.
Qed.
End valid.

(** A small parser for the witnesses: [http://] and a host. *)
Definition sample_parse (raw : string) : option (string * string) :=
  if has_prefix "http://" raw then Some ("http", String.substring 7 (String.length raw) raw) else None.

Definition sample_backends : list Backend := [
  NewBackend "metrics-b" "http://b" [FamilyServiceGraph; FamilyKSM; FamilyProbe] ["z2"; "z1"; "z2"] "" "";
  NewBackend "metrics-a" "http://a" [FamilyHarvest; FamilyKSM; FamilyKubelet] ["z3"] "u" "p"
].

Definition sample_table : Table :=
  Eval vm_compute in match NewTable sample_parse sample_backends with Ok t => t | Err _ => mkTable [] end.

Lemma NewTable_canonical_witness :
  NewTable sample_parse (rev sample_backends) = Ok sample_table.
Proof.
  refine (proj2 (NewTable_canonical sample_parse sample_backends) (rev sample_backends) sample_table _ _).
  - cbn [rev sample_backends app map]. apply Permutation_swap.
  - vm_compute. reflexivity.
Defined.

Lemma Select_spec_witness :
  NewTable sample_parse sample_backends = Ok sample_table ∧
  map b_name (Select (Some sample_table) FamilyKSM ["z1"]) = ["metrics-b"] ∧
  Select (Some sample_table) FamilyProbe [] ≠ [] ∧
  Unserved (Some sample_table) = [FamilyAlerts; FamilyAppMeta].
Proof.
  assert (NewTable sample_parse sample_backends = Ok sample_table) as Ht by (vm_compute; reflexivity).
  split; [exact Ht|]. split; [vm_compute; reflexivity|]. split; [|vm_compute; reflexivity].
  apply (Select_spec sample_parse sample_backends sample_table FamilyProbe [] Ht).
  apply (bool_decide_unpack _). vm_compute. exact I.
Defined.
