(* ===== verification/Fanout.v ===== *)
(** pkg/promql/fanout.go: one query issued to every selected backend and the
    results folded into one vector. The merge is a function of the parts in
    backend-name order, keeps each series once, and fails closed. *)

From S2P Require Import Prelude GoStrings Float64 PromStrings Selector Queries PairScope Backend.

#[local] Open Scope ksg_scope.

(** A [model.Sample] of an upstream vector: its labels, its value and its time
    in milliseconds. *)
Record Sample := mkSample { s_Metric : Metric; s_Value : float64; s_Timestamp : Z }.

#[export] Instance Sample_eq_dec : EqDecision Sample.
Proof. solve_decision. Defined.

(** A [model.Vector]: sample pointers, which may be nil. *)
Definition Vector : Type := list (option Sample).

Section fanout.
(** [model.Metric.Fingerprint]. *)
Variable Fingerprint : Metric → Z.

(** The state of the merge loop: [out], [seen] (fingerprint to index) and the
    number of conflicts. *)
Record MergeState := mkMergeState {
  ms_out : list Sample;
  ms_seen : gmap Z nat;
  ms_conflicts : nat;
}.

(** The body of the merge loop. *)
Definition merge_step (keepMax : bool) (st : MergeState) (s : option Sample) : MergeState :=
  match s with
  | None => st
  | Some s =>
      let fp := Fingerprint (s_Metric s) in
      match ms_seen st !! fp with
      | Some i =>
          match ms_out st !! i with
          | Some kept =>
              if negb (feqb (s_Value kept) (s_Value s)) then
                mkMergeState
                  (if keepMax && fgtb (s_Value s) (s_Value kept) then <[i := s]> (ms_out st)
                   else ms_out st)
                  (ms_seen st) (S (ms_conflicts st))
              else st
          | None => st
          end
      | None =>
          mkMergeState (ms_out st ++ [s]) (<[fp := length (ms_out st)]> (ms_seen st)) (ms_conflicts st)
      end
  end.

(** pkg/promql/fanout.go, [mergeVectors] *)
Definition mergeVectors (parts : list Vector) (keepMax : bool) : list Sample * nat :=
  let total := length (concat parts) in
  if (total =? 0)%nat then ([], 0)
  else
    let st := foldl (merge_step keepMax) (mkMergeState [] ∅ 0) (concat parts) in
    (ms_out st, ms_conflicts st).

(** ** Issuing *)

(** A client: the vector or the error its store answers a query with. *)
Context {E : Type}.
Definition Client : Type := string → Z → result E Vector.

(** The errors of the fan-out. *)
Inductive FanoutError :=
  | NoFamily (name : string)
  | NoClient (name backend : string)
  | BackendFailed (backend : string) (e : E).

(** pkg/promql/fanout.go, [fanoutQuerier] *)
Record fanoutQuerier := mkFanoutQuerier {
  fq_table : Table;
  fq_clients : gmap string Client;
  fq_az : list string;
}.

(** pkg/promql/fanout.go, [fanoutQuerier.Serves] *)
Definition Serves (f : option fanoutQuerier) (fam : Family) : bool :=
  match f with
  | None => false
  | Some f => familyServed (Some (fq_table f)) fam
  end.

(** One leg of the fan-out. *)
Definition leg (f : fanoutQuerier) (name query : string) (ts : Z) (b : Backend)
  : result FanoutError Vector :=
  match fq_clients f !! b_name b with
  | None => Err (NoClient name (b_name b))
  | Some q => match q query ts with
              | Err e => Err (BackendFailed (b_name b) e)
              | Ok v => Ok v
              end
  end.

(** [g.Wait]: the error of the leg that failed first; [order] lists the legs'
    indices as they complete. *)
Fixpoint first_error (order : list nat) (legs : list (result FanoutError Vector))
  : option FanoutError :=
  match order with
  | [] => None
  | i :: rest => match legs !! i with
                 | Some (Err e) => Some e
                 | _ => first_error rest legs
                 end
  end.

(** [parts\[i\] = out]: a leg that did not answer leaves a nil part. *)
Definition part_of (r : result FanoutError Vector) : Vector :=
  match r with Ok v => v | Err _ => [] end.

(** pkg/promql/fanout.go, [fanoutQuerier.issue]: logs, spans and failure
    counters have no effect on the result and are left out. *)
Definition issue (order : list nat) (f : fanoutQuerier) (fam : Family) (name query : string) (ts : Z)
  : result FanoutError (list Sample) :=
  let selected := Select (Some (fq_table f)) fam (fq_az f) in
  if bool_decide (selected = []) then Ok [] else
  let legs := map (leg f name query ts) selected in
  match first_error order legs with
  | Some e => Err e
  | None => Ok (mergeVectors (map part_of legs) (bool_decide (fam = FamilyAlerts))).1
  end.

(** pkg/promql/fanout.go, [fanoutQuerier.Instant] *)
Definition Instant (order : list nat) (f : fanoutQuerier) (name query : string) (ts : Z)
  : result FanoutError (list Sample) :=
  match FamilyOf name with
  | None => Err (NoFamily name)
  | Some fam => issue order f fam name query ts
  end.
End fanout.

(** pkg/promql/fanout.go, [backendNames] *)
Definition backendNames (bs : list Backend) : list string := sort_func String.compare (map b_name bs).

(** The context state a leg's error is judged by. *)
Record CtxState := mkCtxState { ctx_ended : bool; gctx_ended : bool }.

(** pkg/promql/fanout.go, [siblingCancelled]: [contextErr] is [isContextErr(err)]. *)
Definition siblingCancelled (c : CtxState) (contextErr : bool) : bool :=
  negb (ctx_ended c) && gctx_ended c && contextErr.

(** ** The merge *)

Section merge.
Variable Fingerprint : Metric → Z.
Implicit Types (l : list Sample) (o s : Sample).

(** The series a sample belongs to. *)
Definition fp s : Z := Fingerprint (s_Metric s).

(** [o] is the first sample of its series in [l]. *)
Definition first_of l o : Prop := ∃ l1 l2, l = l1 ++ o :: l2 ∧ fp o ∉ map fp l1.

(** No sample of [o]'s series in [l] has a greater value. *)
Definition greatest_of l o : Prop := ∀ s, s ∈ l → fp s = fp o → fgtb (s_Value s) (s_Value o) = false.

(** What the loop has built after the samples [l]. *)
Definition merge_inv (keepMax : bool) l (st : MergeState) : Prop :=
  map fp (ms_out st) = keep_first ∅ (map fp l) ∧
  (∀ k i, ms_seen st !! k = Some i ↔ map fp (ms_out st) !! i = Some k) ∧
  (∀ o, o ∈ ms_out st → o ∈ l ∧ if keepMax then greatest_of l o else first_of l o).

Lemma first_of_snoc l s o : first_of l o → first_of (l ++ [s]) o.
Proof. intros (l1 & l2 & -> & H). exists l1, (l2 ++ [s]). by rewrite <- app_assoc. Qed.

Lemma greatest_of_snoc l s o :
  greatest_of l o → (fp s = fp o → fgtb (s_Value s) (s_Value o) = false) → greatest_of (l ++ [s]) o.
Proof. intros H Hs s' [Hs'| ->]%elem_of_snoc; [by apply H|done]. Qed.

Lemma map_insert_same l i s o :
  l !! i = Some o → fp s = fp o → map fp (<[i := s]> l) = map fp l.
Proof.
  intros Hi Hf. rewrite list_fmap_insert, Hf. apply list_insert_id.
  by rewrite list_lookup_fmap, Hi.
Qed.

(** A sample of a new series is appended. *)
Lemma merge_new keepMax l st s :
  merge_inv keepMax l st → ms_seen st !! fp s = None →
  merge_inv keepMax (l ++ [s]) (mkMergeState (ms_out st ++ [s])
    (<[fp s := length (ms_out st)]> (ms_seen st)) (ms_conflicts st)).
Proof.
  intros (Hk & Hs & Ho) Hn.
  assert (fp s ∉ map fp l) as Hni.
  { intros Hin. assert (fp s ∈ map fp (ms_out st)) as Hin'.
    { rewrite Hk, elem_of_keep_first. by split; [|apply not_elem_of_empty]. }
    apply list_elem_of_lookup in Hin' as [i Hi]. apply Hs in Hi. congruence. }
  split_and!; cbn [ms_out ms_seen].
  - rewrite !map_app, Hk. cbn [map]. rewrite keep_first_snoc. f_equal.
    rewrite decide_False; [done|]. intros [?|?%elem_of_empty]; done.
  - intros k i. rewrite map_app. cbn [map]. rewrite lookup_insert_Some, Hs.
    rewrite lookup_app_Some, length_map, list_lookup_singleton_Some. split.
    + intros [[<- <-]|[Hne Hi]]; [right; split; [lia|split; [lia|done]]|by left].
    + intros [Hi|(Hlen & Hz & <-)].
      * right. split; [|done]. intros <-. apply Hs in Hi. congruence.
      * left. split; [done|lia].
  - intros o [Hin| ->]%elem_of_snoc.
    + destruct (Ho o Hin) as [Hl Hok]. split; [apply elem_of_snoc; by left|].
      destruct keepMax; [|by apply first_of_snoc]. apply greatest_of_snoc; [done|].
      intros Heq. exfalso. apply Hni. rewrite Heq. by apply list_elem_of_fmap_2.
    + split; [apply elem_of_snoc; by right|]. destruct keepMax; [|exists l, []; done].
      intros s' [Hs'| ->]%elem_of_snoc Heq; [|apply fgtb_irrefl].
      exfalso. apply Hni. rewrite <- Heq. by apply list_elem_of_fmap_2.
Qed.

(** A sample of a known series leaves the series, and replaces the kept copy
    only under [keepMax] with a greater value. *)
Lemma merge_dup keepMax l st s i kept conflicts (swap : bool) :
  merge_inv keepMax l st → ms_seen st !! fp s = Some i → ms_out st !! i = Some kept →
  (swap = true → keepMax = true ∧ fgtb (s_Value s) (s_Value kept) = true) →
  (swap = false → keepMax = true → fgtb (s_Value s) (s_Value kept) = false) →
  merge_inv keepMax (l ++ [s])
    (mkMergeState (if swap then <[i := s]> (ms_out st) else ms_out st) (ms_seen st) conflicts).
Proof.
  intros (Hk & Hs & Ho) Hi Hkept Hsw Hnsw.
  pose proof Hi as Hfp. apply Hs in Hfp. rewrite list_lookup_fmap, Hkept in Hfp.
  injection Hfp as Hfp.
  assert (map fp (if swap then <[i := s]> (ms_out st) else ms_out st) = map fp (ms_out st)) as Hm.
  { destruct swap; [|done]. by apply (map_insert_same _ i s kept). }
  assert (kept ∈ ms_out st) as Hin by (by eapply list_elem_of_lookup_2).
  destruct (Ho kept Hin) as [Hkl Hkok].
  assert (NoDup (map fp (ms_out st))) as Hnd by (rewrite Hk; apply NoDup_keep_first).
  split_and!; cbn [ms_out ms_seen].
  - rewrite Hm, map_app, Hk. cbn [map]. rewrite keep_first_snoc, decide_True; [by rewrite app_nil_r|].
    left. rewrite <- Hfp. by apply (list_elem_of_fmap_2 fp).
  - intros k j. by rewrite Hm.
  - assert (∀ o, o ∈ ms_out st → o ≠ kept → fp s ≠ fp o) as Hother.
    { intros o Hoin Hne Heq. apply Hne.
      apply list_elem_of_lookup in Hoin as [j Hj].
      assert (i = j) as <-; [|congruence].
      apply (NoDup_lookup (map fp (ms_out st)) i j (fp s) Hnd);
        rewrite list_lookup_fmap; [by rewrite Hkept; cbn; rewrite Hfp|by rewrite Hj; cbn; rewrite Heq]. }
    assert (∀ o, o ∈ ms_out st → (o = kept → swap = false) →
      o ∈ l ++ [s] ∧ if keepMax then greatest_of (l ++ [s]) o else first_of (l ++ [s]) o) as Hold.
    { intros o Hoin Hsame. destruct (Ho o Hoin) as [Hl Hok]. split; [apply elem_of_snoc; by left|].
      destruct keepMax; [|by apply first_of_snoc]. apply greatest_of_snoc; [done|].
      intros Heq. destruct (decide (o = kept)) as [->|Hne]; [auto|].
      by destruct (Hother o Hoin Hne). }
    destruct swap; [|intros o Hoin; by apply Hold].
    destruct (Hsw eq_refl) as [-> Hgt].
    intros o Hoin. apply list_elem_of_lookup in Hoin as [j Hj].
    destruct (decide (i = j)) as [<-|Hne].
    + rewrite list_lookup_insert_eq in Hj by (by eapply lookup_lt_Some). injection Hj as <-.
      split; [apply elem_of_snoc; by right|].
      intros s' [Hs'| ->]%elem_of_snoc Heq; [|apply fgtb_irrefl].
      destruct (fgtb (s_Value s') (s_Value s)) eqn:Eg; [|done].
      assert (fgtb (s_Value s') (s_Value kept) = true) as Ec by (by eapply fgtb_trans).
      rewrite Hkok in Ec; [done|done|congruence].
    + rewrite list_lookup_insert_ne in Hj by done.
      apply Hold; [by eapply list_elem_of_lookup_2|]. intros ->. exfalso. apply Hne.
      apply (NoDup_lookup (map fp (ms_out st)) i j (fp kept) Hnd); rewrite list_lookup_fmap;
        [by rewrite Hkept|by rewrite Hj].
Qed.

Lemma merge_step_inv keepMax l st s :
  merge_inv keepMax l st → merge_inv keepMax (l ++ [s]) (merge_step Fingerprint keepMax st (Some s)).
Proof.
  intros Hinv. unfold merge_step. cbv zeta. fold (fp s).
  destruct (ms_seen st !! fp s) as [i|] eqn:Ei; [|by apply merge_new].
  pose proof Hinv as (_ & Hs & _). pose proof (proj1 (Hs (fp s) i) Ei) as Hfp.
  rewrite list_lookup_fmap in Hfp. destruct (ms_out st !! i) as [kept|] eqn:Ek; [|done].
  destruct (feqb (s_Value kept) (s_Value s)) eqn:Eeq; cbn [negb].
  - destruct st as [out seen conflicts]. cbn [ms_out ms_seen] in *.
    apply (merge_dup keepMax l (mkMergeState out seen conflicts) s i kept conflicts false); try done.
    intros _ _. unfold fgtb, SFltb. unfold feqb, SFeqb in Eeq.
    by destruct (SFcompare (s_Value kept) (s_Value s)) as [[]|].
  - apply (merge_dup keepMax l st s i kept _ _ Hinv Ei Ek).
    + by intros [? ?]%andb_true_iff.
    + intros [->|?]%andb_false_iff; done.
Qed.

(** The samples of the parts, in merge order. *)
Definition samples (parts : list Vector) : list Sample := omap id (concat parts).

Lemma merge_loop_inv keepMax (xs : list (option Sample)) :
  merge_inv keepMax (omap id xs) (foldl (merge_step Fingerprint keepMax) (mkMergeState [] ∅ 0) xs).
Proof.
  induction xs as [|x xs IH] using rev_ind.
  - split_and!; cbn; [done| |by intros o ?%elem_of_nil].
    intros k i. rewrite lookup_empty. by split.
  - rewrite foldl_app. cbn [foldl]. rewrite omap_app. destruct x as [s|]; cbn [omap list_omap id].
    + by apply merge_step_inv.
    + by rewrite app_nil_r.
Qed.

(** The merge keeps every series exactly once, in the order of its first
    contribution (so of the lexically smallest backend holding it), and keeps a
    sample some backend returned: the first one, or, for the family whose value
    is a last-seen instant, one no other copy exceeds. *)
Theorem mergeVectors_spec parts keepMax :
  let out := (mergeVectors Fingerprint parts keepMax).1 in
  map fp out = keep_first ∅ (map fp (samples parts)) ∧
  NoDup (map fp out) ∧
  ∀ o, o ∈ out →
    o ∈ samples parts ∧
    if keepMax then greatest_of (samples parts) o else first_of (samples parts) o.
Proof.
  intros out. subst out. unfold mergeVectors, samples.
  destruct (merge_loop_inv keepMax (concat parts)) as (Hk & _ & Ho).
  destruct (Nat.eqb_spec (length (concat parts)) 0) as [Hz|_].
  - apply nil_length_inv in Hz. rewrite Hz. split_and!; [done|constructor|].
    by intros o ?%elem_of_nil.
  - cbn [fst]. rewrite Hk. split_and!; [done|apply NoDup_keep_first|done].
Qed.
End merge.

(** ** Failing closed *)

Section failclosed.
Context {E : Type} (Fingerprint : Metric → Z).
Implicit Types (f : @fanoutQuerier E) (legs : list (result (@FanoutError E) Vector)).

Lemma first_error_some order legs e :
  first_error order legs = Some e → ∃ i, i ∈ order ∧ legs !! i = Some (Err e).
Proof.
  induction order as [|i order IH]; cbn [first_error]; [done|].
  destruct (legs !! i) as [[v|e']|] eqn:Ei; intros H.
  - destruct (IH H) as (j & Hj & ?). exists j. split; [by right|done].
  - injection H as ->. exists i. split; [left|done].
  - destruct (IH H) as (j & Hj & ?). exists j. split; [by right|done].
Qed.

Lemma first_error_none order legs :
  first_error order legs = None ↔ ∀ i e, i ∈ order → legs !! i ≠ Some (Err e).
Proof.
  induction order as [|i order IH]; cbn [first_error]; [set_solver|].
  destruct (legs !! i) as [[v|e']|] eqn:Ei.
  - rewrite IH. split; [|set_solver]. intros H j e [->|Hj]%elem_of_cons; [congruence|by apply H].
  - split; [done|]. intros H. exfalso. apply (H i e'); [left|done].
  - rewrite IH. split; [|set_solver]. intros H j e [->|Hj]%elem_of_cons; [congruence|by apply H].
Qed.

(** Every leg answered: the parts are the answers. *)
Lemma parts_of_ok {A} (k : A → result (@FanoutError E) Vector) (l : list A) :
  (∀ i e, map k l !! i ≠ Some (Err e)) → Forall2 (λ b v, k b = Ok v) l (map part_of (map k l)).
Proof.
  induction l as [|b l IH]; intros H; cbn [map]; constructor.
  - specialize (H 0). cbn in H. destruct (k b) as [v|e]; [done|]. by destruct (H e).
  - apply IH. intros i e. apply (H (S i)).
Qed.

(** C33: a fan-out fails closed and does not depend on which backend answers
    first: for every completion order, it returns the merge of all selected
    backends' answers, in name order, or the error of a selected backend that
    failed; a partial merge is never returned, and if one completion order
    succeeds then every order returns the same vector. *)
Theorem issue_fail_closed f fam name query ts order :
  order ≡ₚ seq 0 (length (Select (Some (fq_table f)) fam (fq_az f))) →
  let selected := Select (Some (fq_table f)) fam (fq_az f) in
  match issue Fingerprint order f fam name query ts with
  | Ok v =>
      (∃ vs, Forall2 (λ b v, leg f name query ts b = Ok v) selected vs ∧
             v = (mergeVectors Fingerprint vs (bool_decide (fam = FamilyAlerts))).1) ∧
      ∀ order', order' ≡ₚ order → issue Fingerprint order' f fam name query ts = Ok v
  | Err e => ∃ b, b ∈ selected ∧ leg f name query ts b = Err e
  end.
Proof.
  intros Hord selected. unfold issue. fold selected. fold selected in Hord.
  case_bool_decide as Hs.
  { split; [|done]. exists []. rewrite Hs. by split; [constructor|]. }
  set (legs := map (leg f name query ts) selected).
  assert (∀ o, o ≡ₚ order → first_error o legs = None ↔ ∀ i e, legs !! i ≠ Some (Err e)) as Hnone.
  { intros o Ho. rewrite first_error_none. split; [|intros H i e _; apply H]. intros H i e Hi.
    apply (H i e); [|done]. rewrite Ho, Hord. apply elem_of_seq.
    apply lookup_lt_Some in Hi. unfold legs in Hi. rewrite length_map in Hi. lia. }
  destruct (first_error order legs) as [e|] eqn:Ee.
  - apply first_error_some in Ee as (i & _ & Hi). unfold legs in Hi.
    rewrite list_lookup_fmap in Hi. destruct (selected !! i) as [b|] eqn:Eb; [|done].
    injection Hi as Hi. exists b. split; [by eapply list_elem_of_lookup_2|done].
  - assert (∀ i e, legs !! i ≠ Some (Err e)) as Hok by (by apply (Hnone order)).
    split; [exists (map part_of legs); split; [by apply parts_of_ok|done]|].
    intros order' Ho'. by rewrite (proj2 (Hnone order' Ho') Hok).
Qed.
End failclosed.

(** A collision-free fingerprint, and two stores disagreeing about one series. *)
Definition sample_fingerprint (m : Metric) : Z := Zpos (encode (map_to_list m)).
Definition series_up (store : string) : Metric := {[ "__name__" := "up"; "store" := store ]}.
Definition sample_clients : gmap string (@Client string) := {[
  "metrics-a" := λ q ts, Ok [Some (mkSample (series_up "a") (f_of_Z 1) 0); None;
                             Some (mkSample (series_up "b") (f_of_Z 2) 0)];
  "metrics-b" := λ q ts, Ok [Some (mkSample (series_up "b") (f_of_Z 3) 0)] ]}.
Definition sample_querier : @fanoutQuerier string := mkFanoutQuerier sample_table sample_clients [].

Lemma issue_fail_closed_witness :
  issue sample_fingerprint [1; 0] sample_querier FamilyKSM "kube_pod_info" "up" 0 =
    Ok [mkSample (series_up "a") (f_of_Z 1) 0; mkSample (series_up "b") (f_of_Z 2) 0] ∧
  issue sample_fingerprint [0; 1] sample_querier FamilyKSM "kube_pod_info" "up" 0 =
    Ok [mkSample (series_up "a") (f_of_Z 1) 0; mkSample (series_up "b") (f_of_Z 2) 0].
Proof.
  assert ([1; 0] ≡ₚ seq 0 (length (Select (Some (fq_table sample_querier)) FamilyKSM
    (fq_az sample_querier)))) as Hp.
  { change (length _) with 2. cbn [seq]. apply Permutation_swap. }
  pose proof (issue_fail_closed sample_fingerprint sample_querier FamilyKSM "kube_pod_info" "up" 0
    [1; 0] Hp) as H.
  assert (issue sample_fingerprint [1; 0] sample_querier FamilyKSM "kube_pod_info" "up" 0 =
    Ok [mkSample (series_up "a") (f_of_Z 1) 0; mkSample (series_up "b") (f_of_Z 2) 0]) as E
    by (vm_compute; reflexivity).
  split; [exact E|]. rewrite E in H. apply (proj2 H). apply Permutation_swap.
Defined.
