(* ===== verification/RedMetrics.v ===== *)
(** pkg/build/redmetrics.go: the rate / error-rate / latency join of the
    service-graph parse.

    Every request-total series records the pairs it resolved to under its
    series identity; the failure counter and the duration histogram join those
    pairs through the same identity. The accumulators keep the contributions
    apart and sum them in ascending order when they are attached, and the
    theorems show the two facts this is for: the identity separates metrics
    that differ, and the measurement of every pair is a function of the SETS of
    upstream samples, not of the order they arrive in.

    The theorems about pkg/build/redmetrics.go: the series identity separates
    metrics that differ in any label it looks at, and the measurement attached
    to a pair is a function of the multisets of upstream samples. *)

From S2P Require Import Prelude GoStrings Float64 GraphEdge PairScope Fanout Strconv Histogram.

(** pkg/build/redmetrics.go, [pairKey] *)
Record pairKey := mkPairKey { src : string; tgt : string }.

#[export] Instance pairKey_eq_dec : EqDecision pairKey.
Proof. solve_decision. Defined.
#[export] Instance pairKey_countable : Countable pairKey.
Proof.
  refine (inj_countable' (λ k, (src k, tgt k)) (λ p, mkPairKey p.1 p.2) _). by intros [].
Defined.

(** pkg/build/redmetrics.go, [redPairAcc]: the bucket map is keyed by floats,
    whose equality is Go's [==]; it is kept as its entries. *)
Record redPairAcc := mkRedPairAcc {
  rates : list float64;
  fails : list float64;
  buckets : list (float64 * list float64);
  ineligible : bool;
  noUsableLe : bool;
}.

Definition no_acc : redPairAcc := mkRedPairAcc [] [] [] false false.

(** pkg/build/redmetrics.go, [redJoin] *)
Record redJoin := mkRedJoin {
  joinFailures : bool;
  joinDuration : bool;
  seriesToPairs : gmap string (list pairKey);
  acc : gmap pairKey redPairAcc;
}.

(** pkg/build/redmetrics.go, [newRedJoin] *)
Definition newRedJoin (joinFailures joinDuration : bool) : redJoin :=
  mkRedJoin joinFailures joinDuration ∅ ∅.

(** pkg/build/redmetrics.go, [redJoin.joinKeyed] *)
Definition joinKeyed (j : redJoin) : bool := joinFailures j || joinDuration j.

(** pkg/build/redmetrics.go, [redJoin.pairAcc]: the accumulator of a pair,
    created empty; [pair_update] is a write through the returned pointer. *)
Definition pairAcc (j : redJoin) (k : pairKey) : redPairAcc := default no_acc (acc j !! k).
Definition pair_update (j : redJoin) (k : pairKey) (f : redPairAcc → redPairAcc) : redJoin :=
  mkRedJoin (joinFailures j) (joinDuration j) (seriesToPairs j)
            (<[k := f (pairAcc j k)]> (acc j)).

(** pkg/build/redmetrics.go, [appendUniquePair] *)
Definition appendUniquePair (s : list pairKey) (k : pairKey) : list pairKey :=
  if decide (k ∈ s) then s else s ++ [k].

(** The pairs a series identity joins. *)
Definition pairs_of (j : redJoin) (sk : string) : list pairKey := default [] (seriesToPairs j !! sk).

(** The writes through a [*redPairAcc]. *)
Definition reject (a : redPairAcc) : redPairAcc :=
  mkRedPairAcc (rates a) (fails a) (buckets a) true (noUsableLe a).
Definition add_rate (r : float64) (a : redPairAcc) : redPairAcc :=
  mkRedPairAcc (rates a ++ [r]) (fails a) (buckets a) (ineligible a) (noUsableLe a).
Definition add_fail (v : float64) (a : redPairAcc) : redPairAcc :=
  mkRedPairAcc (rates a) (fails a ++ [v]) (buckets a) (ineligible a) (noUsableLe a).
Definition no_le (a : redPairAcc) : redPairAcc :=
  mkRedPairAcc (rates a) (fails a) (buckets a) (ineligible a) true.

(** [m\[le\] = append(m\[le\], v)] on a float-keyed map: the entry whose key is
    [==] takes the new key's spelling. *)
Fixpoint bucket_add (le v : float64) (bs : list (float64 * list float64))
  : list (float64 * list float64) :=
  match bs with
  | [] => [(le, [v])]
  | (l, cs) :: rest =>
      if feqb l le then (le, cs ++ [v]) :: rest else (l, cs) :: bucket_add le v rest
  end.
Definition add_bucket (le v : float64) (a : redPairAcc) : redPairAcc :=
  mkRedPairAcc (rates a) (fails a) (bucket_add le v (buckets a)) (ineligible a) (noUsableLe a).

(** pkg/build/redmetrics.go, [redJoin.recordSeries] *)
Definition recordSeries (j : redJoin) (k : pairKey) (eligible inScope : bool)
  (rate : float64) (sk : string) : redJoin :=
  if negb eligible then pair_update j k reject
  else if negb inScope then j
  else let j := pair_update j k (add_rate rate) in
       if joinKeyed j
       then mkRedJoin (joinFailures j) (joinDuration j)
              (<[sk := appendUniquePair (pairs_of j sk) k]> (seriesToPairs j)) (acc j)
       else j.

(** ** Series identity *)

Definition NUL : string := String (Ascii.ascii_of_nat 0) "".

(** pkg/build/redmetrics.go@299-306, [seriesKeyExcluding]: the sorted names. *)
Definition key_names (m : gmap string string) (skip : string) : list string :=
  sort_func String.compare
    (filter (λ k, k ≠ "__name__" ∧ ¬ (skip ≠ "" ∧ k = skip)) (elements (dom m))).

(** pkg/build/redmetrics.go, [seriesKeyExcluding] *)
Definition seriesKeyExcluding (m : Metric) (skip : string) : string :=
  join NUL (map (λ n, n +:+ "=" +:+ label_of m n) (key_names m skip)).

(** pkg/build/redmetrics.go, [seriesKeyOf] *)
Definition seriesKeyOf (m : Metric) : string := seriesKeyExcluding m "".
(** pkg/build/redmetrics.go, [bucketSeriesKeyOf] *)
Definition bucketSeriesKeyOf (m : Metric) : string := seriesKeyExcluding m "le".

(** ** The companion vectors *)

(** pkg/build/redmetrics.go@157-162, [redJoin.accumulateFailures]: the samples
    that contribute. *)
Definition failure_counts (v : float64) : bool := fgtb v f_zero && negb (finf v).

(** pkg/build/redmetrics.go@146-167, [redJoin.accumulateFailures]: one sample. *)
Definition failure_step (st : redJoin * nat * nat) (s : Sample) : redJoin * nat * nat :=
  let '(j, matched, unmatched) := st in
  match pairs_of j (seriesKeyOf (s_Metric s)) with
  | [] => (j, matched, S unmatched)
  | pairs =>
      if negb (failure_counts (s_Value s)) then (j, S matched, unmatched)
      else (fold_left (λ j k, pair_update j k (add_fail (s_Value s))) pairs j, S matched, unmatched)
  end.

(** pkg/build/redmetrics.go, [redJoin.accumulateFailures] *)
Definition accumulateFailures (j : redJoin) (failed : list Sample) : redJoin * nat * nat :=
  fold_left failure_step failed (j, 0, 0).

(** pkg/build/redmetrics.go@190-192, [redJoin.accumulateDuration]: the counts
    that are kept, zero included. *)
Definition duration_counts (v : float64) : bool := negb (fnan v || finf v || fltb v f_zero).

(** pkg/build/redmetrics.go@185-214, [redJoin.accumulateDuration]: one sample. *)
Definition duration_step (st : redJoin * nat * nat * bool) (s : Sample) : redJoin * nat * nat * bool :=
  let '(j, matched, unmatched, sawNoLe) := st in
  if negb (duration_counts (s_Value s)) then st else
  match pairs_of j (bucketSeriesKeyOf (s_Metric s)) with
  | [] => (j, matched, S unmatched, sawNoLe)
  | pairs =>
      match parseLe (label_of (s_Metric s) "le") with
      | None => (fold_left (λ j k, pair_update j k no_le) pairs j, S matched, unmatched, true)
      | Some le => (fold_left (λ j k, pair_update j k (add_bucket le (s_Value s))) pairs j,
                    S matched, unmatched, sawNoLe)
      end
  end.

(** pkg/build/redmetrics.go, [redJoin.accumulateDuration] *)
Definition accumulateDuration (j : redJoin) (duration : list Sample) : redJoin * nat * nat * bool :=
  fold_left duration_step duration (j, 0, 0, false).

(** ** Attachment *)

(** pkg/build/redmetrics.go, [sumAscending] *)
Definition sumAscending (xs : list float64) : float64 := fsum (sort_func fcmp xs).

(** pkg/build/redmetrics.go, [redPairAcc.eligible]: the nil accumulator is the
    empty one, which has no rates. *)
Definition eligible (a : redPairAcc) : bool :=
  negb (ineligible a) && negb (bool_decide (rates a = [])).

(** pkg/build/redmetrics.go@244-249, [redPairAcc.attachMetrics]: the clamp. *)
Definition clamp_rate (er : float64) : float64 :=
  if fnan er || fltb er f_zero then f_zero
  else if fgtb er (f_of_Z 1) then f_of_Z 1 else er.

(** pkg/build/redmetrics.go@252-262, [redPairAcc.attachMetrics]: the latency. *)
Definition p90 (a : redPairAcc) : option float64 :=
  match classicQuantile (fdiv (f_of_Z 9) (f_of_Z 10))
          (map (λ '(l, cs), mkBucket l (sumAscending cs)) (buckets a)) with
  | Some q => let ms := fmul q (f_of_Z 1000) in
              if finf ms || fnan ms then None else Some ms
  | None => None
  end.

(** pkg/build/redmetrics.go, [redPairAcc.attachMetrics] *)
Definition attachMetrics (a : redPairAcc) (failedOK durationOK : bool) : option EdgeMetrics :=
  if negb (eligible a) then None else
  let rate := sumAscending (rates a) in
  if negb (fgtb rate f_zero) || finf rate then None else
  Some (mkEdgeMetrics rate
    (if failedOK then Some (clamp_rate (fdiv (sumAscending (fails a)) rate)) else None)
    (if durationOK && negb (bool_decide (buckets a = [])) && negb (noUsableLe a)
     then p90 a else None)).

(** pkg/build/redmetrics.go, [redSeriesInScope] *)
Definition redSeriesInScope (m : Metric) : bool := negb (bool_decide (label_of m "edge_relation" = "link")).

(** ** Identity *)

(** A metric as Prometheus writes it: no NUL anywhere, no ["="] in a name. *)
Definition prom_metric (m : Metric) : Prop :=
  ∀ n v, m !! n = Some v →
    contains_byte (Ascii.ascii_of_nat 0) n = false ∧
    contains_byte (Ascii.ascii_of_nat 0) v = false ∧ contains_byte "=" n = false.

(** The labels an identity is made of. *)
Definition identity_labels (skip : string) (m : gmap string string) : gmap string string :=
  filter (λ kv : string * string, kv.1 ≠ "__name__" ∧ ¬ (skip ≠ "" ∧ kv.1 = skip)) m.

Definition key_part (m : Metric) (n : string) : string := n +:+ "=" +:+ label_of m n.

Lemma elem_of_key_names m skip n :
  n ∈ key_names m skip ↔ n ≠ "__name__" ∧ ¬ (skip ≠ "" ∧ n = skip) ∧ is_Some (m !! n).
Proof.
  unfold key_names. rewrite elem_of_sort_func, list_elem_of_filter, elem_of_elements.
  rewrite (elem_of_dom (D:=gset string) (M:=gmap string) m n). tauto.
Qed.

Lemma NoDup_key_names m skip : NoDup (key_names m skip).
Proof. unfold key_names. apply NoDup_sort_func, NoDup_filter, NoDup_elements. Qed.

Lemma key_part_no_nul m n :
  prom_metric m → is_Some (m !! n) → contains_byte (Ascii.ascii_of_nat 0) (key_part m n) = false.
Proof.
  intros Hm [v Hv]. destruct (Hm n v Hv) as (H1 & H2 & _).
  unfold key_part, label_of. rewrite Hv. cbn [default from_option].
  change (id v) with v. by rewrite !contains_byte_app, H1, H2.
Qed.

Lemma key_part_cut m n :
  prom_metric m → is_Some (m !! n) → cut "=" (key_part m n) = (n, label_of m n, true).
Proof. intros Hm [v Hv]. destruct (Hm n v Hv) as (_ & _ & H3). by apply cut_found. Qed.

Lemma key_part_ne m n : key_part m n ≠ "".
Proof. by destruct n. Qed.

(** The parts are recovered from the identity. *)
Lemma key_parts_inj l1 l2 :
  (∀ p, p ∈ l1 ++ l2 → contains_byte (Ascii.ascii_of_nat 0) p = false ∧ p ≠ "") →
  join NUL l1 = join NUL l2 → l1 = l2.
Proof.
  intros Hp Hj. destruct l1 as [|x l1], l2 as [|y l2]; [done| | |].
  - exfalso. destruct (Hp y ltac:(set_solver)) as [_ Hy].
    destruct l2; cbn in Hj; destruct y; done.
  - exfalso. destruct (Hp x ltac:(set_solver)) as [_ Hx].
    destruct l1; cbn in Hj; destruct x; done.
  - rewrite <- (split_join (Ascii.ascii_of_nat 0) x l1), <- (split_join (Ascii.ascii_of_nat 0) y l2).
    + f_equal. exact Hj.
    + apply Forall_forall. intros p Hin. apply Hp. set_solver.
    + apply Forall_forall. intros p Hin. apply Hp. set_solver.
Qed.

Lemma lookup_identity skip m n :
  n ≠ "__name__" → ¬ (skip ≠ "" ∧ n = skip) → identity_labels skip m !! n = m !! n.
Proof.
  intros H1 H2. unfold identity_labels. rewrite map_lookup_filter.
  destruct (m !! n); [|done]. cbn. by rewrite option_guard_True.
Qed.

Lemma lookup_identity_None skip m n :
  ¬ (n ≠ "__name__" ∧ ¬ (skip ≠ "" ∧ n = skip)) → identity_labels skip m !! n = None.
Proof.
  intros H. unfold identity_labels. rewrite map_lookup_filter.
  destruct (m !! n); [|done]. cbn. by rewrite option_guard_False.
Qed.

Lemma key_names_identity skip m : key_names m skip = key_names (identity_labels skip m) "".
Proof.
  unfold key_names. apply (sort_func_ext String.compare).
  apply NoDup_Permutation; [apply NoDup_filter, NoDup_elements..|].
  intros n. rewrite !list_elem_of_filter, !elem_of_elements.
  rewrite !(elem_of_dom (D:=gset string) (M:=gmap string)).
  destruct (decide (n ≠ "__name__" ∧ ¬ (skip ≠ "" ∧ n = skip))) as [[H1 H2]|Hn].
  - rewrite lookup_identity by done. split; [intros [_ ?]|intros [_ ?]]; tauto.
  - rewrite lookup_identity_None by done. split; [tauto|intros [_ [? ?]]; done].
Qed.

Lemma lookup_identity_parts s m n v :
  identity_labels s m !! n = Some v ↔ (n, v) ∈ map (λ n, (n, label_of m n)) (key_names m s).
Proof.
  rewrite list_elem_of_fmap. unfold identity_labels, label_of.
  rewrite map_lookup_filter_Some. cbn. split.
  - intros [Hv [? ?]]. exists n. rewrite Hv. split; [done|]. apply elem_of_key_names. eauto.
  - intros (n' & [= -> ->] & Hn). apply elem_of_key_names in Hn as (? & ? & [w Hw]).
    by rewrite Hw.
Qed.

(** Two Prometheus metrics have the same series identity exactly when they
    agree on every label the identity looks at; in particular a histogram
    series and a request series join exactly when they agree on everything but
    the name and the [le] boundary. *)
Theorem series_key_identity m1 m2 s1 s2 :
  prom_metric m1 → prom_metric m2 →
  seriesKeyExcluding m1 s1 = seriesKeyExcluding m2 s2 ↔
  identity_labels s1 m1 = identity_labels s2 m2.
Proof.
  intros H1 H2. unfold seriesKeyExcluding.
  change (λ n : string, n +:+ "=" +:+ label_of ?m n) with (key_part m).
  assert (∀ m s n, n ∈ key_names m s → is_Some (m !! n)) as Hsome.
  { intros m s n Hn. by apply elem_of_key_names in Hn as (_ & _ & ?). }
  split.
  - intros Hj. apply key_parts_inj in Hj.
    2:{ intros p Hp. apply elem_of_app in Hp as [Hp|Hp];
        apply list_elem_of_fmap in Hp as (n & -> & Hn); (split; [|apply key_part_ne]);
        apply key_part_no_nul; eauto. }
    assert (map (λ n, (n, label_of m1 n)) (key_names m1 s1) =
            map (λ n, (n, label_of m2 n)) (key_names m2 s2)) as Hcut.
    { apply (f_equal (map (λ p, (cut "=" p).1))) in Hj. rewrite !map_map in Hj.
      transitivity (map (λ n, (cut "=" (key_part m1 n)).1) (key_names m1 s1)).
      - apply map_ext_in. intros n Hn. apply list_elem_of_In in Hn.
        by rewrite key_part_cut by eauto.
      - rewrite Hj. apply map_ext_in. intros n Hn. apply list_elem_of_In in Hn.
        by rewrite key_part_cut by eauto. }
    apply map_eq. intros n. apply option_eq. intros v.
    by rewrite !lookup_identity_parts, Hcut.
  - intros Heq. f_equal.
    rewrite (key_names_identity s1 m1), (key_names_identity s2 m2), Heq.
    apply map_ext_in. intros n Hn. apply list_elem_of_In in Hn.
    assert (n ∈ key_names m1 s1) as Hn1 by (by rewrite key_names_identity, Heq).
    rewrite <- key_names_identity in Hn.
    apply elem_of_key_names in Hn as (Ha & Hb & _), Hn1 as (_ & Hc & _).
    unfold key_part, label_of.
    by rewrite <- (lookup_identity s1 m1), Heq, lookup_identity.
Qed.

(** ** The accumulators, one pair at a time *)

Lemma pairAcc_update j k f k' :
  pairAcc (pair_update j k f) k' = if decide (k' = k) then f (pairAcc j k) else pairAcc j k'.
Proof.
  unfold pairAcc, pair_update. cbn [acc]. case_decide as H.
  - subst. by rewrite lookup_insert_eq.
  - by rewrite lookup_insert_ne.
Qed.

Lemma pairs_of_update j k f sk : pairs_of (pair_update j k f) sk = pairs_of j sk.
Proof. done. Qed.

Lemma pairs_of_updates ks f j sk :
  pairs_of (fold_left (λ j k, pair_update j k f) ks j) sk = pairs_of j sk.
Proof. revert j. induction ks as [|k ks IH]; intros j; [done|]. cbn. by rewrite IH. Qed.

Lemma pairAcc_updates ks f j k :
  NoDup ks →
  pairAcc (fold_left (λ j k, pair_update j k f) ks j) k =
  if decide (k ∈ ks) then f (pairAcc j k) else pairAcc j k.
Proof.
  revert j. induction ks as [|x ks IH]; intros j Hnd; cbn [fold_left].
  - rewrite decide_False by set_solver. done.
  - apply NoDup_cons in Hnd as [Hx Hnd]. rewrite IH by done.
    rewrite pairAcc_update. destruct (decide (k = x)) as [->|Hne].
    + rewrite decide_False by done. by rewrite decide_True by set_solver.
    + destruct (decide (k ∈ ks)).
      * by rewrite decide_True by set_solver.
      * by rewrite decide_False by set_solver.
Qed.

(** One contribution of a request-total series. *)
Record RedEvent := mkRedEvent {
  ev_pair : pairKey; ev_eligible : bool; ev_inScope : bool; ev_rate : float64; ev_key : string;
}.
Definition record (j : redJoin) (e : RedEvent) : redJoin :=
  recordSeries j (ev_pair e) (ev_eligible e) (ev_inScope e) (ev_rate e) (ev_key e).

Definition measures (e : RedEvent) : bool := ev_eligible e && ev_inScope e.
Definition rate_for (k : pairKey) (e : RedEvent) : option float64 :=
  if bool_decide (ev_pair e = k) && measures e then Some (ev_rate e) else None.
Definition rejects (k : pairKey) (e : RedEvent) : bool :=
  bool_decide (ev_pair e = k) && negb (ev_eligible e).
Definition joins (keyed : bool) (sk : string) (k : pairKey) (e : RedEvent) : bool :=
  keyed && measures e && bool_decide (ev_pair e = k) && bool_decide (ev_key e = sk).

Definition acc_after (keyed : bool) (evs : list RedEvent) (k : pairKey) : redPairAcc :=
  mkRedPairAcc (omap (rate_for k) evs) [] [] (existsb (rejects k) evs) false.

Lemma existsb_snoc {A} (f : A → bool) l x : existsb f (l ++ [x]) = existsb f l || f x.
Proof. by rewrite existsb_app; cbn; rewrite orb_false_r. Qed.

Lemma existsb_perm {A} (f : A → bool) l1 l2 : l1 ≡ₚ l2 → existsb f l1 = existsb f l2.
Proof.
  induction 1; cbn; [done|by f_equal| |congruence].
  destruct (f x), (f y); done.
Qed.

Definition recorded (jf jd : bool) (evs : list RedEvent) : redJoin :=
  fold_left record evs (newRedJoin jf jd).

Lemma recorded_snoc jf jd evs e : recorded jf jd (evs ++ [e]) = record (recorded jf jd evs) e.
Proof. unfold recorded. by rewrite fold_left_app. Qed.

Lemma recorded_keyed jf jd evs : joinKeyed (recorded jf jd evs) = jf || jd.
Proof.
  induction evs as [|e evs IH] using rev_ind; [done|].
  rewrite recorded_snoc. unfold record, recordSeries.
  destruct (ev_eligible e); [|done]. destruct (ev_inScope e); [|done].
  transitivity (joinKeyed (recorded jf jd evs)); [|exact IH]. cbv zeta.
  by destruct (joinKeyed (pair_update _ _ _)).
Qed.

Lemma recorded_acc jf jd evs k :
  pairAcc (recorded jf jd evs) k = acc_after (jf || jd) evs k.
Proof.
  induction evs as [|e evs IH] using rev_ind; [done|].
  rewrite recorded_snoc. unfold record, recordSeries, acc_after.
  rewrite omap_app, existsb_snoc. cbn [omap list_omap].
  unfold rate_for at 2, rejects at 2, measures.
  assert (∀ sp, pairAcc (mkRedJoin (joinFailures (recorded jf jd evs)) (joinDuration (recorded jf jd evs))
     sp (acc (pair_update (recorded jf jd evs) (ev_pair e) (add_rate (ev_rate e))))) k =
     pairAcc (pair_update (recorded jf jd evs) (ev_pair e) (add_rate (ev_rate e))) k) as Hsp by done.
  destruct (ev_eligible e); cbn [negb andb].
  - destruct (ev_inScope e); cbn [negb andb].
    + assert (pairAcc (pair_update (recorded jf jd evs) (ev_pair e) (add_rate (ev_rate e))) k =
        mkRedPairAcc (omap (rate_for k) evs ++ (if bool_decide (ev_pair e = k) then [ev_rate e] else []))
          [] [] (existsb (rejects k) evs) false) as Hk.
      { rewrite pairAcc_update. case_decide as Hd.
        - subst k. rewrite IH. rewrite bool_decide_eq_true_2 by done. done.
        - rewrite IH, bool_decide_eq_false_2 by congruence. by rewrite app_nil_r. }
      rewrite andb_true_r, andb_false_r, orb_false_r.
      transitivity (pairAcc (pair_update (recorded jf jd evs) (ev_pair e) (add_rate (ev_rate e))) k).
      { destruct (joinKeyed _); done. }
      rewrite Hk. destruct (bool_decide _); done.
    + rewrite !andb_false_r, orb_false_r, app_nil_r. done.
  - rewrite andb_false_r, app_nil_r, andb_true_r, pairAcc_update. case_decide as Hd.
    + subst k. rewrite IH, bool_decide_eq_true_2 by done. unfold reject, acc_after. cbn.
      by rewrite orb_true_r.
    + by rewrite IH, bool_decide_eq_false_2, orb_false_r by congruence.
Qed.

Lemma NoDup_appendUniquePair s k : NoDup s → NoDup (appendUniquePair s k).
Proof.
  intros H. unfold appendUniquePair. case_decide; [done|].
  apply NoDup_app. split; [done|]. split; [|apply NoDup_singleton]. set_solver.
Qed.

Lemma elem_of_appendUniquePair s k k' : k' ∈ appendUniquePair s k ↔ k' ∈ s ∨ k' = k.
Proof. unfold appendUniquePair. case_decide; set_solver. Qed.

Lemma recorded_pairs jf jd evs sk :
  NoDup (pairs_of (recorded jf jd evs) sk) ∧
  ∀ k, k ∈ pairs_of (recorded jf jd evs) sk ↔ existsb (joins (jf || jd) sk k) evs = true.
Proof.
  induction evs as [|e evs [IHn IH]] using rev_ind.
  { split; [apply NoDup_nil_2|]. intros k. cbn. set_solver. }
  rewrite recorded_snoc. pose proof (recorded_keyed jf jd evs) as Hkey.
  assert (pairs_of (record (recorded jf jd evs) e) sk =
    if (jf || jd) && measures e && bool_decide (ev_key e = sk)
    then appendUniquePair (pairs_of (recorded jf jd evs) sk) (ev_pair e)
    else pairs_of (recorded jf jd evs) sk) as ->.
  { unfold record, recordSeries, measures.
    destruct (ev_eligible e); cbn [negb andb]; [|by rewrite andb_false_r].
    destruct (ev_inScope e); cbn [negb andb]; [|by rewrite andb_false_r].
    change (joinKeyed (pair_update ?j _ _)) with (joinKeyed j). rewrite Hkey.
    destruct (jf || jd); cbn [andb]; [|done].
    unfold pairs_of at 1. cbn [seriesToPairs pair_update].
    case_bool_decide as Hd.
    - subst sk. by rewrite lookup_insert_eq.
    - by rewrite lookup_insert_ne. }
  destruct ((jf || jd) && measures e && bool_decide (ev_key e = sk)) eqn:Ec.
  - split; [by apply NoDup_appendUniquePair|]. intros k.
    rewrite elem_of_appendUniquePair, IH, existsb_snoc, orb_true_iff. unfold joins at 3.
    apply andb_true_iff in Ec as [Ec1 Ec2]. rewrite Ec1, Ec2, andb_true_r. cbn [andb].
    rewrite bool_decide_eq_true. intuition congruence.
  - split; [done|]. intros k. rewrite IH, existsb_snoc, orb_true_iff. unfold joins at 3.
    rewrite !andb_true_iff, !bool_decide_eq_true.
    rewrite !andb_false_iff, bool_decide_eq_false in Ec.
    split; [tauto|]. intros [?|[[[? ?] ?] ?]]; [done|]. destruct Ec as [[?|?]|?]; congruence.
Qed.

(** ** The companion vectors *)

Definition fails_k (j : redJoin) (k : pairKey) (s : Sample) : option float64 :=
  if bool_decide (k ∈ pairs_of j (seriesKeyOf (s_Metric s))) && failure_counts (s_Value s)
  then Some (s_Value s) else None.

Definition with_fails (a : redPairAcc) (vs : list float64) : redPairAcc :=
  mkRedPairAcc (rates a) (fails a ++ vs) (buckets a) (ineligible a) (noUsableLe a).

Definition joins_nodup (j : redJoin) : Prop := ∀ sk, NoDup (pairs_of j sk).

Lemma failure_step_spec j m u s :
  joins_nodup j →
  (∀ sk, pairs_of (failure_step (j, m, u) s).1.1 sk = pairs_of j sk) ∧
  ∀ k, pairAcc (failure_step (j, m, u) s).1.1 k =
       with_fails (pairAcc j k) (match fails_k j k s with Some v => [v] | None => [] end).
Proof.
  intros Hnd. unfold failure_step, fails_k.
  assert (∀ a, with_fails a [] = a) as Hnil by (intros []; unfold with_fails; by rewrite app_nil_r).
  destruct (pairs_of j (seriesKeyOf (s_Metric s))) as [|p ps] eqn:Ep; cbn [fst].
  { split; [done|]. intros k. rewrite bool_decide_eq_false_2 by set_solver. by rewrite Hnil. }
  destruct (failure_counts (s_Value s)); cbn [negb fst].
  - split; [intros sk; apply pairs_of_updates|]. intros k.
    rewrite pairAcc_updates by (rewrite <- Ep; apply Hnd). rewrite andb_true_r.
    case_decide as Hd.
    + by rewrite bool_decide_eq_true_2.
    + by rewrite bool_decide_eq_false_2, Hnil.
  - split; [done|]. intros k. by rewrite andb_false_r, Hnil.
Qed.

Lemma accumulateFailures_spec failed j :
  joins_nodup j →
  (∀ sk, pairs_of (accumulateFailures j failed).1.1 sk = pairs_of j sk) ∧
  ∀ k, pairAcc (accumulateFailures j failed).1.1 k =
       with_fails (pairAcc j k) (omap (fails_k j k) failed).
Proof.
  intros Hnd. unfold accumulateFailures. induction failed as [|s l IH] using rev_ind.
  { split; [done|]. intros k. cbn. destruct (pairAcc j k); unfold with_fails; cbn.
    by rewrite app_nil_r. }
  rewrite fold_left_app. cbn [fold_left].
  destruct (fold_left failure_step l (j, 0, 0)) as [[j' m] u]. cbn [fst] in IH.
  destruct IH as [IHp IHa].
  assert (joins_nodup j') as Hnd' by (intros sk; rewrite IHp; apply Hnd).
  destruct (failure_step_spec j' m u s Hnd') as [Hp Ha].
  split; [intros sk; by rewrite Hp, IHp|]. intros k.
  rewrite Ha, IHa, omap_app. unfold with_fails at 1. cbn [with_fails rates fails buckets ineligible noUsableLe].
  unfold with_fails. f_equal. rewrite <- app_assoc. f_equal. f_equal. cbn.
  unfold fails_k. by rewrite IHp.
Qed.

(** What a duration sample contributes to a pair: an unusable boundary, or a
    count at a boundary. *)
Definition duration_k (j : redJoin) (k : pairKey) (s : Sample) : option (option (float64 * float64)) :=
  if bool_decide (k ∈ pairs_of j (bucketSeriesKeyOf (s_Metric s))) && duration_counts (s_Value s)
  then Some (match parseLe (label_of (s_Metric s) "le") with
             | Some le => Some (le, s_Value s)
             | None => None
             end)
  else None.

Definition bucket_fold (cs : list (float64 * float64)) (bs : list (float64 * list float64)) :=
  fold_left (λ bs '(le, v), bucket_add le v bs) cs bs.

Definition with_durations (a : redPairAcc) (ds : list (option (float64 * float64))) : redPairAcc :=
  mkRedPairAcc (rates a) (fails a) (bucket_fold (omap id ds) (buckets a)) (ineligible a)
    (noUsableLe a || existsb (λ d, match d with None => true | _ => false end) ds).

Lemma with_durations_nil a : with_durations a [] = a.
Proof. destruct a. unfold with_durations. cbn. by rewrite orb_false_r. Qed.

Lemma with_durations_app a l1 l2 :
  with_durations a (l1 ++ l2) = with_durations (with_durations a l1) l2.
Proof.
  unfold with_durations, bucket_fold. cbn. f_equal.
  - by rewrite omap_app, fold_left_app.
  - by rewrite existsb_app, orb_assoc.
Qed.

Lemma duration_step_spec st s :
  joins_nodup st.1.1.1 →
  (∀ sk, pairs_of (duration_step st s).1.1.1 sk = pairs_of st.1.1.1 sk) ∧
  ∀ k, pairAcc (duration_step st s).1.1.1 k =
       with_durations (pairAcc st.1.1.1 k)
         (match duration_k st.1.1.1 k s with Some v => [v] | None => [] end).
Proof.
  destruct st as [[[j m] u] w]. cbn [fst]. intros Hnd. unfold duration_step, duration_k.
  destruct (duration_counts (s_Value s)); cbn [negb fst].
  2:{ split; [done|]. intros k. by rewrite andb_false_r, with_durations_nil. }
  destruct (pairs_of j (bucketSeriesKeyOf (s_Metric s))) as [|p ps] eqn:Ep; cbn [fst].
  { split; [done|]. intros k. rewrite bool_decide_eq_false_2 by set_solver.
    by rewrite with_durations_nil. }
  assert (∀ f, (∀ sk, pairs_of (fold_left (λ j k, pair_update j k f) (p :: ps) j) sk = pairs_of j sk) ∧
    ∀ k, pairAcc (fold_left (λ j k, pair_update j k f) (p :: ps) j) k =
         if bool_decide (k ∈ p :: ps) then f (pairAcc j k) else pairAcc j k) as Hf.
  { intros f. split; [intros sk; apply pairs_of_updates|]. intros k.
    rewrite pairAcc_updates by (rewrite <- Ep; apply Hnd).
    destruct (decide (k ∈ p :: ps)).
    - by rewrite bool_decide_eq_true_2.
    - by rewrite bool_decide_eq_false_2. }
  destruct (parseLe _) as [le|]; cbn [fst]; (split; [apply Hf|]); intros k;
    destruct (Hf (match parseLe (label_of (s_Metric s) "le") with
                  | Some le => add_bucket le (s_Value s) | None => no_le end)) as [_ _];
    rewrite (proj2 (Hf _)), andb_true_r; destruct (bool_decide (k ∈ p :: ps));
    try by rewrite with_durations_nil.
  - unfold with_durations, add_bucket, bucket_fold. cbn. by rewrite orb_false_r.
  - unfold with_durations, no_le, bucket_fold. cbn. by rewrite orb_true_r.
Qed.

Lemma accumulateDuration_spec dur j :
  joins_nodup j → ∀ k,
  pairAcc (accumulateDuration j dur).1.1.1 k = with_durations (pairAcc j k) (omap (duration_k j k) dur).
Proof.
  intros Hnd. unfold accumulateDuration.
  assert ((∀ sk, pairs_of (fold_left duration_step dur (j, 0, 0, false)).1.1.1 sk = pairs_of j sk) ∧
    ∀ k, pairAcc (fold_left duration_step dur (j, 0, 0, false)).1.1.1 k =
         with_durations (pairAcc j k) (omap (duration_k j k) dur)) as [_ ?]; [|done].
  induction dur as [|s l IH] using rev_ind.
  { split; [done|]. intros k. by rewrite with_durations_nil. }
  rewrite fold_left_app. cbn [fold_left]. destruct IH as [IHp IHa].
  set (st := fold_left duration_step l (j, 0, 0, false)) in *. clearbody st.
  assert (joins_nodup st.1.1.1) as Hnd' by (intros sk; rewrite IHp; apply Hnd).
  destruct (duration_step_spec st s Hnd') as [Hp Ha].
  split; [intros sk; by rewrite Hp, IHp|]. intros k.
  rewrite Ha, IHa, omap_app, with_durations_app. f_equal. cbn.
  unfold duration_k. by rewrite IHp.
Qed.

(** ** The bucket map *)

(** A boundary whose Go key is unambiguous: neither NaN nor the negative zero. *)
Definition bkey (l : float64) : Prop := fnan l = false ∧ l ≠ S754_zero true.

Lemma feqb_bkey l l' : bkey l → bkey l' → feqb l l' = true ↔ l = l'.
Proof.
  intros [Hn Hz] [Hn' Hz']. split; [|intros ->; by apply feqb_refl].
  unfold feqb, SFeqb. intros H.
  assert (fcmp l l' = Eq) as [->|(s & t & -> & ->)]%fcmp_Eq.
  - unfold fcmp. rewrite Hn, Hn'. by destruct (SFcompare l l') as [[]|].
  - done.
  - by destruct s, t.
Qed.

(** The counts stored at a boundary. *)
Fixpoint bget (l : float64) (bs : list (float64 * list float64)) : list float64 :=
  match bs with
  | [] => []
  | (l', cs) :: rest => if decide (l' = l) then cs else bget l rest
  end.

Lemma bucket_add_spec l v bs :
  bkey l → (∀ x, x ∈ bs.*1 → bkey x) → NoDup bs.*1 →
  (bucket_add l v bs).*1 = (if decide (l ∈ bs.*1) then bs.*1 else bs.*1 ++ [l]) ∧
  ∀ x, bget x (bucket_add l v bs) = if decide (x = l) then bget x bs ++ [v] else bget x bs.
Proof.
  intros Hl. induction bs as [|[y cs] bs IH]; intros Hk Hnd.
  - cbn. rewrite decide_False by set_solver. split; [done|]. intros x.
    destruct (decide (l = x)), (decide (x = l)); congruence.
  - cbn [bucket_add fmap list_fmap fst] in *. apply NoDup_cons in Hnd as [Hy Hnd].
    assert (bkey y) as Hby by (apply Hk; set_solver).
    destruct (feqb y l) eqn:E.
    + apply feqb_bkey in E as ->; [|done..]. cbn [fmap list_fmap fst bget].
      rewrite decide_True by set_solver. split; [done|]. intros x.
      destruct (decide (l = x)), (decide (x = l)); congruence.
    + assert (y ≠ l) as Hne by (intros ->; rewrite feqb_refl in E; [done|apply Hl]).
      destruct IH as [IH1 IH2]; [set_solver|done|]. cbn [fmap list_fmap fst bget].
      rewrite IH1. split.
      * destruct (decide (l ∈ bs.*1)).
        -- by rewrite decide_True by set_solver.
        -- by rewrite decide_False by set_solver.
      * intros x. rewrite IH2. destruct (decide (y = x)), (decide (x = l)); congruence.
Qed.

Lemma bget_nodup bs : NoDup bs.*1 → bs = map (λ l, (l, bget l bs)) bs.*1.
Proof.
  induction bs as [|[y cs] bs IH]; intros Hnd; [done|].
  cbn [fmap list_fmap fst map] in *. apply NoDup_cons in Hnd as [Hy Hnd].
  cbn [bget]. rewrite decide_True by done. f_equal.
  rewrite (IH Hnd) at 1. apply map_ext_in. intros x Hx%list_elem_of_In.
  rewrite decide_False; [done|]. by intros ->.
Qed.

Definition at_le (l : float64) (c : float64 * float64) : option float64 :=
  if decide (c.1 = l) then Some c.2 else None.

Lemma bucket_fold_spec cs :
  (∀ c, c ∈ cs → bkey c.1) →
  NoDup (bucket_fold cs []).*1 ∧ (∀ x, x ∈ (bucket_fold cs []).*1 ↔ x ∈ cs.*1) ∧
  ∀ x, bget x (bucket_fold cs []) = omap (at_le x) cs.
Proof.
  induction cs as [|[l v] cs IH] using rev_ind; intros Hk.
  { split_and!; [apply NoDup_nil_2|done|done]. }
  destruct IH as (IHn & IHk & IHg); [intros c Hc; apply Hk; set_solver|].
  unfold bucket_fold in *. rewrite fold_left_app. cbn [fold_left].
  set (bs := fold_left _ cs []) in *. clearbody bs.
  destruct (bucket_add_spec l v bs) as [H1 H2]; [| |done|].
  { apply (Hk (l, v)). set_solver. }
  { intros x Hx%IHk. apply list_elem_of_fmap in Hx as (c & -> & Hc). apply Hk. set_solver. }
  split_and!.
  - rewrite H1. case_decide; [done|]. apply NoDup_app. split; [done|].
    split; [set_solver|apply NoDup_singleton].
  - intros x. rewrite H1, fmap_app, elem_of_app, <- IHk. cbn.
    destruct (decide (l ∈ bs.*1)); set_solver.
  - intros x. rewrite H2, omap_app, IHg. cbn [omap list_omap].
    assert (at_le x (l, v) = if decide (x = l) then Some v else None) as ->.
    { unfold at_le. cbn. destruct (decide (x = l)), (decide (l = x)); congruence. }
    destruct (decide (x = l)) as [->|]; [|by rewrite app_nil_r].
    reflexivity.
Qed.

Definition bucketise (bs : list (float64 * list float64)) : list bucket :=
  map (λ '(l, cs), mkBucket l (sumAscending cs)) bs.

Lemma sumAscending_perm l1 l2 : l1 ≡ₚ l2 → sumAscending l1 = sumAscending l2.
Proof. apply fsum_sorted_perm. Qed.

Lemma bucketise_keys cs :
  (∀ c, c ∈ cs → bkey c.1) →
  bucketise (bucket_fold cs []) =
  map (λ l, mkBucket l (sumAscending (omap (at_le l) cs))) (bucket_fold cs []).*1.
Proof.
  intros Hk. destruct (bucket_fold_spec cs Hk) as (Hn & _ & Hg).
  unfold bucketise. rewrite (bget_nodup _ Hn) at 1. rewrite map_map.
  apply map_ext. intros l. by rewrite Hg.
Qed.

Lemma bucketise_perm cs1 cs2 :
  (∀ c, c ∈ cs1 → bkey c.1) → cs1 ≡ₚ cs2 →
  bucketise (bucket_fold cs1 []) ≡ₚ bucketise (bucket_fold cs2 []) ∧
  distinct_le (bucketise (bucket_fold cs1 [])).
Proof.
  intros Hk Hp. assert (∀ c, c ∈ cs2 → bkey c.1) as Hk2 by (intros c Hc; apply Hk; by rewrite Hp).
  destruct (bucket_fold_spec cs1 Hk) as (Hn1 & He1 & _).
  destruct (bucket_fold_spec cs2 Hk2) as (Hn2 & He2 & _).
  rewrite !bucketise_keys by done. split.
  - transitivity (map (λ l, mkBucket l (sumAscending (omap (at_le l) cs2))) (bucket_fold cs1 []).*1).
    + rewrite (map_ext _ (λ l, mkBucket l (sumAscending (omap (at_le l) cs2)))); [done|].
      intros l. f_equal. apply sumAscending_perm. by rewrite Hp.
    + apply fmap_Permutation, NoDup_Permutation; [done..|]. intros x. by rewrite He1, He2, Hp.
  - intros b b' (l & -> & Hl)%list_elem_of_fmap (l' & -> & Hl')%list_elem_of_fmap.
    cbn. intros [->|(s & t & -> & ->)]%fcmp_Eq; [done|].
    assert (∀ x, x ∈ (bucket_fold cs1 []).*1 → bkey x) as Hb.
    { intros x [c [-> Hc]]%He1%list_elem_of_fmap. by apply Hk. }
    destruct (Hb _ Hl) as [_ H1], (Hb _ Hl') as [_ H2]. by destruct s, t.
Qed.

(** ** The measurement *)

(** The measurement the parse attaches to a pair. *)
Definition red_measure (jf jd durationOK : bool) (evs : list RedEvent) (failed dur : list Sample)
  (k : pairKey) : option EdgeMetrics :=
  let j := recorded jf jd evs in
  let j := if jf then (accumulateFailures j failed).1.1 else j in
  let j := if jd then (accumulateDuration j dur).1.1.1 else j in
  attachMetrics (pairAcc j k) jf durationOK.

(** Two accumulators holding the same contributions. *)
Record acc_equiv (a b : redPairAcc) : Prop := {
  ae_rates : rates a ≡ₚ rates b;
  ae_fails : fails a ≡ₚ fails b;
  ae_buckets : bucketise (buckets a) ≡ₚ bucketise (buckets b);
  ae_distinct : distinct_le (bucketise (buckets a));
  ae_ineligible : ineligible a = ineligible b;
  ae_noUsableLe : noUsableLe a = noUsableLe b;
}.

Lemma nil_perm_decide {A} `{EqDecision A} (l1 l2 : list A) :
  length l1 = length l2 → bool_decide (l1 = []) = bool_decide (l2 = []).
Proof. destruct l1, l2; done. Qed.

Lemma attachMetrics_equiv a b fo du :
  acc_equiv a b → attachMetrics a fo du = attachMetrics b fo du.
Proof.
  intros [Hr Hf Hb Hd Hi Hn]. unfold attachMetrics, eligible, p90.
  rewrite Hi, Hn, (nil_perm_decide (rates a) (rates b)) by (by apply Permutation_length).
  rewrite (sumAscending_perm _ _ Hr), (sumAscending_perm _ _ Hf).
  rewrite (nil_perm_decide (buckets a) (buckets b)).
  2:{ apply Permutation_length in Hb. unfold bucketise in Hb. by rewrite !length_map in Hb. }
  change (map _ (buckets a)) with (bucketise (buckets a)).
  change (map _ (buckets b)) with (bucketise (buckets b)).
  by rewrite (classicQuantile_perm _ _ _ Hb Hd).
Qed.

(** The accumulator of a pair at the end of the parse. *)
Definition final_acc (jf jd : bool) (evs : list RedEvent) (failed dur : list Sample) (k : pairKey)
  : redPairAcc :=
  let j := recorded jf jd evs in
  let a := pairAcc j k in
  let a := if jf then with_fails a (omap (fails_k j k) failed) else a in
  if jd then with_durations a (omap (duration_k j k) dur) else a.

Lemma duration_k_pairs j j' k s :
  (∀ sk, k ∈ pairs_of j sk ↔ k ∈ pairs_of j' sk) → duration_k j k s = duration_k j' k s.
Proof.
  intros H. unfold duration_k. erewrite bool_decide_ext; [done|]. apply H.
Qed.
Lemma fails_k_pairs j j' k s :
  (∀ sk, k ∈ pairs_of j sk ↔ k ∈ pairs_of j' sk) → fails_k j k s = fails_k j' k s.
Proof.
  intros H. unfold fails_k. erewrite bool_decide_ext; [done|]. apply H.
Qed.

Lemma red_measure_final jf jd du evs failed dur k :
  red_measure jf jd du evs failed dur k = attachMetrics (final_acc jf jd evs failed dur k) jf du.
Proof.
  unfold red_measure, final_acc. f_equal.
  assert (joins_nodup (recorded jf jd evs)) as Hnd by (intros sk; apply recorded_pairs).
  set (j := recorded jf jd evs) in *. clearbody j.
  assert (∀ j', (∀ sk, pairs_of j' sk = pairs_of j sk) →
     pairAcc (if jd then (accumulateDuration j' dur).1.1.1 else j') k =
     if jd then with_durations (pairAcc j' k) (omap (duration_k j k) dur) else pairAcc j' k) as Hdur.
  { intros j' Hj'. destruct jd; [|done].
    rewrite accumulateDuration_spec by (intros sk; rewrite Hj'; apply Hnd). f_equal.
    apply list_omap_ext, Forall2_same_length_lookup.
    split; [done|]. intros i x y Hx Hy. simplify_eq.
    apply duration_k_pairs. intros sk. by rewrite Hj'. }
  destruct jf; [|by apply Hdur].
  destruct (accumulateFailures_spec failed j Hnd) as [Hp Ha].
  rewrite Hdur by exact Hp. by rewrite Ha.
Qed.

Lemma omap_ext_all {A B} (f g : A → option B) (l : list A) :
  (∀ x, f x = g x) → omap f l = omap g l.
Proof. intros H. apply list_omap_ext. induction l; by constructor. Qed.

Lemma duration_keys j k (dur : list Sample) c :
  (∀ s, s ∈ dur → parseLe (label_of (s_Metric s) "le") ≠ Some (S754_zero true)) →
  c ∈ omap id (omap (duration_k j k) dur) → bkey c.1.
Proof.
  intros Hz. rewrite list_elem_of_omap. intros (o & Ho & Hid).
  apply list_elem_of_omap in Ho as (s & Hs & Hd). unfold duration_k in Hd.
  destruct (_ && _); [|done]. injection Hd as <-. cbn in Hid.
  destruct (parseLe _) as [le|] eqn:Ep; [|done]. injection Hid as <-. cbn.
  split; [by eapply parseLe_not_nan|]. intros ->. by apply (Hz s Hs).
Qed.

Lemma final_acc_equiv jf jd (evs evs' : list RedEvent) (failed failed' dur dur' : list Sample) k :
  evs ≡ₚ evs' → failed ≡ₚ failed' → dur ≡ₚ dur' →
  (∀ s, s ∈ dur → parseLe (label_of (s_Metric s) "le") ≠ Some (S754_zero true)) →
  acc_equiv (final_acc jf jd evs failed dur k) (final_acc jf jd evs' failed' dur' k).
Proof.
  intros He Hf Hd Hz.
  assert (∀ sk, k ∈ pairs_of (recorded jf jd evs) sk ↔ k ∈ pairs_of (recorded jf jd evs') sk) as Hpairs.
  { intros sk. rewrite (proj2 (recorded_pairs jf jd evs sk)), (proj2 (recorded_pairs jf jd evs' sk)).
    by rewrite (existsb_perm _ _ _ He). }
  unfold final_acc. rewrite !recorded_acc.
  rewrite (omap_ext_all (fails_k (recorded jf jd evs') k) (fails_k (recorded jf jd evs) k))
    by (intros s; symmetry; by apply fails_k_pairs).
  rewrite (omap_ext_all (duration_k (recorded jf jd evs') k) (duration_k (recorded jf jd evs) k))
    by (intros s; symmetry; by apply duration_k_pairs).
  set (j := recorded jf jd evs). clearbody j.
  assert (omap (duration_k j k) dur ≡ₚ omap (duration_k j k) dur') as Hdk by (by rewrite Hd).
  destruct (bucketise_perm (omap id (omap (duration_k j k) dur)) (omap id (omap (duration_k j k) dur')))
    as [Hb1 Hb2].
  { intros c. by apply duration_keys. }
  { by rewrite Hdk. }
  assert (distinct_le []) as Hnil by (intros b b' Hb; by apply elem_of_nil in Hb).
  split; destruct jf, jd; cbn; try done;
    try (by rewrite He); try (by rewrite Hf); try (by apply existsb_perm);
    try (by f_equal; apply existsb_perm).
Qed.

(** What a pair is measured at (its rate, its error rate, its latency, or
    no measurement) is a function of the multisets of upstream samples: the
    order the request series, the failure series and the histogram series
    arrive in never shows, unless a boundary is spelled as the negative zero. *)
Theorem red_order_free jf jd durationOK (evs evs' : list RedEvent)
  (failed failed' dur dur' : list Sample) k :
  evs ≡ₚ evs' → failed ≡ₚ failed' → dur ≡ₚ dur' →
  (∀ s, s ∈ dur → parseLe (label_of (s_Metric s) "le") ≠ Some (S754_zero true)) →
  red_measure jf jd durationOK evs failed dur k =
  red_measure jf jd durationOK evs' failed' dur' k.
Proof.
  intros He Hf Hd Hz. rewrite !red_measure_final. by apply attachMetrics_equiv, final_acc_equiv.
Qed.

(** ** Witnesses *)

Definition sample_total : Metric :=
  list_to_map [("__name__", "requests_total"); ("client", "a"); ("server", "b")].
Definition sample_bucket (le : string) (v : Z) : Sample :=
  mkSample (list_to_map [("__name__", "seconds_bucket"); ("client", "a"); ("le", le); ("server", "b")])
           (f_of_Z v) 0.
Definition sample_failed (v : Z) : Sample :=
  mkSample (list_to_map [("__name__", "failed_total"); ("client", "a"); ("server", "b")]) (f_of_Z v) 0.
Definition sample_events : list RedEvent := [
  mkRedEvent (mkPairKey "c1/pa" "c1/pb") true true (f_of_Z 3) (seriesKeyOf sample_total);
  mkRedEvent (mkPairKey "c1/pa" "c1/pb") true true (f_of_Z 1) "other";
  mkRedEvent (mkPairKey "c1/pa" "external/x") false true (f_of_Z 1) "other" ].
Definition sample_durations : list Sample :=
  [sample_bucket "+Inf" 10; sample_bucket "1" 4; sample_bucket "2" 9].

Lemma series_key_identity_witness :
  seriesKeyOf sample_total = bucketSeriesKeyOf (s_Metric (sample_bucket "2" 8)) ∧
  identity_labels "" sample_total = identity_labels "le" (s_Metric (sample_bucket "2" 8)).
Proof.
  assert (seriesKeyOf sample_total = bucketSeriesKeyOf (s_Metric (sample_bucket "2" 8))) as H
    by (vm_compute; reflexivity).
  split; [exact H|]. apply (series_key_identity sample_total (s_Metric (sample_bucket "2" 8)) "" "le").
  - apply map_Forall_to_list. vm_compute. repeat constructor.
  - apply map_Forall_to_list. vm_compute. repeat constructor.
  - exact H.
Defined.

Lemma red_order_free_witness :
  (em_Rate <$> red_measure true true true sample_events [sample_failed 1] sample_durations
     (mkPairKey "c1/pa" "c1/pb")) = Some (f_of_Z 4) ∧
  (red_measure true true true sample_events [sample_failed 1] sample_durations
     (mkPairKey "c1/pa" "c1/pb") ≫= em_P90ServerMs) = Some (f_of_Z 2000) ∧
  red_measure true true true sample_events [sample_failed 1] sample_durations
    (mkPairKey "c1/pa" "external/x") = None ∧
  red_measure true true true sample_events [sample_failed 1] sample_durations
     (mkPairKey "c1/pa" "c1/pb") =
  red_measure true true true (rev sample_events) [sample_failed 1] (rev sample_durations)
     (mkPairKey "c1/pa" "c1/pb").
Proof.
  split; [vm_compute; reflexivity|]. split; [vm_compute; reflexivity|].
  split; [vm_compute; reflexivity|].
  apply red_order_free; [apply Permutation_rev|done|apply Permutation_rev|].
  intros s Hs. unfold sample_durations in Hs. rewrite !elem_of_cons, elem_of_nil in Hs.
  destruct Hs as [->|[->|[->|[]]]]; vm_compute; done.
Defined.
