(* ===== verification/LabelQuery.v ===== *)
(** pkg/promql/labelquery.go: the label lookup an embedder issues: one metric,
    one family, exact label equalities, and the matched label sets in return.
    No input can add a matcher, and the answer is complete or an error. *)

From stdpp Require Import sorting pretty.
From S2P Require Import Prelude GoStrings Float64 PromStrings Selector Queries PairScope.
From S2P Require Import ScopedRender Backend Fanout.

#[local] Open Scope ksg_scope.

(** pkg/promql/labelquery.go@21-21, [DefaultLabelQueryLimit] *)
Definition DefaultLabelQueryLimit : Z := 10000.
(** pkg/promql/labelquery.go@26-26, [MaxLabelQueryValueLen] *)
Definition MaxLabelQueryValueLen : nat := 1024.
(** pkg/promql/labelquery.go@34-34, [QueryNameLabelQuery] *)
Definition QueryNameLabelQuery := "label_query".

(** ** Accepted texts *)

Definition code (a : ascii) : N := N_of_ascii a.
Definition between (lo hi : N) (a : ascii) : bool := ((lo <=? code a) && (code a <=? hi))%N.

Definition is_letter (a : ascii) : bool := between 65 90 a || between 97 122 a.
Definition is_digit (a : ascii) : bool := between 48 57 a.
Definition name_start (colon : bool) (a : ascii) : bool :=
  is_letter a || Ascii.eqb a "_"%char || (colon && Ascii.eqb a ":"%char).
Fixpoint all_bytes (p : ascii → bool) (s : string) : bool :=
  match s with "" => true | String a s' => p a && all_bytes p s' end.

(** pkg/promql/labelquery.go@39-42, [metricNameRe] *)
Definition metricNameRe (s : string) : bool :=
  match s with
  | "" => false
  | String a s' => name_start true a && all_bytes (λ b, name_start true b || is_digit b) s'
  end.
(** pkg/promql/labelquery.go@39-42, [labelNameRe] *)
Definition labelNameRe (s : string) : bool :=
  match s with
  | "" => false
  | String a s' => name_start false a && all_bytes (λ b, name_start false b || is_digit b) s'
  end.

(** A UTF-8 continuation byte. *)
Definition cont (a : ascii) : bool := between 128 191 a.

(** The runes of a string, as first byte and length: [None] when
    [utf8.ValidString] is false; a control rune ([unicode.IsControl]) is a
    byte below 0x20, 0x7f, or 0xc2 followed by 0x80-0x9f. *)
Fixpoint scan_utf8 (s : string) : option bool :=
  let andc c r := match r with Some c' => Some (c || c') | None => None end in
  match s with
  | "" => Some false
  | String a s1 =>
      if (code a <? 128)%N then andc ((code a <? 32)%N || (code a =? 127)%N) (scan_utf8 s1)
      else match s1 with
      | "" => None
      | String b s2 =>
          if between 194 223 a && cont b
          then andc ((code a =? 194)%N && (code b <=? 159)%N) (scan_utf8 s2)
          else match s2 with
          | "" => None
          | String c s3 =>
              if ((code a =? 224)%N && between 160 191 b ||
                  between 225 236 a && cont b ||
                  (code a =? 237)%N && between 128 159 b ||
                  between 238 239 a && cont b) && cont c
              then scan_utf8 s3
              else match s3 with
              | "" => None
              | String d s4 =>
                  if ((code a =? 240)%N && between 144 191 b ||
                      between 241 243 a && cont b ||
                      (code a =? 244)%N && between 128 143 b) && cont c && cont d
                  then scan_utf8 s4 else None
              end
          end
      end
  end.

(** The errors of a label query, one per message. *)
Inductive LabelQueryError {E : Type} :=
  | LQUnknownFamily (f : string)
  | LQInvalidMetric (m : string)
  | LQInvalidAZKey (k : string)
  | LQReservedKey (k : string)
  | LQInvalidKey (k : string)
  | LQKeyConflict (k : string)
  | LQTooLong (what : string)
  | LQNotUTF8 (what : string)
  | LQControl (what : string)
  | LQNoInstant
  | LQNotZoneRouted (f : Family)
  | LQUnserved (f : Family)
  | LQUpstream (e : E)
  | LQExceedsLimit (count limit : Z).
Arguments LabelQueryError : clear implicits.

(** pkg/promql/labelquery.go, [LabelQuery]: [lq_At] is [None] for the zero
    instant. *)
Record LabelQuery := mkLabelQuery {
  lq_Metric : string;
  lq_Family : string;
  lq_AZ : string;
  lq_Filters : gmap string string;
  lq_At : option Z;
  lq_Window : Z;
  lq_Limit : Z;
  lq_LabelKeys : LabelKeys;
}.

(** pkg/promql/labelquery.go, [validateLabelQueryValue] *)
Definition validateLabelQueryValue {E} (what val : string) : result (LabelQueryError E) unit :=
  if (MaxLabelQueryValueLen <? String.length val)%nat then Err (LQTooLong what)
  else match scan_utf8 val with
       | None => Err (LQNotUTF8 what)
       | Some true => Err (LQControl what)
       | Some false => Ok tt
       end.

(** [for _, x := range xs { if err := f(x); err != nil { return err } }] *)
Fixpoint range_check {A Er} (f : A → result Er unit) (l : list A) : result Er unit :=
  match l with
  | [] => Ok tt
  | x :: rest => _ <-! f x; range_check f rest
  end.

Section validate.
Context {E : Type}.
(** The order Go iterates a map in: unspecified. *)
Variable range_map : gmap string string → list (string * string).

(** The body of the key loop of [validate]. *)
Definition check_filter_key (az azKey k : string) : result (LabelQueryError E) unit :=
  if bool_decide (k = "__name__") then Err (LQReservedKey k)
  else if negb (labelNameRe k) then Err (LQInvalidKey k)
  else if negb (bool_decide (az = "")) && bool_decide (k = azKey) then Err (LQKeyConflict k)
  else Ok tt.

(** pkg/promql/labelquery.go, [LabelQuery.validate] *)
Definition validate (q : LabelQuery) : result (LabelQueryError E) Family :=
  match ParseFamily (lq_Family q) with
  | None => Err (LQUnknownFamily (lq_Family q))
  | Some fam =>
      if negb (metricNameRe (lq_Metric q)) then Err (LQInvalidMetric (lq_Metric q)) else
      let keys := OrDefault (lq_LabelKeys q) in
      if negb (labelNameRe (key_AZ keys)) then Err (LQInvalidAZKey (key_AZ keys)) else
      _ <-! range_check (λ kv, check_filter_key (lq_AZ q) (key_AZ keys) kv.1) (range_map (lq_Filters q));
      _ <-! (if bool_decide (lq_AZ q = "") then Ok tt
             else validateLabelQueryValue "AZ value" (lq_AZ q));
      _ <-! range_check (λ kv, validateLabelQueryValue kv.1 kv.2) (range_map (lq_Filters q));
      match lq_At q with
      | None => Err LQNoInstant
      | Some _ =>
          if negb (bool_decide (lq_AZ q = "")) && negb (AcceptsAZ fam) then Err (LQNotZoneRouted fam)
          else Ok fam
      end
  end.
End validate.

(** The matchers of [render]. *)
Definition lq_matchers (fam : Family) (q : LabelQuery) : list string :=
  let keys := OrDefault (lq_LabelKeys q) in
  (if negb (bool_decide (lq_AZ q = "")) && RendersAZ fam
   then [key_AZ keys +:+ "=" +:+ quoted (escapeLiteral (lq_AZ q))] else []) ++
  map (λ k, k +:+ "=" +:+ quoted (escapeLiteral (default "" (lq_Filters q !! k))))
      (sort_func String.compare (elements (dom (lq_Filters q)))).

(** pkg/promql/labelquery.go, [LabelQuery.render]: of a request whose family
    is already parsed. *)
Definition lq_render (fam : Family) (q : LabelQuery) : string :=
  let matchers := lq_matchers fam q in
  let selector :=
    match matchers with
    | [] => lq_Metric q
    | _ => lq_Metric q +:+ "{" +:+ join "," matchers +:+ "}"
    end in
  if (0 <? lq_Window q)%Z
  then "last_over_time(" +:+ selector +:+ "[" +:+ FormatDuration (lq_Window q) +:+ "])"
  else selector.

(** ** Label sets *)

(** pkg/promql/labelquery.go, [labelSetEntry] *)
Record labelSetEntry := mkLabelSetEntry {
  ls_labels : gmap string string;
  ls_keys : list string;
  ls_id : string;
}.

(** One name and value, length-prefixed. *)
Definition id_field (s : string) : string := pretty (N.of_nat (String.length s)) +:+ ":" +:+ s.

(** pkg/promql/labelquery.go, [labelSetID] *)
Definition labelSetID (m : gmap string string) (keys : list string) : string :=
  String.concat "" (map (λ k, id_field k +:+ id_field (default "" (m !! k))) keys).

(** The entry of one label set. *)
Definition entry_of (metric : Metric) : labelSetEntry :=
  let m := delete "__name__" metric in
  let keys := sort_func String.compare (elements (dom m)) in
  mkLabelSetEntry m keys (labelSetID m keys).

(** The loop of [labelSetsOf]: the ids seen. *)
Fixpoint label_sets_loop (seen : gset string) (vec : list Sample) : list labelSetEntry :=
  match vec with
  | [] => []
  | s :: rest =>
      let e := entry_of (s_Metric s) in
      if decide (ls_id e ∈ seen) then label_sets_loop seen rest
      else e :: label_sets_loop ({[ls_id e]} ∪ seen) rest
  end.

(** pkg/promql/labelquery.go, [labelSetsOf]: of a merged vector, which holds no
    nil sample. *)
Definition labelSetsOf (vec : list Sample) : list labelSetEntry := label_sets_loop ∅ vec.

(** The loop of [compareLabelSets] over the common positions. *)
Fixpoint compare_keys (a b : gmap string string) (ka kb : list string) : comparison :=
  match ka, kb with
  | k :: ka', k' :: kb' =>
      match String.compare k k' with
      | Eq => match String.compare (default "" (a !! k)) (default "" (b !! k)) with
              | Eq => compare_keys a b ka' kb'
              | c => c
              end
      | c => c
      end
  | _, _ => Eq
  end.

(** pkg/promql/labelquery.go, [compareLabelSets] *)
Definition compareLabelSets (a b : labelSetEntry) : comparison :=
  match compare_keys (ls_labels a) (ls_labels b) (ls_keys a) (ls_keys b) with
  | Eq => Nat.compare (length (ls_keys a)) (length (ls_keys b))
  | c => c
  end.

(** pkg/promql/labelquery.go, [sortLabelSets] *)
Definition sortLabelSets (sets : list labelSetEntry) : list labelSetEntry :=
  sort_func compareLabelSets sets.

Section query.
Context {E : Type}.
Variable Fingerprint : Metric → Z.
Variable range_map : gmap string string → list (string * string).

(** pkg/promql/labelquery.go, [Router.QueryLabels]: against one loaded routing
    snapshot; [order] is the completion order of the fan-out. *)
Definition QueryLabels (order : list nat) (table : Table) (clients : gmap string (@Client E))
    (req : LabelQuery) : result (LabelQueryError (@FanoutError E)) (list (gmap string string)) :=
  fam <-! validate range_map req;
  if bool_decide (Select (Some table) fam [] = []) then Err (LQUnserved fam) else
  let az := if bool_decide (lq_AZ req = "") then [] else [lq_AZ req] in
  match issue Fingerprint order (mkFanoutQuerier table clients az) fam QueryNameLabelQuery
          (lq_render fam req) (default 0%Z (lq_At req)) with
  | Err e => Err (LQUpstream e)
  | Ok vec =>
      let entries := labelSetsOf vec in
      let limit := if (lq_Limit req <=? 0)%Z then DefaultLabelQueryLimit else lq_Limit req in
      if (limit <? Z.of_nat (length entries))%Z
      then Err (LQExceedsLimit (Z.of_nat (length entries)) limit)
      else Ok (map ls_labels (sortLabelSets entries))
  end.
End query.

(** ** Identities of label sets *)

Lemma pretty_no_colon (n : N) : contains_byte ":"%char (pretty n) = false.
Proof.
  assert (∀ s, contains_byte ":"%char s = false → contains_byte ":"%char (pretty_N_go n s) = false)
    as Hgo.
  { induction (N.lt_wf_0 n) as [n _ IH]. intros s Hs.
    destruct (N.eq_0_gt_0_cases n) as [->|Hn]; [by rewrite pretty_N_go_0|].
    rewrite pretty_N_go_step by done. apply IH; [by apply N.div_lt|].
    cbn [contains_byte]. rewrite Hs, orb_false_r. unfold pretty_N_char. by repeat case_match. }
  unfold pretty, pretty_N. destruct (decide (n = 0%N)); [done|]. by apply Hgo.
Qed.

Lemma append_inj_len s s' r r' :
  String.length s = String.length s' → s +:+ r = s' +:+ r' → s = s' ∧ r = r'.
Proof.
  revert s'. induction s as [|a s IH]; intros [|a' s'] Hl; try done. cbn [String.append].
  intros [= -> H]. cbn in Hl. destruct (IH s') as [-> ->]; [lia|done|done].
Qed.

(** A length-prefixed field cannot be confused with what follows it. *)
Lemma id_field_inj s s' r r' : id_field s +:+ r = id_field s' +:+ r' → s = s' ∧ r = r'.
Proof.
  unfold id_field. rewrite !append_assoc. intros H.
  apply (f_equal (cut ":"%char)) in H. cbn [String.append] in H.
  rewrite !cut_found in H by apply pretty_no_colon. injection H as Hl Hs.
  apply pretty_N_inj, Nat2N.inj in Hl. by apply append_inj_len.
Qed.

(** The names and values of a label set, in name order. *)
Definition sorted_keys (m : gmap string string) : list string :=
  sort_func String.compare (elements (dom m)).
Definition pairs_of (m : gmap string string) : list (string * string) :=
  map (λ k, (k, default "" (m !! k))) (sorted_keys m).

Lemma elem_of_pairs m k v : (k, v) ∈ pairs_of m ↔ m !! k = Some v.
Proof.
  unfold pairs_of, sorted_keys. rewrite list_elem_of_fmap.
  setoid_rewrite (elem_of_sort_func String.compare). setoid_rewrite elem_of_elements.
  setoid_rewrite elem_of_dom. split.
  - intros (k' & [= <- ->] & [w Hw]). by rewrite Hw.
  - intros Hk. exists k. rewrite Hk. split; [done|by eexists].
Qed.

Lemma pairs_of_inj m m' : pairs_of m = pairs_of m' → m = m'.
Proof.
  intros H. apply map_eq. intros k. apply option_eq. intros v.
  by rewrite <- !elem_of_pairs, H.
Qed.

Lemma id_of_pairs (l l' : list (string * string)) :
  String.concat "" (map (λ kv, id_field kv.1 +:+ id_field kv.2) l) =
  String.concat "" (map (λ kv, id_field kv.1 +:+ id_field kv.2) l') → l = l'.
Proof.
  assert (∀ x xs, String.concat "" (x :: xs) = x +:+ String.concat "" xs) as Hc.
  { intros x [|y xs]; [by rewrite append_nil_r|done]. }
  assert (∀ s r, id_field s +:+ r ≠ "") as Hne.
  { intros s r H. apply (f_equal (contains_byte ":"%char)) in H. unfold id_field in H.
    rewrite !contains_byte_app in H. cbn in H. by rewrite orb_true_r in H. }
  revert l'. induction l as [|[k v] l IH]; intros [|[k' v'] l']; cbn [map]; rewrite ?Hc, ?append_assoc;
    cbn [fst snd]; intros H; [done|by destruct (Hne _ _ (eq_sym H))|by destruct (Hne _ _ H)|].
  apply id_field_inj in H as [-> H]. apply id_field_inj in H as [-> H]. f_equal. by apply IH.
Qed.

(** The entry of a label set, by its label set. *)
Definition entry (m : gmap string string) : labelSetEntry :=
  mkLabelSetEntry m (sorted_keys m) (labelSetID m (sorted_keys m)).

Lemma entry_of_entry metric : entry_of metric = entry (delete "__name__" metric).
Proof. done. Qed.

(** Two sets share an id iff they are the same map. *)
Lemma labelSetID_inj m m' : ls_id (entry m) = ls_id (entry m') → m = m'.
Proof.
  cbn. unfold labelSetID. intros H. apply pairs_of_inj, id_of_pairs. unfold pairs_of.
  by rewrite !map_map.
Qed.

(** ** Order *)

Definition pair_cmp : string * string → string * string → comparison :=
  cmp_lex (on_key fst String.compare) (on_key snd String.compare).

#[export] Instance pair_cmp_strict : GoCmpStrict pair_cmp.
Proof.
  split; [unfold pair_cmp; apply _|]. intros [a b] [c d] H.
  apply cmp_lex_eq in H as [H1 H2]. unfold on_key in *. simpl in *.
  apply string_compare_eq in H1, H2. by subst.
Qed.

Lemma compareLabelSets_list a b ka kb :
  match compare_keys a b ka kb with
  | Eq => Nat.compare (length ka) (length kb)
  | c => c
  end =
  cmp_list pair_cmp (map (λ k, (k, default "" (a !! k))) ka) (map (λ k, (k, default "" (b !! k))) kb).
Proof.
  revert kb. induction ka as [|k ka IH]; intros [|k' kb]; try done.
  cbn [compare_keys map cmp_list length Nat.compare]. rewrite <- IH.
  unfold pair_cmp, cmp_lex, on_key. cbn [fst snd].
  destruct (String.compare k k') eqn:Ek; try done. apply string_compare_eq in Ek as <-.
  cbn [cmp_or]. by destruct (String.compare (default "" (a !! k)) (default "" (b !! k))).
Qed.

(** An entry's pairs, as [compareLabelSets] reads them. *)
Definition entry_pairs (e : labelSetEntry) : list (string * string) :=
  map (λ k, (k, default "" (ls_labels e !! k))) (ls_keys e).

Lemma compareLabelSets_on a b : compareLabelSets a b = on_key entry_pairs (cmp_list pair_cmp) a b.
Proof. apply compareLabelSets_list. Qed.

#[export] Instance compareLabelSets_cmp : GoCmp compareLabelSets.
Proof.
  assert (GoCmp (on_key entry_pairs (cmp_list pair_cmp))) as [H1 H2] by apply _.
  split; intros *; rewrite !compareLabelSets_on; eauto.
Qed.

(** The label set of a series, without its metric name. *)
Definition label_set (s : Sample) : gmap string string := delete "__name__" (s_Metric s).

Lemma label_sets_loop_spec vec seen :
  NoDup (map ls_labels (label_sets_loop seen vec)) ∧
  Forall (λ e, e = entry (ls_labels e)) (label_sets_loop seen vec) ∧
  ∀ m, m ∈ map ls_labels (label_sets_loop seen vec) ↔ m ∈ map label_set vec ∧ ls_id (entry m) ∉ seen.
Proof.
  revert seen. induction vec as [|s vec IH]; intros seen; cbn [label_sets_loop map].
  { split_and!; [constructor|constructor|]. intros m. split; [by intros ?%elem_of_nil|].
    by intros [?%elem_of_nil _]. }
  rewrite entry_of_entry. fold (label_set s).
  destruct (decide (ls_id (entry (label_set s)) ∈ seen)) as [Hin|Hin].
  - destruct (IH seen) as (H1 & H2 & H3). split_and!; [done|done|]. intros m. rewrite H3.
    rewrite elem_of_cons. split; [tauto|]. by intros [[->|?] ?].
  - destruct (IH ({[ls_id (entry (label_set s))]} ∪ seen)) as (H1 & H2 & H3).
    cbn [map]. change (ls_labels (entry (label_set s))) with (label_set s). split_and!.
    + constructor; [|done]. rewrite H3. intros [_ H]. set_solver.
    + by constructor.
    + intros m. rewrite !elem_of_cons, H3, not_elem_of_union, not_elem_of_singleton. split.
      * intros [->|(? & ? & ?)]; [by split; [left|]|by split; [right|]].
      * intros [[->|?] ?]; [by left|]. destruct (decide (m = label_set s)) as [->|Hne]; [by left|].
        right. split; [done|]. split; [|done]. by intros Heq%labelSetID_inj.
Qed.

(** The order of the answer. *)
Definition label_lt (m m' : gmap string string) : Prop := compareLabelSets (entry m) (entry m') = Lt.

Lemma sortLabelSets_sorted l :
  Forall (λ e, e = entry (ls_labels e)) l → NoDup (map ls_labels l) →
  StronglySorted label_lt (map ls_labels (sortLabelSets l)).
Proof.
  intros Hf Hnd. unfold sortLabelSets.
  pose proof (sort_func_sorted compareLabelSets l) as Hs.
  pose proof (sort_func_perm compareLabelSets l) as Hp.
  rewrite <- Hp in Hf, Hnd. clear Hp.
  induction Hs as [|e l' Hs IH He]; [constructor|]. cbn [map] in *.
  apply NoDup_cons in Hnd as [Hni Hnd]. apply Forall_cons in Hf as [Hfe Hf].
  constructor; [by apply IH|]. apply Forall_forall. intros m Hm.
  apply list_elem_of_fmap in Hm as (e' & -> & Hin). rewrite Forall_forall in He, Hf.
  specialize (He e' Hin). unfold label_lt. rewrite <- Hfe, <- (Hf e' Hin).
  unfold cmp_le in He. destruct (compareLabelSets e e') eqn:Ec; [|done|done].
  rewrite compareLabelSets_on in Ec. unfold on_key in Ec. apply (gcs_eq (c:=cmp_list pair_cmp)) in Ec.
  exfalso. apply Hni, list_elem_of_fmap. exists e'. split; [|done].
  rewrite Hfe, (Hf e' Hin) in Ec. cbn in Ec. by apply pairs_of_inj.
Qed.

(** Validation never reports a limit. *)
Lemma range_check_not {A Er} (f : A → result Er unit) l e :
  (∀ x, f x ≠ Err e) → range_check f l ≠ Err e.
Proof.
  intros Hf. induction l as [|x l IH]; [done|]. cbn. specialize (Hf x).
  destruct (f x) as [[]|e']; cbn; [done|congruence].
Qed.

Lemma rbind_not {Er A B} (m : result Er A) (k : A → result Er B) e :
  m ≠ Err e → (∀ x, k x ≠ Err e) → rbind m k ≠ Err e.
Proof. intros Hm Hk. destruct m as [x|e']; cbn; [apply Hk|congruence]. Qed.

Lemma validate_not_limit {E} range_map q count limit :
  validate (E:=E) range_map q ≠ Err (LQExceedsLimit count limit).
Proof.
  assert (∀ what v, validateLabelQueryValue (E:=E) what v ≠ Err (LQExceedsLimit count limit)) as Hv.
  { intros what v. unfold validateLabelQueryValue. destruct (_ <? _)%nat; [done|].
    by destruct (scan_utf8 v) as [[]|]. }
  unfold validate. destruct (ParseFamily _) as [fam|]; [|done].
  destruct (negb _); [done|]. destruct (negb _); [done|].
  apply rbind_not; [apply range_check_not; intros kv; unfold check_filter_key|intros _].
  { destruct (bool_decide _); [done|]. destruct (negb _); [done|]. by destruct (_ && _). }
  apply rbind_not; [by destruct (bool_decide _)|intros _].
  apply rbind_not; [by apply range_check_not|intros _].
  destruct (lq_At q); [|done]. by destruct (_ && _).
Qed.

(** The limit in force. *)
Definition effective_limit (req : LabelQuery) : Z :=
  if (lq_Limit req <=? 0)%Z then DefaultLabelQueryLimit else lq_Limit req.

(** A label lookup is complete or an error: on success the request was
    valid, every selected backend answered, and the answer is exactly the
    label sets of the merged series (metric name removed), each once, in
    strictly increasing order and within the limit; past the limit it is an
    error carrying the count, never a truncation. *)
Theorem QueryLabels_complete {E} Fingerprint range_map order table (clients : gmap string (@Client E))
    req :
  match QueryLabels Fingerprint range_map order table clients req with
  | Ok out => ∃ fam az vec,
      validate (E:=@FanoutError E) range_map req = Ok fam ∧
      issue Fingerprint order (mkFanoutQuerier table clients az) fam QueryNameLabelQuery
        (lq_render fam req) (default 0%Z (lq_At req)) = Ok vec ∧
      NoDup out ∧ (∀ m, m ∈ out ↔ ∃ s, s ∈ vec ∧ m = label_set s) ∧
      StronglySorted label_lt out ∧ (Z.of_nat (length out) ≤ effective_limit req)%Z
  | Err (LQExceedsLimit count limit) => (limit < count)%Z ∧ limit = effective_limit req
  | Err _ => True
  end.
Proof.
  unfold QueryLabels.
  destruct (validate range_map req) as [fam|e] eqn:Ev; cbn [rbind].
  2:{ destruct e as [| | | | | | | | | | | | |count limit]; try done.
      by apply validate_not_limit in Ev. }
  destruct (bool_decide _); [done|].
  set (az := if bool_decide (lq_AZ req = "") then [] else [lq_AZ req]).
  destruct (issue _ _ _ _ _ _ _) as [vec|e] eqn:Ei; [|done].
  fold (effective_limit req).
  destruct (Z.ltb_spec (effective_limit req) (Z.of_nat (length (labelSetsOf vec)))); [done|].
  destruct (label_sets_loop_spec vec ∅) as (H1 & H2 & H3). fold (labelSetsOf vec) in H1, H2, H3.
  assert (map ls_labels (sortLabelSets (labelSetsOf vec)) ≡ₚ map ls_labels (labelSetsOf vec)) as Hp.
  { unfold sortLabelSets. by rewrite (sort_func_perm compareLabelSets). }
  exists fam, az, vec. split_and!; [done|done|by rewrite Hp| |by apply sortLabelSets_sorted|].
  - intros m. rewrite Hp, H3, list_elem_of_fmap. split.
    + intros [(s & -> & Hs) _]. by exists s.
    + intros (s & Hs & ->). split; [by exists s|]. apply not_elem_of_empty.
  - rewrite (Permutation_length Hp), length_map. lia.
Qed.

(** ** What is sent *)

Lemma labelNameRe_plain k : labelNameRe k = true → contains_byte "="%char k = false.
Proof.
  assert (∀ p s, p "="%char = false → all_bytes p s = true → contains_byte "="%char s = false) as Hall.
  { intros p s Hp. induction s as [|a s IH]; [done|]. cbn. intros [Ha Hs]%andb_true_iff.
    rewrite (IH Hs), orb_false_r. destruct (Ascii.eqb_spec a "="%char); [congruence|done]. }
  destruct k as [|a k]; [done|]. cbn [labelNameRe contains_byte]. intros [Ha Hk]%andb_true_iff.
  rewrite (Hall _ k eq_refl Hk). rewrite orb_false_r.
  by destruct (Ascii.eqb_spec a "="%char) as [->|].
Qed.

Lemma range_check_ok {A Er} (f : A → result Er unit) l :
  range_check f l = Ok tt ↔ Forall (λ x, f x = Ok tt) l.
Proof.
  induction l as [|x l IH]; cbn; [done|]. rewrite Forall_cons, <- IH.
  destruct (f x) as [[]|]; cbn; naive_solver.
Qed.

(** The matchers a request means. *)
Definition lq_meant (fam : Family) (q : LabelQuery) : list (string * list string) :=
  (if negb (bool_decide (lq_AZ q = "")) && RendersAZ fam
   then [(key_AZ (OrDefault (lq_LabelKeys q)), [lq_AZ q])] else []) ++
  map (λ kv, (kv.1, [kv.2])) (pairs_of (lq_Filters q)).

(** A value that may be sent: short, valid UTF-8, no control rune. *)
Definition sendable (v : string) : Prop :=
  (String.length v ≤ MaxLabelQueryValueLen)%nat ∧ scan_utf8 v = Some false.

Lemma validateLabelQueryValue_ok {E} what v :
  validateLabelQueryValue (E:=E) what v = Ok tt ↔ sendable v.
Proof.
  unfold validateLabelQueryValue, sendable.
  destruct (Nat.ltb_spec MaxLabelQueryValueLen (String.length v)); [split; [done|lia]|].
  destruct (scan_utf8 v) as [[]|]; split; try done; naive_solver.
Qed.

Section sent.
Context {E : Type} (range_map : gmap string string → list (string * string)).
Hypothesis range_map_perm : ∀ m, range_map m ≡ₚ map_to_list m.

(** What validation establishes. *)
Lemma validate_ok q fam :
  validate (E:=E) range_map q = Ok fam →
  ParseFamily (lq_Family q) = Some fam ∧ metricNameRe (lq_Metric q) = true ∧
  labelNameRe (key_AZ (OrDefault (lq_LabelKeys q))) = true ∧
  (∀ k v, lq_Filters q !! k = Some v →
     k ≠ "__name__" ∧ labelNameRe k = true ∧ sendable v ∧
     (lq_AZ q ≠ "" → k ≠ key_AZ (OrDefault (lq_LabelKeys q)))) ∧
  (lq_AZ q ≠ "" → sendable (lq_AZ q) ∧ AcceptsAZ fam = true) ∧ is_Some (lq_At q).
Proof.
  unfold validate. destruct (ParseFamily _) as [fam'|]; [|done].
  destruct (metricNameRe _) eqn:Em; cbn [negb]; [|done].
  destruct (labelNameRe (key_AZ _)) eqn:Ek; cbn [negb]; [|done].
  destruct (range_check _ _) as [[]|] eqn:E1; cbn [rbind]; [|done].
  destruct (if bool_decide _ then _ else _) as [[]|] eqn:E2; cbn [rbind]; [|done].
  destruct (range_check _ (range_map _)) as [[]|] eqn:E3 in |- *; cbn [rbind]; [|done].
  destruct (lq_At q) as [t|]; [|done]. destruct (_ && _) eqn:E4; [done|]. intros [= ->].
  apply range_check_ok in E1, E3. rewrite range_map_perm, Forall_forall in E1, E3.
  split_and!; [done..| | |by eexists].
  - intros k v Hkv%elem_of_map_to_list. specialize (E1 _ Hkv). specialize (E3 _ Hkv).
    cbn in E1, E3. apply validateLabelQueryValue_ok in E3. unfold check_filter_key in E1.
    destruct (bool_decide_reflect (k = "__name__")); [done|]. destruct (labelNameRe k); [|done]. cbn in E1.
    split_and!; [done..|]. intros Haz ->. rewrite bool_decide_eq_false_2 in E1 by done.
    by rewrite bool_decide_eq_true_2 in E1.
  - intros Haz. rewrite bool_decide_eq_false_2 in E2, E4 by done.
    apply validateLabelQueryValue_ok in E2. split; [done|]. by destruct (AcceptsAZ fam).
Qed.

(** Nothing a caller passes can change the shape of the query: of a valid
    request the selector is its metric with exactly one matcher per filter (in
    name order) and, first, the zone matcher when the family renders one; each
    reads back as the caller's own value, no label is matched twice, and every
    value sent is short, valid UTF-8 and free of control runes. *)
Theorem lq_render_exact q fam :
  validate (E:=E) range_map q = Ok fam →
  Forall2 reads_as (lq_matchers fam q) (lq_meant fam q) ∧
  NoDup (map fst (lq_meant fam q)) ∧
  (∀ k vs v, (k, vs) ∈ lq_meant fam q → v ∈ vs → sendable v) ∧
  lq_render fam q =
    let selector := lq_Metric q +:+
      match lq_matchers fam q with [] => "" | ms => "{" +:+ join "," ms +:+ "}" end in
    if (0 <? lq_Window q)%Z
    then "last_over_time(" +:+ selector +:+ "[" +:+ FormatDuration (lq_Window q) +:+ "])"
    else selector.
Proof.
  intros (_ & _ & Hk & Hf & Haz & _)%validate_ok.
  assert (∀ k v, (k, v) ∈ pairs_of (lq_Filters q) → lq_Filters q !! k = Some v) as Hp
    by (intros k v; apply elem_of_pairs).
  split_and!.
  - unfold lq_matchers, lq_meant. apply Forall2_app.
    + destruct (_ && _); [|constructor]. repeat constructor. by apply reads_equality, labelNameRe_plain.
    + unfold pairs_of in *. rewrite map_map. fold (sorted_keys (lq_Filters q)).
      assert (∀ k, k ∈ sorted_keys (lq_Filters q) → contains_byte "="%char k = false) as Hplain.
      { intros k Hin. apply labelNameRe_plain.
        eapply Hf, Hp. apply list_elem_of_fmap. by exists k. }
      clear -Hplain. induction (sorted_keys (lq_Filters q)) as [|k ks IH]; cbn [map]; constructor.
      * apply reads_equality, Hplain. left.
      * apply IH. intros k' Hk'. apply Hplain. by right.
  - unfold lq_meant. rewrite map_app, map_map.
    assert (map (λ kv : string * string, (kv.1, [kv.2]).1) (pairs_of (lq_Filters q)) =
      sorted_keys (lq_Filters q)) as ->.
    { unfold pairs_of. rewrite map_map. apply map_id. }
    assert (NoDup (sorted_keys (lq_Filters q))) as Hnd
      by (apply (NoDup_sort_func String.compare), NoDup_elements).
    destruct (bool_decide_reflect (lq_AZ q = "")) as [Ha|Ha]; [done|]. cbn [negb andb].
    destruct (RendersAZ fam); [|done]. cbn [map app fst]. constructor; [|done].
    unfold sorted_keys. rewrite (elem_of_sort_func String.compare), elem_of_elements, elem_of_dom.
    intros [v Hv]. by destruct (Hf _ _ Hv) as (_ & _ & _ & Hne); apply Hne.
  - intros k vs v Hin Hv. unfold lq_meant in Hin. apply elem_of_app in Hin as [Hin|Hin].
    + destruct (bool_decide_reflect (lq_AZ q = "")) as [Ha|Ha]; [by apply elem_of_nil in Hin|].
      destruct (RendersAZ fam); [|by apply elem_of_nil in Hin].
      apply list_elem_of_singleton in Hin as [= -> ->].
      apply list_elem_of_singleton in Hv as ->. by apply Haz.
    + apply list_elem_of_fmap in Hin as ([k' v'] & [= -> ->] & Hin).
      apply list_elem_of_singleton in Hv as ->. by apply (Hf k' v' (Hp _ _ Hin)).
  - unfold lq_render. destruct (lq_matchers fam q); [|done]. by rewrite append_nil_r.
Qed.
End sent.

Definition sample_request : LabelQuery :=
  mkLabelQuery "app_info" "ksm" "z1" {[ "pod" := hostile; "job" := "" ]} (Some 0%Z) Minute 0
    DefaultLabelKeys.

Lemma lq_render_exact_witness :
  validate (E:=unit) map_to_list sample_request = Ok FamilyKSM ∧
  Forall2 reads_as (lq_matchers FamilyKSM sample_request)
    [("az", ["z1"]); ("job", [""]); ("pod", [hostile])].
Proof.
  assert (validate (E:=unit) map_to_list sample_request = Ok FamilyKSM) as Hv
    by (vm_compute; reflexivity).
  split; [exact Hv|].
  assert (lq_meant FamilyKSM sample_request = [("az", ["z1"]); ("job", [""]); ("pod", [hostile])]) as <-
    by (vm_compute; reflexivity).
  exact (proj1 (lq_render_exact (E:=unit) map_to_list (λ m, Permutation_refl _) sample_request
    FamilyKSM Hv)).
Defined.
