(* ===== verification/AppMetadata.v ===== *)
(** pkg/promql/appmetadata.go: the operator's application-metadata metric: the
    configured labels it is read through and the scoped reads of it. *)

From S2P Require Import Prelude GoStrings PromStrings Selector Queries ScopeChunks PairScope.
From S2P Require Import ScopedRender LabelQuery.

#[local] Open Scope ksg_scope.

(** pkg/promql/appmetadata.go@13-13, [DefaultAppMetadataAppLabel] *)
Definition DefaultAppMetadataAppLabel := "argocd_app".
(** pkg/promql/appmetadata.go@14-14, [DefaultAppMetadataUserLabel] *)
Definition DefaultAppMetadataUserLabel := "user".
(** pkg/promql/appmetadata.go@15-15, [DefaultAppMetadataNSOwnerLabel] *)
Definition DefaultAppMetadataNSOwnerLabel := "owner".
(** pkg/promql/appmetadata.go@16-16, [DefaultAppMetadataNamespaceLabel] *)
Definition DefaultAppMetadataNamespaceLabel := "namespace".
(** pkg/promql/appmetadata.go@17-17, [DefaultAppMetadataPodLabel] *)
Definition DefaultAppMetadataPodLabel := "pod".
(** pkg/promql/appmetadata.go@18-18, [DefaultAppMetadataDeployTimeLabel] *)
Definition DefaultAppMetadataDeployTimeLabel := "deploy_time".
(** pkg/promql/appmetadata.go@19-19, [DefaultAppMetadataNSGroupLabel] *)
Definition DefaultAppMetadataNSGroupLabel := "namespace_group".
(** pkg/promql/appmetadata.go@20-20, [DefaultAppMetadataNSGroupOwnerLabel] *)
Definition DefaultAppMetadataNSGroupOwnerLabel := "namespace_group_owner".
(** pkg/promql/appmetadata.go@21-21, [DefaultAppMetadataNSAliasLabel] *)
Definition DefaultAppMetadataNSAliasLabel := "namespace_alias".

(** pkg/promql/appmetadata.go, [AppMetadataSource] *)
Record AppMetadataSource := mkAppMetadataSource {
  am_Metric : string;
  am_App : string;
  am_User : string;
  am_NSOwner : string;
  am_Namespace : string;
  am_Pod : string;
  am_DeployTime : string;
  am_NSGroup : string;
  am_NSGroupOwner : string;
  am_NSAlias : string;
}.

(** [cmp.Or] on strings: the first non-empty one. *)
Definition str_or (s d : string) : string := if bool_decide (s = "") then d else s.

(** pkg/promql/appmetadata.go@52-63, [AppMetadataSource.OrDefault] *)
Definition source_OrDefault (s : AppMetadataSource) : AppMetadataSource :=
  mkAppMetadataSource (am_Metric s)
    (str_or (am_App s) DefaultAppMetadataAppLabel)
    (str_or (am_User s) DefaultAppMetadataUserLabel)
    (str_or (am_NSOwner s) DefaultAppMetadataNSOwnerLabel)
    (str_or (am_Namespace s) DefaultAppMetadataNamespaceLabel)
    (str_or (am_Pod s) DefaultAppMetadataPodLabel)
    (str_or (am_DeployTime s) DefaultAppMetadataDeployTimeLabel)
    (str_or (am_NSGroup s) DefaultAppMetadataNSGroupLabel)
    (str_or (am_NSGroupOwner s) DefaultAppMetadataNSGroupOwnerLabel)
    (str_or (am_NSAlias s) DefaultAppMetadataNSAliasLabel).

(** The errors of [Validate], one per message. *)
Inductive SourceError :=
  | BadMetric (metric : string)
  | BadLabel (field label : string)
  | LabelCollides (field label : string)
  | LabelShared (label other field : string).

(** The nine fields, in the order [Validate] checks them. *)
Definition source_fields (s : AppMetadataSource) : list (string * string) := [
  ("app", am_App s); ("user", am_User s); ("ns_owner", am_NSOwner s);
  ("namespace", am_Namespace s); ("pod", am_Pod s);
  ("deploy_time", am_DeployTime s); ("ns_group", am_NSGroup s);
  ("ns_group_owner", am_NSGroupOwner s); ("ns_alias", am_NSAlias s)
].

(** The loop of [Validate]: the labels used so far, by field. *)
Fixpoint check_fields (keys : LabelKeys) (used : gmap string string) (fs : list (string * string))
  : result SourceError unit :=
  match fs with
  | [] => Ok tt
  | (field, label) :: rest =>
      if negb (labelNameRe label) then Err (BadLabel field label)
      else if bool_decide (label = "cluster") || bool_decide (label = key_AZ keys) ||
              bool_decide (label = key_Env keys)
      then Err (LabelCollides field label)
      else match used !! label with
           | Some other => Err (LabelShared label other field)
           | None => check_fields keys (<[label := field]> used) rest
           end
  end.

(** pkg/promql/appmetadata.go@72-97, [AppMetadataSource.Validate] *)
Definition source_Validate (s : AppMetadataSource) (keys : LabelKeys) : result SourceError unit :=
  if negb (metricNameRe (am_Metric s)) then Err (BadMetric (am_Metric s))
  else check_fields (OrDefault keys) ∅ (source_fields (source_OrDefault s)).

(** pkg/promql/appmetadata.go, [appMetadataRequestMatchers] *)
Definition appMetadataRequestMatchers (src : AppMetadataSource) (keys : LabelKeys) (sel : Selector)
  : list string :=
  let keys := OrDefault keys in
  let out := appendMatcher [] (key_AZ keys) (sel_AZ sel) in
  let out := appendMatcher out (key_Env keys) (sel_Env sel) in
  let out := appendClusterMatcher out (sel_Cluster sel) in
  if bool_decide (am_Namespace src = "") then out
  else appendMatcher out (am_Namespace src) (sel_Namespace sel).

(** pkg/promql/appmetadata.go, [appMetadataClusterMatchers] *)
Definition appMetadataClusterMatchers (src : AppMetadataSource) (keys : LabelKeys) (sel : Selector)
    (cluster : string) : list string :=
  appendClusterMatcher (appMetadataRequestMatchers src keys sel) [cluster].

(** pkg/promql/appmetadata.go, [formatAppMetadata] *)
Definition formatAppMetadata (src : AppMetadataSource) (window : Z) (matchers : list string) : string :=
  let body := match matchers with [] => "" | _ => "{" +:+ join "," matchers +:+ "}" end in
  over "tlast_over_time" (am_Metric src) body (FormatDuration window).

(** pkg/promql/appmetadata.go, [renderAppMetadata] *)
Definition renderAppMetadata (src : AppMetadataSource) (window : Z) (keys : LabelKeys) (sel : Selector)
    (restrictKey : string) (restrict : list string) : string :=
  let matchers := appMetadataRequestMatchers src keys sel in
  formatAppMetadata src window
    (if bool_decide (restrictKey = "") then matchers else appendMatcher matchers restrictKey restrict).

(** pkg/promql/appmetadata.go, [RenderAppMetadata] *)
Definition RenderAppMetadata (src : AppMetadataSource) (window : Z) (keys : LabelKeys) (sel : Selector)
  : string := renderAppMetadata src window keys sel "" [].

(** pkg/promql/appmetadata.go, [RenderAppMetadataByNamespace] *)
Definition RenderAppMetadataByNamespace (src : AppMetadataSource) (window : Z) (keys : LabelKeys)
    (sel : Selector) (cluster : string) (namespaces : list string) : option string :=
  if bool_decide (am_Namespace src = "") || bool_decide (cluster = "") ||
     bool_decide (normaliseValues namespaces = []) then None
  else
    let matchers := appMetadataClusterMatchers src keys sel cluster in
    Some (formatAppMetadata src window (appendMatcher matchers (am_Namespace src) namespaces)).

(** pkg/promql/appmetadata.go, [RenderAppMetadataByApp] *)
Definition RenderAppMetadataByApp (src : AppMetadataSource) (window : Z) (keys : LabelKeys)
    (sel : Selector) (apps : list string) : option string :=
  if bool_decide (am_App src = "") || bool_decide (normaliseValues apps = []) then None
  else Some (renderAppMetadata src window keys sel (am_App src) apps).

(** pkg/promql/appmetadata.go, [AppMetadataMatcherCost] *)
Definition AppMetadataMatcherCost (src : AppMetadataSource) (keys : LabelKeys) (sel : Selector) : Z :=
  len (join "," (appMetadataRequestMatchers src keys sel)).

(** pkg/promql/appmetadata.go, [AppMetadataClusterMatcherCost] *)
Definition AppMetadataClusterMatcherCost (src : AppMetadataSource) (keys : LabelKeys) (sel : Selector)
    (cluster : string) : Z :=
  len (join "," (appMetadataClusterMatchers src keys sel cluster)).

(** ** Configuration *)

Lemma check_fields_ok keys used fs :
  check_fields keys used fs = Ok tt ↔
  (∀ f l, (f, l) ∈ fs → labelNameRe l = true ∧ l ≠ "cluster" ∧ l ≠ key_AZ keys ∧ l ≠ key_Env keys) ∧
  NoDup (map snd fs) ∧ (∀ l, l ∈ map snd fs → used !! l = None).
Proof.
  revert used. induction fs as [|[f l] fs IH]; intros used; cbn [check_fields map snd].
  { split; [|done]. intros _. split_and!; [|constructor|]; by intros * ?%elem_of_nil. }
  destruct (labelNameRe l) eqn:El; cbn [negb].
  2:{ split; [done|]. intros [H _]. destruct (H f l) as [? _]; [left|congruence]. }
  destruct (bool_decide_reflect (l = "cluster")) as [E1|E1]; cbn [orb].
  { split; [done|]. intros [H _]. destruct (H f l) as (_ & ? & _); [left|done]. }
  destruct (bool_decide_reflect (l = key_AZ keys)) as [E2|E2]; cbn [orb].
  { split; [done|]. intros [H _]. destruct (H f l) as (_ & _ & ? & _); [left|done]. }
  destruct (bool_decide_reflect (l = key_Env keys)) as [E3|E3].
  { split; [done|]. intros [H _]. destruct (H f l) as (_ & _ & _ & ?); [left|done]. }
  destruct (used !! l) as [o|] eqn:Eu.
  { split; [done|]. intros (_ & _ & H). specialize (H l ltac:(left)). congruence. }
  rewrite IH, NoDup_cons. split.
  - intros (H1 & H2 & H3). split_and!; [|intros Hin| done|].
    + intros f' l' [[= -> ->]|Hin]%elem_of_cons; [done|by eapply H1].
    + specialize (H3 l Hin). by rewrite lookup_insert_eq in H3.
    + intros l' [->|Hin]%elem_of_cons; [done|]. specialize (H3 l' Hin).
      by apply lookup_insert_None in H3 as [? _].
  - intros (H1 & [Hni H2] & H3). split_and!; [|done|].
    + intros f' l' Hin. apply (H1 f' l'). by right.
    + intros l' Hin. apply lookup_insert_None. split; [apply H3; by right|]. by intros <-.
Qed.

(** A source is accepted exactly when its metric is a legal metric name
    and, defaults applied, the nine labels are legal label names, pairwise
    different, and none is the cluster label or a configured az / env key; so
    every column of a row is read from a label of its own. *)
Theorem source_Validate_spec s keys :
  source_Validate s keys = Ok tt ↔
  metricNameRe (am_Metric s) = true ∧
  NoDup (map snd (source_fields (source_OrDefault s))) ∧
  ∀ f l, (f, l) ∈ source_fields (source_OrDefault s) →
    labelNameRe l = true ∧ l ≠ "cluster" ∧ l ≠ key_AZ (OrDefault keys) ∧ l ≠ key_Env (OrDefault keys).
Proof.
  unfold source_Validate. destruct (metricNameRe (am_Metric s)); cbn [negb]; [|split; [done|by intros []]].
  rewrite check_fields_ok. split; [intros (H1 & H2 & _)|intros (_ & H2 & H1)]; split_and!; try done.
Qed.
