(* ===== verification/BuildIdentity.v ===== *)
(** How the readers place a series: its cluster identity
    (pkg/build/clusteridentity.go), its cluster family
    (pkg/build/clusterfamily.go) and its zone (pkg/build/zone.go).

    The resolver is a state threaded through the parse: [observe] fills the
    identity table in a first pass, [bucket] reads it and tallies. The theorems:
    the ladder places a series by what the table holds, whatever order it was
    filled in; the family key is idempotent and collapses digit runs only; the
    zone preference is a strict total order. *)

From S2P Require Import Prelude GoStrings Graph Selector Queries PairScope.

#[local] Open Scope bool_scope.

(** ** Cluster families *)

Definition is_digit (c : ascii) : bool :=
  let n := nat_of_ascii c in (48 <=? n)%nat && (n <=? 57)%nat.

(** The loop of [ClusterFamilyKey], [inDigits] its flag. *)
Fixpoint family_loop (inDigits : bool) (s : string) : string :=
  match s with
  | "" => ""
  | String c s' =>
      if is_digit c then
        if inDigits then family_loop true s' else String "0" (family_loop true s')
      else String c (family_loop false s')
  end.

(** pkg/build/clusterfamily.go, [ClusterFamilyKey] *)
Definition ClusterFamilyKey (name : string) : string := family_loop false name.

(** What a family keeps of a name: its non-digit bytes, and where a digit run
    stands. [None] is a run. *)
Fixpoint runs (inDigits : bool) (s : string) : list (option ascii) :=
  match s with
  | "" => []
  | String c s' =>
      if is_digit c then (if inDigits then runs true s' else None :: runs true s')
      else Some c :: runs false s'
  end.

Fixpoint spell (l : list (option ascii)) : string :=
  match l with
  | [] => ""
  | None :: l => String "0" (spell l)
  | Some c :: l => String c (spell l)
  end.

Lemma family_loop_spell b s : family_loop b s = spell (runs b s).
Proof.
  revert b. induction s as [|c s IH]; intros b; [done|]. cbn.
  destruct (is_digit c); [|cbn; by rewrite IH].
  destruct b; [apply IH|]. cbn. by rewrite IH.
Qed.

(** The sentinel is a digit and no literal digit survives, so the spelling is
    unambiguous. *)
Lemma spell_inj l1 l2 :
  Forall (λ o : option ascii, default false (is_digit <$> o) = false) l1 →
  Forall (λ o : option ascii, default false (is_digit <$> o) = false) l2 →
  spell l1 = spell l2 → l1 = l2.
Proof.
  revert l2. induction l1 as [|o1 l1 IH]; intros [|o2 l2] H1 H2 Heq; [done|by destruct o2|by destruct o1|].
  apply Forall_cons in H1 as [Hc1 H1]. apply Forall_cons in H2 as [Hc2 H2].
  destruct o1 as [c1|], o2 as [c2|]; cbn in *; simplify_eq; try done; f_equal; by apply IH.
Qed.

Lemma runs_no_digit b s : Forall (λ o : option ascii, default false (is_digit <$> o) = false) (runs b s).
Proof.
  revert b. induction s as [|c s IH]; intros b; [constructor|]. cbn.
  destruct (is_digit c) eqn:Ec; [|by constructor]. destruct b; [done|by constructor].
Qed.

(** Two cluster names are in the same family exactly when they differ only
    in the values of their digit runs; in particular the key of a key is
    itself, and a family is never joined by spelling out the sentinel. *)
Theorem family_key_collision_free s t :
  (ClusterFamilyKey s = ClusterFamilyKey t ↔ runs false s = runs false t) ∧
  ClusterFamilyKey (ClusterFamilyKey s) = ClusterFamilyKey s.
Proof.
  unfold ClusterFamilyKey. split.
  - rewrite !family_loop_spell. split; [|by intros ->].
    apply spell_inj; apply runs_no_digit.
  - generalize false. induction s as [|c s IH]; intros b; [done|]. cbn [family_loop].
    destruct (is_digit c) eqn:Ec.
    + destruct b; [apply IH|]. cbn [family_loop]. f_equal. apply (IH true).
    + cbn [family_loop]. rewrite Ec. f_equal. apply IH.
Qed.

Example family_examples :
  ClusterFamilyKey "prod-03" = ClusterFamilyKey "prod-12" ∧
  ClusterFamilyKey "staging-1" = "staging-0" ∧
  ClusterFamilyKey "prod-#" ≠ ClusterFamilyKey "prod-1".
Proof. done. Qed.

(** ** Zones *)

(** pkg/build/zone.go, [zone]; the zero value is the unknown zone. *)
Record zone := mkZone { z_az : string; z_env : string }.
#[export] Instance zone_eq_dec : EqDecision zone.
Proof. solve_decision. Defined.
Definition no_zone : zone := mkZone "" "".

(** pkg/build/zone.go, [zoneOf] *)
Definition zoneOf (m : Metric) (keys : LabelKeys) : zone * bool :=
  let az := label_of m (key_AZ keys) in
  let env := label_of m (key_Env keys) in
  if bool_decide (az = "") || bool_decide (env = "") then (no_zone, false)
  else (mkZone az env, true).

(** pkg/build/zone.go, [zoneAdmits] *)
Definition zoneAdmits (candidate : list zone) (z : zone) (zoned : bool) : bool :=
  negb zoned || bool_decide (candidate = []) || bool_decide (z ∈ candidate).

(** pkg/build/zone.go, [zone.known] *)
Definition known (z : zone) : bool := negb (bool_decide (z = no_zone)).

(** pkg/build/zone.go, [zonesAgree] *)
Definition zonesAgree (a b : zone) : bool := negb (known a) || negb (known b) || bool_decide (a = b).

(** pkg/build/zone.go, [zone.compare] *)
Definition zone_compare : zone → zone → comparison :=
  cmp_lex (on_key z_az String.compare) (on_key z_env String.compare).

(** pkg/build/zone.go, [zone.rank] *)
Definition rank (claim z : zone) : nat :=
  if known claim && bool_decide (z = claim) then 0
  else if negb (known z) then 1 else 2.

(** pkg/build/zone.go, [zone.prefers] *)
Definition prefers (claim a b : zone) : bool :=
  let ra := rank claim a in
  let rb := rank claim b in
  if negb (Nat.eqb ra rb) then Nat.ltb ra rb
  else bool_decide (zone_compare a b = Lt).

#[export] Instance zone_compare_strict : GoCmpStrict zone_compare.
Proof.
  split; [unfold zone_compare; apply _|]. intros [a1 e1] [a2 e2]. unfold zone_compare.
  rewrite cmp_lex_eq. unfold on_key. cbn. rewrite !string_compare_eq. intros [-> ->]. done.
Qed.

(** ** Cluster identities *)

(** pkg/build/clusteridentity.go, [clusterResolver] *)
Record clusterResolver := mkClusterResolver {
  cr_keys : LabelKeys;
  identities : gmap string ClusterIdentity;
  byRaw : gmap string (gset string);
  missing : gmap string nat;
  unresolved : gmap string nat;
}.

(** pkg/build/clusteridentity.go, [newClusterResolver] *)
Definition newClusterResolver (keys : LabelKeys) : clusterResolver :=
  mkClusterResolver (OrDefault keys) ∅ ∅ ∅ ∅.

(** pkg/build/clusteridentity.go, [bucketCluster] *)
Definition bucketCluster (c : string) : string :=
  if bool_decide (c = "") then ClusterUnknownValue else c.

(** The text of an identity: [<az>-<env>-<cluster>]. *)
Definition identity_text (ci : ClusterIdentity) : string :=
  ci_AZ ci +:+ "-" +:+ ci_Env ci +:+ "-" +:+ ci_Name ci.

(** pkg/build/clusteridentity.go, [clusterResolver.compose] *)
Definition compose (keys : LabelKeys) (m : Metric) : option (string * ClusterIdentity) :=
  let az := label_of m (key_AZ keys) in
  let env := label_of m (key_Env keys) in
  if bool_decide (az = "") || bool_decide (env = "") then None
  else let ci := mkClusterIdentity az env (bucketCluster (label_of m "cluster")) in
       Some (identity_text ci, ci).

(** pkg/build/clusteridentity.go, [clusterResolver.observe] *)
Definition observe (r : clusterResolver) (m : Metric) : clusterResolver :=
  match compose (cr_keys r) m with
  | None => r
  | Some (ident, ci) =>
      mkClusterResolver (cr_keys r) (<[ident := ci]> (identities r))
        (<[ci_Name ci := {[ident]} ∪ default ∅ (byRaw r !! ci_Name ci)]> (byRaw r))
        (missing r) (unresolved r)
  end.

(** pkg/build/clusteridentity.go, [clusterResolver.adopt] *)
Definition adopt (r : clusterResolver) (raw : string) : option string :=
  match elements (default ∅ (byRaw r !! raw)) with
  | [ident] => Some ident
  | _ => None
  end.

(** pkg/build/clusteridentity.go, [clusterResolver.identify] *)
Definition identify (r : clusterResolver) (m : Metric) : string :=
  match compose (cr_keys r) m with
  | Some (ident, _) => ident
  | None =>
      let raw := bucketCluster (label_of m "cluster") in
      match adopt r raw with
      | Some ident => ident
      | None => raw
      end
  end.

(** pkg/build/clusteridentity.go, [clusterResolver.bucket] *)
Definition bucket (r : clusterResolver) (metric : string) (m : Metric) : string * clusterResolver :=
  let raw := label_of m "cluster" in
  let miss := if bool_decide (raw = "") then incr metric (missing r) else missing r in
  let ident := identify r m in
  let unres := if bool_decide (ident = bucketCluster raw) && negb (bool_decide (identities r = ∅))
               then incr metric (unresolved r) else unresolved r in
  (ident, mkClusterResolver (cr_keys r) (identities r) (byRaw r) miss unres).

(** pkg/build/clusteridentity.go, [clusterResolver.resolveForeign] *)
Definition resolveForeign (r : clusterResolver) (raw : string) : string :=
  if bool_decide (raw = "") then raw else
  match identities r !! raw with
  | Some _ => raw
  | None => match adopt r raw with Some ident => ident | None => raw end
  end.

(** pkg/build/clusteridentity.go, [clusterResolver.snapshot]: the nil table of
    an unstamped estate is [None]. *)
Definition snapshot (r : clusterResolver) : option (gmap string ClusterIdentity) :=
  if bool_decide (identities r = ∅) then None else Some (identities r).

(** pkg/build/topology.go@60-72, [parseTopology]: the first pass. *)
Definition observe_all (r : clusterResolver) (ms : list Metric) : clusterResolver :=
  fold_left observe ms r.

(** ** The ladder, declaratively *)

(** The identities composed from a raw name among the observed series. *)
Definition composed (keys : LabelKeys) (ms : list Metric) (raw : string) : gset string :=
  list_to_set (omap (λ m, match compose keys m with
                          | Some (ident, ci) => if decide (ci_Name ci = raw) then Some ident else None
                          | None => None
                          end) ms).

Lemma observe_all_keys ms r : cr_keys (observe_all r ms) = cr_keys r.
Proof.
  unfold observe_all. revert r. induction ms as [|m ms IH]; intros r; [done|]. cbn.
  rewrite IH. unfold observe. by destruct (compose _ m) as [[]|].
Qed.

Lemma observe_all_byRaw ms r raw :
  default ∅ (byRaw (observe_all r ms) !! raw) = composed (cr_keys r) ms raw ∪ default ∅ (byRaw r !! raw).
Proof.
  unfold observe_all. revert r. induction ms as [|m ms IH]; intros r; cbn [fold_left].
  { unfold composed. cbn. set_solver. }
  rewrite IH. unfold composed at 2. cbn [omap list_omap]. unfold observe.
  destruct (compose (cr_keys r) m) as [[ident ci]|]; [|done].
  cbn [cr_keys byRaw]. destruct (decide (ci_Name ci = raw)) as [<-|Hne].
  - rewrite lookup_insert_eq. cbn. unfold composed. set_solver.
  - rewrite lookup_insert_ne by done. done.
Qed.

(** What the ladder answers, given the identities composed per raw name. *)
Definition ladder (keys : LabelKeys) (table : string → gset string) (m : Metric) : string :=
  match compose keys m with
  | Some (ident, _) => ident
  | None => let raw := bucketCluster (label_of m "cluster") in
            match elements (table raw) with [ident] => ident | _ => raw end
  end.

(** Every series is placed by the ladder alone: the identity its own labels
    spell, else the only identity any observed series composed from its raw
    name, else the raw name itself. Neither the order the first pass reads the
    series in nor a repetition among them shows. *)
Theorem identify_ladder keys ms m :
  identify (observe_all (newClusterResolver keys) ms) m = ladder (OrDefault keys) (composed (OrDefault keys) ms) m ∧
  ∀ ms' : list Metric, (∀ x, x ∈ ms ↔ x ∈ ms') →
    identify (observe_all (newClusterResolver keys) ms') m =
    identify (observe_all (newClusterResolver keys) ms) m.
Proof.
  assert (∀ ms, identify (observe_all (newClusterResolver keys) ms) m =
                ladder (OrDefault keys) (composed (OrDefault keys) ms) m) as Hl.
  { intros l. unfold identify, ladder, adopt. rewrite observe_all_keys. cbn [cr_keys newClusterResolver].
    destruct (compose _ m) as [[]|]; [done|]. cbv zeta.
    rewrite observe_all_byRaw. cbn [byRaw newClusterResolver cr_keys]. rewrite lookup_empty.
    cbn [default from_option]. rewrite union_empty_r_L.
    by destruct (elements _) as [|? []]. }
  split; [apply Hl|]. intros ms' Hms. rewrite !Hl. unfold ladder.
  destruct (compose _ m) as [[]|]; [done|]. cbv zeta.
  set (raw := bucketCluster _). replace (composed (OrDefault keys) ms' raw)
    with (composed (OrDefault keys) ms raw); [done|].
  apply set_eq. intros i. unfold composed. rewrite !elem_of_list_to_set, !list_elem_of_omap.
  by setoid_rewrite Hms.
Qed.

Lemma identify_ladder_witness :
  let stamped := list_to_map [("az", "us"); ("env", "dev"); ("cluster", "c1")] : Metric in
  let bare := list_to_map [("cluster", "c1")] : Metric in
  let other := list_to_map [("az", "eu"); ("env", "prod"); ("cluster", "c1")] : Metric in
  identify (observe_all (newClusterResolver DefaultLabelKeys) [stamped]) bare = "us-dev-c1" ∧
  identify (observe_all (newClusterResolver DefaultLabelKeys) [stamped; other]) bare = "c1" ∧
  identify (observe_all (newClusterResolver DefaultLabelKeys) [other; stamped]) bare =
  identify (observe_all (newClusterResolver DefaultLabelKeys) [stamped; other]) bare.
Proof.
  cbv zeta. split; [vm_compute; reflexivity|]. split; [vm_compute; reflexivity|].
  apply (identify_ladder DefaultLabelKeys). intros x. set_solver.
Defined.

(** The text of an identity does not determine its components once one of them
    holds a dash: two clusters of different zones then share every id. *)
Theorem identity_text_collision :
  ∃ a b : ClusterIdentity, a ≠ b ∧ ci_AZ a ≠ ci_AZ b ∧ identity_text a = identity_text b ∧
    ∃ m1 m2 : Metric,
      compose DefaultLabelKeys m1 = Some (identity_text a, a) ∧
      compose DefaultLabelKeys m2 = Some (identity_text b, b) ∧
      identities (observe_all (newClusterResolver DefaultLabelKeys) [m1; m2]) ≠
      identities (observe_all (newClusterResolver DefaultLabelKeys) [m2; m1]).
Proof.
  exists (mkClusterIdentity "us" "east-dev" "c1"), (mkClusterIdentity "us-east" "dev" "c1").
  split; [done|]. split; [done|]. split; [done|].
  exists (list_to_map [("az", "us"); ("env", "east-dev"); ("cluster", "c1")]).
  exists (list_to_map [("az", "us-east"); ("env", "dev"); ("cluster", "c1")]).
  split; [vm_compute; reflexivity|]. split; [vm_compute; reflexivity|]. intros Heq.
  apply (f_equal (λ m : gmap string ClusterIdentity, ci_AZ <$> m !! "us-east-dev-c1")) in Heq.
  vm_compute in Heq. discriminate.
Qed.

(** ** Zone preference *)

Lemma zone_lt_irrefl z : zone_compare z z = Eq.
Proof. apply gc_refl, _. Qed.

(** [prefers] is a strict total order on zones, whatever the claim's zone:
    the choice among several series of one workload has one winner. *)
Theorem prefers_strict_total claim a b c :
  prefers claim a a = false ∧
  (prefers claim a b = true → prefers claim b c = true → prefers claim a c = true) ∧
  (a ≠ b → prefers claim a b = true ∨ prefers claim b a = true) ∧
  (known claim = true → b ≠ claim → prefers claim claim b = true).
Proof.
  unfold prefers. split; [|split; [|split]].
  - rewrite Nat.eqb_refl. cbn. by rewrite zone_lt_irrefl.
  - destruct (Nat.eqb_spec (rank claim a) (rank claim b)),
             (Nat.eqb_spec (rank claim b) (rank claim c)),
             (Nat.eqb_spec (rank claim a) (rank claim c)); cbn [negb];
      rewrite ?bool_decide_eq_true, ?Nat.ltb_lt; try lia; try congruence.
    intros H1 H2. eapply gc_lt_trans; [apply _|exact H1|by rewrite H2].
  - intros Hne. destruct (Nat.eqb_spec (rank claim a) (rank claim b)) as [He|He].
    + rewrite He, Nat.eqb_refl. cbn. rewrite !bool_decide_eq_true.
      destruct (zone_compare a b) eqn:E.
      * by apply (gcs_eq (c:=zone_compare)) in E.
      * by left.
      * right. by rewrite (gc_antisym (c:=zone_compare) a b), E.
    + destruct (Nat.eqb_spec (rank claim b) (rank claim a)); [congruence|]. cbn [negb].
      rewrite !Nat.ltb_lt. lia.
  - intros Hk Hne. unfold rank. rewrite Hk, (bool_decide_eq_true_2 (claim = claim)) by done.
    rewrite (bool_decide_eq_false_2 (b = claim)) by done. cbn. by destruct (known b).
Qed.

Lemma prefers_strict_total_witness :
  prefers (mkZone "us" "dev") (mkZone "us" "dev") no_zone = true ∧
  prefers (mkZone "us" "dev") no_zone (mkZone "eu" "dev") = true ∧
  prefers (mkZone "us" "dev") (mkZone "us" "dev") (mkZone "eu" "dev") = true.
Proof.
  split; [reflexivity|]. split; [reflexivity|].
  destruct (prefers_strict_total (mkZone "us" "dev") (mkZone "us" "dev") no_zone (mkZone "eu" "dev"))
    as (_ & Ht & _). apply Ht; reflexivity.
Defined.
