(* ===== verification/VolumeKey.v ===== *)
(** pkg/build/volumekey.go: how a claim's PersistentVolume name becomes the
    token a Harvest FlexVol name is matched by, and the index that answers the
    match for a whole build.

    [regexp.Compile] and [Regexp.ReplaceAllString] are a parameter: a compiled
    pattern is the replacement function it denotes. The theorem of the file is
    that the hash index answers exactly the one-pair predicate. *)

From S2P Require Import Prelude GoStrings Selector PairScope Fanout BuildIdentity.

(** [regexp.Compile]: the replacement function of a pattern ([src], then the
    replacement text), [None] for a pattern that does not compile. *)
Class RegexpCompile := regexp_compile : string → option (string → string → string).

(** One-byte literal patterns, the ones the defaults use. *)
Definition literal_regexp : RegexpCompile := λ p,
  match p with
  | String "-" "" => Some (λ s by_, replace_byte "-" by_ s)
  | String "_" "" => Some (λ s by_, replace_byte "_" by_ s)
  | _ => None
  end.

(** pkg/build/volumekey.go, [VolumeKeyRule] *)
Record VolumeKeyRule := mkVolumeKeyRule { Pattern : string; Replacement : string }.

(** pkg/build/volumekey.go, [DefaultVolumeKeyRules] *)
Definition DefaultVolumeKeyRules : list VolumeKeyRule := [mkVolumeKeyRule "-" "_"].

(** pkg/build/volumekey.go@44-47, [compiledVolumeKeyRule] *)
Record compiledVolumeKeyRule := mkCompiled { re : string → string → string; replacement : string }.

(** pkg/build/volumekey.go@40-42, [VolumeKeyRewriter] *)
Definition VolumeKeyRewriter : Type := list compiledVolumeKeyRule.

(** pkg/build/volumekey.go, [NewVolumeKeyRewriter]: the index of the first rule
    whose pattern does not compile is the error; [None] is a nil slice. *)
Definition compile_rules `{RegexpCompile} (rules : list VolumeKeyRule)
  : result nat VolumeKeyRewriter :=
  (fix go i l := match l with
   | [] => Ok []
   | r :: rest => match regexp_compile (Pattern r) with
                  | None => Err (i + 1)
                  | Some f => match go (S i) rest with
                              | Ok out => Ok (mkCompiled f (Replacement r) :: out)
                              | Err e => Err e
                              end
                  end
   end) 0 rules.
(** pkg/build/volumekey.go, [NewVolumeKeyRewriter] *)
Definition NewVolumeKeyRewriter `{RegexpCompile} (rules : option (list VolumeKeyRule))
  : result nat VolumeKeyRewriter :=
  compile_rules (default DefaultVolumeKeyRules rules).

(** pkg/build/volumekey.go, [VolumeKeyRewriter.token] *)
Definition token (r : VolumeKeyRewriter) (pvName : string) : string :=
  if bool_decide (pvName = "") then ""
  else fold_left (λ s rule, re rule s (replacement rule)) r pvName.

(** [strings.HasSuffix]. *)
Definition has_suffix (s suffix : string) : bool := bool_decide (is_Some (cut_suffix suffix s)).

(** pkg/build/volumekey.go, [VolumeKeyRewriter.matches] *)
Definition matches (tok volume : string) : bool :=
  if bool_decide (tok = "") then false else has_suffix volume tok.

(** pkg/build/netapp.go@96-103, [pvcVolume] *)
Record pvcVolume := mkPvcVolume { pv_id : string; pv_volumeName : string; pv_zone : zone }.

(** pkg/build/volumekey.go, [volumeMatcher] *)
Record volumeMatcher := mkVolumeMatcher {
  tokens : list string;
  byToken : gmap string (list nat);
  lengths : list nat;
}.

(** The body of the loop of [newVolumeMatcher]. *)
Definition matcher_add (m : volumeMatcher) (t : string) : volumeMatcher :=
  let i := length (tokens m) in
  if bool_decide (t = "") then mkVolumeMatcher (tokens m ++ [t]) (byToken m) (lengths m)
  else mkVolumeMatcher (tokens m ++ [t])
         (<[t := default [] (byToken m !! t) ++ [i]]> (byToken m))
         (if bool_decide (String.length t ∈ lengths m) then lengths m
          else lengths m ++ [String.length t]).

(** pkg/build/volumekey.go, [newVolumeMatcher] *)
Definition newVolumeMatcher (rw : VolumeKeyRewriter) (claims : list pvcVolume) : volumeMatcher :=
  let m := fold_left matcher_add (map (λ c, token rw (pv_volumeName c)) claims)
                     (mkVolumeMatcher [] ∅ []) in
  mkVolumeMatcher (tokens m) (byToken m) (sort_func Nat.compare (lengths m)).

(** [volume\[len(volume)-l:\]]. *)
Definition tail_bytes (l : nat) (s : string) : string := String.substring (String.length s - l) l s.

(** The loop of [match] over the token lengths, with its [break]. *)
Fixpoint match_loop (idx : gmap string (list nat)) (volume : string) (ls : list nat) : list nat :=
  match ls with
  | [] => []
  | l :: rest =>
      if String.length volume <? l then []
      else default [] (idx !! tail_bytes l volume) ++ match_loop idx volume rest
  end.

(** pkg/build/volumekey.go, [volumeMatcher.match] *)
Definition vm_match (m : volumeMatcher) (volume : string) : list nat :=
  if bool_decide (volume = "") then [] else match_loop (byToken m) volume (lengths m).

Fixpoint any_loop (idx : gmap string (list nat)) (volume : string) (ls : list nat) : bool :=
  match ls with
  | [] => false
  | l :: rest =>
      if String.length volume <? l then false
      else negb (bool_decide (default [] (idx !! tail_bytes l volume) = [])) || any_loop idx volume rest
  end.

(** pkg/build/volumekey.go, [volumeMatcher.any] *)
Definition vm_any (m : volumeMatcher) (volume : string) : bool :=
  if bool_decide (volume = "") then false else any_loop (byToken m) volume (lengths m).

(** The distinct bound PersistentVolume names, first occurrence first. *)
Definition bound_volumes (pvcInfo : list Sample) : list string :=
  keep_first ∅ (filter (λ v, v ≠ "") (map (λ s, label_of (s_Metric s) "volumename") pvcInfo)).

(** pkg/build/volumekey.go, [claimVolumeMatcher]: no claim gives no matcher. *)
Definition claimVolumeMatcher (pvcInfo : list Sample) (rw : VolumeKeyRewriter)
  : option (list pvcVolume * volumeMatcher) :=
  match map (λ v, mkPvcVolume "" v no_zone) (bound_volumes pvcInfo) with
  | [] => None
  | claims => Some (claims, newVolumeMatcher rw claims)
  end.

(** pkg/build/volumekey.go, [qosVolumeScope] *)
Definition qosVolumeScope (pvcInfo volumeLabels : list Sample) (rw : VolumeKeyRewriter) : list string :=
  if bool_decide (pvcInfo = []) || bool_decide (volumeLabels = []) then [] else
  match claimVolumeMatcher pvcInfo rw with
  | None => []
  | Some (_, m) =>
      sort_func String.compare
        (keep_first ∅ (filter (λ v, v ≠ "" ∧ vm_any m v = true)
                         (map (λ s, label_of (s_Metric s) "volume") volumeLabels)))
  end.

(** ** Suffixes *)

Lemma substring_full s : String.substring 0 (String.length s) s = s.
Proof. induction s as [|a s IH]; [done|]. cbn. by rewrite IH. Qed.

Lemma substring_skip p s n : String.substring (String.length p) n (p +:+ s) = String.substring 0 n s.
Proof. induction p as [|a p IH]; [done|]. exact IH. Qed.

Lemma tail_bytes_app p s : tail_bytes (String.length s) (p +:+ s) = s.
Proof.
  unfold tail_bytes. rewrite length_append.
  replace (String.length p + String.length s - String.length s) with (String.length p) by lia.
  by rewrite substring_skip, substring_full.
Qed.

Lemma split_at_tail n s : n ≤ String.length s →
  ∃ p, s = p +:+ tail_bytes n s ∧ String.length (tail_bytes n s) = n.
Proof.
  intros Hn. remember (String.length s - n) as k eqn:Hk.
  assert (∃ p t, s = p +:+ t ∧ String.length p = k) as (p & t & -> & Hp).
  { clear Hn. assert (k ≤ String.length s) as Hle by lia. clear Hk n.
    revert k Hle. induction s as [|a s IH]; intros k Hle.
    - exists "", "". cbn in *. split; [done|]. cbn. lia.
    - destruct k as [|k]; [by exists "", (String a s)|]. cbn in Hle.
      destruct (IH k ltac:(lia)) as (p & t & -> & Hp). exists (String a p), t.
      split; [done|]. cbn. by rewrite Hp. }
  rewrite length_append in *. assert (n = String.length t) as -> by lia.
  exists p. by rewrite tail_bytes_app.
Qed.

Lemma has_suffix_iff s suf : has_suffix s suf = true ↔ ∃ p, s = p +:+ suf.
Proof.
  unfold has_suffix. rewrite bool_decide_eq_true. split.
  - intros [p Hp]. exists p. by apply cut_suffix_spec.
  - intros [p ->]. exists p. by apply cut_suffix_spec.
Qed.

Lemma matches_iff tok volume :
  matches tok volume = true ↔
  tok ≠ "" ∧ String.length tok ≤ String.length volume ∧ tail_bytes (String.length tok) volume = tok.
Proof.
  unfold matches. case_bool_decide as H; [naive_solver|]. rewrite has_suffix_iff. split.
  - intros [p ->]. rewrite tail_bytes_app, length_append. split_and!; [done|lia|done].
  - intros (_ & Hl & Ht). destruct (split_at_tail _ _ Hl) as (p & Hp & _).
    rewrite Ht in Hp. by exists p.
Qed.

(** ** The index *)

#[export] Instance nat_compare_strict : GoCmpStrict Nat.compare.
Proof.
  split; [split|].
  - intros x y. by rewrite Nat.compare_antisym.
  - intros x y z. rewrite !Nat.compare_ngt_iff. lia.
  - apply Nat.compare_eq.
Qed.

(** The state of the index after the tokens [ts]. *)
Record index_ok (ts : list string) (m : volumeMatcher) : Prop := {
  io_tokens : tokens m = ts;
  io_lookup : ∀ t i, i ∈ default [] (byToken m !! t) ↔ t ≠ "" ∧ ts !! i = Some t;
  io_nodup : ∀ t, NoDup (default [] (byToken m !! t));
  io_lengths : ∀ l, l ∈ lengths m ↔ ∃ t, t ∈ ts ∧ t ≠ "" ∧ String.length t = l;
  io_lengths_nodup : NoDup (lengths m);
}.

Lemma lookup_snoc_iff {A} (l : list A) x i y :
  (l ++ [x]) !! i = Some y ↔ l !! i = Some y ∨ (i = length l ∧ x = y).
Proof.
  destruct (decide (i < length l)) as [Hl|Hl].
  - rewrite lookup_app_l by done. split; [by left|]. intros [?|[-> _]]; [done|lia].
  - rewrite lookup_app_r by lia. rewrite (lookup_ge_None_2 l i) by lia. split.
    + intros H. right. destruct (i - length l) eqn:E; cbn in H; [|done].
      split; [lia|by injection H].
    + intros [?|[-> ->]]; [done|]. by rewrite Nat.sub_diag.
Qed.

Lemma matcher_add_ok ts m t : index_ok ts m → index_ok (ts ++ [t]) (matcher_add m t).
Proof.
  intros [Ht Hl Hn Hlen Hlnd]. unfold matcher_add. rewrite Ht. case_bool_decide as Hempty.
  - subst t. split; cbn; [done| |done| |done].
    + intros t i. rewrite Hl, lookup_snoc_iff. naive_solver.
    + intros l. rewrite Hlen. set_solver.
  - assert (∀ t' i, i ∈ default [] (byToken m !! t') → i < length ts) as Hbound.
    { intros t' i [_ Hi]%Hl. by eapply lookup_lt_Some. }
    split; cbn [tokens byToken lengths]; [done| | | |].
    + intros t' i. rewrite lookup_snoc_iff. destruct (decide (t' = t)) as [->|Hne].
      * rewrite lookup_insert_eq. cbn [default from_option]. change (id ?x) with x.
        rewrite elem_of_app, Hl, list_elem_of_singleton. naive_solver.
      * rewrite lookup_insert_ne by done. rewrite Hl. naive_solver.
    + intros t'. destruct (decide (t' = t)) as [->|Hne].
      * rewrite lookup_insert_eq. cbn [default from_option]. change (id ?x) with x.
        apply NoDup_app. split; [apply Hn|]. split; [|apply NoDup_singleton].
        intros i Hi%Hbound ->%list_elem_of_singleton. lia.
      * by rewrite lookup_insert_ne.
    + intros l. case_bool_decide as Hin.
      * rewrite Hlen in Hin |- *. destruct Hin as (t' & ? & ? & Heq).
        split; [set_solver|]. intros (t'' & [?| ->%list_elem_of_singleton]%elem_of_app & ? & ?); [set_solver|].
        exists t'. split_and!; [done..|congruence].
      * rewrite elem_of_app, Hlen, list_elem_of_singleton. set_solver.
    + case_bool_decide as Hin; [done|]. apply NoDup_app. split; [done|].
      split; [|apply NoDup_singleton]. intros x Hx ->%list_elem_of_singleton. done.
Qed.

Lemma newVolumeMatcher_ok rw claims :
  index_ok (map (λ c, token rw (pv_volumeName c)) claims) (newVolumeMatcher rw claims) ∧
  StronglySorted (cmp_le Nat.compare) (lengths (newVolumeMatcher rw claims)).
Proof.
  assert (index_ok (map (λ c, token rw (pv_volumeName c)) claims)
            (fold_left matcher_add (map (λ c, token rw (pv_volumeName c)) claims)
               (mkVolumeMatcher [] ∅ []))) as [H1 H2 H3 H4 H5].
  { induction (map _ claims) as [|t ts IH] using rev_ind.
    - split; cbn; [done| | | |].
      + intros t i. rewrite lookup_empty. cbn. set_solver.
      + intros t. rewrite lookup_empty. apply NoDup_nil_2.
      + set_solver.
      + apply NoDup_nil_2.
    - rewrite fold_left_app. by apply matcher_add_ok. }
  split; [|apply (sort_func_sorted Nat.compare)]. split; [done..| |].
  - intros l. cbn. by rewrite elem_of_sort_func.
  - cbn. by apply NoDup_sort_func.
Qed.

(** The loop's [break] skips only lengths that cannot match: they ascend. *)
Lemma elem_of_match_loop idx v ls i :
  StronglySorted (cmp_le Nat.compare) ls →
  i ∈ match_loop idx v ls ↔
  ∃ l, l ∈ ls ∧ l ≤ String.length v ∧ i ∈ default [] (idx !! tail_bytes l v).
Proof.
  induction ls as [|l ls IH]; intros Hs; cbn [match_loop].
  { split; [set_solver|]. intros (l & Hl & _). set_solver. }
  apply StronglySorted_inv in Hs as [Hs Hl]. rewrite Forall_forall in Hl.
  destruct (String.length v <? l)%nat eqn:E.
  - apply Nat.ltb_lt in E. split; [set_solver|].
    intros (l' & [->|Hl']%elem_of_cons & Hle & _); [lia|].
    apply Hl in Hl'. unfold cmp_le in Hl'. apply Nat.compare_ngt_iff in Hl'. lia.
  - apply Nat.ltb_ge in E. rewrite elem_of_app, IH by done. split.
    + intros [Hi|(l' & ? & ? & ?)]; [by exists l; set_solver|exists l'; set_solver].
    + intros (l' & [->|Hl']%elem_of_cons & ? & ?); [by left|right; by exists l'].
Qed.

Lemma any_loop_match idx v ls : any_loop idx v ls = negb (bool_decide (match_loop idx v ls = [])).
Proof.
  induction ls as [|l ls IH]; [done|]. cbn [any_loop match_loop].
  destruct (String.length v <? l)%nat; [done|].
  rewrite IH. destruct (default [] (idx !! tail_bytes l v)); [done|].
  by rewrite (bool_decide_eq_false_2 (_ ++ _ = [])).
Qed.

Lemma NoDup_match_loop m ts v :
  index_ok ts m → ∀ ls, NoDup ls → (∀ l, l ∈ ls → l ∈ lengths m) → NoDup (match_loop (byToken m) v ls).
Proof.
  intros Hm. induction ls as [|l ls IH]; intros Hnd Hsub; cbn [match_loop]; [apply NoDup_nil_2|].
  destruct (String.length v <? l)%nat eqn:E; [apply NoDup_nil_2|]. apply Nat.ltb_ge in E.
  apply NoDup_cons in Hnd as [Hl Hnd]. apply NoDup_app. split; [apply Hm|].
  split; [|apply IH; set_solver]. intros i Hi Hi'.
  apply (io_lookup _ _ Hm) in Hi as [_ Hi].
  assert (∃ l', l' ∈ ls ∧ l' ≤ String.length v ∧ i ∈ default [] (byToken m !! tail_bytes l' v))
    as (l' & Hl' & Hle & Hi2).
  { clear -Hi'. induction ls as [|x ls IH]; cbn [match_loop] in Hi'; [by apply elem_of_nil in Hi'|].
    destruct (String.length v <? x)%nat eqn:E; [by apply elem_of_nil in Hi'|].
    apply Nat.ltb_ge in E. apply elem_of_app in Hi' as [?|Hi']; [exists x; set_solver|].
    destruct (IH Hi') as (l' & ? & ? & ?). exists l'. set_solver. }
  apply (io_lookup _ _ Hm) in Hi2 as [_ Hi2]. rewrite Hi in Hi2. injection Hi2 as Heq.
  destruct (split_at_tail l v E) as (_ & _ & H1), (split_at_tail l' v Hle) as (_ & _ & H2).
  rewrite Heq in H1. congruence.
Qed.

(** The bulk form answers the claims whose token is a suffix, each once. *)
Lemma elem_of_vm_match rw claims v i :
  i ∈ vm_match (newVolumeMatcher rw claims) v ↔
  ∃ c, claims !! i = Some c ∧ matches (token rw (pv_volumeName c)) v = true.
Proof.
  destruct (newVolumeMatcher_ok rw claims) as [Hm Hs]. unfold vm_match.
  case_bool_decide as Hv.
  { subst v. split; [set_solver|]. intros (c & _ & Hc). apply matches_iff in Hc as (Hne & Hl & _).
    destruct (token rw (pv_volumeName c)); [done|cbn in Hl; lia]. }
  rewrite elem_of_match_loop by done. setoid_rewrite (io_lookup _ _ Hm).
  setoid_rewrite (io_lengths _ _ Hm). setoid_rewrite list_lookup_fmap.
  setoid_rewrite matches_iff. split.
  - intros (l & (t & _ & _ & <-) & Hle & Hne & Hi).
    destruct (claims !! i) as [c|] eqn:Ec; [|done]. injection Hi as Hi. exists c.
    split; [done|]. destruct (split_at_tail _ _ Hle) as (_ & _ & Hlen). rewrite Hi.
    split; [done|]. rewrite Hlen. done.
  - intros (c & Hc & Hne & Hle & Ht). exists (String.length (token rw (pv_volumeName c))).
    rewrite Ht, Hc. split_and!; [|done..]. exists (token rw (pv_volumeName c)).
    split_and!; [|done..]. apply list_elem_of_fmap. exists c. split; [done|].
    by eapply list_elem_of_lookup_2.
Qed.

Lemma NoDup_vm_match rw claims v : NoDup (vm_match (newVolumeMatcher rw claims) v).
Proof.
  destruct (newVolumeMatcher_ok rw claims) as [Hm _]. unfold vm_match.
  case_bool_decide; [apply NoDup_nil_2|]. eapply NoDup_match_loop; [done|apply Hm|done].
Qed.

Lemma vm_any_match m v : vm_any m v = negb (bool_decide (vm_match m v = [])).
Proof. unfold vm_any, vm_match. case_bool_decide; [done|]. apply any_loop_match. Qed.

(** C29: the hash index answers exactly the single-pair predicate: the claims
    returned for a FlexVol name are those whose derived token is a suffix of
    it, each of them once, and the boolean form says whether there is one. *)
Theorem volumeMatcher_exact rw claims v :
  (∀ i, i ∈ vm_match (newVolumeMatcher rw claims) v ↔
        ∃ c, claims !! i = Some c ∧ matches (token rw (pv_volumeName c)) v = true) ∧
  NoDup (vm_match (newVolumeMatcher rw claims) v) ∧
  (vm_any (newVolumeMatcher rw claims) v = true ↔
   ∃ c, c ∈ claims ∧ matches (token rw (pv_volumeName c)) v = true).
Proof.
  split; [intros i; apply elem_of_vm_match|]. split; [apply NoDup_vm_match|].
  rewrite vm_any_match, negb_true_iff, bool_decide_eq_false. split.
  - intros Hne. destruct (vm_match _ v) as [|i l] eqn:E; [done|].
    assert (i ∈ vm_match (newVolumeMatcher rw claims) v) as Hi by (rewrite E; set_solver).
    apply elem_of_vm_match in Hi as (c & Hc & Hm). exists c. split; [|done].
    by eapply list_elem_of_lookup_2.
  - intros (c & Hc & Hm) Hnil. apply list_elem_of_lookup_1 in Hc as [i Hi].
    assert (i ∈ vm_match (newVolumeMatcher rw claims) v) as Hin by (apply elem_of_vm_match; eauto).
    rewrite Hnil in Hin. by apply elem_of_nil in Hin.
Qed.

Definition default_rewriter : VolumeKeyRewriter :=
  match @NewVolumeKeyRewriter literal_regexp None with Ok r => r | Err _ => [] end.

Example volumeMatcher_example :
  let m := newVolumeMatcher default_rewriter
             [mkPvcVolume "a" "pvc-1-2" no_zone; mkPvcVolume "b" "" no_zone;
              mkPvcVolume "c" "x-9" no_zone; mkPvcVolume "d" "pvc-1-2" no_zone] in
  vm_match m "trident_pvc_1_2" = [0; 3] ∧ vm_match m "pvc_1_2_clone" = [] ∧ vm_any m "x_9" = true.
Proof. split_and!; vm_compute; reflexivity. Qed.

(** The scope of the QoS read is canonical: strictly sorted, and it holds a
    FlexVol name exactly when some volume-label row carries it and the token of
    some bound claim is its suffix. *)
Theorem qosVolumeScope_spec pvcInfo volumeLabels rw :
  StronglySorted (cmp_lt String.compare) (qosVolumeScope pvcInfo volumeLabels rw) ∧
  ∀ v, v ∈ qosVolumeScope pvcInfo volumeLabels rw ↔
       v ≠ "" ∧ (∃ s, s ∈ volumeLabels ∧ label_of (s_Metric s) "volume" = v) ∧
       ∃ s, s ∈ pvcInfo ∧ label_of (s_Metric s) "volumename" ≠ "" ∧
            matches (token rw (label_of (s_Metric s) "volumename")) v = true.
Proof.
  assert (∀ x, x ∈ bound_volumes pvcInfo ↔
     x ≠ "" ∧ ∃ s, s ∈ pvcInfo ∧ label_of (s_Metric s) "volumename" = x) as Hbv.
  { intros x. unfold bound_volumes. rewrite elem_of_keep_first, list_elem_of_filter, list_elem_of_fmap.
    set_solver. }
  unfold qosVolumeScope. destruct (_ || _) eqn:Ee.
  { split; [constructor|]. intros v. split; [set_solver|].
    intros (_ & (s & Hs & _) & (s' & Hs' & _)). apply orb_true_iff in Ee as [Ee|Ee];
      apply bool_decide_eq_true in Ee; subst; set_solver. }
  unfold claimVolumeMatcher. destruct (bound_volumes pvcInfo) as [|b bs] eqn:Eb; cbn [map].
  { split; [constructor|]. intros v. split; [set_solver|].
    intros (_ & _ & s & Hs & Hne & _). assert (label_of (s_Metric s) "volumename" ∈ []) as Hin
      by (apply Hbv; eauto). by apply elem_of_nil in Hin. }
  set (claims := mkPvcVolume "" b no_zone :: _). split.
  - apply sorted_le_NoDup_lt; [apply _|apply sort_func_sorted; apply _|].
    apply NoDup_sort_func, NoDup_keep_first; apply _.
  - intros v. rewrite elem_of_sort_func, elem_of_keep_first, list_elem_of_filter, list_elem_of_fmap.
    assert (vm_any (newVolumeMatcher rw claims) v = true ↔
      ∃ s, s ∈ pvcInfo ∧ label_of (s_Metric s) "volumename" ≠ "" ∧
           matches (token rw (label_of (s_Metric s) "volumename")) v = true) as ->.
    { rewrite vm_any_match, negb_true_iff, bool_decide_eq_false.
      assert (∀ x, (∃ c, c ∈ claims ∧ pv_volumeName c = x) ↔ x ∈ b :: bs) as Hcl.
      { intros x. change claims with (map (λ v, mkPvcVolume "" v no_zone) (b :: bs)).
        setoid_rewrite list_elem_of_fmap. split.
        - intros (c & (y & -> & Hy) & <-). done.
        - intros Hx. exists (mkPvcVolume "" x no_zone). eauto. }
      split.
      - intros Hne. destruct (vm_match _ v) as [|i l] eqn:E; [done|].
        assert (i ∈ vm_match (newVolumeMatcher rw claims) v) as Hi by (rewrite E; set_solver).
        apply elem_of_vm_match in Hi as (c & Hc & Hm). apply list_elem_of_lookup_2 in Hc.
        assert (pv_volumeName c ∈ b :: bs) as Hin by (apply Hcl; eauto).
        apply Hbv in Hin as (Hne' & s & Hs & Heq). exists s. by rewrite Heq.
      - intros (s & Hs & Hne & Hm) Hnil.
        assert (label_of (s_Metric s) "volumename" ∈ b :: bs) as Hin by (apply Hbv; eauto).
        apply Hcl in Hin as (c & Hc & Heq). apply list_elem_of_lookup_1 in Hc as [i Hi].
        assert (i ∈ vm_match (newVolumeMatcher rw claims) v) as Hi'.
        { apply elem_of_vm_match. exists c. by rewrite Heq. }
        rewrite Hnil in Hi'. by apply elem_of_nil in Hi'. }
    set_solver.
Qed.
