(* ===== verification/TopologyTypes.v ===== *)
(** pkg/build/errors.go and the classification of build.go: the typed errors of a
    build and what the chain of a failed read's error holds.

    pkg/build/topology_types.go: the vectors one topology read returns, the
    topology parsed out of them, and the keys the readers join on. *)

From S2P Require Import Prelude Queries GoStrings Float64 GraphNode GraphEdge Graph Selector.
From S2P Require Import PairScope Fanout AppMetadata BuildIdentity VolumeKey.

#[local] Open Scope bool_scope.

(** pkg/build/errors.go, [Reason] *)
Inductive Reason :=
  | ReasonTimeout | ReasonOutsideRetention | ReasonUpstream | ReasonCanceled | ReasonInvalidScope.

#[export] Instance Reason_eq_dec : EqDecision Reason.
Proof. solve_decision. Defined.

(** pkg/build/errors.go@12-25, [Reason]: the constants' values. *)
Definition reason_string (r : Reason) : string :=
  match r with
  | ReasonTimeout => "timeout"
  | ReasonOutsideRetention => "outside_retention"
  | ReasonUpstream => "upstream"
  | ReasonCanceled => "canceled"
  | ReasonInvalidScope => "invalid_scope"
  end.

(** pkg/build/errors.go@29-29, [RootScopeCapMessage] *)
Definition RootScopeCapMessage := "root scope exceeds the query cap".

(** pkg/build/errors.go@37-42, [Error]: [err_Cause] is the text of the wrapped
    error. *)
Record Error := mkError {
  err_Reason : Reason;
  err_Message : string;
  err_Query : string;
  err_Cause : option string;
}.

(** pkg/build/errors.go, [Error.Error] *)
Definition Error_Error (e : Error) : string :=
  match err_Cause e with
  | Some cause => reason_string (err_Reason e) +:+ ": " +:+ cause
  | None => reason_string (err_Reason e) +:+ ": " +:+ err_Message e
  end.

(** pkg/build/errors.go, [NewError] *)
Definition NewError (reason : Reason) (message : string) (cause : option string) : Error :=
  mkError reason message "" cause.

(** What the chain of a read's error holds: a build error, a context error, the
    family [wrapQueryError] named. *)
Record readError := mkReadError {
  re_text : string;
  re_build : option Error;
  re_canceled : bool;
  re_deadline : bool;
  re_query : option string;
}.

(** pkg/build/errors.go, [wrapQueryError]: [None] is no error; the outermost
    name is the one found. *)
Definition wrapQueryError (name : Query) (e : option readError) : option readError :=
  (λ e, mkReadError (name +:+ " query: " +:+ re_text e) (re_build e) (re_canceled e) (re_deadline e) (Some name)) <$> e.

(** pkg/build/build.go, [classifyReadError] *)
Definition classifyReadError (what : string) (e : readError) : Error :=
  match re_build e with
  | Some be =>
      if bool_decide (err_Reason be = ReasonInvalidScope) then be
      else if re_canceled e then NewError ReasonCanceled "request canceled" (Some (re_text e))
      else if re_deadline e then NewError ReasonTimeout "build timeout" (Some (re_text e))
      else mkError ReasonUpstream what (default "" (re_query e)) (Some (re_text e))
  | None =>
      if re_canceled e then NewError ReasonCanceled "request canceled" (Some (re_text e))
      else if re_deadline e then NewError ReasonTimeout "build timeout" (Some (re_text e))
      else mkError ReasonUpstream what (default "" (re_query e)) (Some (re_text e))
  end.

(** pkg/build/topology_types.go, [PodPVCBinding] *)
Record PodPVCBinding := mkBinding { b_PodID : string; b_PVCID : string }.
(** pkg/build/topology_types.go, [SVMRef] *)
Record SVMRef := mkSVMRef { ref_ONTAPCluster : string; ref_SVM : string }.
(** pkg/build/topology_types.go@44-44, [podNameKey]: [podKey] has the same
    fields and is converted to it. *)
Record podNameKey := mkPodNameKey { pnk_cluster : string; pnk_namespace : string; pnk_pod : string }.
(** pkg/build/topology_types.go, [podObs] *)
Record podObs := mkPodObs {
  obs_uid : string; obs_nodeID : string; obs_ts : Z; obs_labels : labels;
  obs_nodeRaw : string; obs_podIP : string;
}.
(** pkg/build/topology_types.go@39-39, [serviceKey] *)
Record serviceKey := mkServiceKey { sk_cluster : string; sk_namespace : string; sk_service : string }.
(** pkg/build/topology_types.go, [ServiceObs] *)
Record ServiceObs := mkServiceObs { so_ClusterIP : string }.
(** pkg/build/topology_types.go, [EndpointObs] *)
Record EndpointObs := mkEndpointObs { eo_Pod : PodNode }.
(** pkg/build/topology_attrs.go@15-15, [pvcKey] *)
Record pvcKey := mkPvcKey { pk_cluster : string; pk_namespace : string; pk_claim : string }.

#[export] Instance PodPVCBinding_eq_dec : EqDecision PodPVCBinding.
Proof. solve_decision. Defined.
#[export] Instance PodPVCBinding_countable : Countable PodPVCBinding.
Proof. refine (inj_countable' (λ b, (b_PodID b, b_PVCID b)) (λ p, mkBinding p.1 p.2) _). by intros []. Defined.
#[export] Instance podNameKey_eq_dec : EqDecision podNameKey.
Proof. solve_decision. Defined.
#[export] Instance podNameKey_countable : Countable podNameKey.
Proof.
  refine (inj_countable' (λ k, (pnk_cluster k, pnk_namespace k, pnk_pod k))
            (λ p, mkPodNameKey p.1.1 p.1.2 p.2) _). by intros [].
Defined.
#[export] Instance serviceKey_eq_dec : EqDecision serviceKey.
Proof. solve_decision. Defined.
#[export] Instance serviceKey_countable : Countable serviceKey.
Proof.
  refine (inj_countable' (λ k, (sk_cluster k, sk_namespace k, sk_service k))
            (λ p, mkServiceKey p.1.1 p.1.2 p.2) _). by intros [].
Defined.
#[export] Instance pvcKey_eq_dec : EqDecision pvcKey.
Proof. solve_decision. Defined.
#[export] Instance pvcKey_countable : Countable pvcKey.
Proof.
  refine (inj_countable' (λ k, (pk_cluster k, pk_namespace k, pk_claim k))
            (λ p, mkPvcKey p.1.1 p.1.2 p.2) _). by intros [].
Defined.

(** pkg/build/netapp.go, [NetAppInventory] *)
Record NetAppInventory := mkInventory {
  inv_Nodes : list NetAppNode;
  inv_Aggrs : list NetAppAggrNode;
  inv_SVMs : list NetAppSVMNode;
}.
(** pkg/build/netapp.go, [NetAppInventory.Empty] *)
Definition inventory_Empty (i : NetAppInventory) : bool :=
  bool_decide (inv_Nodes i = []) && bool_decide (inv_Aggrs i = []) && bool_decide (inv_SVMs i = []).

(** pkg/build/alerts.go@317-317, [alertWindow]: two instants, in nanoseconds
    since the zero [time.Time]. *)
Record alertWindow := mkAlertWindow { win_start : Z; win_end : Z }.

(** pkg/build/topology_types.go@61-208, [Topology]: [RawSeriesCount] is a
    diagnostic and is left out. The resolver travels with the topology. *)
Record Topology := mkTopology {
  Pods : list PodNode;
  Nodes : list K8sNode;
  PVCs : list PVCNode;
  NetAppAggrs : list NetAppAggrNode;
  NetAppNodes : list NetAppNode;
  StorageEdges : list Edge;
  PodPVCs : list PodPVCBinding;
  ClaimSeeded : bool;
  Inventory : NetAppInventory;
  TopoAlerts : list Sample;
  SVMByPVC : gmap string SVMRef;
  PodsByUID : gmap string PodNode;
  ServicesByNameNS : gmap serviceKey ServiceObs;
  EndpointsByService : gmap serviceKey (list EndpointObs);
  ServiceApplications : gmap serviceKey string;
  ClustersObserved : list string;
  TopoIdentities : option (gmap string ClusterIdentity);
  TopoNamespaceMeta : option (gmap (string * string) NamespaceMeta);
  TopoApplicationMeta : option (gmap (string * string * string) ApplicationMeta);
  clusters : clusterResolver;
  ontapZones : gmap string (list zone);
  topoAlertWindow : alertWindow;
}.

(** pkg/build/topology_types.go@213-362, [topologyVectors] *)
Record topologyVectors := mkTopologyVectors {
  v_Pod : list Sample; v_Node : list Sample; v_Addr : list Sample; v_PVC : list Sample;
  v_NodeLabels : list Sample; v_Service : list Sample;
  v_EpEndpoints : list Sample; v_EpLabels : list Sample;
  v_PodOwner : list Sample; v_ReplicaSetOwner : list Sample; v_JobOwner : list Sample;
  v_PVCInfo : list Sample; v_PodContainerInfo : list Sample; v_NodeStatus : list Sample;
  v_ServiceAnnotations : list Sample; v_PVCAnnotations : list Sample;
  v_DeploymentAnnotations : list Sample; v_StatefulSetAnnotations : list Sample;
  v_DaemonSetAnnotations : list Sample; v_ReplicaSetAnnotations : list Sample;
  v_JobAnnotations : list Sample; v_CronJobAnnotations : list Sample;
  v_AppMetadata : option (list Sample); v_AppMetadataSource : option AppMetadataSource;
  v_JobAnnotationsDegraded : bool;
  v_VolumeKey : option VolumeKeyRewriter;
  v_VolumeLabelsRestricted : bool; v_MaterialiseUnboundClaims : bool;
  v_VolumeLabels : list Sample;
  v_QoSReadOps : list Sample; v_QoSWriteOps : list Sample;
  v_QoSReadLatency : list Sample; v_QoSWriteLatency : list Sample;
  v_QoSReadData : list Sample; v_QoSWriteData : list Sample;
  v_QoSReadOpsDelta : list Sample; v_QoSWriteOpsDelta : list Sample;
  v_QoSReadLatencyDelta : list Sample; v_QoSWriteLatencyDelta : list Sample;
  v_QoSReadDataDelta : list Sample; v_QoSWriteDataDelta : list Sample;
  v_QoSPolicyMaxIOPS : list Sample; v_QoSPolicyMaxMBps : list Sample;
  v_AggrStatus : list Sample; v_AggrSpaceUsed : list Sample; v_AggrSpaceTotal : list Sample;
  v_NetAppNodeStatus : list Sample; v_NetAppNodeLabels : list Sample;
  v_NetAppNodeCPUBusy : list Sample; v_NetAppNodeTotalOps : list Sample;
  v_NetAppNodeTotalLatency : list Sample; v_NetAppNodeTotalData : list Sample;
  v_KubeletVolumeUsed : list Sample; v_KubeletVolumeCapacity : list Sample;
  v_Alerts : list Sample;
}.

(** The zero value: nothing was read. *)
Definition no_vectors : topologyVectors :=
  mkTopologyVectors [] [] [] [] [] [] [] [] [] [] [] [] [] [] [] [] [] [] [] [] [] [] None None
    false None false false [] [] [] [] [] [] [] [] [] [] [] [] [] [] [] [] [] [] [] [] [] [] [] []
    [] [] [].

(** [str_lt a b]: Go's [a < b] on strings. *)
Definition str_lt (a b : string) : bool := bool_decide (String.compare a b = Lt).

(** pkg/build/topology_attrs.go@47-54, [resolvePVCInfo]: keep the
    lexically-smallest non-empty value. *)
Definition pick_smallest (cur val : string) : string :=
  if bool_decide (val = "") then cur
  else if bool_decide (cur = "") || str_lt val cur then val else cur.
