(* ===== verification/TopologyOwners.v ===== *)
(** pkg/build/topology_owners.go and pkg/build/topology_attrs.go: what the
    topology read says about each pod, claim and node besides its existence:
    its controller, its Application, its containers, its volume, its readiness.

    Each reader is a loop writing an index under the row's key ([fold_keyed]).
    The theorem is that all but one of them keep the least candidate under a
    total order, so they are functions of the set of their rows; the exception
    is recorded. *)

From S2P Require Import Prelude GoStrings Float64 GraphNode PairScope Fanout Keyed.
From S2P Require Import Selector BuildIdentity VolumeKey TopologyTypes.

(** ** ArgoCD tracking ids *)

(** pkg/build/topology_owners.go, [argoAppName] *)
Definition argoAppName (raw : string) : string :=
  let '(before, _, found) := cut ":" raw in if found then before else raw.

(** pkg/build/topology_owners.go, [usableTrackingID] *)
Definition usableTrackingID (raw : string) : bool :=
  negb (bool_decide (raw = "")) && negb (bool_decide (argoAppName raw = "")).

(** pkg/build/topology_owners.go, [betterTrackingID] *)
Definition betterTrackingID (best raw : string) : bool :=
  usableTrackingID raw && (bool_decide (best = "") || str_lt raw best).

(** pkg/build/topology_owners.go@466-477, [resolveApplications]: one row. *)
Definition tracking_upd (label : string) (o : option string) (s : Sample) : option string :=
  let raw := label_of (s_Metric s) label in
  if betterTrackingID (default "" o) raw then Some raw else None.

(** pkg/build/topology_owners.go, [resolveApplications]: a row without a usable
    tracking id is skipped before its key is read. *)
Definition resolveApplications `{Countable K} (vec : list Sample) (label : string)
  (keyOf : Metric → option K) : gmap K string :=
  argoAppName <$>
  fold_keyed (λ s, if usableTrackingID (label_of (s_Metric s) label) then keyOf (s_Metric s) else None)
    (tracking_upd label) vec ∅.

(** pkg/build/podapplication.go@17-17, [argoTrackingIDLabel] *)
Definition argoTrackingIDLabel := "annotation_argocd_argoproj_io_tracking_id".

(** The (cluster, namespace, name) triple most readers key by; no key without a
    name. *)
Definition named_key (mc : clusterResolver) (label : string) (m : Metric) : option (string * string * string) :=
  let name := label_of m label in
  if bool_decide (name = "") then None
  else Some (identify mc m, label_of m "namespace", name).

(** pkg/build/topology_owners.go, [resolveServiceApplications] *)
Definition resolveServiceApplications (vec : list Sample) (mc : clusterResolver) : gmap serviceKey string :=
  resolveApplications vec argoTrackingIDLabel
    (λ m, (λ '(c, n, s), mkServiceKey c n s) <$> named_key mc "service" m).

(** pkg/build/topology_owners.go, [resolvePVCApplications] *)
Definition resolvePVCApplications (vec : list Sample) (mc : clusterResolver) : gmap pvcKey string :=
  resolveApplications vec argoTrackingIDLabel
    (λ m, (λ '(c, n, s), mkPvcKey c n s) <$> named_key mc "persistentvolumeclaim" m).

(** pkg/build/topology_owners.go@157-157, [controllerKey] *)
Record controllerKey := mkControllerKey {
  ck_cluster : string; ck_namespace : string; ck_kind : string; ck_name : string;
}.
#[export] Instance controllerKey_eq_dec : EqDecision controllerKey.
Proof. solve_decision. Defined.
#[export] Instance controllerKey_countable : Countable controllerKey.
Proof.
  refine (inj_countable' (λ k, (ck_cluster k, ck_namespace k, ck_kind k, ck_name k))
            (λ p, mkControllerKey p.1.1.1 p.1.1.2 p.1.2 p.2) _). by intros [].
Defined.

(** pkg/build/topology_owners.go@163-183, [controllerAnnotationFamilies]: the owner
    kind, the label naming the object, the vector. *)
Definition controllerAnnotationFamilies : list (string * string * (topologyVectors → list Sample)) := [
  ("Deployment", "deployment", v_DeploymentAnnotations);
  ("StatefulSet", "statefulset", v_StatefulSetAnnotations);
  ("DaemonSet", "daemonset", v_DaemonSetAnnotations);
  ("ReplicaSet", "replicaset", v_ReplicaSetAnnotations);
  ("Job", "job_name", v_JobAnnotations);
  ("CronJob", "cronjob", v_CronJobAnnotations)
].

(** pkg/build/topology_owners.go, [resolveControllerApplications]: the six maps
    are disjoint by kind, so the copies do not overwrite each other. *)
Definition resolveControllerApplications (v : topologyVectors) (mc : clusterResolver)
  : gmap controllerKey string :=
  fold_left (λ out '(kind, nameLabel, vec),
    resolveApplications (vec v) argoTrackingIDLabel
      (λ m, (λ '(c, n, s), mkControllerKey c n kind s) <$> named_key mc nameLabel m) ∪ out)
    controllerAnnotationFamilies ∅.

(** ** Controllers *)

(** pkg/build/topology_owners.go@16-16, [ownerRef] *)
Record ownerRef := mkOwnerRef { or_kind : string; or_name : string }.
#[export] Instance ownerRef_eq_dec : EqDecision ownerRef.
Proof. solve_decision. Defined.

(** pkg/build/topology_owners.go, [ownerLess] *)
Definition ownerLess (kind name curKind curName : string) : bool :=
  str_lt kind curKind || (bool_decide (kind = curKind) && str_lt name curName).

(** pkg/build/topology_owners.go@36-46, [resolvePodOwners]: the key of one
    ReplicaSet row. *)
Definition rs_row_key (mc : clusterResolver) (s : Sample) : option podNameKey :=
  let m := s_Metric s in
  if negb (bool_decide (label_of m "owner_kind" = "Deployment")) then None
  else if bool_decide (label_of m "replicaset" = "") || bool_decide (label_of m "owner_name" = "")
       then None
       else Some (mkPodNameKey (identify mc m) (label_of m "namespace") (label_of m "replicaset")).

(** pkg/build/topology_owners.go@35-48, [resolvePodOwners]: the first loop; a
    later row overwrites an earlier one. *)
Definition rs_to_deployment (rsOwnerVec : list Sample) (mc : clusterResolver) : gmap podNameKey string :=
  fold_keyed (rs_row_key mc) (λ _ s, Some (label_of (s_Metric s) "owner_name")) rsOwnerVec ∅.

(** pkg/build/topology_owners.go@51-68, [resolvePodOwners]: the key of one row. *)
Definition owner_row_key (mc : clusterResolver) (s : Sample) : option podNameKey :=
  let m := s_Metric s in
  if negb (bool_decide (label_of m "owner_is_controller" = "true")) then None
  else if bool_decide (label_of m "pod" = "") || bool_decide (label_of m "owner_kind" = "") ||
          bool_decide (label_of m "owner_name" = "") then None
  else Some (mkPodNameKey (identify mc m) (label_of m "namespace") (label_of m "pod")).
(** pkg/build/topology_owners.go@58-67, [resolvePodOwners]: the collapsed owner
    of one row. *)
Definition owner_row_ref (rs : gmap podNameKey string) (mc : clusterResolver) (s : Sample) : ownerRef :=
  let m := s_Metric s in
  let kind := label_of m "owner_kind" in
  let name := label_of m "owner_name" in
  if bool_decide (kind = "ReplicaSet") then
    match rs !! mkPodNameKey (identify mc m) (label_of m "namespace") name with
    | Some dep => mkOwnerRef "Deployment" dep
    | None => mkOwnerRef kind name
    end
  else mkOwnerRef kind name.

(** pkg/build/topology_owners.go, [resolvePodOwners] *)
Definition resolvePodOwners (ownerVec rsOwnerVec : list Sample) (mc : clusterResolver)
  : gmap podNameKey ownerRef :=
  let rs := rs_to_deployment rsOwnerVec mc in
  fold_keyed (owner_row_key mc)
    (λ o s, let r := owner_row_ref rs mc s in
            match o with
            | Some cur => if ownerLess (or_kind r) (or_name r) (or_kind cur) (or_name cur)
                          then Some r else None
            | None => Some r
            end) ownerVec ∅.

(** pkg/build/topology_owners.go, [resolveJobCronJobOwners]: the job's key is
    the (cluster, namespace, job) triple. *)
Definition resolveJobCronJobOwners (vec : list Sample) (mc : clusterResolver)
  : gmap (string * string * string) string :=
  fold_keyed
    (λ s, let m := s_Metric s in
          if negb (bool_decide (label_of m "owner_kind" = "CronJob")) ||
             negb (bool_decide (label_of m "owner_is_controller" = "true")) then None
          else if bool_decide (label_of m "job_name" = "") || bool_decide (label_of m "owner_name" = "")
               then None
               else Some (identify mc m, label_of m "namespace", label_of m "job_name"))
    (λ o s, let cron := label_of (s_Metric s) "owner_name" in
            match o with
            | Some cur => if str_lt cron cur then Some cron else None
            | None => Some cron
            end) vec ∅.

(** pkg/build/topology_owners.go, [resolveOwnerApplication]: over the two
    answers of its source; the index source below never errs. *)
Definition resolveOwnerApplication (controllerApp : string → string → option string)
  (cronJobOf : string → option string) (kind name : string) : string :=
  match controllerApp kind name with
  | Some app => app
  | None =>
      if negb (bool_decide (kind = "Job")) then ""
      else match cronJobOf name with
           | None => ""
           | Some cronJob => default "" (controllerApp "CronJob" cronJob)
           end
  end.

(** pkg/build/topology_owners.go, [indexedOwnerApps.controllerApp]: the
    build's source, scoped to one (cluster, namespace). *)
Definition indexed_controllerApp (ctrlApps : gmap controllerKey string) (cluster namespace kind name : string)
  : option string := ctrlApps !! mkControllerKey cluster namespace kind name.
(** pkg/build/topology_owners.go, [indexedOwnerApps.cronJobOf] *)
Definition indexed_cronJobOf (jobCronJobs : gmap (string * string * string) string) (degraded : bool)
  (cluster namespace job : string) : option string :=
  if degraded then None else jobCronJobs !! (cluster, namespace, job).

(** pkg/build/topology_owners.go, [resolvePodApplications] *)
Definition resolvePodApplications (metricApps : gmap podNameKey string) (owners : gmap podNameKey ownerRef)
  (ctrlApps : gmap controllerKey string) (jobCronJobs : gmap (string * string * string) string)
  (jobAnnotationsDegraded : bool) : gmap podNameKey string :=
  let out := filter (λ kv : podNameKey * string, kv.2 ≠ "") metricApps in
  out ∪ map_imap (λ pod owner,
    let app := resolveOwnerApplication
                 (indexed_controllerApp ctrlApps (pnk_cluster pod) (pnk_namespace pod))
                 (indexed_cronJobOf jobCronJobs jobAnnotationsDegraded (pnk_cluster pod) (pnk_namespace pod))
                 (or_kind owner) (or_name owner) in
    if bool_decide (app = "") then None else Some app) owners.

(** pkg/build/topology_owners.go, [pvcInheritedApps] *)
Definition pvcInheritedApps (bindings : list PodPVCBinding) (podApp : gmap string string) : gmap string string :=
  fold_keyed (λ b, if bool_decide (default "" (podApp !! b_PodID b) = "") then None else Some (b_PVCID b))
    (λ o b, let app := default "" (podApp !! b_PodID b) in
            match o with
            | Some cur => if str_lt app cur then Some app else None
            | None => Some app
            end) bindings ∅.

(** ** Containers *)

(** pkg/build/topology_owners.go@133-139, [resolvePodContainers]: the latest
    image of each (pod, container); an image-less row is skipped. *)
Definition container_upd (o : option (string * float64)) (s : Sample) : option (string * float64) :=
  let image := label_of (s_Metric s) "image" in
  match o with
  | Some (curImage, lastSeen) =>
      if fltb (s_Value s) lastSeen || (feqb (s_Value s) lastSeen && negb (str_lt image curImage))
      then None else Some (image, s_Value s)
  | None => Some (image, s_Value s)
  end.
(** pkg/build/topology_owners.go@124-132, [resolvePodContainers]: its key. *)
Definition container_key (mc : clusterResolver) (s : Sample) : option (podNameKey * string) :=
  let m := s_Metric s in
  if bool_decide (label_of m "pod" = "") || bool_decide (label_of m "container" = "") ||
     bool_decide (label_of m "image" = "") then None
  else Some (mkPodNameKey (identify mc m) (label_of m "namespace") (label_of m "pod"),
             label_of m "container").

(** pkg/build/topology_owners.go, [resolvePodContainers] *)
Definition resolvePodContainers (vec : list Sample) (mc : clusterResolver) : gmap podNameKey (list Container) :=
  let best := fold_keyed (container_key mc) container_upd vec ∅ in
  sort_func (cmp_lex (on_key container_Name String.compare) (on_key container_Image String.compare)) <$>
  fold_keyed (λ kv : podNameKey * string * (string * float64), Some kv.1.1)
    (λ o kv, Some (default [] o ++ [mkContainer kv.1.2 kv.2.1])) (map_to_list best) ∅.

(** ** Claims and nodes *)

(** pkg/build/topology_attrs.go, [pvcInfoAttrs] *)
Record pvcInfoAttrs := mkPvcInfoAttrs { pi_storageClass : string; pi_volumeName : string; pi_zone : zone }.

(** pkg/build/topology_attrs.go@57-70, [resolvePVCInfo]: one row; each field
    keeps its own smallest value. *)
Definition pvc_info_upd (keys : LabelKeys) (o : option pvcInfoAttrs) (s : Sample) : option pvcInfoAttrs :=
  let a := default (mkPvcInfoAttrs "" "" no_zone) o in
  let m := s_Metric s in
  let '(z, ok) := zoneOf m keys in
  Some (mkPvcInfoAttrs (pick_smallest (pi_storageClass a) (label_of m "storageclass"))
          (pick_smallest (pi_volumeName a) (label_of m "volumename"))
          (if ok && (negb (known (pi_zone a)) || bool_decide (zone_compare z (pi_zone a) = Lt))
           then z else pi_zone a)).

(** pkg/build/topology_attrs.go, [resolvePVCInfo] *)
Definition resolvePVCInfo (vec : list Sample) (mc : clusterResolver) : gmap pvcKey pvcInfoAttrs :=
  fold_keyed (λ s, (λ '(c, n, k), mkPvcKey c n k) <$> named_key mc "persistentvolumeclaim" (s_Metric s))
    (pvc_info_upd (cr_keys mc)) vec ∅.

(** pkg/build/topology_attrs.go, [readyStatusFromLabel] *)
Definition readyStatusFromLabel (status : string) : string :=
  if bool_decide (status = "true") then ReadyStatusReady
  else if bool_decide (status = "false") then ReadyStatusNotReady
  else if bool_decide (status = "unknown") then ReadyStatusUnknown else "".

(** pkg/build/topology_attrs.go@115-136, [resolveNodeReadyStatus]: an active
    row with a recognised status. *)
Definition ready_key (mc : clusterResolver) (s : Sample) : option (string * string) :=
  let m := s_Metric s in
  if negb (bool_decide (label_of m "condition" = "Ready")) then None
  else if negb (feqb (s_Value s) (f_of_Z 1)) then None
  else if bool_decide (readyStatusFromLabel (to_lower (label_of m "status")) = "") then None
  else if bool_decide (label_of m "node" = "") then None
  else Some (identify mc m, label_of m "node").

(** pkg/build/topology_attrs.go, [resolveNodeReadyStatus] *)
Definition resolveNodeReadyStatus (vec : list Sample) (mc : clusterResolver) : gmap (string * string) string :=
  readyStatusFromLabel <$>
  fold_keyed (ready_key mc)
    (λ o s, let status := to_lower (label_of (s_Metric s) "status") in
            match o with
            | Some cur => if str_lt status cur then Some status else None
            | None => Some status
            end) vec ∅.

(** ** Order freedom *)

(** A loop that keeps a row's value when it is the first or strictly smaller. *)
Lemma keep_least_fold {R A} `{Countable K} (c : A → A → comparison) (key : R → option K) (val : R → A)
  (upd : option A → R → option A) (l : list R) :
  (∀ r, upd None r = Some (val r)) →
  (∀ cur r, upd (Some cur) r = if bool_decide (c (val r) cur = Lt) then Some (val r) else None) →
  fold_keyed key upd l ∅ = index_least c key val l.
Proof.
  intros H1 H2. unfold index_least, fold_keyed. generalize (∅ : gmap K A).
  induction l as [|r l IH]; intros m; [done|]. cbn. rewrite IH. f_equal. unfold keyed_step.
  destruct (key r); [|done]. destruct (m !! k) as [cur|]; [by rewrite H2|by rewrite H1].
Qed.

Definition ref_cmp : ownerRef → ownerRef → comparison :=
  cmp_lex (on_key or_kind String.compare) (on_key or_name String.compare).

#[export] Instance ref_cmp_strict : GoCmpStrict ref_cmp.
Proof.
  split; [unfold ref_cmp; apply _|]. intros [k1 n1] [k2 n2]. unfold ref_cmp.
  rewrite cmp_lex_eq. unfold on_key. cbn. rewrite !string_compare_eq. by intros [-> ->].
Qed.

Lemma ownerLess_cmp a b :
  ownerLess (or_kind a) (or_name a) (or_kind b) (or_name b) = bool_decide (ref_cmp a b = Lt).
Proof.
  unfold ownerLess, ref_cmp, cmp_lex, on_key, str_lt.
  destruct (String.compare (or_kind a) (or_kind b)) eqn:E; cbn [cmp_or].
  - apply (gcs_eq (c:=String.compare)) in E. rewrite (bool_decide_eq_true_2 (or_kind a = _)) by done.
    by rewrite (bool_decide_eq_false_2 (Eq = Lt)).
  - by rewrite (bool_decide_eq_true_2 (Lt = Lt)).
  - rewrite !(bool_decide_eq_false_2 (Gt = Lt)) by done. cbn.
    rewrite bool_decide_eq_false_2; [done|]. intros Heq. rewrite Heq in E.
    by rewrite (gc_refl String.compare) in E.
Qed.

Lemma resolvePodOwners_least ownerVec rsOwnerVec mc :
  resolvePodOwners ownerVec rsOwnerVec mc =
  index_least ref_cmp (owner_row_key mc) (owner_row_ref (rs_to_deployment rsOwnerVec mc) mc) ownerVec.
Proof.
  unfold resolvePodOwners. apply keep_least_fold; [done|]. intros cur r. by rewrite ownerLess_cmp.
Qed.

Lemma tracking_fold `{Countable K} (vec : list Sample) label (keyOf : Metric → option K) :
  fold_keyed (λ s, if usableTrackingID (label_of (s_Metric s) label) then keyOf (s_Metric s) else None)
    (tracking_upd label) vec ∅ =
  index_least String.compare
    (λ s, if usableTrackingID (label_of (s_Metric s) label) then keyOf (s_Metric s) else None)
    (λ s, label_of (s_Metric s) label) vec.
Proof.
  apply map_eq. intros k. rewrite lookup_index_least, lookup_fold_keyed, lookup_empty.
  assert (∀ s, s ∈ filter (λ r, (if usableTrackingID (label_of (s_Metric r) label)
       then keyOf (s_Metric r) else None) = Some k) vec → usableTrackingID (label_of (s_Metric s) label) = true) as Hu.
  { intros s [Hs _]%list_elem_of_filter. by destruct (usableTrackingID _). }
  revert Hu. generalize (filter (λ r, (if usableTrackingID (label_of (s_Metric r) label)
       then keyOf (s_Metric r) else None) = Some k) vec).
  intros rows Hu. induction rows as [|s rows IH] using rev_ind; [done|].
  rewrite fold_left_app, map_app. cbn [map fold_left].
  rewrite least_snoc, <- IH by (intros x Hx; apply Hu; set_solver).
  set (o := fold_left _ rows None) in *. clearbody o.
  unfold at_key, tracking_upd, betterTrackingID, least_step, keep_least.
  rewrite (Hu s) by set_solver. cbn [andb]. destruct o as [cur|]; cbn; [|done].
  change (id cur) with cur. unfold str_lt.
  destruct (bool_decide_reflect (cur = "")) as [->|]; cbn; [|by destruct (bool_decide _)].
  exfalso. (* a stored id is usable *)
  assert (least String.compare (map (λ s, label_of (s_Metric s) label) rows) = Some "") as Hl by (by rewrite <- IH; [|intros x Hx; apply Hu; set_solver]).
  apply least_Some in Hl as [Hin _]; [|apply _]. apply list_elem_of_fmap in Hin as (x & Hx & Hxr).
  specialize (Hu x ltac:(set_solver)). by rewrite <- Hx in Hu.
Qed.

Lemma resolveApplications_ext `{Countable K} (v1 v2 : list Sample) label (keyOf : Metric → option K) :
  (∀ s, s ∈ v1 ↔ s ∈ v2) → resolveApplications v1 label keyOf = resolveApplications v2 label keyOf.
Proof.
  intros Hv. unfold resolveApplications. rewrite !tracking_fold. f_equal. by apply (index_least_ext _).
Qed.

(** ** The controller of a pod *)

Lemma rs_to_deployment_Some rsVec mc k d :
  rs_to_deployment rsVec mc !! k = Some d →
  ∃ s, s ∈ rsVec ∧ rs_row_key mc s = Some k ∧ label_of (s_Metric s) "owner_name" = d.
Proof.
  intros (s & o & Hs & Hk & [= Hd])%fold_keyed_origin. by exists s.
Qed.

Lemma rs_to_deployment_None rsVec mc k :
  rs_to_deployment rsVec mc !! k = None → ∀ s, s ∈ rsVec → rs_row_key mc s ≠ Some k.
Proof.
  intros Hn s Hs Hk. revert Hn. unfold rs_to_deployment. rewrite lookup_fold_keyed, lookup_empty.
  assert (s ∈ filter (λ r, rs_row_key mc r = Some k) rsVec) as Hin by (by apply list_elem_of_filter).
  revert Hin. generalize (filter (λ r, rs_row_key mc r = Some k) rsVec). intros rows.
  destruct rows as [|r rows _] using rev_ind; [by intros ?%elem_of_nil|].
  intros _. by rewrite fold_left_app.
Qed.

(** One Deployment per ReplicaSet, as Kubernetes keeps it: at most one
    controller owner. *)
Definition rs_single (mc : clusterResolver) (rsVec : list Sample) : Prop :=
  ∀ s1 s2, s1 ∈ rsVec → s2 ∈ rsVec → rs_row_key mc s1 = rs_row_key mc s2 → is_Some (rs_row_key mc s1) →
    label_of (s_Metric s1) "owner_name" = label_of (s_Metric s2) "owner_name".

Lemma rs_to_deployment_ext mc (v1 v2 : list Sample) :
  rs_single mc v1 → (∀ s, s ∈ v1 ↔ s ∈ v2) → rs_to_deployment v1 mc = rs_to_deployment v2 mc.
Proof.
  intros Hsingle Hv. apply map_eq. intros k.
  destruct (rs_to_deployment v1 mc !! k) as [d1|] eqn:E1,
           (rs_to_deployment v2 mc !! k) as [d2|] eqn:E2; [| | |done].
  - apply rs_to_deployment_Some in E1 as (s1 & Hs1 & Hk1 & <-), E2 as (s2 & Hs2 & Hk2 & <-).
    f_equal. apply Hsingle; [done|by apply Hv|congruence|by rewrite Hk1].
  - apply rs_to_deployment_Some in E1 as (s1 & Hs1 & Hk1 & _).
    by destruct (rs_to_deployment_None _ _ _ E2 s1 ltac:(by apply Hv)).
  - apply rs_to_deployment_Some in E2 as (s2 & Hs2 & Hk2 & _).
    by destruct (rs_to_deployment_None _ _ _ E1 s2 ltac:(by apply Hv)).
Qed.

(** The controller a pod is drawn with does not depend on the order the
    backend returned the rows in: as long as no ReplicaSet names two
    Deployments, the index is a function of the two sets of rows. *)
Theorem resolvePodOwners_order_free mc (o1 o2 rs1 rs2 : list Sample)
  (Hone : rs_single mc rs1)
  (Howners : ∀ s, s ∈ o1 ↔ s ∈ o2)
  (Hrs : ∀ s, s ∈ rs1 ↔ s ∈ rs2) :
  resolvePodOwners o1 rs1 mc = resolvePodOwners o2 rs2 mc.
Proof.
  rewrite !resolvePodOwners_least, (rs_to_deployment_ext mc rs1 rs2) by done.
  by apply (index_least_ext ref_cmp).
Qed.

(** A ReplicaSet row and a pod row. *)
Definition sample_rs_row (dep : string) : Sample :=
  mkSample (list_to_map [("owner_kind", "Deployment"); ("namespace", "shop");
                         ("replicaset", "web-1"); ("owner_name", dep)]) (f_of_Z 1) 0.
Definition sample_owner_row (kind name : string) : Sample :=
  mkSample (list_to_map [("owner_is_controller", "true"); ("namespace", "shop"); ("pod", "web-1-x");
                         ("owner_kind", kind); ("owner_name", name)]) (f_of_Z 1) 0.
Definition sample_owner_resolver : clusterResolver := newClusterResolver DefaultLabelKeys.

(** The premise is needed: with two Deployment rows for one ReplicaSet the last
    row read wins, whatever the documentation of [resolvePodOwners] says about
    ordering. *)
Lemma resolvePodOwners_last_wins :
  let owner := [sample_owner_row "ReplicaSet" "web-1"] in
  let mc := sample_owner_resolver in
  resolvePodOwners owner [sample_rs_row "a"; sample_rs_row "b"] mc ≠
  resolvePodOwners owner [sample_rs_row "b"; sample_rs_row "a"] mc.
Proof.
  cbn zeta. intros H.
  apply (f_equal (λ m, or_name <$> m !! mkPodNameKey "unknown" "shop" "web-1-x")) in H.
  assert (Some "b" = Some "a") as [=]. etrans; [|etrans; [exact H|]]; by vm_compute.
Qed.

Lemma resolvePodOwners_order_free_witness :
  let mc := sample_owner_resolver in
  let o1 := [sample_owner_row "ReplicaSet" "web-1"; sample_owner_row "Job" "migrate"] in
  let o2 := [sample_owner_row "Job" "migrate"; sample_owner_row "ReplicaSet" "web-1"] in
  resolvePodOwners o1 [sample_rs_row "web"] mc = resolvePodOwners o2 [sample_rs_row "web"] mc ∧
  resolvePodOwners o1 [sample_rs_row "web"] mc !! mkPodNameKey "unknown" "shop" "web-1-x" =
    Some (mkOwnerRef "Deployment" "web").
Proof.
  split; [|by vm_compute].
  apply resolvePodOwners_order_free; [| |done].
  - intros s1 s2 Hs1%list_elem_of_singleton Hs2%list_elem_of_singleton _ _. by subst.
  - intros s. set_solver.
Defined.
