(* ===== verification/DeployTime.v ===== *)
(** pkg/build/deploytime.go: the two spellings of a deploy time and the instant
    each names. An instant is in nanoseconds since the zero [time.Time]
    (0001-01-01T00:00:00Z).

    The theorem is the round trip: every calendar instant, written either way
    and at any offset, is read back; nothing off the calendar is. *)

From S2P Require Import Prelude GoStrings Strconv.

#[local] Open Scope Z_scope.

(** ** The proleptic Gregorian calendar *)

Definition leap (y : Z) : bool :=
  (y mod 4 =? 0) && (negb (y mod 100 =? 0) || (y mod 400 =? 0)).

Definition days_in (m y : Z) : Z :=
  if m =? 2 then (if leap y then 29 else 28)
  else if (m =? 4) || (m =? 6) || (m =? 9) || (m =? 11) then 30 else 31.

(** The days of the months before [m]. *)
Definition days_before (m y : Z) : Z :=
  fold_left (λ acc k, acc + days_in (Z.of_nat k) y) (seq 1 (Z.to_nat (m - 1))) 0.

(** Days from 0001-01-01 to [y]-[m]-[d]. *)
Definition day_number (y m d : Z) : Z :=
  365 * (y - 1) + (y - 1) / 4 - (y - 1) / 100 + (y - 1) / 400 + days_before m y + (d - 1).

Record civil := mkCivil { cv_year : Z; cv_month : Z; cv_day : Z; cv_hour : Z; cv_min : Z; cv_sec : Z }.

(** The range checks of [time.Parse]. *)
Definition civil_ok (c : civil) : bool :=
  (1 <=? cv_month c) && (cv_month c <=? 12) &&
  (1 <=? cv_day c) && (cv_day c <=? days_in (cv_month c) (cv_year c)) &&
  (cv_hour c <? 24) && (cv_min c <? 60) && (cv_sec c <? 60).

Definition nanos : Z := 1000000000.

(** [time.Date(...).Add(-offset)], to the second. *)
Definition instant (c : civil) (offset : Z) : Z :=
  nanos * (86400 * day_number (cv_year c) (cv_month c) (cv_day c) +
           3600 * cv_hour c + 60 * cv_min c + cv_sec c - offset).

(** ** The two shapes *)

(** [\d{n}]. *)
Fixpoint digits (n : nat) (acc : Z) (s : string) : option (Z * string) :=
  match n with
  | O => Some (acc, s)
  | S n => match s with
           | "" => None
           | String c s => d ← digit_of c; digits n (10 * acc + d) s
           end
  end.

(** One literal byte. *)
Definition lit (c : ascii) (s : string) : option string :=
  match s with
  | String a s => if Ascii.eqb a c then Some s else None
  | "" => None
  end.

(** The date and the clock, with the separators of the shape. *)
Definition scan_civil (dsep tsep : ascii) (s : string) : option (civil * string) :=
  '(y, s) ← digits 4 0 s; s ← lit dsep s;
  '(mo, s) ← digits 2 0 s; s ← lit dsep s;
  '(d, s) ← digits 2 0 s; s ← lit tsep s;
  '(h, s) ← digits 2 0 s; s ← lit ":" s;
  '(mi, s) ← digits 2 0 s; s ← lit ":" s;
  '(se, s) ← digits 2 0 s;
  Some (mkCivil y mo d h mi se, s).

(** pkg/build/deploytime.go, [slashDeployTime] *)
Definition slashDeployTime (s : string) : option civil :=
  '(c, rest) ← scan_civil "/" " " s;
  if bool_decide (rest = "") then Some c else None.

(** [\d*]: the rest after the leading digits. *)
Fixpoint skip_digits (s : string) : string :=
  match s with
  | "" => ""
  | String c s' => match digit_of c with Some _ => skip_digits s' | None => s end
  end.

(** [(?:\.\d+)?] *)
Definition skip_fraction (s : string) : string :=
  match s with
  | String c (String d s') =>
      if Ascii.eqb c "." && bool_decide (is_Some (digit_of d)) then skip_digits s' else s
  | _ => s
  end.

(** [(?:Z|[+-](?:[01]\d|2[0-3]):[0-5]\d)$]: the offset in seconds. *)
Definition scan_offset (s : string) : option Z :=
  match s with
  | "" => None
  | String c s =>
      if Ascii.eqb c "Z" then (if bool_decide (s = "") then Some 0 else None)
      else if Ascii.eqb c "+" || Ascii.eqb c "-" then
        '(h, s) ← digits 2 0 s; s ← lit ":" s; '(m, s) ← digits 2 0 s;
        if bool_decide (s = "") && (h <? 24) && (m <? 60)
        then Some ((if Ascii.eqb c "-" then -1 else 1) * (3600 * h + 60 * m)) else None
      else None
  end.

(** pkg/build/deploytime.go, [rfc3339DeployTime] *)
Definition rfc3339DeployTime (s : string) : option (civil * Z) :=
  '(c, rest) ← scan_civil "-" "T" s;
  off ← scan_offset (skip_fraction rest);
  Some (c, off).

(** pkg/build/deploytime.go, [parseDeployTime] *)
Definition parseDeployTime (v : string) : option Z :=
  match slashDeployTime v with
  | Some c => if civil_ok c then Some (instant c 0) else None
  | None =>
      match rfc3339DeployTime v with
      | Some (c, off) => if civil_ok c then Some (instant c off) else None
      | None => None
      end
  end.

(** ** Writing an instant *)

Definition digit_char (n : Z) : ascii := ascii_of_nat (48 + Z.to_nat n).
Definition two (n : Z) : string := String (digit_char (n / 10)) (String (digit_char (n mod 10)) "").
Definition four (n : Z) : string := two (n / 100) +:+ two (n mod 100).

Definition write_civil (dsep tsep : ascii) (c : civil) : string :=
  four (cv_year c) +:+ String dsep (two (cv_month c)) +:+ String dsep (two (cv_day c)) +:+
  String tsep (two (cv_hour c)) +:+ String ":" (two (cv_min c)) +:+ String ":" (two (cv_sec c)).

Definition write_slash (c : civil) : string := write_civil "/" " " c.
Definition sign (neg : bool) : ascii := if neg then ("-" : ascii) else ("+" : ascii).
(** A fraction is any digits, written after a point when there are some. *)
Definition write_rfc3339 (c : civil) (fraction : string) (neg : bool) (h m : Z) : string :=
  write_civil "-" "T" c +:+ (if bool_decide (fraction = "") then "" else String "." fraction) +:+
  String (sign neg) (two h) +:+ String ":" (two m).

Definition all_digits (s : string) : bool := bool_decide (skip_digits s = "").

(** A civil time is in range: what the two shapes can spell. *)
Definition civil_wf (c : civil) : Prop := 0 ≤ cv_year c < 10000 ∧ 0 ≤ cv_hour c ∧
  0 ≤ cv_min c ∧ 0 ≤ cv_sec c ∧ civil_ok c = true.

Lemma digit_char_digit n : 0 ≤ n < 10 → digit_of (digit_char n) = Some n.
Proof.
  intros H. assert (n ∈ seqZ 0 10) as Hn by (apply elem_of_seqZ; lia).
  revert n H Hn. cbn. intros n _ Hn. repeat (apply elem_of_cons in Hn as [->|Hn]; [done|]).
  by apply elem_of_nil in Hn.
Qed.

Lemma digits_two n acc s : 0 ≤ n < 100 → digits 2 acc (two n +:+ s) = Some (100 * acc + n, s).
Proof.
  intros H. cbn -[digit_of digit_char Z.mul Z.add Z.div Z.modulo].
  rewrite !digit_char_digit by (try apply Z.mod_pos_bound; try (split; [apply Z.div_pos|apply Z.div_lt_upper_bound]); lia).
  cbn -[Z.mul Z.add Z.div Z.modulo]. do 2 f_equal. pose proof (Z.div_mod n 10 ltac:(lia)). lia.
Qed.

Lemma digits_add a b acc s :
  digits (a + b) acc s = '(x, t) ← digits a acc s; digits b x t.
Proof.
  revert acc s. induction a as [|a IH]; intros acc s; [done|].
  destruct s as [|c s]; [done|]. cbn. destruct (digit_of c); cbn; [apply IH|done].
Qed.

Lemma digits_four n s : 0 ≤ n < 10000 → digits 4 0 (four n +:+ s) = Some (n, s).
Proof.
  intros H. unfold four. rewrite append_assoc.
  rewrite (digits_add 2 2).
  rewrite digits_two by (split; [apply Z.div_pos|apply Z.div_lt_upper_bound]; lia).
  cbn -[digits two Z.mul Z.add Z.div Z.modulo].
  rewrite digits_two by (apply Z.mod_pos_bound; lia).
  pose proof (Z.div_mod n 100 ltac:(lia)). do 2 f_equal. lia.
Qed.

Lemma scan_write dsep tsep c s :
  civil_wf c → scan_civil dsep tsep (write_civil dsep tsep c +:+ s) = Some (c, s).
Proof.
  intros (Hy & Hh & Hmi & Hse & Hok). unfold civil_ok in Hok.
  assert (0 ≤ days_in (cv_month c) (cv_year c) < 100) as Hd.
  { unfold days_in. repeat case_match; lia. }
  destruct c as [y mo d h mi se]. cbn [cv_year cv_month cv_day cv_hour cv_min cv_sec] in *.
  unfold write_civil, scan_civil. cbn [cv_year cv_month cv_day cv_hour cv_min cv_sec].
  repeat (rewrite !append_assoc; cbn [String.append]).
  rewrite digits_four by done.
  repeat (cbn -[digits two civil_ok]; unfold lit; rewrite ?Ascii.eqb_refl; cbn -[digits two civil_ok];
          rewrite ?digits_two by lia).
  done.
Qed.

Lemma skip_digits_app f s :
  all_digits f = true → skip_digits (f +:+ s) = skip_digits s.
Proof.
  unfold all_digits. rewrite bool_decide_eq_true. induction f as [|c f IH]; [done|].
  cbn. destruct (digit_of c); [exact IH|done].
Qed.

Lemma scan_offset_write neg h m :
  0 ≤ h < 24 → 0 ≤ m < 60 →
  scan_offset (String (sign neg) (two h +:+ String ":" (two m))) =
    Some ((if neg then -1 else 1) * (3600 * h + 60 * m)).
Proof.
  intros Hh Hm. rewrite <- (append_nil_r (two m)).
  assert (∀ c, (Ascii.eqb c "Z" = false) → (Ascii.eqb c "+" || Ascii.eqb c "-") = true →
    scan_offset (String c (two h +:+ String ":" (two m +:+ ""))) =
      Some ((if Ascii.eqb c "-" then -1 else 1) * (3600 * h + 60 * m))) as Hc.
  { intros c Hz Hs. unfold scan_offset. rewrite Hz, Hs.
    rewrite digits_two by lia. cbn -[digits two Z.mul Z.ltb bool_decide].
    rewrite digits_two by lia. cbn -[digits two Z.mul Z.ltb bool_decide].
    rewrite bool_decide_eq_true_2 by done. cbn -[Z.mul Z.ltb].
    by rewrite !(proj2 (Z.ltb_lt _ _)) by lia. }
  destruct neg; by rewrite Hc.
Qed.

Lemma skip_fraction_write fraction c s :
  all_digits fraction = true → digit_of c = None → Ascii.eqb c "." = false →
  skip_fraction ((if bool_decide (fraction = "") then "" else String "." fraction) +:+ String c s) =
    String c s.
Proof.
  intros Hf Hc Hdot. case_bool_decide as He.
  - subst. cbn. destruct s; [done|]. by rewrite Hdot.
  - destruct fraction as [|d f]; [done|]. unfold all_digits in Hf. cbn in *.
    destruct (digit_of d) eqn:Ed; [|by apply bool_decide_eq_true in Hf].
    rewrite bool_decide_eq_true_2 by (by eexists). rewrite skip_digits_app by done. cbn. by rewrite Hc.
Qed.

Lemma slash_rejects_dash c s : civil_wf c → slashDeployTime (write_civil "-" "T" c +:+ s) = None.
Proof.
  intros (Hy & _). unfold slashDeployTime, scan_civil, write_civil.
  rewrite !append_assoc, digits_four by done. done.
Qed.

Lemma digits_bound n acc s x t : 0 ≤ acc → digits n acc s = Some (x, t) → 0 ≤ x.
Proof.
  revert acc s. induction n as [|n IH]; intros acc s Ha; cbn; [by intros [= <- <-]|].
  destruct s as [|c s]; [done|]. destruct (digit_of c) as [d|] eqn:Ed; [|done]. cbn -[Z.mul].
  apply IH. unfold digit_of in Ed. case_match; [|done]. injection Ed as <-. lia.
Qed.

Lemma scan_offset_bound s off : scan_offset s = Some off → -86400 < off < 86400.
Proof.
  unfold scan_offset. destruct s as [|c s]; [done|]. destruct (Ascii.eqb c "Z").
  { case_bool_decide; [|done]. intros [= <-]. lia. }
  destruct (_ || _); [|done].
  destruct (digits 2 0 s) as [[h r]|] eqn:Eh; [|done]. cbn -[digits Z.mul].
  destruct (lit ":" r) as [r'|]; [|done]. cbn -[digits Z.mul].
  destruct (digits 2 0 r') as [[m r'']|] eqn:Em; [|done]. cbn -[digits Z.mul].
  apply digits_bound in Eh, Em; [|lia..].
  destruct (_ && _) eqn:E; [|done]. breflect. intros [= <-]. case_match; lia.
Qed.

Lemma rfc_offset_bound v c off : rfc3339DeployTime v = Some (c, off) → -86400 < off < 86400.
Proof.
  unfold rfc3339DeployTime. destruct (scan_civil _ _ _) as [[c' r]|]; [|done]. cbn -[scan_offset].
  destruct (scan_offset _) eqn:E; [|done]. cbn. intros [= <- <-]. by apply scan_offset_bound in E.
Qed.

(** A deploy time reads back as the instant it names: in the slash form, in
    RFC 3339 with any fraction (dropped) and any offset below a day (applied),
    and in RFC 3339 at UTC; and only a date on the calendar with a clock in
    range is read at all. *)
Theorem parseDeployTime_roundtrip :
  (∀ c, civil_wf c →
     parseDeployTime (write_slash c) = Some (instant c 0) ∧
     ∀ fraction, all_digits fraction = true →
       (∀ neg h m, 0 ≤ h < 24 → 0 ≤ m < 60 →
          parseDeployTime (write_rfc3339 c fraction neg h m) =
            Some (instant c ((if neg then -1 else 1) * (3600 * h + 60 * m)))) ∧
       parseDeployTime (write_civil "-" "T" c +:+
         (if bool_decide (fraction = "") then "" else String "." fraction) +:+ "Z") = Some (instant c 0)) ∧
  (∀ v t, parseDeployTime v = Some t →
     ∃ c off, civil_ok c = true ∧ -86400 < off < 86400 ∧ t = instant c off).
Proof.
  split.
  - intros c Hc. pose proof (proj2 (proj2 (proj2 (proj2 Hc)))) as Hok. unfold parseDeployTime.
    assert (∀ fraction a s, all_digits fraction = true → digit_of a = None → Ascii.eqb a "." = false →
      rfc3339DeployTime (write_civil "-" "T" c +:+
        (if bool_decide (fraction = "") then "" else String "." fraction) +:+ String a s) =
      off ← scan_offset (String a s); Some (c, off)) as Hrfc.
    { intros fraction a s Hf Ha Hdot. unfold rfc3339DeployTime.
      rewrite scan_write by done. cbn -[skip_fraction scan_offset bool_decide String.append].
      by rewrite skip_fraction_write. }
    split.
    + unfold write_slash, slashDeployTime. rewrite <- (append_nil_r (write_civil _ _ _)).
      rewrite scan_write by done. cbn [mbind option_bind].
      rewrite bool_decide_eq_true_2 by done. by rewrite Hok.
    + intros fraction Hf. split.
      * intros neg h m Hh Hm. unfold write_rfc3339. rewrite slash_rejects_dash by done.
        cbn [String.append]. rewrite Hrfc by (by destruct neg).
        rewrite scan_offset_write by done. cbn [mbind option_bind]. by rewrite Hok.
      * rewrite slash_rejects_dash by done. rewrite Hrfc by done. change (scan_offset "Z") with (Some 0). cbn [mbind option_bind]. by rewrite Hok.
  - intros v t. unfold parseDeployTime. destruct (slashDeployTime v) as [c|] eqn:Es.
    + destruct (civil_ok c) eqn:Hok; [|done]. intros [= <-]. exists c, 0. split_and!; [done|lia|lia|done].
    + destruct (rfc3339DeployTime v) as [[c off]|] eqn:Er; [|done].
      destruct (civil_ok c) eqn:Hok; [|done]. intros [= <-]. exists c, off.
      split; [done|]. split; [|done]. by apply rfc_offset_bound in Er.
Qed.

Definition sample_deploy : civil := mkCivil 2026 2 28 23 59 58.
Lemma parseDeployTime_roundtrip_witness :
  parseDeployTime "2026/02/28 23:59:58" = Some (instant sample_deploy 0) ∧
  parseDeployTime "2026-02-28T23:59:58.125+01:30" = Some (instant sample_deploy 5400) ∧
  parseDeployTime "2026/02/29 23:59:58" = None.
Proof.
  assert (civil_wf sample_deploy) as Hwf by (vm_compute; repeat split; congruence).
  destruct (proj1 parseDeployTime_roundtrip sample_deploy Hwf) as [Hs Hr].
  split; [exact Hs|]. split; [|by vm_compute].
  refine (proj1 (Hr "125" _) false 1 30 _ _); [by vm_compute|lia|lia].
Defined.
