(* ===== verification/MetadataPicks.v ===== *)
(** pkg/build/appmetadata.go: the picks made over the operator's
    application-metadata vector: the Application of a pod, the owner, group and
    alias of a namespace, the deployer of an Application and when it deployed.

    Every pick keeps the best row of its key; rows of the same standing refine
    the stored one. [keep_class] is that shape, and the theorem is that the
    whole index is a function of the multiset of rows. *)

From S2P Require Import Prelude GoStrings Float64 GraphNode GraphEdge Graph PairScope Fanout.
From S2P Require Import Keyed.
From S2P Require Import Selector AppMetadata BuildIdentity VolumeKey TopologyTypes DeployTime.

(** pkg/build/appmetadata.go@13-13, [appNamespaceKey]: (cluster, namespace). *)
Definition appNamespaceKey : Type := string * string.
(** pkg/build/appmetadata.go@17-17, [appDeployerKey]: (cluster, namespace, app). *)
Definition appDeployerKey : Type := string * string * string.

(** pkg/build/appmetadata.go, [nsGroupPick] *)
Record nsGroupPick := mkNsGroupPick { gp_name : string; gp_owner : string }.

(** pkg/build/appmetadata.go, [appMetadataIndex] *)
Record appMetadataIndex := mkAppMetadataIndex {
  ix_podApps : gmap podNameKey string;
  ix_nsOwners : gmap appNamespaceKey string;
  ix_nsGroups : gmap appNamespaceKey nsGroupPick;
  ix_nsAliases : gmap appNamespaceKey string;
  ix_deployers : gmap appDeployerKey string;
  ix_deployTimes : gmap appDeployerKey Z;
  ix_unparsedDeployTimes : nat;
}.

(** pkg/build/appmetadata.go, [appMetadataSeen] *)
Record appMetadataSeen := mkSeen { seen_value : string; seen_at : float64 }.
(** pkg/build/appmetadata.go, [groupCandidate] *)
Record groupCandidate := mkGroupCandidate { gc_name : string; gc_owner : string; gc_at : float64 }.
(** pkg/build/appmetadata.go, [deployerCandidate] *)
Record deployerCandidate := mkDeployerCandidate {
  dc_user : string; dc_at : float64; dc_when : Z; dc_ok : bool; dc_unparsed : nat;
}.

(** pkg/build/appmetadata.go, [metricLabel] *)
Definition metricLabel (m : Metric) (name : string) : string :=
  if bool_decide (name = "") then "" else label_of m name.

(** pkg/build/appmetadata.go, [keepLatest]: the write, when there is one. *)
Definition keepLatest (o : option appMetadataSeen) (value : string) (at_ : float64) : option appMetadataSeen :=
  match o with
  | Some cur =>
      if fltb at_ (seen_at cur) || (feqb at_ (seen_at cur) && negb (str_lt value (seen_value cur)))
      then None else Some (mkSeen value at_)
  | None => Some (mkSeen value at_)
  end.

(** pkg/build/appmetadata.go, [betterOwner] *)
Definition betterOwner (next cur : string) : bool :=
  if xorb (negb (bool_decide (next = ""))) (negb (bool_decide (cur = "")))
  then negb (bool_decide (next = ""))
  else str_lt next cur.

(** pkg/build/appmetadata.go, [keepGroup] *)
Definition keepGroup (o : option groupCandidate) (name owner : string) (at_ : float64) : option groupCandidate :=
  match o with
  | None => Some (mkGroupCandidate name owner at_)
  | Some cur =>
      if fltb at_ (gc_at cur) || (feqb at_ (gc_at cur) && str_lt (gc_name cur) name) then None
      else if feqb at_ (gc_at cur) && bool_decide (name = gc_name cur) &&
              negb (betterOwner owner (gc_owner cur)) then None
      else Some (mkGroupCandidate name owner at_)
  end.

(** pkg/build/appmetadata.go, [keepDeployer]: [parseDeployTime] answers the
    zero time with a failure. *)
Definition keepDeployer (o : option deployerCandidate) (user raw : string) (at_ : float64)
  : option deployerCandidate :=
  let parsed := if bool_decide (raw = "") then None else parseDeployTime raw in
  let failed := if negb (bool_decide (raw = "")) && negb (bool_decide (is_Some parsed)) then 1 else 0 in
  let fresh := mkDeployerCandidate user at_ (default 0%Z parsed) (bool_decide (is_Some parsed)) failed in
  match o with
  | None => Some fresh
  | Some cur =>
      if fgtb at_ (dc_at cur) || (feqb at_ (dc_at cur) && str_lt user (dc_user cur)) then Some fresh
      else if feqb at_ (dc_at cur) && bool_decide (user = dc_user cur) then
        let '(when_, ok) :=
          match parsed with
          | Some w => if negb (dc_ok cur) || bool_decide (dc_when cur < w)%Z then (w, true)
                      else (dc_when cur, dc_ok cur)
          | None => (dc_when cur, dc_ok cur)
          end in
        Some (mkDeployerCandidate (dc_user cur) (dc_at cur) when_ ok (dc_unparsed cur + failed))
      else None
  end.

(** ** The indexes, one map at a time

    [add] writes each row into every pick it can contribute to; the picks do
    not read each other, so each is its own loop over the vector. *)

Section picks.
Context (src : AppMetadataSource) (mc : clusterResolver).
Implicit Types (s : Sample) (vec : list Sample).

(** pkg/build/appmetadata.go@109-109, [appMetadataPicks.add] *)
Definition row_ns s : string := metricLabel (s_Metric s) (am_Namespace src).
(** pkg/build/appmetadata.go@110-110, [appMetadataPicks.add] *)
Definition row_app s : string := metricLabel (s_Metric s) (am_App src).
(** pkg/build/appmetadata.go@111-111, [appMetadataPicks.add] *)
Definition row_nsKey s : appNamespaceKey := (identify mc (s_Metric s), row_ns s).

(** The key of a row in a namespace pick whose value is [label]'s. *)
Definition ns_pick_key (label : string) s : option appNamespaceKey :=
  if bool_decide (metricLabel (s_Metric s) label = "") then None else Some (row_nsKey s).

(** pkg/build/appmetadata.go@112-113, [appMetadataPicks.add] *)
Definition pod_pick_key s : option podNameKey :=
  let pod := metricLabel (s_Metric s) (am_Pod src) in
  if bool_decide (pod = "") || bool_decide (row_app s = "") then None
  else Some (mkPodNameKey (identify mc (s_Metric s)) (row_ns s) pod).
(** pkg/build/appmetadata.go@112-117, [appMetadataPicks.add] *)
Definition pod_picks vec : gmap podNameKey string :=
  fold_keyed pod_pick_key
    (λ o s, match o with
            | Some cur => if str_lt (row_app s) cur then Some (row_app s) else None
            | None => Some (row_app s)
            end) vec ∅.

(** pkg/build/appmetadata.go@118-120, [appMetadataPicks.add]: the owners; the
    aliases are kept the same way (lines 124-126). *)
Definition latest_picks (label : string) vec : gmap appNamespaceKey appMetadataSeen :=
  fold_keyed (ns_pick_key label) (λ o s, keepLatest o (metricLabel (s_Metric s) label) (s_Value s)) vec ∅.

(** pkg/build/appmetadata.go@121-123, [appMetadataPicks.add] *)
Definition group_picks vec : gmap appNamespaceKey groupCandidate :=
  fold_keyed (ns_pick_key (am_NSGroup src))
    (λ o s, keepGroup o (metricLabel (s_Metric s) (am_NSGroup src))
              (metricLabel (s_Metric s) (am_NSGroupOwner src)) (s_Value s)) vec ∅.

(** pkg/build/appmetadata.go@127-128, [appMetadataPicks.add] *)
Definition deployer_pick_key s : option appDeployerKey :=
  if bool_decide (row_app s = "") || bool_decide (metricLabel (s_Metric s) (am_User src) = "") then None
  else Some (identify mc (s_Metric s), row_ns s, row_app s).
(** pkg/build/appmetadata.go@127-129, [appMetadataPicks.add] *)
Definition deployer_picks vec : gmap appDeployerKey deployerCandidate :=
  fold_keyed deployer_pick_key
    (λ o s, keepDeployer o (metricLabel (s_Metric s) (am_User src))
              (metricLabel (s_Metric s) (am_DeployTime src)) (s_Value s)) vec ∅.

(** pkg/build/appmetadata.go, [resolveAppMetadata] with [appMetadataPicks.index]
    (lines 88-94). *)
Definition resolveAppMetadata vec : appMetadataIndex :=
  let deployers := deployer_picks vec in
  mkAppMetadataIndex
    (pod_picks vec)
    (seen_value <$> latest_picks (am_NSOwner src) vec)
    ((λ g, mkNsGroupPick (gc_name g) (gc_owner g)) <$> group_picks vec)
    (seen_value <$> latest_picks (am_NSAlias src) vec)
    (dc_user <$> deployers)
    (omap (λ d, if dc_ok d then Some (dc_when d) else None) deployers)
    (map_fold (λ _ d n, dc_unparsed d + n) 0 deployers).
End picks.

(** pkg/build/appmetadata.go, [namespaceMetadataOf] *)
Definition namespaceMetadataOf (idx : appMetadataIndex) : gmap NamespaceRef NamespaceMeta :=
  set_to_map (λ k : appNamespaceKey,
      let group := default (mkNsGroupPick "" "") (ix_nsGroups idx !! k) in
      (k, mkNamespaceMeta (default "" (ix_nsOwners idx !! k)) (gp_name group) (gp_owner group)
            (default "" (ix_nsAliases idx !! k))))
    (dom (ix_nsOwners idx) ∪ dom (ix_nsGroups idx) ∪ dom (ix_nsAliases idx)).

(** pkg/build/appmetadata.go, [applicationMetadataOf] *)
Definition applicationMetadataOf (idx : appMetadataIndex) : gmap ApplicationRef ApplicationMeta :=
  map_imap (λ k user, Some (mkApplicationMeta user (default 0%Z (ix_deployTimes idx !! k))))
    (ix_deployers idx).

(** ** Order freedom *)

(** A row seen at an ordinary time. *)
Definition dated (s : Sample) : Prop := fplain (s_Value s).

(** Newest first. *)
Definition newest : float64 → float64 → comparison := cmp_rev fcmp_total.

Definition seen_cmp : appMetadataSeen → appMetadataSeen → comparison :=
  cmp_lex (on_key seen_at newest) (on_key seen_value String.compare).
Definition owner_first (o : string) : Z := if bool_decide (o = "") then 1 else 0.
Definition group_cmp : groupCandidate → groupCandidate → comparison :=
  cmp_lex (on_key gc_at newest) (cmp_lex (on_key gc_name String.compare)
    (cmp_lex (on_key (λ g, owner_first (gc_owner g)) Z.compare) (on_key gc_owner String.compare))).

#[export] Instance seen_cmp_strict : GoCmpStrict seen_cmp.
Proof.
  split; [unfold seen_cmp, newest; apply _|]. intros [v1 a1] [v2 a2]. unfold seen_cmp, newest.
  rewrite cmp_lex_eq. unfold on_key. cbn. intros [->%(gcs_eq (c:=cmp_rev fcmp_total)) ->%string_compare_eq]. done.
Qed.
#[export] Instance group_cmp_strict : GoCmpStrict group_cmp.
Proof.
  split; [unfold group_cmp, newest; apply _|]. intros [n1 o1 a1] [n2 o2 a2]. unfold group_cmp, newest.
  rewrite !cmp_lex_eq. unfold on_key. cbn.
  intros (->%(gcs_eq (c:=cmp_rev fcmp_total)) & ->%string_compare_eq & _ & ->%string_compare_eq). done.
Qed.

Lemma newest_cases x y : fplain x → fplain y →
  (x = y ∧ newest x y = Eq ∧ fltb x y = false ∧ fgtb x y = false ∧ feqb x y = true) ∨
  (newest x y = Lt ∧ fltb x y = false ∧ fgtb x y = true ∧ feqb x y = false) ∨
  (newest x y = Gt ∧ fltb x y = true ∧ fgtb x y = false ∧ feqb x y = false).
Proof.
  intros Hx Hy. unfold fgtb. change SFltb with fltb.
  rewrite !fltb_total, feqb_total by done. unfold newest, cmp_rev.
  rewrite (gc_antisym (c:=fcmp_total) y x).
  destruct (fcmp_total y x) eqn:E; cbn.
  - apply (gcs_eq (c:=fcmp_total)) in E as ->. left. split_and!; try done. by apply bool_decide_eq_true_2.
  - right; left. split_and!; try done. apply bool_decide_eq_false_2. intros ->.
    by rewrite (gc_refl fcmp_total) in E.
  - right; right. split_and!; try done. apply bool_decide_eq_false_2. intros ->.
    by rewrite (gc_refl fcmp_total) in E.
Qed.

Lemma str_lt_compare a b : str_lt a b = match String.compare a b with Lt => true | _ => false end.
Proof. unfold str_lt. by destruct (String.compare a b). Qed.

Lemma keepLatest_least label s s' :
  let row s := mkSeen (metricLabel (s_Metric s) label) (s_Value s) in
  dated s → dated s' →
  keepLatest (Some (row s')) (metricLabel (s_Metric s) label) (s_Value s) =
    if bool_decide (seen_cmp (row s) (row s') = Lt) then Some (row s) else None.
Proof.
  cbn zeta. intros Hs Hs'. unfold keepLatest, seen_cmp, cmp_lex, on_key. cbn [seen_at seen_value].
  destruct (newest_cases _ _ Hs Hs') as [(_ & -> & -> & _ & ->)|[(-> & -> & _ & ->)|(-> & -> & _ & _)]]; [|done|done].
  rewrite str_lt_compare. cbn [cmp_or orb andb]. by destruct (String.compare _ _).
Qed.

Lemma betterOwner_cmp a b : betterOwner a b =
  match cmp_or (owner_first a ?= owner_first b)%Z (String.compare a b) with Lt => true | _ => false end.
Proof.
  unfold betterOwner, owner_first. rewrite str_lt_compare.
  destruct (bool_decide_reflect (a = "")), (bool_decide_reflect (b = "")); subst; done.
Qed.

Lemma keepGroup_least name owner s s' :
  let row s := mkGroupCandidate (metricLabel (s_Metric s) name) (metricLabel (s_Metric s) owner) (s_Value s) in
  dated s → dated s' →
  keepGroup (Some (row s')) (metricLabel (s_Metric s) name) (metricLabel (s_Metric s) owner) (s_Value s) =
    if bool_decide (group_cmp (row s) (row s') = Lt) then Some (row s) else None.
Proof.
  cbn zeta. intros Hs Hs'. unfold keepGroup, group_cmp, cmp_lex, on_key. cbn [gc_at gc_name gc_owner].
  destruct (newest_cases _ _ Hs Hs') as [(_ & -> & -> & _ & ->)|[(-> & -> & _ & ->)|(-> & -> & _ & _)]]; [|done|done].
  rewrite betterOwner_cmp, !str_lt_compare. cbn [cmp_or orb andb].
  rewrite (gc_antisym (c:=String.compare) (metricLabel (s_Metric s) name)).
  destruct (String.compare (metricLabel (s_Metric s) name) _) eqn:E; cbn.
  - apply string_compare_eq in E as ->. rewrite bool_decide_eq_true_2 by done. cbn.
    by destruct (cmp_or _ _).
  - rewrite bool_decide_eq_false_2; [done|]. intros H. by rewrite H, (gc_refl String.compare) in E.
  - done.
Qed.

Lemma str_lt_pick_least `{Countable K} {R} (key : R → option K) (val : R → string) (l : list R) :
  fold_keyed key (λ o r, match o with
                         | Some cur => if str_lt (val r) cur then Some (val r) else None
                         | None => Some (val r)
                         end) l ∅ = index_least String.compare key val l.
Proof. by apply (keep_least_fold_in _). Qed.

Section deployer.
Context (user_label time_label : string).
Implicit Types (s : Sample) (v : deployerCandidate).

Definition dep_user s : string := metricLabel (s_Metric s) user_label.
Definition dep_raw s : string := metricLabel (s_Metric s) time_label.
Definition dep_parsed s : option Z :=
  if bool_decide (dep_raw s = "") then None else parseDeployTime (dep_raw s).
Definition dep_failed s : nat :=
  if negb (bool_decide (dep_raw s = "")) && negb (bool_decide (is_Some (dep_parsed s))) then 1 else 0.

Definition dep_cmp : float64 * string → float64 * string → comparison := cmp_pair newest String.compare.
Definition dep_cls s : float64 * string := (s_Value s, dep_user s).
Definition dep_st v : float64 * string := (dc_at v, dc_user v).
Definition dep_init s : deployerCandidate :=
  mkDeployerCandidate (dep_user s) (s_Value s) (default 0%Z (dep_parsed s))
    (bool_decide (is_Some (dep_parsed s))) (dep_failed s).
Definition dep_refine v s : deployerCandidate :=
  let '(w, ok) :=
    match dep_parsed s with
    | Some w => if negb (dc_ok v) || bool_decide (dc_when v < w)%Z then (w, true) else (dc_when v, dc_ok v)
    | None => (dc_when v, dc_ok v)
    end in
  mkDeployerCandidate (dc_user v) (dc_at v) w ok (dc_unparsed v + dep_failed s).

Lemma keepDeployer_class v s :
  fplain (dc_at v) → dated s →
  at_key (λ o s, keepDeployer o (dep_user s) (dep_raw s) (s_Value s)) (Some v) s =
  class_step dep_cmp dep_cls dep_st dep_init dep_refine (Some v) s.
Proof.
  intros Hv Hs. unfold at_key, keepDeployer, class_step, dep_cmp, cmp_pair, cmp_lex, on_key, dep_cls, dep_st.
  cbn [fst snd]. fold (dep_parsed s). fold (dep_failed s). fold (dep_init s).
  destruct (newest_cases _ _ Hs Hv) as [(_ & -> & _ & -> & ->)|[(-> & _ & -> & ->)|(-> & _ & -> & ->)]]; [|done|done].
  rewrite str_lt_compare. cbn [cmp_or orb andb].
  destruct (String.compare (dep_user s) (dc_user v)) eqn:E; [|done|].
  - apply string_compare_eq in E. rewrite bool_decide_eq_true_2 by done.
    unfold dep_refine. by destruct (match dep_parsed s with Some _ => _ | None => _ end).
  - rewrite bool_decide_eq_false_2; [done|]. intros H. by rewrite H, (gc_refl String.compare) in E.
Qed.

Lemma deployers_class rows :
  Forall dated rows →
  fold_left (at_key (λ o s, keepDeployer o (dep_user s) (dep_raw s) (s_Value s))) rows None =
  fold_left (class_step dep_cmp dep_cls dep_st dep_init dep_refine) rows None.
Proof.
  intros Hrows.
  assert (fold_left (at_key (λ o s, keepDeployer o (dep_user s) (dep_raw s) (s_Value s))) rows None =
          fold_left (class_step dep_cmp dep_cls dep_st dep_init dep_refine) rows None ∧
          ∀ v, fold_left (class_step dep_cmp dep_cls dep_st dep_init dep_refine) rows None = Some v →
            fplain (dc_at v)) as [? _]; [|done].
  induction rows as [|s rows IH] using rev_ind; [done|].
  apply Forall_app in Hrows as [Hrows Hs]. pose proof (Forall_inv Hs) as Hs1.
  destruct (IH Hrows) as [Heq Hp]. rewrite !fold_left_app. cbn [fold_left]. rewrite Heq.
  destruct (fold_left (class_step _ _ _ _ _) rows None) as [v|] eqn:E.
  - specialize (Hp v eq_refl). rewrite (keepDeployer_class v s Hp Hs1). split; [done|].
    intros w. unfold class_step. intros [= <-].
    destruct (dep_cmp _ _); [|done|done]. unfold dep_refine. by repeat case_match.
  - split; [done|]. intros w [= <-]. exact Hs1.
Qed.

Lemma deployers_perm l1 l2 :
  Forall dated l1 → l1 ≡ₚ l2 →
  fold_left (at_key (λ o s, keepDeployer o (dep_user s) (dep_raw s) (s_Value s))) l1 None =
  fold_left (at_key (λ o s, keepDeployer o (dep_user s) (dep_raw s) (s_Value s))) l2 None.
Proof.
  intros Hd Hp. rewrite !deployers_class by (by rewrite <- ?Hp).
  apply class_fold_perm; [unfold dep_cmp, newest; apply _|done| | | |exact Hp].
  - intros v s. unfold dep_refine. by repeat case_match.
  - intros r1 r2 [= Hat Hu]. unfold dep_init, dep_refine. cbn. rewrite Hat, Hu.
    destruct (dep_parsed r1) as [w1|], (dep_parsed r2) as [w2|]; cbn -[Z.lt];
      repeat case_bool_decide; f_equal; lia.
  - intros v r1 r2. unfold dep_refine.
    destruct (dep_parsed r1) as [w1|], (dep_parsed r2) as [w2|], (dc_ok v) eqn:Eok; cbn -[Z.lt];
      repeat (case_bool_decide; cbn -[Z.lt]); rewrite ?Eok; f_equal; try lia.
Qed.
End deployer.

(** ** The index *)

Section index.
Context (src : AppMetadataSource) (mc : clusterResolver).
Implicit Types (vec : list Sample).

Lemma latest_picks_least label vec :
  Forall dated vec →
  latest_picks src mc label vec =
  index_least seen_cmp (ns_pick_key src mc label)
    (λ s, mkSeen (metricLabel (s_Metric s) label) (s_Value s)) vec.
Proof.
  intros Hd. rewrite Forall_forall in Hd. apply keep_least_fold_in; [apply _|done|].
  intros s s' Hs Hs'. by apply keepLatest_least; apply Hd.
Qed.

Lemma group_picks_least vec :
  Forall dated vec →
  group_picks src mc vec =
  index_least group_cmp (ns_pick_key src mc (am_NSGroup src))
    (λ s, mkGroupCandidate (metricLabel (s_Metric s) (am_NSGroup src))
            (metricLabel (s_Metric s) (am_NSGroupOwner src)) (s_Value s)) vec.
Proof.
  intros Hd. rewrite Forall_forall in Hd. apply keep_least_fold_in; [apply _|done|].
  intros s s' Hs Hs'. by apply keepGroup_least; apply Hd.
Qed.

Lemma deployer_picks_perm vec vec' :
  Forall dated vec → vec ≡ₚ vec' → deployer_picks src mc vec = deployer_picks src mc vec'.
Proof.
  intros Hd Hp. apply map_eq. intros k. unfold deployer_picks.
  rewrite !lookup_fold_keyed, !lookup_empty.
  apply (deployers_perm (am_User src) (am_DeployTime src)).
  - rewrite Forall_forall in *. intros s [_ Hs]%list_elem_of_filter. by apply Hd.
  - by rewrite Hp.
Qed.

(** The application metadata is a function of the rows, not of the order the
    backend returned them in, as long as no row's time is a NaN or a negative
    zero; and the group drawn for a namespace, with its owner, is one row's:
    the newest one's, the owner never borrowed from another row. *)
Theorem resolveAppMetadata_order_free vec vec'
  (Hdated : Forall dated vec) (Hperm : vec ≡ₚ vec') :
  resolveAppMetadata src mc vec = resolveAppMetadata src mc vec' ∧
  ∀ k g, ix_nsGroups (resolveAppMetadata src mc vec) !! k = Some g →
    ∃ s, s ∈ vec ∧ ns_pick_key src mc (am_NSGroup src) s = Some k ∧
      g = mkNsGroupPick (metricLabel (s_Metric s) (am_NSGroup src))
                        (metricLabel (s_Metric s) (am_NSGroupOwner src)) ∧
      ∀ s', s' ∈ vec → ns_pick_key src mc (am_NSGroup src) s' = Some k →
        fgtb (s_Value s') (s_Value s) = false.
Proof.
  assert (∀ s, s ∈ vec ↔ s ∈ vec') as Hel by (intros s; by rewrite Hperm).
  assert (Forall dated vec') as Hdated' by (by rewrite <- Hperm).
  split.
  - unfold resolveAppMetadata. cbv zeta.
    rewrite !latest_picks_least, !group_picks_least, (deployer_picks_perm vec vec') by done.
    rewrite !(index_least_ext seen_cmp _ _ vec vec'), (index_least_ext group_cmp _ _ vec vec') by done.
    unfold pod_picks. rewrite !(str_lt_pick_least _ (row_app src)).
    by rewrite (index_least_ext String.compare _ _ vec vec').
  - intros k g. unfold resolveAppMetadata. cbn [ix_nsGroups]. rewrite group_picks_least by done.
    rewrite lookup_fmap, fmap_Some. intros (c & [(s & Hs & Hk & <-) Hle]%index_least_Some & ->); [|apply _].
    exists s. split_and!; [done|done|done|]. intros s' Hs' Hk'. specialize (Hle s' Hs' Hk').
    rewrite Forall_forall in Hdated. revert Hle. unfold group_cmp, cmp_lex, on_key. cbn [gc_at].
    destruct (newest_cases (s_Value s) (s_Value s') (Hdated s Hs) (Hdated s' Hs'))
      as [(-> & _)|[(_ & Hlt & _)|(-> & _)]]; [intros _|intros _|done].
    + apply fgtb_irrefl.
    + exact Hlt.
Qed.
End index.

Definition sample_metadata_row (group owner : string) (at_ : Z) : Sample :=
  mkSample (list_to_map [("namespace", "shop"); ("pod", "web-0"); ("argocd_app", "shop-web");
                         ("user", "ann"); ("deploy_time", "2026/02/28 23:59:58");
                         ("namespace_group", group); ("namespace_group_owner", owner)])
    (f_of_Z at_) 0.
Definition sample_metadata_source : AppMetadataSource :=
  source_OrDefault (mkAppMetadataSource "deployments" "" "" "" "" "" "" "" "" "").

Lemma resolveAppMetadata_order_free_witness :
  let rows := [sample_metadata_row "retail" "" 10; sample_metadata_row "retail" "bob" 10;
               sample_metadata_row "legacy" "eve" 9] in
  let mc := newClusterResolver DefaultLabelKeys in
  resolveAppMetadata sample_metadata_source mc rows =
    resolveAppMetadata sample_metadata_source mc (reverse rows) ∧
  ix_nsGroups (resolveAppMetadata sample_metadata_source mc rows) !! ("unknown", "shop") =
    Some (mkNsGroupPick "retail" "bob").
Proof.
  split; [|by vm_compute].
  refine (proj1 (resolveAppMetadata_order_free _ _ _ _ _ _)).
  - repeat (apply Forall_cons; split; [split; [by vm_compute|intros Hz; vm_compute in Hz; discriminate Hz]|]).
    by apply Forall_nil.
  - by rewrite reverse_Permutation.
Defined.
