(* ===== verification/Alerts.v ===== *)
(** pkg/build/alerts.go: the ALERTS overlay. Every firing alert is matched to at
    most one node of the assembled set, through an index built once per build,
    and the matched sets are stamped onto the nodes.

    The theorem is that the index answers what a scan of the nodes would: the
    precedence of the labels, the zone rule and the two-candidates rule are all
    stated over the node list itself. *)

From S2P Require Import Prelude GoStrings Float64 GraphNode GraphEdge Graph PairScope Fanout.
From S2P Require Import Keyed.
From S2P Require Import Selector AppMetadata BuildIdentity VolumeKey TopologyTypes.

(** pkg/build/alerts.go@44-50, [ontapZonesOf]: the families that name a NetApp
    entity. *)
Definition harvest_vectors (v : topologyVectors) : list (list Sample) := [
  v_VolumeLabels v; v_AggrStatus v; v_AggrSpaceUsed v; v_AggrSpaceTotal v;
  v_NetAppNodeStatus v; v_NetAppNodeLabels v; v_NetAppNodeCPUBusy v;
  v_NetAppNodeTotalOps v; v_NetAppNodeTotalLatency v; v_NetAppNodeTotalData v
].

(** pkg/build/alerts.go, [ontapZonesOf]: a nil map reads as the empty one. *)
Definition ontapZonesOf (v : topologyVectors) (keys : LabelKeys) : gmap string (list zone) :=
  (λ zs : list zone, sort_func zone_compare zs) <$>
  fold_keyed (λ s, let oc := label_of (s_Metric s) "cluster" in
                   if bool_decide (oc = "") || negb (zoneOf (s_Metric s) (OrDefault keys)).2
                   then None else Some oc)
    (λ o s, let z := (zoneOf (s_Metric s) (OrDefault keys)).1 in
            let zs := default [] o in
            Some (if bool_decide (z ∈ zs) then zs else zs ++ [z]))
    (concat (harvest_vectors v)) ∅.

(** pkg/build/alerts.go, [alertCand] *)
Record alertCand := mkAlertCand { ac_id : string; ac_zones : list zone }.

(** pkg/build/alerts.go@90-90, [alertNSKey]: (cluster, namespace, name). *)
Definition alertNSKey : Type := string * string * string.
(** pkg/build/alerts.go@91-91, [alertNameKey]: (namespace, name). *)
Definition alertNameKey : Type := string * string.
(** pkg/build/alerts.go@92-92, [alertOCKey]: (cluster, name). *)
Definition alertOCKey : Type := string * string.

(** pkg/build/alerts.go, [alertIndex]: the two Kubernetes namespaced kinds and
    the three cluster-scoped ones. *)
Record alertIndex := mkAlertIndex {
  podsByCluster : gmap alertNSKey string;
  podsByName : gmap alertNameKey (list alertCand);
  pvcsByCluster : gmap alertNSKey string;
  pvcsByName : gmap alertNameKey (list alertCand);
  k8sNodesByCluster : gmap alertOCKey string;
  k8sNodesByName : gmap string (list alertCand);
  ctrlsByCluster : gmap alertOCKey string;
  ctrlsByName : gmap string (list alertCand);
  aggrsByCluster : gmap alertOCKey string;
  aggrsByName : gmap string (list alertCand);
  ix_ontapZones : gmap string (list zone);
}.

(** pkg/build/alerts.go@157-165, [newAlertIndex]: the zone of a Kubernetes
    cluster; [None] is the nil resolver. *)
Definition k8sZone (clusters : option clusterResolver) (ident : string) : list zone :=
  match clusters with
  | None => []
  | Some r =>
      match identities r !! ident with
      | Some ci => if bool_decide (ci_AZ ci = "") || bool_decide (ci_Env ci = "") then []
                   else [mkZone (ci_AZ ci) (ci_Env ci)]
      | None => []
      end
  end.

(** The smallest id under a key. *)
Definition put_smallest `{Countable K} (k : K) (id : string) (m : gmap K string) : gmap K string :=
  match m !! k with
  | Some prev => if str_lt id prev then <[k := id]> m else m
  | None => <[k := id]> m
  end.
(** One more candidate under a name. *)
Definition push_cand `{Countable K} (k : K) (c : alertCand) (m : gmap K (list alertCand))
  : gmap K (list alertCand) := <[k := default [] (m !! k) ++ [c]]> m.

(** pkg/build/alerts.go@173-186, [newAlertIndex] *)
Definition addNamespaced (clusters : option clusterResolver) (cluster namespace name id : string)
  (ms : gmap alertNSKey string * gmap alertNameKey (list alertCand))
  : gmap alertNSKey string * gmap alertNameKey (list alertCand) :=
  if bool_decide (namespace = "") || bool_decide (name = "") then ms
  else (if bool_decide (cluster = "") then ms.1 else put_smallest (cluster, namespace, name) id ms.1,
        push_cand (namespace, name) (mkAlertCand id (k8sZone clusters cluster)) ms.2).
(** pkg/build/alerts.go@187-200, [newAlertIndex] *)
Definition addClusterScoped (cluster name id : string) (zones : list zone)
  (ms : gmap alertOCKey string * gmap string (list alertCand))
  : gmap alertOCKey string * gmap string (list alertCand) :=
  if bool_decide (name = "") then ms
  else (if bool_decide (cluster = "") then ms.1 else put_smallest (cluster, name) id ms.1,
        push_cand name (mkAlertCand id zones) ms.2).

(** pkg/build/alerts.go@202-226, [newAlertIndex]: one node. *)
Definition index_node (clusters : option clusterResolver) (zones : gmap string (list zone))
  (idx : alertIndex) (n : GraphNode) : alertIndex :=
  let ls := Labels n in
  let oc := lget ls "ontap_cluster" in
  let ocz := default [] (zones !! oc) in
  match Type_ n with
  | NodeTypePod =>
      let '(c, b) := addNamespaced clusters (lget ls "cluster") (lget ls "namespace") (GraphNode.Name n) (ID n)
                       (podsByCluster idx, podsByName idx) in
      mkAlertIndex c b (pvcsByCluster idx) (pvcsByName idx) (k8sNodesByCluster idx) (k8sNodesByName idx)
        (ctrlsByCluster idx) (ctrlsByName idx) (aggrsByCluster idx) (aggrsByName idx) (ix_ontapZones idx)
  | NodeTypePVC =>
      let '(c, b) := addNamespaced clusters (lget ls "cluster") (lget ls "namespace") (GraphNode.Name n) (ID n)
                       (pvcsByCluster idx, pvcsByName idx) in
      mkAlertIndex (podsByCluster idx) (podsByName idx) c b (k8sNodesByCluster idx) (k8sNodesByName idx)
        (ctrlsByCluster idx) (ctrlsByName idx) (aggrsByCluster idx) (aggrsByName idx) (ix_ontapZones idx)
  | NodeTypeK8sNode =>
      let '(c, b) := addClusterScoped (lget ls "cluster") (GraphNode.Name n) (ID n) (k8sZone clusters (lget ls "cluster"))
                       (k8sNodesByCluster idx, k8sNodesByName idx) in
      mkAlertIndex (podsByCluster idx) (podsByName idx) (pvcsByCluster idx) (pvcsByName idx) c b
        (ctrlsByCluster idx) (ctrlsByName idx) (aggrsByCluster idx) (aggrsByName idx) (ix_ontapZones idx)
  | NodeTypeNetAppNode =>
      let '(c, b) := addClusterScoped oc (GraphNode.Name n) (ID n) ocz (ctrlsByCluster idx, ctrlsByName idx) in
      mkAlertIndex (podsByCluster idx) (podsByName idx) (pvcsByCluster idx) (pvcsByName idx)
        (k8sNodesByCluster idx) (k8sNodesByName idx) c b (aggrsByCluster idx) (aggrsByName idx) (ix_ontapZones idx)
  | NodeTypeNetAppAggr =>
      let '(c, b) := addClusterScoped oc (GraphNode.Name n) (ID n) ocz (aggrsByCluster idx, aggrsByName idx) in
      mkAlertIndex (podsByCluster idx) (podsByName idx) (pvcsByCluster idx) (pvcsByName idx)
        (k8sNodesByCluster idx) (k8sNodesByName idx) (ctrlsByCluster idx) (ctrlsByName idx) c b (ix_ontapZones idx)
  | NodeTypeService | NodeTypeExternal | NodeTypeNetAppSVM => idx
  end.

(** pkg/build/alerts.go, [newAlertIndex] *)
Definition newAlertIndex (nodes : list GraphNode) (clusters : option clusterResolver)
  (zones : gmap string (list zone)) : alertIndex :=
  fold_left (index_node clusters zones) nodes
    (mkAlertIndex ∅ ∅ ∅ ∅ ∅ ∅ ∅ ∅ ∅ ∅ zones).

(** pkg/build/alerts.go, [alertMatch]: the three states. *)
Inductive alertMatch := Matched (id : string) | Ambiguous | Unmatched.

(** pkg/build/alerts.go@238-247, [matchUnique]: [cur] is [match.id], "" at the
    start. *)
Fixpoint match_unique_loop (cur : string) (cands : list alertCand) (z : zone) (zoned : bool) : alertMatch :=
  match cands with
  | [] => if bool_decide (cur = "") then Unmatched else Matched cur
  | c :: rest =>
      if negb (zoneAdmits (ac_zones c) z zoned) then match_unique_loop cur rest z zoned
      else if negb (bool_decide (cur = "")) then Ambiguous
      else match_unique_loop (ac_id c) rest z zoned
  end.
(** pkg/build/alerts.go, [matchUnique] *)
Definition matchUnique (cands : list alertCand) (z : zone) (zoned : bool) : alertMatch :=
  match_unique_loop "" cands z zoned.

(** pkg/build/alerts.go, [matchNamespaced] *)
Definition matchNamespaced (byCluster : gmap alertNSKey string) (byName : gmap alertNameKey (list alertCand))
  (m : Metric) (rawCluster namespace name : string) (clusters : clusterResolver) (z : zone) (zoned : bool)
  : alertMatch :=
  if negb (bool_decide (rawCluster = "")) then
    match byCluster !! (identify clusters m, namespace, name) with
    | Some id => Matched id
    | None => Unmatched
    end
  else matchUnique (default [] (byName !! (namespace, name))) z zoned.

(** pkg/build/alerts.go, [matchNodeShaped] *)
Definition matchNodeShaped (idx : alertIndex) (m : Metric) (rawCluster node : string)
  (clusters : clusterResolver) (z : zone) (zoned : bool) : alertMatch :=
  if negb (bool_decide (rawCluster = "")) then
    let k8s := k8sNodesByCluster idx !! (identify clusters m, node) in
    let ctrl := if zoneAdmits (default [] (ix_ontapZones idx !! rawCluster)) z zoned
                then ctrlsByCluster idx !! (rawCluster, node) else None in
    match k8s, ctrl with
    | Some _, Some _ => Ambiguous
    | Some id, None => Matched id
    | None, Some id => Matched id
    | None, None => Unmatched
    end
  else matchUnique (default [] (k8sNodesByName idx !! node) ++ default [] (ctrlsByName idx !! node)) z zoned.

(** pkg/build/alerts.go, [matchAggr] *)
Definition matchAggr (idx : alertIndex) (rawCluster aggr : string) (z : zone) (zoned : bool) : alertMatch :=
  if negb (bool_decide (rawCluster = "")) then
    match aggrsByCluster idx !! (rawCluster, aggr) with
    | Some id => if zoneAdmits (default [] (ix_ontapZones idx !! rawCluster)) z zoned then Matched id else Unmatched
    | None => Unmatched
    end
  else matchUnique (default [] (aggrsByName idx !! aggr)) z zoned.

(** pkg/build/alerts.go, [resolveOneAlert] *)
Definition resolveOneAlert (m : Metric) (idx : alertIndex) (clusters : clusterResolver) : alertMatch :=
  let ns := label_of m "namespace" in
  let pod := label_of m "pod" in
  let pvc := label_of m "persistentvolumeclaim" in
  let node := label_of m "node" in
  let aggr := label_of m "aggr" in
  let rawCluster := label_of m "cluster" in
  let '(z, zoned) := zoneOf m (cr_keys clusters) in
  if negb (bool_decide (ns = "")) && negb (bool_decide (pod = "")) then
    matchNamespaced (podsByCluster idx) (podsByName idx) m rawCluster ns pod clusters z zoned
  else if negb (bool_decide (ns = "")) && negb (bool_decide (pvc = "")) then
    matchNamespaced (pvcsByCluster idx) (pvcsByName idx) m rawCluster ns pvc clusters z zoned
  else if negb (bool_decide (aggr = "")) then matchAggr idx rawCluster aggr z zoned
  else if negb (bool_decide (node = "")) then matchNodeShaped idx m rawCluster node clusters z zoned
  else Unmatched.

(** ** Times *)

(** Seconds from the zero time to the Unix epoch. *)
Definition unix_epoch : Z := 62135596800.
(** [time.Unix(sec, 0)] and [t.Unix()]. *)
Definition from_unix (sec : Z) : Z := ((sec + unix_epoch) * 1000000000)%Z.
Definition to_unix (t : Z) : Z := (t / 1000000000 - unix_epoch)%Z.

(** pkg/build/alerts.go, [alertSeenTime]: [math.MaxInt64] converts to 2^63. *)
Definition alertSeenTime (f : float64) (win : alertWindow) : Z :=
  if fnan f || finf f || fltb f (f_of_Z 1) || fgeb f (f_of_Z (2 ^ 63)) then 0%Z
  else let sec := f_trunc f in
       if negb (win_end win =? 0)%Z && ((sec <? to_unix (win_start win))%Z || (to_unix (win_end win) <? sec)%Z)
       then 0%Z else from_unix sec.

(** ** The overlay *)

(** pkg/graph/node.go@233-233, [AlertStateFiring] *)
Definition AlertStateFiring := "firing".

(** pkg/build/alerts.go@296-301, [resolveAlerts] *)
Definition alert_of (win : alertWindow) (s : Sample) : Alert :=
  mkAlert (label_of (s_Metric s) "alertname") (label_of (s_Metric s) "alertstate")
    (label_of (s_Metric s) "severity") (alertSeenTime (s_Value s) win).

(** pkg/build/alerts.go@282-303, [resolveAlerts]: one row. *)
Definition alert_step (idx : alertIndex) (clusters : clusterResolver) (win : alertWindow)
  (st : gmap string (list Alert) * nat * nat) (s : Sample) : gmap string (list Alert) * nat * nat :=
  let '(acc, unmatched, ambiguous) := st in
  if negb (bool_decide (label_of (s_Metric s) "alertstate" = AlertStateFiring)) then st
  else match resolveOneAlert (s_Metric s) idx clusters with
       | Ambiguous => (acc, unmatched, ambiguous + 1)
       | Unmatched => (acc, unmatched + 1, ambiguous)
       | Matched id =>
           if bool_decide (id = "") then (acc, unmatched + 1, ambiguous)
           else (<[id := default [] (acc !! id) ++ [alert_of win s]]> acc, unmatched, ambiguous)
       end.

(** pkg/build/alerts.go, [resolveAlerts] *)
Definition resolveAlerts (vec : list Sample) (idx : alertIndex) (clusters : option clusterResolver)
  (win : alertWindow) : gmap string (list Alert) * nat * nat :=
  let clusters := default (newClusterResolver (mkLabelKeys "" "")) clusters in
  let '(acc, unmatched, ambiguous) := fold_left (alert_step idx clusters win) vec (∅, 0, 0) in
  (SortAlerts <$> acc, unmatched, ambiguous).

(** pkg/build/alerts.go@476-487, [attachAlerts]: the write, by kind. *)
Definition set_alerts (alerts : list Alert) (n : GraphNode) : GraphNode :=
  match n with
  | NPod p => NPod (mkPodNode (pod_ID p) (pod_Name p) (pod_Labels p) (pod_IPAddress p) (pod_Owner p)
                      (pod_Application p) (pod_Containers p) alerts (pod_Status p))
  | NK8sNode k => NK8sNode (mkK8sNode (k8s_ID k) (k8s_Name k) (k8s_Labels k) (k8s_IPAddress k)
                              (k8s_ReadyStatus k) alerts (k8s_Status k))
  | NPVC p => NPVC (mkPVCNode (pvc_ID p) (pvc_Name p) (pvc_Labels p) (pvc_StorageClass p)
                      (pvc_Application p) (pvc_Usage p) (pvc_QoS p) alerts (pvc_Status p))
  | NNetAppNode c => NNetAppNode (mkNetAppNode (ctrl_ID c) (ctrl_Name c) (ctrl_Labels c) (ctrl_Health c)
                                    (ctrl_Hardware c) (ctrl_Perf c) alerts (ctrl_Status c))
  | NNetAppAggr a => NNetAppAggr (mkNetAppAggrNode (aggr_ID a) (aggr_Name a) (aggr_Labels a)
                                    (aggr_Health a) (aggr_Usage a) alerts (aggr_Status a))
  | NService _ | NExternal _ | NNetAppSVM _ => n
  end.

(** pkg/build/alerts.go, [attachAlerts]: the warnings are left out. *)
Definition attachAlerts (nodes : list GraphNode) (t : Topology) : list GraphNode :=
  if bool_decide (TopoAlerts t = []) then nodes
  else
    let '(byNode, _, _) := resolveAlerts (TopoAlerts t)
                             (newAlertIndex nodes (Some (clusters t)) (ontapZones t))
                             (Some (clusters t)) (topoAlertWindow t) in
    map (λ n, match default [] (byNode !! ID n) with
              | [] => n
              | alerts => set_alerts alerts n
              end) nodes.

(** ** The index, one map at a time *)

Section index.
Context (clusters : option clusterResolver) (zones : gmap string (list zone)).
Implicit Types (n : GraphNode) (nodes : list GraphNode).

Definition node_ns n : string := lget (Labels n) "namespace".
Definition node_cluster n : string := lget (Labels n) "cluster".
Definition node_oc n : string := lget (Labels n) "ontap_cluster".

(** The keys a node of kind [t] is indexed under. *)
Definition name_key (t : NodeType) n : option alertNameKey :=
  if bool_decide (Type_ n = t) && negb (bool_decide (node_ns n = "") || bool_decide (GraphNode.Name n = ""))
  then Some (node_ns n, GraphNode.Name n) else None.
Definition ns_key (t : NodeType) n : option alertNSKey :=
  if bool_decide (node_cluster n = "") then None else (λ k, (node_cluster n, k.1, k.2)) <$> name_key t n.
Definition bare_key (t : NodeType) n : option string :=
  if bool_decide (Type_ n = t) && negb (bool_decide (GraphNode.Name n = "")) then Some (GraphNode.Name n) else None.
Definition oc_key (cluster : GraphNode → string) (t : NodeType) n : option alertOCKey :=
  if bool_decide (cluster n = "") then None else (λ k, (cluster n, k)) <$> bare_key t n.

(** The zones a node is known to live in. *)
Definition node_zones n : list zone :=
  match Type_ n with
  | NodeTypeNetAppNode | NodeTypeNetAppAggr => default [] (zones !! node_oc n)
  | _ => k8sZone clusters (node_cluster n)
  end.
Definition node_cand n : alertCand := mkAlertCand (ID n) (node_zones n).

Abbreviation smallest := (index_least String.compare).

Lemma put_smallest_step `{Countable K} (key : GraphNode → option K) k n (m : gmap K string) :
  key n = Some k →
  put_smallest k (ID n) m = keyed_step key (λ o r, keep_least String.compare o (ID r)) m n.
Proof.
  intros Hk. unfold put_smallest, keyed_step, keep_least, str_lt. rewrite Hk.
  by destruct (m !! k); [case_bool_decide|].
Qed.

Lemma push_cand_step `{Countable K} (key : GraphNode → option K) k n (m : gmap K (list alertCand)) :
  key n = Some k →
  push_cand k (node_cand n) m = keyed_step key (λ o r, Some (default [] o ++ [node_cand r])) m n.
Proof. intros Hk. unfold push_cand, keyed_step. by rewrite Hk. Qed.

Lemma keyed_step_none {R V} `{Countable K} (key : R → option K) (upd : option V → R → option V) m r :
  key r = None → keyed_step key upd m r = m.
Proof. intros Hk. unfold keyed_step. by rewrite Hk. Qed.

Lemma addNamespaced_step t n c b :
  Type_ n = t → node_zones n = k8sZone clusters (node_cluster n) →
  addNamespaced clusters (lget (Labels n) "cluster") (lget (Labels n) "namespace") (GraphNode.Name n) (ID n) (c, b) =
  (keyed_step (ns_key t) (λ o r, keep_least String.compare o (ID r)) c n,
   keyed_step (name_key t) (λ o r, Some (default [] o ++ [node_cand r])) b n).
Proof.
  intros Ht Hz. unfold addNamespaced. fold (node_ns n) (node_cluster n). cbn [fst snd].
  assert (name_key t n = if bool_decide (node_ns n = "") || bool_decide (GraphNode.Name n = "") then None
                         else Some (node_ns n, GraphNode.Name n)) as Hk.
  { unfold name_key. rewrite bool_decide_eq_true_2 by done. by destruct (_ || _). }
  destruct (bool_decide (node_ns n = "") || _).
  - rewrite !keyed_step_none; [done|done|]. unfold ns_key. rewrite Hk. by case_bool_decide.
  - rewrite <- Hz, <- (push_cand_step (name_key t) (node_ns n, GraphNode.Name n)) by done. unfold node_cand. f_equal.
    case_bool_decide as Hc.
    + rewrite keyed_step_none; [done|]. unfold ns_key. by rewrite bool_decide_eq_true_2.
    + apply put_smallest_step. unfold ns_key. by rewrite bool_decide_eq_false_2, Hk.
Qed.

Lemma addClusterScoped_step t (cluster : GraphNode → string) n zs c b :
  Type_ n = t → node_zones n = zs →
  addClusterScoped (cluster n) (GraphNode.Name n) (ID n) zs (c, b) =
  (keyed_step (oc_key cluster t) (λ o r, keep_least String.compare o (ID r)) c n,
   keyed_step (bare_key t) (λ o r, Some (default [] o ++ [node_cand r])) b n).
Proof.
  intros Ht <-. unfold addClusterScoped. cbn [fst snd].
  assert (bare_key t n = if bool_decide (GraphNode.Name n = "") then None else Some (GraphNode.Name n)) as Hk.
  { unfold bare_key. rewrite bool_decide_eq_true_2 by done. by destruct (bool_decide _). }
  case_bool_decide as Hn.
  - rewrite !keyed_step_none; [done|done|]. unfold oc_key. rewrite Hk. by case_bool_decide.
  - rewrite <- (push_cand_step (bare_key t) (GraphNode.Name n)) by done. unfold node_cand. f_equal.
    case_bool_decide as Hc.
    + rewrite keyed_step_none; [done|]. unfold oc_key. by rewrite bool_decide_eq_true_2.
    + apply put_smallest_step. unfold oc_key. by rewrite bool_decide_eq_false_2, Hk.
Qed.

Lemma key_kind n t t' : Type_ n = t' → t ≠ t' →
  name_key t n = None ∧ ns_key t n = None ∧ bare_key t n = None ∧ ∀ cl, oc_key cl t n = None.
Proof.
  intros Ht Hne. assert (name_key t n = None ∧ bare_key t n = None) as [Ha Hb].
  { unfold name_key, bare_key. by rewrite bool_decide_eq_false_2 by congruence. }
  split_and!; [done| |done|].
  - unfold ns_key. rewrite Ha. by case_bool_decide.
  - intros cl. unfold oc_key. rewrite Hb. by case_bool_decide.
Qed.

(** Each of the ten maps is its own loop over the nodes. *)
Lemma newAlertIndex_maps nodes :
  newAlertIndex nodes clusters zones =
  mkAlertIndex
    (smallest (ns_key NodeTypePod) ID nodes) (append_by (name_key NodeTypePod) node_cand nodes ∅)
    (smallest (ns_key NodeTypePVC) ID nodes) (append_by (name_key NodeTypePVC) node_cand nodes ∅)
    (smallest (oc_key node_cluster NodeTypeK8sNode) ID nodes) (append_by (bare_key NodeTypeK8sNode) node_cand nodes ∅)
    (smallest (oc_key node_oc NodeTypeNetAppNode) ID nodes) (append_by (bare_key NodeTypeNetAppNode) node_cand nodes ∅)
    (smallest (oc_key node_oc NodeTypeNetAppAggr) ID nodes) (append_by (bare_key NodeTypeNetAppAggr) node_cand nodes ∅)
    zones.
Proof.
  unfold newAlertIndex, index_least, append_by, fold_keyed.
  induction nodes as [|n nodes IH] using rev_ind; [done|].
  rewrite !fold_left_app. cbn [fold_left]. rewrite IH. clear IH.
  assert (∀ t, t ≠ Type_ n → name_key t n = None ∧ ns_key t n = None ∧ bare_key t n = None ∧ ∀ cl, oc_key cl t n = None)
    as Hk by (intros t Ht; by apply (key_kind n t (Type_ n))).
  unfold index_node. cbn [podsByCluster podsByName pvcsByCluster pvcsByName k8sNodesByCluster k8sNodesByName
    ctrlsByCluster ctrlsByName aggrsByCluster aggrsByName ix_ontapZones].
  destruct (Type_ n) eqn:Ht.
  all: try rewrite (addNamespaced_step _ n _ _ Ht) by (by unfold node_zones; rewrite Ht).
  all: try (rewrite (addClusterScoped_step _ node_cluster n (k8sZone clusters (node_cluster n)) _ _ Ht)
            by (by unfold node_zones; rewrite Ht)).
  all: try (rewrite (addClusterScoped_step _ node_oc n (default [] (zones !! node_oc n)) _ _ Ht)
            by (by unfold node_zones; rewrite Ht)).
  all: f_equal; symmetry; apply keyed_step_none; by apply Hk.
Qed.
End index.

(** ** The matcher as a scan *)

Definition admitted (z : zone) (zoned : bool) (c : alertCand) : Prop := zoneAdmits (ac_zones c) z zoned = true.
#[export] Instance admitted_dec z zoned c : Decision (admitted z zoned c).
Proof. unfold admitted. apply _. Defined.

(** Exactly one candidate, several, or none. *)
Definition verdict (cands : list alertCand) : alertMatch :=
  match cands with [] => Unmatched | [c] => Matched (ac_id c) | _ => Ambiguous end.

Lemma matchUnique_verdict cands z zoned :
  (∀ c, c ∈ cands → ac_id c ≠ "") →
  matchUnique cands z zoned = verdict (filter (admitted z zoned) cands).
Proof.
  intros Hid. unfold matchUnique.
  assert (∀ cur l, cur ≠ "" → match_unique_loop cur l z zoned =
            match filter (admitted z zoned) l with [] => Matched cur | _ => Ambiguous end) as Hcur.
  { intros cur l Hc. induction l as [|c l IH]; cbn [match_unique_loop].
    - by rewrite bool_decide_eq_false_2.
    - rewrite filter_cons. destruct (decide (admitted z zoned c)) as [Ha|Ha].
      + unfold admitted in Ha. rewrite Ha. cbn [negb]. by rewrite (bool_decide_eq_false_2 (cur = "")).
      + unfold admitted in Ha. by rewrite (not_true_is_false _ Ha). }
  induction cands as [|c cands IH]; [done|]. cbn [match_unique_loop]. rewrite filter_cons.
  destruct (decide (admitted z zoned c)) as [Ha|Ha]; unfold admitted in Ha.
  - rewrite Ha. cbn [negb]. rewrite bool_decide_eq_true_2 by done. cbn [negb].
    rewrite Hcur by (apply Hid; set_solver). cbn [verdict]. by destruct (filter _ cands).
  - rewrite (not_true_is_false _ Ha). apply IH. intros c' Hc'. apply Hid. set_solver.
Qed.

Section scan.
Context (nodes : list GraphNode) (r : clusterResolver) (zones : gmap string (list zone)) (m : Metric).

(** The nodes [P] picks, as candidates. *)
Definition candidates (P : GraphNode → Prop) `{∀ n, Decision (P n)} : list alertCand :=
  map (node_cand (Some r) zones) (filter P nodes).
(** Without a cluster label the object must be unique in the loaded estate,
    among those the zone rule admits. *)
Definition unique_match (cands : list alertCand) : alertMatch :=
  let '(z, zoned) := zoneOf m (cr_keys r) in verdict (filter (admitted z zoned) cands).
(** With one, the node of that cluster and name; the smallest id, should two
    nodes answer. *)
Definition first_match (P : GraphNode → Prop) `{∀ n, Decision (P n)} : option string :=
  least String.compare (map ID (filter P nodes)).
(** The zone rule on a filer. *)
Definition filer_admitted : bool :=
  let '(z, zoned) := zoneOf m (cr_keys r) in
  zoneAdmits (default [] (zones !! label_of m "cluster")) z zoned.

Definition match_of (o : option string) : alertMatch :=
  match o with Some id => Matched id | None => Unmatched end.

Definition resolve_scan : alertMatch :=
  let raw := label_of m "cluster" in
  let ns := label_of m "namespace" in
  let node := label_of m "node" in
  let namespaced t name :=
    if bool_decide (raw = "") then unique_match (candidates (λ n, name_key t n = Some (ns, name)))
    else match_of (first_match (λ n, ns_key t n = Some (identify r m, ns, name))) in
  if negb (bool_decide (ns = "" ∨ label_of m "pod" = "")) then namespaced NodeTypePod (label_of m "pod")
  else if negb (bool_decide (ns = "" ∨ label_of m "persistentvolumeclaim" = ""))
       then namespaced NodeTypePVC (label_of m "persistentvolumeclaim")
  else if negb (bool_decide (label_of m "aggr" = "")) then
    if bool_decide (raw = "")
    then unique_match (candidates (λ n, bare_key NodeTypeNetAppAggr n = Some (label_of m "aggr")))
    else if filer_admitted
         then match_of (first_match (λ n, oc_key node_oc NodeTypeNetAppAggr n = Some (raw, label_of m "aggr")))
         else Unmatched
  else if negb (bool_decide (node = "")) then
    if bool_decide (raw = "")
    then unique_match (candidates (λ n, bare_key NodeTypeK8sNode n = Some node) ++
                       candidates (λ n, bare_key NodeTypeNetAppNode n = Some node))
    else match first_match (λ n, oc_key node_cluster NodeTypeK8sNode n = Some (identify r m, node)),
               (if filer_admitted
                then first_match (λ n, oc_key node_oc NodeTypeNetAppNode n = Some (raw, node)) else None) with
         | Some _, Some _ => Ambiguous
         | Some id, None | None, Some id => Matched id
         | None, None => Unmatched
         end
  else Unmatched.

(** C28: an alert attaches to the node a scan of the assembled nodes would pick:
    by the most specific label it carries, in its own cluster when it names
    one, and otherwise only when exactly one object of that name is admitted by
    the zone rule; a name two kinds answer to, or two objects share, attaches to
    nothing and is counted ambiguous. *)
Theorem resolveOneAlert_scan
  (Hids : ∀ n, n ∈ nodes → ID n ≠ "") :
  resolveOneAlert m (newAlertIndex nodes (Some r) zones) r = resolve_scan.
Proof.
  assert (∀ (P : GraphNode → Prop) `{∀ n, Decision (P n)} c, c ∈ candidates P → ac_id c ≠ "") as Hc.
  { intros P HP c (n & -> & [_ Hn]%list_elem_of_filter)%list_elem_of_fmap. by apply Hids. }
  rewrite newAlertIndex_maps. unfold resolveOneAlert, resolve_scan, unique_match, filer_admitted.
  destruct (zoneOf m (cr_keys r)) as [z zoned].
  rewrite !bool_decide_or, !negb_orb.
  destruct (negb (bool_decide (label_of m "namespace" = "")) && _).
  { unfold matchNamespaced. cbn [podsByCluster podsByName]. destruct (bool_decide (label_of m "cluster" = "")); cbn [negb].
    - rewrite lookup_append_by_default. apply matchUnique_verdict, Hc.
    - by rewrite lookup_index_least. }
  destruct (negb (bool_decide (label_of m "namespace" = "")) && _).
  { unfold matchNamespaced. cbn [pvcsByCluster pvcsByName]. destruct (bool_decide (label_of m "cluster" = "")); cbn [negb].
    - rewrite lookup_append_by_default. apply matchUnique_verdict, Hc.
    - by rewrite lookup_index_least. }
  destruct (negb (bool_decide (label_of m "aggr" = ""))).
  { unfold matchAggr. cbn [aggrsByCluster aggrsByName ix_ontapZones].
    destruct (bool_decide (label_of m "cluster" = "")); cbn [negb].
    - rewrite lookup_append_by_default. apply matchUnique_verdict, Hc.
    - rewrite lookup_index_least. unfold first_match, match_of.
      destruct (zoneAdmits _ _ _); [done|]. by destruct (least String.compare _). }
  destruct (negb (bool_decide (label_of m "node" = ""))); [|done].
  unfold matchNodeShaped.
  cbn [k8sNodesByCluster k8sNodesByName ctrlsByCluster ctrlsByName ix_ontapZones].
  destruct (bool_decide (label_of m "cluster" = "")); cbn [negb].
  - rewrite !lookup_append_by_default. apply matchUnique_verdict.
    intros c [H|H]%elem_of_app; by apply Hc in H.
  - rewrite !lookup_index_least. unfold first_match.
    by destruct (zoneAdmits _ _ _).
Qed.
End scan.

Definition sample_alert_nodes : list GraphNode := [
  NPod (mkPodNode "a-p-c1/u1" "web-0" (list_to_map [("cluster", "a-p-c1"); ("namespace", "shop")])
          [] None "" [] [] "");
  NPod (mkPodNode "c2/u2" "web-0" (list_to_map [("cluster", "c2"); ("namespace", "shop")])
          [] None "" [] [] "");
  NK8sNode (mkK8sNode "c2/n1" "n1" (list_to_map [("cluster", "c2")]) [] "" [] "")
].
Definition sample_alert_resolver : clusterResolver :=
  observe (newClusterResolver DefaultLabelKeys)
    (list_to_map [("az", "a"); ("env", "p"); ("cluster", "c1")]).
Definition sample_pod_alert (extra : list (string * string)) : Metric :=
  list_to_map ([("namespace", "shop"); ("pod", "web-0"); ("node", "n1")] ++ extra).

Lemma resolveOneAlert_scan_witness :
  let r := sample_alert_resolver in
  let idx := newAlertIndex sample_alert_nodes (Some r) ∅ in
  resolveOneAlert (sample_pod_alert []) idx r = resolve_scan sample_alert_nodes r ∅ (sample_pod_alert []) ∧
  resolveOneAlert (sample_pod_alert []) idx r = Ambiguous ∧
  resolveOneAlert (sample_pod_alert [("az", "b"); ("env", "p")]) idx r = Matched "c2/u2" ∧
  resolveOneAlert (sample_pod_alert [("cluster", "c1")]) idx r = Matched "a-p-c1/u1" ∧
  resolveOneAlert (list_to_map [("node", "n1")]) idx r = Matched "c2/n1".
Proof.
  split_and!; [|by vm_compute..].
  apply resolveOneAlert_scan. intros n Hn.
  repeat (apply elem_of_cons in Hn as [->|Hn]; [done|]). by apply elem_of_nil in Hn.
Defined.
