(* ===== verification/NetApp.v ===== *)
(** pkg/build/netapp.go: the three-hop storage join over the Harvest vectors.

    Hop A (volume_labels) places each claim on an aggregate and an SVM, hop B
    (the QoS workload families) measures it, hop C (the fixed policies) gives
    its declared ceiling; the inventory collects every NetApp entity any vector
    names. Maps Go ranges over in an unspecified order are traversed in one
    fixed order here; NetAppProps shows that the picks do not depend on it. *)

From S2P Require Import Prelude GoStrings Float64 GraphNode GraphEdge Selector PairScope Fanout.
From S2P Require Import Keyed RedMetrics BuildIdentity VolumeKey TopologyTypes.

(** [model.Metric.Fingerprint]: a parameter. *)
Class MetricFingerprint := fingerprint : Metric → Z.

(** pkg/build/netapp.go@16-25, [ioFamily] *)
Inductive ioFamily := ioReadOps | ioWriteOps | ioReadLat | ioWriteLat | ioReadData | ioWriteData.
#[export] Instance ioFamily_eq_dec : EqDecision ioFamily.
Proof. solve_decision. Defined.
#[export] Instance ioFamily_countable : Countable ioFamily.
Proof.
  refine (inj_countable'
    (λ f, match f with ioReadOps => 0 | ioWriteOps => 1 | ioReadLat => 2 | ioWriteLat => 3
                     | ioReadData => 4 | ioWriteData => 5 end)
    (λ n, match n with 0 => ioReadOps | 1 => ioWriteOps | 2 => ioReadLat | 3 => ioWriteLat
                     | 4 => ioReadData | _ => ioWriteData end) _). by intros [].
Defined.

(** pkg/build/netapp.go, [volumeLabelCandidate] *)
Record volumeLabelCandidate := mkVLC {
  vc_ontapCluster : string; vc_node : string; vc_aggr : string; vc_svm : string; vc_zone : zone;
}.
#[export] Instance volumeLabelCandidate_eq_dec : EqDecision volumeLabelCandidate.
Proof. solve_decision. Defined.

(** pkg/build/netapp.go@52-79, [qosCandidate] *)
Record qosCandidate := mkQosCandidate {
  qc_ontapCluster : string; qc_svm : string; qc_policyGroup : string; qc_lun : string;
  qc_volume : string; qc_family : ioFamily; qc_value : float64; qc_zone : zone; qc_series : Z;
}.

(** pkg/build/netapp.go@83-90, [qosCandidate.workload]: the key type is a
    tuple, as are the (ONTAP cluster, name) keys below. *)
Definition workload (c : qosCandidate) : string * string * string * string * ioFamily :=
  (qc_ontapCluster c, qc_svm c, qc_volume c, qc_lun c, qc_family c).

(** pkg/build/netapp.go, [nodeKeyOf] *)
Definition nodeKeyOf (m : Metric) : option (string * string) :=
  let oc := label_of m "cluster" in
  let node := label_of m "node" in
  if bool_decide (oc = "") || bool_decide (node = "") then None else Some (oc, node).

(** pkg/build/netapp.go, [aggrKeyOf] *)
Definition aggrKeyOf (m : Metric) : option (string * string) :=
  let oc := label_of m "cluster" in
  let aggr := label_of m "aggr" in
  if bool_decide (oc = "") || bool_decide (aggr = "") then None else Some (oc, aggr).

(** ** Attribute readers *)

(** pkg/build/netapp.go, [healthFromSamples] *)
Definition healthFromSamples (vals : list float64) : string :=
  if bool_decide (vals = []) then ""
  else if existsb (λ v, negb (feqb v (f_of_Z 1))) vals then HealthDegraded else HealthOnline.

(** The samples of each key, in vector order. *)
Definition values_by (key : Metric → option (string * string)) (vec : list Sample)
  : gmap (string * string) (list float64) :=
  fold_keyed (λ s, key (s_Metric s)) (λ o s, Some (default [] o ++ [s_Value s])) vec ∅.

(** pkg/build/netapp.go, [healthByAggr] *)
Definition healthByAggr (vec : list Sample) : gmap (string * string) string :=
  healthFromSamples <$> values_by aggrKeyOf vec.
(** pkg/build/netapp.go, [healthByNode] *)
Definition healthByNode (vec : list Sample) : gmap (string * string) string :=
  healthFromSamples <$> values_by nodeKeyOf vec.

(** The smallest value of each key: a stored value is replaced by a strictly
    smaller one. *)
Definition smallest_upd (o : option float64) (s : Sample) : option float64 :=
  match o with
  | None => Some (s_Value s)
  | Some v => if fltb (s_Value s) v then Some (s_Value s) else None
  end.
Definition smallest_by `{Countable K} (key : Metric → option K) (vec : list Sample) : gmap K float64 :=
  fold_keyed (λ s, key (s_Metric s)) smallest_upd vec ∅.

(** pkg/build/netapp.go, [usageByAggr]: [usage_of] merges the two figures. *)
Definition usage_of `{Countable K} (u c : gmap K float64) : gmap K UsageBytes :=
  merge (λ a b, match a, b with
                | None, None => None
                | _, _ => Some (mkUsageBytes a b)
                end) u c.
(** pkg/build/netapp.go, [usageByAggr] *)
Definition usageByAggr (used total : list Sample) : gmap (string * string) UsageBytes :=
  usage_of (smallest_by aggrKeyOf used) (smallest_by aggrKeyOf total).

(** pkg/build/netapp.go, [resolvePVCUsage] *)
Definition resolvePVCUsage (used capacity : list Sample) (mc : clusterResolver) : gmap pvcKey UsageBytes :=
  let key m := let claim := label_of m "persistentvolumeclaim" in
               if bool_decide (claim = "") then None
               else Some (mkPvcKey (identify mc m) (label_of m "namespace") claim) in
  usage_of (smallest_by key used) (smallest_by key capacity).

(** pkg/build/netapp.go@1204-1226, [hardwareByNode]: the fields one series
    contributes. *)
Definition hardware_upd (o : option Hardware) (s : Sample) : option Hardware :=
  let h := default (mkHardware "" "" "" "" "") o in
  let l := label_of (s_Metric s) in
  Some (mkHardware (pick_smallest (hw_Model h) (l "model")) (pick_smallest (hw_Serial h) (l "serial"))
          (pick_smallest (hw_Version h) (l "version")) (pick_smallest (hw_Vendor h) (l "vendor"))
          (pick_smallest (hw_Location h) (l "location"))).
(** pkg/build/netapp.go, [hardwareByNode] *)
Definition hardwareByNode (vec : list Sample) : gmap (string * string) Hardware :=
  omap (λ h, if Hardware_Empty h then None else Some h)
    (fold_keyed (λ s, nodeKeyOf (s_Metric s)) hardware_upd vec ∅).

(** pkg/build/netapp.go, [perfByNode]: a counter no series carries stays
    absent. *)
Definition perfByNode (v : topologyVectors) : gmap (string * string) NodePerf :=
  let leg vec := smallest_by nodeKeyOf vec in
  let cpu := leg (v_NetAppNodeCPUBusy v) in
  let ops := leg (v_NetAppNodeTotalOps v) in
  let lat := leg (v_NetAppNodeTotalLatency v) in
  let dat := leg (v_NetAppNodeTotalData v) in
  set_to_map (λ k, (k, mkNodePerf (cpu !! k) (ops !! k) (lat !! k) (dat !! k)))
    (dom cpu ∪ dom ops ∪ dom lat ∪ dom dat : gset (string * string)).

(** ** Picks over one claim's candidates *)

(** pkg/build/netapp.go, [pickAggr]: the smallest (ONTAP cluster, aggregate). *)
Definition pickAggr (cands : list volumeLabelCandidate) : string * string :=
  fold_left (λ '(oc, aggr) c,
    if bool_decide (vc_aggr c = "") || bool_decide (vc_ontapCluster c = "") then (oc, aggr)
    else if bool_decide (oc = "") || str_lt (vc_ontapCluster c) oc ||
            (bool_decide (vc_ontapCluster c = oc) && str_lt (vc_aggr c) aggr)
         then (vc_ontapCluster c, vc_aggr c) else (oc, aggr)) cands ("", "").

(** pkg/build/netapp.go, [pickOwner] *)
Definition pickOwner (cands : list volumeLabelCandidate) (oc aggr : string) : string :=
  fold_left (λ node c,
    if negb (bool_decide (vc_ontapCluster c = oc)) || negb (bool_decide (vc_aggr c = aggr)) ||
       bool_decide (vc_node c = "") then node
    else if bool_decide (node = "") || str_lt (vc_node c) node then vc_node c else node) cands "".

(** pkg/build/netapp.go, [pickSVM]: the (ONTAP cluster, SVM) pick. *)
Definition pickSVM (cands : list volumeLabelCandidate) (oc : string) : string * string :=
  fold_left (λ '(svmOC, svm) c,
    if bool_decide (vc_svm c = "") ||
       (negb (bool_decide (oc = "")) && negb (bool_decide (vc_ontapCluster c = oc)))
    then (svmOC, svm)
    else if bool_decide (svm = "") || str_lt (vc_svm c) svm then (vc_ontapCluster c, vc_svm c)
    else if bool_decide (vc_svm c = svm) && str_lt (vc_ontapCluster c) svmOC
         then (vc_ontapCluster c, svm) else (svmOC, svm)) cands ("", "").

(** pkg/build/netapp.go, [qosInScope] *)
Definition qosInScope (c : qosCandidate) (oc svm : string) : bool :=
  bool_decide (qc_ontapCluster c = oc) &&
  (bool_decide (svm = "") || bool_decide (qc_svm c = "") || bool_decide (qc_svm c = svm)).

(** The zone chosen for each in-scope workload. *)
Definition choose_zone (claim : zone) (o : option zone) (c : qosCandidate) : option zone :=
  match o with
  | None => Some (qc_zone c)
  | Some z => if prefers claim (qc_zone c) z then Some (qc_zone c) else None
  end.

(** pkg/build/netapp.go, [preferQoSZone] *)
Definition preferQoSZone (cands : list qosCandidate) (claim : zone) (oc svm : string) : list qosCandidate :=
  let chosen : gmap (string * string * string * string * ioFamily) zone :=
    fold_keyed (λ c, if qosInScope c oc svm then Some (workload c) else None)
               (choose_zone claim) cands ∅ in
  filter (λ c, chosen !! workload c = Some (qc_zone c)) cands.

(** pkg/build/netapp.go@836-843, [indexPolicyCeilings]: the key of a
    fixed-policy series. *)
Definition policyKeyOf (m : Metric) : option (string * string * string) :=
  let oc := label_of m "cluster" in
  let svm := label_of m "svm" in
  let name := label_of m "name" in
  let policy := if bool_decide (name = "") then label_of m "policy_group" else name in
  if bool_decide (oc = "") || bool_decide (svm = "") || bool_decide (policy = "")
  then None else Some (oc, svm, policy).

Definition bytesPerMB : float64 := f_of_Z 1048576.

(** pkg/build/netapp.go, [indexPolicyCeilings]: (max IOPS, max bytes/s). *)
Definition indexPolicyCeilings (maxIOPS maxMBps : list Sample)
  : gmap (string * string * string) (option float64 * option float64) :=
  merge (λ i b, match i, b with
                | None, None => None
                | _, _ => Some (i, (λ v, fmul v bytesPerMB) <$> b)
                end)
    (smallest_by policyKeyOf maxIOPS) (smallest_by policyKeyOf maxMBps).

(** pkg/build/netapp.go, [pickPolicy] *)
Definition pickPolicy {V} (cands : list qosCandidate) (index : gmap (string * string * string) V)
  (oc svm : string) : string :=
  let '(resolving, any) := fold_left (λ '(resolving, any) c,
    let p := qc_policyGroup c in
    if bool_decide (p = "") then (resolving, any) else
    let any := if bool_decide (any = "") || str_lt p any then p else any in
    if bool_decide (index !! (oc, svm, p) = None) then (resolving, any)
    else (if bool_decide (resolving = "") || str_lt p resolving then p else resolving, any))
    cands ("", "") in
  if bool_decide (resolving = "") then any else resolving.

(** pkg/build/netapp.go, [resolveCeiling] *)
Definition resolveCeiling (cands : list qosCandidate)
  (index : gmap (string * string * string) (option float64 * option float64)) (oc svm : string)
  : option QoSCeiling :=
  if bool_decide (oc = "") || bool_decide (svm = "") then None else
  let policy := pickPolicy cands index oc svm in
  if bool_decide (policy = "") then None else
  match index !! (oc, svm, policy) with
  | Some (iops, bytes) =>
      if bool_decide (iops = None) && bool_decide (bytes = None) then None
      else Some (mkQoSCeiling policy iops bytes)
  | None => None
  end.

(** pkg/build/netapp.go, [applyCeiling] *)
Definition applyCeiling (io : IOMetrics) (c : option QoSCeiling) : IOMetrics :=
  match c with
  | None => io
  | Some c =>
      mkIOMetrics (ReadOps io) (WriteOps io) (ReadLatencyUs io) (WriteLatencyUs io)
        (ReadBytesPerSec io) (WriteBytesPerSec io)
        (match qos_MaxIOPS c with Some v => Some v | None => MaxIOPS io end)
        (match qos_MaxBytesPerSec c with Some v => Some v | None => MaxBytesPerSec io end)
        (ReadOpsDelta io) (WriteOpsDelta io) (ReadLatencyUsDelta io) (WriteLatencyUsDelta io)
        (ReadBytesPerSecDelta io) (WriteBytesPerSecDelta io)
  end.

(** pkg/build/netapp.go, [sumIOFamily] *)
Definition sumIOFamily (vals : list float64) : option float64 :=
  if bool_decide (vals = []) then None else Some (sumAscending vals).

(** The volume-level values of one family. *)
Definition family_values (f : ioFamily) (cands : list qosCandidate) : list float64 :=
  map qc_value (filter (λ c, qc_lun c = "" ∧ qc_family c = f) cands).

(** pkg/build/netapp.go, [sumQoSIO] *)
Definition sumQoSIO (cands : list qosCandidate) : option IOMetrics :=
  let fam f := family_values f cands in
  if bool_decide (fam ioReadOps = []) && bool_decide (fam ioWriteOps = []) &&
     bool_decide (fam ioReadLat = []) && bool_decide (fam ioWriteLat = []) &&
     bool_decide (fam ioReadData = []) && bool_decide (fam ioWriteData = [])
  then None
  else Some (mkIOMetrics (sumIOFamily (fam ioReadOps)) (sumIOFamily (fam ioWriteOps))
               (sumIOFamily (fam ioReadLat)) (sumIOFamily (fam ioWriteLat))
               (sumIOFamily (fam ioReadData)) (sumIOFamily (fam ioWriteData))
               None None None None None None None None).

(** A delta is attached only beside its measurement. *)
Definition delta_field (measured delta cur : option float64) : option float64 :=
  if bool_decide (measured = None) then cur else delta.

(** pkg/build/netapp.go, [applyDelta] *)
Definition applyDelta (io : IOMetrics) (delta : option IOMetrics) : IOMetrics :=
  match delta with
  | None => io
  | Some d =>
      mkIOMetrics (ReadOps io) (WriteOps io) (ReadLatencyUs io) (WriteLatencyUs io)
        (ReadBytesPerSec io) (WriteBytesPerSec io) (MaxIOPS io) (MaxBytesPerSec io)
        (delta_field (ReadOps io) (ReadOps d) (ReadOpsDelta io))
        (delta_field (WriteOps io) (WriteOps d) (WriteOpsDelta io))
        (delta_field (ReadLatencyUs io) (ReadLatencyUs d) (ReadLatencyUsDelta io))
        (delta_field (WriteLatencyUs io) (WriteLatencyUs d) (WriteLatencyUsDelta io))
        (delta_field (ReadBytesPerSec io) (ReadBytesPerSec d) (ReadBytesPerSecDelta io))
        (delta_field (WriteBytesPerSec io) (WriteBytesPerSec d) (WriteBytesPerSecDelta io))
  end.

(** ** The QoS indexes *)

Section qos_index.
Context `{MetricFingerprint}.

(** pkg/build/netapp.go, [seriesFingerprint] *)
Definition seriesFingerprint (m : Metric) : Z := fingerprint (delete "__name__" m).

(** pkg/build/netapp.go@678-697, [indexQoSFamily]: one row. *)
Definition qos_candidate (fam : ioFamily) (keys : LabelKeys) (withSeries : bool) (s : Sample)
  : qosCandidate :=
  let l := label_of (s_Metric s) in
  mkQosCandidate (l "cluster") (l "svm") (l "policy_group") (l "lun") (l "volume") fam
    (s_Value s) (zoneOf (s_Metric s) keys).1
    (if withSeries then seriesFingerprint (s_Metric s) else 0%Z).

(** A Harvest row is indexed under its FlexVol when it names one and its filer. *)
Definition harvest_volume (m : Metric) : option string :=
  if bool_decide (label_of m "volume" = "") || bool_decide (label_of m "cluster" = "")
  then None else Some (label_of m "volume").

(** pkg/build/netapp.go, [indexQoSFamily] *)
Definition indexQoSFamily (dst : gmap string (list qosCandidate)) (vec : list Sample)
  (fam : ioFamily) (keys : LabelKeys) (withSeries : bool) : gmap string (list qosCandidate) :=
  fold_keyed (λ s, harvest_volume (s_Metric s))
    (λ o s, Some (default [] o ++ [qos_candidate fam keys withSeries s])) vec dst.

(** pkg/build/netapp.go@723-730, [qosCandidate.deltaGate] *)
Definition deltaGate (c : qosCandidate) : string * string * string * ioFamily :=
  (qc_ontapCluster c, qc_volume c, qc_lun c, qc_family c).

(** pkg/build/netapp.go, [seriesByGate] *)
Definition seriesByGate (rows : list qosCandidate)
  : gmap (string * string * string * ioFamily) (gset Z) :=
  fold_keyed (λ c, Some (deltaGate c)) (λ o c, Some ({[qc_series c]} ∪ default ∅ o)) rows ∅.

(** pkg/build/netapp.go, [keepUnchangedDeltaRows] *)
Definition keepUnchangedDeltaRows (delta measured : gmap string (list qosCandidate))
  : gmap string (list qosCandidate) :=
  map_imap (λ vol rows,
    let want := seriesByGate (default [] (measured !! vol)) in
    let got := seriesByGate rows in
    match filter (λ c, default ∅ (want !! deltaGate c) = default ∅ (got !! deltaGate c)) rows with
    | [] => None
    | kept => Some kept
    end) delta.

(** pkg/build/netapp.go, [qosCandidatesFor] *)
Definition qosCandidatesFor (volumes : list string) (index : gmap string (list qosCandidate))
  : list qosCandidate :=
  concat (map (λ v, default [] (index !! v)) volumes).
End qos_index.

(** ** The inventory *)

(** pkg/build/netapp.go@160-164, [netappIndexes] *)
Record netappIndexes := mkNetappIndexes {
  aggrByKey : gmap (string * string) NetAppAggrNode;
  nodeByKey : gmap (string * string) NetAppNode;
  ni_inventory : NetAppInventory;
}.

(** Every candidate of every FlexVol. *)
Definition all_candidates (volIndex : gmap string (list volumeLabelCandidate)) : list volumeLabelCandidate :=
  concat ((map_to_list volIndex).*2).

(** The controllers, aggregates and SVMs named by the volume index. *)
Definition named (f : volumeLabelCandidate → string) (cands : list volumeLabelCandidate)
  : gset (string * string) :=
  list_to_set (map (λ c, (vc_ontapCluster c, f c))
    (filter (λ c, vc_ontapCluster c ≠ "" ∧ f c ≠ "") cands)).

(** pkg/build/netapp.go@581-586, [buildNetAppIndexes]: what an aggregate gauge
    says of the owner. *)
Definition gauge_owner_upd (o : option string) (s : Sample) : option string :=
  let node := label_of (s_Metric s) "node" in
  if bool_decide (node = "") then None
  else match o with
       | None => Some node
       | Some cur => if str_lt node cur then Some node else None
       end.

(** pkg/build/netapp.go@518-518, [buildNetAppIndexes]: the aggregate-scoped
    vectors. *)
Definition aggr_legs (v : topologyVectors) : list Sample :=
  v_AggrStatus v ++ v_AggrSpaceUsed v ++ v_AggrSpaceTotal v.
(** pkg/build/netapp.go@553-557, [buildNetAppIndexes]: the controller-scoped
    vectors. *)
Definition node_legs (v : topologyVectors) : list Sample :=
  v_NetAppNodeStatus v ++ v_NetAppNodeLabels v ++ v_NetAppNodeCPUBusy v ++
  v_NetAppNodeTotalOps v ++ v_NetAppNodeTotalLatency v ++ v_NetAppNodeTotalData v.

(** pkg/build/netapp.go@605-624, [buildNetAppIndexes]: one aggregate's node. *)
Definition aggr_node (owner : string) (health : string) (usage : option UsageBytes) (k : string * string)
  : NetAppAggrNode :=
  let ls : labels := {[ "ontap_cluster" := k.1 ]} in
  mkNetAppAggrNode (NetAppAggrID k.1 k.2) k.2
    (if bool_decide (owner = "") then ls else <["node" := owner]> ls) health usage [] "".

(** pkg/build/netapp.go, [sortByID] *)
Definition sortByID {N} (id : N → string) (nodes : list N) : list N :=
  sort_func (on_key id String.compare) nodes.

(** pkg/build/netapp.go@529-588, [buildNetAppIndexes]: the controllers any
    vector names. *)
Definition inventory_nodes (cands : list volumeLabelCandidate) (v : topologyVectors)
  : gset (string * string) :=
  named vc_node cands ∪
  list_to_set (omap (λ s, nodeKeyOf (s_Metric s)) (node_legs v)) ∪
  list_to_set (omap (λ s, match aggrKeyOf (s_Metric s) with
                          | Some (oc, _) =>
                              if bool_decide (label_of (s_Metric s) "node" = "") then None
                              else Some (oc, label_of (s_Metric s) "node")
                          | None => None
                          end) (aggr_legs v)).

(** pkg/build/netapp.go@530-588, [buildNetAppIndexes]: the aggregates any vector
    names. *)
Definition inventory_aggrs (cands : list volumeLabelCandidate) (v : topologyVectors)
  : gset (string * string) :=
  named vc_aggr cands ∪ list_to_set (omap (λ s, aggrKeyOf (s_Metric s)) (aggr_legs v)).

(** pkg/build/netapp.go@611-614, [buildNetAppIndexes]: the volume vote, else
    the gauges' own statement. *)
Definition aggr_owner (allByAggr : gmap (string * string) (list volumeLabelCandidate))
  (v : topologyVectors) (k : string * string) : string :=
  let o := pickOwner (default [] (allByAggr !! k)) k.1 k.2 in
  if bool_decide (o = "")
  then default "" (fold_keyed (λ s, aggrKeyOf (s_Metric s)) gauge_owner_upd (aggr_legs v) ∅ !! k)
  else o.

(** pkg/build/netapp.go@595-602, [buildNetAppIndexes]: one controller's node. *)
Definition inventory_node (v : topologyVectors) (k : string * string) : NetAppNode :=
  mkNetAppNode (NetAppNodeID k.1 k.2) k.2 {[ "ontap_cluster" := k.1 ]}
    (default "" (healthByNode (v_NetAppNodeStatus v) !! k))
    (hardwareByNode (v_NetAppNodeLabels v) !! k) (perfByNode v !! k) [] "".

(** One aggregate's node, with its attributes. *)
Definition inventory_aggr (allByAggr : gmap (string * string) (list volumeLabelCandidate))
  (v : topologyVectors) (k : string * string) : NetAppAggrNode :=
  aggr_node (aggr_owner allByAggr v k) (default "" (healthByAggr (v_AggrStatus v) !! k))
    (usageByAggr (v_AggrSpaceUsed v) (v_AggrSpaceTotal v) !! k) k.

(** pkg/build/netapp.go@639-643, [buildNetAppIndexes]: one SVM's node. *)
Definition inventory_svm (k : string * string) : NetAppSVMNode :=
  mkNetAppSVMNode (NetAppSVMID k.1 k.2) k.2 {[ "ontap_cluster" := k.1 ]}.

(** pkg/build/netapp.go@518-649, [buildNetAppIndexes] *)
Definition buildNetAppIndexes (volIndex : gmap string (list volumeLabelCandidate))
  (allByAggr : gmap (string * string) (list volumeLabelCandidate)) (v : topologyVectors)
  : netappIndexes :=
  let cands := all_candidates volIndex in
  let nodes := inventory_nodes cands v in
  let aggrs := inventory_aggrs cands v in
  mkNetappIndexes
    (set_to_map (λ k, (k, inventory_aggr allByAggr v k)) aggrs)
    (set_to_map (λ k, (k, inventory_node v k)) nodes)
    (mkInventory (sortByID ctrl_ID (map (inventory_node v) (elements nodes)))
                 (sortByID aggr_ID (map (inventory_aggr allByAggr v) (elements aggrs)))
                 (sortByID svm_ID (map inventory_svm (elements (named vc_svm cands))))).

(** ** The join *)

(** A FlexVol a claim's token matched. *)
Record claimMatch := mkClaimMatch { m_cand : volumeLabelCandidate; m_vol : string; m_agrees : bool }.

Section join.
Context `{EdgeUUID, MetricFingerprint}.

(** pkg/build/netapp.go@246-253, [resolveNetAppStorage]: hop A's candidate. *)
Definition label_candidate (keys : LabelKeys) (s : Sample) : volumeLabelCandidate :=
  let l := label_of (s_Metric s) in
  mkVLC (l "cluster") (l "node") (l "aggr") (l "svm") (zoneOf (s_Metric s) keys).1.

(** pkg/build/netapp.go@241-263, [resolveNetAppStorage]: the pass over
    volume_labels: the volume index and every claim's matches. *)
Definition volume_step (keys : LabelKeys) (claims : list pvcVolume) (matcher : volumeMatcher)
  (st : gmap string (list volumeLabelCandidate) * gmap nat (list claimMatch)) (s : Sample)
  : gmap string (list volumeLabelCandidate) * gmap nat (list claimMatch) :=
  let '(volIndex, byClaim) := st in
  match harvest_volume (s_Metric s) with
  | None => st
  | Some vol =>
      let cand := label_candidate keys s in
      (<[vol := default [] (volIndex !! vol) ++ [cand]]> volIndex,
       fold_left (λ bc ci,
         match claims !! ci with
         | None => bc
         | Some c => <[ci := default [] (bc !! ci) ++
                         [mkClaimMatch cand vol (zonesAgree (pv_zone c) (vc_zone cand))]]> bc
         end) (vm_match matcher vol) byClaim)
  end.

(** pkg/build/netapp.go@264-290, [resolveNetAppStorage]: a claim keeps its
    agreeing matches when it has any; its candidates and the FlexVol names it
    matched, sorted. *)
Definition claim_candidates (matches : list claimMatch) : list volumeLabelCandidate * list string :=
  let prefer := existsb m_agrees matches in
  let kept := filter (λ m, prefer = true → m_agrees m = true) matches in
  (map m_cand kept, sort_func String.compare (keep_first ∅ (map m_vol kept))).

(** pkg/build/netapp.go@351-354, [resolveNetAppStorage] *)
Record joinHit := mkJoinHit { hit_oc : string; hit_aggr : string; hit_io : option IOMetrics }.

(** What one claim contributes. *)
Record claimResult := mkClaimResult {
  cr_svm : option SVMRef; cr_ceiling : option QoSCeiling; cr_hit : option joinHit;
}.

(** pkg/build/netapp.go@358-415, [resolveNetAppStorage]: the body of the loop
    over the claims; the coverage counters only feed warnings. *)
Definition resolve_claim (qosIndex deltaIndex : gmap string (list qosCandidate))
  (policyIndex : gmap (string * string * string) (option float64 * option float64))
  (c : pvcVolume) (matches : list claimMatch) : claimResult :=
  let '(cands, vols) := claim_candidates matches in
  let '(oc, aggr) := pickAggr cands in
  let '(svmOC, svm) := pickSVM cands oc in
  let keyOC := if bool_decide (oc = "") then svmOC else oc in
  let qcands := preferQoSZone (qosCandidatesFor vols qosIndex) (pv_zone c) keyOC svm in
  let ceiling := resolveCeiling qcands policyIndex keyOC svm in
  let hit :=
    if bool_decide (oc = "") || bool_decide (aggr = "") then None
    else Some (mkJoinHit oc aggr
      (match sumQoSIO qcands with
       | None => None
       | Some io =>
           let io := applyCeiling io ceiling in
           Some (if bool_decide (deltaIndex = ∅) then io
                 else applyDelta io (sumQoSIO (preferQoSZone (qosCandidatesFor vols deltaIndex)
                                                (pv_zone c) keyOC svm)))
       end)) in
  mkClaimResult (if bool_decide (svm = "") then None else Some (mkSVMRef svmOC svm)) ceiling hit.

(** pkg/build/netapp.go, [netappResult] *)
Record netappResult := mkNetappResult {
  svmByPVC : gmap string SVMRef;
  qosByPVC : gmap string QoSCeiling;
  nr_aggrs : list NetAppAggrNode;
  nr_nodes : list NetAppNode;
  nr_edges : list Edge;
  nr_inventory : NetAppInventory;
}.

(** The six measurement families, in the order they are indexed. *)
Definition qos_families (v : topologyVectors) : list (ioFamily * list Sample) :=
  [(ioReadOps, v_QoSReadOps v); (ioWriteOps, v_QoSWriteOps v); (ioReadLat, v_QoSReadLatency v);
   (ioWriteLat, v_QoSWriteLatency v); (ioReadData, v_QoSReadData v); (ioWriteData, v_QoSWriteData v)].
Definition delta_families (v : topologyVectors) : list (ioFamily * list Sample) :=
  [(ioReadOps, v_QoSReadOpsDelta v); (ioWriteOps, v_QoSWriteOpsDelta v);
   (ioReadLat, v_QoSReadLatencyDelta v); (ioWriteLat, v_QoSWriteLatencyDelta v);
   (ioReadData, v_QoSReadDataDelta v); (ioWriteData, v_QoSWriteDataDelta v)].

Definition index_families (keys : LabelKeys) (withSeries : bool) (fams : list (ioFamily * list Sample))
  : gmap string (list qosCandidate) :=
  fold_left (λ dst '(f, vec), indexQoSFamily dst vec f keys withSeries) fams ∅.

(** pkg/build/netapp.go@426-435, [resolveNetAppStorage]: the candidates an
    aggregate's owner vote runs over. *)
Definition candidates_by_aggr (volIndex : gmap string (list volumeLabelCandidate))
  : gmap (string * string) (list volumeLabelCandidate) :=
  fold_keyed (λ c, if bool_decide (vc_aggr c = "") || bool_decide (vc_ontapCluster c = "") then None
                   else Some (vc_ontapCluster c, vc_aggr c))
    (λ o c, Some (default [] o ++ [c])) (all_candidates volIndex) ∅.

(** pkg/build/netapp.go@482-500, [resolveNetAppStorage]: the edges, one per
    (claim, aggregate). *)
Fixpoint join_edges (hits : gmap string joinHit) (seen : gset (string * string)) (claims : list pvcVolume)
  : list Edge :=
  match claims with
  | [] => []
  | c :: rest =>
      match hits !! pv_id c with
      | None => join_edges hits seen rest
      | Some hit =>
          let target := NetAppAggrID (hit_oc hit) (hit_aggr hit) in
          if bool_decide ((pv_id c, target) ∈ seen) then join_edges hits seen rest
          else let e := NewEdge EdgeTypePVCToNetAppAggr (pv_id c) target ∅ in
               let e := match hit_io hit with
                        | None => e
                        | Some io => default e (WithIO (Some e) io)
                        end in
               e :: join_edges hits ({[ (pv_id c, target) ]} ∪ seen) rest
      end
  end.

(** The pass over volume_labels. *)
Definition scan_volumes (keys : LabelKeys) (rw : VolumeKeyRewriter) (claims : list pvcVolume)
  (vec : list Sample) : gmap string (list volumeLabelCandidate) * gmap nat (list claimMatch) :=
  fold_left (volume_step keys claims (newVolumeMatcher rw claims)) vec (∅, ∅).

(** A map a claim writes at its id when it resolved a value. *)
Definition collect {V} (f : claimResult → option V) (results : list (string * claimResult))
  : gmap string V :=
  fold_left (λ m '(id, r), match f r with Some x => <[id := x]> m | None => m end) results ∅.

(** pkg/build/netapp.go@298-306, [resolveNetAppStorage]: the measurement index
    and the gated delta index. *)
Definition measured_index (keys : LabelKeys) (v : topologyVectors) : gmap string (list qosCandidate) :=
  index_families keys (existsb (λ '(_, vec), negb (bool_decide (vec = []))) (delta_families v))
    (qos_families v).
Definition delta_index (keys : LabelKeys) (v : topologyVectors) : gmap string (list qosCandidate) :=
  keepUnchangedDeltaRows (index_families keys true (delta_families v)) (measured_index keys v).

(** pkg/build/netapp.go@358-415, [resolveNetAppStorage]: the loop over the
    claims. *)
Definition claim_results (keys : LabelKeys) (rw : VolumeKeyRewriter) (claims : list pvcVolume)
  (v : topologyVectors) : list (string * claimResult) :=
  let byClaim := (scan_volumes keys rw claims (v_VolumeLabels v)).2 in
  let policyIndex := indexPolicyCeilings (v_QoSPolicyMaxIOPS v) (v_QoSPolicyMaxMBps v) in
  let qosIndex := measured_index keys v in
  let deltaIndex := delta_index keys v in
  imap (λ i c, (pv_id c, resolve_claim qosIndex deltaIndex policyIndex c (default [] (byClaim !! i))))
       claims.

(** pkg/build/netapp.go@452-457, [resolveNetAppStorage]: the aggregates claims
    landed on. *)
Definition joined_aggrs (idx : netappIndexes) (hits : gmap string joinHit)
  : gmap (string * string) NetAppAggrNode :=
  list_to_map (omap (λ h, (λ a, ((hit_oc h, hit_aggr h), a)) <$> aggrByKey idx !! (hit_oc h, hit_aggr h))
                    ((map_to_list hits).*2)).

(** pkg/build/netapp.go@213-213, [resolveNetAppStorage]: and their owners. *)
Definition owner_key (a : NetAppAggrNode) : string * string :=
  (lget (aggr_Labels a) "ontap_cluster", lget (aggr_Labels a) "node").
Definition joined_nodes (idx : netappIndexes) (aggrs : list NetAppAggrNode)
  : gmap (string * string) NetAppNode :=
  list_to_map (omap (λ a, if bool_decide ((owner_key a).1 = "") || bool_decide ((owner_key a).2 = "")
                          then None
                          else (λ n, (owner_key a, n)) <$> nodeByKey idx !! owner_key a) aggrs).

(** pkg/build/netapp.go@213-502, [resolveNetAppStorage] *)
Definition resolveNetAppStorage (rw : VolumeKeyRewriter) (claims : list pvcVolume)
  (v : topologyVectors) (keys : LabelKeys) : netappResult :=
  let keys := OrDefault keys in
  let volIndex := (scan_volumes keys rw claims (v_VolumeLabels v)).1 in
  let results := claim_results keys rw claims v in
  let hits := collect cr_hit results in
  let idx := buildNetAppIndexes volIndex (candidates_by_aggr volIndex) v in
  let aggrSeen := (map_to_list (joined_aggrs idx hits)).*2 in
  let nodeSeen := (map_to_list (joined_nodes idx aggrSeen)).*2 in
  mkNetappResult (collect cr_svm results) (collect cr_ceiling results)
    (sortByID aggr_ID aggrSeen) (sortByID ctrl_ID nodeSeen)
    (SortEdges (join_edges hits ∅ claims)) (ni_inventory idx).
End join.
