(* ===== verification/NetAppLemmas.v ===== *)
(** Lemmas about the NetApp join: every pick is the least of the usable
    candidates under a total order, so it is a function of their set; the
    indexes are functions of the multisets of their rows. *)

From S2P Require Import Prelude GoStrings Float64 GraphNode GraphEdge Selector PairScope Fanout.
From S2P Require Import Keyed RedMetrics BuildIdentity VolumeKey TopologyTypes NetApp.

(** ** Picks *)

Lemma str_lt_iff a b : str_lt a b = true ↔ String.compare a b = Lt.
Proof. unfold str_lt. by rewrite bool_decide_eq_true. Qed.

Lemma omap_snoc {A B} (f : A → option B) (l : list A) x :
  omap f (l ++ [x]) = omap f l ++ match f x with Some y => [y] | None => [] end.
Proof. by rewrite omap_app. Qed.

(** Keep a value unless the new one is strictly smaller, ["" ] standing for no
    value yet. *)
Lemma smallest_string_fold {A} (f : A → option string) (step : string → A → string) (l : list A) :
  (∀ x v, f x = Some v → v ≠ "") →
  (∀ cur x, f x = None → step cur x = cur) →
  (∀ cur x v, f x = Some v →
     step cur x = if bool_decide (cur = "") || str_lt v cur then v else cur) →
  fold_left step l "" = default "" (least String.compare (omap f l)).
Proof.
  intros Hne Hnone Hsome. induction l as [|x l IH] using rev_ind; [done|].
  rewrite fold_left_app, IH, omap_snoc. cbn [fold_left].
  destruct (f x) as [v|] eqn:Ef; [|by rewrite Hnone, app_nil_r].
  rewrite (Hsome _ _ v) by done. rewrite least_snoc.
  destruct (least String.compare (omap f l)) as [y|] eqn:El; cbn [default from_option]; [|done].
  change (id y) with y.
  assert (y ≠ "") as Hy.
  { apply least_Some in El as [Hin _]; [|apply _]. apply list_elem_of_omap in Hin as (z & _ & Hz).
    by eapply Hne. }
  rewrite bool_decide_eq_false_2 by done. cbn [orb]. unfold least_step, keep_least, str_lt.
  by case_bool_decide.
Qed.

Definition usable_aggr (c : volumeLabelCandidate) : option (string * string) :=
  if bool_decide (vc_aggr c = "") || bool_decide (vc_ontapCluster c = "") then None
  else Some (vc_ontapCluster c, vc_aggr c).

Lemma pickAggr_least cands :
  pickAggr cands = default ("", "") (least (cmp_pair String.compare String.compare) (omap usable_aggr cands)).
Proof.
  unfold pickAggr. induction cands as [|c l IH] using rev_ind; [done|].
  rewrite fold_left_app, omap_snoc, IH. cbn [fold_left].
  assert (usable_aggr c = if bool_decide (vc_aggr c = "") || bool_decide (vc_ontapCluster c = "")
    then None else Some (vc_ontapCluster c, vc_aggr c)) as -> by done.
  destruct (bool_decide (vc_aggr c = "") || bool_decide (vc_ontapCluster c = "")) eqn:Eu.
  { rewrite app_nil_r. destruct (default _ _). by rewrite Eu. }
  rewrite least_snoc.
  destruct (least _ (omap usable_aggr l)) as [[oc aggr]|] eqn:El; cbn [default from_option];
    [|by rewrite Eu].
  change (id (oc, aggr)) with (oc, aggr). cbn [fst snd]. rewrite Eu.
  assert (oc ≠ "") as Hoc.
  { apply least_Some in El as [Hin _]; [|apply _]. apply list_elem_of_omap in Hin as (z & _ & Hz).
    unfold usable_aggr in Hz. destruct (_ || _) eqn:E; [done|]. injection Hz as <- _.
    apply orb_false_iff in E as [_ E]. by apply bool_decide_eq_false in E. }
  rewrite bool_decide_eq_false_2 by done. cbn [orb].
  unfold least_step, keep_least, cmp_pair, cmp_lex, on_key, str_lt. cbn [fst snd].
  destruct (String.compare (vc_ontapCluster c) oc) eqn:Ec; cbn [cmp_or].
  - apply (gcs_eq (c:=String.compare)) in Ec as <-.
    rewrite (bool_decide_eq_false_2 (Eq = Lt)), (bool_decide_eq_true_2 (vc_ontapCluster c = _)) by done.
    cbn [orb andb]. by destruct (bool_decide (_ = Lt)).
  - by rewrite !(bool_decide_eq_true_2 (Lt = Lt)).
  - rewrite !(bool_decide_eq_false_2 (Gt = Lt)) by done. cbn.
    rewrite bool_decide_eq_false_2; [done|]. intros Heq. rewrite Heq in Ec.
    by rewrite (gc_refl String.compare) in Ec.
Qed.

(** The cluster and the aggregate resolve together. *)
Lemma pickAggr_in cands oc aggr :
  pickAggr cands = (oc, aggr) → (oc ≠ "" ∨ aggr ≠ "") →
  oc ≠ "" ∧ aggr ≠ "" ∧ ∃ c, c ∈ cands ∧ vc_ontapCluster c = oc ∧ vc_aggr c = aggr.
Proof.
  rewrite pickAggr_least. destruct (least _ _) as [p|] eqn:El; cbn; [|intros [= <- <-]; naive_solver].
  intros -> _. apply least_Some in El as [Hin _]; [|apply _].
  apply list_elem_of_omap in Hin as (c & Hc & Hu). unfold usable_aggr in Hu.
  destruct (_ || _) eqn:E; [done|]. injection Hu as <- <-.
  apply orb_false_iff in E as [E1 E2]. apply bool_decide_eq_false in E1, E2. eauto 10.
Qed.

Lemma pickAggr_ext c1 c2 : (∀ c, c ∈ c1 ↔ c ∈ c2) → pickAggr c1 = pickAggr c2.
Proof.
  intros H. rewrite !pickAggr_least. f_equal. apply (least_ext _).
  intros x. rewrite !list_elem_of_omap. by setoid_rewrite H.
Qed.

Definition owner_vote (oc aggr : string) (c : volumeLabelCandidate) : option string :=
  if negb (bool_decide (vc_ontapCluster c = oc)) || negb (bool_decide (vc_aggr c = aggr)) ||
     bool_decide (vc_node c = "") then None else Some (vc_node c).

Lemma pickOwner_least cands oc aggr :
  pickOwner cands oc aggr = default "" (least String.compare (omap (owner_vote oc aggr) cands)).
Proof.
  unfold pickOwner. apply smallest_string_fold; unfold owner_vote.
  - intros x v. destruct (_ || _) eqn:E; [done|]. intros [= <-].
    apply orb_false_iff in E as [_ E]. by apply bool_decide_eq_false in E.
  - intros cur x. by destruct (_ || _).
  - intros cur x v. destruct (_ || _); [done|]. by intros [= <-].
Qed.

Lemma pickOwner_ext c1 c2 oc aggr :
  (∀ c, c ∈ c1 ↔ c ∈ c2) → pickOwner c1 oc aggr = pickOwner c2 oc aggr.
Proof.
  intros H. rewrite !pickOwner_least. f_equal. apply (least_ext _).
  intros x. rewrite !list_elem_of_omap. by setoid_rewrite H.
Qed.

Lemma pickOwner_in cands oc aggr :
  pickOwner cands oc aggr ≠ "" →
  ∃ c, c ∈ cands ∧ vc_ontapCluster c = oc ∧ vc_aggr c = aggr ∧ vc_node c = pickOwner cands oc aggr.
Proof.
  rewrite pickOwner_least. destruct (least _ _) as [n|] eqn:El; cbn; [|done]. intros _.
  apply least_Some in El as [Hin _]; [|apply _]. apply list_elem_of_omap in Hin as (c & Hc & Hv).
  unfold owner_vote in Hv. destruct (_ || _) eqn:E; [done|]. injection Hv as Hv.
  apply orb_false_iff in E as [E _]. apply orb_false_iff in E as [E1 E2].
  apply negb_false_iff, bool_decide_eq_true in E1, E2. eauto.
Qed.

Definition svm_vote (oc : string) (c : volumeLabelCandidate) : option (string * string) :=
  if bool_decide (vc_svm c = "") ||
     (negb (bool_decide (oc = "")) && negb (bool_decide (vc_ontapCluster c = oc)))
  then None else Some (vc_svm c, vc_ontapCluster c).

Definition swap {A B} (p : A * B) : B * A := (p.2, p.1).

Lemma pickSVM_least cands oc :
  pickSVM cands oc =
  swap (default ("", "") (least (cmp_pair String.compare String.compare) (omap (svm_vote oc) cands))).
Proof.
  unfold pickSVM. induction cands as [|c l IH] using rev_ind; [done|].
  rewrite fold_left_app, omap_snoc, IH. cbn [fold_left].
  assert (svm_vote oc c = if bool_decide (vc_svm c = "") ||
     (negb (bool_decide (oc = "")) && negb (bool_decide (vc_ontapCluster c = oc)))
    then None else Some (vc_svm c, vc_ontapCluster c)) as -> by done.
  destruct (_ || (negb (bool_decide (oc = "")) && _)) eqn:Eu.
  { rewrite app_nil_r. destruct (swap _). by rewrite Eu. }
  rewrite least_snoc.
  destruct (least _ (omap (svm_vote oc) l)) as [[svm soc]|] eqn:El; cbn [default from_option];
    [|cbn; by rewrite Eu].
  change (id (svm, soc)) with (svm, soc). cbn [swap fst snd]. rewrite Eu.
  assert (svm ≠ "") as Hne.
  { apply least_Some in El as [Hin _]; [|apply _]. apply list_elem_of_omap in Hin as (z & _ & Hz).
    unfold svm_vote in Hz. destruct (_ || _) eqn:E in Hz; [done|]. injection Hz as <- _.
    apply orb_false_iff in E as [E _]. by apply bool_decide_eq_false in E. }
  rewrite bool_decide_eq_false_2 by done. cbn [orb].
  unfold least_step, keep_least, cmp_pair, cmp_lex, on_key, str_lt. cbn [fst snd].
  destruct (String.compare (vc_svm c) svm) eqn:Ec; cbn [cmp_or].
  - apply (gcs_eq (c:=String.compare)) in Ec as <-.
    rewrite (bool_decide_eq_false_2 (Eq = Lt)), (bool_decide_eq_true_2 (vc_svm c = _)) by done.
    cbn [orb andb]. by destruct (bool_decide (_ = Lt)).
  - by rewrite !(bool_decide_eq_true_2 (Lt = Lt)).
  - rewrite !(bool_decide_eq_false_2 (Gt = Lt)) by done.
    rewrite bool_decide_eq_false_2; [done|]. intros Heq. rewrite Heq in Ec.
    by rewrite (gc_refl String.compare) in Ec.
Qed.

Lemma pickSVM_ext c1 c2 oc : (∀ c, c ∈ c1 ↔ c ∈ c2) → pickSVM c1 oc = pickSVM c2 oc.
Proof.
  intros H. rewrite !pickSVM_least. f_equal. f_equal. apply (least_ext _).
  intros x. rewrite !list_elem_of_omap. by setoid_rewrite H.
Qed.

(** The policies a claim's workloads name, and those with a ceiling. *)
Definition policy_vote (c : qosCandidate) : option string :=
  if bool_decide (qc_policyGroup c = "") then None else Some (qc_policyGroup c).
Definition resolving_vote {V} (index : gmap (string * string * string) V) (oc svm : string)
  (c : qosCandidate) : option string :=
  if bool_decide (qc_policyGroup c = "") then None
  else if bool_decide (index !! (oc, svm, qc_policyGroup c) = None) then None
  else Some (qc_policyGroup c).

Lemma pickPolicy_least {V} (cands : list qosCandidate) (index : gmap (string * string * string) V) oc svm :
  pickPolicy cands index oc svm =
  match least String.compare (omap (resolving_vote index oc svm) cands) with
  | Some p => p
  | None => default "" (least String.compare (omap policy_vote cands))
  end.
Proof.
  set (step := λ '(resolving, any) c,
    let p := qc_policyGroup c in
    if bool_decide (p = "") then (resolving, any) else
    let any := if bool_decide (any = "") || str_lt p any then p else any in
    if bool_decide (index !! (oc, svm, p) = None) then (resolving, any)
    else (if bool_decide (resolving = "") || str_lt p resolving then p else resolving, any)).
  assert (∀ l r a, fold_left step l (r, a) =
    (fold_left (λ r c, if bool_decide (qc_policyGroup c = "") then r
                       else if bool_decide (index !! (oc, svm, qc_policyGroup c) = None) then r
                       else if bool_decide (r = "") || str_lt (qc_policyGroup c) r
                            then qc_policyGroup c else r) l r,
     fold_left (λ a c, if bool_decide (qc_policyGroup c = "") then a
                       else if bool_decide (a = "") || str_lt (qc_policyGroup c) a
                            then qc_policyGroup c else a) l a)) as Hsplit.
  { induction l as [|c l IH]; intros r a; [done|]. cbn [fold_left]. rewrite <- IH. f_equal.
    unfold step. destruct (bool_decide (qc_policyGroup c = "")); [done|].
    by destruct (bool_decide (index !! _ = None)). }
  unfold pickPolicy. fold step. rewrite Hsplit.
  rewrite (smallest_string_fold (resolving_vote index oc svm)); cycle 1.
  { intros x v. unfold resolving_vote. case_bool_decide; [done|]. case_bool_decide; naive_solver. }
  { intros cur x. unfold resolving_vote. case_bool_decide; [done|]. by case_bool_decide. }
  { intros cur x v. unfold resolving_vote. case_bool_decide; [done|]. case_bool_decide; [done|].
    by intros [= <-]. }
  rewrite (smallest_string_fold policy_vote); cycle 1.
  { intros x v. unfold policy_vote. case_bool_decide; naive_solver. }
  { intros cur x. unfold policy_vote. by case_bool_decide. }
  { intros cur x v. unfold policy_vote. case_bool_decide; [done|]. by intros [= <-]. }
  destruct (least _ (omap (resolving_vote index oc svm) cands)) as [p|] eqn:El; cbn; [|done].
  rewrite bool_decide_eq_false_2; [done|]. change (id p) with p.
  apply least_Some in El as [Hin _]; [|apply _]. apply list_elem_of_omap in Hin as (z & _ & Hz).
  unfold resolving_vote in Hz. case_bool_decide; [done|]. case_bool_decide; [done|]. congruence.
Qed.

Lemma pickPolicy_ext {V} (c1 c2 : list qosCandidate) (index : gmap (string * string * string) V) oc svm :
  (∀ c, c ∈ c1 ↔ c ∈ c2) → pickPolicy c1 index oc svm = pickPolicy c2 index oc svm.
Proof.
  intros H. rewrite !pickPolicy_least.
  rewrite (least_ext String.compare (omap (resolving_vote index oc svm) c1) (omap (resolving_vote index oc svm) c2)).
  2:{ intros x. rewrite !list_elem_of_omap. by setoid_rewrite H. }
  rewrite (least_ext String.compare (omap policy_vote c1) (omap policy_vote c2)); [done|].
  intros x. rewrite !list_elem_of_omap. by setoid_rewrite H.
Qed.

(** ** The zone of a workload *)

(** The order [prefers] decides. *)
Definition zone_pref (claim : zone) : zone → zone → comparison :=
  cmp_lex (on_key (rank claim) Nat.compare) zone_compare.

#[export] Instance zone_pref_strict claim : GoCmpStrict (zone_pref claim).
Proof.
  split; [unfold zone_pref; apply _|]. intros a b. unfold zone_pref. rewrite cmp_lex_eq.
  intros [_ H]. by apply (gcs_eq (c:=zone_compare)).
Qed.

Lemma prefers_pref claim a b : prefers claim a b = bool_decide (zone_pref claim a b = Lt).
Proof.
  unfold prefers, zone_pref, cmp_lex, on_key.
  destruct (Nat.compare_spec (rank claim a) (rank claim b)) as [He|Hl|Hg]; cbn [cmp_or].
  - by rewrite He, Nat.eqb_refl.
  - rewrite (proj2 (Nat.eqb_neq _ _)) by lia. cbn [negb].
    by rewrite bool_decide_eq_true_2, (proj2 (Nat.ltb_lt _ _)).
  - rewrite (proj2 (Nat.eqb_neq _ _)) by lia. cbn [negb].
    rewrite bool_decide_eq_false_2 by done. apply Nat.ltb_ge. lia.
Qed.

Lemma fold_keyed_ext {R V} `{Countable K} (key : R → option K) (u1 u2 : option V → R → option V)
  (l : list R) (m : gmap K V) :
  (∀ o r, u1 o r = u2 o r) → fold_keyed key u1 l m = fold_keyed key u2 l m.
Proof.
  intros Hu. unfold fold_keyed. revert m. induction l as [|r l IH]; intros m; [done|]. cbn.
  rewrite IH. f_equal. unfold keyed_step. destruct (key r); [|done]. by rewrite Hu.
Qed.

Definition scope_key (oc svm : string) (c : qosCandidate) :=
  if qosInScope c oc svm then Some (workload c) else None.

Definition chosen_zones (cands : list qosCandidate) (claim : zone) (oc svm : string) :=
  index_least (zone_pref claim) (scope_key oc svm) qc_zone cands.

Lemma preferQoSZone_filter cands claim oc svm :
  preferQoSZone cands claim oc svm =
  filter (λ c, chosen_zones cands claim oc svm !! workload c = Some (qc_zone c)) cands.
Proof.
  unfold preferQoSZone, chosen_zones, index_least, scope_key.
  rewrite (fold_keyed_ext _ (choose_zone claim)
             (λ o r, keep_least (zone_pref claim) o (qc_zone r))); [done|].
  intros [z|] r; [|done]. cbn. by rewrite prefers_pref.
Qed.

Lemma preferQoSZone_perm c1 c2 claim oc svm :
  c1 ≡ₚ c2 → preferQoSZone c1 claim oc svm ≡ₚ preferQoSZone c2 claim oc svm.
Proof.
  intros Hp. rewrite !preferQoSZone_filter.
  assert (chosen_zones c1 claim oc svm = chosen_zones c2 claim oc svm) as ->.
  { apply (index_least_ext _). intros r. by rewrite Hp. }
  by rewrite Hp.
Qed.

(** ** Sums and ceilings *)

Lemma sumIOFamily_perm l1 l2 : l1 ≡ₚ l2 → sumIOFamily l1 = sumIOFamily l2.
Proof.
  intros Hp. unfold sumIOFamily.
  rewrite (nil_perm_decide l1 l2) by (by apply Permutation_length).
  by rewrite (sumAscending_perm _ _ Hp).
Qed.

Lemma sumQoSIO_perm c1 c2 : c1 ≡ₚ c2 → sumQoSIO c1 = sumQoSIO c2.
Proof.
  intros Hp. assert (∀ f, family_values f c1 ≡ₚ family_values f c2) as Hf.
  { intros f. unfold family_values. by rewrite Hp. }
  assert (∀ f, bool_decide (family_values f c1 = []) = bool_decide (family_values f c2 = [])) as Hn.
  { intros f. by apply nil_perm_decide, Permutation_length. }
  assert (∀ f, sumIOFamily (family_values f c1) = sumIOFamily (family_values f c2)) as Hs.
  { intros f. by apply sumIOFamily_perm. }
  unfold sumQoSIO. by rewrite !Hn, !Hs.
Qed.

Lemma resolveCeiling_ext c1 c2 index oc svm :
  (∀ c, c ∈ c1 ↔ c ∈ c2) → resolveCeiling c1 index oc svm = resolveCeiling c2 index oc svm.
Proof. intros H. unfold resolveCeiling. by rewrite (pickPolicy_ext c1 c2 index oc svm H). Qed.

(** ** Indexes up to the order of their rows *)

(** Two row indexes holding the same rows under the same keys. *)
Definition index_equiv {K V} `{Countable K} (i1 i2 : gmap K (list V)) : Prop :=
  ∀ k, option_Forall2 Permutation (i1 !! k) (i2 !! k).

#[export] Instance index_equiv_equivalence {K V} `{Countable K} :
  Equivalence (@index_equiv K V _ _).
Proof.
  split.
  - intros i k. destruct (i !! k); by constructor.
  - intros i j Hij k. specialize (Hij k). inversion Hij; constructor. by symmetry.
  - intros i j l Hij Hjl k. specialize (Hij k). specialize (Hjl k).
    inversion Hij as [x y Hxy Hx Hy|Hx Hy]; rewrite <- Hy in Hjl; inversion Hjl; constructor. by etrans.
Qed.

Lemma index_equiv_rows {K V} `{Countable K} (i1 i2 : gmap K (list V)) k :
  index_equiv i1 i2 → default [] (i1 !! k) ≡ₚ default [] (i2 !! k).
Proof. intros Hi. specialize (Hi k). by inversion Hi. Qed.

Lemma index_equiv_empty {K V} `{Countable K} (i1 i2 : gmap K (list V)) :
  index_equiv i1 i2 → i1 = ∅ ↔ i2 = ∅.
Proof.
  intros Hi. split; intros ->; apply map_empty; intros k; specialize (Hi k);
    rewrite lookup_empty in Hi; by inversion Hi.
Qed.

Lemma append_by_equiv {R V K} `{Countable K} (key : R → option K) (val : R → V) (l1 l2 : list R)
  (m1 m2 : gmap K (list V)) :
  l1 ≡ₚ l2 → index_equiv m1 m2 → index_equiv (append_by key val l1 m1) (append_by key val l2 m2).
Proof.
  intros Hl Hm k. rewrite !lookup_append_by.
  assert (filter (λ r, key r = Some k) l1 ≡ₚ filter (λ r, key r = Some k) l2) as Hf by (by rewrite Hl).
  pose proof (index_equiv_rows m1 m2 k Hm) as Hr.
  destruct (filter _ l1) as [|x1 r1] eqn:E1, (filter _ l2) as [|x2 r2] eqn:E2.
  - apply Hm.
  - by apply Permutation_nil_cons in Hf.
  - symmetry in Hf. by apply Permutation_nil_cons in Hf.
  - constructor. rewrite Hr. apply Permutation_app_head, fmap_Permutation. done.
Qed.

Section indexes.
Context `{MetricFingerprint}.

Lemma indexQoSFamily_append dst vec f keys ws :
  indexQoSFamily dst vec f keys ws =
  append_by (λ s, harvest_volume (s_Metric s)) (qos_candidate f keys ws) vec dst.
Proof. done. Qed.

(** The same families with permuted vectors. *)
Definition same_rows (f1 f2 : list (ioFamily * list Sample)) : Prop :=
  Forall2 (λ a b, a.1 = b.1 ∧ a.2 ≡ₚ b.2) f1 f2.

Lemma index_families_equiv keys ws f1 f2 :
  same_rows f1 f2 → index_equiv (index_families keys ws f1) (index_families keys ws f2).
Proof.
  intros Hf. unfold index_families.
  enough (∀ m1 m2 : gmap string (list qosCandidate), index_equiv m1 m2 →
    index_equiv (fold_left (λ dst '(f, vec), indexQoSFamily dst vec f keys ws) f1 m1)
                (fold_left (λ dst '(f, vec), indexQoSFamily dst vec f keys ws) f2 m2)) as Hen
    by (by apply Hen).
  induction Hf as [|[a v1] [b v2] f1 f2 [Hab Hv] Hf IH]; intros m1 m2 Hm; [done|]. cbn in *. subst b.
  apply IH. rewrite !indexQoSFamily_append. by apply append_by_equiv.
Qed.

Lemma seriesByGate_rows rows k :
  default ∅ (seriesByGate rows !! k) = list_to_set (map qc_series (filter (λ c, deltaGate c = k) rows)).
Proof.
  unfold seriesByGate. rewrite lookup_fold_keyed, lookup_empty.
  rewrite (filter_ext_pred (λ r, Some (deltaGate r) = Some k) (λ c, deltaGate c = k)) by naive_solver.
  generalize (filter (λ c, deltaGate c = k) rows). intros l.
  enough (∀ o : option (gset Z), default ∅ (fold_left
            (at_key (λ o c, Some ({[qc_series c]} ∪ default ∅ o))) l o) =
          list_to_set (map qc_series l) ∪ default ∅ o) as Hen.
  { rewrite Hen. cbn. set_solver. }
  induction l as [|c l IH]; intros o; cbn [fold_left map]; [cbn; set_solver|].
  rewrite IH. cbn. set_solver.
Qed.

Lemma keepUnchanged_equiv d1 d2 m1 m2 :
  index_equiv d1 d2 → index_equiv m1 m2 →
  index_equiv (keepUnchangedDeltaRows d1 m1) (keepUnchangedDeltaRows d2 m2).
Proof.
  intros Hd Hm k. unfold keepUnchangedDeltaRows. rewrite !map_lookup_imap.
  pose proof (index_equiv_rows m1 m2 k Hm) as Hr. specialize (Hd k).
  inversion Hd as [r1 r2 Hp H1 H2|H1 H2]; cbn; [|constructor].
  assert (filter (λ c, default ∅ (seriesByGate (default [] (m1 !! k)) !! deltaGate c) =
                       default ∅ (seriesByGate r1 !! deltaGate c)) r1 ≡ₚ
          filter (λ c, default ∅ (seriesByGate (default [] (m2 !! k)) !! deltaGate c) =
                       default ∅ (seriesByGate r2 !! deltaGate c)) r2) as Hf.
  { rewrite (filter_ext_pred _ (λ c, default ∅ (seriesByGate (default [] (m2 !! k)) !! deltaGate c) =
                       default ∅ (seriesByGate r2 !! deltaGate c)) r1).
    - by rewrite Hp.
    - intros c. rewrite !seriesByGate_rows. by rewrite Hr, Hp. }
  destruct (filter _ r1) as [|x1 l1], (filter _ r2) as [|x2 l2]; [constructor| | |by constructor].
  - by apply Permutation_nil_cons in Hf.
  - symmetry in Hf. by apply Permutation_nil_cons in Hf.
Qed.

Lemma qosCandidatesFor_equiv vols i1 i2 :
  index_equiv i1 i2 → qosCandidatesFor vols i1 ≡ₚ qosCandidatesFor vols i2.
Proof.
  intros Hi. unfold qosCandidatesFor. induction vols as [|v vols IH]; [done|]. cbn.
  apply Permutation_app; [by apply index_equiv_rows|done].
Qed.

Lemma claim_candidates_perm m1 m2 :
  m1 ≡ₚ m2 →
  (∀ c, c ∈ (claim_candidates m1).1 ↔ c ∈ (claim_candidates m2).1) ∧
  (claim_candidates m1).2 = (claim_candidates m2).2.
Proof.
  intros Hp. unfold claim_candidates. cbn [fst snd]. rewrite (existsb_perm m_agrees m1 m2 Hp).
  set (prefer := existsb m_agrees m2).
  assert (filter (λ m, prefer = true → m_agrees m = true) m1 ≡ₚ
          filter (λ m, prefer = true → m_agrees m = true) m2) as Hf by (by rewrite Hp).
  split; [intros c; by rewrite Hf|]. apply (sort_func_ext String.compare).
  apply NoDup_Permutation; [apply NoDup_keep_first; apply _..|].
  intros x. rewrite !elem_of_keep_first. by rewrite Hf.
Qed.

(** What a claim contributes depends on the multiset of the FlexVols it matched
    and on the multisets of the rows of those FlexVols. *)
Lemma resolve_claim_equiv q1 q2 d1 d2 policy c m1 m2 :
  index_equiv q1 q2 → index_equiv d1 d2 → m1 ≡ₚ m2 →
  resolve_claim q1 d1 policy c m1 = resolve_claim q2 d2 policy c m2.
Proof.
  intros Hq Hd Hm. unfold resolve_claim.
  destruct (claim_candidates_perm m1 m2 Hm) as [Hc Hv].
  destruct (claim_candidates m1) as [c1 v1], (claim_candidates m2) as [c2 v2]. cbn in Hc, Hv. subst v2.
  rewrite (pickAggr_ext c1 c2 Hc). destruct (pickAggr c2) as [oc aggr].
  rewrite (pickSVM_ext c1 c2 oc Hc). destruct (pickSVM c2 oc) as [svmOC svm].
  set (koc := if bool_decide (oc = "") then svmOC else oc).
  assert (preferQoSZone (qosCandidatesFor v1 q1) (pv_zone c) koc svm ≡ₚ
          preferQoSZone (qosCandidatesFor v1 q2) (pv_zone c) koc svm) as Hqz.
  { by apply preferQoSZone_perm, qosCandidatesFor_equiv. }
  rewrite (resolveCeiling_ext _ (preferQoSZone (qosCandidatesFor v1 q2) (pv_zone c) koc svm) policy koc svm)
    by (intros x; by rewrite Hqz).
  rewrite (sumQoSIO_perm _ _ Hqz).
  rewrite (sumQoSIO_perm (preferQoSZone (qosCandidatesFor v1 d1) (pv_zone c) koc svm)
             (preferQoSZone (qosCandidatesFor v1 d2) (pv_zone c) koc svm))
    by (by apply preferQoSZone_perm, qosCandidatesFor_equiv).
  rewrite (bool_decide_ext (d1 = ∅) (d2 = ∅)) by (by apply index_equiv_empty).
  done.
Qed.
End indexes.
