(* ===== verification/NetAppProps.v ===== *)
(** The theorems about pkg/build/netapp.go: the join's result is a function of
    the multisets of Harvest rows, its references are closed, and a workload is
    measured in exactly one zone. *)

From S2P Require Import Prelude GoStrings Float64 GraphNode GraphEdge Selector PairScope Fanout.
From S2P Require Import Keyed RedMetrics BuildIdentity VolumeKey TopologyTypes NetApp.
From S2P Require Import NetAppLemmas.

(** ** The pass over volume_labels *)

(** The match a row gives a claim. *)
Definition row_match (keys : LabelKeys) (rw : VolumeKeyRewriter) (claims : list pvcVolume) (i : nat)
  (s : Sample) : option claimMatch :=
  match harvest_volume (s_Metric s), claims !! i with
  | Some vol, Some c =>
      if bool_decide (i ∈ vm_match (newVolumeMatcher rw claims) vol)
      then Some (mkClaimMatch (label_candidate keys s) vol
                   (zonesAgree (pv_zone c) (vc_zone (label_candidate keys s))))
      else None
  | _, _ => None
  end.

Lemma fold_insert_rows {V} (f : nat → option V) (ks : list nat) (m : gmap nat (list V)) i :
  NoDup ks →
  default [] (fold_left (λ bc k, match f k with
                                 | None => bc
                                 | Some v => <[k := default [] (bc !! k) ++ [v]]> bc
                                 end) ks m !! i) =
  default [] (m !! i) ++ (if bool_decide (i ∈ ks) then match f i with Some v => [v] | None => [] end else []).
Proof.
  intros Hnd. revert m. induction Hnd as [|k ks Hk Hnd IH]; intros m; cbn [fold_left].
  { by rewrite bool_decide_eq_false_2, app_nil_r by set_solver. }
  rewrite IH. destruct (decide (i = k)) as [->|Hne].
  - rewrite (bool_decide_eq_false_2 (k ∈ ks)), bool_decide_eq_true_2, app_nil_r by set_solver.
    destruct (f k); [|by rewrite app_nil_r]. by rewrite lookup_insert_eq.
  - rewrite (bool_decide_ext (i ∈ k :: ks) (i ∈ ks)) by set_solver.
    destruct (f k); [|done]. by rewrite lookup_insert_ne.
Qed.

Section scan.
Context (keys : LabelKeys) (rw : VolumeKeyRewriter) (claims : list pvcVolume).

Lemma scan_volumes_index vec :
  (scan_volumes keys rw claims vec).1 =
  append_by (λ s, harvest_volume (s_Metric s)) (label_candidate keys) vec ∅.
Proof.
  unfold scan_volumes, append_by, fold_keyed. induction vec as [|s vec IH] using rev_ind; [done|].
  rewrite !fold_left_app. cbn [fold_left]. rewrite <- IH.
  destruct (fold_left _ vec (∅, ∅)) as [vi bc]. cbn [fst]. unfold volume_step, keyed_step.
  by destruct (harvest_volume (s_Metric s)).
Qed.

Lemma scan_volumes_matches vec i :
  default [] ((scan_volumes keys rw claims vec).2 !! i) = omap (row_match keys rw claims i) vec.
Proof.
  unfold scan_volumes. induction vec as [|s vec IH] using rev_ind; [done|].
  rewrite fold_left_app, omap_snoc. cbn [fold_left].
  destruct (fold_left _ vec (∅, ∅)) as [vi bc]. cbn [snd] in IH. rewrite <- IH.
  unfold volume_step, row_match. destruct (harvest_volume (s_Metric s)) as [vol|]; cbn [snd].
  - set (cand := label_candidate keys s).
    set (f := λ k, (λ c, mkClaimMatch cand vol (zonesAgree (pv_zone c) (vc_zone cand))) <$> claims !! k).
    transitivity (default [] (fold_left (λ bc k, match f k with
         | None => bc
         | Some v => <[k := default [] (bc !! k) ++ [v]]> bc
         end) (vm_match (newVolumeMatcher rw claims) vol) bc !! i)).
    { f_equal. f_equal. generalize bc. induction (vm_match _ vol) as [|k ks IHk]; intros b; [done|].
      cbn [fold_left]. rewrite IHk. f_equal. unfold f. by destruct (claims !! k). }
    rewrite fold_insert_rows by apply NoDup_vm_match. f_equal. unfold f.
    destruct (claims !! i); cbn; by destruct (bool_decide _).
  - by rewrite app_nil_r.
Qed.
End scan.

(** ** Order freedom of the whole join *)

(** Two reads that differ in the order of the volume-label rows and of the rows
    of each QoS family. *)
Record same_harvest (v1 v2 : topologyVectors) : Prop := {
  sh_labels : v_VolumeLabels v1 ≡ₚ v_VolumeLabels v2;
  sh_qos : same_rows (qos_families v1) (qos_families v2);
  sh_delta : same_rows (delta_families v1) (delta_families v2);
  sh_iops : v_QoSPolicyMaxIOPS v1 = v_QoSPolicyMaxIOPS v2;
  sh_mbps : v_QoSPolicyMaxMBps v1 = v_QoSPolicyMaxMBps v2;
  sh_aggr_status : v_AggrStatus v1 = v_AggrStatus v2;
  sh_aggr_used : v_AggrSpaceUsed v1 = v_AggrSpaceUsed v2;
  sh_aggr_total : v_AggrSpaceTotal v1 = v_AggrSpaceTotal v2;
  sh_node_status : v_NetAppNodeStatus v1 = v_NetAppNodeStatus v2;
  sh_node_labels : v_NetAppNodeLabels v1 = v_NetAppNodeLabels v2;
  sh_node_cpu : v_NetAppNodeCPUBusy v1 = v_NetAppNodeCPUBusy v2;
  sh_node_ops : v_NetAppNodeTotalOps v1 = v_NetAppNodeTotalOps v2;
  sh_node_lat : v_NetAppNodeTotalLatency v1 = v_NetAppNodeTotalLatency v2;
  sh_node_data : v_NetAppNodeTotalData v1 = v_NetAppNodeTotalData v2;
}.

Lemma same_rows_nonempty f1 f2 :
  same_rows f1 f2 →
  existsb (λ '(_, vec), negb (bool_decide (vec = []))) f1 =
  existsb (λ '(_, vec), negb (bool_decide (vec = []))) (f2 : list (ioFamily * list Sample)).
Proof.
  intros H. induction H as [|[a v1] [b v2] f1 f2 [_ Hv] _ IH]; [done|]. cbn in *. rewrite IH.
  by rewrite (nil_perm_decide v1 v2) by (by apply Permutation_length).
Qed.

Lemma set_to_map_ext `{Countable K} {V} (f g : K → K * V) (X : gset K) :
  (∀ k, f k = g k) → (set_to_map f X : gmap K V) = set_to_map g X.
Proof. intros Hfg. unfold set_to_map. f_equal. apply list_fmap_ext. intros i x _. apply Hfg. Qed.

Lemma elem_of_all_candidates (vi : gmap string (list volumeLabelCandidate)) c :
  c ∈ all_candidates vi ↔ ∃ vol rows, vi !! vol = Some rows ∧ c ∈ rows.
Proof.
  unfold all_candidates. rewrite list_elem_of_In, in_concat.
  setoid_rewrite <- list_elem_of_In. split.
  - intros (rows & Hr & Hc). apply list_elem_of_fmap in Hr as ([vol rows'] & -> & Hin).
    apply elem_of_map_to_list in Hin. eauto.
  - intros (vol & rows & Hv & Hc). exists rows. split; [|done]. apply list_elem_of_fmap.
    exists (vol, rows). split; [done|]. by apply elem_of_map_to_list.
Qed.

Lemma all_candidates_equiv i1 i2 c :
  index_equiv i1 i2 → c ∈ all_candidates i1 ↔ c ∈ all_candidates i2.
Proof.
  intros Hi. rewrite !elem_of_all_candidates. split; intros (vol & rows & Hv & Hc);
    specialize (Hi vol); rewrite Hv in Hi; inversion Hi as [x y Hp Hx Hy|]; subst;
    [exists vol, y|exists vol, x]; (split; [done|]); [by rewrite <- Hp|by rewrite Hp].
Qed.

Lemma elem_of_candidates_by_aggr vi k c :
  c ∈ default [] (candidates_by_aggr vi !! k) ↔ c ∈ all_candidates vi ∧ usable_aggr c = Some k.
Proof.
  change (candidates_by_aggr vi) with (append_by usable_aggr (λ c, c) (all_candidates vi) ∅).
  rewrite lookup_append_by, lookup_empty.
  assert (c ∈ filter (λ r, usable_aggr r = Some k) (all_candidates vi) ↔
          c ∈ all_candidates vi ∧ usable_aggr c = Some k) as <-.
  { rewrite list_elem_of_filter. tauto. }
  destruct (filter _ _) as [|x l]; [done|]. cbn. by rewrite map_id.
Qed.

Lemma buildNetAppIndexes_equiv i1 i2 v1 v2 :
  index_equiv i1 i2 → same_harvest v1 v2 →
  buildNetAppIndexes i1 (candidates_by_aggr i1) v1 = buildNetAppIndexes i2 (candidates_by_aggr i2) v2.
Proof.
  intros Hi [_ _ _ _ _ H1 H2 H3 H4 H5 H6 H7 H8 H9].
  assert (∀ f, named f (all_candidates i1) = named f (all_candidates i2)) as Hnamed.
  { intros f. apply set_eq. intros k. unfold named. rewrite !elem_of_list_to_set, !list_elem_of_fmap.
    setoid_rewrite list_elem_of_filter. by setoid_rewrite (λ c, all_candidates_equiv i1 i2 c Hi). }
  assert (∀ k, inventory_node v1 k = inventory_node v2 k) as Hnode.
  { intros k. unfold inventory_node, perfByNode. by rewrite H4, H5, H6, H7, H8, H9. }
  assert (∀ k, inventory_aggr (candidates_by_aggr i1) v1 k = inventory_aggr (candidates_by_aggr i2) v2 k)
    as Haggr.
  { intros k. unfold inventory_aggr, aggr_owner, aggr_legs. rewrite H1, H2, H3.
    rewrite (pickOwner_ext (default [] (candidates_by_aggr i1 !! k))
                           (default [] (candidates_by_aggr i2 !! k))); [done|].
    intros c. rewrite !elem_of_candidates_by_aggr. by rewrite (all_candidates_equiv i1 i2 c Hi). }
  unfold buildNetAppIndexes, inventory_nodes, inventory_aggrs, node_legs, aggr_legs.
  rewrite !Hnamed, H1, H2, H3, H4, H5, H6, H7, H8, H9.
  f_equal.
  - apply set_to_map_ext. intros k. by rewrite Haggr.
  - apply set_to_map_ext. intros k. by rewrite Hnode.
  - f_equal; f_equal; apply map_ext; done.
Qed.

Section order.
Context `{EdgeUUID, MetricFingerprint}.

Lemma claim_results_equiv keys rw claims v1 v2 :
  same_harvest v1 v2 → claim_results keys rw claims v1 = claim_results keys rw claims v2.
Proof.
  intros Hv. destruct Hv as [Hl Hq Hd Hi Hm _ _ _ _ _ _ _ _ _].
  assert (index_equiv (measured_index keys v1) (measured_index keys v2)) as Hqi.
  { unfold measured_index. rewrite (same_rows_nonempty _ _ Hd). by apply index_families_equiv. }
  assert (index_equiv (delta_index keys v1) (delta_index keys v2)) as Hdi.
  { unfold delta_index. apply keepUnchanged_equiv; [by apply index_families_equiv|done]. }
  unfold claim_results. rewrite Hi, Hm. apply imap_ext. intros i c Hc. f_equal.
  apply resolve_claim_equiv; [done..|]. rewrite !scan_volumes_matches. by rewrite Hl.
Qed.

(** C26: the storage join (SVMs, ceilings, edges with their measurements, the
    aggregates and controllers drawn, the inventory) is a function of the
    multisets of volume-label rows and of QoS rows: no order in which the
    upstream returns them shows in the result. *)
Theorem storage_join_order_free rw claims v1 v2 keys :
  same_harvest v1 v2 →
  resolveNetAppStorage rw claims v1 keys = resolveNetAppStorage rw claims v2 keys.
Proof.
  intros Hv. unfold resolveNetAppStorage. cbv zeta.
  rewrite (claim_results_equiv _ _ _ _ _ Hv), !scan_volumes_index.
  rewrite (buildNetAppIndexes_equiv _
    (append_by (λ s, harvest_volume (s_Metric s)) (label_candidate (OrDefault keys))
       (v_VolumeLabels v2) ∅) v1 v2); [done| |done].
  apply append_by_equiv; [apply Hv|reflexivity].
Qed.
End order.

(** ** One zone per workload *)

(** Of the rows of one workload seen in several zones exactly those of one
    zone are kept, the one the claim prefers among the rows in scope; no
    workload in scope is dropped, and no row out of scope is kept. *)
Theorem preferQoSZone_spec cands claim oc svm :
  (∀ c, c ∈ preferQoSZone cands claim oc svm →
     c ∈ cands ∧ qosInScope c oc svm = true ∧
     ∀ c', c' ∈ cands → qosInScope c' oc svm = true → workload c' = workload c →
       prefers claim (qc_zone c') (qc_zone c) = false) ∧
  (∀ c c', c ∈ preferQoSZone cands claim oc svm → c' ∈ preferQoSZone cands claim oc svm →
     workload c = workload c' → qc_zone c = qc_zone c') ∧
  (∀ c, c ∈ cands → qosInScope c oc svm = true →
     ∃ c', c' ∈ preferQoSZone cands claim oc svm ∧ workload c' = workload c).
Proof.
  rewrite preferQoSZone_filter. set (ch := chosen_zones cands claim oc svm).
  assert (∀ w z, ch !! w = Some z ↔
    (∃ r, r ∈ cands ∧ scope_key oc svm r = Some w ∧ qc_zone r = z) ∧
    ∀ r, r ∈ cands → scope_key oc svm r = Some w → zone_pref claim z (qc_zone r) ≠ Gt) as Hch.
  { intros w z. apply (index_least_Some _). }
  assert (∀ c c', workload c = workload c' → qosInScope c' oc svm = true → qosInScope c oc svm = true) as Hws.
  { intros c c' Hw. unfold workload in Hw. unfold qosInScope. injection Hw as -> -> _ _ _. done. }
  assert (∀ c w, scope_key oc svm c = Some w ↔ qosInScope c oc svm = true ∧ workload c = w) as Hk.
  { intros c w. unfold scope_key. destruct (qosInScope c oc svm); naive_solver. }
  split; [|split].
  - intros c [Hc Hin]%list_elem_of_filter. apply Hch in Hc as [(r & Hr & Hkr & _) Hle].
    apply Hk in Hkr as [Hsr Hwr]. split; [done|].
    assert (qosInScope c oc svm = true) as Hsc by (eapply Hws; [symmetry; exact Hwr|done]).
    split; [done|]. intros c' Hc' Hs' Hw'. rewrite prefers_pref. apply bool_decide_eq_false.
    intros Hlt. apply (Hle c' Hc'); [by apply Hk|].
    by rewrite (gc_antisym (c:=zone_pref claim) (qc_zone c')), Hlt.
  - intros c c' [Hc _]%list_elem_of_filter [Hc' _]%list_elem_of_filter Hw. rewrite Hw in Hc. congruence.
  - intros c Hc Hs. destruct (ch !! workload c) as [z|] eqn:Ez.
    + pose proof Ez as Ez'. apply Hch in Ez' as [(r & Hr & Hkr & Hz) _]. apply Hk in Hkr as [_ Hwr].
      exists r. split; [|done]. apply list_elem_of_filter. split; [|done]. by rewrite Hwr, Ez, Hz.
    + exfalso. unfold ch, chosen_zones in Ez. rewrite lookup_index_least in Ez.
      apply (least_None (zone_pref claim)), fmap_nil_inv in Ez.
      assert (c ∈ filter (λ r, scope_key oc svm r = Some (workload c)) cands) as Hin
        by (apply list_elem_of_filter; split; [by apply Hk|done]).
      rewrite Ez in Hin. by apply elem_of_nil in Hin.
Qed.

Definition sample_qos (zone_ lun : string) (v : Z) : qosCandidate :=
  mkQosCandidate "f1" "s1" "gold" lun "trident_pvc_1" ioReadOps (f_of_Z v) (mkZone zone_ "prod") 0.

Lemma preferQoSZone_spec_witness :
  map qc_value (preferQoSZone [sample_qos "eu" "" 7; sample_qos "us" "" 5; sample_qos "eu" "lun0" 3]
                  (mkZone "us" "prod") "f1" "s1") = [f_of_Z 5; f_of_Z 3] ∧
  prefers (mkZone "us" "prod") (mkZone "eu" "prod") (mkZone "us" "prod") = false.
Proof.
  split; [vm_compute; reflexivity|].
  destruct (preferQoSZone_spec [sample_qos "eu" "" 7; sample_qos "us" "" 5; sample_qos "eu" "lun0" 3]
              (mkZone "us" "prod") "f1" "s1") as [H _].
  apply (H (sample_qos "us" "" 5)) with (c' := sample_qos "eu" "" 7).
  - vm_compute. left.
  - left.
  - reflexivity.
  - reflexivity.
Defined.

(** ** Closed references *)

Lemma lookup_collect {V} (f : claimResult → option V) results id x :
  collect f results !! id = Some x → ∃ r, (id, r) ∈ results ∧ f r = Some x.
Proof.
  unfold collect. induction results as [|[id' r] l IH] using rev_ind; [done|].
  rewrite fold_left_app. cbn [fold_left]. destruct (f r) as [y|] eqn:Ef.
  - destruct (decide (id = id')) as [->|Hne].
    + rewrite lookup_insert_eq. intros [= ->]. exists r. set_solver.
    + rewrite lookup_insert_ne by done. intros Hx. destruct (IH Hx) as (r' & ? & ?). set_solver.
  - intros Hx. destruct (IH Hx) as (r' & ? & ?). set_solver.
Qed.

(** A claim's hit names an aggregate some volume-label row names. *)
Lemma resolve_claim_hit q d policy c matches h :
  cr_hit (resolve_claim q d policy c matches) = Some h →
  hit_oc h ≠ "" ∧ hit_aggr h ≠ "" ∧
  ∃ m, m ∈ matches ∧ vc_ontapCluster (m_cand m) = hit_oc h ∧ vc_aggr (m_cand m) = hit_aggr h.
Proof.
  unfold resolve_claim. destruct (claim_candidates matches) as [cands vols] eqn:Ec.
  destruct (pickAggr cands) as [oc aggr] eqn:Ep. destruct (pickSVM cands oc) as [so svm].
  cbn [cr_hit]. destruct (_ || _) eqn:E; [done|]. intros [= <-]. cbn.
  apply orb_false_iff in E as [E1 E2]. apply bool_decide_eq_false in E1, E2.
  apply pickAggr_in in Ep as (_ & _ & cand & Hc & <- & <-); [|by left].
  split_and!; [done..|]. unfold claim_candidates in Ec. injection Ec as <- _.
  apply list_elem_of_fmap in Hc as (m & -> & Hm). apply list_elem_of_filter in Hm as [_ Hm]. eauto.
Qed.

(** The SVM a claim resolves is one some candidate names. *)
Lemma pickSVM_in cands oc so svm :
  pickSVM cands oc = (so, svm) → svm ≠ "" →
  ∃ c, c ∈ cands ∧ vc_ontapCluster c = so ∧ vc_svm c = svm.
Proof.
  unfold pickSVM. revert so svm. induction cands as [|c cands IH] using rev_ind; intros so svm; [by intros [= <- <-]|].
  rewrite fold_left_app. cbn [fold_left]. destruct (fold_left _ cands _) as [so' svm'] eqn:E.
  assert (svm' ≠ "" → ∃ c0, c0 ∈ cands ++ [c] ∧ vc_ontapCluster c0 = so' ∧ vc_svm c0 = svm') as IH'.
  { intros Hne. destruct (IH so' svm' eq_refl Hne) as (c0 & ? & ? & ?). exists c0. set_solver. }
  destruct (_ || _); [by intros [= <- <-]|]. destruct (_ || _).
  { intros [= <- <-] _. exists c. set_solver. }
  destruct (_ && _) eqn:Eb; [|by intros [= <- <-]].
  apply andb_true_iff in Eb as [Es%bool_decide_eq_true _]. intros [= <- <-] _. exists c. set_solver.
Qed.

Lemma resolve_claim_svm q d policy c matches ref :
  cr_svm (resolve_claim q d policy c matches) = Some ref →
  ref_SVM ref ≠ "" ∧
  ∃ m, m ∈ matches ∧ vc_ontapCluster (m_cand m) = ref_ONTAPCluster ref ∧ vc_svm (m_cand m) = ref_SVM ref.
Proof.
  unfold resolve_claim. destruct (claim_candidates matches) as [cands vols] eqn:Ec.
  destruct (pickAggr cands) as [oc aggr]. destruct (pickSVM cands oc) as [so svm] eqn:Ep.
  cbn [cr_svm]. case_bool_decide as Hs; [done|]. intros [= <-]. cbn. split; [done|].
  destruct (pickSVM_in _ _ _ _ Ep Hs) as (cand & Hc & <- & <-).
  unfold claim_candidates in Ec. injection Ec as <- _.
  apply list_elem_of_fmap in Hc as (m & -> & Hm). apply list_elem_of_filter in Hm as [_ Hm]. eauto.
Qed.

Lemma elem_of_named f cands k :
  k ∈ named f cands ↔ ∃ c, c ∈ cands ∧ vc_ontapCluster c ≠ "" ∧ f c ≠ "" ∧ k = (vc_ontapCluster c, f c).
Proof.
  unfold named. rewrite elem_of_list_to_set, list_elem_of_fmap. setoid_rewrite list_elem_of_filter.
  naive_solver.
Qed.

(** Whatever controller an aggregate names as its owner is inventoried. *)
Lemma owner_inventoried vi v k :
  aggr_owner (candidates_by_aggr vi) v k ≠ "" →
  (k.1, aggr_owner (candidates_by_aggr vi) v k) ∈ inventory_nodes (all_candidates vi) v.
Proof.
  unfold aggr_owner, inventory_nodes. cbv zeta. case_bool_decide as Ho.
  - destruct (fold_keyed _ _ _ _ !! k) as [node|] eqn:Eg; cbn; [|done]. change (id node) with node.
    intros Hne. apply fold_keyed_origin in Eg as (s & o & Hs & Hk & Hu).
    apply elem_of_union_r, elem_of_list_to_set, list_elem_of_omap. exists s. split; [done|].
    unfold gauge_owner_upd in Hu. case_bool_decide as Hn; [done|]. rewrite Hk.
    destruct k as [oc aggr]. cbn [fst snd]. cbv iota beta.
    destruct (bool_decide_reflect (label_of (s_Metric s) "node" = "")) as [|_]; [done|].
    f_equal. f_equal.
    destruct o as [cur|]; [|congruence]. destruct (str_lt _ _); congruence.
  - intros _. apply elem_of_union_l, elem_of_union_l.
    destruct (pickOwner_in _ _ _ Ho) as (c & Hc & Hoc & Ha & Hn).
    apply elem_of_candidates_by_aggr in Hc as [Hc Hu]. apply elem_of_named. exists c.
    unfold usable_aggr in Hu. destruct (_ || _) eqn:E; [done|]. apply orb_false_iff in E as [_ E].
    apply bool_decide_eq_false in E. rewrite Hn, Hoc. split_and!; [done|congruence|done|done].
Qed.

Lemma aggrByKey_lookup vi al v k a :
  aggrByKey (buildNetAppIndexes vi al v) !! k = Some a ↔
  k ∈ inventory_aggrs (all_candidates vi) v ∧ a = inventory_aggr al v k.
Proof. cbn. rewrite lookup_set_to_map by done. naive_solver. Qed.

Lemma nodeByKey_lookup vi al v k n :
  nodeByKey (buildNetAppIndexes vi al v) !! k = Some n ↔
  k ∈ inventory_nodes (all_candidates vi) v ∧ n = inventory_node v k.
Proof. cbn. rewrite lookup_set_to_map by done. naive_solver. Qed.

Lemma elem_of_sortByID {N} (f : N → string) l x : x ∈ sortByID f l ↔ x ∈ l.
Proof. unfold sortByID. apply (elem_of_sort_func (on_key f String.compare)). Qed.

Lemma owner_label al v k :
  lget (aggr_Labels (inventory_aggr al v k)) "ontap_cluster" = k.1 ∧
  lget (aggr_Labels (inventory_aggr al v k)) "node" = aggr_owner al v k.
Proof.
  unfold inventory_aggr, aggr_node, lget. cbn [aggr_Labels]. case_bool_decide as Ho.
  - split; [by rewrite lookup_singleton_eq|]. rewrite lookup_singleton_ne by done. by rewrite Ho.
  - split; [|by rewrite lookup_insert_eq]. rewrite lookup_insert_ne by done. by rewrite lookup_singleton_eq.
Qed.

Section refs.
Context `{EdgeUUID, MetricFingerprint}.

Lemma scan_match_named keys rw claims v i m :
  m ∈ default [] ((scan_volumes keys rw claims (v_VolumeLabels v)).2 !! i) →
  m_cand m ∈ all_candidates (scan_volumes keys rw claims (v_VolumeLabels v)).1.
Proof.
  rewrite scan_volumes_matches, scan_volumes_index, elem_of_all_candidates, list_elem_of_omap.
  intros (s & Hs & Hm). unfold row_match in Hm.
  destruct (harvest_volume (s_Metric s)) as [vol|] eqn:Ev; [|done].
  destruct (claims !! i); [|done]. case_bool_decide; [|done]. injection Hm as <-. cbn.
  exists vol. rewrite lookup_append_by, lookup_empty.
  assert (s ∈ filter (λ r, harvest_volume (s_Metric r) = Some vol) (v_VolumeLabels v)) as Hf
    by (by apply list_elem_of_filter).
  destruct (filter _ _) as [|x l]; [by apply elem_of_nil in Hf|]. eexists. split; [done|].
  cbn [default from_option app]. by apply list_elem_of_fmap_2.
Qed.

(** A hit is a claim's, on an inventoried aggregate. *)
Lemma hits_spec keys rw claims v id h :
  collect cr_hit (claim_results keys rw claims v) !! id = Some h →
  (∃ c, c ∈ claims ∧ pv_id c = id) ∧
  (hit_oc h, hit_aggr h) ∈
    inventory_aggrs (all_candidates (scan_volumes keys rw claims (v_VolumeLabels v)).1) v.
Proof.
  intros Hh. apply lookup_collect in Hh as (r & Hr & Hhit). unfold claim_results in Hr.
  apply elem_of_lookup_imap in Hr as (i & c & Heq & Hc). injection Heq as -> ->.
  split; [exists c; split; [by eapply list_elem_of_lookup_2|done]|].
  apply resolve_claim_hit in Hhit as (Hoc & Ha & m & Hm & Heq1 & Heq2).
  unfold inventory_aggrs. apply elem_of_union_l, elem_of_named. exists (m_cand m).
  split; [by eapply scan_match_named|]. rewrite Heq1, Heq2. done.
Qed.

(** A resolved SVM is a claim's, and inventoried. *)
Lemma svmByPVC_spec rw claims v keys id ref :
  let r := resolveNetAppStorage rw claims v keys in
  svmByPVC r !! id = Some ref → ref_ONTAPCluster ref ≠ "" →
  (∃ c, c ∈ claims ∧ pv_id c = id) ∧
  ∃ s, s ∈ inv_SVMs (nr_inventory r) ∧ svm_ID s = NetAppSVMID (ref_ONTAPCluster ref) (ref_SVM ref).
Proof.
  cbn zeta. unfold resolveNetAppStorage. cbv zeta. cbn [svmByPVC nr_inventory].
  intros Hs Hoc. apply lookup_collect in Hs as (r & Hr & Hsvm). unfold claim_results in Hr.
  apply elem_of_lookup_imap in Hr as (i & c & Heq & Hc). injection Heq as -> ->.
  split; [exists c; split; [by eapply list_elem_of_lookup_2|done]|].
  apply resolve_claim_svm in Hsvm as (Hne & m & Hm & Ho & Hsv).
  exists (inventory_svm (ref_ONTAPCluster ref, ref_SVM ref)). split; [|done].
  cbn [inv_SVMs ni_inventory buildNetAppIndexes]. rewrite elem_of_sortByID.
  apply list_elem_of_fmap. eexists. split; [reflexivity|]. apply elem_of_elements, elem_of_named.
  exists (m_cand m). rewrite Ho, Hsv. split; [by eapply scan_match_named|]. done.
Qed.

Lemma join_edges_spec hits seen claims e :
  e ∈ join_edges hits seen claims →
  ∃ c h, c ∈ claims ∧ hits !! pv_id c = Some h ∧ edge_Type e = EdgeTypePVCToNetAppAggr ∧
         Source e = pv_id c ∧ Target e = NetAppAggrID (hit_oc h) (hit_aggr h).
Proof.
  revert seen. induction claims as [|c l IH]; intros seen; cbn; [by intros ?%elem_of_nil|].
  destruct (hits !! pv_id c) as [h|] eqn:Eh.
  - case_bool_decide.
    + intros (c' & h' & ? & ?)%IH. exists c', h'. set_solver.
    + intros [->|(c' & h' & ? & ?)%IH]%elem_of_cons.
      * exists c, h. split; [set_solver|]. split; [done|]. destruct (hit_io h); cbn; done.
      * exists c', h'. set_solver.
  - intros (c' & h' & ? & ?)%IH. exists c', h'. set_solver.
Qed.

(** The join's references are closed: an edge starts at a claim it was
    given and ends at an aggregate that is drawn; an aggregate's owner is a
    controller that is drawn with it; everything drawn is inventoried, and so
    is the owner of every inventoried aggregate. *)
Lemma storage_join_closed rw claims v keys :
  let r := resolveNetAppStorage rw claims v keys in
  (∀ e, e ∈ nr_edges r → edge_Type e = EdgeTypePVCToNetAppAggr ∧
     (∃ c, c ∈ claims ∧ Source e = pv_id c) ∧ ∃ a, a ∈ nr_aggrs r ∧ Target e = aggr_ID a) ∧
  (∀ a, a ∈ nr_aggrs r → a ∈ inv_Aggrs (nr_inventory r)) ∧
  (∀ a, a ∈ nr_aggrs r → lget (aggr_Labels a) "node" ≠ "" →
     ∃ n, n ∈ nr_nodes r ∧
          ctrl_ID n = NetAppNodeID (lget (aggr_Labels a) "ontap_cluster") (lget (aggr_Labels a) "node")) ∧
  (∀ n, n ∈ nr_nodes r → n ∈ inv_Nodes (nr_inventory r)) ∧
  (∀ a, a ∈ inv_Aggrs (nr_inventory r) → lget (aggr_Labels a) "node" ≠ "" →
     ∃ n, n ∈ inv_Nodes (nr_inventory r) ∧
          ctrl_ID n = NetAppNodeID (lget (aggr_Labels a) "ontap_cluster") (lget (aggr_Labels a) "node")).
Proof.
  unfold resolveNetAppStorage. cbv zeta. cbn [nr_edges nr_aggrs nr_nodes nr_inventory].
  set (ks := OrDefault keys). set (vi := (scan_volumes ks rw claims (v_VolumeLabels v)).1).
  set (al := candidates_by_aggr vi). set (idx := buildNetAppIndexes vi al v).
  set (hits := collect cr_hit (claim_results ks rw claims v)).
  assert (∀ k a, joined_aggrs idx hits !! k = Some a ↔
    aggrByKey idx !! k = Some a ∧ ∃ h, h ∈ (map_to_list hits).*2 ∧ (hit_oc h, hit_aggr h) = k) as Hja.
  { intros k a. unfold joined_aggrs. apply (lookup_select (λ h, (hit_oc h, hit_aggr h)) (λ k, aggrByKey idx !! k)). }
  assert (∀ h, h ∈ (map_to_list hits).*2 ↔ ∃ id, hits !! id = Some h) as Hhl.
  { intros h. rewrite list_elem_of_fmap. split.
    - intros ([id h'] & -> & Hin). apply elem_of_map_to_list in Hin. eauto.
    - intros [id Hid]. exists (id, h). split; [done|]. by apply elem_of_map_to_list. }
  set (ja := (map_to_list (joined_aggrs idx hits)).*2).
  assert (∀ a, a ∈ ja ↔ ∃ k, joined_aggrs idx hits !! k = Some a) as Hjal.
  { intros a. unfold ja. rewrite list_elem_of_fmap. split.
    - intros ([k a'] & -> & Hin). apply elem_of_map_to_list in Hin. eauto.
    - intros [k Hk]. exists (k, a). split; [done|]. by apply elem_of_map_to_list. }
  set (g := λ k, if bool_decide (k.1 = "") || bool_decide (k.2 = "") then None else nodeByKey idx !! k).
  assert (∀ k n, joined_nodes idx ja !! k = Some n ↔ g k = Some n ∧ ∃ a, a ∈ ja ∧ owner_key a = k) as Hjn.
  { intros k n. unfold joined_nodes. rewrite <- (lookup_select owner_key g). f_equiv. f_equal. f_equal.
    apply omap_ext_all. intros a. unfold g. by destruct (_ || _). }
  assert (∀ a, a ∈ inv_Aggrs (ni_inventory idx) ↔
    ∃ k, k ∈ inventory_aggrs (all_candidates vi) v ∧ a = inventory_aggr al v k) as Hia.
  { intros a. cbn. rewrite elem_of_sortByID, list_elem_of_fmap. setoid_rewrite elem_of_elements. naive_solver. }
  assert (∀ n, n ∈ inv_Nodes (ni_inventory idx) ↔
    ∃ k, k ∈ inventory_nodes (all_candidates vi) v ∧ n = inventory_node v k) as Hin.
  { intros n. cbn. rewrite elem_of_sortByID, list_elem_of_fmap. setoid_rewrite elem_of_elements. naive_solver. }
  assert (∀ k, k.1 ≠ "" → aggr_owner al v k ≠ "" →
     g (k.1, aggr_owner al v k) = Some (inventory_node v (k.1, aggr_owner al v k))) as Hg.
  { intros k Hk Ho. unfold g. cbn [fst snd]. rewrite !bool_decide_eq_false_2 by done. cbn [orb].
    apply nodeByKey_lookup. split; [|done]. by apply owner_inventoried. }
  split_and!.
  - intros e He. unfold SortEdges in He. rewrite elem_of_sort_func in He.
    apply join_edges_spec in He as (c & h & Hc & Hh & Ht & Hs & Htgt).
    split; [done|]. split; [eauto|]. exists (inventory_aggr al v (hit_oc h, hit_aggr h)).
    split; [|done]. rewrite elem_of_sortByID, Hjal. exists (hit_oc h, hit_aggr h). apply Hja.
    split; [|exists h; split; [apply Hhl; eauto|done]]. apply aggrByKey_lookup.
    split; [|done]. by eapply hits_spec.
  - intros a. rewrite elem_of_sortByID, Hjal. intros (k & [Ha _]%Hja). apply Hia.
    apply aggrByKey_lookup in Ha. eauto.
  - intros a. rewrite elem_of_sortByID. intros Ha Ho. pose proof Ha as Ha'.
    apply Hjal in Ha' as (k & [Hk (h & Hh & <-)]%Hja). apply aggrByKey_lookup in Hk as [_ ->].
    destruct (owner_label al v (hit_oc h, hit_aggr h)) as [Hl1 Hl2].
    rewrite Hl1, Hl2 in *. apply Hhl in Hh as [id Hid].
    apply lookup_collect in Hid as (r & Hr & Hhit). unfold claim_results in Hr.
    apply elem_of_lookup_imap in Hr as (i & c & Heq & Hc). injection Heq as -> ->.
    apply resolve_claim_hit in Hhit as (Hoc & _).
    exists (inventory_node v (hit_oc h, aggr_owner al v (hit_oc h, hit_aggr h))). split; [|done].
    rewrite elem_of_sortByID, list_elem_of_fmap.
    eexists (_, _). split; [reflexivity|]. apply elem_of_map_to_list, Hjn.
    split; [by apply (Hg (hit_oc h, hit_aggr h))|].
    exists (inventory_aggr al v (hit_oc h, hit_aggr h)). split; [done|]. unfold owner_key.
    by rewrite Hl1, Hl2.
  - intros n. rewrite elem_of_sortByID, list_elem_of_fmap. intros ([k n'] & -> & Hk).
    apply elem_of_map_to_list, Hjn in Hk as [Hk _]. unfold g in Hk. destruct (_ || _); [done|].
    apply Hin. apply nodeByKey_lookup in Hk. eauto.
  - intros a. rewrite Hia. intros (k & Hk & ->) Ho. destruct (owner_label al v k) as [Hl1 Hl2].
    rewrite Hl1, Hl2 in *. exists (inventory_node v (k.1, aggr_owner al v k)). split; [|done].
    apply Hin. eexists. split; [|done]. by apply owner_inventoried.
Qed.
End refs.

(** ** Witnesses *)

Definition sample_label (vol aggr node svm : string) : Sample :=
  mkSample (list_to_map [("volume", vol); ("cluster", "f1"); ("aggr", aggr); ("node", node); ("svm", svm)])
           (f_of_Z 1) 0.
Definition sample_ops (vol lun : string) (n : Z) : Sample :=
  mkSample (list_to_map [("volume", vol); ("cluster", "f1"); ("svm", "s1"); ("lun", lun);
                         ("policy_group", "gold")]) (f_of_Z n) 0.
Definition sample_policy (n : Z) : Sample :=
  mkSample (list_to_map [("cluster", "f1"); ("svm", "s1"); ("name", "gold")]) (f_of_Z n) 0.

(** A read that returned only Harvest rows. *)
Definition harvest_read (labels ops iops status : list Sample) : topologyVectors :=
  mkTopologyVectors [] [] [] [] [] [] [] [] [] [] [] [] [] [] [] [] [] [] [] [] [] [] None None
    false None false false labels ops [] [] [] [] [] [] [] [] [] [] [] iops [] status [] []
    [] [] [] [] [] [] [] [] [].

Definition sample_read : topologyVectors :=
  harvest_read [sample_label "trident_pvc_1" "a2" "n2" "s1"; sample_label "trident_pvc_1" "a1" "n1" "s1";
                sample_label "other" "a3" "n3" "s9"]
    [sample_ops "trident_pvc_1" "" 30; sample_ops "trident_pvc_1" "lun0" 7] [sample_policy 500] [].
Definition sample_read_rev : topologyVectors :=
  harvest_read [sample_label "other" "a3" "n3" "s9"; sample_label "trident_pvc_1" "a1" "n1" "s1";
                sample_label "trident_pvc_1" "a2" "n2" "s1"]
    [sample_ops "trident_pvc_1" "lun0" 7; sample_ops "trident_pvc_1" "" 30] [sample_policy 500] [].
Definition sample_claims : list pvcVolume := [mkPvcVolume "c1/shop/d" "pvc-1" no_zone].

Definition name_uuid : EdgeUUID := λ n, n.
Definition no_fingerprint : MetricFingerprint := λ _, 0%Z.

Lemma storage_join_order_free_witness :
  (map (λ e, (Source e, Target e, edge_IO e ≫= ReadOps, edge_IO e ≫= MaxIOPS))
     (nr_edges (@resolveNetAppStorage name_uuid no_fingerprint default_rewriter sample_claims
                  sample_read DefaultLabelKeys)) =
   [("c1/shop/d", NetAppAggrID "f1" "a1", Some (f_of_Z 30), Some (f_of_Z 500))]) ∧
  @resolveNetAppStorage name_uuid no_fingerprint default_rewriter sample_claims sample_read DefaultLabelKeys =
  @resolveNetAppStorage name_uuid no_fingerprint default_rewriter sample_claims sample_read_rev DefaultLabelKeys.
Proof.
  split; [vm_compute; reflexivity|]. apply storage_join_order_free.
  split; try reflexivity.
  - apply (Permutation_rev (v_VolumeLabels sample_read)).
  - repeat constructor.
  - repeat constructor.
Defined.

Lemma storage_join_closed_witness :
  let r := @resolveNetAppStorage name_uuid no_fingerprint default_rewriter sample_claims
             sample_read DefaultLabelKeys in
  map ctrl_ID (nr_nodes r) = [NetAppNodeID "f1" "n1"] ∧
  map aggr_ID (inv_Aggrs (nr_inventory r)) =
    [NetAppAggrID "f1" "a1"; NetAppAggrID "f1" "a2"; NetAppAggrID "f1" "a3"] ∧
  ∀ a, a ∈ nr_aggrs r → a ∈ inv_Aggrs (nr_inventory r).
Proof.
  cbv zeta. split; [vm_compute; reflexivity|]. split; [vm_compute; reflexivity|].
  apply (@storage_join_closed name_uuid no_fingerprint default_rewriter sample_claims sample_read).
Defined.
