(* ===== verification/Topology.v ===== *)
(** pkg/build/topology.go and topology_edges.go: the parse of the upstream
    vectors into a topology, and the placement and mount edges drawn over it.

    [parseTopology] is one pass over each vector, in the order below; each loop
    is a definition of its own. Go ranges over the pod groups in a random order;
    the model takes the map's own, and the theorems show what does not depend on
    it. *)

From S2P Require Import Prelude GoStrings Float64 GraphNode GraphEdge Graph PairScope Fanout.
From S2P Require Import Keyed.
From S2P Require Import Selector AppMetadata BuildIdentity VolumeKey TopologyTypes.
From S2P Require Import TopologyOwners.
From S2P Require Import MetadataPicks NetApp NetAppLemmas NetAppProps Alerts.

(** ** Node addresses and labels *)

(** pkg/build/topology.go, [nodeAddrs] *)
Record nodeAddrs := mkNodeAddrs { na_external : string; na_internal : string }.
(** pkg/build/topology.go, [nodeAddrs.pick] *)
Definition nodeAddrs_pick (a : nodeAddrs) : string :=
  if bool_decide (na_external a = "") then na_internal a else na_external a.

(** pkg/build/topology.go, [topologyVectors.volumeKey] *)
Definition volumeKey (v : topologyVectors) : VolumeKeyRewriter := default default_rewriter (v_VolumeKey v).

(** pkg/build/topology.go, [unflattenLabel] *)
Definition unflattenLabel (flattened : string) : string :=
  let s := trim_prefix "label_" flattened in
  let withDots := replace_byte "_" "." s in
  match cut_last "." withDots with
  | Some (before, after) => if contains_byte "." before then before +:+ "/" +:+ after else withDots
  | None => withDots
  end.

(** The empty-or-smaller pick of one address. *)
Definition smaller_addr (cur addr : string) : string :=
  if bool_decide (cur = "") || str_lt addr cur then addr else cur.

(** (cluster, node) of a row. *)
Definition node_row_key (mc : clusterResolver) (s : Sample) : string * string :=
  (identify mc (s_Metric s), label_of (s_Metric s) "node").

(** pkg/build/topology.go@141-168, [parseTopology] *)
Definition node_ips (mc : clusterResolver) (vec : list Sample) : gmap (string * string) nodeAddrs :=
  fold_keyed
    (λ s, let typ := label_of (s_Metric s) "type" in
          if negb (bool_decide (label_of (s_Metric s) "address" = "")) &&
             (bool_decide (typ = "ExternalIP") || bool_decide (typ = "InternalIP"))
          then Some (node_row_key mc s) else None)
    (λ o s, let cur := default (mkNodeAddrs "" "") o in
            let addr := label_of (s_Metric s) "address" in
            Some (if bool_decide (label_of (s_Metric s) "type" = "ExternalIP")
                  then mkNodeAddrs (smaller_addr (na_external cur) addr) (na_internal cur)
                  else mkNodeAddrs (na_external cur) (smaller_addr (na_internal cur) addr)))
    vec ∅.

(** pkg/build/topology.go@179-190, [parseTopology]: one label of one row; the
    smaller value of a key wins, so the range order does not matter. *)
Definition merge_label (name val : string) (acc : labels) : labels :=
  if has_prefix "label_" name then
    let lk := unflattenLabel name in
    match acc !! lk with
    | Some cur => if str_lt val cur then <[lk := val]> acc else acc
    | None => <[lk := val]> acc
    end
  else acc.
(** pkg/build/topology.go@171-192, [parseTopology] *)
Definition node_labels (mc : clusterResolver) (vec : list Sample) : gmap (string * string) labels :=
  fold_keyed (λ s, Some (node_row_key mc s))
    (λ o s, Some (map_fold merge_label (default ∅ o) (s_Metric s))) vec ∅.

(** pkg/build/topology.go@218-239, [parseTopology] *)
Definition new_node (ips : gmap (string * string) nodeAddrs) (ls : gmap (string * string) labels)
  (ready : gmap (string * string) string) (key : string * string) : K8sNode :=
  let ip := nodeAddrs_pick (default (mkNodeAddrs "" "") (ips !! key)) in
  mkK8sNode (K8sNodeID key.1 key.2) key.2 (<["cluster" := key.1]> (default ∅ (ls !! key)))
    (if bool_decide (ip = "") then [] else [ip]) (default "" (ready !! key)) [] "".

(** pkg/build/topology.go@205-240, [parseTopology]: one node per (cluster,
    node), at the first series naming it. *)
Definition k8s_nodes (mc : clusterResolver) (v : topologyVectors) : list K8sNode :=
  let ips := node_ips mc (v_Addr v) in
  let ls := node_labels mc (v_NodeLabels v) in
  let ready := resolveNodeReadyStatus (v_NodeStatus v) mc in
  map (new_node ips ls ready)
    (keep_first ∅ (filter (λ k : string * string, k.2 ≠ "") (map (node_row_key mc) (v_Node v)))).

(** ** Pods *)

(** pkg/build/topology.go@244-271, [parseTopology]: the key of a row and what
    one row says. *)
Definition pod_row_key (mc : clusterResolver) (s : Sample) : option podNameKey :=
  let m := s_Metric s in
  if bool_decide (label_of m "uid" = "") then None
  else Some (mkPodNameKey (identify mc m) (label_of m "namespace") (label_of m "pod")).
(** pkg/build/topology.go@244-271, [parseTopology] *)
Definition pod_row_obs (mc : clusterResolver) (s : Sample) : podObs :=
  let m := s_Metric s in
  let cluster := identify mc m in
  let node := label_of m "node" in
  let ls : labels := {[ "cluster" := cluster; "namespace" := label_of m "namespace" ]} in
  mkPodObs (label_of m "uid") (K8sNodeID cluster node) (s_Timestamp s)
    (if bool_decide (node = "") then ls else <["node" := K8sNodeID cluster node]> ls)
    node (label_of m "pod_ip").

(** pkg/build/topology.go@302-304, [parseTopology]: newest first, then the
    larger UID. *)
Definition obs_cmp : podObs → podObs → comparison :=
  cmp_lex (cmp_rev (on_key obs_ts Z.compare)) (cmp_rev (on_key obs_uid String.compare)).

(** pkg/build/topology.go@243-271, [parseTopology]: each group, sorted as the
    loop below leaves it. *)
Definition pod_groups (mc : clusterResolver) (vec : list Sample) : gmap podNameKey (list podObs) :=
  (λ g : list podObs, sort_func obs_cmp g) <$> append_by (pod_row_key mc) (pod_row_obs mc) vec ∅.

(** pkg/build/topology.go, [mergeSameUIDLabels] *)
Definition mergeSameUIDLabels (group : list podObs) : gmap string labels :=
  fold_keyed (λ obs, Some (obs_uid obs))
    (λ o obs, Some (default ∅ o ∪ filter (λ kv : string * string, kv.2 ≠ "") (obs_labels obs)))
    group ∅.

(** pkg/build/topology.go@318-324, [parseTopology]: the newest address the
    canonical UID reported. *)
Definition group_ip (uid : string) (group : list podObs) : string :=
  match filter (λ obs, obs_uid obs = uid ∧ obs_podIP obs ≠ "") group with
  | obs :: _ => obs_podIP obs
  | [] => ""
  end.

(** The indexes a pod reads its attributes from. *)
Record podIndexes := mkPodIndexes {
  px_owners : gmap podNameKey ownerRef;
  px_applications : gmap podNameKey string;
  px_containers : gmap podNameKey (list Container);
}.

(** pkg/build/topology.go@310-346, [parseTopology]: the pod of one group; [None]
    on an empty one, which no key has. *)
Definition new_pod (px : podIndexes) (k : podNameKey) (group : list podObs) : option (string * PodNode) :=
  match group with
  | [] => None
  | canonical :: _ =>
      let ip := group_ip (obs_uid canonical) group in
      Some (obs_uid canonical,
        mkPodNode (PodID (pnk_cluster k) (obs_uid canonical)) (pnk_pod k)
          (default ∅ (mergeSameUIDLabels group !! obs_uid canonical))
          (if bool_decide (ip = "") then [] else [ip])
          ((λ o, mkOwner (or_kind o) (or_name o)) <$> px_owners px !! k)
          (default "" (px_applications px !! k)) (default [] (px_containers px !! k)) [] "")
  end.

(** The pods by (cluster, namespace, name), with their UIDs. *)
Definition pods_by_name (px : podIndexes) (groups : gmap podNameKey (list podObs))
  : gmap podNameKey (string * PodNode) := map_imap (new_pod px) groups.

(** pkg/build/topology.go@276-294, [parseTopology]: [addPodToIndex] over the
    pods in range order; on a duplicate UID the smaller id wins. *)
Definition pods_by_uid (pods : list (string * PodNode)) : gmap string PodNode :=
  fold_keyed (λ p, if bool_decide (p.1 = "") then None else Some p.1)
    (λ o p, match o with
            | Some existing => if str_lt (pod_ID p.2) (pod_ID existing) then Some p.2 else None
            | None => Some p.2
            end) pods ∅.

(** ** Claims *)

(** The indexes a claim reads its attributes from. *)
Record claimIndexes := mkClaimIndexes {
  kx_info : gmap pvcKey pvcInfoAttrs;
  kx_usage : gmap pvcKey UsageBytes;
  kx_applications : gmap pvcKey string;
}.

Definition no_attrs : pvcInfoAttrs := mkPvcInfoAttrs "" "" no_zone.

(** pkg/build/topology.go@367-391, [parseTopology]: [newPVC]. *)
Definition new_pvc (kx : claimIndexes) (k : pvcKey) : PVCNode :=
  let attrs := default no_attrs (kx_info kx !! k) in
  let ls : labels := {[ "cluster" := pk_cluster k; "namespace" := pk_namespace k ]} in
  mkPVCNode (PVCID (pk_cluster k) (pk_namespace k) (pk_claim k)) (pk_claim k)
    (if bool_decide (pi_volumeName attrs = "") then ls else <["volumename" := pi_volumeName attrs]> ls)
    (pi_storageClass attrs) (default "" (kx_applications kx !! k)) (kx_usage kx !! k) None [] "".

Definition set_pvc_labels (f : labels → labels) (p : PVCNode) : PVCNode :=
  mkPVCNode (pvc_ID p) (pvc_Name p) (f (pvc_Labels p)) (pvc_StorageClass p) (pvc_Application p)
    (pvc_Usage p) (pvc_QoS p) (pvc_Alerts p) (pvc_Status p).

(** pkg/build/topology.go@355-358, [parseTopology]: the claims minted so far, by
    id and in order, the bindings, and the clusters they were read in. *)
Record claimState := mkClaimState {
  cs_byID : gmap string PVCNode;
  cs_order : list string;
  cs_bindings : list PodPVCBinding;
  cs_clusters : list string;
}.

(** Mint a claim unless its id exists. *)
Definition mint (kx : claimIndexes) (k : pvcKey) (st : claimState) : claimState :=
  let id := PVCID (pk_cluster k) (pk_namespace k) (pk_claim k) in
  match cs_byID st !! id with
  | Some _ => st
  | None => mkClaimState (<[id := new_pvc kx k]> (cs_byID st)) (cs_order st ++ [id]) (cs_bindings st)
              (pk_cluster k :: cs_clusters st)
  end.

(** The claim a binding row names. *)
Definition binding_claim (m : Metric) : string :=
  let claim := label_of m "persistentvolumeclaim" in
  if bool_decide (claim = "") then label_of m "claim_name" else claim.

(** pkg/build/topology.go@411-415, [parseTopology]: the smallest volume. *)
Definition volume_label (vol : string) (ls : labels) : labels :=
  if bool_decide (vol = "") then ls
  else match ls !! "volume" with
       | Some cur => if str_lt vol cur then <["volume" := vol]> ls else ls
       | None => <["volume" := vol]> ls
       end.

(** pkg/build/topology.go@392-430, [parseTopology]: one binding row. *)
Definition claim_step (mc : clusterResolver) (kx : claimIndexes) (uids : gmap podNameKey string)
  (st : claimState) (s : Sample) : claimState :=
  let m := s_Metric s in
  let cluster := identify mc m in
  let ns := label_of m "namespace" in
  let claim := binding_claim m in
  if bool_decide (claim = "") then st
  else
    let id := PVCID cluster ns claim in
    let st := mint kx (mkPvcKey cluster ns claim) st in
    let byID := alter (set_pvc_labels (volume_label (label_of m "volume"))) id (cs_byID st) in
    let podName := label_of m "pod" in
    let bindings :=
      if bool_decide (podName = "") then cs_bindings st
      else match uids !! mkPodNameKey cluster ns podName with
           | Some uid =>
               let b := mkBinding (PodID cluster uid) id in
               if bool_decide (b ∈ cs_bindings st) then cs_bindings st else cs_bindings st ++ [b]
           | None => cs_bindings st
           end in
    mkClaimState byID (cs_order st) bindings (cluster :: cs_clusters st).

Definition pvcKey_cmp : pvcKey → pvcKey → comparison :=
  cmp_lex (on_key pk_cluster String.compare)
    (cmp_lex (on_key pk_namespace String.compare) (on_key pk_claim String.compare)).

(** pkg/build/topology.go@432-444, [parseTopology] *)
Definition unbound_claims (kx : claimIndexes) (st : claimState) : claimState :=
  fold_left (λ st k, mint kx k st) (sort_func pvcKey_cmp (map_to_list (kx_info kx)).*1) st.

(** pkg/build/topology.go@352-444, [parseTopology] *)
Definition parse_claims (mc : clusterResolver) (kx : claimIndexes) (uids : gmap podNameKey string)
  (v : topologyVectors) : claimState :=
  let st := fold_left (claim_step mc kx uids) (v_PVC v) (mkClaimState ∅ [] [] []) in
  if v_MaterialiseUnboundClaims v then unbound_claims kx st else st.

(** [pvcs], in the order the claims were minted. *)
Definition claims_in_order (st : claimState) : list PVCNode := omap (λ id, cs_byID st !! id) (cs_order st).

(** pkg/build/topology.go@453-463, [parseTopology]: the Application of each pod
    id. *)
Definition pod_app_by_id (pods : list PodNode) : gmap string string :=
  fold_keyed (λ p, if bool_decide (pod_Application p = "") then None else Some (pod_ID p))
    (λ o p, match o with
            | Some cur => if str_lt (pod_Application p) cur then Some (pod_Application p) else None
            | None => Some (pod_Application p)
            end) pods ∅.

(** pkg/build/topology.go@464-471, [parseTopology] *)
Definition inherit_app (inherited : gmap string string) (p : PVCNode) : PVCNode :=
  if bool_decide (pvc_Application p = "") then
    mkPVCNode (pvc_ID p) (pvc_Name p) (pvc_Labels p) (pvc_StorageClass p)
      (default "" (inherited !! pvc_ID p)) (pvc_Usage p) (pvc_QoS p) (pvc_Alerts p) (pvc_Status p)
  else p.

(** pkg/build/topology.go@475-481, [parseTopology]: the claims the volume join
    starts from. *)
Definition join_claims (info : gmap pvcKey pvcInfoAttrs) (pvcs : list PVCNode) : list pvcVolume :=
  omap (λ p, let vn := lget (pvc_Labels p) "volumename" in
             if bool_decide (vn = "") then None
             else let k := mkPvcKey (lget (pvc_Labels p) "cluster") (lget (pvc_Labels p) "namespace") (pvc_Name p) in
                  Some (mkPvcVolume (pvc_ID p) vn (pi_zone (default no_attrs (info !! k))))) pvcs.

(** pkg/build/topology.go@483-488, [parseTopology]: a later edge of the same
    claim overwrites. *)
Definition aggr_by_pvc (edges : list Edge) : gmap string string :=
  fold_keyed (λ e, if bool_decide (edge_Type e = EdgeTypePVCToNetAppAggr) then Some (Source e) else None)
    (λ _ e, Some (Target e)) edges ∅.

(** pkg/build/topology.go@489-502, [parseTopology] *)
Definition stamp_join (r : netappResult) (p : PVCNode) : PVCNode :=
  let ls := pvc_Labels p in
  let ls := match svmByPVC r !! pvc_ID p with
            | Some ref => if bool_decide (ref_SVM ref = "") then ls else <["svm" := ref_SVM ref]> ls
            | None => ls
            end in
  let ls := match aggr_by_pvc (nr_edges r) !! pvc_ID p with
            | Some aggr => <["aggr" := aggr]> ls
            | None => ls
            end in
  mkPVCNode (pvc_ID p) (pvc_Name p) ls (pvc_StorageClass p) (pvc_Application p) (pvc_Usage p)
    (match qosByPVC r !! pvc_ID p with Some q => Some q | None => pvc_QoS p end)
    (pvc_Alerts p) (pvc_Status p).

(** ** Services *)

(** pkg/build/topology.go@506-518, [parseTopology] *)
Definition services_by_name (mc : clusterResolver) (vec : list Sample) : gmap serviceKey ServiceObs :=
  fold_keyed (λ s, (λ '(c, n, k), mkServiceKey c n k) <$> named_key mc "service" (s_Metric s))
    (λ _ s, Some (mkServiceObs (label_of (s_Metric s) "cluster_ip"))) vec ∅.

(** pkg/build/topology.go@524-536, [parseTopology]: the service of each
    (cluster, namespace, slice). *)
Definition slice_to_service (mc : clusterResolver) (vec : list Sample) : gmap (string * string * string) string :=
  fold_keyed (λ s, if bool_decide (label_of (s_Metric s) "label_kubernetes_io_service_name" = "") then None
                   else named_key mc "endpointslice" (s_Metric s))
    (λ _ s, Some (label_of (s_Metric s) "label_kubernetes_io_service_name")) vec ∅.

(** pkg/build/topology.go@543-569, [parseTopology]: the service and the pod one
    endpoint row joins. *)
Definition endpoint_of (mc : clusterResolver) (slices : gmap (string * string * string) string)
  (pods : gmap podNameKey PodNode) (s : Sample) : option (serviceKey * PodNode) :=
  let m := s_Metric s in
  let cluster := identify mc m in
  let ns := label_of m "namespace" in
  svc ← slices !! (cluster, ns, label_of m "endpointslice");
  let kind := label_of m "targetref_kind" in
  if negb (bool_decide (kind = "")) && negb (bool_decide (kind = "Pod")) then None
  else
    let tns := label_of m "targetref_namespace" in
    let targetNS := if bool_decide (tns = "") then ns else tns in
    let target := label_of m "targetref_name" in
    if bool_decide (target = "") then None
    else (λ p, (mkServiceKey cluster ns svc, p)) <$> pods !! mkPodNameKey cluster targetNS target.

(** pkg/build/topology.go@542-569, [parseTopology] *)
Definition endpoints_by_service (mc : clusterResolver) (slices : gmap (string * string * string) string)
  (pods : gmap podNameKey PodNode) (vec : list Sample) : gmap serviceKey (list EndpointObs) :=
  append_by (λ kp : serviceKey * PodNode, Some kp.1) (λ kp, mkEndpointObs kp.2)
    (omap (endpoint_of mc slices pods) vec) ∅.

(** ** The parse *)

Section parse.
Context `{EdgeUUID, MetricFingerprint}.

(** pkg/build/topology.go@60-71, [parseTopology]: the identity table, read off
    the families that mint entities. *)
Definition minting_rows (v : topologyVectors) : list Sample :=
  v_Pod v ++ v_Node v ++ v_Service v ++ v_PVC v ++
  (if v_MaterialiseUnboundClaims v then v_PVCInfo v else []).
(** pkg/build/topology.go@53-71, [parseTopology] *)
Definition topology_resolver (v : topologyVectors) (keys : LabelKeys) : clusterResolver :=
  observe_all (newClusterResolver keys) (map s_Metric (minting_rows v)).

(** pkg/build/topology.go@96-117, [parseTopology] *)
Definition pod_applications (mc : clusterResolver) (v : topologyVectors) (owners : gmap podNameKey ownerRef)
  (meta : option appMetadataIndex) : gmap podNameKey string :=
  resolvePodApplications (default ∅ (ix_podApps <$> meta)) owners (resolveControllerApplications v mc)
    (resolveJobCronJobOwners (v_JobOwner v) mc) (v_JobAnnotationsDegraded v).

(** The clusters the rows were read in, each loop adding its own. *)
Definition observed_clusters (mc : clusterResolver) (v : topologyVectors) (st : claimState)
  (endpoints : list (serviceKey * PodNode)) : list string :=
  let of_rows (keep : Metric → bool) (vec : list Sample) :=
    map (λ s, identify mc (s_Metric s)) (filter (λ s, keep (s_Metric s) = true) vec) in
  let has l m := negb (bool_decide (label_of m l = "")) in
  sort_func String.compare (remove_dups (
    of_rows (λ _, true) (v_Addr v) ++ of_rows (λ _, true) (v_NodeLabels v) ++
    of_rows (has "node") (v_Node v) ++ of_rows (has "uid") (v_Pod v) ++ cs_clusters st ++
    of_rows (has "service") (v_Service v) ++
    of_rows (λ m, has "endpointslice" m && has "label_kubernetes_io_service_name" m) (v_EpLabels v) ++
    map (λ kp, sk_cluster kp.1) endpoints)).

(** pkg/build/topology.go@47-602, [parseTopology] *)
Definition parseTopology (v : topologyVectors) (keys : LabelKeys) (win : alertWindow) : Topology :=
  let mc := topology_resolver v keys in
  let podOwners := resolvePodOwners (v_PodOwner v) (v_ReplicaSetOwner v) mc in
  let pvcInfo := resolvePVCInfo (v_PVCInfo v) mc in
  let kx := mkClaimIndexes pvcInfo (resolvePVCUsage (v_KubeletVolumeUsed v) (v_KubeletVolumeCapacity v) mc)
              (resolvePVCApplications (v_PVCAnnotations v) mc) in
  let meta := (λ src, resolveAppMetadata src mc (default [] (v_AppMetadata v))) <$> v_AppMetadataSource v in
  let read := _ ← v_AppMetadata v; meta in
  let px := mkPodIndexes podOwners (pod_applications mc v podOwners meta)
              (resolvePodContainers (v_PodContainerInfo v) mc) in
  let groups := pod_groups mc (v_Pod v) in
  let named := pods_by_name px groups in
  let pods := (map_to_list named).*2 in
  let uids := omap (λ g : list podObs, obs_uid <$> head g) groups in
  let st := parse_claims mc kx uids v in
  let inherited := pvcInheritedApps (cs_bindings st) (pod_app_by_id pods.*2) in
  let pvcs := map (inherit_app inherited) (claims_in_order st) in
  let netapp := resolveNetAppStorage (volumeKey v) (join_claims pvcInfo pvcs) v (cr_keys mc) in
  let slices := slice_to_service mc (v_EpLabels v) in
  let podsByNameNS := snd <$> named in
  mkTopology pods.*2 (k8s_nodes mc v) (map (stamp_join netapp) pvcs)
    (nr_aggrs netapp) (nr_nodes netapp) (nr_edges netapp)
    (cs_bindings st) (v_MaterialiseUnboundClaims v) (nr_inventory netapp) (v_Alerts v) (svmByPVC netapp)
    (pods_by_uid pods) (services_by_name mc (v_Service v))
    (endpoints_by_service mc slices podsByNameNS (v_EpEndpoints v))
    (resolveServiceApplications (v_ServiceAnnotations v) mc)
    (observed_clusters mc v st (omap (endpoint_of mc slices podsByNameNS) (v_EpEndpoints v)))
    (snapshot mc) (namespaceMetadataOf <$> read) (applicationMetadataOf <$> read)
    mc (ontapZonesOf v (cr_keys mc)) win.

(** pkg/build/topology_edges.go, [TopologyEdges] *)
Definition TopologyEdges (t : Topology) : list Edge :=
  let pvcByID := fold_keyed (λ p, Some (pvc_ID p)) (λ _ p, Some p) (PVCs t) (∅ : gmap string PVCNode) in
  omap (λ b, (λ p, NewEdge EdgeTypePodMountsPVC (b_PodID b) (b_PVCID b) {[ "claim_name" := pvc_Name p ]}) <$>
             pvcByID !! b_PVCID b) (PodPVCs t) ++
  map (λ k : string * string, NewEdge EdgeTypePodToNode k.1 k.2 ∅)
    (keep_first ∅ (filter (λ k : string * string, k.2 ≠ "")
                     (map (λ p, (pod_ID p, lget (pod_Labels p) "node")) (Pods t)))).
End parse.

(** ** A parsed topology is closed *)

Section closed.
Context (mc : clusterResolver) (kx : claimIndexes) (uids : gmap podNameKey string).

Record claims_ok (st : claimState) : Prop := {
  ok_order : ∀ id, id ∈ cs_order st ↔ is_Some (cs_byID st !! id);
  ok_nodup : NoDup (cs_order st);
  ok_id : ∀ id p, cs_byID st !! id = Some p → pvc_ID p = id;
  ok_claims : ∀ b, b ∈ cs_bindings st → is_Some (cs_byID st !! b_PVCID b);
  ok_pods : ∀ b, b ∈ cs_bindings st →
    ∃ k uid, uids !! k = Some uid ∧ b_PodID b = PodID (pnk_cluster k) uid;
  ok_bindings : NoDup (cs_bindings st);
}.

Lemma mint_ok k st : claims_ok st → claims_ok (mint kx k st).
Proof.
  intros [Ho Hn Hi Hc Hp Hb]. unfold mint. set (id := PVCID _ _ _).
  destruct (cs_byID st !! id) as [p|] eqn:E; [by split|].
  split; cbn [cs_byID cs_order cs_bindings]; try done.
  - intros id'. rewrite elem_of_snoc, Ho, lookup_insert_is_Some'. naive_solver.
  - apply NoDup_app. split_and!; [done| |apply NoDup_singleton].
    intros x Hx ->%list_elem_of_singleton. apply Ho in Hx as [? ?]. congruence.
  - intros id' p. rewrite lookup_insert_Some. intros [[<- <-]|[_ ?]]; [done|by apply Hi].
  - intros b Hb'. rewrite lookup_insert_is_Some'. right. by apply Hc.
Qed.

Lemma mint_has k st : is_Some (cs_byID (mint kx k st) !! PVCID (pk_cluster k) (pk_namespace k) (pk_claim k)).
Proof.
  unfold mint. destruct (cs_byID st !! _) as [p|] eqn:E; [by rewrite E|].
  cbn [cs_byID]. by rewrite lookup_insert_eq.
Qed.

Lemma claim_step_ok st s : claims_ok st → claims_ok (claim_step mc kx uids st s).
Proof.
  intros Hst. unfold claim_step. cbv zeta. case_bool_decide; [done|].
  set (k := mkPvcKey _ _ _). set (id := PVCID _ _ _).
  pose proof (mint_ok k st Hst) as [Ho Hn Hi Hc Hp Hb]. pose proof (mint_has k st) as Hid. fold id in Hid.
  set (st' := mint kx k st) in *. clearbody st'.
  assert (∀ id' f, is_Some (alter (set_pvc_labels f) id (cs_byID st') !! id') ↔ is_Some (cs_byID st' !! id')) as Halt
    by (intros id' f; apply lookup_alter_is_Some).
  split; cbn [cs_byID cs_order cs_bindings]; try done.
  - intros id'. by rewrite Ho, Halt.
  - intros id' p. rewrite lookup_alter_Some. intros [(<- & q & Hq & ->)|[_ Hq]]; by apply Hi in Hq.
  - intros b. rewrite Halt. repeat case_match; try apply Hc.
    intros [Hb'|Hb']%elem_of_snoc; [by apply Hc|by subst].
  - intros b. repeat case_match; try apply Hp.
    intros [Hb'| ->]%elem_of_snoc; [by apply Hp|]. by eexists _, _.
  - repeat case_match; try done. breflect. apply NoDup_app. split_and!; [done| |apply NoDup_singleton].
    by intros x Hx ->%list_elem_of_singleton.
Qed.

Lemma parse_claims_ok v : claims_ok (parse_claims mc kx uids v).
Proof.
  unfold parse_claims. set (st0 := fold_left _ _ _).
  assert (claims_ok st0) as H0.
  { unfold st0. assert (claims_ok (mkClaimState ∅ [] [] [])) as Hz.
    { split; cbn; try done; try (intros ? ?%elem_of_nil; done); try apply NoDup_nil_2.
      intros id. rewrite lookup_empty. split; [by intros ?%elem_of_nil|by intros []]. }
    revert Hz. generalize (mkClaimState ∅ [] [] []). induction (v_PVC v) as [|s l IH]; intros st Hst; [done|].
    apply IH. by apply claim_step_ok. }
  destruct (v_MaterialiseUnboundClaims v); [|done]. unfold unbound_claims.
  revert H0. generalize st0. induction (sort_func _ _) as [|k l IH]; intros st Hst; [done|].
  apply IH. by apply mint_ok.
Qed.

Lemma claims_in_order_ids st :
  claims_ok st → map pvc_ID (claims_in_order st) = cs_order st.
Proof.
  intros [Ho _ Hi _ _ _]. unfold claims_in_order.
  assert (∀ id, id ∈ cs_order st → ∃ p, cs_byID st !! id = Some p ∧ pvc_ID p = id) as Hall.
  { intros id Hid. apply Ho in Hid as [p Hp]. exists p. split; [done|by apply Hi]. }
  revert Hall. generalize (cs_order st). intros l Hall. induction l as [|id l IH]; [done|].
  cbn [omap list_omap]. destruct (Hall id) as (p & -> & Hp); [set_solver|]. cbn [map]. rewrite Hp. f_equal.
  apply IH. set_solver.
Qed.
End closed.

Section edges.
Context `{EdgeUUID, MetricFingerprint}.

Lemma stamp_join_id r p : pvc_ID (stamp_join r p) = pvc_ID p.
Proof. done. Qed.
Lemma inherit_app_id m p : pvc_ID (inherit_app m p) = pvc_ID p.
Proof. unfold inherit_app. by case_match. Qed.

Lemma new_pod_some px k o g :
  ∃ p, new_pod px k (o :: g) = Some (obs_uid o, p) ∧ pod_ID p = PodID (pnk_cluster k) (obs_uid o).
Proof. by eexists. Qed.

(** The claims of a parse, by id. *)
Lemma parse_pvc_ids v keys win :
  let mc := topology_resolver v keys in
  ∃ kx uids, (∀ k uid, uids !! k = Some uid →
      ∃ p, p ∈ Pods (parseTopology v keys win) ∧ pod_ID p = PodID (pnk_cluster k) uid) ∧
    map pvc_ID (PVCs (parseTopology v keys win)) = cs_order (parse_claims mc kx uids v) ∧
    PodPVCs (parseTopology v keys win) = cs_bindings (parse_claims mc kx uids v).
Proof.
  cbn zeta. eexists _, _. split; [|split; [|reflexivity]].
  - intros k uid. rewrite lookup_omap. intros Hu. apply bind_Some in Hu as (g & Hg & Hu).
    destruct g as [|o g]; [done|]. injection Hu as <-.
    unfold parseTopology. cbv zeta. cbn [Pods].
    set (px := mkPodIndexes _ _ _). set (groups := pod_groups _ _) in *.
    destruct (new_pod_some px k o g) as (p & Hp & Hid).
    exists p. split; [|done]. apply list_elem_of_fmap. exists (obs_uid o, p). split; [reflexivity|].
    apply list_elem_of_fmap. exists (k, (obs_uid o, p)). split; [reflexivity|]. apply elem_of_map_to_list.
    unfold pods_by_name. by rewrite map_lookup_imap, Hg.
  - unfold parseTopology. cbv zeta. cbn [PVCs]. rewrite !map_map.
    etrans; [|eapply claims_in_order_ids, parse_claims_ok].
    apply map_ext. intros p. by rewrite stamp_join_id, inherit_app_id.
Qed.
End edges.

Section parsed.
Context `{EdgeUUID, MetricFingerprint}.

Lemma join_claims_origin info pvcs c :
  c ∈ join_claims info pvcs → ∃ p, p ∈ pvcs ∧ pv_id c = pvc_ID p.
Proof.
  unfold join_claims. rewrite list_elem_of_omap. intros (p & Hp & Hc). exists p. split; [done|].
  case_bool_decide; [done|]. by injection Hc as <-.
Qed.

Lemma parse_storage_edges v keys win e :
  let t := parseTopology v keys win in
  e ∈ StorageEdges t → edge_Type e = EdgeTypePVCToNetAppAggr ∧
    (∃ c, c ∈ PVCs t ∧ Source e = pvc_ID c) ∧ ∃ a, a ∈ NetAppAggrs t ∧ Target e = aggr_ID a.
Proof.
  cbn zeta. unfold parseTopology. cbv zeta. cbn [StorageEdges PVCs NetAppAggrs].
  set (r := resolveNetAppStorage _ _ _ _). set (pvcs := map (inherit_app _) _) in *.
  intros He. apply storage_join_closed in He as (Ht & (c & Hc & Hs) & Ha).
  apply join_claims_origin in Hc as (p & Hp & Hid). split; [done|]. split; [|done].
  exists (stamp_join r p). split; [by apply list_elem_of_fmap_2|]. by rewrite stamp_join_id, <- Hid.
Qed.

(** A binding joins a pod and a claim of the parse. *)
Lemma parse_bindings v keys win b :
  let t := parseTopology v keys win in
  b ∈ PodPVCs t → (∃ p, p ∈ Pods t ∧ pod_ID p = b_PodID b) ∧ ∃ c, c ∈ PVCs t ∧ pvc_ID c = b_PVCID b.
Proof.
  cbn zeta. destruct (parse_pvc_ids v keys win) as (kx & uids & Hpods & Hids & Hbs).
  pose proof (parse_claims_ok (topology_resolver v keys) kx uids v) as Hok.
  set (t := parseTopology v keys win) in *. clearbody t. intros Hb. rewrite Hbs in Hb. split.
  - destruct (ok_pods _ _ Hok b Hb) as (k & uid & Hk & ->). by apply Hpods.
  - apply (ok_claims _ _ Hok), (ok_order _ _ Hok) in Hb. rewrite <- Hids in Hb.
    apply list_elem_of_fmap in Hb as (c & -> & Hc). by exists c.
Qed.

Lemma find_by_id (ps : list PVCNode) id p :
  fold_keyed (λ p, Some (pvc_ID p)) (λ _ p, Some p) ps (∅ : gmap string PVCNode) !! id = Some p →
  p ∈ ps ∧ pvc_ID p = id.
Proof. intros (r & _ & Hr & [= Hid] & [= ->])%fold_keyed_origin. done. Qed.

(** The ends of the synthesised edges of a topology whose bindings are closed. *)
Lemma topology_edge_ends t :
  (∀ b, b ∈ PodPVCs t → (∃ p, p ∈ Pods t ∧ pod_ID p = b_PodID b) ∧ ∃ c, c ∈ PVCs t ∧ pvc_ID c = b_PVCID b) →
  ∀ e, e ∈ TopologyEdges t → ∃ p, p ∈ Pods t ∧ pod_ID p = Source e ∧
     (edge_Type e = EdgeTypePodMountsPVC ∧ (∃ c, c ∈ PVCs t ∧ pvc_ID c = Target e) ∨
      edge_Type e = EdgeTypePodToNode ∧ lget (pod_Labels p) "node" = Target e ∧ Target e ≠ "").
Proof.
  intros Hb e. unfold TopologyEdges. rewrite elem_of_app, list_elem_of_omap.
  intros [(b & Hbin & He)|(k & -> & Hk)%list_elem_of_fmap].
  - apply fmap_Some in He as (c & Hc & ->). apply find_by_id in Hc as [Hc Hid].
    destruct (Hb b Hbin) as [(p & Hp & Hpid) _]. exists p. split_and!; [done|done|]. left. split; [done|].
    by exists c.
  - apply elem_of_keep_first in Hk as [Hk _]. apply list_elem_of_filter in Hk as [Hne Hk].
    apply list_elem_of_fmap in Hk as (p & -> & Hp). exists p. split_and!; [done|done|]. by right.
Qed.

(** C24: a parsed topology is closed. Claims are unique by id and bindings are
    unique; a binding joins a pod and a claim of the topology; a storage edge
    joins a claim and an aggregate of it; and the synthesised edges are unique,
    a mount edge joining a pod and a claim, a placement edge leaving a pod for
    the node its label names. *)
Theorem parseTopology_closed v keys win :
  let t := parseTopology v keys win in
  NoDup (map pvc_ID (PVCs t)) ∧ NoDup (PodPVCs t) ∧
  (∀ b, b ∈ PodPVCs t → (∃ p, p ∈ Pods t ∧ pod_ID p = b_PodID b) ∧ ∃ c, c ∈ PVCs t ∧ pvc_ID c = b_PVCID b) ∧
  (∀ e, e ∈ StorageEdges t → edge_Type e = EdgeTypePVCToNetAppAggr ∧
     (∃ c, c ∈ PVCs t ∧ Source e = pvc_ID c) ∧ ∃ a, a ∈ NetAppAggrs t ∧ Target e = aggr_ID a) ∧
  (∀ e, e ∈ TopologyEdges t → ∃ p, p ∈ Pods t ∧ pod_ID p = Source e ∧
     (edge_Type e = EdgeTypePodMountsPVC ∧ (∃ c, c ∈ PVCs t ∧ pvc_ID c = Target e) ∨
      edge_Type e = EdgeTypePodToNode ∧ lget (pod_Labels p) "node" = Target e ∧ Target e ≠ "")) ∧
  NoDup (map (λ e, (edge_Type e, Source e, Target e)) (TopologyEdges t)).
Proof.
  cbn zeta. destruct (parse_pvc_ids v keys win) as (kx & uids & Hpods & Hids & Hbs).
  pose proof (parse_claims_ok (topology_resolver v keys) kx uids v) as Hok.
  pose proof (parse_storage_edges v keys win) as Hstorage. cbn zeta in Hstorage.
  pose proof (parse_bindings v keys win) as Hb. cbn zeta in Hb.
  set (t := parseTopology v keys win) in *. clearbody t.
  split_and!; [rewrite Hids; apply Hok|rewrite Hbs; apply Hok|exact Hb|exact Hstorage|by apply topology_edge_ends|].
  unfold TopologyEdges. rewrite map_app, map_map. apply NoDup_app. split_and!.
  - assert (NoDup (PodPVCs t)) as Hnd by (rewrite Hbs; apply Hok). revert Hnd.
      set (byID := fold_keyed _ _ _ _). generalize (PodPVCs t). intros l Hl.
      induction Hl as [|b l Hnin _ IH]; [constructor|]. cbn [omap list_omap].
      destruct (byID !! b_PVCID b) as [c|]; cbn [fmap option_fmap option_map]; [|done].
      cbn [map]. constructor; [|done]. intros Hin. apply list_elem_of_fmap in Hin as (e & Heq & He).
      apply list_elem_of_omap in He as (b' & Hb' & He). apply fmap_Some in He as (c' & _ & ->).
      cbn in Heq. injection Heq as Hp Hc. destruct b, b'. cbn in *. by subst.
  - intros x (e & -> & He)%list_elem_of_fmap (k & Hk & _)%list_elem_of_fmap.
      apply list_elem_of_omap in He as (b & _ & He). by apply fmap_Some in He as (c & _ & ->).
  - apply NoDup_fmap_2; [by intros [] [] [= -> ->]|]. apply NoDup_keep_first.
Qed.
End parsed.

(** A pod scheduled on a node and mounting a claim, read twice. *)
Definition sample_row (ls : list (string * string)) : Sample := mkSample (list_to_map ls) (f_of_Z 1) 0.
Definition sample_topology_vectors : topologyVectors :=
  let pod ip := sample_row [("cluster", "c1"); ("namespace", "shop"); ("pod", "db-0"); ("uid", "u1");
                            ("node", "n1"); ("pod_ip", ip)] in
  let mount pod := sample_row [("cluster", "c1"); ("namespace", "shop"); ("pod", pod);
                               ("persistentvolumeclaim", "data"); ("volume", "vol")] in
  mkTopologyVectors [pod ""; pod "10.0.0.7"]
    [sample_row [("cluster", "c1"); ("node", "n1")]; sample_row [("cluster", "c1"); ("node", "n1"); ("x", "y")]]
    [] [mount "db-0"; mount "db-0"; mount "gone"]
    [sample_row [("cluster", "c1"); ("node", "n1"); ("label_topology_kubernetes_io_zone", "z")]]
    [] [] [] [] [] [] [] [] [] [] [] [] [] [] [] [] [] None None
    false None false false [] [] [] [] [] [] [] [] [] [] [] [] [] [] [] [] [] [] [] [] [] [] [] []
    [] [] [].

#[local] Existing Instance name_uuid.
#[local] Existing Instance no_fingerprint.

Lemma parseTopology_closed_witness :
  let t := parseTopology sample_topology_vectors DefaultLabelKeys (mkAlertWindow 0 0) in
  map edge_ID (TopologyEdges t) = ["pod-mounts-pvc|c1/u1|c1/shop/data"; "pod-to-node|c1/u1|c1/n1"] ∧
  map (λ n, (k8s_ID n, lget (k8s_Labels n) "topology.kubernetes.io/zone")) (Nodes t) = [("c1/n1", "z")] ∧
  map pod_IPAddress (Pods t) = [["10.0.0.7"]] ∧ ClustersObserved t = ["c1"] ∧
  NoDup (map (λ e, (edge_Type e, Source e, Target e)) (TopologyEdges t)).
Proof.
  cbv zeta. split; [by vm_compute|]. split; [by vm_compute|]. split; [by vm_compute|]. split; [by vm_compute|].
  apply (parseTopology_closed sample_topology_vectors DefaultLabelKeys (mkAlertWindow 0 0)).
Defined.
