(* ===== verification/StorageFlow.v ===== *)
(** pkg/build/storageflow.go: the storage-flow graph of a topology: the loaded
    workload, the whole NetApp inventory, and the tier edges of every claim
    that resolved an SVM and is mounted (or is a sink). *)

From S2P Require Import Prelude GoStrings Float64 GraphNode GraphEdge Graph PairScope Fanout.
From S2P Require Import Keyed.
From S2P Require Import Selector AppMetadata BuildIdentity VolumeKey TopologyTypes.
From S2P Require Import TopologyOwners.
From S2P Require Import MetadataPicks NetApp NetAppLemmas NetAppProps Alerts Topology.

(** pkg/build/storageflow.go, [storageChain] *)
Record storageChain := mkStorageChain {
  sc_pvcID : string; sc_svmID : string; sc_aggrID : string; sc_ctrlID : string;
  sc_io : option IOMetrics;
}.

Section flow.
Context `{EdgeUUID}.

(** pkg/build/storageflow.go, [storageFlowNodes] *)
Definition storageFlowNodes (t : Topology) : list GraphNode :=
  map NPod (Pods t) ++ map NK8sNode (Nodes t) ++ map NPVC (PVCs t) ++
  map NNetAppNode (inv_Nodes (Inventory t)) ++ map NNetAppAggr (inv_Aggrs (Inventory t)) ++
  map NNetAppSVM (inv_SVMs (Inventory t)).

(** pkg/build/storageflow.go@106-116, [storageChains]: the aggregate and the
    measurement of each claim; a later edge overwrites. *)
Definition aggr_hits (edges : list Edge) : gmap string (string * option IOMetrics) :=
  fold_keyed (λ e, if bool_decide (edge_Type e = EdgeTypePVCToNetAppAggr) then Some (Source e) else None)
    (λ _ e, Some (Target e, edge_IO e)) edges ∅.
(** pkg/build/storageflow.go@118-128, [storageChains] *)
Definition aggr_owners (aggrs : list NetAppAggrNode) : gmap string string :=
  fold_keyed
    (λ a, if bool_decide (lget (aggr_Labels a) "ontap_cluster" = "") || bool_decide (lget (aggr_Labels a) "node" = "")
          then None else Some (aggr_ID a))
    (λ _ a, Some (NetAppNodeID (lget (aggr_Labels a) "ontap_cluster") (lget (aggr_Labels a) "node")))
    aggrs ∅.

(** pkg/build/storageflow.go@131-148, [storageChains]: one claim. *)
Definition chain_of (hits : gmap string (string * option IOMetrics)) (owners : gmap string string)
  (entry : string * SVMRef) : option storageChain :=
  let '(pvcID, ref) := entry in
  if bool_decide (ref_SVM ref = "") || bool_decide (ref_ONTAPCluster ref = "") then None
  else let svm := NetAppSVMID (ref_ONTAPCluster ref) (ref_SVM ref) in
       Some match hits !! pvcID with
            | Some (aggr, io) => mkStorageChain pvcID svm aggr (default "" (owners !! aggr)) io
            | None => mkStorageChain pvcID svm "" "" None
            end.

(** pkg/build/storageflow.go, [storageChains]: one chain per claim id, sorted by
    it, so the range order does not show. *)
Definition storageChains (t : Topology) : list storageChain :=
  sort_func (on_key sc_pvcID String.compare)
    (omap (chain_of (aggr_hits (StorageEdges t)) (aggr_owners (inv_Aggrs (Inventory t))))
       (map_to_list (SVMByPVC t))).

(** pkg/build/storageflow.go, [podNodeIDs] *)
Definition podNodeIDs (t : Topology) : gmap string string :=
  fold_keyed (λ p, if bool_decide (lget (pod_Labels p) "node" = "") then None else Some (pod_ID p))
    (λ _ p, Some (lget (pod_Labels p) "node")) (Pods t) ∅.

(** pkg/build/storageflow.go@184-190, [storageFlowEdges] *)
Definition mounters (bindings : list PodPVCBinding) : gmap string (list string) :=
  sort_func String.compare <$> append_by (λ b, Some (b_PVCID b)) b_PodID bindings ∅.

(** The arguments of one call of [emit]. *)
Record hop := mkHop {
  h_source : string; h_target : string; h_tier : string; h_labels : labels; h_io : option IOMetrics;
}.

(** pkg/graph/edge.go@55-55, [AttributionSplit] *)
Definition AttributionSplit := "split".

(** pkg/build/storageflow.go@229-264, [storageFlowEdges]: the calls of one
    chain. *)
Definition hops (mounted : list string) (nodeOf : gmap string string) (c : storageChain) : list hop :=
  mkHop (sc_ctrlID c) (sc_aggrID c) StorageTierNodeAggr ∅ None ::
  mkHop (sc_aggrID c) (sc_svmID c) StorageTierAggrSVM ∅ None ::
  mkHop (sc_svmID c) (sc_pvcID c) StorageTierSVMPVC
    (if bool_decide (sc_aggrID c = "") then ∅ else {[ ClaimAggrLabel := sc_aggrID c ]}) (sc_io c) ::
  concat (map (λ pod,
    [mkHop (sc_pvcID c) pod StorageTierPVCPod
       (if 1 <? length mounted then {[ "attribution" := AttributionSplit ]} else ∅) None;
     mkHop pod (default "" (nodeOf !! pod)) StorageTierPodNode ∅ None]) mounted).

(** The edge of one call. *)
Definition hop_edge (h : hop) : Edge :=
  let e := NewEdge EdgeTypeStorageFlow (h_source h) (h_target h) (h_labels h ∪ {[ "tier" := h_tier h ]}) in
  match h_io h with
  | Some io => default e (WithIO (Some e) io)
  | None => e
  end.

(** pkg/build/storageflow.go@192-216, [storageFlowEdges]: [emit], over the
    edges so far and the pairs seen. *)
Definition emit (st : list Edge * gset (string * string)) (h : hop) : list Edge * gset (string * string) :=
  let '(out, seen) := st in
  if bool_decide (h_source h = "") || bool_decide (h_target h = "") then st
  else if bool_decide ((h_source h, h_target h) ∈ seen) then st
  else (out ++ [hop_edge h], {[(h_source h, h_target h)]} ∪ seen).

(** pkg/build/storageflow.go, [storageFlowEdges] *)
Definition storageFlowEdges (chains : list storageChain) (bindings : list PodPVCBinding)
  (nodeOf : gmap string string) (sinkUnmounted : bool) : list Edge :=
  let mountersOf := mounters bindings in
  (fold_left (λ st c,
     let mounted := default [] (mountersOf !! sc_pvcID c) in
     if bool_decide (mounted = []) && negb sinkUnmounted then st
     else fold_left emit (hops mounted nodeOf c) st) chains ([], ∅)).1.

(** pkg/build/storageflow.go, [assembleStorageFlow] *)
Definition assembleStorageFlow (t : Topology) : list GraphNode * list Edge :=
  (SortNodes (storageFlowNodes t),
   SortEdges (storageFlowEdges (storageChains t) (PodPVCs t) (podNodeIDs t) (ClaimSeeded t))).
End flow.

(** ** The emitted edges *)

Section emitted.
Context `{EdgeUUID}.
Implicit Types (h : hop) (e : Edge).

Definition hop_pair h : string * string := (h_source h, h_target h).
(** A call with both endpoints. *)
Definition complete h : Prop := h_source h ≠ "" ∧ h_target h ≠ "".
Definition edge_pair e : string * string := (Source e, Target e).

Lemma hop_edge_fields h :
  edge_Type (hop_edge h) = EdgeTypeStorageFlow ∧ edge_pair (hop_edge h) = hop_pair h ∧
  edge_IO (hop_edge h) = h_io h ∧ edge_Labels (hop_edge h) = h_labels h ∪ {[ "tier" := h_tier h ]}.
Proof. unfold hop_edge, edge_pair, hop_pair. destruct (h_io h); done. Qed.

Definition emitted_ok (hs : list hop) (st : list Edge * gset (string * string)) : Prop :=
  NoDup (map edge_pair st.1) ∧ (∀ p, p ∈ st.2 ↔ p ∈ map edge_pair st.1) ∧
  (∀ e, e ∈ st.1 → ∃ h, h ∈ hs ∧ complete h ∧ e = hop_edge h) ∧
  (∀ h, h ∈ hs → complete h → hop_pair h ∈ map edge_pair st.1).

Lemma emit_ok hs : emitted_ok hs (fold_left emit hs ([], ∅)).
Proof.
  induction hs as [|h hs IH] using rev_ind.
  { split_and!; cbn; [constructor|set_solver|by intros e ?%elem_of_nil|by intros h ?%elem_of_nil]. }
  rewrite fold_left_app. cbn [fold_left]. destruct (fold_left emit hs ([], ∅)) as [out seen].
  destruct IH as (Hnd & Hseen & Hfrom & Hto). cbn [fst snd] in *. unfold emit.
  assert (∀ P : Prop, (complete h → P) → (¬ complete h → P) → P) as Hcase.
  { intros P H1 H2. destruct (decide (h_source h = "" ∨ h_target h = "")); [apply H2|apply H1];
      unfold complete; tauto. }
  destruct (bool_decide (h_source h = "") || bool_decide (h_target h = "")) eqn:Ec.
  - assert (¬ complete h) as Hn.
    { intros [? ?]. apply orb_true_iff in Ec as [Ec|Ec]; by apply bool_decide_eq_true in Ec. }
    split_and!; cbn [fst snd]; try done.
    + intros e He. destruct (Hfrom e He) as (h' & ? & ? & ?). exists h'. set_solver.
    + intros h' [Hh|Hh]%elem_of_snoc Hc'; [by apply Hto|by subst].
  - breflect. assert (complete h) as Hcomp by done.
    case_bool_decide as Hin.
    + split_and!; cbn [fst snd]; try done.
      * intros e He. destruct (Hfrom e He) as (h' & ? & ? & ?). exists h'. set_solver.
      * intros h' [Hh|Hh]%elem_of_snoc Hc'; [by apply Hto|]. subst. by apply Hseen.
    + destruct (hop_edge_fields h) as (_ & Hp & _).
      assert (map edge_pair (out ++ [hop_edge h]) = map edge_pair out ++ [hop_pair h]) as Hm
        by (rewrite map_app; cbn [map]; by rewrite Hp).
      split_and!; cbn [fst snd]; rewrite ?Hm.
      * apply NoDup_app. split_and!; [done| |apply NoDup_singleton].
        intros p Hp' ->%list_elem_of_singleton. by apply Hin, Hseen.
      * intros p. rewrite elem_of_union, elem_of_singleton, elem_of_snoc, Hseen. fold (hop_pair h). tauto.
      * intros e [He|He]%elem_of_snoc; [|exists h; set_solver].
        destruct (Hfrom e He) as (h' & ? & ? & ?). exists h'. set_solver.
      * intros h' [Hh|Hh]%elem_of_snoc Hc'; apply elem_of_snoc; [left; by apply Hto|by right; subst].
Qed.

(** The calls of every drawn chain, in order. *)
Definition drawn (bindings : list PodPVCBinding) (sink : bool) (c : storageChain) : Prop :=
  sink = true ∨ ∃ b, b ∈ bindings ∧ b_PVCID b = sc_pvcID c.

Definition mounted_by (bindings : list PodPVCBinding) (pvc : string) : list string :=
  default [] (mounters bindings !! pvc).

Lemma elem_of_mounted_by bindings pvc pod :
  pod ∈ mounted_by bindings pvc ↔ ∃ b, b ∈ bindings ∧ b_PVCID b = pvc ∧ b_PodID b = pod.
Proof.
  unfold mounted_by, mounters. rewrite lookup_fmap.
  pose proof (lookup_append_by_default (λ b, Some (b_PVCID b)) b_PodID bindings pvc) as Hl.
  assert (default [] (sort_func String.compare <$> append_by (λ b, Some (b_PVCID b)) b_PodID bindings ∅ !! pvc) =
          sort_func String.compare (default [] (append_by (λ b, Some (b_PVCID b)) b_PodID bindings ∅ !! pvc))) as ->.
  { destruct (append_by _ _ _ _ !! pvc); done. }
  rewrite elem_of_sort_func, Hl by apply _. rewrite list_elem_of_fmap.
  setoid_rewrite list_elem_of_filter. split.
  - intros (b & -> & [= Hb] & Hin). by exists b.
  - intros (b & Hin & <- & <-). by exists b.
Qed.

Lemma mounted_by_nil bindings pvc :
  mounted_by bindings pvc = [] ↔ ¬ ∃ b, b ∈ bindings ∧ b_PVCID b = pvc.
Proof.
  split.
  - intros Hnil (b & Hb & Hp). assert (b_PodID b ∈ mounted_by bindings pvc) as Hin
      by (apply elem_of_mounted_by; by exists b). rewrite Hnil in Hin. by apply elem_of_nil in Hin.
  - intros Hn. apply elem_of_nil_inv. intros pod (b & Hb & Hp & _)%elem_of_mounted_by. by apply Hn; exists b.
Qed.

(** The calls made for a list of chains. *)
Definition all_hops (bindings : list PodPVCBinding) (nodeOf : gmap string string) (sink : bool)
  (chains : list storageChain) : list hop :=
  concat (map (λ c, if bool_decide (mounted_by bindings (sc_pvcID c) = []) && negb sink then []
                    else hops (mounted_by bindings (sc_pvcID c)) nodeOf c) chains).

Lemma storageFlowEdges_hops chains bindings nodeOf sink :
  storageFlowEdges chains bindings nodeOf sink =
  (fold_left emit (all_hops bindings nodeOf sink chains) ([], ∅)).1.
Proof.
  unfold storageFlowEdges, all_hops. cbv zeta. f_equal. generalize (@nil Edge, (∅ : gset (string * string))).
  induction chains as [|c chains IH]; intros st; [done|]. cbn [fold_left map concat]. rewrite fold_left_app, IH.
  fold (mounted_by bindings (sc_pvcID c)). by destruct (bool_decide _ && negb sink).
Qed.

Lemma elem_of_all_hops bindings nodeOf sink chains h :
  h ∈ all_hops bindings nodeOf sink chains ↔
  ∃ c, c ∈ chains ∧ drawn bindings sink c ∧ h ∈ hops (mounted_by bindings (sc_pvcID c)) nodeOf c.
Proof.
  unfold all_hops. rewrite elem_of_concat. split.
  - intros (hs & (c & -> & Hc)%list_elem_of_fmap & Hh). exists c. split; [done|].
    unfold drawn. pose proof (mounted_by_nil bindings (sc_pvcID c)) as Hnil.
    destruct sink; [rewrite andb_false_r in Hh; split; [by left|done]|]. rewrite andb_true_r in Hh.
    case_bool_decide as Hm; [by apply elem_of_nil in Hh|]. split; [|done]. right.
    destruct (mounted_by bindings (sc_pvcID c)) as [|pod l] eqn:E; [done|].
    assert (pod ∈ mounted_by bindings (sc_pvcID c)) as Hin by (rewrite E; set_solver).
    apply elem_of_mounted_by in Hin as (b & ? & ? & _). by exists b.
  - intros (c & Hc & Hd & Hh). eexists. split; [by apply list_elem_of_fmap; exists c|].
    destruct sink; [by rewrite andb_false_r|]. rewrite andb_true_r.
    rewrite bool_decide_eq_false_2; [done|]. intros Hm%mounted_by_nil. by destruct Hd.
Qed.
End emitted.

(** ** The edges of a storage-flow graph *)

(** The tier path of one claim: what may be drawn for it. *)
Inductive on_path (bindings : list PodPVCBinding) (nodeOf : gmap string string) (c : storageChain)
  : string → string → string → Prop :=
  | path_controller : on_path bindings nodeOf c (sc_ctrlID c) (sc_aggrID c) StorageTierNodeAggr
  | path_aggregate : on_path bindings nodeOf c (sc_aggrID c) (sc_svmID c) StorageTierAggrSVM
  | path_svm : on_path bindings nodeOf c (sc_svmID c) (sc_pvcID c) StorageTierSVMPVC
  | path_claim b : b ∈ bindings → b_PVCID b = sc_pvcID c →
      on_path bindings nodeOf c (sc_pvcID c) (b_PodID b) StorageTierPVCPod
  | path_pod b n : b ∈ bindings → b_PVCID b = sc_pvcID c → nodeOf !! b_PodID b = Some n →
      on_path bindings nodeOf c (b_PodID b) n StorageTierPodNode.

Section edges.
Context `{EdgeUUID}.

Lemma hops_on_path bindings nodeOf c h :
  h ∈ hops (mounted_by bindings (sc_pvcID c)) nodeOf c → complete h →
  on_path bindings nodeOf c (h_source h) (h_target h) (h_tier h) ∧
  (is_Some (h_io h) → h_tier h = StorageTierSVMPVC ∧ h_io h = sc_io c) ∧
  h_labels h !! "tier" = None.
Proof.
  intros Hh [_ Ht]. unfold hops in Hh.
  apply elem_of_cons in Hh as [->|Hh]; [split_and!; [constructor|by intros []|done]|].
  apply elem_of_cons in Hh as [->|Hh]; [split_and!; [constructor|by intros []|done]|].
  apply elem_of_cons in Hh as [->|Hh].
  { split_and!; [constructor|done|]. cbn. by case_bool_decide. }
  apply elem_of_concat in Hh as (l & (pod & -> & Hpod)%list_elem_of_fmap & Hh).
  apply elem_of_mounted_by in Hpod as (b & Hb & Hp & <-).
  apply elem_of_cons in Hh as [->|Hh%list_elem_of_singleton].
  - cbn [h_source h_target h_tier h_io h_labels].
    split_and!; [by apply path_claim|by intros []|by destruct (1 <? _)].
  - subst h. cbn in *. destruct (nodeOf !! b_PodID b) as [n|] eqn:En; cbn in *; [|done].
    split_and!; [by eapply path_pod|by intros []|done].
Qed.

Lemma on_path_hop bindings nodeOf c source target tier :
  on_path bindings nodeOf c source target tier →
  ∃ h, h ∈ hops (mounted_by bindings (sc_pvcID c)) nodeOf c ∧ hop_pair h = (source, target).
Proof.
  assert (∀ b, b ∈ bindings → b_PVCID b = sc_pvcID c → b_PodID b ∈ mounted_by bindings (sc_pvcID c)) as Hm
    by (intros b Hb Hp; apply elem_of_mounted_by; by exists b).
  assert (∀ h pod, pod ∈ mounted_by bindings (sc_pvcID c) →
    h ∈ [mkHop (sc_pvcID c) pod StorageTierPVCPod
           (if 1 <? length (mounted_by bindings (sc_pvcID c)) then {[ "attribution" := AttributionSplit ]} else ∅) None;
         mkHop pod (default "" (nodeOf !! pod)) StorageTierPodNode ∅ None] →
    h ∈ hops (mounted_by bindings (sc_pvcID c)) nodeOf c) as Hin.
  { intros h pod Hpod Hh. unfold hops. do 3 (apply elem_of_cons; right). apply elem_of_concat.
    eexists. split; [|exact Hh]. by apply list_elem_of_fmap; exists pod. }
  unfold hops in *. intros [| | |b Hb Hp|b n Hb Hp Hn].
  - eexists. split; [by apply elem_of_cons; left|done].
  - eexists. split; [do 1 (apply elem_of_cons; right); by apply elem_of_cons; left|done].
  - eexists. split; [do 2 (apply elem_of_cons; right); by apply elem_of_cons; left|done].
  - eexists. split; [eapply (Hin _ (b_PodID b)); [by apply Hm|by apply elem_of_cons; left]|done].
  - eexists. split; [eapply (Hin _ (b_PodID b)); [by apply Hm|by apply elem_of_cons; right; apply list_elem_of_singleton]|].
    unfold hop_pair. cbn. by rewrite Hn.
Qed.

(** Every edge comes from a step of a drawn claim's path. *)
Lemma storageFlowEdges_from chains bindings nodeOf sink e :
  e ∈ storageFlowEdges chains bindings nodeOf sink →
  edge_Type e = EdgeTypeStorageFlow ∧ Source e ≠ "" ∧ Target e ≠ "" ∧
  ∃ c, c ∈ chains ∧ drawn bindings sink c ∧
    on_path bindings nodeOf c (Source e) (Target e) (lget (edge_Labels e) "tier") ∧
    (∀ io, edge_IO e = Some io →
       lget (edge_Labels e) "tier" = StorageTierSVMPVC ∧ sc_io c = Some io).
Proof.
  rewrite storageFlowEdges_hops.
  pose proof (emit_ok (all_hops bindings nodeOf sink chains)) as (_ & _ & Hfrom & _).
  intros He. destruct (Hfrom e He) as (h & Hh & Hc & ->).
  apply elem_of_all_hops in Hh as (c & Hcin & Hd & Hh).
  destruct (hops_on_path _ _ _ _ Hh Hc) as (Hpath & Hio & Hlab).
  destruct (hop_edge_fields h) as (Ht & [= Hs Htg] & Hi & Hl).
  assert (lget (edge_Labels (hop_edge h)) "tier" = h_tier h) as Htier.
  { rewrite Hl. unfold lget. rewrite lookup_union_r by done. by rewrite lookup_singleton_eq. }
  rewrite Hs, Htg, Hi, Htier. destruct Hc as [Hc1 Hc2]. split_and!; [done|done|done|].
  exists c. split_and!; [done|done|done|].
  intros io Hio'. destruct Hio as [-> Heq]; [by rewrite Hio'|]. by rewrite <- Heq.
Qed.

(** C27: the storage-flow graph is exactly the union of the tier paths of the
    drawn claims: two entities are joined when some claim that is mounted (or a
    sink) has that step on its path, by one edge however many claims share the
    step; the edge names its tier, and a measurement rides only a claim's own
    svm-pvc edge, unchanged. *)
Theorem storageFlowEdges_exact chains bindings nodeOf sink :
  let es := storageFlowEdges chains bindings nodeOf sink in
  NoDup (map edge_pair es) ∧
  (∀ source target, (source, target) ∈ map edge_pair es ↔
     source ≠ "" ∧ target ≠ "" ∧ ∃ c tier, c ∈ chains ∧ drawn bindings sink c ∧
       on_path bindings nodeOf c source target tier) ∧
  (∀ e, e ∈ es → edge_Type e = EdgeTypeStorageFlow ∧
     ∃ c, c ∈ chains ∧ drawn bindings sink c ∧
       on_path bindings nodeOf c (Source e) (Target e) (lget (edge_Labels e) "tier") ∧
       (∀ io, edge_IO e = Some io →
          lget (edge_Labels e) "tier" = StorageTierSVMPVC ∧ sc_io c = Some io)).
Proof.
  cbn zeta. pose proof (storageFlowEdges_from chains bindings nodeOf sink) as Hedge. revert Hedge.
  rewrite storageFlowEdges_hops.
  pose proof (emit_ok (all_hops bindings nodeOf sink chains)) as (Hnd & _ & _ & Hto).
  set (es := (fold_left emit _ _).1) in *. clearbody es. intros Hedge.
  split_and!; [exact Hnd| |].
  - intros source target. split.
    + intros (e & [= -> ->] & He)%list_elem_of_fmap.
      destruct (Hedge e He) as (_ & Hs & Ht & c & Hc & Hd & Hp & _).
      split_and!; [done|done|]. by exists c, (lget (edge_Labels e) "tier").
    + intros (Hs & Ht & c & tier & Hc & Hd & (h & Hh & Hp)%on_path_hop). rewrite <- Hp.
      apply Hto; [apply elem_of_all_hops; by exists c|]. injection Hp as <- <-. done.
  - intros e He. destruct (Hedge e He) as (Htype & _ & _ & Hc). by split.
Qed.
End edges.

(** ** Over a parsed topology *)

Section composed.
Context `{EdgeUUID, MetricFingerprint}.

Lemma aggr_hits_from es pvc aggr io :
  aggr_hits es !! pvc = Some (aggr, io) → ∃ e, e ∈ es ∧ Source e = pvc ∧ Target e = aggr.
Proof.
  intros (e & o & He & Hk & [= <- _])%fold_keyed_origin. exists e. case_bool_decide; [|done].
  injection Hk as <-. done.
Qed.

Lemma aggr_owners_from aggrs aggr ctrl :
  aggr_owners aggrs !! aggr = Some ctrl →
  ∃ a, a ∈ aggrs ∧ lget (aggr_Labels a) "node" ≠ "" ∧
    ctrl = NetAppNodeID (lget (aggr_Labels a) "ontap_cluster") (lget (aggr_Labels a) "node").
Proof.
  intros (a & o & Ha & Hk & [= <-])%fold_keyed_origin. exists a. destruct (_ || _) eqn:E; [done|].
  apply orb_false_iff in E as [_ E%bool_decide_eq_false]. done.
Qed.

(** Where a chain's parts come from. *)
Lemma chain_origin t c :
  c ∈ storageChains t →
  (∃ ref, SVMByPVC t !! sc_pvcID c = Some ref ∧ ref_ONTAPCluster ref ≠ "" ∧
     sc_svmID c = NetAppSVMID (ref_ONTAPCluster ref) (ref_SVM ref)) ∧
  (sc_aggrID c ≠ "" → ∃ e, e ∈ StorageEdges t ∧ Target e = sc_aggrID c) ∧
  (sc_ctrlID c ≠ "" → ∃ a, a ∈ inv_Aggrs (Inventory t) ∧ lget (aggr_Labels a) "node" ≠ "" ∧
     sc_ctrlID c = NetAppNodeID (lget (aggr_Labels a) "ontap_cluster") (lget (aggr_Labels a) "node")).
Proof.
  unfold storageChains. rewrite elem_of_sort_func by apply _.
  intros ([id ref] & Hin & Hc)%list_elem_of_omap. apply elem_of_map_to_list in Hin.
  unfold chain_of in Hc. destruct (_ || _) eqn:E; [done|]. breflect. injection Hc as <-.
  destruct (aggr_hits (StorageEdges t) !! id) as [[aggr io]|] eqn:Eh; cbn.
  - split_and!.
    + by exists ref.
    + intros _. apply aggr_hits_from in Eh as (e & ? & _ & ?). by exists e.
    + destruct (aggr_owners _ !! aggr) as [ctrl|] eqn:Eo; cbn; [|done]. intros _.
      by apply aggr_owners_from in Eo.
  - split_and!; [by exists ref|done|done].
Qed.

Lemma parse_inventory v keys win :
  ∃ claims r, r = resolveNetAppStorage (volumeKey v) claims v (cr_keys (topology_resolver v keys)) ∧
    let t := parseTopology v keys win in
    Inventory t = nr_inventory r ∧ NetAppAggrs t = nr_aggrs r ∧ SVMByPVC t = svmByPVC r ∧
    ∀ c, c ∈ claims → ∃ p, p ∈ PVCs t ∧ pvc_ID p = pv_id c.
Proof.
  eexists _, _. split; [reflexivity|]. unfold parseTopology. cbv zeta.
  split; [reflexivity|]. split; [reflexivity|]. split; [reflexivity|].
  intros c Hc. apply join_claims_origin in Hc as (p & Hp & Hid). cbn [PVCs].
  eexists. split; [by apply list_elem_of_fmap_2|]. by rewrite stamp_join_id.
Qed.

(** The storage-flow graph of a parsed topology is closed: every edge leaves
    a node of the graph and reaches one, except that a placement step may name a
    Kubernetes node that was not loaded. *)
Theorem assembleStorageFlow_closed v keys win e :
  let g := assembleStorageFlow (parseTopology v keys win) in
  e ∈ g.2 →
  (∃ n, n ∈ g.1 ∧ ID n = Source e) ∧
  (lget (edge_Labels e) "tier" ≠ StorageTierPodNode → ∃ n, n ∈ g.1 ∧ ID n = Target e).
Proof.
  cbn zeta. unfold assembleStorageFlow, SortEdges, SortNodes. cbn [fst snd]. rewrite elem_of_sort_func by apply _.
  destruct (parse_inventory v keys win) as (claims & r & Hr & Hinv & Haggrs & Hsvm & Hclaims). cbn zeta in *.
  pose proof (storage_join_closed (volumeKey v) claims v (cr_keys (topology_resolver v keys))) as (_ & Hsub & _ & _ & Hown).
  cbn zeta in Hsub, Hown. rewrite <- Hr in Hsub, Hown.
  pose proof (svmByPVC_spec (volumeKey v) claims v (cr_keys (topology_resolver v keys))) as Hs.
  cbn zeta in Hs. rewrite <- Hr in Hs.
  pose proof (parse_storage_edges v keys win) as Hse. cbn zeta in Hse.
  pose proof (parse_bindings v keys win) as Hb. cbn zeta in Hb.
  set (t := parseTopology v keys win) in *. clearbody t. clear Hr.
  set (drawn_node id := ∃ n, n ∈ sort_func (on_key ID String.compare) (storageFlowNodes t) ∧ ID n = id).
  assert ((∀ p, p ∈ Pods t → drawn_node (pod_ID p)) ∧ (∀ p, p ∈ PVCs t → drawn_node (pvc_ID p)) ∧
          (∀ n, n ∈ inv_Nodes (Inventory t) → drawn_node (ctrl_ID n)) ∧
          (∀ a, a ∈ inv_Aggrs (Inventory t) → drawn_node (aggr_ID a)) ∧
          (∀ s, s ∈ inv_SVMs (Inventory t) → drawn_node (svm_ID s))) as (Hpod & Hpvc & Hctrl & Haggr & Hsvmn).
  { assert (∀ n, n ∈ storageFlowNodes t → drawn_node (ID n)) as Hall.
    { intros n Hn. exists n. split; [|done]. by rewrite elem_of_sort_func by apply _. }
    unfold storageFlowNodes in Hall. setoid_rewrite elem_of_app in Hall. repeat setoid_rewrite elem_of_app in Hall.
    split_and!; intros x Hx;
      [apply (Hall (NPod x))|apply (Hall (NPVC x))|apply (Hall (NNetAppNode x))
      |apply (Hall (NNetAppAggr x))|apply (Hall (NNetAppSVM x))];
      eauto 8 using list_elem_of_fmap_2. }
  intros (_ & Hs1 & Hs2 & c & Hc & _ & Hp & _)%storageFlowEdges_from.
  destruct (chain_origin t c Hc) as ((ref & Href & Hoc & Hsv) & Ha & Hct).
  rewrite Hsvm in Href. destruct (Hs _ _ Href Hoc) as ((cl & Hcl & Hclid) & sv & Hsvin & Hsvid).
  rewrite <- Hinv in Hsvin.
  assert (sc_aggrID c ≠ "" → drawn_node (sc_aggrID c)) as Hda.
  { intros Hne. destruct (Ha Hne) as (e' & He' & <-). destruct (Hse e' He') as (_ & _ & a & Hain & ->).
    apply Haggr. rewrite Hinv. apply Hsub. by rewrite <- Haggrs. }
  assert (sc_ctrlID c ≠ "" → drawn_node (sc_ctrlID c)) as Hdc.
  { intros Hne. destruct (Hct Hne) as (a & Hain & Hno & ->). rewrite Hinv in Hain.
    destruct (Hown a Hain Hno) as (n & Hn & <-). apply Hctrl. by rewrite Hinv. }
  assert (drawn_node (sc_svmID c)) as Hds by (rewrite Hsv, <- Hsvid; by apply Hsvmn).
  assert (drawn_node (sc_pvcID c)) as Hdp.
  { destruct (Hclaims cl Hcl) as (p & Hpin & Hpid). rewrite <- Hclid, <- Hpid. by apply Hpvc. }
  assert (∀ b, b ∈ PodPVCs t → drawn_node (b_PodID b)) as Hdb.
  { intros b Hbin. destruct (Hb b Hbin) as [(p & Hpin & <-) _]. by apply Hpod. }
  change (drawn_node (Source e) ∧ (lget (edge_Labels e) "tier" ≠ StorageTierPodNode → drawn_node (Target e))).
  revert Hs1 Hs2. clearbody drawn_node. destruct Hp; intros Hs1 Hs2; (split; [by auto|]); intros Htier; by auto.
Qed.
End composed.

Definition sample_flow_vectors : topologyVectors :=
  let pod := sample_row [("cluster", "c1"); ("namespace", "shop"); ("pod", "db-0"); ("uid", "u1"); ("node", "n1")] in
  let mount := sample_row [("cluster", "c1"); ("namespace", "shop"); ("pod", "db-0"); ("persistentvolumeclaim", "data")] in
  let info := sample_row [("cluster", "c1"); ("namespace", "shop"); ("persistentvolumeclaim", "data");
                          ("volumename", "pvc-1")] in
  mkTopologyVectors [pod] [] [] [mount] [] [] [] [] [] [] [] [info] [] [] [] [] [] [] [] [] [] [] None None
    false None false false [sample_label "trident_pvc_1" "a1" "o1" "s1"]
    [] [] [] [] [] [] [] [] [] [] [] [] [] [] [] [] [] [] [] [] [] [] [] [] [] [].

#[local] Existing Instance name_uuid.
#[local] Existing Instance no_fingerprint.

Lemma assembleStorageFlow_closed_witness :
  let g := assembleStorageFlow (parseTopology sample_flow_vectors DefaultLabelKeys (mkAlertWindow 0 0)) in
  map (λ e, (Source e, Target e)) g.2 =
    [("c1/shop/data", "c1/u1"); ("c1/u1", "c1/n1"); (NetAppAggrID "f1" "a1", NetAppSVMID "f1" "s1");
     (NetAppNodeID "f1" "o1", NetAppAggrID "f1" "a1"); (NetAppSVMID "f1" "s1", "c1/shop/data")] ∧
  ∀ e, e ∈ g.2 → ∃ n, n ∈ g.1 ∧ ID n = Source e.
Proof.
  cbv zeta. split; [by vm_compute|]. intros e He.
  by apply (assembleStorageFlow_closed sample_flow_vectors DefaultLabelKeys (mkAlertWindow 0 0) e).
Defined.
