(* ===== verification/NetAddr.v ===== *)
(** What pkg/build uses of the Go standard library's [net] package: [ParseIP],
    [IP.String] and [SplitHostPort], on the forms the package documents. An
    address is its eight 16-bit groups; an IPv4 address is the mapped one.

    [ParseIP_String] is the round trip every canonical-text index relies on. *)

From S2P Require Import Prelude GoStrings Float64 Strconv.

#[local] Open Scope Z_scope.

(** [net.IP], sixteen bytes. *)
Abbreviation IP := (list Z).

(** An octet of a dotted quad: digits, no leading zero, at most 255. *)
Fixpoint decimal (acc : Z) (s : string) : option Z :=
  match s with
  | "" => Some acc
  | String c s' => match digit_of c with
                   | Some d => decimal (acc * 10 + d) s'
                   | None => None
                   end
  end.
Definition octet (s : string) : option Z :=
  match s with
  | "" => None
  | String c rest =>
      if Ascii.eqb c "0" && negb (bool_decide (rest = "")) then None
      else match decimal 0 s with
           | Some v => if v <=? 255 then Some v else None
           | None => None
           end
  end.

(** The two groups of a dotted quad. *)
Definition dotted_quad (s : string) : option (Z * Z) :=
  match split "." s with
  | [a; b; c; d] =>
      match octet a, octet b, octet c, octet d with
      | Some a, Some b, Some c, Some d => Some (a * 256 + b, c * 256 + d)
      | _, _, _, _ => None
      end
  | _ => None
  end.

(** The leading hexadecimal digits, at most [k] of them. *)
Fixpoint hex_group (k : nat) (acc : Z) (s : string) {struct s} : option (Z * string) :=
  match s with
  | "" => Some (acc, "")
  | String c s' =>
      match hex_of c with
      | None => Some (acc, s)
      | Some d => match k with O => None | S k => hex_group k (16 * acc + d) s' end
      end
  end.

(** The loop of an IPv6 address: [room] groups may follow the ones read, [ell]
    is where the double colon stood. *)
Fixpoint groups6 (room : nat) (s : string) (gs : list Z) (ell : option nat) : option (list Z * option nat) :=
  match room, s with
  | O, _ => None
  | _, "" => None
  | S room, String c0 _ =>
      match hex_of c0, hex_group 4 0 s with
      | Some _, Some (v, "") => Some (gs ++ [v], ell)
      | Some _, Some (v, String sep rest) =>
          if Ascii.eqb sep "." then
            if (bool_decide (ell = None) && negb (bool_decide (length gs = 6%nat))) ||
               bool_decide (6 < length gs)%nat then None
            else match dotted_quad s with
                 | Some (hi, lo) => Some (gs ++ [hi; lo], ell)
                 | None => None
                 end
          else if Ascii.eqb sep ":" then
            match rest with
            | "" => None
            | String c1 rest1 =>
                if Ascii.eqb c1 ":" then
                  match ell with
                  | Some _ => None
                  | None =>
                      let e := Some (S (length gs)) in
                      if bool_decide (rest1 = "") then Some (gs ++ [v], e)
                      else groups6 room rest1 (gs ++ [v]) e
                  end
                else groups6 room rest (gs ++ [v]) ell
            end
          else None
      | _, _ => None
      end
  end.

(** The double colon stands for at least one zero group. *)
Definition expand6 (r : list Z * option nat) : option IP :=
  match r with
  | (gs, None) => if bool_decide (length gs = 8%nat) then Some gs else None
  | (gs, Some e) =>
      if bool_decide (length gs < 8)%nat
      then Some (take e gs ++ replicate (8 - length gs) 0 ++ drop e gs) else None
  end.

Definition parse6 (s : string) : option IP :=
  match s with
  | String a (String b rest) =>
      if Ascii.eqb a ":" && Ascii.eqb b ":" then
        if bool_decide (rest = "") then Some (replicate 8 0)
        else match groups6 8 rest [] (Some 0%nat) with Some r => expand6 r | None => None end
      else match groups6 8 s [] None with Some r => expand6 r | None => None end
  | _ => None
  end.

(** The first byte that tells the two families apart. *)
Fixpoint first_sep (s : string) : option ascii :=
  match s with
  | "" => None
  | String c s' => if Ascii.eqb c "." || Ascii.eqb c ":" || Ascii.eqb c "%" then Some c else first_sep s'
  end.

(** [net.ParseIP]: no zone is accepted. *)
Definition ParseIP (s : string) : option IP :=
  if contains_byte "%" s then None else
  match first_sep s with
  | Some "."%char => (λ q, [0; 0; 0; 0; 0; 65535; q.1; q.2]) <$> dotted_quad s
  | Some ":"%char => parse6 s
  | _ => None
  end.

(** ** Text *)

Definition digit_char (d : Z) : ascii :=
  ascii_of_nat (Z.to_nat (if d <? 10 then d + 48 else d + 87)).
Definition dec_text (v : Z) : string :=
  (if v <? 100 then "" else String (digit_char (v / 100)) "") +:+
  (if v <? 10 then "" else String (digit_char (v / 10 mod 10)) "") +:+
  String (digit_char (v mod 10)) "".
Definition hex_text (v : Z) : string :=
  (if v <? 4096 then "" else String (digit_char (v / 4096)) "") +:+
  (if v <? 256 then "" else String (digit_char (v / 256 mod 16)) "") +:+
  (if v <? 16 then "" else String (digit_char (v / 16 mod 16)) "") +:+
  String (digit_char (v mod 16)) "".

Definition dotted_text (hi lo : Z) : string :=
  join "." [dec_text (hi / 256); dec_text (hi mod 256); dec_text (lo / 256); dec_text (lo mod 256)].

Fixpoint zero_run (gs : list Z) : nat :=
  match gs with
  | 0 :: gs' => S (zero_run gs')
  | _ => O
  end.

(** The first longest run of at least two zero groups: its start and length. *)
Fixpoint best_run (i : nat) (best : option (nat * nat)) (gs : list Z) : option (nat * nat) :=
  match gs with
  | [] => best
  | _ :: gs' =>
      let l := zero_run gs in
      best_run (S i)
        (if (2 <=? l)%nat && (default 0%nat (snd <$> best) <? l)%nat then Some (i, l) else best) gs'
  end.

Definition hex_join (gs : list Z) : string := join ":" (map hex_text gs).
Definition text6 (gs : IP) : string :=
  match best_run 0 None gs with
  | Some (s, l) => hex_join (take s gs) +:+ "::" +:+ hex_join (drop (s + l) gs)
  | None => hex_join gs
  end.

(** [net.IP.String], of a sixteen-byte address. *)
Definition IP_String (ip : IP) : string :=
  match ip with
  | [0; 0; 0; 0; 0; 65535; hi; lo] => dotted_text hi lo
  | _ => text6 ip
  end.

(** [net.SplitHostPort]: [None] is its error. *)
Definition SplitHostPort (hostport : string) : option (string * string) :=
  match cut_last ":" hostport, hostport with
  | Some (_, port), String "[" rest =>
      let '(host, tail, found) := cut "]" rest in
      match found, tail with
      | true, String ":" port' =>
          if negb (String.eqb port' port) then None
          else if contains_byte "[" rest || contains_byte "]" tail then None
          else Some (host, port)
      | _, _ => None
      end
  | Some (host, port), _ =>
      if contains_byte ":" host || contains_byte "[" hostport || contains_byte "]" hostport
      then None else Some (host, port)
  | None, _ => None
  end.

Example split_host_port_examples :
  SplitHostPort "mongo.com:27017" = Some ("mongo.com", "27017") ∧
  SplitHostPort "[2001:db8::1]:8080" = Some ("2001:db8::1", "8080") ∧
  SplitHostPort "mongo" = None ∧ SplitHostPort "2001:db8::1" = None ∧
  SplitHostPort "[::1]" = None ∧ SplitHostPort "mongo:27017[-181]" = None.
Proof. vm_compute. done. Qed.

Example parse_ip_examples :
  ParseIP "10.0.0.1" = Some [0; 0; 0; 0; 0; 65535; 2560; 1] ∧
  ParseIP "::ffff:10.0.0.1" = ParseIP "10.0.0.1" ∧
  ParseIP "2001:DB8:0::1" = ParseIP "2001:db8::1" ∧
  (IP_String <$> ParseIP "2001:db8:0:0:1:0:0:1") = Some "2001:db8::1:0:0:1" ∧
  (IP_String <$> ParseIP "::") = Some "::" ∧
  (IP_String <$> ParseIP "1:0:2:3:4:5:6::") = Some "1:0:2:3:4:5:6:0" ∧
  ParseIP "10.0.0.01" = None ∧ ParseIP "10.0.0.256" = None ∧ ParseIP "fe80::1%eth0" = None ∧
  ParseIP "1::2::3" = None ∧ ParseIP "1:2:3:4:5:6:7::8" = None ∧
  ParseIP "mongo" = None.
Proof. vm_compute. done. Qed.

(** ** The round trip *)

Definition group_ok (v : Z) : Prop := 0 <= v < 65536.
Definition ip_ok (ip : IP) : Prop := length ip = 8%nat ∧ Forall group_ok ip.

Lemma digit_char_spec d : 0 <= d < 16 →
  hex_of (digit_char d) = Some d ∧
  (d < 10 → digit_of (digit_char d) = Some d) ∧
  (digit_char d = "0"%char → d = 0) ∧
  (∀ c, c ∈ ["."; ":"; "%"]%char → Ascii.eqb (digit_char d) c = false).
Proof.
  intros Hd.
  assert (∀ n, n ∈ seq 0 16 →
    hex_of (digit_char (Z.of_nat n)) = Some (Z.of_nat n) ∧
    (Z.of_nat n < 10 → digit_of (digit_char (Z.of_nat n)) = Some (Z.of_nat n)) ∧
    (digit_char (Z.of_nat n) = "0"%char → Z.of_nat n = 0) ∧
    (∀ c, c ∈ ["."; ":"; "%"]%char → Ascii.eqb (digit_char (Z.of_nat n)) c = false)) as H.
  { intros n Hn. cbn in Hn.
    repeat (apply elem_of_cons in Hn as [->|Hn];
      [split_and!; [done|done || (intros; lia)|done|intros c Hc;
        repeat (apply elem_of_cons in Hc as [->|Hc]; [done|]); by apply not_elem_of_nil in Hc]|]).
    by apply not_elem_of_nil in Hn. }
  replace d with (Z.of_nat (Z.to_nat d)) by lia. apply H. apply elem_of_seq. lia.
Qed.

Definition stops (rest : string) : Prop :=
  match rest with "" => True | String c _ => hex_of c = None end.

Lemma hex_group_stop k v rest : stops rest → hex_group k v rest = Some (v, rest).
Proof. destruct rest as [|c rest]; [by destruct k|]. cbn. intros ->. by destruct k. Qed.

Lemma hex_group_digit k acc d rest :
  0 <= d < 16 → hex_group (S k) acc (String (digit_char d) rest) = hex_group k (16 * acc + d) rest.
Proof. intros Hd. cbn [hex_group]. by destruct (digit_char_spec d Hd) as (-> & _). Qed.

Ltac zbounds := repeat match goal with
  | |- _ <= ?a / ?b < _ => split; [apply Z.div_pos; lia|apply Z.div_lt_upper_bound; lia]
  | |- _ <= ?a mod ?b < _ => pose proof (Z.mod_pos_bound a b); lia
  | |- _ ∧ _ => split
  end.

Lemma hex_group_text v rest :
  group_ok v → stops rest → hex_group 4 0 (hex_text v +:+ rest) = Some (v, rest).
Proof.
  intros Hv Hr. unfold group_ok in Hv. unfold hex_text.
  rewrite !append_assoc. cbn [String.append].
  assert (hex_group 1 (v / 16) (String (digit_char (v mod 16)) rest) = Some (v, rest)) as H1.
  { rewrite hex_group_digit by zbounds. rewrite <- Z.div_mod by done. by apply hex_group_stop. }
  assert (∀ k, hex_group (S k) (v / 16) (String (digit_char (v mod 16)) rest) = Some (v, rest)) as Hk.
  { intros k. rewrite hex_group_digit by zbounds. rewrite <- Z.div_mod by done. by apply hex_group_stop. }
  assert (∀ k, 16 <= v → hex_group (S (S k)) (v / 256)
    (String (digit_char (v / 16 mod 16)) (String (digit_char (v mod 16)) rest)) = Some (v, rest)) as H2.
  { intros k _. rewrite hex_group_digit by zbounds.
    replace (16 * (v / 256) + v / 16 mod 16) with (v / 16); [apply Hk|].
    rewrite (Z.div_mod (v / 16) 16) at 1 by done. by rewrite Z.div_div by lia. }
  assert (∀ k, hex_group (S (S (S k))) (v / 4096)
    (String (digit_char (v / 256 mod 16)) (String (digit_char (v / 16 mod 16))
      (String (digit_char (v mod 16)) rest))) = Some (v, rest)) as H3.
  { intros k. rewrite hex_group_digit by zbounds.
    replace (16 * (v / 4096) + v / 256 mod 16) with (v / 256).
    - rewrite hex_group_digit by zbounds.
      replace (16 * (v / 256) + v / 16 mod 16) with (v / 16); [apply Hk|].
      rewrite (Z.div_mod (v / 16) 16) at 1 by done. by rewrite Z.div_div by lia.
    - rewrite (Z.div_mod (v / 256) 16) at 1 by done. by rewrite Z.div_div by lia. }
  destruct (Z.ltb_spec v 4096), (Z.ltb_spec v 256), (Z.ltb_spec v 16); try lia; cbn [String.append].
  - specialize (Hk 3%nat). by rewrite Z.div_small in Hk by lia.
  - specialize (H2 2%nat ltac:(lia)). by rewrite Z.div_small in H2 by lia.
  - specialize (H3 1%nat). by rewrite Z.div_small in H3 by lia.
  - rewrite hex_group_digit by zbounds. apply H3.
Qed.

(** The text of a group: it starts with a digit and holds no separator. *)
Lemma hex_text_cons v : group_ok v →
  ∃ d s, 0 <= d < 16 ∧ hex_text v = String (digit_char d) s.
Proof.
  intros Hv. unfold group_ok in Hv. unfold hex_text.
  destruct (Z.ltb_spec v 4096), (Z.ltb_spec v 256), (Z.ltb_spec v 16); try lia; cbn [String.append];
    eexists _, _; (split; [|reflexivity]); zbounds.
Qed.

Lemma digit_char_no d c : 0 <= d < 16 → c ∈ ["."; ":"; "%"]%char →
  contains_byte c (String (digit_char d) "") = false.
Proof.
  intros Hd Hc. cbn [contains_byte]. rewrite orb_false_r. by apply digit_char_spec.
Qed.

Lemma hex_text_no v c : group_ok v → c ∈ ["."; ":"; "%"]%char → contains_byte c (hex_text v) = false.
Proof.
  intros Hv Hc. unfold group_ok in Hv. unfold hex_text. rewrite !contains_byte_app.
  rewrite (digit_char_no (v mod 16)) by (zbounds || done). rewrite orb_false_r.
  rewrite !orb_false_iff; split_and!;
    match goal with |- context [if ?b then _ else _] => destruct b; [done|] end;
    (apply digit_char_no; [zbounds|done]).
Qed.

Lemma hex_join_cons v vs :
  hex_join (v :: vs) = hex_text v +:+ (if bool_decide (vs = []) then "" else ":" +:+ hex_join vs).
Proof.
  destruct vs as [|w vs]; [cbn; by rewrite append_nil_r|]. by unfold hex_join.
Qed.

Lemma hex_join_ne vs : vs ≠ [] → Forall group_ok vs →
  ∃ d s, 0 <= d < 16 ∧ hex_join vs = String (digit_char d) s.
Proof.
  destruct vs as [|v vs]; [done|]. intros _ Hv. apply Forall_cons in Hv as [Hv _].
  rewrite hex_join_cons. destruct (hex_text_cons v Hv) as (d & s & Hd & ->).
  eexists d, _. split; [done|]. reflexivity.
Qed.

Lemma groups6_last v room gs ell : group_ok v →
  groups6 (S room) (hex_text v) gs ell = Some (gs ++ [v], ell).
Proof.
  intros Hv. pose proof (hex_group_text v "" Hv I) as Hg. rewrite append_nil_r in Hg.
  destruct (hex_text_cons v Hv) as (d & s & Hd & Hs). rewrite Hs in *. cbn [groups6].
  rewrite Hg. by destruct (digit_char_spec d Hd) as (-> & _).
Qed.

Lemma groups6_more v w room gs ell : group_ok v → group_ok w → ∀ rest,
  groups6 (S room) (hex_text v +:+ ":" +:+ hex_text w +:+ rest) gs ell =
  groups6 room (hex_text w +:+ rest) (gs ++ [v]) ell.
Proof.
  intros Hv Hw rest.
  pose proof (hex_group_text v (":" +:+ hex_text w +:+ rest) Hv eq_refl) as Hg.
  destruct (hex_text_cons v Hv) as (d & s & Hd & Hs). rewrite Hs in *.
  destruct (hex_text_cons w Hw) as (e & t & He & Ht). rewrite Ht in *. cbn [groups6 String.append] in *.
  rewrite Hg. destruct (digit_char_spec d Hd) as (-> & _).
  destruct (digit_char_spec e He) as (_ & _ & _ & Hc). cbn [Ascii.eqb].
  rewrite (Hc ":"%char) by set_solver. done.
Qed.

Lemma groups6_ellipsis v room gs tail : group_ok v →
  groups6 (S room) (hex_text v +:+ "::" +:+ tail) gs None =
  if bool_decide (tail = "") then Some (gs ++ [v], Some (S (length gs)))
  else groups6 room tail (gs ++ [v]) (Some (S (length gs))).
Proof.
  intros Hv. pose proof (hex_group_text v ("::" +:+ tail) Hv eq_refl) as Hg.
  destruct (hex_text_cons v Hv) as (d & s & Hd & Hs). rewrite Hs in *. cbn [groups6 String.append] in *.
  rewrite Hg. by destruct (digit_char_spec d Hd) as (-> & _).
Qed.

Lemma groups6_join vs : ∀ room gs ell, vs ≠ [] → Forall group_ok vs → (length vs ≤ room)%nat →
  groups6 room (hex_join vs) gs ell = Some (gs ++ vs, ell).
Proof.
  induction vs as [|v vs IH]; intros [|room] gs ell Hne Hok Hlen; cbn in Hlen; try (done || lia).
  apply Forall_cons in Hok as [Hv Hok]. rewrite hex_join_cons. destruct vs as [|w vs].
  - rewrite bool_decide_eq_true_2, append_nil_r by done. by apply groups6_last.
  - rewrite bool_decide_eq_false_2 by done. rewrite hex_join_cons at 1.
    pose proof (Forall_inv Hok) as Hw.
    rewrite groups6_more by done. rewrite <- hex_join_cons, IH by (done || lia).
    by rewrite <- app_assoc.
Qed.

Lemma groups6_join_ellipsis vs : ∀ room gs tail, vs ≠ [] → Forall group_ok vs → (length vs ≤ room)%nat →
  groups6 room (hex_join vs +:+ "::" +:+ tail) gs None =
  if bool_decide (tail = "") then Some (gs ++ vs, Some (length gs + length vs)%nat)
  else groups6 (room - length vs) tail (gs ++ vs) (Some (length gs + length vs)%nat).
Proof.
  induction vs as [|v vs IH]; intros [|room] gs tail Hne Hok Hlen; cbn in Hlen; try (done || lia).
  apply Forall_cons in Hok as [Hv Hok]. rewrite hex_join_cons. destruct vs as [|w vs].
  - rewrite bool_decide_eq_true_2, append_nil_r by done. rewrite groups6_ellipsis by done.
    cbn [length]. replace (S room - 1)%nat with room by lia.
    by replace (length gs + 1)%nat with (S (length gs)) by lia.
  - rewrite bool_decide_eq_false_2 by done. rewrite hex_join_cons at 1.
    pose proof (Forall_inv Hok) as Hw. rewrite !append_assoc.
    rewrite groups6_more by done. rewrite <- append_assoc, <- hex_join_cons, IH by (done || lia).
    rewrite <- app_assoc, length_app. cbn [length app].
    replace (length gs + 1 + S (length vs))%nat with (length gs + S (S (length vs)))%nat by lia.
    by replace (S room - S (S (length vs)))%nat with (room - S (length vs))%nat by lia.
Qed.

(** The compressed run is a run of zeros. *)
Lemma zero_run_spec gs : ∃ rest, gs = replicate (zero_run gs) 0 ++ rest.
Proof.
  induction gs as [|v gs [rest IH]]; [by exists []|].
  destruct v; cbn; [|by eexists|by eexists]. exists rest. by f_equal.
Qed.

Lemma best_run_spec all gs : ∀ i best,
  drop i all = gs →
  (∀ s l, best = Some (s, l) → (2 ≤ l)%nat ∧ ∃ rest, drop s all = replicate l 0 ++ rest) →
  ∀ s l, best_run i best gs = Some (s, l) → (2 ≤ l)%nat ∧ ∃ rest, drop s all = replicate l 0 ++ rest.
Proof.
  induction gs as [|v gs IH]; intros i best Hd Hb; [exact Hb|].
  cbn [best_run]. apply IH.
  - replace (S i) with (i + 1)%nat by lia. by rewrite <- drop_drop, Hd.
  - intros s l. destruct (_ && _) eqn:Ec; [|apply Hb].
    intros [= <- <-]. apply andb_true_iff in Ec as [Ec%Nat.leb_le _]. split; [done|].
    rewrite Hd. apply zero_run_spec.
Qed.

(** The text of an address holds a colon, and no dot and no zone. *)
Lemma hex_join_no vs c : c ∈ ["."; "%"]%char → Forall group_ok vs → contains_byte c (hex_join vs) = false.
Proof.
  intros Hc Hok. induction Hok as [|v vs Hv Hok IH]; [done|].
  rewrite hex_join_cons, contains_byte_app, (hex_text_no v) by (done || set_solver). cbn [orb].
  case_bool_decide; [done|]. rewrite contains_byte_app, IH, orb_false_r.
  repeat (apply elem_of_cons in Hc as [->|Hc]; [done|]). set_solver.
Qed.

Lemma first_sep_app s t : first_sep s = None → first_sep (s +:+ t) = first_sep t.
Proof. induction s as [|c s IH]; [done|]. cbn. by destruct (_ || _). Qed.

Lemma first_sep_hex v : group_ok v → first_sep (hex_text v) = None.
Proof.
  intros Hv. pose proof (hex_text_no v "." Hv ltac:(set_solver)) as H1.
  pose proof (hex_text_no v ":" Hv ltac:(set_solver)) as H2.
  pose proof (hex_text_no v "%" Hv ltac:(set_solver)) as H3.
  induction (hex_text v) as [|c s IH]; [done|]. cbn in *.
  apply orb_false_iff in H1 as [-> ?], H2 as [-> ?], H3 as [-> ?]. by apply IH.
Qed.

Lemma first_sep_hex_join v vs rest : Forall group_ok (v :: vs) → (vs ≠ [] ∨ ∃ r, rest = String ":" r) →
  first_sep (hex_join (v :: vs) +:+ rest) = Some ":"%char.
Proof.
  intros Hok Hr. apply Forall_cons in Hok as [Hv _]. rewrite hex_join_cons, append_assoc.
  rewrite first_sep_app by (by apply first_sep_hex).
  case_bool_decide as Hvs; [|done]. destruct Hr as [Hr|[r ->]]; done.
Qed.

Lemma parse6_digit d s : 0 <= d < 16 →
  (∃ r, groups6 8 (String (digit_char d) s) [] None = Some r) →
  parse6 (String (digit_char d) s) =
  match groups6 8 (String (digit_char d) s) [] None with Some r => expand6 r | None => None end.
Proof.
  intros Hd [r Hr]. destruct s as [|c s].
  - cbn [parse6]. rewrite Hr. cbn in Hr. destruct (digit_char_spec d Hd) as (Hx & _).
    rewrite Hx in Hr. injection Hr as <-. done.
  - cbn [parse6]. destruct (digit_char_spec d Hd) as (_ & _ & _ & Hc).
    by rewrite (Hc ":"%char) by set_solver.
Qed.

Lemma parse6_text ip : ip_ok ip → parse6 (text6 ip) = Some ip.
Proof.
  intros [Hlen Hok]. unfold text6. destruct (best_run 0 None ip) as [[s l]|] eqn:Eb.
  - destruct (best_run_spec ip ip 0 None eq_refl ltac:(done) s l Eb) as [Hl [rest Hrest]].
    pose proof (f_equal length Hrest) as Hlr. rewrite length_drop, length_app, length_replicate in Hlr.
    assert (drop (s + l) ip = rest) as Hdrop.
    { by rewrite <- drop_drop, Hrest, drop_app_length' by (by rewrite length_replicate). }
    assert (ip = take s ip ++ replicate l 0 ++ rest) as Hip by (by rewrite <- Hrest, take_drop).
    assert (length (take s ip) = s) as Hts by (rewrite length_take; lia).
    assert (Forall group_ok rest) as Hrok.
    { rewrite <- Hdrop. by apply Forall_drop. }
    assert (Forall group_ok (take s ip)) as Htok by (by apply Forall_take).
    rewrite Hdrop.
    assert (∀ gs e, gs = take s ip ++ rest → e = s → expand6 (gs, Some e) = Some ip) as Hexp.
    { intros gs e -> ->. cbn [expand6]. rewrite length_app, Hts.
      rewrite bool_decide_eq_true_2 by lia. f_equal. rewrite Hip at 3.
      rewrite take_app_length', drop_app_length' by done. do 2 f_equal. f_equal. lia. }
    assert (rest ≠ [] → hex_join rest ≠ "") as Hne.
    { intros Hr. destruct (hex_join_ne rest Hr Hrok) as (d & t & _ & ->). done. }
    destruct (decide (take s ip = [])) as [Ht|Ht].
    + rewrite Ht in *. cbn [hex_join map join String.concat String.append]. cbn [length] in Hts. subst s.
      cbn [parse6 Ascii.eqb andb]. change (Ascii.eqb ":" ":") with true. cbn [andb].
      destruct (decide (rest = [])) as [->|Hr].
      * cbn. f_equal. rewrite Hip. cbn in Hlr. rewrite Hlen in Hlr.
        by replace l with 8%nat by lia.
      * rewrite bool_decide_eq_false_2 by (by apply Hne).
        rewrite groups6_join by (done || lia). apply Hexp; done.
    + destruct (hex_join_ne _ Ht Htok) as (d & t & Hd & Hs).
      pose proof (groups6_join_ellipsis (take s ip) 8 [] (hex_join rest) Ht Htok ltac:(lia)) as Hg.
      destruct (decide (rest = [])) as [->|Hr].
      * rewrite bool_decide_eq_true_2 in Hg by done. rewrite Hs in *. cbn [String.append] in *.
        rewrite parse6_digit by (done || eauto). rewrite Hg. apply Hexp; [by rewrite app_nil_r|done].
      * rewrite bool_decide_eq_false_2 in Hg by (by apply Hne).
        rewrite groups6_join in Hg by (done || lia). rewrite Hs in *. cbn [String.append] in *.
        rewrite parse6_digit by (done || eauto). rewrite Hg. apply Hexp; done.
  - assert (ip ≠ []) as Hne by (by intros ->).
    destruct (hex_join_ne _ Hne Hok) as (d & t & Hd & Hs).
    pose proof (groups6_join ip 8 [] None Hne Hok ltac:(lia)) as Hg. rewrite Hs in *.
    rewrite parse6_digit by (done || eauto). rewrite Hg. cbn [expand6 app].
    by rewrite bool_decide_eq_true_2.
Qed.

Lemma dec_text_spec v : 0 <= v < 256 →
  octet (dec_text v) = Some v ∧ contains_byte "." (dec_text v) = false ∧
  contains_byte "%" (dec_text v) = false ∧ first_sep (dec_text v) = None.
Proof.
  intros Hv.
  assert (forallb (λ n, let v := Z.of_nat n in bool_decide (octet (dec_text v) = Some v ∧
    contains_byte "." (dec_text v) = false ∧ contains_byte "%" (dec_text v) = false ∧
    first_sep (dec_text v) = None)) (seq 0 256) = true) as H by (vm_compute; done).
  rewrite forallb_forall in H. specialize (H (Z.to_nat v)). cbv zeta in H.
  rewrite Z2Nat.id, bool_decide_eq_true in H by lia.
  apply H. apply in_seq. lia.
Qed.

Lemma dotted_text_parts hi lo : group_ok hi → group_ok lo →
  Forall (λ v, 0 <= v < 256) [hi / 256; hi mod 256; lo / 256; lo mod 256].
Proof. unfold group_ok. intros Hh Hl. rewrite !Forall_cons, Forall_nil. zbounds; done. Qed.

Lemma dotted_quad_text hi lo : group_ok hi → group_ok lo →
  dotted_quad (dotted_text hi lo) = Some (hi, lo) ∧
  contains_byte "%" (dotted_text hi lo) = false ∧
  first_sep (dotted_text hi lo) = Some "."%char.
Proof.
  intros Hh Hl. pose proof (dotted_text_parts hi lo Hh Hl) as Hp.
  rewrite !Forall_cons in Hp. destruct Hp as (Ha & Hb & Hc & Hd & _).
  apply dec_text_spec in Ha as (Ha1 & Ha2 & Ha3 & Ha4), Hb as (Hb1 & Hb2 & Hb3 & _),
    Hc as (Hc1 & Hc2 & Hc3 & _), Hd as (Hd1 & Hd2 & Hd3 & _).
  split_and!.
  - unfold dotted_quad, dotted_text.
    rewrite split_join by (repeat constructor; done).
    rewrite Ha1, Hb1, Hc1, Hd1. f_equal. f_equal; rewrite Z.mul_comm; symmetry; by apply Z.div_mod.
  - unfold dotted_text. cbn [join String.concat].
    by rewrite !contains_byte_app, Ha3, Hb3, Hc3, Hd3.
  - unfold dotted_text. rewrite join_cons2, first_sep_app by done. done.
Qed.

Lemma text6_no ip c : c ∈ ["."; "%"]%char → ip_ok ip → contains_byte c (text6 ip) = false.
Proof.
  intros Hc [_ Hok]. unfold text6. destruct (best_run 0 None ip) as [[s l]|]; [|by apply hex_join_no].
  rewrite !contains_byte_app, !hex_join_no by (done || by apply Forall_take || by apply Forall_drop).
  repeat (apply elem_of_cons in Hc as [->|Hc]; [done|]). set_solver.
Qed.

Lemma text6_sep ip : ip_ok ip → first_sep (text6 ip) = Some ":"%char.
Proof.
  intros [Hlen Hok]. unfold text6. destruct (best_run 0 None ip) as [[s l]|].
  - assert (Forall group_ok (take s ip)) as Htok by (by apply Forall_take).
    destruct (take s ip) as [|v vs]; [done|]. apply first_sep_hex_join; [done|]. right. by eexists.
  - destruct ip as [|v vs]; [done|].
    rewrite <- (append_nil_r (hex_join _)). apply first_sep_hex_join; [done|].
    left. by destruct vs.
Qed.

Lemma hex_of_range c d : hex_of c = Some d → 0 <= d < 16.
Proof. unfold hex_of, digit_of. intros Hx.
  repeat (case_match; try done); simplify_eq; rewrite ?andb_true_iff, ?Z.leb_le in *; lia. Qed.

Lemma digit_of_range c d : digit_of c = Some d → 0 <= d < 10.
Proof. unfold digit_of. intros Hx. case_match; simplify_eq; rewrite andb_true_iff, !Z.leb_le in *; lia. Qed.

Lemma hex_group_range s : ∀ k j acc v rest,
  0 <= acc < 16 ^ Z.of_nat j → hex_group k acc s = Some (v, rest) → 0 <= v < 16 ^ Z.of_nat (j + k).
Proof.
  induction s as [|c s IH]; intros k j acc v rest Ha; cbn [hex_group].
  - intros [= <- _]. split; [lia|]. eapply Z.lt_le_trans; [apply Ha|]. apply Z.pow_le_mono_r; lia.
  - destruct (hex_of c) as [d|] eqn:Ed.
    + destruct k as [|k]; [done|]. intros H. apply hex_of_range in Ed.
      rewrite Nat.add_succ_r, <- Nat.add_succ_l. eapply IH; [|exact H].
      rewrite Nat2Z.inj_succ, Z.pow_succ_r by lia. lia.
    + intros [= <- _]. split; [lia|]. eapply Z.lt_le_trans; [apply Ha|]. apply Z.pow_le_mono_r; lia.
Qed.

Lemma decimal_nonneg s : ∀ acc v, 0 <= acc → decimal acc s = Some v → 0 <= v.
Proof.
  induction s as [|c s IH]; cbn; intros acc v Ha; [by intros [= <-]|].
  destruct (digit_of c) as [d|] eqn:Ed; [|done]. apply IH. apply digit_of_range in Ed. lia.
Qed.

Lemma octet_range s v : octet s = Some v → 0 <= v < 256.
Proof.
  unfold octet. destruct s as [|c s]; [done|]. destruct (_ && _); [done|].
  destruct (decimal 0 _) as [w|] eqn:Ed; [|done]. apply decimal_nonneg in Ed; [|done].
  destruct (Z.leb_spec w 255); [|done]. intros [= <-]. lia.
Qed.

Lemma dotted_quad_range s hi lo : dotted_quad s = Some (hi, lo) → group_ok hi ∧ group_ok lo.
Proof.
  unfold dotted_quad, group_ok. intros Hx. repeat (case_match; try done); simplify_eq.
  repeat match goal with Ho : octet _ = Some _ |- _ => apply octet_range in Ho end. lia.
Qed.

Lemma groups6_range room : ∀ s gs ell gs' ell',
  groups6 room s gs ell = Some (gs', ell') → Forall group_ok gs → Forall group_ok gs'.
Proof.
  induction room as [|room IH]; intros s gs ell gs' ell'; [by destruct s|].
  destruct s as [|c s]; [done|]. cbn [groups6].
  destruct (hex_of c); [|done].
  destruct (hex_group 4 0 (String c s)) as [[v rest]|] eqn:Eg; [|done].
  assert (group_ok v) as Hv by (apply (hex_group_range _ 4 0%nat) in Eg; [exact Eg|lia]).
  assert (∀ gs, Forall group_ok gs → Forall group_ok (gs ++ [v])) as Hsnoc
    by (intros; apply Forall_app; auto).
  destruct rest as [|sep rest]; [intros [= <- _]; auto|].
  destruct (Ascii.eqb sep ".").
  - destruct (_ || _); [done|]. destruct (dotted_quad _) as [[hi lo]|] eqn:Eq; [|done].
    apply dotted_quad_range in Eq as [Hh Hl]. intros [= <- _] Hgs. apply Forall_app. auto.
  - destruct (Ascii.eqb sep ":"); [|done]. destruct rest as [|c1 rest1]; [done|].
    destruct (Ascii.eqb c1 ":").
    + destruct ell; [done|]. case_bool_decide; [intros [= <- _]; auto|].
      intros Hx Hgs. eapply IH; [exact Hx|]. auto.
    + intros H Hgs. eapply IH; [exact H|]. auto.
Qed.

Lemma expand6_ok gs e ip : expand6 (gs, e) = Some ip → Forall group_ok gs → ip_ok ip.
Proof.
  destruct e as [e|]; cbn [expand6]; case_bool_decide as Hl; try done; intros [= <-] Hok; [|done].
  split.
  - rewrite !length_app, length_replicate, length_take, length_drop. lia.
  - rewrite !Forall_app. split_and!; [by apply Forall_take| |by apply Forall_drop].
    apply Forall_replicate. unfold group_ok. lia.
Qed.

(** A parsed address is one. *)
Lemma ParseIP_ok s ip : ParseIP s = Some ip → ip_ok ip.
Proof.
  assert (∀ t ell r ip, groups6 8 t [] ell = Some r → expand6 r = Some ip → ip_ok ip) as Hg.
  { intros t ell [gs e] ip' H He. eapply expand6_ok; [exact He|]. eapply groups6_range; [exact H|done]. }
  assert (parse6 s = Some ip → ip_ok ip) as H6.
  { unfold parse6. destruct s as [|a [|b rest]]; [done..|]. destruct (_ && _).
    - case_bool_decide.
      + intros [= <-]. split; [done|]. repeat constructor; unfold group_ok; lia.
      + destruct (groups6 8 rest [] (Some 0%nat)) as [r|] eqn:E; [|done]. by apply (Hg _ _ _ _ E).
    - destruct (groups6 8 _ [] None) as [r|] eqn:E; [|done]. by apply (Hg _ _ _ _ E). }
  unfold ParseIP. destruct (contains_byte "%" s); [done|].
  assert ((λ q, [0; 0; 0; 0; 0; 65535; q.1; q.2]) <$> dotted_quad s = Some ip → ip_ok ip) as H4.
  { destruct (dotted_quad s) as [[hi lo]|] eqn:E; [|done]. apply dotted_quad_range in E as [Hh Hl].
    intros [= <-]. split; [done|]. rewrite !Forall_cons, Forall_nil. unfold group_ok in *. lia. }
  destruct (first_sep s) as [c|]; [|done].
  destruct c as [[] [] [] [] [] [] [] []]; done || exact H4 || exact H6.
Qed.

(** An address is read back from its canonical text. *)
Lemma ParseIP_String ip : ip_ok ip → ParseIP (IP_String ip) = Some ip.
Proof.
  intros Hip. pose proof Hip as [Hlen Hok].
  assert (IP_String ip = text6 ip ∨ ∃ hi lo, ip = [0; 0; 0; 0; 0; 65535; hi; lo] ∧
    IP_String ip = dotted_text hi lo) as [->|(hi & lo & -> & ->)].
  { unfold IP_String. repeat (case_match; try (by left)); subst. right. eauto. }
  - unfold ParseIP. rewrite (text6_no ip "%") by (done || set_solver).
    rewrite text6_sep by done. by apply parse6_text.
  - rewrite !Forall_cons in Hok. destruct Hok as (_ & _ & _ & _ & _ & _ & Hh & Hl & _).
    destruct (dotted_quad_text hi lo Hh Hl) as (Hq & Hn & Hs).
    unfold ParseIP. by rewrite Hn, Hs, Hq.
Qed.
