(* ===== verification/PeerAddress.v ===== *)
(** pkg/build/routeprescan.go and servicegraph.go, the parts that only read text:
    the client-recorded peer-address labels, the question they pose to the route
    engine, and the grammars that classify a host as a Kubernetes Service. *)

From S2P Require Import Prelude GoStrings NetAddr Float64 PairScope Fanout.
From S2P Require Import Selector BuildIdentity TopologyTypes.

#[local] Open Scope bool_scope.

(** ** Go string helpers *)

(** [strings.Contains]. *)
Definition contains_str (sub s : string) : bool := bool_decide (is_Some (String.index 0 sub s)).

(** The text before the last occurrence of a non-empty [sub],
    [s\[:strings.LastIndex(s, sub)\]]. *)
Fixpoint before_last (sub s : string) : option string :=
  match s with
  | "" => None
  | String a s' =>
      match before_last sub s' with
      | Some x => Some (String a x)
      | None => if has_prefix sub s then Some "" else None
      end
  end.

(** [strings.TrimLeft] and [strings.TrimRight] for a set of ASCII bytes. *)
Fixpoint trim_left (p : ascii → bool) (s : string) : string :=
  match s with
  | "" => ""
  | String a s' => if p a then trim_left p s' else s
  end.
Fixpoint all_bytes (p : ascii → bool) (s : string) : bool :=
  match s with "" => true | String a s' => p a && all_bytes p s' end.
Fixpoint trim_right (p : ascii → bool) (s : string) : string :=
  match s with
  | "" => ""
  | String a s' => if all_bytes p s then "" else String a (trim_right p s')
  end.

(** [strings.TrimSpace]: the white-space runes in front, then the longest blank
    suffix. *)
Fixpoint trim_space_left (s : string) : string :=
  match s with
  | "" => ""
  | String a s1 =>
      if space1 a then trim_space_left s1 else
      match s1 with
      | "" => s
      | String b s2 =>
          if space2 a b then trim_space_left s2 else
          match s2 with
          | "" => s
          | String c s3 => if space3 a b c then trim_space_left s3 else s
          end
      end
  end.
Fixpoint trim_space_right (s : string) : string :=
  match s with
  | "" => ""
  | String a s' => if blank s then "" else String a (trim_space_right s')
  end.
Definition trim_space (s : string) : string := trim_space_right (trim_space_left s).

(** [strings.FieldsFunc] for a predicate on ASCII bytes: the maximal runs that
    do not satisfy it. *)
Fixpoint fields_from (p : ascii → bool) (cur : string) (s : string) : list string :=
  let emit := if bool_decide (cur = "") then [] else [cur] in
  match s with
  | "" => emit
  | String a s' => if p a then emit ++ fields_from p "" s' else fields_from p (cur +:+ String a "") s'
  end.
Definition fields_func (p : ascii → bool) (s : string) : list string := fields_from p "" s.

(** [strconv.Atoi]: [None] is a syntax or a range error. *)
Definition Atoi (s : string) : option Z :=
  let '(neg, body) := match s with
                      | String "-" s' => (true, s')
                      | String "+" s' => (false, s')
                      | _ => (false, s)
                      end in
  if bool_decide (body = "") then None else
  match decimal 0 body with
  | Some v => let n := if neg : bool then (- v)%Z else v in
              if (- 2 ^ 63 <=? n)%Z && (n <? 2 ^ 63)%Z then Some n else None
  | None => None
  end.

(** ** Peer labels *)

(** pkg/build/routeprescan.go@36-43, [peerLabels] *)
Record peerLabels := mkPeerLabels {
  serverAddress : string;
  networkPeerAddress : string;
  netPeerName : string;
  dnsAnswers : string;
  serverPort : string;
  netPeerPort : string;
}.

(** pkg/build/routeprescan.go, [peerLabelsOf] *)
Definition peerLabelsOf (m : Metric) : peerLabels :=
  mkPeerLabels (label_of m "client_server_address") (label_of m "client_network_peer_address")
    (label_of m "client_net_peer_name") (label_of m "client_dns_answers")
    (label_of m "client_server_port") (label_of m "client_net_peer_port").

(** pkg/build/routeprescan.go, [serverPeerLabelsOf] *)
Definition serverPeerLabelsOf (m : Metric) : peerLabels :=
  mkPeerLabels (label_of m "server_server_address") "" (label_of m "server_net_peer_name")
    (label_of m "server_dns_answers") (label_of m "server_server_port") "".

(** pkg/build/routeprescan.go, [peerLabels.value] *)
Definition peer_value (p : peerLabels) : string :=
  if negb (bool_decide (serverAddress p = "")) then serverAddress p
  else if negb (bool_decide (networkPeerAddress p = "")) then networkPeerAddress p
  else netPeerName p.

(** pkg/build/routeprescan.go, [truncateBracketSuffix] *)
Definition truncateBracketSuffix (value : string) : string :=
  match cut "[" value with
  | (before, _, true) => if bool_decide (before = "") then value else before
  | _ => value
  end.

(** pkg/build/routeprescan.go, [splitPeerAddressPort] *)
Definition splitPeerAddressPort (value : string) : string * string :=
  match SplitHostPort value with
  | Some (h, p) => (h, p)
  | None => (value, "")
  end.

(** pkg/build/routeprescan.go@26-26, [defaultListenerPort] *)
Definition defaultListenerPort : Z := 443.

(** A candidate of [derivePort]'s loop. *)
Definition listener_port (cand : string) : option Z :=
  if bool_decide (cand = "") then None else
  match Atoi cand with
  | Some n => if (0 <? n)%Z && (n <=? 65535)%Z then Some n else None
  | None => None
  end.

(** pkg/build/routeprescan.go, [derivePort] *)
Definition derivePort (hostPort : string) (p : peerLabels) : Z :=
  match omap listener_port [hostPort; serverPort p; netPeerPort p] with
  | n :: _ => n
  | [] => defaultListenerPort
  end.

(** The separators of a flattened answer list. *)
Definition answer_sep (c : ascii) : bool :=
  Ascii.eqb c "," || Ascii.eqb c ";" || Ascii.eqb c " " || (nat_of_ascii c =? 9)%nat.

(** pkg/build/routeprescan.go, [parseDNSAnswers] *)
Definition parseDNSAnswers (raw : string) : list string :=
  let bracket c := Ascii.eqb c "[" || Ascii.eqb c "]" in
  let raw := trim_right bracket (trim_left bracket raw) in
  keep_first ∅ (filter (λ f, f ≠ "" ∧ is_Some (ParseIP f)) (map trim_space (fields_func answer_sep raw))).

(** ** Questions *)

(** pkg/build/routeprescan.go@189-195, [routeKey] *)
Record routeKey := mkRouteKey {
  callerCluster : string; key_host : string; key_path : string; key_port : Z; key_ips : string;
}.
#[export] Instance routeKey_eq_dec : EqDecision routeKey.
Proof. solve_decision. Defined.
#[export] Instance routeKey_countable : Countable routeKey.
Proof.
  refine (inj_countable' (λ k, (callerCluster k, key_host k, key_path k, key_port k, key_ips k))
            (λ p, mkRouteKey p.1.1.1.1 p.1.1.1.2 p.1.1.2 p.1.2 p.2) _). by intros [].
Defined.

(** pkg/build/routeresolve.go@17-45, [RouteRequest] *)
Record RouteRequest := mkRouteRequest {
  req_CallerCluster : string; req_Host : string; req_Path : string; req_Port : Z;
  req_IPs : list string; req_At : Z;
}.

(** pkg/build/routeresolve.go@58-79, [RouteDestination] *)
Record RouteDestination := mkRouteDestination {
  dest_Cluster : string; dest_Namespace : string; dest_Service : string;
  dest_Port : Z; dest_Subset : string;
  dest_IngressNamespace : string; dest_IngressService : string;
}.

(** pkg/build/routeresolve.go@89-137, [RouteOutcome]: the outcomes a resolver
    answers with. *)
Inductive RouteOutcome :=
  | RouteHit | RouteNoGateway | RouteNoListenerOnPort | RouteNoServerForHost | RouteNoRoute
  | RouteNoIngress | RouteAmbiguousIngress | RouteIngressLBService | RouteAmbiguousIngressService.
#[export] Instance RouteOutcome_eq_dec : EqDecision RouteOutcome.
Proof. solve_decision. Defined.

(** pkg/build/routeprescan.go@201-205, [routeEntry] *)
Record routeEntry := mkRouteEntry {
  entry_dest : RouteDestination; entry_outcome : RouteOutcome; entry_failed : bool;
}.

(** pkg/build/routeprescan.go@209-209, [routeIndex]; a nil index, engine off, is
    [None] where the distinction is read. *)
Abbreviation routeIndex := (gmap routeKey routeEntry).

(** The host both the classification and the key are derived from. *)
Definition peer_host (value : string) : string * string :=
  splitPeerAddressPort (truncateBracketSuffix value).

(** pkg/build/routeprescan.go, [peerRouteKey] *)
Definition peerRouteKey (anchorCluster : string) (peer : peerLabels) : option routeKey :=
  let value := peer_value peer in
  if bool_decide (value = "") then None
  else
    let '(host, portStr) := peer_host value in
    Some (mkRouteKey anchorCluster host "/" (derivePort portStr peer)
            (join "," (parseDNSAnswers (dnsAnswers peer)))).

(** pkg/build/routeprescan.go, [routeKey.request] *)
Definition request (k : routeKey) (at_ : Z) : RouteRequest :=
  mkRouteRequest (callerCluster k) (key_host k) (key_path k) (key_port k)
    (if bool_decide (key_ips k = "") then [] else split "," (key_ips k)) at_.

(** ** Classification *)

(** pkg/build/servicegraph.go, [sentinelUnknown] *)
Definition sentinelUnknown := "unknown".

(** pkg/build/servicegraph.go, [isConnString] *)
Definition isConnString (label : string) : bool := contains_str "://" label.

(** pkg/build/servicegraph.go, [normalizeSelfLoopUIDs] *)
Definition normalizeSelfLoopUIDs (clientUID serverUID clientLabel serverLabel : string) : string * string :=
  if bool_decide (clientUID = "") || negb (bool_decide (clientUID = serverUID)) then (clientUID, serverUID)
  else (if isConnString clientLabel then "" else clientUID,
        if isConnString serverLabel then "" else serverUID).

(** pkg/build/servicegraph.go, [isUnknownCluster] *)
Definition isUnknownCluster (identity : string) : bool :=
  bool_decide (identity = ClusterUnknownValue) ||
  bool_decide (is_Some (cut_suffix ("-" +:+ ClusterUnknownValue) identity)).

(** pkg/build/servicegraph.go, [betterSrcCluster] *)
Definition betterSrcCluster (next prev : string) : bool :=
  if bool_decide (next = prev) then false
  else if isUnknownCluster prev then true
  else if isUnknownCluster next then false
  else str_lt next prev.

(** pkg/build/servicegraph.go, [canonicalIP] *)
Definition canonicalIP (s : string) : string :=
  match ParseIP s with Some ip => IP_String ip | None => s end.

(** pkg/build/servicegraph.go, [classifyBareShortName] *)
Definition classifyBareShortName (host : string) : option string :=
  if bool_decide (host = "") || contains_byte "." host then None
  else match ParseIP host with Some _ => None | None => Some host end.

(** pkg/build/servicegraph.go@1888-1902, [classifyK8sDNS]: the service-relative
    part. *)
Definition service_relative (host : string) : string :=
  match cut_suffix ".svc" host with
  | Some r => r
  | None => default host (before_last ".svc." host)
  end.

(** pkg/build/servicegraph.go, [classifyK8sDNS]: (service, namespace). *)
Definition classifyK8sDNS (host : string) : option (string * string) :=
  match split "." (service_relative host) with
  | [svc; ns] => Some (svc, ns)
  | [_; svc; ns] => Some (svc, ns)
  | _ => None
  end.

Example classify_examples :
  classifyK8sDNS "cart.shop" = Some ("cart", "shop") ∧
  classifyK8sDNS "cart.shop.svc" = Some ("cart", "shop") ∧
  classifyK8sDNS "web-0.cart.shop.svc.cluster.local" = Some ("cart", "shop") ∧
  classifyK8sDNS "myservice.svc.svc" = Some ("myservice", "svc") ∧
  classifyK8sDNS "myservice.svc.svc.cluster.local" = Some ("myservice", "svc") ∧
  classifyK8sDNS "mongo" = None ∧ classifyK8sDNS "10.0.0.1" = None.
Proof. vm_compute. done. Qed.

Example peer_key_examples :
  parseDNSAnswers "[10.0.0.1 10.0.0.2]" = ["10.0.0.1"; "10.0.0.2"] ∧
  parseDNSAnswers "10.0.0.1,x;10.0.0.1" = ["10.0.0.1"] ∧
  peer_host "mongo.com:27017[-181]" = ("mongo.com", "27017") ∧
  peer_host "[2001:db8::1]:8080" = ("2001:db8::1", "8080") ∧
  peer_host "2001:db8::1" = ("2001:db8::1", "").
Proof. vm_compute. done. Qed.

(** Two different identities of the missing-label bucket each replace the other,
    so between them the last one seen stays. *)
Lemma betterSrcCluster_unknowns :
  betterSrcCluster "unknown" "us-dev-unknown" = true ∧ betterSrcCluster "us-dev-unknown" "unknown" = true.
Proof. vm_compute. done. Qed.

(** ** Canonical addresses *)

(** The canonical text identifies the address: two spellings of addresses are
    indexed alike exactly when they denote one address, the canonical text is
    itself canonical, and it denotes the address it was made from. *)
Theorem canonicalIP_identifies s t ip : ParseIP s = Some ip →
  (∀ ip', ParseIP t = Some ip' → canonicalIP s = canonicalIP t ↔ ip = ip') ∧
  canonicalIP (canonicalIP s) = canonicalIP s ∧ ParseIP (canonicalIP s) = Some ip.
Proof.
  intros Hs. pose proof (ParseIP_String ip (ParseIP_ok s ip Hs)) as Hback.
  assert (canonicalIP s = IP_String ip) as -> by (by unfold canonicalIP; rewrite Hs).
  split_and!; [|by unfold canonicalIP; rewrite Hback|done]. intros ip' Ht.
  assert (canonicalIP t = IP_String ip') as -> by (by unfold canonicalIP; rewrite Ht).
  split; [|by intros ->]. intros Heq.
  pose proof (ParseIP_String ip' (ParseIP_ok t ip' Ht)) as Hback'. congruence.
Qed.

Lemma canonicalIP_identifies_witness :
  canonicalIP "2001:DB8:0:0::1" = canonicalIP "2001:db8::1" ∧ canonicalIP "2001:DB8:0:0::1" ≠ canonicalIP "::1".
Proof.
  assert (ParseIP "2001:DB8:0:0::1" = Some [8193; 3512; 0; 0; 0; 0; 0; 1]%Z) as Hs by (by vm_compute).
  split.
  - apply (proj1 (canonicalIP_identifies _ "2001:db8::1" _ Hs) [8193; 3512; 0; 0; 0; 0; 0; 1]%Z);
      by vm_compute.
  - intros Heq. apply (proj1 (canonicalIP_identifies _ "::1" _ Hs) [0; 0; 0; 0; 0; 0; 0; 1]%Z) in Heq;
      [done|by vm_compute].
Defined.

(** ** The question posed *)

(** The bytes of a trimmed field are the field's. *)
Lemma fields_from_bytes (p : ascii → bool) c s : ∀ cur,
  p c = true → contains_byte c cur = false →
  Forall (λ f, contains_byte c f = false) (fields_from p cur s).
Proof.
  induction s as [|a s IH]; intros cur Hc Hcur; cbn [fields_from];
    assert (Forall (λ f, contains_byte c f = false) (if bool_decide (cur = "") then [] else [cur])) as Hcur'
      by (case_bool_decide; [constructor|by repeat constructor]); [done|].
  destruct (p a) eqn:Ea; [apply Forall_app; split; [done|by apply IH]|].
  apply IH; [done|]. rewrite contains_byte_app, Hcur. cbn [contains_byte orb].
  rewrite orb_false_r. apply Ascii.eqb_neq. congruence.
Qed.

Lemma trim_space_left_suffix s : ∃ t, s = t +:+ trim_space_left s.
Proof.
  remember (String.length s) as n eqn:Hn. revert s Hn.
  induction n as [n IH] using lt_wf_ind. intros s ->.
  destruct s as [|a s1]; [by exists ""|]. cbn [trim_space_left].
  destruct (space1 a).
  { destruct (IH (String.length s1) ltac:(cbn; lia) s1 eq_refl) as [t Ht].
    exists (String a t). cbn. by rewrite <- Ht. }
  destruct s1 as [|b s2]; [by exists ""|]. destruct (space2 a b).
  { destruct (IH (String.length s2) ltac:(cbn; lia) s2 eq_refl) as [t Ht].
    exists (String a (String b t)). cbn. by rewrite <- Ht. }
  destruct s2 as [|c s3]; [by exists ""|]. destruct (space3 a b c); [|by exists ""].
  destruct (IH (String.length s3) ltac:(cbn; lia) s3 eq_refl) as [t Ht].
  exists (String a (String b (String c t))). cbn. by rewrite <- Ht.
Qed.

Lemma trim_space_right_prefix s : ∃ t, s = trim_space_right s +:+ t.
Proof.
  induction s as [|a s [t IH]]; [by exists ""|]. cbn [trim_space_right].
  destruct (blank _); [by eexists|]. exists t. cbn. by rewrite <- IH.
Qed.

Lemma trim_space_no c s : contains_byte c s = false → contains_byte c (trim_space s) = false.
Proof.
  intros Hc. unfold trim_space.
  destruct (trim_space_left_suffix s) as [t Ht].
  destruct (trim_space_right_prefix (trim_space_left s)) as [u Hu].
  rewrite Ht, contains_byte_app, orb_false_iff in Hc. destruct Hc as [_ Hc].
  rewrite Hu, contains_byte_app, orb_false_iff in Hc. apply Hc.
Qed.

Lemma parseDNSAnswers_spec raw f :
  f ∈ parseDNSAnswers raw → contains_byte "," f = false ∧ f ≠ "" ∧ is_Some (ParseIP f).
Proof.
  unfold parseDNSAnswers. rewrite elem_of_keep_first, list_elem_of_filter, list_elem_of_fmap.
  intros [[[Hne Hip] (g & -> & Hg)] _]. split; [|done]. apply trim_space_no.
  unfold fields_func in Hg.
  assert (Forall (λ f, contains_byte "," f = false) (fields_from answer_sep "" (trim_right
    (λ c, Ascii.eqb c "[" || Ascii.eqb c "]") (trim_left (λ c, Ascii.eqb c "[" || Ascii.eqb c "]") raw))))
    as Hall by (by apply fields_from_bytes).
  rewrite Forall_forall in Hall. by apply Hall.
Qed.

Lemma listener_port_bounds cand n : listener_port cand = Some n → (0 < n ≤ 65535)%Z.
Proof.
  unfold listener_port. case_bool_decide; [done|]. destruct (Atoi cand) as [v|]; [|done].
  destruct (_ && _) eqn:E; [|done]. intros [= <-]. apply andb_true_iff in E. lia.
Qed.

Lemma derivePort_bounds hp p : (0 < derivePort hp p ≤ 65535)%Z.
Proof.
  unfold derivePort. destruct (omap _ _) as [|n l] eqn:E; [done|].
  assert (n ∈ omap listener_port [hp; serverPort p; netPeerPort p]) as Hn by (rewrite E; left).
  apply list_elem_of_omap in Hn as (c & _ & Hc). by apply (listener_port_bounds c).
Qed.

(** The question a key poses carries a valid port and exactly the addresses
    its sample's answer list parsed to, each an address, none twice; a sample
    poses one exactly when it carries a peer address. *)
Theorem request_answers anchor peer at_ :
  (peerRouteKey anchor peer = None ↔ peer_value peer = "") ∧
  ∀ k, peerRouteKey anchor peer = Some k →
    req_CallerCluster (request k at_) = anchor ∧
    req_Host (request k at_) = (peer_host (peer_value peer)).1 ∧
    (0 < req_Port (request k at_) ≤ 65535)%Z ∧
    req_IPs (request k at_) = parseDNSAnswers (dnsAnswers peer) ∧
    NoDup (req_IPs (request k at_)) ∧ Forall (λ f, is_Some (ParseIP f)) (req_IPs (request k at_)).
Proof.
  unfold peerRouteKey. destruct (peer_host (peer_value peer)) as [h p] eqn:Eh.
  case_bool_decide as Hv; [done|]. split; [done|]. intros k [= <-].
  unfold request. cbn [req_CallerCluster req_Host req_Port req_IPs callerCluster key_host key_port key_ips fst].
  assert ((if bool_decide (join "," (parseDNSAnswers (dnsAnswers peer)) = "") then []
     else split "," (join "," (parseDNSAnswers (dnsAnswers peer)))) = parseDNSAnswers (dnsAnswers peer)) as ->.
  { pose proof (parseDNSAnswers_spec (dnsAnswers peer)) as Hs.
    destruct (parseDNSAnswers (dnsAnswers peer)) as [|x l]; [done|].
    rewrite bool_decide_eq_false_2.
    - apply split_join, Forall_forall. intros f Hf. by apply Hs.
    - destruct (Hs x ltac:(left)) as (_ & Hx & _). destruct l; cbn; by destruct x. }
  split_and!; [done|done|apply derivePort_bounds..|done| |].
  - apply NoDup_keep_first.
  - apply Forall_forall. intros f Hf. by eapply parseDNSAnswers_spec.
Qed.

Lemma request_answers_witness :
  let peer := mkPeerLabels "api.example.com:8443" "" "" "[10.0.0.1 10.0.0.2]" "" "" in
  ∃ k, peerRouteKey "c1" peer = Some k ∧ req_IPs (request k 0) = ["10.0.0.1"; "10.0.0.2"] ∧
       req_Port (request k 0) = 8443%Z.
Proof.
  intros peer. destruct (peerRouteKey "c1" peer) as [k|] eqn:E; [|done].
  exists k. split; [done|].
  destruct (request_answers "c1" peer 0) as [_ H]. destruct (H k E) as (_ & _ & _ & -> & _).
  split; [by vm_compute|]. vm_compute in E. injection E as <-. done.
Defined.
