(* ===== verification/ServiceGraph.v ===== *)
(** pkg/build/servicegraph.go: the service-graph resolver - its indexes, its
    materialisation state with the undo journal, and the endpoint resolution
    ladder.

    [sgResolver] is split in its two halves: [sgIndex], what [newSGResolver]
    builds out of the topology and nothing changes afterwards, and [sgState], the
    maps resolution fills. An operation is a computation in the state monad [SG]
    over [sgState]; the debug log lines and the trace they carry are left out.
    net/url's [Parse] followed by [Hostname] is the parameter [url_host]. *)

From S2P Require Import Prelude GoStrings NetAddr Keyed Float64 GraphNode GraphEdge Selector.
From S2P Require Import PairScope Fanout.
From S2P Require Import BuildIdentity TopologyTypes PeerAddress.

#[local] Open Scope bool_scope.

(** ** Keys *)

(** pkg/build/servicegraph.go@353-353, [famSvcKey] *)
Record famSvcKey := mkFamSvcKey { fs_family : string; fs_namespace : string; fs_service : string }.
(** pkg/build/servicegraph.go@356-359, [svcCandidate] *)
Record svcCandidate := mkSvcCandidate { cand_cluster : string; cand_obs : ServiceObs }.
(** pkg/build/servicegraph.go@375-375, [ipKey] *)
Record ipKey := mkIpKey { ik_cluster : string; ik_ip : string }.
(** pkg/build/servicegraph.go@392-392, [famIPKey] *)
Record famIPKey := mkFamIPKey { fi_family : string; fi_ip : string }.
(** pkg/build/servicegraph.go@396-399, [podIPCandidate] *)
Record podIPCandidate := mkPodIPCandidate { pc_cluster : string; pc_pod : PodNode }.
(** pkg/build/servicegraph.go, [routeChainEdge] *)
Record routeChainEdge := mkRouteChainEdge { ce_src : string; ce_tgt : string; ce_cluster : string }.

#[export] Instance famSvcKey_eq_dec : EqDecision famSvcKey.
Proof. solve_decision. Defined.
#[export] Instance famSvcKey_countable : Countable famSvcKey.
Proof.
  refine (inj_countable' (λ k, (fs_family k, fs_namespace k, fs_service k))
            (λ p, mkFamSvcKey p.1.1 p.1.2 p.2) _). by intros [].
Defined.
#[export] Instance ipKey_eq_dec : EqDecision ipKey.
Proof. solve_decision. Defined.
#[export] Instance ipKey_countable : Countable ipKey.
Proof. refine (inj_countable' (λ k, (ik_cluster k, ik_ip k)) (λ p, mkIpKey p.1 p.2) _). by intros []. Defined.
#[export] Instance famIPKey_eq_dec : EqDecision famIPKey.
Proof. solve_decision. Defined.
#[export] Instance famIPKey_countable : Countable famIPKey.
Proof. refine (inj_countable' (λ k, (fi_family k, fi_ip k)) (λ p, mkFamIPKey p.1 p.2) _). by intros []. Defined.

(** ** The resolver *)

(** pkg/build/servicegraph.go@216-225, [journalKind] *)
Inductive journalKind := JExternal | JService | JSvcEdge | JRouteChainEdge | JRole | JExtReason.
(** pkg/build/servicegraph.go@230-234, [journalEntry] *)
Record journalEntry := mkJournalEntry { j_kind : journalKind; j_key : string; j_prev : string }.

(** pkg/build/servicegraph.go@180-189, [sgResolver]: the immutable indexes,
    the prefetched routes ([None] is the nil index) and the filtered flag. *)
Record sgIndex := mkSgIndex {
  endpointsByService : gmap serviceKey (list EndpointObs);
  podByID : gmap string PodNode;
  podByUID : gmap string PodNode;
  svcCandidates : gmap famSvcKey (list svcCandidate);
  ipIndex : gmap ipKey serviceKey;
  podIPCandidates : gmap famIPKey (list podIPCandidate);
  serviceApps : gmap serviceKey string;
  sg_clusters : clusterResolver;
  routes : option routeIndex;
  filtered : bool;
}.

(** pkg/build/servicegraph.go@190-213, [sgResolver]: the state resolution
    fills. *)
Record sgState := mkSgState {
  externals : gmap string ExternalNode;
  synthPods : gmap string PodNode;
  services : gmap string ServiceNode;
  svcEdges : gmap string Edge;
  routeChainEdges : gmap string routeChainEdge;
  extReasons : gmap string Z;
  shadowed : nat;
  journal : list journalEntry;
}.

Definition sg_empty : sgState := mkSgState ∅ ∅ ∅ ∅ ∅ ∅ 0 [].

(** Field updates. *)
Definition on_externals (f : gmap string ExternalNode → gmap string ExternalNode) (st : sgState) : sgState :=
  mkSgState (f (externals st)) (synthPods st) (services st) (svcEdges st) (routeChainEdges st)
    (extReasons st) (shadowed st) (journal st).
Definition on_synthPods (f : gmap string PodNode → gmap string PodNode) (st : sgState) : sgState :=
  mkSgState (externals st) (f (synthPods st)) (services st) (svcEdges st) (routeChainEdges st)
    (extReasons st) (shadowed st) (journal st).
Definition on_services (f : gmap string ServiceNode → gmap string ServiceNode) (st : sgState) : sgState :=
  mkSgState (externals st) (synthPods st) (f (services st)) (svcEdges st) (routeChainEdges st)
    (extReasons st) (shadowed st) (journal st).
Definition on_svcEdges (f : gmap string Edge → gmap string Edge) (st : sgState) : sgState :=
  mkSgState (externals st) (synthPods st) (services st) (f (svcEdges st)) (routeChainEdges st)
    (extReasons st) (shadowed st) (journal st).
Definition on_routeChainEdges (f : gmap string routeChainEdge → gmap string routeChainEdge) (st : sgState) : sgState :=
  mkSgState (externals st) (synthPods st) (services st) (svcEdges st) (f (routeChainEdges st))
    (extReasons st) (shadowed st) (journal st).
Definition on_extReasons (f : gmap string Z → gmap string Z) (st : sgState) : sgState :=
  mkSgState (externals st) (synthPods st) (services st) (svcEdges st) (routeChainEdges st)
    (f (extReasons st)) (shadowed st) (journal st).
Definition on_shadowed (f : nat → nat) (st : sgState) : sgState :=
  mkSgState (externals st) (synthPods st) (services st) (svcEdges st) (routeChainEdges st)
    (extReasons st) (f (shadowed st)) (journal st).
Definition on_journal (f : list journalEntry → list journalEntry) (st : sgState) : sgState :=
  mkSgState (externals st) (synthPods st) (services st) (svcEdges st) (routeChainEdges st)
    (extReasons st) (shadowed st) (f (journal st)).

(** ** Building the indexes *)

(** The address a pod reports, in canonical form, per cluster. *)
Definition pod_ip_key (p : PodNode) : option ipKey :=
  match pod_IPAddress p with
  | ip :: _ => if bool_decide (ip = "") then None
               else Some (mkIpKey (lget (pod_Labels p) "cluster") (canonicalIP ip))
  | [] => None
  end.

(** pkg/build/servicegraph.go@428-446, [newSGResolver]: on a duplicate within
    one cluster the smaller pod id stays. *)
Definition pods_per_cluster_ip (pods : list PodNode) : gmap ipKey PodNode :=
  fold_keyed pod_ip_key
    (λ o p, match o with
            | Some existing => if str_lt (pod_ID p) (pod_ID existing) then Some p else None
            | None => Some p
            end) pods ∅.

(** pkg/build/servicegraph.go@452-459, [newSGResolver]: the holders of an
    address in a family, by cluster. *)
Definition pod_ip_candidates (pods : list PodNode) : gmap famIPKey (list podIPCandidate) :=
  (λ cands : list podIPCandidate, sort_func (on_key pc_cluster String.compare) cands) <$>
  append_by (λ kp : ipKey * PodNode, Some (mkFamIPKey (ClusterFamilyKey (ik_cluster kp.1)) (ik_ip kp.1)))
    (λ kp, mkPodIPCandidate (ik_cluster kp.1) kp.2) (map_to_list (pods_per_cluster_ip pods)) ∅.

Definition fam_svc_key (k : serviceKey) : famSvcKey :=
  mkFamSvcKey (ClusterFamilyKey (sk_cluster k)) (sk_namespace k) (sk_service k).

(** pkg/build/servicegraph.go@472-479, [newSGResolver]: the clusters of a
    family that deploy a service, by cluster. *)
Definition svc_candidates (svcs : gmap serviceKey ServiceObs) : gmap famSvcKey (list svcCandidate) :=
  (λ cands : list svcCandidate, sort_func (on_key cand_cluster String.compare) cands) <$>
  append_by (λ ko : serviceKey * ServiceObs, Some (fam_svc_key ko.1))
    (λ ko, mkSvcCandidate (sk_cluster ko.1) ko.2) (map_to_list svcs) ∅.

(** (namespace, service), the order duplicates of one address are picked by. *)
Definition svc_name_cmp : serviceKey → serviceKey → comparison :=
  cmp_lex (on_key sk_namespace String.compare) (on_key sk_service String.compare).

Definition cluster_ip_key (ko : serviceKey * ServiceObs) : option ipKey :=
  let ip := so_ClusterIP ko.2 in
  if bool_decide (ip = "") || bool_decide (ip = "None") then None
  else Some (mkIpKey (sk_cluster ko.1) (canonicalIP ip)).

(** pkg/build/servicegraph.go@489-505, [newSGResolver] *)
Definition cluster_ip_index (svcs : gmap serviceKey ServiceObs) : gmap ipKey serviceKey :=
  fold_keyed cluster_ip_key
    (λ o ko, match o with
             | Some existing => match svc_name_cmp ko.1 existing with Lt => Some ko.1 | _ => None end
             | None => Some ko.1
             end) (map_to_list svcs) ∅.

(** pkg/build/servicegraph.go, [newSGResolver]: the resolver over the indexes,
    its state [sg_empty]; [routes] is set by the parse. *)
Definition newSGResolver (t : Topology) (rts : option routeIndex) (filtered : bool) : sgIndex :=
  mkSgIndex (EndpointsByService t)
    (fold_keyed (λ p, Some (pod_ID p)) (λ _ p, Some p) (Pods t) ∅)
    (PodsByUID t) (svc_candidates (ServicesByNameNS t)) (cluster_ip_index (ServicesByNameNS t))
    (pod_ip_candidates (Pods t)) (ServiceApplications t) (clusters t) rts filtered.

(** ** The state monad *)

Definition SG (A : Type) : Type := sgState → A * sgState.
#[export] Instance SG_ret : MRet SG := λ A x st, (x, st).
#[export] Instance SG_bind : MBind SG := λ A B k m st, let '(x, st) := m st in k x st.

Definition reads {A} (f : sgState → A) : SG A := λ st, (f st, st).
Definition writes (f : sgState → sgState) : SG unit := λ st, (tt, f st).
Fixpoint for_each {A} (body : A → SG unit) (l : list A) : SG unit :=
  match l with
  | [] => mret tt
  | x :: l => body x;; for_each body l
  end.

(** Run the monad; reduce the fields. *)
Ltac sg_run := cbv beta iota zeta delta [mbind SG_bind mret SG_ret reads writes]; cbn [fst snd].
Ltac sg_fields :=
  cbn [fst snd externals synthPods services svcEdges routeChainEdges extReasons shadowed journal
       on_externals on_synthPods on_services on_svcEdges on_routeChainEdges on_extReasons on_shadowed
       on_journal].

(** ** The journal *)

Definition set_svc_labels (f : labels → labels) (sv : ServiceNode) : ServiceNode :=
  mkServiceNode (svc_ID sv) (svc_Name sv) (f (svc_Labels sv)) (svc_IPAddress sv) (svc_Application sv).

(** pkg/build/servicegraph.go@252-276, [sgResolver.rollback]: one entry. *)
Definition undo (st : sgState) (e : journalEntry) : sgState :=
  let key := j_key e in
  match j_kind e with
  | JExternal => on_externals (delete key) st
  | JService => on_services (delete key) st
  | JSvcEdge => on_svcEdges (delete key) st
  | JRouteChainEdge => on_routeChainEdges (delete key) st
  | JRole =>
      on_services (alter (set_svc_labels (λ ls, if bool_decide (j_prev e = "") then delete "role" ls
                                                else <["role" := j_prev e]> ls)) key) st
  | JExtReason =>
      on_extReasons (λ m, let n := (default 0 (m !! key) - 1)%Z in
                          if (n <=? 0)%Z then delete key m else <[key := n]> m) st
  end.

(** pkg/build/servicegraph.go, [sgResolver.rollback] *)
Definition rollback (st : sgState) : sgState :=
  on_journal (λ _, []) (fold_left undo (rev (journal st)) st).

(** pkg/build/servicegraph.go, [sgResolver.commit] *)
Definition commit (st : sgState) : sgState := on_journal (λ _, []) st.

(** net/url: [Hostname] of the parsed label; [None] is a parse error. *)
Class URLHost := url_host : string → option string.

Section resolver.
Context `{EdgeUUID, URLHost} (r : sgIndex).

(** pkg/build/servicegraph.go, [sgResolver.note] *)
Definition note (kind : journalKind) (key prev : string) : SG unit :=
  if filtered r then writes (on_journal (λ j, j ++ [mkJournalEntry kind key prev])) else mret tt.

(** pkg/build/servicegraph.go, [sgResolver.anyLoaded] *)
Definition anyLoaded (st : sgState) (ids : list string) : bool :=
  existsb (λ id, bool_decide (is_Some (podByID r !! id)) || bool_decide (is_Some (services st !! id))) ids.

(** pkg/build/servicegraph.go@308-310, [sgResolver.noteExternal]: the log line
    is left out. *)
Definition noteExternal (reason : string) : SG unit :=
  writes (on_extReasons (λ m, <[reason := (default 0 (m !! reason) + 1)%Z]> m));;
  note JExtReason reason "".

(** pkg/build/servicegraph.go, [sgResolver.noteConnStringShadowed] *)
Definition noteConnStringShadowed : SG unit := writes (on_shadowed S).

(** pkg/build/servicegraph.go, [sgResolver.external] *)
Definition external (label : string) : SG string :=
  let id := ExternalID label in
  es ← reads externals;
  match es !! id with
  | Some _ => mret id
  | None =>
      note JExternal id "";;
      writes (on_externals <[id := mkExternalNode id label ∅]>);;
      mret id
  end.

Definition set_pod_labels (f : labels → labels) (p : PodNode) : PodNode :=
  mkPodNode (pod_ID p) (pod_Name p) (f (pod_Labels p)) (pod_IPAddress p) (pod_Owner p)
    (pod_Application p) (pod_Containers p) (pod_Alerts p) (pod_Status p).

(** pkg/build/servicegraph.go, [sgResolver.synthPod] *)
Definition synthPod (id cluster namespace podUID : string) : SG unit :=
  sps ← reads synthPods;
  match sps !! id with
  | Some existing =>
      let existingNS := lget (pod_Labels existing) "namespace" in
      if negb (bool_decide (namespace = "")) &&
         (bool_decide (existingNS = "") || str_lt namespace existingNS)
      then writes (on_synthPods (alter (set_pod_labels <["namespace" := namespace]>) id))
      else mret tt
  | None =>
      let ls : labels := {[ "cluster" := cluster ]} in
      let ls := if bool_decide (namespace = "") then ls else <["namespace" := namespace]> ls in
      writes (on_synthPods <[id := mkPodNode id podUID ls [] None "" [] [] ""]>)
  end.

(** pkg/build/servicegraph.go, [sgResolver.materializeServiceNode] *)
Definition materializeServiceNode (cluster ns svc : string) (obs : ServiceObs) : SG string :=
  let id := ServiceID cluster ns svc in
  svcs ← reads services;
  match svcs !! id with
  | Some _ => mret id
  | None =>
      let ip := so_ClusterIP obs in
      let ips := if bool_decide (ip = "") || bool_decide (ip = "None") then [] else [ip] in
      note JService id "";;
      writes (on_services <[id := mkServiceNode id svc {[ "cluster" := cluster; "namespace" := ns ]} ips
                (default "" (serviceApps r !! mkServiceKey cluster ns svc))]>);;
      mret id
  end.

(** pkg/build/servicegraph.go, [sgResolver.addServiceEdge] *)
Definition addServiceEdge (svcID podID ns : string) : SG unit :=
  let key := svcID +:+ "|" +:+ podID in
  es ← reads svcEdges;
  match es !! key with
  | Some _ => mret tt
  | None =>
      let ls : labels := if bool_decide (ns = "") then ∅ else {[ "namespace" := ns ]} in
      note JSvcEdge key "";;
      writes (on_svcEdges <[key := NewEdge EdgeTypeServiceSelectsPod svcID podID ls]>)
  end.

(** pkg/build/servicegraph.go@1728-1728, [roleIngressGateway] *)
Definition roleIngressGateway := "ingress-gateway".
(** pkg/build/servicegraph.go@1729-1729, [roleIngressLB] *)
Definition roleIngressLB := "ingress-lb".

(** pkg/build/servicegraph.go, [sgResolver.markIngressService] *)
Definition markIngressService (id role : string) : SG unit :=
  svcs ← reads services;
  match svcs !! id with
  | None => mret tt
  | Some sv =>
      let cur := lget (svc_Labels sv) "role" in
      if bool_decide (role = roleIngressGateway) || bool_decide (cur = "") then
        note JRole id cur;;
        writes (on_services (alter (set_svc_labels <["role" := role]>) id))
      else mret tt
  end.

(** pkg/build/servicegraph.go, [sgResolver.addRouteChainEdge] *)
Definition addRouteChainEdge (srcPodID backendSvcID cluster : string) : SG unit :=
  let key := srcPodID +:+ "|" +:+ backendSvcID in
  es ← reads routeChainEdges;
  match es !! key with
  | Some _ => mret tt
  | None =>
      note JRouteChainEdge key "";;
      writes (on_routeChainEdges <[key := mkRouteChainEdge srcPodID backendSvcID cluster]>)
  end.

(** ** Lookups *)

(** pkg/build/servicegraph.go, [sgResolver.lookupClientPod] *)
Definition lookupClientPod (traceCluster podUID : string) : option PodNode :=
  if bool_decide (podUID = "") then None else
  match podByID r !! PodID traceCluster podUID with
  | Some pod => Some pod
  | None => podByUID r !! podUID
  end.

(** pkg/build/servicegraph.go, [sgResolver.isPodOrServiceID] *)
Definition isPodOrServiceID (st : sgState) (id : string) : bool :=
  bool_decide (is_Some (podByID r !! id)) || bool_decide (is_Some (synthPods st !! id)) ||
  bool_decide (is_Some (services st !! id)).

(** pkg/build/servicegraph.go, [chainEntryIndex]: [None] is -1. *)
Definition chainEntryIndex (tgtIDs : list string) : option nat :=
  if (1 <? length tgtIDs)%nat then Some 0 else None.

(** pkg/build/servicegraph.go, [sgResolver.classifyPeerHost]: (namespace,
    service). *)
Definition classifyPeerHost (host clientNamespace anchorCluster : string) : option (string * string) :=
  match classifyK8sDNS host with
  | Some (s, n) => Some (n, s)
  | None =>
      match classifyBareShortName host with
      | Some s => Some (clientNamespace, s)
      | None =>
          match ParseIP host with
          | Some ip => (λ sk, (sk_namespace sk, sk_service sk)) <$>
                       ipIndex r !! mkIpKey anchorCluster (IP_String ip)
          | None => None
          end
      end
  end.

(** pkg/build/servicegraph.go, [sgResolver.lookupPeerPodIP]: the pod, and
    whether the address is ambiguous. *)
Definition lookupPeerPodIP (anchorCluster host : string) : option PodNode * bool :=
  match ParseIP host with
  | None => (None, false)
  | Some ip =>
      let cands := default [] (podIPCandidates r !! mkFamIPKey (ClusterFamilyKey anchorCluster) (IP_String ip)) in
      match find (λ c, bool_decide (pc_cluster c = anchorCluster)) cands with
      | Some c => (Some (pc_pod c), false)
      | None => match cands with
                | [c] => (Some (pc_pod c), false)
                | _ => (None, (1 <? length cands)%nat)
                end
      end
  end.

(** The clusters of a family holding a service. *)
Definition candidates_of (cluster ns svc : string) : list svcCandidate :=
  default [] (svcCandidates r !! mkFamSvcKey (ClusterFamilyKey cluster) ns svc).
(** The loop that picks the anchor among the candidates. *)
Definition anchor_of (cluster : string) (cands : list svcCandidate) : option svcCandidate :=
  find (λ c, bool_decide (cand_cluster c = cluster)) cands.

(** pkg/build/servicegraph.go, [sgResolver.anchorHolds] *)
Definition anchorHolds (anchorCluster ns svc : string) : bool :=
  existsb (λ c, bool_decide (cand_cluster c = anchorCluster)) (candidates_of anchorCluster ns svc).

Definition endpoints_of (cluster ns svc : string) : list EndpointObs :=
  default [] (endpointsByService r !! mkServiceKey cluster ns svc).

(** The fan-out over one cluster's endpoints. *)
Definition fan_out (id cluster ns svc : string) : SG unit :=
  for_each (λ ep, addServiceEdge id (pod_ID (eo_Pod ep)) ns) (endpoints_of cluster ns svc).

(** pkg/build/servicegraph.go, [sgResolver.resolveServiceLevel] *)
Definition resolveServiceLevel (anchorCluster ns svc : string) : SG (list string) :=
  let cands := candidates_of anchorCluster ns svc in
  match anchor_of anchorCluster cands with
  | None => mret []
  | Some anchor =>
      id ← materializeServiceNode anchorCluster ns svc (cand_obs anchor);
      for_each (λ cand, fan_out id (cand_cluster cand) ns svc) cands;;
      mret [id]
  end.

(** pkg/build/servicegraph.go, [sgResolver.resolveServiceLevelInCluster] *)
Definition resolveServiceLevelInCluster (cluster ns svc : string) : SG (list string) :=
  match anchor_of cluster (candidates_of cluster ns svc) with
  | None => mret []
  | Some anchor =>
      id ← materializeServiceNode cluster ns svc (cand_obs anchor);
      fan_out id cluster ns svc;;
      mret [id]
  end.

(** ** Route chains *)

(** pkg/build/servicegraph.go@1800-1814, [sgResolver.resolveRouteChain]: the
    preconditions, checked before anything is materialised. *)
Definition chain_ready (dest : RouteDestination) : bool :=
  negb (bool_decide (dest_IngressService dest = "")) &&
  negb (bool_decide (dest_IngressNamespace dest = dest_Namespace dest) &&
        bool_decide (dest_IngressService dest = dest_Service dest)) &&
  anchorHolds (dest_Cluster dest) (dest_IngressNamespace dest) (dest_IngressService dest) &&
  negb (bool_decide (endpoints_of (dest_Cluster dest) (dest_IngressNamespace dest) (dest_IngressService dest) = [])).

(** pkg/build/servicegraph.go, [sgResolver.resolveRouteChain]: [None] is a
    degrade to the direct edge. *)
Definition resolveRouteChain (dest : RouteDestination) (backendSvcID : string) : SG (option (list string)) :=
  if negb (chain_ready dest) then mret None else
  let '(cl, ns, svc) := (dest_Cluster dest, dest_IngressNamespace dest, dest_IngressService dest) in
  ids ← resolveServiceLevelInCluster cl ns svc;
  markIngressService (default "" (head ids)) roleIngressGateway;;
  let podIDs := sort_func String.compare (map (λ ep, pod_ID (eo_Pod ep)) (endpoints_of cl ns svc)) in
  for_each (λ podID, addRouteChainEdge podID backendSvcID cl) (compact podIDs);;
  mret (Some ids).

(** The reason a non-hit outcome is tallied under. *)
Definition miss_reason (o : RouteOutcome) : string :=
  match o with
  | RouteNoListenerOnPort => "route_engine_no_listener_on_port"
  | RouteNoServerForHost => "route_engine_no_server_for_host"
  | RouteNoIngress => "route_engine_no_ingress"
  | RouteAmbiguousIngress => "route_engine_ambiguous_ingress_cluster"
  | RouteAmbiguousIngressService => "route_engine_ambiguous_ingress_service"
  | _ => "route_engine_miss"
  end.

(** [dest.Cluster = r.clusters.resolveForeign(dest.Cluster)]. *)
Definition adopt_dest (dest : RouteDestination) : RouteDestination :=
  mkRouteDestination (resolveForeign (sg_clusters r) (dest_Cluster dest)) (dest_Namespace dest)
    (dest_Service dest) (dest_Port dest) (dest_Subset dest) (dest_IngressNamespace dest)
    (dest_IngressService dest).

(** pkg/build/routeprescan.go, [sgResolver.routeIndexResolve]: the ids, and
    whether a reason was recorded. *)
Definition routeIndexResolve (key : routeKey) : SG (list string * bool) :=
  match routes r with
  | None => mret ([], false)
  | Some idx =>
      if bool_decide (key_ips key = "") then noteExternal "route_engine_no_ip";; mret ([], true) else
      match idx !! key with
      | None => mret ([], false)
      | Some entry =>
          let dest := adopt_dest (entry_dest entry) in
          let fail reason := noteExternal reason;; mret ([], true) in
          if entry_failed entry then fail "route_engine_error" else
          match entry_outcome entry with
          | RouteHit =>
              ids ← resolveServiceLevel (dest_Cluster dest) (dest_Namespace dest) (dest_Service dest);
              match ids with
              | id :: _ =>
                  chain ← resolveRouteChain dest id;
                  mret (match chain with Some chainIDs => chainIDs ++ [id] | None => ids end, true)
              | [] => fail "route_engine_dest_cluster_lacks_service"
              end
          | RouteIngressLBService =>
              ids ← resolveServiceLevelInCluster (dest_Cluster dest) (dest_Namespace dest) (dest_Service dest);
              match ids with
              | id :: _ => markIngressService id roleIngressLB;; mret (ids, true)
              | [] => fail "route_engine_dest_cluster_lacks_service"
              end
          | o => fail (miss_reason o)
          end
      end
  end.

(** ** Endpoints *)

(** pkg/build/servicegraph.go, [connStringHost] *)
Definition connStringHost (label : string) : string := default "" (url_host label).

(** Record the reason, promote the text to an external node. *)
Definition to_external (reason label : string) : SG (list string) :=
  noteExternal reason;; id ← external label; mret [id].

(** pkg/build/servicegraph.go, [sgResolver.resolveConnString] *)
Definition resolveConnString (label anchorCluster : string) : SG (list string) :=
  let host := connStringHost label in
  if bool_decide (host = "") then to_external "conn_host_unparseable" label else
  match classifyK8sDNS host with
  | None => to_external "conn_host_not_k8s_dns" label
  | Some (svc, ns) =>
      ids ← resolveServiceLevel anchorCluster ns svc;
      match ids with
      | _ :: _ => mret ids
      | [] => to_external "anchor_cluster_lacks_service" label
      end
  end.

(** pkg/build/servicegraph.go, [sgResolver.resolveEmptyUID] *)
Definition resolveEmptyUID (label anchorCluster : string) : SG (list string) :=
  if isConnString label then resolveConnString label anchorCluster
  else if negb (bool_decide (label = "")) then to_external "missing_uid_nonurl_label" label
  else mret [].

(** pkg/build/servicegraph.go, [sgResolver.resolveClient] *)
Definition resolveClient (label traceCluster podUID namespace : string) : SG (list string * bool) :=
  if bool_decide (podUID = "") then
    ids ← resolveEmptyUID label traceCluster; mret (ids, false)
  else
    match lookupClientPod traceCluster podUID, filtered r with
    | None, true => ids ← resolveEmptyUID label traceCluster; mret (ids, false)
    | pod, _ =>
        (if isConnString label then noteConnStringShadowed else mret tt);;
        match pod with
        | Some pod => mret ([pod_ID pod], true)
        | None => let id := PodID traceCluster podUID in
                  synthPod id traceCluster namespace podUID;; mret ([id], true)
        end
    end.

(** pkg/build/servicegraph.go@1397-1406, [sgResolver.resolveUnknownServerPeer]:
    the shared external fallback. *)
Definition routeExternal (key : routeKey) (value reason : string) : SG (list string) :=
  '(ids, noted) ← routeIndexResolve key;
  match ids with
  | _ :: _ => mret ids
  | [] =>
      (if noted : bool then mret tt else noteExternal reason);;
      id ← external value; mret [id]
  end.

(** pkg/build/servicegraph.go@1388-1391, [sgResolver.resolveUnknownServerPeer]: the key
    of a peer; [peerRouteKey] answers on a non-empty value. *)
Definition key_of (anchorCluster : string) (peer : peerLabels) : routeKey :=
  default (mkRouteKey "" "" "" 0 "") (peerRouteKey anchorCluster peer).

(** pkg/build/servicegraph.go, [sgResolver.resolveUnknownServerPeer] *)
Definition resolveUnknownServerPeer (clientPod : option PodNode) (peer : peerLabels) : SG (list string) :=
  match clientPod with
  | None => mret []
  | Some clientPod =>
      let value := peer_value peer in
      if bool_decide (value = "") then mret [] else
      let anchorCluster := lget (pod_Labels clientPod) "cluster" in
      let clientNamespace := lget (pod_Labels clientPod) "namespace" in
      let host := (peer_host value).1 in
      let key := key_of anchorCluster peer in
      match classifyPeerHost host clientNamespace anchorCluster with
      | None =>
          match ParseIP host with
          | Some _ =>
              match lookupPeerPodIP anchorCluster host with
              | (Some pod, _) => mret [pod_ID pod]
              | (None, true) => routeExternal key value "unknown_server_peer_pod_ip_ambiguous"
              | (None, false) => routeExternal key value "unknown_server_peer_ip_literal_no_match"
              end
          | None => routeExternal key value "unknown_server_peer_not_k8s_dns"
          end
      | Some (ns, svc) =>
          ids ← resolveServiceLevel anchorCluster ns svc;
          match ids with
          | _ :: _ => mret ids
          | [] => routeExternal key value "unknown_server_peer_anchor_lacks_service"
          end
      end
  end.

(** pkg/build/servicegraph.go, [sgResolver.resolveServer] *)
Definition resolveServer (label anchorCluster podUID namespace : string)
  (clientPod : option PodNode) (peer : peerLabels) : SG (list string) :=
  if bool_decide (podUID = "") then
    if bool_decide (label = sentinelUnknown) then resolveUnknownServerPeer clientPod peer
    else resolveEmptyUID label anchorCluster
  else
    match podByUID r !! podUID with
    | Some pod =>
        (if isConnString label then noteConnStringShadowed else mret tt);; mret [pod_ID pod]
    | None =>
        if bool_decide (label = sentinelUnknown) then resolveUnknownServerPeer clientPod peer
        else if filtered r then resolveEmptyUID label anchorCluster
        else
          (if isConnString label then noteConnStringShadowed else mret tt);;
          synthPod (PodID "" podUID) "" namespace podUID;;
          mret [PodID "" podUID]
    end.

(** ** Marker lookups *)

(** pkg/build/servicegraph.go, [sgResolver.routeNodeID] *)
Definition routeNodeID (key : routeKey) (raw : string) : string :=
  let ext := ExternalID raw in
  match routes r with
  | None => ext
  | Some idx =>
      if bool_decide (key_ips key = "") then ext else
      match idx !! key with
      | None => ext
      | Some entry =>
          if entry_failed entry then ext
          else if bool_decide (entry_outcome entry = RouteHit) ||
                  bool_decide (entry_outcome entry = RouteIngressLBService) then
            let dest := entry_dest entry in
            let cluster := resolveForeign (sg_clusters r) (dest_Cluster dest) in
            if anchorHolds cluster (dest_Namespace dest) (dest_Service dest)
            then ServiceID cluster (dest_Namespace dest) (dest_Service dest) else ext
          else ext
      end
  end.

(** pkg/build/servicegraph.go, [sgResolver.viaNodeID] *)
Definition viaNodeID (ownPod : PodNode) (peer : peerLabels) : option string :=
  let value := peer_value peer in
  if bool_decide (value = "") then None else
  let anchorCluster := lget (pod_Labels ownPod) "cluster" in
  let host := (peer_host value).1 in
  let key := key_of anchorCluster peer in
  match classifyPeerHost host (lget (pod_Labels ownPod) "namespace") anchorCluster with
  | Some (ns, svc) =>
      if anchorHolds anchorCluster ns svc then Some (ServiceID anchorCluster ns svc)
      else Some (routeNodeID key value)
  | None =>
      match lookupPeerPodIP anchorCluster host with
      | (Some pod, _) => Some (pod_ID pod)
      | (None, _) => Some (routeNodeID key value)
      end
  end.

(** pkg/build/routeprescan.go, [sgResolver.viaRouteKey] *)
Definition viaRouteKey (ownPod : PodNode) (peer : peerLabels) : option routeKey :=
  let anchorCluster := lget (pod_Labels ownPod) "cluster" in
  match peerRouteKey anchorCluster peer with
  | None => None
  | Some key =>
      let held := match classifyPeerHost (key_host key) (lget (pod_Labels ownPod) "namespace") anchorCluster with
                  | Some (ns, svc) => anchorHolds anchorCluster ns svc
                  | None => false
                  end in
      if held then None
      else match (lookupPeerPodIP anchorCluster (key_host key)).1 with
           | Some _ => None
           | None => if bool_decide (key_ips key = "") then None else Some key
           end
  end.

End resolver.
