(* ===== verification/ServiceGraphEffects.v ===== *)
(** The undo journal of the service-graph resolver: every operation of a filtered
    build is reversible, so a rolled-back series leaves the resolver's maps as
    they were.

    [Rev m] says that what [m] appends to the journal undoes what [m] did. It is
    closed under the monad, so the proof of a composite operation is the list of
    its parts.

    What resolving an endpoint does, as data: every operation of the resolver
    answers independently of the state it runs in, and its writes are a list of
    [effect]s it can be replayed from.

    [Runs m Q] says so and describes answer and effects by [Q]; it is closed
    under the monad, so the lemmas about the ladder are proved rung by rung. *)

From S2P Require Import Prelude GoStrings NetAddr Keyed Float64 GraphNode GraphEdge PairScope.
From S2P Require Import Fanout BuildIdentity TopologyTypes PeerAddress ServiceGraph.

#[local] Open Scope bool_scope.

(** The maps a series may leave traces in; the shadow counter is evidence only
    and is not one of them. *)
Definition content (st : sgState) :=
  (externals st, synthPods st, services st, svcEdges st, routeChainEdges st, extReasons st).

Definition same (st st' : sgState) : Prop := content st = content st'.

#[export] Instance same_equivalence : Equivalence same.
Proof. split; [by intros ?|by intros ?? ?|intros ???; unfold same; congruence]. Qed.

#[export] Instance undo_proper : Proper (same ==> eq ==> same) undo.
Proof.
  intros [] [] Hs [k key prev] ? <-. unfold same, content in *. cbn in *. simplify_eq.
  by destruct k.
Qed.

#[export] Instance undo_all_proper : Proper (eq ==> same ==> same) (fold_left undo).
Proof.
  intros es ? <-. induction es as [|e es IH]; intros st st' Hs; [done|]. cbn. apply IH. by rewrite Hs.
Qed.

(** What the journal's bookkeeping relies on: a counter that is present is
    positive, a role that is present is not empty. *)
Record sg_wf (st : sgState) : Prop := {
  wf_reasons : ∀ k n, extReasons st !! k = Some n → (1 ≤ n)%Z;
  wf_roles : ∀ k sv, services st !! k = Some sv → svc_Labels sv !! "role" ≠ Some "";
}.

Lemma sg_empty_wf : sg_wf sg_empty.
Proof. split; intros ??; cbn; by rewrite lookup_empty. Qed.

Section reversible.
Context `{EdgeUUID, URLHost} (r : sgIndex) (Hf : filtered r = true).

Definition Rev {A} (m : SG A) : Prop :=
  ∀ st, sg_wf st → sg_wf (m st).2 ∧
    ∃ es, journal (m st).2 = journal st ++ es ∧ same (fold_left undo (rev es) (m st).2) st.

Lemma Rev_ret {A} (x : A) : Rev (mret x).
Proof. intros st Hw. split; [done|]. exists []. by rewrite app_nil_r. Qed.

Lemma Rev_reads {A} (f : sgState → A) : Rev (reads f).
Proof. intros st Hw. split; [done|]. exists []. by rewrite app_nil_r. Qed.

Lemma Rev_bind {A B} (m : SG A) (k : A → SG B) : Rev m → (∀ x, Rev (k x)) → Rev (m ≫= k).
Proof.
  intros Hm Hk st Hw. unfold mbind, SG_bind.
  destruct (Hm st Hw) as (Hw1 & es1 & Hj1 & Hs1). destruct (m st) as [x st1]. cbn in *.
  destruct (Hk x st1 Hw1) as (Hw2 & es2 & Hj2 & Hs2). split; [done|].
  exists (es1 ++ es2). rewrite Hj2, Hj1, app_assoc. split; [done|].
  by rewrite rev_app_distr, fold_left_app, Hs2, Hs1.
Qed.

Lemma Rev_for_each {A} (body : A → SG unit) l : (∀ x, Rev (body x)) → Rev (for_each body l).
Proof. intros Hb. induction l as [|x l IH]; [apply Rev_ret|]. by apply Rev_bind. Qed.

(** A branch on the state: the operation is reversible when it is on each. *)
Lemma Rev_state {A B} (f : sgState → A) (k : A → SG B) :
  (∀ st, sg_wf st → sg_wf (k (f st) st).2 ∧
     ∃ es, journal (k (f st) st).2 = journal st ++ es ∧ same (fold_left undo (rev es) (k (f st) st).2) st) →
  Rev (reads f ≫= k).
Proof. intros Hk st Hw. exact (Hk st Hw). Qed.

(** One journaled write. *)
Lemma Rev_write {A} (m : SG A) st kind key prev (f : sgState → sgState) :
  sg_wf (f (on_journal (λ j, j ++ [mkJournalEntry kind key prev]) st)) →
  (m st).2 = f (on_journal (λ j, j ++ [mkJournalEntry kind key prev]) st) →
  journal (m st).2 = journal st ++ [mkJournalEntry kind key prev] →
  same (undo (m st).2 (mkJournalEntry kind key prev)) st →
  sg_wf (m st).2 ∧ ∃ es, journal (m st).2 = journal st ++ es ∧ same (fold_left undo (rev es) (m st).2) st.
Proof. intros Hw Hm Hj Hs. rewrite Hm at 1. split; [done|]. eexists. split; [exact Hj|exact Hs]. Qed.

Lemma Rev_noteExternal reason : Rev (noteExternal r reason).
Proof.
  intros st Hw. unfold noteExternal, note. rewrite Hf. sg_run. sg_fields. split.
  - split; sg_fields; [|apply Hw]. intros k n. rewrite lookup_insert_Some.
    intros [[<- <-]|[_ Hk]]; [|by eapply wf_reasons].
    destruct (extReasons st !! reason) as [n|] eqn:E; cbn; [|lia].
    apply wf_reasons in E; [|done]. lia.
  - eexists. split; [done|]. cbn [rev app fold_left]. unfold undo; cbn [j_kind j_key j_prev]. unfold same, content. sg_fields. f_equal.
    rewrite lookup_insert_eq. change (default 0%Z (Some ?x)) with x. rewrite Z.add_simpl_r.
    destruct (extReasons st !! reason) as [n|] eqn:E; [change (default 0%Z (Some ?x)) with x|].
    + pose proof (wf_reasons st Hw _ _ E). destruct (Z.leb_spec n 0); [lia|].
      rewrite insert_insert_eq. by apply insert_id.
    + by apply delete_insert_id.
Qed.

Lemma Rev_external label : Rev (external r label).
Proof.
  intros st Hw. unfold external, note. sg_run. sg_fields. destruct (externals st !! ExternalID label) eqn:E; sg_fields.
  - split; [done|]. exists []. by rewrite app_nil_r.
  - rewrite Hf. sg_run. sg_fields. split; [split; sg_fields; apply Hw|]. eexists. split; [done|].
    cbn [rev app fold_left]. unfold undo; cbn [j_kind j_key j_prev].
    unfold same, content. sg_fields. by rewrite delete_insert_id.
Qed.

Lemma Rev_materializeServiceNode cluster ns svc obs : Rev (materializeServiceNode r cluster ns svc obs).
Proof.
  intros st Hw. unfold materializeServiceNode, note. sg_run. sg_fields.
  destruct (services st !! ServiceID cluster ns svc) eqn:E; sg_fields.
  - split; [done|]. exists []. by rewrite app_nil_r.
  - rewrite Hf. sg_run. sg_fields. split.
    + split; sg_fields; [apply Hw|]. intros k sv. rewrite lookup_insert_Some.
      intros [[<- <-]|[_ Hk]]; [|by eapply wf_roles]. cbn. by simplify_map_eq.
    + eexists. split; [done|]. cbn [rev app fold_left]. unfold undo; cbn [j_kind j_key j_prev]. unfold same, content. sg_fields. by rewrite delete_insert_id.
Qed.

Lemma Rev_addServiceEdge svcID podID ns : Rev (addServiceEdge r svcID podID ns).
Proof.
  intros st Hw. unfold addServiceEdge, note. sg_run. sg_fields.
  destruct (svcEdges st !! _) eqn:E; sg_fields.
  - split; [done|]. exists []. by rewrite app_nil_r.
  - rewrite Hf. sg_run. sg_fields. split; [split; sg_fields; apply Hw|]. eexists. split; [done|].
    cbn [rev app fold_left]. unfold undo; cbn [j_kind j_key j_prev].
    unfold same, content. sg_fields. by rewrite delete_insert_id.
Qed.

Lemma Rev_addRouteChainEdge src tgt cluster : Rev (addRouteChainEdge r src tgt cluster).
Proof.
  intros st Hw. unfold addRouteChainEdge, note. sg_run. sg_fields.
  destruct (routeChainEdges st !! _) eqn:E; sg_fields.
  - split; [done|]. exists []. by rewrite app_nil_r.
  - rewrite Hf. sg_run. sg_fields. split; [split; sg_fields; apply Hw|]. eexists. split; [done|].
    cbn [rev app fold_left]. unfold undo; cbn [j_kind j_key j_prev].
    unfold same, content. sg_fields. by rewrite delete_insert_id.
Qed.

Lemma Rev_markIngressService id role : role ≠ "" → Rev (markIngressService r id role).
Proof.
  intros Hrole st Hw. unfold markIngressService, note. sg_run. sg_fields.
  destruct (services st !! id) as [sv|] eqn:E; sg_fields; [|split; [done|]; exists []; by rewrite app_nil_r].
  destruct (_ || _); sg_fields; [|split; [done|]; exists []; by rewrite app_nil_r].
  rewrite Hf. sg_run. sg_fields. split.
  - split; sg_fields; [apply Hw|]. intros k sv' Hk. destruct (decide (k = id)) as [->|Hne].
    + rewrite lookup_alter_eq, E in Hk. injection Hk as <-. cbn. rewrite lookup_insert_eq. congruence.
    + rewrite lookup_alter_ne in Hk by done. by eapply wf_roles.
  - eexists. split; [done|]. cbn [rev app fold_left]. unfold undo; cbn [j_kind j_key j_prev].
    unfold same, content. sg_fields. do 3 f_equal.
    rewrite alter_alter_eq. f_equal. f_equal. apply map_eq. intros k.
    destruct (decide (k = id)) as [->|Hne]; [|by rewrite lookup_alter_ne].
    rewrite lookup_alter_eq, E. cbn. f_equal. destruct sv as [sid sname sls sip sapp]. cbn in *.
    pose proof (wf_roles st Hw _ _ E) as Hr. cbn in Hr. unfold set_svc_labels. cbn. f_equal.
    unfold lget. destruct (sls !! "role") as [cur|] eqn:Ec; cbn.
    + rewrite bool_decide_eq_false_2 by congruence. rewrite insert_insert_eq. by apply insert_id.
    + by rewrite delete_insert_id.
Qed.

Lemma Rev_shadowed : Rev noteConnStringShadowed.
Proof. intros st Hw. split; [split; apply Hw|]. exists []. by rewrite app_nil_r. Qed.

(** A composite operation: its parts. *)
Ltac rev := repeat first
  [ apply Rev_ret | apply Rev_reads | apply Rev_shadowed | apply Rev_noteExternal | apply Rev_external
  | apply Rev_materializeServiceNode | apply Rev_addServiceEdge | apply Rev_addRouteChainEdge
  | (apply Rev_markIngressService; done) | eassumption
  | (apply Rev_bind; [|intros ?]) | (apply Rev_for_each; intros ?)
  | match goal with |- Rev (match ?x with _ => _ end) => destruct x end ].

Lemma Rev_resolveServiceLevel cl ns svc : Rev (resolveServiceLevel r cl ns svc).
Proof. unfold resolveServiceLevel, fan_out. rev. Qed.

Lemma Rev_resolveServiceLevelInCluster cl ns svc : Rev (resolveServiceLevelInCluster r cl ns svc).
Proof. unfold resolveServiceLevelInCluster, fan_out. rev. Qed.

Lemma Rev_resolveRouteChain dest id : Rev (resolveRouteChain r dest id).
Proof.
  unfold resolveRouteChain. pose proof Rev_resolveServiceLevelInCluster as HC.
  destruct (negb _); [rev|]. apply Rev_bind; [apply HC|]. intros ids. rev.
Qed.

Lemma Rev_routeIndexResolve key : Rev (routeIndexResolve r key).
Proof.
  unfold routeIndexResolve. destruct (routes r) as [idx|]; [|rev].
  case_bool_decide; [rev|]. destruct (idx !! key) as [e|]; [|rev].
  destruct (entry_failed e); [rev|].
  destruct (entry_outcome e); try (by rev);
    (apply Rev_bind; [apply Rev_resolveServiceLevel || apply Rev_resolveServiceLevelInCluster|]);
    intros [|id ids]; try (by rev).
  apply Rev_bind; [apply Rev_resolveRouteChain|]. intros ?. rev.
Qed.

Lemma Rev_to_external reason label : Rev (to_external r reason label).
Proof. unfold to_external. rev. Qed.

Lemma Rev_resolveEmptyUID label cl : Rev (resolveEmptyUID r label cl).
Proof.
  unfold resolveEmptyUID, resolveConnString. destruct (isConnString label).
  - case_bool_decide; [apply Rev_to_external|].
    destruct (classifyK8sDNS _) as [[svc ns]|]; [|apply Rev_to_external].
    apply Rev_bind; [apply Rev_resolveServiceLevel|]. intros [|id ids]; [apply Rev_to_external|rev].
  - destruct (negb _); [apply Rev_to_external|rev].
Qed.

Lemma Rev_resolveClient label cl uid ns : Rev (resolveClient r label cl uid ns).
Proof.
  unfold resolveClient. rewrite Hf. pose proof (Rev_resolveEmptyUID label cl).
  case_bool_decide; [rev|]. destruct (lookupClientPod r cl uid); rev.
Qed.

Lemma Rev_routeExternal key value reason : Rev (routeExternal r key value reason).
Proof.
  unfold routeExternal. apply Rev_bind; [apply Rev_routeIndexResolve|]. intros [[|id ids] noted]; rev.
Qed.

Lemma Rev_resolveUnknownServerPeer pod peer : Rev (resolveUnknownServerPeer r pod peer).
Proof.
  unfold resolveUnknownServerPeer. pose proof Rev_routeExternal as HE.
  destruct pod as [pod|]; [|rev]. case_bool_decide; [rev|].
  destruct (classifyPeerHost _ _ _ _) as [[ns svc]|].
  - apply Rev_bind; [apply Rev_resolveServiceLevel|]. intros [|id ids]; [apply HE|rev].
  - destruct (ParseIP _); [|apply HE].
    destruct (lookupPeerPodIP _ _ _) as [[p|] []]; try apply HE; rev.
Qed.

Lemma Rev_resolveServer label cl uid ns pod peer : Rev (resolveServer r label cl uid ns pod peer).
Proof.
  unfold resolveServer. rewrite Hf. pose proof (Rev_resolveEmptyUID label cl).
  pose proof (Rev_resolveUnknownServerPeer pod peer).
  repeat (case_bool_decide; rev).
Qed.

End reversible.


(** One call of a primitive operation. *)
Inductive effect :=
  | EReason (reason : string)
  | EShadow
  | EExternal (label : string)
  | ESynth (id cluster namespace podUID : string)
  | EService (cluster ns svc : string) (obs : ServiceObs)
  | ESvcEdge (svcID podID ns : string)
  | EChain (src tgt cluster : string)
  | ERole (id role : string).

Section effects.
Context `{EdgeUUID, URLHost} (r : sgIndex).

Definition apply_effect (st : sgState) (e : effect) : sgState :=
  match e with
  | EReason reason => (noteExternal r reason st).2
  | EShadow => (noteConnStringShadowed st).2
  | EExternal label => (external r label st).2
  | ESynth id cl ns uid => (synthPod id cl ns uid st).2
  | EService cl ns svc obs => (materializeServiceNode r cl ns svc obs st).2
  | ESvcEdge s p ns => (addServiceEdge r s p ns st).2
  | EChain s t cl => (addRouteChainEdge r s t cl st).2
  | ERole id role => (markIngressService r id role st).2
  end.

Definition Runs {A} (m : SG A) (Q : A → list effect → Prop) : Prop :=
  ∃ v es, (∀ st, m st = (v, fold_left apply_effect es st)) ∧ Q v es.

Lemma Runs_ret {A} (x : A) (Q : A → list effect → Prop) : Q x [] → Runs (mret x) Q.
Proof. intros HQ. by exists x, []. Qed.

Lemma Runs_bind {A B} (m : SG A) (k : A → SG B) P (Q : B → list effect → Prop) :
  Runs m P → (∀ v es, P v es → Runs (k v) (λ w fs, Q w (es ++ fs))) → Runs (m ≫= k) Q.
Proof.
  intros (v & es & Hm & HP) Hk. destruct (Hk v es HP) as (w & fs & Hk' & HQ).
  exists w, (es ++ fs). split; [|done]. intros st. unfold mbind, SG_bind.
  by rewrite Hm, Hk', fold_left_app.
Qed.

Lemma Runs_weaken {A} (m : SG A) (P Q : A → list effect → Prop) :
  Runs m P → (∀ v es, P v es → Q v es) → Runs m Q.
Proof. intros (v & es & Hm & HP) HPQ. exists v, es. auto. Qed.

Lemma Runs_for_each {A} (body : A → SG unit) (f : A → list effect) l :
  (∀ x, x ∈ l → Runs (body x) (λ _ es, es = f x)) →
  Runs (for_each body l) (λ _ es, es = l ≫= f).
Proof.
  induction l as [|x l IH]; intros Hb; [by apply Runs_ret|].
  cbn [for_each]. eapply Runs_bind; [apply Hb; left|]. intros _ es ->.
  eapply Runs_weaken; [apply IH; intros y Hy; apply Hb; by right|]. by intros _ fs ->.
Qed.

(** The primitives. *)
Lemma Runs_prim {A} (m : SG A) v e (Q : A → list effect → Prop) :
  (∀ st, m st = (v, apply_effect st e)) → Q v [e] → Runs m Q.
Proof. intros Hm HQ. exists v, [e]. by split. Qed.

Lemma noteExternal_runs reason (Q : unit → list effect → Prop) : Q tt [EReason reason] → Runs (noteExternal r reason) Q.
Proof. apply Runs_prim. intros st. cbn [apply_effect]. by destruct (noteExternal r reason st) as [[] ?]. Qed.

Lemma shadowed_runs (Q : unit → list effect → Prop) : Q tt [EShadow] → Runs noteConnStringShadowed Q.
Proof. by apply Runs_prim. Qed.

Lemma external_runs label (Q : string → list effect → Prop) :
  Q (ExternalID label) [EExternal label] → Runs (external r label) Q.
Proof.
  apply Runs_prim. intros st. cbn [apply_effect]. unfold external, note.
  sg_run. destruct (externals st !! _), (filtered r); done.
Qed.

Lemma synthPod_runs id cl ns uid (Q : unit → list effect → Prop) :
  Q tt [ESynth id cl ns uid] → Runs (synthPod id cl ns uid) Q.
Proof. apply Runs_prim. intros st. cbn [apply_effect]. by destruct (synthPod id cl ns uid st) as [[] ?]. Qed.

Lemma materialize_runs cl ns svc obs (Q : string → list effect → Prop) :
  Q (ServiceID cl ns svc) [EService cl ns svc obs] → Runs (materializeServiceNode r cl ns svc obs) Q.
Proof.
  apply Runs_prim. intros st. cbn [apply_effect]. unfold materializeServiceNode, note.
  sg_run. destruct (services st !! _), (filtered r); done.
Qed.

Lemma addServiceEdge_runs s p ns (Q : unit → list effect → Prop) :
  Q tt [ESvcEdge s p ns] → Runs (addServiceEdge r s p ns) Q.
Proof. apply Runs_prim. intros st. cbn [apply_effect]. by destruct (addServiceEdge r s p ns st) as [[] ?]. Qed.

Lemma addRouteChainEdge_runs s t cl (Q : unit → list effect → Prop) :
  Q tt [EChain s t cl] → Runs (addRouteChainEdge r s t cl) Q.
Proof. apply Runs_prim. intros st. cbn [apply_effect]. by destruct (addRouteChainEdge r s t cl st) as [[] ?]. Qed.

Lemma markIngressService_runs id role (Q : unit → list effect → Prop) :
  Q tt [ERole id role] → Runs (markIngressService r id role) Q.
Proof. apply Runs_prim. intros st. cbn [apply_effect]. by destruct (markIngressService r id role st) as [[] ?]. Qed.

(** ** The rungs *)

Lemma anchor_of_held cl ns svc :
  anchorHolds r cl ns svc = bool_decide (is_Some (anchor_of cl (candidates_of r cl ns svc))).
Proof.
  unfold anchorHolds, anchor_of. induction (candidates_of r cl ns svc) as [|c cs IH]; [done|].
  cbn [existsb find]. destruct (bool_decide (cand_cluster c = cl)); [done|]. exact IH.
Qed.

(** The edges of a fan-out. *)
Definition fan_effects (id cl ns svc : string) : list effect :=
  endpoints_of r cl ns svc ≫= (λ ep, [ESvcEdge id (pod_ID (eo_Pod ep)) ns]).

Lemma fan_out_runs id cl ns svc : Runs (fan_out r id cl ns svc) (λ _ es, es = fan_effects id cl ns svc).
Proof. apply Runs_for_each. intros ep _. by apply addServiceEdge_runs. Qed.

(** What a service-level resolution answers and writes. *)
Definition service_ids (cl ns svc : string) : list string :=
  if anchorHolds r cl ns svc then [ServiceID cl ns svc] else [].

Lemma resolveServiceLevel_runs cl ns svc :
  Runs (resolveServiceLevel r cl ns svc) (λ ids es, ids = service_ids cl ns svc ∧
    es = match anchor_of cl (candidates_of r cl ns svc) with
         | None => []
         | Some a => EService cl ns svc (cand_obs a) ::
             (candidates_of r cl ns svc ≫= (λ c, fan_effects (ServiceID cl ns svc) (cand_cluster c) ns svc))
         end).
Proof.
  unfold resolveServiceLevel, service_ids. rewrite anchor_of_held.
  destruct (anchor_of cl _) as [a|] eqn:Ea; [|by apply Runs_ret].
  eapply Runs_bind; [by apply (materialize_runs _ _ _ _ (λ id es, id = ServiceID cl ns svc ∧ es = [EService cl ns svc (cand_obs a)]))|].
  intros ? ? [-> ->]. eapply Runs_bind.
  - apply Runs_for_each. intros c _. apply fan_out_runs.
  - intros _ fs ->. apply Runs_ret. by rewrite app_nil_r.
Qed.

Lemma resolveServiceLevelInCluster_runs cl ns svc :
  Runs (resolveServiceLevelInCluster r cl ns svc) (λ ids es, ids = service_ids cl ns svc ∧
    es = match anchor_of cl (candidates_of r cl ns svc) with
         | None => []
         | Some a => EService cl ns svc (cand_obs a) :: fan_effects (ServiceID cl ns svc) cl ns svc
         end).
Proof.
  unfold resolveServiceLevelInCluster, service_ids. rewrite anchor_of_held.
  destruct (anchor_of cl _) as [a|] eqn:Ea; [|by apply Runs_ret].
  eapply Runs_bind; [by apply (materialize_runs _ _ _ _ (λ id es, id = ServiceID cl ns svc ∧ es = [EService cl ns svc (cand_obs a)]))|].
  intros ? ? [-> ->]. eapply Runs_bind; [apply fan_out_runs|].
  intros _ fs ->. apply Runs_ret. by rewrite app_nil_r.
Qed.

(** ** What the effects promise *)

Definition loaded_pod (id : string) : Prop := is_Some (podByID r !! id).

(** The indexes name loaded pods only. *)
Record index_ok : Prop := {
  io_podByID : ∀ id p, podByID r !! id = Some p → pod_ID p = id;
  io_podByUID : ∀ u p, podByUID r !! u = Some p → loaded_pod (pod_ID p);
  io_endpoints : ∀ k ep, ep ∈ default [] (endpointsByService r !! k) → loaded_pod (pod_ID (eo_Pod ep));
  io_pod_ips : ∀ k c, c ∈ default [] (podIPCandidates r !! k) → loaded_pod (pod_ID (pc_pod c));
}.

(** The node an effect creates. *)
Definition created (e : effect) : option string :=
  match e with
  | EExternal label => Some (ExternalID label)
  | ESynth id _ _ _ => Some id
  | EService cl ns svc _ => Some (ServiceID cl ns svc)
  | _ => None
  end.
Definition makes (es : list effect) (id : string) : Prop := ∃ e, e ∈ es ∧ created e = Some id.
Definition makes_svc (es : list effect) (id : string) : Prop :=
  ∃ cl ns svc obs, EService cl ns svc obs ∈ es ∧ id = ServiceID cl ns svc.

(** An edge joins a service of the same series to a loaded pod; a filtered build
    synthesises no pod; a role is not empty. *)
Definition effect_ok (es : list effect) (e : effect) : Prop :=
  match e with
  | ESvcEdge s p _ => makes_svc es s ∧ loaded_pod p
  | EChain s t _ => loaded_pod s ∧ makes_svc es t
  | ESynth _ _ _ _ => filtered r = false
  | ERole id role => makes_svc es id ∧ role ≠ ""
  | EService cl ns svc _ => anchorHolds r cl ns svc = true
  | _ => True
  end.
Definition good (es : list effect) : Prop := ∀ e, e ∈ es → effect_ok es e.

(** Endpoint ids are loaded pods or nodes the effects create. *)
Definition known_id (es : list effect) (id : string) : Prop := loaded_pod id ∨ makes es id.
Definition loaded_id (es : list effect) (id : string) : Prop := loaded_pod id ∨ makes_svc es id.

Lemma makes_svc_app es fs id : makes_svc (es ++ fs) id ↔ makes_svc es id ∨ makes_svc fs id.
Proof. unfold makes_svc. setoid_rewrite elem_of_app. naive_solver. Qed.

Lemma makes_app es fs id : makes (es ++ fs) id ↔ makes es id ∨ makes fs id.
Proof. unfold makes. setoid_rewrite elem_of_app. naive_solver. Qed.

Lemma makes_svc_makes es id : makes_svc es id → makes es id.
Proof. intros (cl & ns & svc & obs & He & ->). by exists (EService cl ns svc obs). Qed.

Lemma effect_ok_mono es fs e : (∀ id, makes_svc es id → makes_svc fs id) → effect_ok es e → effect_ok fs e.
Proof. destruct e; cbn; naive_solver. Qed.

Lemma good_nil : good [].
Proof. intros e He. by apply not_elem_of_nil in He. Qed.

Lemma good_app es fs : good es → (∀ e, e ∈ fs → effect_ok (es ++ fs) e) → good (es ++ fs).
Proof.
  intros He Hf e [Hin|Hin]%elem_of_app; [|by apply Hf].
  eapply effect_ok_mono; [|by apply He]. intros id Hid. apply makes_svc_app. by left.
Qed.

Lemma good_app2 es fs : good es → good fs → good (es ++ fs).
Proof.
  intros He Hf. apply good_app; [done|]. intros e Hin.
  eapply effect_ok_mono; [|by apply Hf]. intros id Hid. apply makes_svc_app. by right.
Qed.

Lemma good_free es : (∀ e, e ∈ es → ∀ fs, effect_ok fs e) → good es.
Proof. intros Hf e He. by apply Hf. Qed.

Hypothesis Hok : index_ok.

Lemma fan_effects_ok es id cl ns svc e :
  makes_svc es id → e ∈ fan_effects id cl ns svc → effect_ok es e.
Proof.
  intros Hid (ep & He & Hep)%list_elem_of_bind. apply list_elem_of_singleton in He as ->.
  split; [done|]. by apply (io_endpoints Hok _ ep Hep).
Qed.

Lemma service_level_good cl ns svc :
  Runs (resolveServiceLevel r cl ns svc) (λ ids es, ids = service_ids cl ns svc ∧
    good es ∧ ∀ id, id ∈ ids → makes_svc es id) ∧
  Runs (resolveServiceLevelInCluster r cl ns svc) (λ ids es, ids = service_ids cl ns svc ∧
    good es ∧ ∀ id, id ∈ ids → makes_svc es id).
Proof.
  assert (∀ a fs, (∀ e, e ∈ fs → effect_ok (EService cl ns svc (cand_obs a) :: fs) e) →
    anchor_of cl (candidates_of r cl ns svc) = Some a →
    good (EService cl ns svc (cand_obs a) :: fs) ∧
    ∀ id, id ∈ service_ids cl ns svc → makes_svc (EService cl ns svc (cand_obs a) :: fs) id) as Hgen.
  { intros a fs Hfs Ha. split.
    - intros e [->|He]%elem_of_cons; [|by apply Hfs].
      cbn. rewrite anchor_of_held, Ha. by apply bool_decide_eq_true.
    - unfold service_ids. rewrite anchor_of_held, Ha, bool_decide_eq_true_2 by done.
      intros id ->%list_elem_of_singleton. exists cl, ns, svc, (cand_obs a). split; [left|done]. }
  assert (anchor_of cl (candidates_of r cl ns svc) = None → service_ids cl ns svc = []) as Hnone.
  { unfold service_ids. intros Ha. by rewrite anchor_of_held, Ha. }
  assert (∀ a fs, makes_svc (EService cl ns svc (cand_obs a) :: fs) (ServiceID cl ns svc)) as Hsvc.
  { intros a fs. exists cl, ns, svc, (cand_obs a). split; [left|done]. }
  split; (eapply Runs_weaken; [apply resolveServiceLevel_runs || apply resolveServiceLevelInCluster_runs|]);
    intros v es [-> ->]; (split; [done|]); destruct (anchor_of cl _) as [a|] eqn:Ea;
    try (split; [apply good_nil|rewrite Hnone by done; by intros ? ?%not_elem_of_nil]).
  - apply Hgen; [|done]. intros e (c & He & _)%list_elem_of_bind. by eapply fan_effects_ok.
  - apply Hgen; [|done]. intros e He. by eapply fan_effects_ok.
Qed.

(** ** Routes *)

Lemma chain_ready_holds dest : chain_ready r dest = true →
  service_ids (dest_Cluster dest) (dest_IngressNamespace dest) (dest_IngressService dest) =
  [ServiceID (dest_Cluster dest) (dest_IngressNamespace dest) (dest_IngressService dest)].
Proof.
  unfold chain_ready, service_ids. intros Hc. apply andb_true_iff in Hc as [Hc _].
  apply andb_true_iff in Hc as [_ Hc]. by rewrite Hc.
Qed.

(** The chain's entry hop. *)
Definition entry_ids (dest : RouteDestination) : list string :=
  if chain_ready r dest
  then [ServiceID (dest_Cluster dest) (dest_IngressNamespace dest) (dest_IngressService dest)] else [].

Lemma resolveRouteChain_runs dest b es0 : good es0 → makes_svc es0 b →
  Runs (resolveRouteChain r dest b) (λ o es,
    o = (if chain_ready r dest then Some (entry_ids dest) else None) ∧
    good (es0 ++ es) ∧ ∀ id, id ∈ entry_ids dest → makes_svc es id).
Proof.
  intros Hg0 Hb. unfold resolveRouteChain, entry_ids. destruct (chain_ready r dest) eqn:Ec; cbn [negb].
  2: { apply Runs_ret. rewrite app_nil_r. split; [done|]. split; [done|by intros ? ?%not_elem_of_nil]. }
  pose proof (chain_ready_holds dest Ec) as Hids.
  eapply Runs_bind; [apply service_level_good|]. intros ids es (-> & Hes & Hmk). rewrite Hids in *.
  cbn [head default from_option].
  set (id := ServiceID _ _ _) in *. change (default "" (Some id)) with id.
  assert (makes_svc es id) as Hid by (apply Hmk; left).
  eapply Runs_bind; [by apply (markIngressService_runs _ _ (λ _ es, es = [ERole id roleIngressGateway]))|].
  intros _ ? ->. eapply Runs_bind.
  { apply (Runs_for_each _ (λ podID, [EChain podID b (dest_Cluster dest)])). intros x _.
    by apply addRouteChainEdge_runs. }
  intros _ fs ->. apply Runs_ret. split; [done|]. rewrite app_nil_r. split.
  - rewrite app_assoc. apply good_app; [by apply good_app2|].
    intros e [->%list_elem_of_singleton|He]%elem_of_app.
    + split; [|done]. rewrite !makes_svc_app. by left; right.
    + apply list_elem_of_bind in He as (p & ->%list_elem_of_singleton & Hp). split.
      * apply (elem_of_compact String.compare), elem_of_sort_func, list_elem_of_fmap in Hp as (ep & -> & Hep).
        by apply (io_endpoints Hok _ ep Hep).
      * rewrite !makes_svc_app. by left; left.
  - intros x ->%list_elem_of_singleton. rewrite !makes_svc_app. by left.
Qed.

(** What the index answers for a key, as a function of the index. *)
Definition route_ids (key : routeKey) : list string :=
  match routes r with
  | None => []
  | Some idx =>
      if bool_decide (key_ips key = "") then [] else
      match idx !! key with
      | None => []
      | Some entry =>
          let dest := adopt_dest r (entry_dest entry) in
          let backend := service_ids (dest_Cluster dest) (dest_Namespace dest) (dest_Service dest) in
          if entry_failed entry then [] else
          match entry_outcome entry with
          | RouteHit => if bool_decide (backend = []) then [] else entry_ids dest ++ backend
          | RouteIngressLBService => backend
          | _ => []
          end
      end
  end.

Lemma fail_runs reason : Runs (noteExternal r reason;; mret (([] : list string), true))
  (λ (v : list string * bool) es, v.1 = [] ∧ good es).
Proof.
  eapply Runs_bind; [by apply (noteExternal_runs _ (λ _ es, es = [EReason reason]))|].
  intros _ ? ->. apply Runs_ret. split; [done|]. apply good_free. by intros e ->%list_elem_of_singleton.
Qed.

Lemma routeIndexResolve_runs key :
  Runs (routeIndexResolve r key) (λ (v : list string * bool) es, v.1 = route_ids key ∧ good es ∧
    ∀ id, id ∈ v.1 → makes_svc es id).
Proof.
  assert (∀ b, Runs (mret (([] : list string), b)) (λ (v : list string * bool) es, v.1 = [] ∧ good es ∧ ∀ id, id ∈ v.1 → makes_svc es id)) as Hnil.
  { intros b. apply Runs_ret. split_and!; [done|apply good_nil|by intros ? ?%not_elem_of_nil]. }
  assert (∀ reason, Runs (noteExternal r reason;; mret (([] : list string), true))
    (λ (v : list string * bool) es, v.1 = [] ∧ good es ∧ ∀ id, id ∈ v.1 → makes_svc es id)) as Hfail.
  { intros reason. eapply Runs_weaken; [apply fail_runs|]. intros v es [-> Hg].
    split_and!; [done|done|by intros ? ?%not_elem_of_nil]. }
  unfold routeIndexResolve, route_ids. destruct (routes r) as [idx|]; [|apply Hnil].
  case_bool_decide; [apply Hfail|]. destruct (idx !! key) as [e|]; [|apply Hnil].
  destruct (entry_failed e); [apply Hfail|]. set (dest := adopt_dest r (entry_dest e)).
  destruct (entry_outcome e); try apply Hfail.
  - eapply Runs_bind; [apply service_level_good|]. intros ids es (-> & Hg & Hmk).
    unfold service_ids in *. destruct (anchorHolds _ _ _ _).
    + eapply Runs_bind; [apply (resolveRouteChain_runs dest _ es Hg); apply Hmk; left|].
      intros o fs (-> & Hgood & Hent). apply Runs_ret. rewrite app_nil_r. cbn [fst].
      rewrite bool_decide_eq_false_2 by done.
      match goal with |- ?v = _ ∧ _ => replace v with (entry_ids dest ++ [ServiceID (dest_Cluster dest)
        (dest_Namespace dest) (dest_Service dest)])
        by (unfold entry_ids; by destruct (chain_ready r dest)) end.
      split_and!; [done|done|]. intros x. rewrite makes_svc_app. intros [Hx|Hx]%elem_of_app.
      * right. by apply Hent.
      * left. by apply Hmk.
    + eapply Runs_weaken; [apply fail_runs|]. intros v fs [-> Hfs]. rewrite bool_decide_eq_true_2 by done.
      split_and!; [done|by apply good_app2|by intros ? ?%not_elem_of_nil].
  - eapply Runs_bind; [apply service_level_good|]. intros ids es (-> & Hg & Hmk).
    unfold service_ids in *. destruct (anchorHolds _ _ _ _).
    + eapply Runs_bind; [by apply (markIngressService_runs _ _ (λ _ es, es = [ERole (ServiceID (dest_Cluster dest)
        (dest_Namespace dest) (dest_Service dest)) roleIngressLB]))|].
      intros _ ? ->. apply Runs_ret. rewrite app_nil_r. split_and!; [done| |].
      * apply good_app; [done|]. intros x ->%list_elem_of_singleton. split; [|done].
        rewrite makes_svc_app. left. apply Hmk. left.
      * intros id Hid. rewrite makes_svc_app. left. by apply Hmk.
    + eapply Runs_weaken; [apply fail_runs|]. intros v fs [-> Hfs].
      split_and!; [done|by apply good_app2|by intros ? ?%not_elem_of_nil].
Qed.

(** ** Endpoints *)

(** Every endpoint is a loaded pod or a node made for it; several answers are
    all services. *)
Definition endpoint_post (ids : list string) (es : list effect) : Prop :=
  good es ∧ (∀ id, id ∈ ids → known_id es id) ∧
  ((length ids ≤ 1)%nat ∨ ∀ id, id ∈ ids → makes_svc es id).

Lemma endpoint_nil : endpoint_post [] [].
Proof. split_and!; [apply good_nil|by intros ? ?%not_elem_of_nil|left; cbn; lia]. Qed.

Lemma endpoint_svc ids es : good es → (∀ id, id ∈ ids → makes_svc es id) → endpoint_post ids es.
Proof. intros Hg Hm. split_and!; [done| |by right]. intros id Hid. right. by apply makes_svc_makes, Hm. Qed.

Lemma endpoint_pod p es : good es → loaded_pod (pod_ID p) → endpoint_post [pod_ID p] es.
Proof.
  intros Hg Hp. split_and!; [done| |left; cbn; lia]. intros id ->%list_elem_of_singleton.
  by left.
Qed.

Lemma to_external_runs reason label :
  Runs (to_external r reason label) (λ ids es, ids = [ExternalID label] ∧ endpoint_post ids es).
Proof.
  eapply Runs_bind; [by apply (noteExternal_runs _ (λ _ es, es = [EReason reason]))|]. intros _ ? ->.
  eapply Runs_bind; [by apply (external_runs _ (λ id es, id = ExternalID label ∧ es = [EExternal label]))|].
  intros ? ? [-> ->]. apply Runs_ret. split; [done|]. split_and!.
  - apply good_free. by intros e [->|[->|?%not_elem_of_nil]%elem_of_cons]%elem_of_cons.
  - intros id ->%list_elem_of_singleton. right. exists (EExternal label). split; [set_solver|done].
  - left. cbn. lia.
Qed.

Lemma endpoint_post_app ids es fs : good es → endpoint_post ids fs → endpoint_post ids (es ++ fs).
Proof.
  intros Hg (Hgf & Hk & Hm). split_and!; [by apply good_app2| |].
  - intros id [Hid|Hid]%Hk; [by left|]. right. apply makes_app. by right.
  - destruct Hm as [Hm|Hm]; [by left|right]. intros id Hid. apply makes_svc_app. right. auto.
Qed.

Lemma resolveEmptyUID_runs label cl : Runs (resolveEmptyUID r label cl) endpoint_post.
Proof.
  assert (∀ reason, Runs (to_external r reason label) endpoint_post) as Hext.
  { intros reason. eapply Runs_weaken; [apply to_external_runs|]. by intros ids es [_ ?]. }
  unfold resolveEmptyUID, resolveConnString. destruct (isConnString label).
  - case_bool_decide; [apply Hext|]. destruct (classifyK8sDNS _) as [[svc ns]|]; [|apply Hext].
    eapply Runs_bind; [apply service_level_good|]. intros ids es (-> & Hg & Hmk).
    destruct (service_ids cl ns svc) as [|id ids] eqn:Es.
    + eapply Runs_weaken; [apply Hext|]. intros v fs Hp. by apply endpoint_post_app.
    + apply Runs_ret. rewrite app_nil_r. by apply endpoint_svc.
  - destruct (negb _); [apply Hext|]. apply Runs_ret, endpoint_nil.
Qed.

Lemma lookupClientPod_loaded cl uid p :
  lookupClientPod r cl uid = Some p → loaded_pod (pod_ID p).
Proof.
  unfold lookupClientPod. case_bool_decide; [done|].
  destruct (podByID r !! PodID cl uid) as [q|] eqn:E; [|apply (io_podByUID Hok)].
  intros [= <-]. unfold loaded_pod. rewrite (io_podByID Hok _ _ E). by eexists.
Qed.

(** The shadow evidence is no more than evidence. *)
Lemma shadow_runs (b : bool) :
  Runs (if b then noteConnStringShadowed else mret tt) (λ _ es, good es).
Proof.
  destruct b.
  - apply shadowed_runs. apply good_free. by intros e ->%list_elem_of_singleton.
  - apply Runs_ret, good_nil.
Qed.

Lemma synth_runs (b : bool) id cl ns uid : filtered r = false →
  Runs ((if b then noteConnStringShadowed else mret tt);; synthPod id cl ns uid;; mret [id]) endpoint_post.
Proof.
  intros Hf. eapply Runs_bind; [apply shadow_runs|]. intros [] es Hg.
  eapply Runs_bind; [by apply (synthPod_runs _ _ _ _ (λ _ es, es = [ESynth id cl ns uid]))|].
  intros _ ? ->. apply Runs_ret. rewrite app_nil_r. split_and!.
  - apply good_app; [done|]. by intros e ->%list_elem_of_singleton.
  - intros x ->%list_elem_of_singleton. right. apply makes_app. right.
    exists (ESynth id cl ns uid). split; [left|done].
  - left. cbn. lia.
Qed.

Lemma pod_runs (b : bool) p : loaded_pod (pod_ID p) →
  Runs ((if b then noteConnStringShadowed else mret tt);; mret [pod_ID p]) endpoint_post.
Proof.
  intros Hp. eapply Runs_bind; [apply shadow_runs|]. intros [] es Hg.
  apply Runs_ret. rewrite app_nil_r. by apply endpoint_pod.
Qed.

(** The client side: at most one node; the flag is that of a pod, and a loaded
    pod is the one the lookup finds. *)

(** The client side: at most one node; flagged a pod exactly when the lookup
    finds one or one is synthesised. *)
Lemma resolveClient_runs label cl uid ns :
  Runs (resolveClient r label cl uid ns) (λ (v : list string * bool) es,
    endpoint_post v.1 es ∧
    match lookupClientPod r cl uid with
    | Some pod => v = ([pod_ID pod], true)
    | None => v.2 = false ∨ v = ([PodID cl uid], true) ∧ filtered r = false ∧ uid ≠ ""
    end).
Proof.
  assert (Runs (ids ← resolveEmptyUID r label cl; mret (ids, false)) (λ (v : list string * bool) es,
    endpoint_post v.1 es ∧ v.2 = false)) as Hempty.
  { eapply Runs_bind; [apply resolveEmptyUID_runs|]. intros ids es Hp. apply Runs_ret.
    by rewrite app_nil_r. }
  unfold resolveClient. destruct (lookupClientPod r cl uid) as [pod|] eqn:El.
  - rewrite bool_decide_eq_false_2 by (intros ->; unfold lookupClientPod in El; done).
    eapply Runs_bind; [apply shadow_runs|]. intros [] es Hg. apply Runs_ret. rewrite app_nil_r.
    split; [|done]. apply endpoint_pod; [done|]. by eapply lookupClientPod_loaded.
  - case_bool_decide as Hu; [eapply Runs_weaken; [apply Hempty|]; naive_solver|].
    destruct (filtered r) eqn:Hf; [eapply Runs_weaken; [apply Hempty|]; naive_solver|].
    destruct (synth_runs (isConnString label) (PodID cl uid) cl ns uid Hf) as (v & es & Hm & Hp).
    exists ([PodID cl uid], true), es. split; [|split; [|by right]].
    + intros st. specialize (Hm st). unfold mbind, SG_bind in *.
      destruct ((if isConnString label then noteConnStringShadowed else mret tt) st) as [u st1].
      destruct (synthPod _ _ _ _ st1) as [u2 st2]. unfold mret, SG_ret in *. by simplify_eq.
    + specialize (Hm sg_empty). unfold mbind, SG_bind in Hm.
      destruct ((if isConnString label then noteConnStringShadowed else mret tt) sg_empty) as [u st1].
      destruct (synthPod _ _ _ _ st1) as [u2 st2]. unfold mret, SG_ret in Hm. by simplify_eq.
Qed.

(** The lookup the markers use answers as the index does. *)
Lemma routeNodeID_ids key raw :
  routeNodeID r key raw = default (ExternalID raw) (last (route_ids key)) ∧
  (length (route_ids key) ≤ 2)%nat.
Proof.
  unfold routeNodeID, route_ids. destruct (routes r) as [idx|]; [|split; [done|cbn; lia]].
  case_bool_decide; [split; [done|cbn; lia]|].
  destruct (idx !! key) as [e|]; [|split; [done|cbn; lia]].
  destruct (entry_failed e); [split; [done|cbn; lia]|].
  assert (∀ cl ns svc, service_ids cl ns svc = [] ∧ anchorHolds r cl ns svc = false ∨
    service_ids cl ns svc = [ServiceID cl ns svc] ∧ anchorHolds r cl ns svc = true) as Hs.
  { intros cl ns svc. unfold service_ids. destruct (anchorHolds r cl ns svc); auto. }
  unfold adopt_dest. cbn [dest_Cluster dest_Namespace dest_Service].
  destruct (entry_outcome e); cbn; try (split; [done|lia]);
    (destruct (Hs (resolveForeign (sg_clusters r) (dest_Cluster (entry_dest e)))
        (dest_Namespace (entry_dest e)) (dest_Service (entry_dest e))) as [[-> ->]|[-> ->]];
      cbn; [split; [done|lia]|]).
  - rewrite last_snoc. split; [done|]. rewrite length_app. unfold entry_ids. case_match; cbn; lia.
  - split; [done|lia].
Qed.

(** The shared external fallback: the index's answer, or the external node. *)
Lemma routeExternal_runs key value reason :
  Runs (routeExternal r key value reason) (λ ids es,
    ids = (if bool_decide (route_ids key = []) then [ExternalID value] else route_ids key) ∧
    endpoint_post ids es).
Proof.
  eapply Runs_bind; [apply routeIndexResolve_runs|]. intros [ids noted] es (Hids & Hg & Hmk).
  cbn [fst] in *. subst ids. destruct (route_ids key) as [|id ids].
  - eapply Runs_bind.
    { instantiate (1 := λ _ es, good es). destruct noted; [apply Runs_ret, good_nil|].
      apply noteExternal_runs, good_free. by intros e ->%list_elem_of_singleton. }
    intros [] fs Hfs.
    eapply Runs_bind; [by apply (external_runs _ (λ id es, id = ExternalID value ∧ es = [EExternal value]))|].
    intros ? ? [-> ->]. apply Runs_ret. rewrite app_nil_r. split; [done|].
    apply endpoint_post_app; [done|]. apply endpoint_post_app; [done|]. split_and!.
    + apply good_free. by intros e ->%list_elem_of_singleton.
    + intros id ->%list_elem_of_singleton. right. exists (EExternal value). split; [left|done].
    + left. cbn. lia.
  - apply Runs_ret. rewrite app_nil_r. split; [done|]. by apply endpoint_svc.
Qed.

(** The unknown-server ladder answers what the marker lookup derives: the same
    node, preceded by the ingress hop of a chained route. *)
Lemma resolveUnknownServerPeer_runs pod peer :
  Runs (resolveUnknownServerPeer r pod peer) (λ ids es,
    endpoint_post ids es ∧ (length ids ≤ 2)%nat ∧
    last ids = (pod ≫= λ pod, viaNodeID r pod peer)).
Proof.
  unfold resolveUnknownServerPeer. destruct pod as [pod|]; cbn [mbind option_bind];
    [|apply Runs_ret; split_and!; [apply endpoint_nil|cbn; lia|done]].
  unfold viaNodeID. case_bool_decide as Hv; [apply Runs_ret; split_and!; [apply endpoint_nil|cbn; lia|done]|].
  set (anchor := lget (pod_Labels pod) "cluster"). set (host := (peer_host (peer_value peer)).1).
  set (key := key_of anchor peer).
  assert (∀ reason es0, good es0 → Runs (routeExternal r key (peer_value peer) reason)
    (λ ids es, endpoint_post ids (es0 ++ es) ∧ (length ids ≤ 2)%nat ∧
      last ids = Some (routeNodeID r key (peer_value peer)))) as Hroute.
  { intros reason es0 Hes0. eapply Runs_weaken; [apply routeExternal_runs|].
    intros ids es [-> Hp]. split; [by apply endpoint_post_app|].
    destruct (routeNodeID_ids key (peer_value peer)) as [-> Hlen].
    destruct (route_ids key) as [|x l]; [split; [cbn; lia|done]|].
    rewrite bool_decide_eq_false_2 by done. split; [done|].
    destruct (last (x :: l)) eqn:E; [done|]. by apply last_None in E. }
  destruct (classifyPeerHost _ _ _ _) as [[ns svc]|] eqn:Ec.
  - eapply Runs_bind; [apply service_level_good|]. intros ids es (-> & Hg & Hmk).
    unfold service_ids in *. destruct (anchorHolds r anchor ns svc).
    + apply Runs_ret. rewrite app_nil_r. split_and!; [by apply endpoint_svc|cbn; lia|done].
    + by apply Hroute.
  - pose proof (io_pod_ips Hok) as Hips.
    destruct (lookupPeerPodIP r anchor host) as [[p|] amb] eqn:El.
    + assert (loaded_pod (pod_ID p)) as Hp.
      { unfold lookupPeerPodIP in El. destruct (ParseIP host) as [ip|]; [|done].
        destruct (find _ _) as [c|] eqn:Ef.
        - injection El as <- _. apply find_some in Ef as [Hin _]. eapply Hips. by apply list_elem_of_In.
        - destruct (default [] _) as [|c [|]] eqn:Ed; [done| |done]. injection El as <- _.
          eapply Hips. rewrite Ed. left. }
      destruct (ParseIP host) as [ip|] eqn:Eip; [|unfold lookupPeerPodIP in El; by rewrite Eip in El].
      apply Runs_ret. split_and!; [by apply endpoint_pod; [apply good_nil|]|cbn; lia|done].
    + destruct (ParseIP host); [destruct amb|]; by apply (Hroute _ []), good_nil.
Qed.

(** The server side. *)
Lemma resolveServer_runs label cl uid ns pod peer :
  Runs (resolveServer r label cl uid ns pod peer) endpoint_post.
Proof.
  assert (Runs (resolveUnknownServerPeer r pod peer) endpoint_post) as Hu.
  { eapply Runs_weaken; [apply resolveUnknownServerPeer_runs|]. by intros ids es [? _]. }
  unfold resolveServer. case_bool_decide; [case_bool_decide; [done|apply resolveEmptyUID_runs]|].
  destruct (podByUID r !! uid) as [p|] eqn:Ep; [apply pod_runs; by eapply io_podByUID|].
  case_bool_decide; [done|]. destruct (filtered r) eqn:Hf; [apply resolveEmptyUID_runs|].
  by apply synth_runs.
Qed.

End effects.
