(* ===== verification/ServiceGraphParse.v ===== *)
(** pkg/build/servicegraph.go: the parse loop over the service-graph series, the
    edges it emits, and the reader.

    The loop is a fold of [series_step] over the vector. Ranges over Go maps at
    the end emit sets; the order the model gives them is the map's own. The
    aggregated evidence lines are left out. *)

From S2P Require Import Prelude GoStrings NetAddr Keyed Float64 GraphNode GraphEdge PairScope.
From S2P Require Import Fanout.
From S2P Require Import RedMetrics BuildIdentity TopologyTypes PeerAddress ServiceGraph.

#[local] Open Scope bool_scope.

(** pkg/build/servicegraph.go@35-35, [relationLabelKey] *)
Definition relationLabelKey := "relation".
(** pkg/build/servicegraph.go@36-36, [relationLink] *)
Definition relationLink := "link".
(** pkg/build/servicegraph.go@37-37, [relationTransport] *)
Definition relationTransport := "transport".

(** pkg/build/servicegraph.go, [ServiceGraphResult] *)
Record ServiceGraphResult := mkServiceGraphResult {
  sg_Edges : list Edge;
  sg_ServiceNodes : list ServiceNode;
  sg_ExternalNodes : list ExternalNode;
  sg_SynthPods : list PodNode;
}.

(** pkg/build/redmetrics.go, [redInputs]: the flags are the non-nil errors. *)
Record redInputs := mkRedInputs {
  ri_Failed : list Sample; ri_FailedErr : bool;
  ri_Duration : list Sample; ri_DurationErr : bool;
}.

(** pkg/build/servicegraph.go@572-575, [parseWithResolver]: [aggEdge]. *)
Record aggEdge := mkAggEdge { srcIsPod : bool; srcCluster : string }.

(** The locals of the loop. *)
Record parseState := mkParseState {
  ps_res : sgState;
  ps_pairs : gmap pairKey aggEdge;
  ps_red : redJoin;
  ps_link : gset pairKey;
  ps_transport : gset pairKey;
}.

(** What one series resolves to. *)
Record resolved := mkResolved {
  rs_src : list string;
  rs_srcIsPod : bool;
  rs_client : option PodNode;
  rs_cluster : string;
  rs_tgt : list string;
}.

Section parse.
Context `{EdgeUUID, URLHost} (r : sgIndex).

(** The pod a resolved client side names. *)
Definition client_pod (srcIDs : list string) (srcIsPod : bool) : option PodNode :=
  match srcIDs with
  | [id] => if srcIsPod then podByID r !! id else None
  | _ => None
  end.

(** The cluster of a resolved client, the trace's without one. *)
Definition cluster_or (traceCluster : string) (pod : option PodNode) : string :=
  match pod with
  | Some pod => let c := lget (pod_Labels pod) "cluster" in
                if bool_decide (c = "") then traceCluster else c
  | None => traceCluster
  end.

(** The normalised UIDs of a series. *)
Definition series_uids (m : Metric) : string * string :=
  normalizeSelfLoopUIDs (label_of m "client_k8s_pod_uid") (label_of m "server_k8s_pod_uid")
    (label_of m "client") (label_of m "server").

(** pkg/build/servicegraph.go@637-649, [parseWithResolver]: a side without UID
    and label. *)
Definition wholly_empty (m : Metric) : bool :=
  let '(cu, su) := series_uids m in
  (bool_decide (cu = "") && bool_decide (label_of m "client" = "")) ||
  (bool_decide (su = "") && bool_decide (label_of m "server" = "")).

(** pkg/build/servicegraph.go@669-707, [parseWithResolver]: both sides. *)
Definition resolve_series (m : Metric) : SG resolved :=
  let '(clientUID, serverUID) := series_uids m in
  let traceCluster := identify (sg_clusters r) m in
  '(srcIDs, srcIsPod) ← resolveClient r (label_of m "client") traceCluster clientUID
                          (label_of m "client_k8s_namespace_name");
  let clientPod := client_pod srcIDs srcIsPod in
  let cluster := cluster_or traceCluster clientPod in
  tgtIDs ← resolveServer r (label_of m "server") cluster serverUID
             (label_of m "server_k8s_namespace_name") clientPod (peerLabelsOf m);
  mret (mkResolved srcIDs srcIsPod clientPod cluster tgtIDs).

(** pkg/build/servicegraph.go@726-733, [parseWithResolver]: the filtered
    build's admission. *)
Definition admitted (st : sgState) (rs : resolved) : bool :=
  negb (bool_decide (rs_src rs = [])) && negb (bool_decide (rs_tgt rs = [])) &&
  (anyLoaded r st (rs_src rs) || anyLoaded r st (rs_tgt rs)).

(** The pairs of a series, with the position of the target. *)
Definition series_pairs (rs : resolved) : list (pairKey * nat) :=
  src ← rs_src rs; imap (λ ti tgt, (mkPairKey src tgt, ti)) (rs_tgt rs).

(** pkg/build/servicegraph.go@751-754, [parseWithResolver] *)
Definition pair_step (rs : resolved) (pairs : gmap pairKey aggEdge) (k : pairKey) : gmap pairKey aggEdge :=
  let fresh := mkAggEdge (rs_srcIsPod rs) (rs_cluster rs) in
  match pairs !! k with
  | None => <[k := fresh]> pairs
  | Some prev => if betterSrcCluster (rs_cluster rs) (srcCluster prev) then <[k := fresh]> pairs else pairs
  end.

(** pkg/build/servicegraph.go@765-767, [parseWithResolver] *)
Definition red_step (st : sgState) (rs : resolved) (s : Sample) (sk : string) (j : redJoin)
  (kt : pairKey * nat) : redJoin :=
  let '(k, ti) := kt in
  recordSeries j k
    (negb (bool_decide (chainEntryIndex (rs_tgt rs) = Some ti)) &&
     isPodOrServiceID r st (src k) && isPodOrServiceID r st (tgt k))
    (redSeriesInScope (s_Metric s)) (s_Value s) sk.

(** pkg/build/servicegraph.go@788-789, [parseWithResolver]: a link series
    without a resolvable consumer. *)
Definition no_consumer (m : Metric) : bool :=
  let serverUID := (series_uids m).2 in
  bool_decide (label_of m "server" = sentinelUnknown) &&
  (bool_decide (serverUID = "") || bool_decide (podByUID r !! serverUID = None)).

(** pkg/build/servicegraph.go@807-818, [parseWithResolver]: the broker hops of
    the sides that are topology pods. *)
Definition via_pairs (m : Metric) (rs : resolved) : list pairKey :=
  let via pod peer := (λ id, mkPairKey (pod_ID pod) id) <$> viaNodeID r pod peer in
  let serverUID := (series_uids m).2 in
  let server := if bool_decide (serverUID = "") then None else podByUID r !! serverUID in
  omap id [ rs_client rs ≫= (λ pod, via pod (peerLabelsOf m));
            server ≫= (λ pod, via pod (serverPeerLabelsOf m)) ].

(** pkg/build/servicegraph.go@597-820, [parseWithResolver]: one series. *)
Definition series_step (ps : parseState) (s : Sample) : parseState :=
  let m := s_Metric s in
  if negb (fgtb (s_Value s) f_zero) || wholly_empty m then ps else
  let sk := if joinKeyed (ps_red ps) then seriesKeyOf m else "" in
  let '(rs, st) := resolve_series m (ps_res ps) in
  if filtered r && negb (admitted st rs)
  then mkParseState (rollback st) (ps_pairs ps) (ps_red ps) (ps_link ps) (ps_transport ps)
  else
    let st := if filtered r then commit st else st in
    let pks := series_pairs rs in
    let pairs := fold_left (pair_step rs) pks.*1 (ps_pairs ps) in
    let red := fold_left (red_step st rs s sk) pks (ps_red ps) in
    if bool_decide (label_of m "edge_relation" = relationLink) && negb (no_consumer m)
    then mkParseState st pairs red (list_to_set pks.*1 ∪ ps_link ps)
           (list_to_set (via_pairs m rs) ∪ ps_transport ps)
    else mkParseState st pairs red (ps_link ps) (ps_transport ps).

(** pkg/build/servicegraph.go@880-910, [parseWithResolver]: the edge of one
    pair. *)
Definition pair_edge (ps : parseState) (red : redJoin) (failedOK durationOK : bool)
  (k : pairKey) (agg : aggEdge) : Edge :=
  let ls : labels := if srcIsPod agg then {[ "cluster" := srcCluster agg ]} else ∅ in
  let ls := if bool_decide (k ∈ ps_link ps) then <[relationLabelKey := relationLink]> ls
            else if bool_decide (k ∈ ps_transport ps) then <[relationLabelKey := relationTransport]> ls
            else ls in
  let typ := if bool_decide (is_Some (services (ps_res ps) !! tgt k))
             then EdgeTypePodCallsService else EdgeTypePodCallsPod in
  let e := NewEdge typ (src k) (tgt k) ls in
  match attachMetrics (pairAcc red k) failedOK durationOK with
  | Some m => default e (WithMetrics (Some e) m)
  | None => e
  end.

(** pkg/build/servicegraph.go@944-945, [parseWithResolver] *)
Definition chain_edge (ce : routeChainEdge) : Edge :=
  NewEdge EdgeTypePodCallsService (ce_src ce) (ce_tgt ce) {[ "cluster" := ce_cluster ce ]}.

(** pkg/build/servicegraph.go@874-946, [parseWithResolver] *)
Definition emit_edges (ps : parseState) (red : redJoin) (failedOK durationOK : bool) : list Edge :=
  map (λ ka : pairKey * aggEdge, pair_edge ps red failedOK durationOK ka.1 ka.2) (map_to_list (ps_pairs ps)) ++
  (map_to_list (svcEdges (ps_res ps))).*2 ++
  map chain_edge
    (filter (λ ce, ps_pairs ps !! mkPairKey (ce_src ce) (ce_tgt ce) = None)
       (map_to_list (routeChainEdges (ps_res ps))).*2).

(** The loop. *)
Definition parse_series (vec : list Sample) (joinFailures joinDuration : bool) : parseState :=
  fold_left series_step vec (mkParseState sg_empty ∅ (newRedJoin joinFailures joinDuration) ∅ ∅).

(** Whether a companion vector is joined: its query succeeded and answered. *)
Definition joins_failures (red : redInputs) : bool := negb (ri_FailedErr red) && negb (bool_decide (ri_Failed red = [])).
Definition joins_duration (red : redInputs) : bool := negb (ri_DurationErr red) && negb (bool_decide (ri_Duration red = [])).

(** pkg/build/servicegraph.go, [parseWithResolver] *)
Definition parseWithResolver (vec : list Sample) (red : redInputs) : ServiceGraphResult :=
  if bool_decide (vec = []) then mkServiceGraphResult [] [] [] [] else
  let joinFailures := joins_failures red in
  let joinDuration := joins_duration red in
  let ps := parse_series vec joinFailures joinDuration in
  let rj := ps_red ps in
  let rj := if joinFailures then (accumulateFailures rj (ri_Failed red)).1.1 else rj in
  let rj := if joinDuration then (accumulateDuration rj (ri_Duration red)).1.1.1 else rj in
  mkServiceGraphResult (emit_edges ps rj joinFailures (negb (ri_DurationErr red)))
    (map_to_list (services (ps_res ps))).*2
    (map_to_list (externals (ps_res ps))).*2
    (map_to_list (synthPods (ps_res ps))).*2.

End parse.

(** pkg/build/servicegraph.go, [parseServiceGraphScoped] *)
Definition parseServiceGraphScoped `{EdgeUUID, URLHost} (vec : list Sample) (t : Topology)
  (rts : option routeIndex) (filtered : bool) : ServiceGraphResult :=
  if bool_decide (vec = []) then mkServiceGraphResult [] [] [] []
  else parseWithResolver (newSGResolver t rts filtered) vec (mkRedInputs [] false [] false).

(** pkg/build/servicegraph.go, [parseServiceGraphRoutes] *)
Definition parseServiceGraphRoutes `{EdgeUUID, URLHost} (vec : list Sample) (t : Topology)
  (rts : option routeIndex) : ServiceGraphResult := parseServiceGraphScoped vec t rts false.

(** pkg/build/servicegraph.go, [parseServiceGraph] *)
Definition parseServiceGraph `{EdgeUUID, URLHost} (vec : list Sample) (t : Topology) : ServiceGraphResult :=
  parseServiceGraphRoutes vec t None.
