(* ===== verification/ServiceGraphProps.v ===== *)
(** The theorems about the service-graph parse (pkg/build/servicegraph.go): its
    edges are closed, a filtered build admits only what touches loaded topology,
    and a rejected series leaves no trace. *)

From S2P Require Import Prelude GoStrings NetAddr Keyed Float64 GraphNode GraphEdge PairScope.
From S2P Require Import Fanout.
From S2P Require Import RedMetrics BuildIdentity TopologyTypes PeerAddress ServiceGraph.
From S2P Require Import ServiceGraphEffects.
From S2P Require Import ServiceGraphEffects ServiceGraphParse.

#[local] Open Scope bool_scope.

Section props.
Context `{EdgeUUID, URLHost} (r : sgIndex) (Hok : index_ok r).

Abbreviation apply_all := (fold_left (apply_effect r)).

(** ** One series *)

(** What a resolved series promises. *)
Definition series_post (m : Metric) (rs : resolved) (es : list effect) : Prop :=
  good r es ∧ (∀ id, id ∈ rs_src rs ++ rs_tgt rs → known_id r es id) ∧
  ((length (rs_src rs) ≤ 1)%nat ∨ ∀ id, id ∈ rs_src rs → makes_svc es id) ∧
  ((length (rs_tgt rs) ≤ 1)%nat ∨ ∀ id, id ∈ rs_tgt rs → makes_svc es id).

Lemma resolve_series_runs m : Runs r (resolve_series r m) (series_post m).
Proof.
  unfold resolve_series, series_post. destruct (series_uids m) as [cu su].
  eapply Runs_bind; [by apply resolveClient_runs|]. intros [ids b] es [(Hg & Hk & Hs) _]. cbn [fst snd] in *.
  eapply Runs_bind; [by apply resolveServer_runs|]. intros tgts fs (Hg2 & Hk2 & Ht).
  apply Runs_ret. rewrite app_nil_r. cbn [rs_src rs_tgt]. split_and!.
  - by apply good_app2.
  - intros id [Hid|Hid]%elem_of_app; [destruct (Hk id Hid) as [?|?]|destruct (Hk2 id Hid) as [?|?]];
      try (by left); right; apply makes_app; auto.
  - destruct Hs as [Hs|Hs]; [by left|right]. intros id Hid. apply makes_svc_app. left. auto.
  - destruct Ht as [Ht|Ht]; [by left|right]. intros id Hid. apply makes_svc_app. right. auto.
Qed.

(** ** The state *)

(** A node of the topology or of the result. *)
Definition node_in (st : sgState) (id : string) : Prop :=
  loaded_pod r id ∨ is_Some (externals st !! id) ∨ is_Some (synthPods st !! id) ∨ is_Some (services st !! id).
Definition svc_in (st : sgState) (id : string) : Prop := is_Some (services st !! id).

Ltac effect_cases e :=
  destruct e; cbn [apply_effect]; unfold noteExternal, noteConnStringShadowed, external, synthPod,
    materializeServiceNode, addServiceEdge, addRouteChainEdge, markIngressService, note;
  sg_run; repeat (case_match; simplify_eq; sg_fields).

Lemma lookup_alter_Some' {A} (f : A → A) (m : gmap string A) i j :
  is_Some (alter f i m !! j) ↔ is_Some (m !! j).
Proof.
  destruct (decide (i = j)) as [->|Hne]; [rewrite lookup_alter_eq|by rewrite lookup_alter_ne].
  by rewrite fmap_is_Some.
Qed.

Lemma makes_svc_one e id :
  makes_svc [e] id ↔ match e with EService cl ns svc _ => id = ServiceID cl ns svc | _ => False end.
Proof.
  unfold makes_svc. setoid_rewrite list_elem_of_singleton. destruct e; naive_solver.
Qed.

Lemma services_apply st e id :
  svc_in (apply_effect r st e) id ↔ svc_in st id ∨ makes_svc [e] id.
Proof.
  rewrite makes_svc_one. unfold svc_in.
  effect_cases e; rewrite ?lookup_alter_Some', ?lookup_insert_is_Some'; naive_solver.
Qed.

Lemma node_apply st e id :
  node_in (apply_effect r st e) id ↔ node_in st id ∨ created e = Some id.
Proof.
  unfold node_in. effect_cases e; cbn [created];
    rewrite ?lookup_alter_Some', ?lookup_insert_is_Some'; naive_solver.
Qed.

Lemma services_apply_all es : ∀ st id,
  svc_in (apply_all es st) id ↔ svc_in st id ∨ makes_svc es id.
Proof.
  induction es as [|e es IH]; intros st id; cbn [fold_left].
  - split; [auto|]. intros [?|(? & ? & ? & ? & ?%not_elem_of_nil & _)]; done.
  - rewrite IH, services_apply. change (e :: es) with ([e] ++ es). rewrite makes_svc_app. tauto.
Qed.

Lemma node_apply_all es : ∀ st id,
  node_in (apply_all es st) id ↔ node_in st id ∨ makes es id.
Proof.
  induction es as [|e es IH]; intros st id; cbn [fold_left].
  - split; [auto|]. intros [?|(? & ?%not_elem_of_nil & _)]; done.
  - rewrite IH, node_apply. change (e :: es) with ([e] ++ es). rewrite makes_app.
    assert (makes [e] id ↔ created e = Some id) as ->; [|tauto].
    unfold makes. setoid_rewrite list_elem_of_singleton. naive_solver.
Qed.

(** The synthesised edges of a state: their ends, with respect to a set of
    services. *)
Record edges_ok (S : string → Prop) (st : sgState) : Prop := {
  eo_svc : ∀ k e, svcEdges st !! k = Some e →
    edge_Type e = EdgeTypeServiceSelectsPod ∧ S (Source e) ∧ loaded_pod r (Target e);
  eo_chain : ∀ k ce, routeChainEdges st !! k = Some ce → loaded_pod r (ce_src ce) ∧ S (ce_tgt ce);
}.

(** The keys are the ids. *)
Record ids_ok (st : sgState) : Prop := {
  ids_ext : ∀ k e, externals st !! k = Some e → ext_ID e = k;
  ids_synth : ∀ k p, synthPods st !! k = Some p → pod_ID p = k;
  ids_svc : ∀ k s, services st !! k = Some s → svc_ID s = k;
}.

Lemma edges_ok_mono (S S' : string → Prop) st : (∀ id, S id → S' id) → edges_ok S st → edges_ok S' st.
Proof. intros HS [H1 H2]. split; naive_solver. Qed.

Lemma edges_apply (S : string → Prop) es st e :
  edges_ok S st → effect_ok r es e → (∀ id, makes_svc es id → S id) → edges_ok S (apply_effect r st e).
Proof.
  intros [H1 H2] He HS. effect_cases e; try (by split); cbn [effect_ok] in He;
    split; sg_fields; try done; intros k x; rewrite ?lookup_insert_Some; naive_solver.
Qed.

Lemma ids_apply st e : ids_ok st → ids_ok (apply_effect r st e).
Proof.
  intros [H1 H2 H3]. effect_cases e; try (by split); split; sg_fields; try done;
    intros k x; rewrite ?lookup_insert_Some, ?lookup_alter_Some;
    naive_solver.
Qed.

Lemma edges_apply_all (S : string → Prop) es all : ∀ st,
  edges_ok S st → (∀ e, e ∈ es → effect_ok r all e) → (∀ id, makes_svc all id → S id) →
  edges_ok S (apply_all es st).
Proof.
  induction es as [|e es IH]; intros st Hst He HS; [done|]. cbn. apply IH; [|set_solver|done].
  eapply edges_apply; [done|apply He; left|done].
Qed.

Lemma ids_apply_all es : ∀ st, ids_ok st → ids_ok (apply_all es st).
Proof. induction es as [|e es IH]; intros st Hst; [done|]. by apply IH, ids_apply. Qed.

(** A filtered build synthesises no pod. *)
Lemma synth_apply_all es all : ∀ st, filtered r = true → (∀ e, e ∈ es → effect_ok r all e) →
  synthPods st = ∅ → synthPods (apply_all es st) = ∅.
Proof.
  induction es as [|e es IH]; intros st Hf He Hst; [done|]. cbn. apply IH; [done|set_solver|].
  pose proof (He e ltac:(left)) as He'.
  assert (∀ id cl ns uid, e ≠ ESynth id cl ns uid) as Hne by (intros ? ? ? ? ->; cbn in He'; congruence).
  clear He He' IH. effect_cases e; try done; by destruct (Hne id cluster namespace podUID).
Qed.

(** ** The loop's invariant *)

(** An id that touches loaded topology: a loaded pod, or a service resolved out
    of the loaded index. *)
Definition loaded_in (st : sgState) (id : string) : Prop := loaded_pod r id ∨ svc_in st id.

Record parse_inv (ps : parseState) : Prop := {
  pi_edges : edges_ok (svc_in (ps_res ps)) (ps_res ps);
  pi_ids : ids_ok (ps_res ps);
  pi_pairs : ∀ k, is_Some (ps_pairs ps !! k) → node_in (ps_res ps) (src k) ∧ node_in (ps_res ps) (tgt k) ∧
    (filtered r = true → loaded_in (ps_res ps) (src k) ∨ loaded_in (ps_res ps) (tgt k));
  pi_filtered : filtered r = true →
    synthPods (ps_res ps) = ∅ ∧ sg_wf (ps_res ps) ∧ journal (ps_res ps) = [];
}.

(** The invariant reads the maps only. *)
Lemma same_edges st st' : same st st' → edges_ok (svc_in st) st → edges_ok (svc_in st') st'.
Proof.
  unfold same, content.
  intros [= _ _ Hs He Hc _] [H1 H2]. unfold svc_in in *. split; rewrite <- ?Hs, <- ?He, <- ?Hc; done. Qed.

Lemma same_ids st st' : same st st' → ids_ok st → ids_ok st'.
Proof. unfold same, content. intros [= He Hy Hs _ _ _] [H1 H2 H3]. split; rewrite <- ?He, <- ?Hy, <- ?Hs; done. Qed.

Lemma same_node st st' id : same st st' → node_in st id ↔ node_in st' id.
Proof. unfold same, content, node_in. by intros [= -> -> -> _ _ _]. Qed.

Lemma same_svc st st' id : same st st' → svc_in st id ↔ svc_in st' id.
Proof. unfold same, content, svc_in. by intros [= _ _ -> _ _ _]. Qed.

Lemma same_wf st st' : same st st' → sg_wf st → sg_wf st'.
Proof. unfold same, content. intros [= _ _ Hs _ _ Hr] [H1 H2]. split; rewrite <- ?Hs, <- ?Hr; done. Qed.

Lemma Rev_resolve_series m : filtered r = true → Rev (resolve_series r m).
Proof.
  intros Hf. unfold resolve_series. destruct (series_uids m) as [cu su].
  apply Rev_bind; [by apply Rev_resolveClient|]. intros [ids b].
  apply Rev_bind; [by apply Rev_resolveServer|]. intros ?. apply Rev_ret.
Qed.

(** Rolling back what a series did restores the maps. *)
Lemma rollback_same m st : filtered r = true → sg_wf st → journal st = [] →
  same (rollback (resolve_series r m st).2) st ∧ journal (rollback (resolve_series r m st).2) = [].
Proof.
  intros Hf Hw Hj. destruct (Rev_resolve_series m Hf st Hw) as (_ & es & He & Hs).
  rewrite Hj in He. split; [|done]. unfold rollback. rewrite He. exact Hs.
Qed.

Lemma commit_same st : same (commit st) st.
Proof. done. Qed.

Lemma pairs_fold rs ks : ∀ pairs k,
  is_Some (fold_left (pair_step rs) ks pairs !! k) ↔ is_Some (pairs !! k) ∨ k ∈ ks.
Proof.
  induction ks as [|x ks IH]; intros pairs k; cbn [fold_left]; [set_solver|].
  rewrite IH, elem_of_cons.
  assert (is_Some (pair_step rs pairs x !! k) ↔ is_Some (pairs !! k) ∨ k = x) as ->; [|tauto].
  unfold pair_step. destruct (pairs !! x) as [prev|] eqn:E; [destruct (betterSrcCluster _ _)|];
    rewrite ?lookup_insert_is_Some'; split; try naive_solver.
Qed.

Lemma elem_of_series_pairs rs k :
  k ∈ (series_pairs rs).*1 ↔ src k ∈ rs_src rs ∧ tgt k ∈ rs_tgt rs.
Proof.
  unfold series_pairs. rewrite list_elem_of_fmap. setoid_rewrite list_elem_of_bind.
  setoid_rewrite elem_of_lookup_imap. split.
  - intros ([k' i] & -> & s & (j & t & [= -> ->] & Hj) & Hs). cbn. split; [done|].
    by eapply list_elem_of_lookup_2.
  - intros [Hs [i Hi]%list_elem_of_lookup]. exists (k, i). split; [done|]. exists (src k).
    split; [|done]. exists i, (tgt k). split; [by destruct k|done].
Qed.

(** The state after resolving one series, out of a state with the invariant. *)
Lemma resolved_inv ps m rs st : parse_inv ps → resolve_series r m (ps_res ps) = (rs, st) →
  edges_ok (svc_in st) st ∧ ids_ok st ∧
  (∀ id, node_in (ps_res ps) id → node_in st id) ∧ (∀ id, svc_in (ps_res ps) id → svc_in st id) ∧
  (∀ id, id ∈ rs_src rs ++ rs_tgt rs → node_in st id) ∧
  ((length (rs_src rs) ≤ 1)%nat ∨ ∀ id, id ∈ rs_src rs → svc_in st id) ∧
  ((length (rs_tgt rs) ≤ 1)%nat ∨ ∀ id, id ∈ rs_tgt rs → svc_in st id) ∧
  (filtered r = true → synthPods st = ∅ ∧ sg_wf st).
Proof.
  intros Hinv Hres. destruct (resolve_series_runs m) as (v & es & Hm & Hg & Hk & Hs & Ht).
  pose proof (Hm (ps_res ps)) as Heq. rewrite Hres in Heq. injection Heq as -> ->.
  assert (∀ id, makes_svc es id → svc_in (apply_all es (ps_res ps)) id) as Hmk
    by (intros; apply services_apply_all; auto).
  split_and!.
  - apply (edges_apply_all _ _ es); [|done|done].
    eapply edges_ok_mono; [|apply pi_edges; done]. intros id Hid. apply services_apply_all. by left.
  - apply ids_apply_all. by apply pi_ids.
  - intros id Hid. apply node_apply_all. by left.
  - intros id Hid. apply services_apply_all. by left.
  - intros id [Hid|Hid]%Hk; [by left|]. apply node_apply_all. by right.
  - destruct Hs as [?|Hs]; [by left|right; auto].
  - destruct Ht as [?|Ht]; [by left|right; auto].
  - intros Hf. destruct (pi_filtered ps Hinv Hf) as (Hsy & Hw & Hj). split.
    + by apply (synth_apply_all _ es).
    + pose proof (Rev_resolve_series m Hf (ps_res ps) Hw) as [Hw' _]. by rewrite Hm in Hw'.
Qed.

(** Several answers are all services, so one loaded answer means all are. *)
Lemma all_loaded st ids : anyLoaded r st ids = true →
  ((length ids ≤ 1)%nat ∨ ∀ id, id ∈ ids → svc_in st id) → ∀ id, id ∈ ids → loaded_in st id.
Proof.
  intros (x & Hx & Hl)%existsb_exists Hlen id Hid. apply list_elem_of_In in Hx.
  destruct Hlen as [Hlen|Hall]; [|right; auto].
  assert (id = x) as -> by (destruct ids as [|y [|]]; cbn in Hlen; set_solver || lia).
  apply orb_true_iff in Hl. rewrite !bool_decide_eq_true in Hl. exact Hl.
Qed.

Lemma series_step_inv ps s : parse_inv ps → parse_inv (series_step r ps s).
Proof.
  intros Hinv. unfold series_step. destruct (_ || _); [done|].
  destruct (resolve_series r (s_Metric s) (ps_res ps)) as [rs st] eqn:Hres.
  destruct (resolved_inv ps _ rs st Hinv Hres) as (He & Hi & Hn & Hsv & Hids & Hs & Ht & Hfl).
  destruct (filtered r) eqn:Hf; cbn [andb].
  2: { assert (parse_inv (mkParseState st (fold_left (pair_step rs) (series_pairs rs).*1 (ps_pairs ps))
         (ps_red ps) ∅ ∅)) as Hpi.
       { split; [done|done| |by rewrite Hf]. cbn [ps_pairs ps_res]. intros k.
         rewrite pairs_fold, elem_of_series_pairs. intros [Hk|[Hsk Htk]].
         - destruct (pi_pairs ps Hinv k Hk) as (? & ? & _). by rewrite Hf; split_and!; auto.
         - rewrite Hf. split_and!; [apply Hids; set_solver..|done]. }
       case_match; destruct Hpi as [P1 P2 P3 P4]; by split. }
  destruct (pi_filtered ps Hinv Hf) as (Hsy & Hw & Hj).
  destruct (admitted r st rs) eqn:Ha; cbn [negb].
  - assert (parse_inv (mkParseState (commit st) (fold_left (pair_step rs) (series_pairs rs).*1 (ps_pairs ps))
         (ps_red ps) ∅ ∅)) as Hpi.
    { split; [by apply (same_edges st)|by apply (same_ids st)| |].
      2: { intros _. destruct (Hfl eq_refl) as [Hsy' Hw']. split_and!; [done| |done]. by apply (same_wf st). }
      cbn [ps_pairs ps_res]. intros k.
      rewrite pairs_fold, elem_of_series_pairs. intros [Hk|[Hsk Htk]].
      - destruct (pi_pairs ps Hinv k Hk) as (? & ? & Hl). split_and!; [by apply Hn..|]. intros _.
        destruct (Hl Hf) as [[?|?]|[?|?]];
          [left; by left|left; right; by apply Hsv|right; by left|right; right; by apply Hsv].
      - split_and!; [apply Hids; set_solver..|]. intros _. unfold admitted in Ha.
        apply andb_true_iff in Ha as [_ [Ha|Ha]%orb_true_iff].
        + left. by apply (all_loaded st (rs_src rs)).
        + right. by apply (all_loaded st (rs_tgt rs)). }
    case_match; destruct Hpi as [P1 P2 P3 P4]; by split.
  - pose proof (rollback_same (s_Metric s) (ps_res ps) Hf Hw Hj) as [Hsame Hj']. rewrite Hres in Hsame, Hj'.
    cbn [snd] in *. assert (same (ps_res ps) (rollback st)) as Hsame' by (by symmetry).
    split; cbn [ps_res ps_pairs].
    + by apply (same_edges (ps_res ps)), pi_edges.
    + by apply (same_ids (ps_res ps)), pi_ids.
    + intros k Hk. destruct (pi_pairs ps Hinv k Hk) as (? & ? & Hl).
      split_and!; [by apply (same_node (ps_res ps))..|]. intros Hf'. unfold loaded_in.
      rewrite <- !(same_svc (ps_res ps) (rollback st)) by done. by apply Hl.
    + intros _. split_and!; [|by apply (same_wf (ps_res ps))|done].
      unfold same, content in Hsame'. injection Hsame' as _ Hsy' _ _ _ _. etransitivity; [symmetry; exact Hsy'|done].
Qed.

Lemma parse_series_inv vec jf jd : parse_inv (parse_series r vec jf jd).
Proof.
  unfold parse_series.
  assert (parse_inv (mkParseState sg_empty ∅ (newRedJoin jf jd) ∅ ∅)) as Hinit.
  { split; cbn [ps_res ps_pairs]; [by split|by split|by intros k [? ?]|].
    intros _. split_and!; [done|apply sg_empty_wf|done]. }
  revert Hinit. generalize (mkParseState sg_empty ∅ (newRedJoin jf jd) ∅ ∅).
  induction vec as [|s vec IH]; intros ps Hps; [done|]. by apply IH, series_step_inv.
Qed.

(** ** What is emitted *)

(** A node a caller of the reader has: a topology pod, or a node of the result. *)
Definition out_node (out : ServiceGraphResult) (id : string) : Prop :=
  loaded_pod r id ∨ (∃ e, e ∈ sg_ExternalNodes out ∧ ext_ID e = id) ∨
  (∃ p, p ∈ sg_SynthPods out ∧ pod_ID p = id) ∨ (∃ s, s ∈ sg_ServiceNodes out ∧ svc_ID s = id).
Definition out_service (out : ServiceGraphResult) (id : string) : Prop :=
  ∃ s, s ∈ sg_ServiceNodes out ∧ svc_ID s = id.

(** The four lists of a parse, off the loop's final state. *)
Definition out_of (ps : parseState) (es : list Edge) : ServiceGraphResult :=
  mkServiceGraphResult es (map_to_list (services (ps_res ps))).*2
    (map_to_list (externals (ps_res ps))).*2 (map_to_list (synthPods (ps_res ps))).*2.

Lemma elem_of_values {A} (m : gmap string A) (key : A → string) id :
  (∀ k x, m !! k = Some x → key x = k) →
  is_Some (m !! id) → ∃ x, x ∈ (map_to_list m).*2 ∧ key x = id.
Proof.
  intros Hk [x Hx]. exists x. split; [|by apply Hk].
  apply list_elem_of_fmap. exists (id, x). split; [done|]. by apply elem_of_map_to_list.
Qed.

Lemma out_node_in ps es id : parse_inv ps → node_in (ps_res ps) id → out_node (out_of ps es) id.
Proof.
  intros Hinv. pose proof (pi_ids ps Hinv) as [He Hs Hv].
  intros [?|[Hx|[Hx|Hx]]]; [by left|right; left|right; right; left|right; right; right];
    (eapply elem_of_values; [|exact Hx]; done).
Qed.

Lemma out_service_in ps es id : parse_inv ps → svc_in (ps_res ps) id → out_service (out_of ps es) id.
Proof. intros Hinv Hx. eapply elem_of_values; [|exact Hx]. by apply pi_ids. Qed.

(** The three kinds of edges. *)
Lemma elem_of_emit ps red fo du e : e ∈ emit_edges ps red fo du →
  (∃ k agg, ps_pairs ps !! k = Some agg ∧ e = pair_edge ps red fo du k agg) ∨
  (∃ k, svcEdges (ps_res ps) !! k = Some e) ∨
  (∃ k ce, routeChainEdges (ps_res ps) !! k = Some ce ∧ e = chain_edge ce).
Proof.
  unfold emit_edges. intros [Hin|[Hin|Hin]%elem_of_app]%elem_of_app.
  - apply list_elem_of_fmap in Hin as ([k agg] & -> & Hka). left. exists k, agg.
    split; [by apply elem_of_map_to_list|done].
  - apply list_elem_of_fmap in Hin as ([k x] & -> & Hka). right; left. exists k. by apply elem_of_map_to_list.
  - apply list_elem_of_fmap in Hin as (ce & -> & [_ Hka]%list_elem_of_filter).
    apply list_elem_of_fmap in Hka as ([k x] & -> & Hka). right; right. exists k, x.
    split; [by apply elem_of_map_to_list|done].
Qed.

Lemma pair_edge_ends ps red fo du k agg : let e := pair_edge ps red fo du k agg in
  Source e = src k ∧ Target e = tgt k ∧ edge_wf e ∧
  edge_Type e = if bool_decide (svc_in (ps_res ps) (tgt k)) then EdgeTypePodCallsService else EdgeTypePodCallsPod.
Proof. unfold pair_edge, svc_in. by case_match. Qed.

(** A filtered build's touch of the loaded topology. *)
Definition touches (ps : parseState) (e : Edge) : Prop :=
  loaded_in (ps_res ps) (Source e) ∨ loaded_in (ps_res ps) (Target e).

Lemma emit_closed ps red fo du e : parse_inv ps → e ∈ emit_edges ps red fo du →
  node_in (ps_res ps) (Source e) ∧ node_in (ps_res ps) (Target e) ∧
  (edge_Type e = EdgeTypePodCallsService → svc_in (ps_res ps) (Target e)) ∧
  (edge_Type e = EdgeTypeServiceSelectsPod → svc_in (ps_res ps) (Source e) ∧ loaded_pod r (Target e)) ∧
  (filtered r = true → touches ps e).
Proof.
  intros Hinv. pose proof (pi_edges ps Hinv) as [Hse Hce].
  intros [(k & agg & Hk & ->)|[(k & Hk)|(k & ce & Hk & ->)]]%elem_of_emit.
  - destruct (pair_edge_ends ps red fo du k agg) as (-> & -> & _ & Ht).
    destruct (pi_pairs ps Hinv k ltac:(by eexists)) as (Hs & Htg & Hl).
    unfold touches. destruct (pair_edge_ends ps red fo du k agg) as (-> & -> & _ & _).
    rewrite Ht. split_and!; [done|done| | |done]; case_bool_decide; done.
  - destruct (Hse k e Hk) as (Ht & Hs & Hl). unfold touches, loaded_in, node_in. rewrite Ht.
    split_and!; [right; right; right; exact Hs|by left|done|done|by right; left].
  - destruct (Hce k ce Hk) as (Hs & Ht). unfold touches, loaded_in, node_in, chain_edge, NewEdge. cbn.
    split_and!; [by left|right; right; right; exact Ht|done|done|by left; left].
Qed.

(** The type of an edge says what its target is. *)
Lemma emit_kind ps red fo du e : parse_inv ps → e ∈ emit_edges ps red fo du →
  edge_Type e = EdgeTypePodCallsPod ∧ ¬ svc_in (ps_res ps) (Target e) ∨
  edge_Type e = EdgeTypePodCallsService ∨ edge_Type e = EdgeTypeServiceSelectsPod.
Proof.
  intros Hinv. pose proof (pi_edges ps Hinv) as [Hse _].
  intros [(k & agg & _ & ->)|[(k & Hk)|(k & ce & _ & ->)]]%elem_of_emit.
  - destruct (pair_edge_ends ps red fo du k agg) as (_ & -> & _ & ->). case_bool_decide; auto.
  - destruct (Hse k e Hk) as (-> & _). auto.
  - auto.
Qed.

Lemma parseWithResolver_out vec red : ∃ ps es, parse_inv ps ∧ parseWithResolver r vec red = out_of ps es ∧
  (es = [] ∨ ∃ rj fo du, es = emit_edges ps rj fo du).
Proof.
  unfold parseWithResolver. case_bool_decide.
  - exists (parse_series r [] false false), []. split; [apply parse_series_inv|]. split; [done|by left].
  - eexists (parse_series r vec _ _), _. split; [apply parse_series_inv|]. split; [reflexivity|].
    right. by eexists _, _, _.
Qed.

End props.
