(* ===== verification/RoutePrescan.v ===== *)
(** pkg/build/routeprescan.go: the questions a build poses to the route engine
    before the parse, the index of its answers, and pkg/build/servicegraph.go's
    reader that composes prescan and parse.

    The engine is the parameter [resolver]; the calls are independent of each
    other, and which of them are answered before the build's deadline is the
    parameter [answered]. *)

From S2P Require Import Prelude GoStrings NetAddr Keyed Float64 GraphNode GraphEdge PairScope.
From S2P Require Import Fanout.
From S2P Require Import RedMetrics BuildIdentity TopologyTypes PeerAddress ServiceGraph.
From S2P Require Import ServiceGraphParse.

#[local] Open Scope bool_scope.

(** ** Collecting *)

Section collect.
Context `{URLHost} (r : sgIndex).

(** pkg/build/routeprescan.go@354-371, [collectRouteQueriesWith]: the via keys of
    a span-link series. *)
Definition link_keys (m : Metric) (traceCluster clientUID serverUID : string) : list routeKey :=
  let serverPod := if bool_decide (serverUID = "") then None else podByUID r !! serverUID in
  let known := bool_decide (is_Some serverPod) in
  if bool_decide (label_of m "edge_relation" = relationLink) &&
     (negb (bool_decide (label_of m "server" = sentinelUnknown)) || known)
  then omap id [ lookupClientPod r traceCluster clientUID ≫= (λ pod, viaRouteKey r pod (peerLabelsOf m));
                 serverPod ≫= (λ pod, viaRouteKey r pod (serverPeerLabelsOf m)) ]
  else [].

(** pkg/build/routeprescan.go@373-388, [collectRouteQueriesWith]: the key of an
    unknown server. *)
Definition unknown_keys (m : Metric) (traceCluster clientUID serverUID : string) : list routeKey :=
  if negb (bool_decide (label_of m "server" = sentinelUnknown)) then []
  else if negb (bool_decide (serverUID = "")) && bool_decide (is_Some (podByUID r !! serverUID)) then []
  else match lookupClientPod r traceCluster clientUID with
       | None => []
       | Some pod => match viaRouteKey r pod (peerLabelsOf m) with Some k => [k] | None => [] end
       end.

(** pkg/build/routeprescan.go@328-388, [collectRouteQueriesWith]: one series. *)
Definition sample_keys (s : Sample) : list routeKey :=
  let m := s_Metric s in
  if negb (fgtb (s_Value s) f_zero) || wholly_empty m then [] else
  let traceCluster := identify (sg_clusters r) m in
  let '(clientUID, serverUID) := series_uids m in
  link_keys m traceCluster clientUID serverUID ++ unknown_keys m traceCluster clientUID serverUID.

(** pkg/build/routeprescan.go@390-397, [collectRouteQueriesWith] *)
Definition routeKey_cmp : routeKey → routeKey → comparison :=
  cmp_lex (on_key callerCluster String.compare)
    (cmp_lex (on_key key_host String.compare)
      (cmp_lex (on_key key_port Z.compare) (on_key key_ips String.compare))).

(** pkg/build/routeprescan.go, [collectRouteQueriesWith] *)
Definition collectRouteQueriesWith (vec : list Sample) : list routeKey :=
  sort_func routeKey_cmp (keep_first ∅ (vec ≫= sample_keys)).

End collect.

(** pkg/build/routeprescan.go, [collectRouteQueries] *)
Definition collectRouteQueries (vec : list Sample) (t : Topology) : list routeKey :=
  if bool_decide (vec = []) then [] else collectRouteQueriesWith (newSGResolver t None false) vec.

(** ** Answering *)

Section answer.
Context {E : Type} (resolver : RouteRequest → result E (RouteDestination * RouteOutcome)).
(** Whether a key's call completes before the build's deadline. *)
Context (answered : routeKey → bool).

(** pkg/build/routeprescan.go@416-416, [maxRouteKeys] *)
Definition maxRouteKeys : nat := 512.

(** pkg/build/routeprescan.go@474-492, [resolveRouteQueries]: the entry of one
    call; a call the deadline cut off records nothing. *)
Definition route_entry (at_ : Z) (k : routeKey) : option routeEntry :=
  if answered k then
    match resolver (request k at_) with
    | Ok (dest, outcome) => Some (mkRouteEntry dest outcome false)
    | Err _ => Some (mkRouteEntry (mkRouteDestination "" "" "" 0 "" "" "") RouteNoGateway true)
    end
  else None.

(** pkg/build/routeprescan.go, [resolveRouteQueries] *)
Definition resolveRouteQueries (keys : list routeKey) (at_ : Z) : routeIndex :=
  fold_left (λ idx k, match route_entry at_ k with Some e => <[k := e]> idx | None => idx end)
    (take maxRouteKeys keys) ∅.

End answer.

(** ** The reader *)

(** pkg/build/servicegraph.go, [optionalQueryFatal] *)
Definition optionalQueryFatal {E} (ctxDone : bool) (q : result E (list Sample)) : option E :=
  match q with Err e => if ctxDone then Some e else None | Ok _ => None end.

(** The vector of an optional query, nil on an error, and whether it failed. *)
Definition optional_vec {E} (q : result E (list Sample)) : list Sample * bool :=
  match q with Ok v => (v, false) | Err _ => ([], true) end.

(** pkg/build/servicegraph.go, [ReadServiceGraph]: over the answers of the three
    queries and whether the caller's context is done; [first] is the error the
    group reports when only optional queries failed. *)
Definition ReadServiceGraph `{EdgeUUID, URLHost} {E : Type}
  (total failed duration : result E (list Sample)) (ctxDone : bool)
  (end_ : Z) (t : Topology)
  (resolver : option (RouteRequest → result E (RouteDestination * RouteOutcome)))
  (answered : routeKey → bool) (filtered : bool) : result E ServiceGraphResult :=
  match total with
  | Err e => Err e
  | Ok vec =>
      match optionalQueryFatal ctxDone failed, optionalQueryFatal ctxDone duration with
      | Some e, _ => Err e
      | None, Some e => Err e
      | None, None =>
          let res := newSGResolver t None filtered in
          let rts := match resolver with
                     | None => None
                     | Some f => Some (resolveRouteQueries f answered (collectRouteQueriesWith res vec) end_)
                     end in
          let '(fv, fe) := optional_vec failed in
          let '(dv, de) := optional_vec duration in
          Ok (parseWithResolver (newSGResolver t rts filtered) vec (mkRedInputs fv fe dv de))
      end
  end.
