(* ===== verification/ServiceGraphTheorems.v ===== *)
(** The theorems about the service-graph reader over a parsed topology
    (pkg/build/servicegraph.go, routeprescan.go). *)

From S2P Require Import Prelude GoStrings NetAddr Keyed Float64 GraphNode GraphEdge Selector.
From S2P Require Import PairScope Fanout.
From S2P Require Import RedMetrics BuildIdentity TopologyTypes NetApp NetAppProps Topology.
From S2P Require Import PeerAddress.
From S2P Require Import ServiceGraph.
From S2P Require Import ServiceGraphEffects ServiceGraphParse.
From S2P Require Import ServiceGraphProps RoutePrescan.

#[local] Open Scope bool_scope.

(** ** The resolver of a topology *)

(** The reverse indexes of a topology name its own pods. *)
Record pods_in (t : Topology) : Prop := {
  pin_uid : ∀ u p, PodsByUID t !! u = Some p → p ∈ Pods t;
  pin_endpoints : ∀ k ep, ep ∈ default [] (EndpointsByService t !! k) → eo_Pod ep ∈ Pods t;
}.

Lemma podByID_lookup (pods : list PodNode) id :
  (fold_keyed (λ p, Some (pod_ID p)) (λ _ p, Some p) pods ∅ : gmap string PodNode) !! id =
  last (filter (λ p, Some (pod_ID p) = Some id) pods).
Proof.
  rewrite lookup_fold_keyed, lookup_empty. generalize (filter (λ p, Some (pod_ID p) = Some id) pods).
  intros l. induction l as [|p l IH] using rev_ind; [done|].
  by rewrite fold_left_app, last_snoc.
Qed.

Lemma newSGResolver_pods t rts f id : loaded_pod (newSGResolver t rts f) id ↔ id ∈ map pod_ID (Pods t).
Proof.
  unfold loaded_pod, newSGResolver. cbn [podByID]. rewrite podByID_lookup, list_elem_of_fmap. split.
  - intros [p Hp]. apply last_Some_elem_of, list_elem_of_filter in Hp as [[= Heq] Hp]. by exists p.
  - intros (p & -> & Hp). destruct (last _) eqn:E; [by eexists|].
    apply last_None in E. exfalso. eapply (filter_nil_not_elem_of _ _ p E); done.
Qed.

Lemma newSGResolver_ok t rts f : pods_in t → index_ok (newSGResolver t rts f).
Proof.
  intros [Hu He].
  assert (∀ p, p ∈ Pods t → loaded_pod (newSGResolver t rts f) (pod_ID p)) as Hin.
  { intros p Hp. apply newSGResolver_pods, list_elem_of_fmap. by exists p. }
  split.
  - intros id p. cbn [newSGResolver podByID]. rewrite podByID_lookup. intros Hp.
    by apply last_Some_elem_of, list_elem_of_filter in Hp as [[= Heq] _].
  - intros u p Hp. apply Hin. by eapply Hu.
  - intros k ep Hep. apply Hin. by eapply He.
  - intros k c Hc. apply Hin. cbn [newSGResolver podIPCandidates] in Hc. unfold pod_ip_candidates in Hc.
    rewrite lookup_fmap in Hc. destruct (append_by _ _ _ ∅ !! k) as [l|] eqn:El; [|by apply not_elem_of_nil in Hc].
    cbn in Hc. apply elem_of_sort_func in Hc.
    assert (c ∈ default [] (append_by
      (λ kp : ipKey * PodNode, Some (mkFamIPKey (ClusterFamilyKey (ik_cluster kp.1)) (ik_ip kp.1)))
      (λ kp, mkPodIPCandidate (ik_cluster kp.1) kp.2) (map_to_list (pods_per_cluster_ip (Pods t))) ∅ !! k)) as Hc'
      by (by rewrite El).
    rewrite lookup_append_by_default in Hc'. apply list_elem_of_fmap in Hc' as ([ik p] & -> & Hkp).
    apply list_elem_of_filter in Hkp as [_ Hkp]. apply elem_of_map_to_list in Hkp.
    apply fold_keyed_origin in Hkp as (q & o & Hq & _ & Hup). cbn.
    destruct o as [e|]; [destruct (str_lt _ _)|]; by simplify_eq.
Qed.

(** A parsed topology's reverse indexes name its own pods. *)
Lemma parseTopology_pods_in `{EdgeUUID, MetricFingerprint} v keys win : pods_in (parseTopology v keys win).
Proof.
  split.
  - intros u p Hp. unfold parseTopology in *. cbv zeta in *. cbn [PodsByUID Pods] in *.
    unfold pods_by_uid in Hp. apply fold_keyed_origin in Hp as ([u' q] & o & Hq & _ & Hup).
    assert (q = p) as <- by (destruct o as [e|]; [destruct (str_lt _ _)|]; by simplify_eq).
    apply list_elem_of_fmap. by exists (u', q).
  - intros k ep Hep. unfold parseTopology in *. cbv zeta in *. cbn [EndpointsByService Pods] in *.
    unfold endpoints_by_service in Hep. rewrite lookup_append_by_default in Hep.
    apply list_elem_of_fmap in Hep as ([k' p] & -> & Hkp). cbn.
    apply list_elem_of_filter in Hkp as [_ Hkp]. apply list_elem_of_omap in Hkp as (s & _ & Hs).
    unfold endpoint_of in Hs.
    destruct (slice_to_service _ _ !! _) as [svc|]; [|done]. cbn in Hs.
    destruct (_ && _); [done|]. case_bool_decide; [done|].
    destruct (_ !! mkPodNameKey _ _ _) as [q|] eqn:Eq; [|done]. cbn in Hs. injection Hs as _ <-.
    rewrite lookup_fmap in Eq. destruct (_ !! mkPodNameKey _ _ _) as [[u w]|] eqn:Ew; [|done].
    injection Eq as <-. apply list_elem_of_fmap. exists (u, w). split; [done|].
    apply list_elem_of_fmap. eexists (_, (u, w)). split; [done|]. by apply elem_of_map_to_list.
Qed.

(** ** Closed graphs *)

(** A node of the built graph: a pod of the topology, or a node of the result. *)
Definition graph_node (t : Topology) (out : ServiceGraphResult) (id : string) : Prop :=
  id ∈ map pod_ID (Pods t) ∨ id ∈ map ext_ID (sg_ExternalNodes out) ∨
  id ∈ map pod_ID (sg_SynthPods out) ∨ id ∈ map svc_ID (sg_ServiceNodes out).

Section read.
Context `{EdgeUUID, URLHost, MetricFingerprint} {E : Type}.

(** A successful read is one parse over one resolver. *)
Lemma ReadServiceGraph_parse (total failed duration : result E (list Sample)) ctxDone end_ t resolver answered fl out :
  ReadServiceGraph total failed duration ctxDone end_ t resolver answered fl = Ok out →
  ∃ vec red rts, out = parseWithResolver (newSGResolver t rts fl) vec red.
Proof.
  unfold ReadServiceGraph. destruct total as [vec|]; [|done].
  destruct (optionalQueryFatal _ failed); [done|]. destruct (optionalQueryFatal _ duration); [done|].
  destruct (optional_vec failed) as [fv fe], (optional_vec duration) as [dv de].
  intros [= <-]. by eexists _, _, _.
Qed.

Lemma out_graph_node t rts fl out id :
  out_node (newSGResolver t rts fl) out id → graph_node t out id.
Proof.
  unfold out_node, graph_node. rewrite newSGResolver_pods, !list_elem_of_fmap. naive_solver.
Qed.

(** Every edge of a read, and the ends its type promises. *)
Lemma read_edges (total failed duration : result E (list Sample)) ctxDone end_ t resolver answered fl out e :
  pods_in t →
  ReadServiceGraph total failed duration ctxDone end_ t resolver answered fl = Ok out → e ∈ sg_Edges out →
  graph_node t out (Source e) ∧ graph_node t out (Target e) ∧
  (edge_Type e = EdgeTypePodCallsService → out_service out (Target e)) ∧
  (edge_Type e = EdgeTypeServiceSelectsPod → out_service out (Source e) ∧ Target e ∈ map pod_ID (Pods t)) ∧
  (fl = true → ∃ id, (id = Source e ∨ id = Target e) ∧ (id ∈ map pod_ID (Pods t) ∨ out_service out id)).
Proof.
  intros Ht (vec & red & rts & ->)%ReadServiceGraph_parse He.
  pose proof (newSGResolver_ok t rts fl Ht) as Hok.
  destruct (parseWithResolver_out _ Hok vec red) as (ps & es & Hinv & Heq & Hes). rewrite Heq in *.
  cbn [out_of sg_Edges] in He.
  destruct Hes as [->|(rj & fo & du & ->)]; [by apply not_elem_of_nil in He|].
  pose proof (out_node_in (newSGResolver t rts fl) ps (emit_edges ps rj fo du)) as Hnode.
  pose proof (out_service_in (newSGResolver t rts fl) ps (emit_edges ps rj fo du)) as Hsvc.
  destruct (emit_closed _ ps rj fo du e Hinv He) as (Hs & Htg & Hcall & Hsel & Htouch).
  split_and!.
  - eapply out_graph_node. by apply Hnode.
  - eapply out_graph_node. by apply Hnode.
  - intros Hty. by apply Hsvc, Hcall.
  - intros Hty. destruct (Hsel Hty) as [H1' H2']. split; [by apply Hsvc|].
    by apply newSGResolver_pods in H2'.
  - intros ->.
    assert (∀ id, loaded_in (newSGResolver t rts true) (ps_res ps) id →
      id ∈ map pod_ID (Pods t) ∨ out_service (out_of ps (emit_edges ps rj fo du)) id) as Hl.
    { intros id [Hl|Hl]; [left; by apply newSGResolver_pods in Hl|right; by apply Hsvc]. }
    destruct (Htouch eq_refl) as [Hx|Hx]; eexists; (split; [|by apply Hl]); auto.
Qed.

Lemma read_no_synth (total failed duration : result E (list Sample)) ctxDone end_ t resolver answered out :
  pods_in t → ReadServiceGraph total failed duration ctxDone end_ t resolver answered true = Ok out →
  sg_SynthPods out = [].
Proof.
  intros Ht (vec & red & rts & ->)%ReadServiceGraph_parse.
  pose proof (newSGResolver_ok t rts true Ht) as Hok.
  destruct (parseWithResolver_out _ Hok vec red) as (ps & es & Hinv & -> & _).
  destruct (pi_filtered _ ps Hinv eq_refl) as (Hsy & _ & _).
  cbn [out_of sg_SynthPods]. by rewrite Hsy, map_to_list_empty.
Qed.

(** The service graph of a parsed topology is closed: both ends of every
    edge are pods of the topology or nodes of the result, a pod-calls-service
    edge targets a service of the result, and a service-selects-pod edge goes
    from one to a pod of the topology. *)
Theorem service_graph_closed v keys win (total failed duration : result E (list Sample)) ctxDone end_
  resolver answered fl out e :
  let t := parseTopology v keys win in
  ReadServiceGraph total failed duration ctxDone end_ t resolver answered fl = Ok out → e ∈ sg_Edges out →
  graph_node t out (Source e) ∧ graph_node t out (Target e) ∧
  (edge_Type e = EdgeTypePodCallsService → out_service out (Target e)) ∧
  (edge_Type e = EdgeTypeServiceSelectsPod → out_service out (Source e) ∧ Target e ∈ map pod_ID (Pods t)).
Proof.
  intros t Hr He. pose proof (parseTopology_pods_in v keys win) as Ht.
  by destruct (read_edges _ _ _ _ _ _ _ _ _ _ e Ht Hr He) as (? & ? & ? & ? & _).
Qed.

(** A filtered build synthesises no pod and emits only what touches the
    loaded topology: an end of every edge is a pod of the topology or a service
    resolved out of its index. *)
Theorem filtered_admission v keys win (total failed duration : result E (list Sample)) ctxDone end_
  resolver answered out :
  let t := parseTopology v keys win in
  ReadServiceGraph total failed duration ctxDone end_ t resolver answered true = Ok out →
  sg_SynthPods out = [] ∧
  ∀ e, e ∈ sg_Edges out →
    ∃ id, (id = Source e ∨ id = Target e) ∧ (id ∈ map pod_ID (Pods t) ∨ out_service out id).
Proof.
  intros t Hr. pose proof (parseTopology_pods_in v keys win) as Ht. split; [by eapply read_no_synth|].
  intros e He. destruct (read_edges _ _ _ _ _ _ _ _ _ _ e Ht Hr He) as (_ & _ & _ & _ & Hf). by apply Hf.
Qed.

(** ** Markers *)

(** C31: The marker lookup derives the node the unknown-server ladder resolves
    to, whatever was materialised before: the same node, which the ladder's
    answer ends in, preceded by one node at most (the code puts the ingress hop of a
    chained route there); and it answers nothing exactly when the ladder drops the
    endpoint. *)
Theorem via_matches_ladder v keys win rts fl pod peer st :
  let r := newSGResolver (parseTopology v keys win) rts fl in
  let ids := (resolveUnknownServerPeer r (Some pod) peer st).1 in
  last ids = viaNodeID r pod peer ∧ (length ids ≤ 2)%nat.
Proof.
  intros r ids. unfold ids.
  destruct (resolveUnknownServerPeer_runs r (newSGResolver_ok _ _ _ (parseTopology_pods_in v keys win))
    (Some pod) peer) as (w & es & Hm & _ & Hl & Hlast).
  rewrite Hm. by split.
Qed.

End read.

(** ** A concrete estate: a pod behind a service, called three ways. *)

Definition sg_vectors : topologyVectors :=
  let base := sample_topology_vectors in
  mkTopologyVectors (v_Pod base) [] [] [] []
    [sample_row [("cluster", "c1"); ("namespace", "shop"); ("service", "cart"); ("cluster_ip", "10.96.0.9")]]
    [sample_row [("cluster", "c1"); ("namespace", "shop"); ("endpointslice", "cart-x");
                 ("targetref_kind", "Pod"); ("targetref_name", "db-0")]]
    [sample_row [("cluster", "c1"); ("namespace", "shop"); ("endpointslice", "cart-x");
                 ("label_kubernetes_io_service_name", "cart")]]
    [] [] [] [] [] [] [] [] [] [] [] [] [] [] None None
    false None false false [] [] [] [] [] [] [] [] [] [] [] [] [] [] [] [] [] [] [] [] [] [] [] []
    [] [] [].

Definition sg_series : list Sample := [
  sample_row [("client", "db"); ("client_k8s_pod_uid", "u1"); ("server", "unknown");
              ("client_server_address", "cart.shop.svc:8080"); ("cluster", "c1")];
  sample_row [("client", "a"); ("server", "b"); ("cluster", "c1")];
  sample_row [("client", "db"); ("client_k8s_pod_uid", "u1"); ("server", "redis://cart.shop"); ("cluster", "c1")]
].

#[local] Existing Instance name_uuid.
#[local] Existing Instance no_fingerprint.
Definition sample_host : URLHost := λ label, Some (if bool_decide (label = "redis://cart.shop") then "cart.shop" else "").
#[local] Existing Instance sample_host.

Definition sg_read (fl : bool) : result string ServiceGraphResult :=
  ReadServiceGraph (Ok sg_series) (Ok []) (Err "timeout") false 0
    (parseTopology sg_vectors DefaultLabelKeys (mkAlertWindow 0 0)) None (λ _, true) fl.

Definition sg_summary (out : ServiceGraphResult) : list string * list string * list string :=
  (map (λ e, edge_name (edge_Type e) (Source e) (Target e)) (sg_Edges out),
   map svc_ID (sg_ServiceNodes out), map ext_ID (sg_ExternalNodes out)).

Lemma sg_read_plain : match sg_read false with
  | Ok out => sg_summary out = (["pod-calls-service|c1/u1|c1/shop/cart"; "pod-calls-pod|external/a|external/b";
                                 "service-selects-pod|c1/shop/cart|c1/u1"],
                                ["c1/shop/cart"], ["external/a"; "external/b"])
  | Err _ => False
  end.
Proof. by vm_compute. Qed.

Lemma sg_read_filtered : match sg_read true with
  | Ok out => sg_summary out = (["pod-calls-service|c1/u1|c1/shop/cart"; "service-selects-pod|c1/shop/cart|c1/u1"],
                                ["c1/shop/cart"], [])
  | Err _ => False
  end.
Proof. by vm_compute. Qed.

Lemma service_graph_closed_witness :
  ∃ out, sg_read false = Ok out ∧ length (sg_Edges out) = 3 ∧
    ∀ e, e ∈ sg_Edges out →
      graph_node (parseTopology sg_vectors DefaultLabelKeys (mkAlertWindow 0 0)) out (Target e).
Proof.
  pose proof sg_read_plain as Hr. destruct (sg_read false) as [out|] eqn:E; [|done].
  exists out. split; [done|]. split.
  - apply (f_equal (λ x, length x.1.1)) in Hr. unfold sg_summary in Hr. cbn [fst] in Hr. by rewrite length_map in Hr.
  - intros e He.
    by destruct (service_graph_closed sg_vectors DefaultLabelKeys (mkAlertWindow 0 0) _ _ _ _ _ _ _ _ out e E He)
      as (_ & ? & _).
Defined.

Lemma filtered_admission_witness :
  ∃ out, sg_read true = Ok out ∧ length (sg_Edges out) = 2 ∧ sg_SynthPods out = [] ∧
    ∀ e, e ∈ sg_Edges out → ∃ id, (id = Source e ∨ id = Target e) ∧
      (id ∈ map pod_ID (Pods (parseTopology sg_vectors DefaultLabelKeys (mkAlertWindow 0 0))) ∨ out_service out id).
Proof.
  pose proof sg_read_filtered as Hr. destruct (sg_read true) as [out|] eqn:E; [|done].
  exists out. split; [done|]. split.
  - apply (f_equal (λ x, length x.1.1)) in Hr. unfold sg_summary in Hr. cbn [fst] in Hr. by rewrite length_map in Hr.
  - apply (filtered_admission sg_vectors DefaultLabelKeys (mkAlertWindow 0 0) _ _ _ _ _ _ _ out E).
Defined.
