(* ===== verification/RoutePrescanProps.v ===== *)
(** The prescan asks every question the parse consults (pkg/build/routeprescan.go
    against servicegraph.go): the parse is a function of the route index at the
    collected keys alone. *)

From S2P Require Import Prelude GoStrings NetAddr Keyed Float64 GraphNode GraphEdge Selector.
From S2P Require Import PairScope Fanout Strconv.
From S2P Require Import RedMetrics BuildIdentity TopologyTypes NetApp NetAppProps Topology.
From S2P Require Import PeerAddress.
From S2P Require Import ServiceGraph.
From S2P Require Import ServiceGraphEffects ServiceGraphParse.
From S2P Require Import ServiceGraphProps RoutePrescan ServiceGraphTheorems.

#[local] Open Scope bool_scope.

(** ** An address is no service name *)

(** The dots of a text; a split has one part more. *)
Fixpoint dots (s : string) : nat :=
  match s with
  | "" => 0
  | String c s' => (if Ascii.eqb c "." then 1 else 0) + dots s'
  end.

Lemma length_split_dots s : length (split "." s) = S (dots s).
Proof.
  induction s as [|c s IH]; [done|]. cbn [split dots]. destruct (Ascii.eqb c "."); cbn; [by rewrite IH|].
  destruct (split "." s); cbn in *; lia.
Qed.

Lemma dots_app s t : dots (s +:+ t) = dots s + dots t.
Proof. induction s as [|c s IH]; [done|]. cbn. rewrite IH. lia. Qed.

(** The bytes an address is spelt with: no ["s"]. *)
Definition ip_text (s : string) : Prop := contains_byte "s" s = false ∧ (dots s = 0 ∨ dots s = 3).

Lemma hex_of_no c d : hex_of c = Some d → Ascii.eqb c "s" = false ∧ Ascii.eqb c "." = false.
Proof. by destruct c as [[] [] [] [] [] [] [] []]. Qed.

Lemma digit_of_no c d : digit_of c = Some d → Ascii.eqb c "s" = false.
Proof. by destruct c as [[] [] [] [] [] [] [] []]. Qed.

Lemma decimal_no s : ∀ acc v, decimal acc s = Some v → contains_byte "s" s = false.
Proof.
  induction s as [|c s IH]; intros acc v; [done|]. cbn. destruct (digit_of c) as [d|] eqn:Ed; [|done].
  intros Hd. by rewrite (digit_of_no c d Ed), (IH _ _ Hd).
Qed.

Lemma octet_no s v : octet s = Some v → contains_byte "s" s = false.
Proof.
  unfold octet. destruct s as [|c s]; [done|]. destruct (_ && _); [done|].
  destruct (decimal 0 _) eqn:Ed; [|done]. intros _. by eapply decimal_no.
Qed.

Lemma dotted_quad_no s q : dotted_quad s = Some q → contains_byte "s" s = false ∧ dots s = 3.
Proof.
  unfold dotted_quad. pose proof (length_split_dots s) as Hlen. pose proof (join_split "." s) as Hj.
  destruct (split "." s) as [|a [|b [|c [|d [|]]]]]; try done. cbn in Hlen. intros Hq.
  destruct (octet a) eqn:Ea; [|done]. destruct (octet b) eqn:Eb; [|done].
  destruct (octet c) eqn:Ec; [|done]. destruct (octet d) eqn:Ed; [|done].
  split; [|lia]. rewrite <- Hj. rewrite !join_cons2, !contains_byte_app.
  rewrite (octet_no _ _ Ea), (octet_no _ _ Eb), (octet_no _ _ Ec). cbn. by rewrite (octet_no _ _ Ed).
Qed.

Lemma hex_group_split s : ∀ k acc v rest, hex_group k acc s = Some (v, rest) →
  ∃ pre, s = pre +:+ rest ∧ contains_byte "s" pre = false ∧ dots pre = 0.
Proof.
  induction s as [|c s IH]; intros k acc v rest; cbn [hex_group].
  - intros [= _ <-]. by exists "".
  - destruct (hex_of c) as [d|] eqn:Ed; [|intros [= _ <-]; by exists ""].
    destruct k as [|k]; [done|]. intros (pre & -> & Hs & Hd)%IH.
    exists (String c pre). destruct (hex_of_no c d Ed) as [H1 H2]. cbn. by rewrite H1, H2, Hs, Hd.
Qed.

Lemma groups6_text room : ∀ s gs ell res, groups6 room s gs ell = Some res → ip_text s.
Proof.
  induction room as [|room IH]; intros s gs ell res; [by destruct s|].
  destruct s as [|c s]; [done|]. cbn [groups6]. destruct (hex_of c); [|done].
  destruct (hex_group 4 0 (String c s)) as [[v rest]|] eqn:Eg; [|done].
  destruct (hex_group_split _ _ _ _ _ Eg) as (pre & Hs & Hn & Hd).
  assert (∀ t, ip_text t → ip_text (pre +:+ ":" +:+ t)) as Hcolon.
  { intros t [Ht Hdt]. unfold ip_text. rewrite !contains_byte_app, !dots_app, Hn, Hd. cbn. by rewrite Ht. }
  destruct rest as [|sep rest].
  - intros _. rewrite Hs, append_nil_r. split; [done|by left].
  - destruct (Ascii.eqb sep ".").
    + destruct (_ || _); [done|]. destruct (dotted_quad _) as [[hi lo]|] eqn:Eq; [|done].
      intros _. apply dotted_quad_no in Eq as [? ?]. split; [done|by right].
    + destruct (Ascii.eqb sep ":") eqn:Esep; [|done]. apply Ascii.eqb_eq in Esep as ->.
      destruct rest as [|c1 rest1]; [done|]. rewrite Hs.
      destruct (Ascii.eqb c1 ":") eqn:Ec1.
      * apply Ascii.eqb_eq in Ec1 as ->. destruct ell; [done|].
        assert (ip_text rest1 → ip_text (pre +:+ String ":" (String ":" rest1))) as Hcc.
        { intros [Ht Hdt]. apply (Hcolon (String ":" rest1)). split; [exact Ht|exact Hdt]. }
        case_bool_decide as Hr; [intros _; subst rest1; apply Hcc; split; [done|by left]|].
        intros Hg. apply Hcc. by eapply IH.
      * intros Hg. apply (Hcolon (String c1 rest1)). by eapply IH.
Qed.

Lemma ParseIP_text s ip : ParseIP s = Some ip → ip_text s.
Proof.
  unfold ParseIP. destruct (contains_byte "%" s); [done|].
  assert (∀ f : Z * Z → IP, f <$> dotted_quad s = Some ip → ip_text s) as H4.
  { intros f. destruct (dotted_quad s) as [q|] eqn:E; [|done]. intros _.
    apply dotted_quad_no in E as [? ?]. split; [done|by right]. }
  assert (parse6 s = Some ip → ip_text s) as H6.
  { unfold parse6. destruct s as [|a [|b rest]]; [done..|]. destruct (_ && _) eqn:Eab.
    - apply andb_true_iff in Eab as [Ha%Ascii.eqb_eq Hb%Ascii.eqb_eq]. subst a b.
      case_bool_decide as Hr; [subst rest; intros _; split; [done|by left]|].
      destruct (groups6 8 rest [] (Some 0)) as [res|] eqn:E; [|done]. intros _.
      apply groups6_text in E as [Ht Hd]. split; [exact Ht|exact Hd].
    - destruct (groups6 8 _ [] None) as [res|] eqn:E; [|done]. intros _. by apply groups6_text in E. }
  destruct (first_sep s) as [c|]; [|done].
  destruct c as [[] [] [] [] [] [] [] []]; done || exact (H4 _) || exact H6.
Qed.

Lemma before_last_contains sub s x c :
  contains_byte c sub = true → before_last sub s = Some x → contains_byte c s = true.
Proof.
  intros Hc. revert x. induction s as [|a s IH]; intros x; [done|]. cbn [before_last].
  destruct (before_last sub s) as [y|] eqn:E.
  - intros _. cbn. rewrite (IH y eq_refl). by rewrite orb_true_r.
  - unfold has_prefix. destruct (String.prefix sub (String a s)) eqn:Ep; [|done]. intros _.
    apply String.prefix_correct in Ep. clear IH E. revert Ep. generalize (String a s). intros t.
    revert sub Hc. induction t as [|b t IHt]; intros sub Hc Ep.
    + destruct sub as [|d sub]; [done|]. done.
    + destruct sub as [|d sub]; [done|]. cbn in Ep. injection Ep as <- Ep. cbn in *.
      apply orb_true_iff in Hc as [Hc|Hc]; [by rewrite Hc|]. rewrite (IHt sub Hc Ep). by rewrite orb_true_r.
Qed.

(** No address is classified by its name. *)
Lemma ip_not_dns host ip : ParseIP host = Some ip → classifyK8sDNS host = None ∧ classifyBareShortName host = None.
Proof.
  intros Hip. destruct (ParseIP_text _ _ Hip) as [Hs Hd]. split.
  - unfold classifyK8sDNS, service_relative.
    assert (cut_suffix ".svc" host = None) as ->.
    { destruct (cut_suffix ".svc" host) as [x|] eqn:E; [|done]. apply cut_suffix_spec in E.
      rewrite E, contains_byte_app in Hs. by rewrite orb_true_r in Hs. }
    assert (before_last ".svc." host = None) as ->.
    { destruct (before_last ".svc." host) as [x|] eqn:E; [|done].
      by rewrite (before_last_contains ".svc." host x "s" eq_refl E) in Hs. }
    cbn [default from_option]. change (default host None) with host. pose proof (length_split_dots host) as Hl.
    destruct (split "." host) as [|a [|b [|c [|]]]]; try done; cbn in Hl; lia.
  - unfold classifyBareShortName. rewrite Hip. by destruct (_ || _).
Qed.

(** ** The index the parse reads *)

(** The resolver over an index. *)
Definition with_routes (r : sgIndex) (idx : routeIndex) : sgIndex :=
  mkSgIndex (endpointsByService r) (podByID r) (podByUID r) (svcCandidates r) (ipIndex r)
    (podIPCandidates r) (serviceApps r) (sg_clusters r) (Some idx) (filtered r).

Section agree.
Context `{EdgeUUID, URLHost} (r : sgIndex) (Hok : index_ok r).
(** Pod ids are unique, and a ClusterIP names a service of its own cluster. *)
Context (Huid : ∀ u p, podByUID r !! u = Some p → podByID r !! pod_ID p = Some p).
Context (Hip : ∀ cl ip sk, ipIndex r !! mkIpKey cl ip = Some sk →
           anchorHolds r cl (sk_namespace sk) (sk_service sk) = true).
Context (idx1 idx2 : routeIndex).
Abbreviation r1 := (with_routes r idx1).
Abbreviation r2 := (with_routes r idx2).

(** The two indexes answer alike for a key the parse may look up. *)
Definition key_agrees (k : routeKey) : Prop := key_ips k = "" ∨ idx1 !! k = idx2 !! k.
(** ... and for the key a pod's peer poses. *)
Definition peer_agrees (pod : PodNode) (peer : peerLabels) : Prop :=
  ∀ k, viaRouteKey r pod peer = Some k → idx1 !! k = idx2 !! k.

Lemma index_ok_routes idx : index_ok (with_routes r idx).
Proof. destruct Hok. by split. Qed.

Lemma routeIndexResolve_agree k : key_agrees k → routeIndexResolve r1 k = routeIndexResolve r2 k.
Proof.
  intros Hk. unfold routeIndexResolve. cbn [routes with_routes]. case_bool_decide; [done|].
  destruct Hk as [?|Hk]; [done|]. rewrite Hk. done.
Qed.

Lemma routeNodeID_agree k raw : key_agrees k → routeNodeID r1 k raw = routeNodeID r2 k raw.
Proof.
  intros Hk. unfold routeNodeID. cbn [routes with_routes]. case_bool_decide; [done|].
  destruct Hk as [?|Hk]; [done|]. by rewrite Hk.
Qed.

(** A peer whose endpoint falls to the index poses its key, unless it carries no
    address to ask about. *)
Lemma falls_to_index pod peer :
  let anchor := lget (pod_Labels pod) "cluster" in
  let host := (peer_host (peer_value peer)).1 in
  peer_agrees pod peer → peer_value peer ≠ "" →
  match classifyPeerHost r host (lget (pod_Labels pod) "namespace") anchor with
  | Some (ns, svc) => anchorHolds r anchor ns svc = false
  | None => (lookupPeerPodIP r anchor host).1 = None
  end → key_agrees (key_of anchor peer).
Proof.
  intros anchor host Hag Hv Hfall. unfold key_agrees, key_of.
  destruct (peerRouteKey anchor peer) as [k|] eqn:Ek; [|by left]. cbn [default from_option].
  change (default _ (Some k)) with k.
  destruct (decide (key_ips k = "")) as [?|Hips]; [by left|right]. apply Hag. unfold viaRouteKey.
  fold anchor. rewrite Ek.
  assert (key_host k = host) as Hh.
  { unfold peerRouteKey in Ek. rewrite bool_decide_eq_false_2 in Ek by done. unfold host.
    destruct (peer_host (peer_value peer)) as [h p]. by injection Ek as <-. }
  rewrite Hh.
  assert ((lookupPeerPodIP r anchor host).1 = None ∧
    (match classifyPeerHost r host (lget (pod_Labels pod) "namespace") anchor with
     | Some (ns, svc) => anchorHolds r anchor ns svc | None => false end) = false) as [-> ->].
  { destruct (classifyPeerHost r host _ anchor) as [[ns svc]|] eqn:Ec; [|done]. split; [|done].
    unfold lookupPeerPodIP. destruct (ParseIP host) as [ip|] eqn:Eip; [|done]. exfalso.
    destruct (ip_not_dns host ip Eip) as [Hd Hb]. unfold classifyPeerHost in Ec. rewrite Hd, Hb, Eip in Ec.
    destruct (ipIndex r !! _) as [sk|] eqn:Esk; [|done]. cbn in Ec. injection Ec as <- <-.
    apply Hip in Esk. unfold anchor in *. congruence. }
  by rewrite bool_decide_eq_false_2.
Qed.

Lemma viaNodeID_agree pod peer : peer_agrees pod peer → viaNodeID r1 pod peer = viaNodeID r2 pod peer.
Proof.
  intros Hag. pose proof (falls_to_index pod peer Hag) as Hf. unfold viaNodeID. case_bool_decide as Hv; [done|].
  specialize (Hf Hv). revert Hf. set (anchor := lget (pod_Labels pod) "cluster"). set (host := (peer_host _).1).
  change (classifyPeerHost r1) with (classifyPeerHost r). change (classifyPeerHost r2) with (classifyPeerHost r).
  change (lookupPeerPodIP r1) with (lookupPeerPodIP r). change (lookupPeerPodIP r2) with (lookupPeerPodIP r).
  change (anchorHolds r1) with (anchorHolds r). change (anchorHolds r2) with (anchorHolds r).
  destruct (classifyPeerHost r host _ anchor) as [[ns svc]|].
  - destruct (anchorHolds r anchor ns svc); [done|]. intros Hk. by rewrite routeNodeID_agree by auto.
  - destruct (lookupPeerPodIP r anchor host) as [[p|] amb]; [done|]. intros Hk.
    by rewrite routeNodeID_agree by auto.
Qed.

Lemma routeExternal_agree k value reason st : key_agrees k →
  routeExternal r1 k value reason st = routeExternal r2 k value reason st.
Proof. intros Hk. unfold routeExternal. by rewrite routeIndexResolve_agree. Qed.

Lemma resolveUnknownServerPeer_agree pod peer st :
  (∀ p, pod = Some p → peer_agrees p peer) →
  resolveUnknownServerPeer r1 pod peer st = resolveUnknownServerPeer r2 pod peer st.
Proof.
  intros Hag. unfold resolveUnknownServerPeer. destruct pod as [pod|]; [|done].
  pose proof (falls_to_index pod peer (Hag pod eq_refl)) as Hf. case_bool_decide as Hv; [done|].
  specialize (Hf Hv). revert Hf. set (anchor := lget (pod_Labels pod) "cluster"). set (host := (peer_host _).1).
  change (classifyPeerHost r1) with (classifyPeerHost r). change (classifyPeerHost r2) with (classifyPeerHost r).
  change (lookupPeerPodIP r1) with (lookupPeerPodIP r). change (lookupPeerPodIP r2) with (lookupPeerPodIP r).
  destruct (classifyPeerHost r host _ anchor) as [[ns svc]|].
  - change (resolveServiceLevel r1) with (resolveServiceLevel r).
    change (resolveServiceLevel r2) with (resolveServiceLevel r).
    intros Hk. destruct (resolveServiceLevel_runs r anchor ns svc) as (v & es & Hm & -> & _).
    unfold mbind, SG_bind. rewrite Hm. unfold service_ids.
    destruct (anchorHolds r anchor ns svc); [done|]. apply routeExternal_agree. auto.
  - destruct (ParseIP host) as [ip|] eqn:Eip.
    + destruct (lookupPeerPodIP r anchor host) as [[p|] amb]; [done|]. intros Hk.
      destruct amb; apply routeExternal_agree; auto.
    + unfold lookupPeerPodIP. rewrite Eip. intros Hk. apply routeExternal_agree; auto.
Qed.

(** ** One series *)

(** The indexes answer alike for the keys a series is collected under. *)
Definition sample_agrees (s : Sample) : Prop := ∀ k, k ∈ sample_keys r s → idx1 !! k = idx2 !! k.

Definition relevant (s : Sample) : Prop := (negb (fgtb (s_Value s) f_zero) || wholly_empty (s_Metric s)) = false.

Lemma unknown_agrees s : relevant s → sample_agrees s →
  label_of (s_Metric s) "server" = sentinelUnknown →
  ((series_uids (s_Metric s)).2 = "" ∨ podByUID r !! (series_uids (s_Metric s)).2 = None) →
  ∀ p, lookupClientPod r (identify (sg_clusters r) (s_Metric s)) (series_uids (s_Metric s)).1 = Some p →
    peer_agrees p (peerLabelsOf (s_Metric s)).
Proof.
  intros Hrel Hs Hl Huk p Hp k Hk. apply Hs. unfold sample_keys. unfold relevant in Hrel. rewrite Hrel.
  destruct (series_uids (s_Metric s)) as [cu su]. cbn [fst snd] in *. apply elem_of_app. right.
  unfold unknown_keys. rewrite bool_decide_eq_true_2 by done. cbn [negb].
  assert (negb (bool_decide (su = "")) && bool_decide (is_Some (podByUID r !! su)) = false) as ->.
  { destruct Huk as [-> | ->]; [done|]. by rewrite andb_false_r. }
  rewrite Hp, Hk. left.
Qed.

Lemma link_agrees s : relevant s → sample_agrees s →
  label_of (s_Metric s) "edge_relation" = relationLink → no_consumer r (s_Metric s) = false →
  (∀ p, lookupClientPod r (identify (sg_clusters r) (s_Metric s)) (series_uids (s_Metric s)).1 = Some p →
     peer_agrees p (peerLabelsOf (s_Metric s))) ∧
  (∀ p, (series_uids (s_Metric s)).2 ≠ "" → podByUID r !! (series_uids (s_Metric s)).2 = Some p →
     peer_agrees p (serverPeerLabelsOf (s_Metric s))).
Proof.
  intros Hrel Hs Hl Hn. unfold no_consumer in Hn.
  assert (∀ k, k ∈ link_keys r (s_Metric s) (identify (sg_clusters r) (s_Metric s))
    (series_uids (s_Metric s)).1 (series_uids (s_Metric s)).2 → idx1 !! k = idx2 !! k) as Hk.
  { intros k Hk. apply Hs. unfold sample_keys, relevant in *. rewrite Hrel.
    destruct (series_uids (s_Metric s)) as [cu su]. cbn [fst snd] in *. apply elem_of_app. by left. }
  destruct (series_uids (s_Metric s)) as [cu su]. cbn [fst snd] in *. unfold link_keys in Hk.
  rewrite bool_decide_eq_true_2 in Hk by done.
  assert (negb (bool_decide (label_of (s_Metric s) "server" = sentinelUnknown)) ||
    bool_decide (is_Some (if bool_decide (su = "") then None else podByUID r !! su)) = true) as Hcond.
  { destruct (bool_decide (label_of (s_Metric s) "server" = sentinelUnknown)); [|done]. cbn in *.
    apply orb_false_iff in Hn as [Hsu Hpod]. rewrite Hsu. apply bool_decide_eq_false in Hpod.
    apply bool_decide_eq_true. destruct (podByUID r !! su); [by eexists|done]. }
  rewrite Hcond in Hk. cbn [andb] in Hk. split.
  - intros p Hp k Hv. apply Hk. apply list_elem_of_omap. exists (Some k). split; [|done].
    rewrite Hp. cbn. rewrite Hv. left.
  - intros p Hsu Hp k Hv. apply Hk. apply list_elem_of_omap. exists (Some k). split; [|done].
    rewrite bool_decide_eq_false_2, Hp by done. cbn. rewrite Hv. right; left.
Qed.

(** The client pod of a resolved series is the one the lookup finds. *)
Lemma client_pod_lookup ids b cl uid :
  match lookupClientPod r cl uid with
  | Some pod => (ids, b) = ([pod_ID pod], true)
  | None => b = false ∨ (ids, b) = ([PodID cl uid], true) ∧ filtered r = false ∧ uid ≠ ""
  end → client_pod r ids b = lookupClientPod r cl uid.
Proof.
  destruct (lookupClientPod r cl uid) as [pod|] eqn:El.
  - intros [= -> ->]. cbn. unfold lookupClientPod in El. case_bool_decide; [done|].
    destruct (podByID r !! PodID cl uid) as [q|] eqn:E; [|by eapply Huid].
    injection El as <-. by rewrite (io_podByID r Hok _ _ E).
  - intros [-> | ([= -> ->] & _ & Hu)].
    + unfold client_pod. by destruct ids as [|? []].
    + cbn. unfold lookupClientPod in El. rewrite bool_decide_eq_false_2 in El by done.
      by destruct (podByID r !! PodID cl uid).
Qed.

Lemma resolve_series_agree s st : relevant s → sample_agrees s →
  resolve_series r1 (s_Metric s) st = resolve_series r2 (s_Metric s) st ∧
  rs_client (resolve_series r2 (s_Metric s) st).1 =
    lookupClientPod r (identify (sg_clusters r) (s_Metric s)) (series_uids (s_Metric s)).1.
Proof.
  intros Hrel Hs. pose proof (unknown_agrees s Hrel Hs) as Hu. unfold resolve_series.
  destruct (series_uids (s_Metric s)) as [cu su]. cbn [fst snd] in *.
  change (sg_clusters r1) with (sg_clusters r). change (sg_clusters r2) with (sg_clusters r).
  set (tc := identify (sg_clusters r) (s_Metric s)) in *.
  change (resolveClient r1) with (resolveClient r). change (resolveClient r2) with (resolveClient r).
  destruct (resolveClient_runs r Hok (label_of (s_Metric s) "client") tc cu
    (label_of (s_Metric s) "client_k8s_namespace_name")) as ([ids b] & es & Hm & _ & Hc).
  apply client_pod_lookup in Hc.
  unfold mbind, SG_bind. rewrite Hm. cbn beta iota zeta.
  change (client_pod r1) with (client_pod r). change (client_pod r2) with (client_pod r). rewrite Hc.
  set (st1 := fold_left _ es st).
  assert (∀ cl ns pod, pod = lookupClientPod r tc cu →
    resolveServer r1 (label_of (s_Metric s) "server") cl su ns pod (peerLabelsOf (s_Metric s)) st1 =
    resolveServer r2 (label_of (s_Metric s) "server") cl su ns pod (peerLabelsOf (s_Metric s)) st1) as Hserver.
  { intros cl ns pod ->. unfold resolveServer.
    change (podByUID r1) with (podByUID r). change (podByUID r2) with (podByUID r).
    case_bool_decide as Hsu.
    - case_bool_decide as Hlab; [|done]. apply resolveUnknownServerPeer_agree. intros p Hp.
      apply Hu; auto.
    - destruct (podByUID r !! su) as [q|] eqn:Eq; [done|]. case_bool_decide as Hlab; [|done].
      apply resolveUnknownServerPeer_agree. intros p Hp. apply Hu; auto. }
  rewrite Hserver by done.
  destruct (resolveServer r2 _ _ _ _ _ _ st1) as [tg st2]. by split.
Qed.

Lemma series_step_agree ps s : sample_agrees s → series_step r1 ps s = series_step r2 ps s.
Proof.
  intros Hs. unfold series_step. destruct (_ || _) eqn:Hrel; [done|].
  destruct (resolve_series_agree s (ps_res ps) Hrel Hs) as [-> Hc].
  destruct (resolve_series r2 (s_Metric s) (ps_res ps)) as [rs st]. cbn [fst] in Hc.
  change (filtered r1) with (filtered r). change (filtered r2) with (filtered r).
  change (admitted r1) with (admitted r). change (admitted r2) with (admitted r).
  destruct (_ && _); [done|].
  change (red_step r1) with (red_step r). change (red_step r2) with (red_step r).
  change (no_consumer r1) with (no_consumer r). change (no_consumer r2) with (no_consumer r).
  destruct (bool_decide (label_of (s_Metric s) "edge_relation" = relationLink) && negb (no_consumer r (s_Metric s)))
    eqn:El; [|done].
  apply andb_true_iff in El as [El%bool_decide_eq_true En%negb_true_iff].
  destruct (link_agrees s Hrel Hs El En) as [Hcl Hsv].
  assert (via_pairs r1 (s_Metric s) rs = via_pairs r2 (s_Metric s) rs) as ->; [|done].
  unfold via_pairs. rewrite Hc.
  change (podByUID r1) with (podByUID r). change (podByUID r2) with (podByUID r).
  assert (∀ p, lookupClientPod r (identify (sg_clusters r) (s_Metric s)) (series_uids (s_Metric s)).1 = Some p →
    viaNodeID r1 p (peerLabelsOf (s_Metric s)) = viaNodeID r2 p (peerLabelsOf (s_Metric s))) as H1
    by (intros p Hp; by apply viaNodeID_agree, Hcl).
  assert (∀ p, (series_uids (s_Metric s)).2 ≠ "" → podByUID r !! (series_uids (s_Metric s)).2 = Some p →
    viaNodeID r1 p (serverPeerLabelsOf (s_Metric s)) = viaNodeID r2 p (serverPeerLabelsOf (s_Metric s))) as H2
    by (intros p Hsu Hp; by apply viaNodeID_agree, Hsv).
  destruct (lookupClientPod r _ _) as [p|]; cbn [mbind option_bind]; rewrite ?(H1 p) by done;
    (case_bool_decide as Hsu; [done|]);
    destruct (podByUID r !! _) as [q|]; cbn [mbind option_bind]; rewrite ?(H2 q) by done; done.
Qed.

Lemma parse_series_agree vec jf jd : (∀ s, s ∈ vec → sample_agrees s) →
  parse_series r1 vec jf jd = parse_series r2 vec jf jd.
Proof.
  unfold parse_series. generalize (mkParseState sg_empty ∅ (newRedJoin jf jd) ∅ ∅).
  induction vec as [|s vec IH]; intros ps Hs; [done|]. cbn [fold_left].
  rewrite series_step_agree by (apply Hs; left). apply IH. intros x Hx. apply Hs. by right.
Qed.

End agree.

(** ** The resolver of a topology *)

(** Equal keys of a list without duplicate keys are of one element. *)
Lemma NoDup_map_inj {A B} (f : A → B) (l : list A) x y :
  NoDup (map f l) → x ∈ l → y ∈ l → f x = f y → x = y.
Proof.
  induction l as [|z l IH]; [by intros _ ?%not_elem_of_nil|]. cbn. intros [Hz Hn]%NoDup_cons Hx Hy Hf.
  apply elem_of_cons in Hx as [->|Hx], Hy as [->|Hy]; [done| | |by apply IH].
  - exfalso. apply Hz, list_elem_of_fmap. by exists y.
  - exfalso. apply Hz, list_elem_of_fmap. exists x. by rewrite Hf.
Qed.

Lemma newSGResolver_uid t rts fl : pods_in t → NoDup (map pod_ID (Pods t)) →
  ∀ u p, podByUID (newSGResolver t rts fl) !! u = Some p →
    podByID (newSGResolver t rts fl) !! pod_ID p = Some p.
Proof.
  intros Ht Hn u p Hp. cbn [newSGResolver podByUID podByID] in *. rewrite podByID_lookup.
  apply (pin_uid t Ht) in Hp.
  destruct (last (filter _ (Pods t))) as [q|] eqn:E.
  - apply last_Some_elem_of, list_elem_of_filter in E as [[= Heq] Hq]. f_equal.
    by apply (NoDup_map_inj pod_ID (Pods t)).
  - apply last_None in E. exfalso. by eapply (filter_nil_not_elem_of _ _ p E).
Qed.

Lemma newSGResolver_cluster_ip t rts fl cl ip sk :
  ipIndex (newSGResolver t rts fl) !! mkIpKey cl ip = Some sk →
  anchorHolds (newSGResolver t rts fl) cl (sk_namespace sk) (sk_service sk) = true.
Proof.
  cbn [newSGResolver ipIndex]. unfold cluster_ip_index. intros Hsk.
  apply fold_keyed_origin in Hsk as ([k obs] & o & Hin & Hkey & Hup).
  assert (k = sk) as -> by (destruct o as [e|]; [destruct (svc_name_cmp _ _)|]; cbn in Hup; congruence).
  unfold cluster_ip_key in Hkey. cbn in Hkey. destruct (_ || _); [done|]. injection Hkey as Hcl _.
  unfold anchorHolds, candidates_of. cbn [newSGResolver svcCandidates]. unfold svc_candidates.
  apply existsb_exists. exists (mkSvcCandidate cl obs). split; [|by apply bool_decide_eq_true].
  apply list_elem_of_In. rewrite lookup_fmap.
  pose proof (lookup_append_by_default (λ ko : serviceKey * ServiceObs, Some (fam_svc_key ko.1))
    (λ ko, mkSvcCandidate (sk_cluster ko.1) ko.2) (map_to_list (ServicesByNameNS t))
    (mkFamSvcKey (ClusterFamilyKey cl) (sk_namespace sk) (sk_service sk))) as Hd.
  assert (mkSvcCandidate cl obs ∈ default [] (append_by (λ ko : serviceKey * ServiceObs, Some (fam_svc_key ko.1))
    (λ ko, mkSvcCandidate (sk_cluster ko.1) ko.2) (map_to_list (ServicesByNameNS t)) ∅ !!
    mkFamSvcKey (ClusterFamilyKey cl) (sk_namespace sk) (sk_service sk))) as Hc.
  { rewrite Hd. apply list_elem_of_fmap. exists (sk, obs). cbn. rewrite Hcl. split; [done|].
    apply list_elem_of_filter. split; [|done]. cbn. unfold fam_svc_key. by rewrite Hcl. }
  destruct (append_by _ _ _ ∅ !! _) as [l|]; [|by apply not_elem_of_nil in Hc]. cbn in *.
  by apply elem_of_sort_func.
Qed.

Lemma elem_of_collected r vec k : k ∈ collectRouteQueriesWith r vec ↔ ∃ s, s ∈ vec ∧ k ∈ sample_keys r s.
Proof.
  unfold collectRouteQueriesWith. rewrite elem_of_sort_func, elem_of_keep_first, list_elem_of_bind.
  set_solver.
Qed.

(** C32: The prescan asks every question the parse consults: two indexes that answer
    alike on the collected keys give the same graph, so nothing the engine could
    have said about a key that was not collected is missed. Pod ids are taken to
    be unique. *)
Theorem prescan_complete `{EdgeUUID, URLHost, MetricFingerprint} v keys win fl vec red idx1 idx2 :
  let t := parseTopology v keys win in
  NoDup (map pod_ID (Pods t)) →
  (∀ k, k ∈ collectRouteQueriesWith (newSGResolver t None fl) vec → idx1 !! k = idx2 !! k) →
  parseWithResolver (newSGResolver t (Some idx1) fl) vec red =
  parseWithResolver (newSGResolver t (Some idx2) fl) vec red.
Proof.
  intros t Hn Hk. pose proof (parseTopology_pods_in v keys win) as Ht. fold t in Ht.
  set (r := newSGResolver t None fl) in *.
  change (newSGResolver t (Some idx1) fl) with (with_routes r idx1).
  change (newSGResolver t (Some idx2) fl) with (with_routes r idx2).
  unfold parseWithResolver. case_bool_decide; [done|].
  rewrite (parse_series_agree r (newSGResolver_ok t None fl Ht) (newSGResolver_uid t None fl Ht Hn)
    (newSGResolver_cluster_ip t None fl) idx1 idx2); [done|].
  intros s Hs k Hks. apply Hk, elem_of_collected. by exists s.
Qed.

#[local] Existing Instance name_uuid.
#[local] Existing Instance no_fingerprint.
#[local] Existing Instance sample_host.

(** A call of a global name, answered by the index. *)
Definition route_series : list Sample := [
  sample_row [("client", "db"); ("client_k8s_pod_uid", "u1"); ("server", "unknown"); ("cluster", "c1");
              ("client_server_address", "api.example.com"); ("client_dns_answers", "10.1.0.4")] ].
Definition route_key : routeKey := mkRouteKey "c1" "api.example.com" "/" 443 "10.1.0.4".
Definition route_hit : routeIndex :=
  {[ route_key := mkRouteEntry (mkRouteDestination "c1" "shop" "cart" 80 "" "" "") RouteHit false ]}.

Lemma prescan_complete_witness :
  let t := parseTopology sg_vectors DefaultLabelKeys (mkAlertWindow 0 0) in
  let red := mkRedInputs [] false [] false in
  collectRouteQueriesWith (newSGResolver t None false) route_series = [route_key] ∧
  (sg_summary (parseWithResolver (newSGResolver t (Some route_hit) false) route_series red)).1.1 =
    ["pod-calls-service|c1/u1|c1/shop/cart"; "service-selects-pod|c1/shop/cart|c1/u1"] ∧
  parseWithResolver (newSGResolver t (Some route_hit) false) route_series red =
  parseWithResolver (newSGResolver t (Some (<[mkRouteKey "c2" "x" "/" 443 "" :=
    mkRouteEntry (mkRouteDestination "" "" "" 0 "" "" "") RouteNoIngress false]> route_hit)) false) route_series red.
Proof.
  cbv zeta.
  assert (collectRouteQueriesWith (newSGResolver (parseTopology sg_vectors DefaultLabelKeys (mkAlertWindow 0 0))
    None false) route_series = [route_key]) as Hk by by vm_compute.
  split; [exact Hk|]. split; [by vm_compute|].
  apply (prescan_complete sg_vectors DefaultLabelKeys (mkAlertWindow 0 0) false).
  - apply (bool_decide_eq_true_1 _). by vm_compute.
  - rewrite Hk. intros k ->%list_elem_of_singleton. by vm_compute.
Defined.
