(* ===== verification/ServiceGraphAdmission.v ===== *)
(** A filtered read over an empty topology admits nothing: what lets the build
    skip the service-graph queries (pkg/build/build.go, Build).

    Filtered-build admission (pkg/build/servicegraph.go): a rejected series leaves
    no trace in the result, wherever in the vector it stands. *)

From S2P Require Import Prelude GoStrings NetAddr Keyed Float64 GraphNode GraphEdge PairScope.
From S2P Require Import Fanout RedMetrics BuildIdentity TopologyTypes NetApp Topology.
From S2P Require Import PeerAddress ServiceGraph ServiceGraphEffects.
From S2P Require Import ServiceGraphParse ServiceGraphProps RoutePrescan ServiceGraphTheorems.
From S2P Require Import Selector NetAppProps.

#[local] Open Scope bool_scope.

Section empty.
Context `{EdgeUUID, URLHost} (r : sgIndex) (Hok : index_ok r).
Hypothesis Hpods : ∀ id, ¬ loaded_pod r id.
Hypothesis Hsvcs : ∀ cl ns svc, anchorHolds r cl ns svc = false.
Hypothesis Hf : filtered r = true.

Lemma no_service es : good r es → ∀ id, ¬ makes_svc es id.
Proof.
  intros Hg id (cl & ns & svc & obs & He & _). pose proof (Hg _ He) as Hh. cbn in Hh.
  by rewrite Hsvcs in Hh.
Qed.

(** Nothing materialised. *)
Definition bare (ps : parseState) : Prop :=
  parse_inv r ps ∧ same (ps_res ps) sg_empty ∧ ps_pairs ps = ∅.

Lemma never_admitted ps m rs st :
  bare ps → resolve_series r m (ps_res ps) = (rs, st) → admitted r st rs = false.
Proof.
  intros (Hinv & Hsame & _) Hres. destruct (resolve_series_runs r Hok m) as (v & es & Hm & Hg & _).
  pose proof (Hm (ps_res ps)) as Heq. rewrite Hres in Heq. injection Heq as -> ->.
  assert (∀ id, ¬ svc_in (fold_left (apply_effect r) es (ps_res ps)) id) as Hnone.
  { intros id Hid. apply services_apply_all in Hid as [Hid|Hid]; [|by eapply no_service].
    apply (same_svc _ _ id Hsame) in Hid as [? ?]. done. }
  assert (∀ ids, anyLoaded r (fold_left (apply_effect r) es (ps_res ps)) ids = false) as Hany.
  { intros ids. apply not_true_iff_false. intros (x & _ & Hx)%existsb_exists.
    apply orb_true_iff in Hx as [Hx|Hx]; rewrite bool_decide_eq_true in Hx; [by eapply Hpods|by eapply Hnone]. }
  unfold admitted. by rewrite !Hany, andb_false_r.
Qed.

Lemma bare_step ps s : bare ps → bare (series_step r ps s).
Proof.
  intros Hb. pose proof Hb as (Hinv & Hsame & Hp). split; [by apply series_step_inv|].
  unfold series_step. destruct (_ || _); [done|].
  destruct (resolve_series r (s_Metric s) (ps_res ps)) as [rs st] eqn:Hres.
  rewrite Hf, (never_admitted ps _ rs st Hb Hres). cbn. split; [|done].
  destruct (pi_filtered r ps Hinv Hf) as (_ & Hw & Hj).
  pose proof (rollback_same r (s_Metric s) (ps_res ps) Hf Hw Hj) as [Hrb _]. rewrite Hres in Hrb. cbn in Hrb.
  etransitivity; [exact Hrb|exact Hsame].
Qed.

Lemma bare_series vec jf jd : bare (parse_series r vec jf jd).
Proof.
  unfold parse_series.
  assert (bare (mkParseState sg_empty ∅ (newRedJoin jf jd) ∅ ∅)) as Hinit
    by (split; [apply (parse_series_inv r Hok [] jf jd)|done]).
  revert Hinit. generalize (mkParseState sg_empty ∅ (newRedJoin jf jd) ∅ ∅).
  induction vec as [|s vec IH]; intros ps Hps; [done|]. by apply IH, bare_step.
Qed.

Lemma parse_empty vec red : parseWithResolver r vec red = mkServiceGraphResult [] [] [] [].
Proof.
  unfold parseWithResolver. case_bool_decide; [done|].
  destruct (bare_series vec (joins_failures red) (joins_duration red)) as (_ & Hs & Hp).
  unfold same, content in Hs. injection Hs as He Hy Hv Hse Hce _.
  unfold emit_edges. by rewrite Hp, Hse, Hce, Hv, He, Hy, map_to_list_empty.
Qed.
End empty.

(** Every successful read of such a topology is the empty result. *)
Lemma read_empty `{EdgeUUID, URLHost, MetricFingerprint} {E} v keys win
    (total failed duration : result E (list Sample)) ctxDone end_ resolver answered out :
  let t := parseTopology v keys win in
  Pods t = [] → ServicesByNameNS t = ∅ →
  ReadServiceGraph total failed duration ctxDone end_ t resolver answered true = Ok out →
  out = mkServiceGraphResult [] [] [] [].
Proof.
  intros t Hp Hs (vec & red & rts & ->)%ReadServiceGraph_parse.
  pose proof (parseTopology_pods_in v keys win) as Hin. fold t in Hin.
  apply parse_empty; [by apply newSGResolver_ok| | |done].
  - intros id Hid. apply newSGResolver_pods in Hid. rewrite Hp in Hid. by apply elem_of_nil in Hid.
  - intros cl ns svc. unfold anchorHolds, candidates_of. cbn [newSGResolver svcCandidates]. rewrite Hs.
    assert (svc_candidates ∅ = ∅) as -> by (unfold svc_candidates; rewrite map_to_list_empty; apply fmap_empty).
    by rewrite lookup_empty.
Qed.


Section admission.
Context `{EdgeUUID, URLHost} (r : sgIndex) (Hok : index_ok r).

(** Two states a series cannot tell apart: only the shadow counter differs. *)
Definition same_j (st st' : sgState) : Prop := same st st' ∧ journal st = journal st'.

Lemma apply_same e st st' : same_j st st' → same_j (apply_effect r st e) (apply_effect r st' e).
Proof.
  destruct st, st'. unfold same_j, same, content. cbn. intros [Hs Hj]. simplify_eq.
  destruct e; cbn [apply_effect]; unfold noteExternal, noteConnStringShadowed, external, synthPod,
    materializeServiceNode, addServiceEdge, addRouteChainEdge, markIngressService, note;
  sg_run; sg_fields; repeat (case_match; simplify_eq; sg_fields); done.
Qed.

Lemma apply_all_same es : ∀ st st', same_j st st' →
  same_j (fold_left (apply_effect r) es st) (fold_left (apply_effect r) es st').
Proof. induction es as [|e es IH]; intros st st' Hs; [done|]. by apply IH, apply_same. Qed.

(** A series resolves alike in both. *)
Lemma resolve_same m st st' : same_j st st' →
  (resolve_series r m st).1 = (resolve_series r m st').1 ∧
  same_j (resolve_series r m st).2 (resolve_series r m st').2.
Proof.
  intros Hs. destruct (resolve_series_runs r Hok m) as (v & es & Hm & _). rewrite !Hm.
  split; [done|]. by apply apply_all_same.
Qed.

Lemma rollback_same_j st st' : same_j st st' → same_j (rollback st) (rollback st').
Proof. intros [Hs Hj]. split; [|done]. unfold rollback. rewrite Hj. apply (undo_all_proper _ _ eq_refl _ _ Hs). Qed.

Definition ps_same (ps ps' : parseState) : Prop :=
  same_j (ps_res ps) (ps_res ps') ∧ ps_pairs ps = ps_pairs ps' ∧ ps_red ps = ps_red ps' ∧
  ps_link ps = ps_link ps' ∧ ps_transport ps = ps_transport ps'.

Lemma same_services st st' : same st st' → services st = services st' ∧ synthPods st = synthPods st'.
Proof. unfold same, content. by intros [= _ Hy Hs _ _ _]. Qed.

Lemma series_step_same ps ps' s : ps_same ps ps' → ps_same (series_step r ps s) (series_step r ps' s).
Proof.
  destruct ps as [st p1 p2 p3 p4], ps' as [st' q1 q2 q3 q4]. unfold ps_same. cbn.
  intros (Hs & -> & -> & -> & ->). unfold series_step. cbn [ps_res ps_pairs ps_red ps_link ps_transport].
  destruct (_ || _); [done|].
  destruct (resolve_same (s_Metric s) st st' Hs) as [Hv Hs'].
  destruct (resolve_series r (s_Metric s) st) as [rs st1], (resolve_series r (s_Metric s) st') as [rs' st1'].
  cbn [fst snd] in *. subst rs'. destruct (same_services _ _ (proj1 Hs')) as [Hsv Hsy].
  assert (admitted r st1 rs = admitted r st1' rs) as ->.
  { unfold admitted, anyLoaded. by rewrite Hsv. }
  destruct (_ && _); [split; [by apply rollback_same_j|done]|].
  assert (∀ k rj, red_step r (if filtered r then commit st1 else st1) rs s
      (if joinKeyed q2 then seriesKeyOf (s_Metric s) else "") rj k =
    red_step r (if filtered r then commit st1' else st1') rs s
      (if joinKeyed q2 then seriesKeyOf (s_Metric s) else "") rj k) as Hred.
  { intros [k i] rj. unfold red_step, isPodOrServiceID. destruct (filtered r); cbn; by rewrite Hsv, Hsy. }
  assert (∀ l rj, fold_left (red_step r (if filtered r then commit st1 else st1) rs s
      (if joinKeyed q2 then seriesKeyOf (s_Metric s) else "")) l rj =
    fold_left (red_step r (if filtered r then commit st1' else st1') rs s
      (if joinKeyed q2 then seriesKeyOf (s_Metric s) else "")) l rj) as Hfold.
  { induction l as [|k l IH]; intros rj; [done|]. cbn [fold_left]. by rewrite IH, Hred. }
  assert (same_j (if filtered r then commit st1 else st1) (if filtered r then commit st1' else st1')) as Hc.
  { destruct (filtered r); [|done]. by destruct Hs' as [Hs' _]. }
  destruct (_ && _); split; try done; rewrite Hfold; done.
Qed.

Lemma series_steps_same vec : ∀ ps ps', ps_same ps ps' →
  ps_same (fold_left (series_step r) vec ps) (fold_left (series_step r) vec ps').
Proof. induction vec as [|s vec IH]; intros ps ps' Hs; [done|]. by apply IH, series_step_same. Qed.

(** A series the admission turns away in a state. *)
Definition rejects (ps : parseState) (s : Sample) : bool :=
  let '(rs, st) := resolve_series r (s_Metric s) (ps_res ps) in
  filtered r && fgtb (s_Value s) f_zero && negb (wholly_empty (s_Metric s)) && negb (admitted r st rs).

Lemma rejects_step ps s : parse_inv r ps → rejects ps s = true → ps_same (series_step r ps s) ps.
Proof.
  intros Hinv. unfold rejects, series_step.
  destruct (resolve_series r (s_Metric s) (ps_res ps)) as [rs st] eqn:Hres.
  intros Hr. apply andb_true_iff in Hr as [Hr Ha]. apply andb_true_iff in Hr as [Hr Hw].
  apply andb_true_iff in Hr as [Hf Hv]. rewrite Hv. apply negb_true_iff in Hw. rewrite Hw, Hf, Ha. cbn.
  destruct (pi_filtered r ps Hinv Hf) as (_ & Hwf & Hj).
  pose proof (rollback_same r (s_Metric s) (ps_res ps) Hf Hwf Hj) as [Hsame Hj']. rewrite Hres in Hsame, Hj'.
  split; [|done]. split; [exact Hsame|]. by rewrite Hj.
Qed.

(** What is emitted reads the shared part of the state. *)
Lemma out_same ps ps' es : ps_same ps ps' → out_of ps es = out_of ps' es.
Proof.
  intros ([Hs _] & _). unfold same, content in Hs. injection Hs as He Hy Hv _ _ _.
  unfold out_of. by rewrite He, Hy, Hv.
Qed.

Lemma emit_same ps ps' red fo du : ps_same ps ps' → emit_edges ps red fo du = emit_edges ps' red fo du.
Proof.
  intros ([Hs _] & Hp & _ & Hl & Ht). unfold same, content in Hs. injection Hs as He Hy Hv Hse Hce _.
  unfold emit_edges, pair_edge. by rewrite Hp, Hl, Ht, Hv, Hse, Hce.
Qed.

Lemma parse_nil red ps : ps_same ps (mkParseState sg_empty ∅ (newRedJoin (joins_failures red) (joins_duration red)) ∅ ∅) →
  ∀ rj fo du, out_of ps (emit_edges ps rj fo du) = mkServiceGraphResult [] [] [] [].
Proof. intros Hs rj fo du. by rewrite (emit_same _ _ _ _ _ Hs), (out_same _ _ _ Hs). Qed.

Lemma rejected_traceless v1 s v2 red :
  rejects (parse_series r v1 (joins_failures red) (joins_duration red)) s = true →
  parseWithResolver r (v1 ++ s :: v2) red = parseWithResolver r (v1 ++ v2) red.
Proof.
  intros Hrej.
  pose proof (rejects_step _ s (parse_series_inv r Hok v1 _ _) Hrej) as Hstep.
  pose proof (series_steps_same v2 _ _ Hstep) as Hall. fold (parse_series r) in Hall.
  assert (∀ l, parse_series r (v1 ++ l) (joins_failures red) (joins_duration red) =
    fold_left (series_step r) l (parse_series r v1 (joins_failures red) (joins_duration red))) as Hsplit.
  { intros l. unfold parse_series. by rewrite fold_left_app. }
  unfold parseWithResolver. rewrite bool_decide_eq_false_2 by (by destruct v1).
  cbv zeta. rewrite !Hsplit. cbn [fold_left].
  pose proof Hall as (_ & _ & Hrd & _). rewrite Hrd.
  fold (out_of (fold_left (series_step r) v2 (series_step r
    (parse_series r v1 (joins_failures red) (joins_duration red)) s))).
  case_bool_decide as Hnil.
  - apply app_nil in Hnil as [-> ->]. cbn [fold_left] in *. by apply (parse_nil red).
  - rewrite (emit_same _ _ _ _ _ Hall). apply (out_same _ _ _ Hall).
Qed.

End admission.

(** C30: In a filtered build a series that touches nothing loaded leaves no
    trace, wherever in the vector it stands: the result - nodes, edges, labels
    and measurements - is that of the vector without it. *)
Theorem rejected_series_traceless `{EdgeUUID, URLHost, MetricFingerprint} v keys win rts v1 s v2 red :
  let r := newSGResolver (parseTopology v keys win) rts true in
  rejects r (parse_series r v1 (joins_failures red) (joins_duration red)) s = true →
  parseWithResolver r (v1 ++ s :: v2) red = parseWithResolver r (v1 ++ v2) red.
Proof. intros r. apply rejected_traceless, newSGResolver_ok, parseTopology_pods_in. Qed.

#[local] Existing Instance name_uuid.
#[local] Existing Instance no_fingerprint.
#[local] Existing Instance sample_host.

Lemma rejected_series_traceless_witness :
  let r := newSGResolver (parseTopology sg_vectors DefaultLabelKeys (mkAlertWindow 0 0)) None true in
  let red := mkRedInputs [] false [] false in
  parseWithResolver r (take 1 sg_series ++ sample_row [("client", "a"); ("server", "b"); ("cluster", "c1")] ::
                       drop 2 sg_series) red =
  parseWithResolver r (take 1 sg_series ++ drop 2 sg_series) red.
Proof.
  cbv zeta. apply (rejected_series_traceless sg_vectors DefaultLabelKeys (mkAlertWindow 0 0) None).
  by vm_compute.
Defined.
