(* ===== verification/NameScopes.v ===== *)
(** pkg/build: the names a second read is restricted to, derived from the rows a
    first one returned (controllerscope.go, podscope.go, nodescope.go, podseed.go,
    nodeseed.go, podnamespace.go, claimscope.go, k8scontrollers.go): the pure
    half of the scoped reads. *)

From S2P Require Import Prelude GoStrings Keyed Selector Queries PairScope ScopedRender.
From S2P Require Import HarvestScope.
From S2P Require Import StorageScope BuildIdentity Fanout TopologyTypes.

#[local] Open Scope bool_scope.

(** ** Sorted name sets *)

(** pkg/build/controllerscope.go, [sortedNames] *)
Definition sortedNames (names : list string) : list string :=
  compact (sort_func String.compare (filter (λ n, n ≠ "") names)).

(** A label's value and the label list of rows. *)
Definition label_values (rows : list Sample) (l : string) : list string :=
  map (λ s, label_of (s_Metric s) l) rows.

(** ** Controllers *)

(** pkg/build/controllerscope.go, [controllerScope]: the names of one kind; an
    absent kind is the empty scope. *)
Definition controllerScope (podOwner : list Sample) (kind : string) : list string :=
  if bool_decide (kind = "") then [] else
  sortedNames (label_values (filter (λ s, label_of (s_Metric s) "owner_is_controller" = "true" ∧
                                       label_of (s_Metric s) "owner_kind" = kind) podOwner) "owner_name").

(** pkg/build/controllerscope.go, [deploymentScope] *)
Definition deploymentScope (direct : list string) (rsOwner : list Sample) : list string :=
  sortedNames (direct ++ label_values (filter (λ s, label_of (s_Metric s) "owner_kind" = "Deployment") rsOwner)
                           "owner_name").

(** pkg/build/controllerscope.go, [cronJobScope] *)
Definition cronJobScope (direct : list string) (jobOwner : list Sample) : list string :=
  sortedNames (direct ++ label_values jobOwner "owner_name").

(** The text before the last occurrence of [c], when it is not the first byte. *)
Fixpoint before_last (c : ascii) (s : string) : option string :=
  match s with
  | "" => None
  | String a s' =>
      match before_last c s' with
      | Some p => Some (String a p)
      | None => if contains_byte c s' then Some (String a "") else None
      end
  end.

(** pkg/build/k8scontrollers.go, [withoutFinalSegment] *)
Definition withoutFinalSegment (names : list string) : list string := omap (before_last "-"%char) names.

(** ** Nodes and pods *)

(** pkg/build/nodescope.go, [nodeScope] *)
Definition nodeScope (pods : list Sample) (roots : list string) : list string :=
  sortedNames (label_values pods "node" ++ roots).

(** pkg/build/appscope.go, [bindingClaim] *)
Definition bindingClaim (m : Metric) : string :=
  let c := label_of m "persistentvolumeclaim" in
  if bool_decide (c = "") then label_of m "claim_name" else c.

(** The pod a row names. *)
Definition pod_ref_of (m : Metric) : PodRef := mkPodRef (label_of m NamespaceLabel) (label_of m PodLabel).

(** pkg/build/podscope.go, [bindingPodRefs] *)
Definition bindingPodRefs (bindings : list Sample) : list PodRef :=
  map (λ s, pod_ref_of (s_Metric s))
    (filter (λ s, bindingClaim (s_Metric s) ≠ "" ∧ label_of (s_Metric s) PodLabel ≠ "") bindings).

(** pkg/build/podnamespace.go, [podRefsOf] *)
Definition podRefsOf (rows : list Sample) : list PodRef :=
  map (λ s, pod_ref_of (s_Metric s)) (filter (λ s, label_of (s_Metric s) PodLabel ≠ "") rows).

(** pkg/build/podnamespace.go, [groupPodRefs]: the namespaces in order, each with
    its sorted pod names. *)
Definition groupPodRefs (refs : list PodRef) : list (string * list string) :=
  let named := filter (λ r, pr_Name r ≠ "") refs in
  map (λ ns, (ns, compact (sort_func String.compare
                             (map pr_Name (filter (λ r, pr_Namespace r = ns) named)))))
    (compact (sort_func String.compare (map pr_Namespace named))).

(** pkg/build/podseed.go, [keepRootBindings] *)
Definition keepRootBindings (rows : list Sample) (roots : list PodRef) : list Sample :=
  filter (λ s, mkPodRef (label_of (s_Metric s) "namespace") (label_of (s_Metric s) PodLabel) ∈ roots ∧
               bindingClaim (s_Metric s) ≠ "") rows.

(** pkg/build/nodeseed.go, [podSeriesKey] *)
Record podSeriesKey := mkPodSeriesKey { psk_az : string; psk_env : string; psk_cluster : string;
                                        psk_namespace : string; psk_pod : string }.

#[export] Instance podSeriesKey_eq_dec : EqDecision podSeriesKey.
Proof. solve_decision. Defined.
#[export] Instance podSeriesKey_countable : Countable podSeriesKey.
Proof.
  by refine (inj_countable' (λ k, (psk_az k, psk_env k, psk_cluster k, psk_namespace k, psk_pod k))
    (λ '(a, b, c, d, e), mkPodSeriesKey a b c d e) _); intros [].
Defined.

(** pkg/build/nodeseed.go, [podSeriesKeyOf] *)
Definition podSeriesKeyOf (m : Metric) (keys : LabelKeys) : podSeriesKey :=
  mkPodSeriesKey (label_of m (key_AZ keys)) (label_of m (key_Env keys)) (bucketCluster (label_of m "cluster"))
    (label_of m NamespaceLabel) (label_of m PodLabel).

(** pkg/build/nodeseed.go, [comparePodSeriesKeys] *)
Definition comparePodSeriesKeys : podSeriesKey → podSeriesKey → comparison :=
  cmp_lex (on_key psk_az String.compare) (cmp_lex (on_key psk_env String.compare)
    (cmp_lex (on_key psk_cluster String.compare) (cmp_lex (on_key psk_namespace String.compare)
      (on_key psk_pod String.compare)))).

(** pkg/build/podnamespace.go, [podKeysOf] *)
Definition podKeysOf (rows : list Sample) (keys : LabelKeys) : list podSeriesKey :=
  compact (sort_func comparePodSeriesKeys
    (filter (λ k, psk_pod k ≠ "") (map (λ s, podSeriesKeyOf (s_Metric s) keys) rows))).

(** pkg/build/podnamespace.go, [podRefsOfKeys] *)
Definition podRefsOfKeys (ks : list podSeriesKey) : list PodRef :=
  map (λ k, mkPodRef (psk_namespace k) (psk_pod k)) ks.

(** pkg/build/nodeseed.go@150-154, [podsNewestOn]: the newest incarnation seen of a pod and its node. *)
Record newest := mkNewest { nw_ts : Z; nw_uid : string; nw_node : string }.

(** pkg/build/nodeseed.go@160-181, [podsNewestOn]: one row. *)
Definition newest_upd (o : option newest) (s : Sample) : option newest :=
  let uid := label_of (s_Metric s) "uid" in
  let node := label_of (s_Metric s) "node" in
  match o with
  | None => Some (mkNewest (s_Timestamp s) uid node)
  | Some cur =>
      if (nw_ts cur <? s_Timestamp s)%Z || (bool_decide (s_Timestamp s = nw_ts cur) && str_lt (nw_uid cur) uid)
      then Some (mkNewest (s_Timestamp s) uid
                   (if bool_decide (uid = nw_uid cur) && bool_decide (node = "") then nw_node cur else node))
      else if bool_decide (uid = nw_uid cur) && bool_decide (nw_node cur = "")
           then Some (mkNewest (nw_ts cur) (nw_uid cur) node)
           else Some cur
  end.

(** The pod a row of [podsNewestOn] is filed under. *)
Definition newest_key (keys : LabelKeys) (s : Sample) : option podSeriesKey :=
  let k := podSeriesKeyOf (s_Metric s) keys in
  if bool_decide (label_of (s_Metric s) "uid" = "") || bool_decide (psk_pod k = "") then None else Some k.

(** pkg/build/nodeseed.go, [podsNewestOn]: the pods whose newest incarnation runs on
    a root. *)
Definition podsNewestOn (rows : list Sample) (roots : list string) (keys : LabelKeys) : gset podSeriesKey :=
  let canon : gmap podSeriesKey newest := fold_keyed (newest_key keys) newest_upd rows ∅ in
  dom (filter (λ kb : podSeriesKey * newest, nw_node kb.2 ∈ roots) canon).

(** pkg/build/nodeseed.go, [keepPodRows] *)
Definition keepPodRows (rows : list Sample) (pods : gset podSeriesKey) (keys : LabelKeys) : list Sample :=
  filter (λ s, podSeriesKeyOf (s_Metric s) keys ∈ pods) rows.

(** pkg/build/nodeseed.go, [keepPodBindings] *)
Definition keepPodBindings (rows : list Sample) (pods : gset podSeriesKey) (keys : LabelKeys) : list Sample :=
  filter (λ s, podSeriesKeyOf (s_Metric s) keys ∈ pods ∧ bindingClaim (s_Metric s) ≠ "") rows.

(** ** Claims *)

(** pkg/build/claimscope.go, [claimKey] *)
Record claimKey := mkClaimKey { ck_az : string; ck_env : string; ck_cluster : string;
                                ck_namespace : string; ck_claim : string }.

#[export] Instance claimKey_eq_dec : EqDecision claimKey.
Proof. solve_decision. Defined.
#[export] Instance claimKey_countable : Countable claimKey.
Proof.
  by refine (inj_countable' (λ k, (ck_az k, ck_env k, ck_cluster k, ck_namespace k, ck_claim k))
    (λ '(a, b, c, d, e), mkClaimKey a b c d e) _); intros [].
Defined.

(** pkg/build/claimscope.go, [claimKeyOf] *)
Definition claimKeyOf (m : Metric) (keys : LabelKeys) (claim : string) : claimKey :=
  mkClaimKey (label_of m (key_AZ keys)) (label_of m (key_Env keys)) (bucketCluster (label_of m "cluster"))
    (label_of m "namespace") claim.

(** pkg/build/claimscope.go, [volumeNames] *)
Definition volumeNames (rows : list Sample) : list string :=
  compact (sort_func String.compare (filter (λ v, v ≠ "") (label_values rows HarvestVolumeLabel))).

(** pkg/build/claimscope.go@54-54, [pvCandidatePrefix] *)
Definition pvCandidatePrefix := "pvc_".

(** [strings.ReplaceAll] of one byte by another. *)
Fixpoint replace_byte (a b : ascii) (s : string) : string :=
  match s with
  | "" => ""
  | String c s' => String (if Ascii.eqb c a then b else c) (replace_byte a b s')
  end.

(** pkg/build/claimscope.go@75-82, [pvCandidates]: the positions of one volume;
    [at_start] tells a position at the start or after an underscore. *)
Fixpoint pv_candidates_of (at_start : bool) (v : string) : list string :=
  match v with
  | "" => []
  | String c v' =>
      (if at_start && has_prefix pvCandidatePrefix v then [replace_byte "_" "-" v] else []) ++
      pv_candidates_of (Ascii.eqb c "_") v'
  end.

(** pkg/build/claimscope.go, [pvCandidates] *)
Definition pvCandidates (volumes : list string) : list string :=
  compact (sort_func String.compare (v ← volumes; pv_candidates_of true v)).

(** pkg/build/claimscope.go, [keepRows] *)
Definition keepRows (rows : list Sample) (keep : Metric → bool) : list Sample :=
  filter (λ s, keep (s_Metric s) = true) rows.

(** ** What the scopes hold *)

Lemma elem_of_sortedNames l n : n ∈ sortedNames l ↔ n ≠ "" ∧ n ∈ l.
Proof. unfold sortedNames. by rewrite (elem_of_sort_compact String.compare), list_elem_of_filter. Qed.

Lemma sortedNames_sorted l : StronglySorted (cmp_lt String.compare) (sortedNames l).
Proof. apply (sort_compact_sorted String.compare). Qed.

(** A position the extraction considers: the start of the name, or after an
    underscore. *)
Definition boundary (pre : string) : Prop := pre = "" ∨ ∃ p, pre = p +:+ "_".

Lemma boundary_cons c pre : boundary (String c pre) ↔ (pre = "" ∧ c = "_"%char) ∨ (pre ≠ "" ∧ boundary pre).
Proof.
  unfold boundary. split.
  - intros [?|[[|a p] Hp]]; [done| |]; cbn in Hp; injection Hp as -> ->.
    + left. done.
    + right. split; [by destruct p|]. right. by exists p.
  - intros [[-> ->]|[Hne [->|[p ->]]]]; [right; by exists ""|done|]. right. by exists (String c p).
Qed.

Lemma elem_of_pv_candidates b v c :
  c ∈ pv_candidates_of b v ↔ ∃ pre x, v = pre +:+ x ∧ (pre = "" ∧ b = true ∨ pre ≠ "" ∧ boundary pre) ∧
    has_prefix pvCandidatePrefix x = true ∧ c = replace_byte "_" "-" x.
Proof.
  revert b. induction v as [|a v IH]; intros b; cbn [pv_candidates_of].
  - split; [by intros ?%elem_of_nil|]. intros ([|? ?] & x & Hv & _ & Hp & _); [|done]. cbn in Hv. by subst x.
  - rewrite elem_of_app, IH. split.
    + intros [Hin|(pre & x & -> & Hb & Hp & ->)].
      * destruct b; cbn [andb] in Hin; [|by apply elem_of_nil in Hin].
        destruct (has_prefix pvCandidatePrefix (String a v)) eqn:E; [|by apply elem_of_nil in Hin].
        apply list_elem_of_singleton in Hin as ->. exists "", (String a v). split_and!; try done. by left.
      * exists (String a pre), x. split_and!; try done. right. split; [done|]. apply boundary_cons.
        destruct Hb as [[-> Ha%Ascii.eqb_eq]|[? ?]]; [by left|by right].
    + intros (pre & x & Hv & Hb & Hp & ->). destruct pre as [|a' pre]; cbn [String.append] in Hv.
      * subst x. left. destruct Hb as [[_ ->]|[? _]]; [|done]. rewrite Hp. by left.
      * injection Hv as <- ->. right. exists pre, x. split_and!; try done.
        destruct Hb as [[? _]|[_ Hb]]; [done|]. apply boundary_cons in Hb as [[-> ->]|?]; [by left|by right].
Qed.

Lemma replace_byte_inv a b s : contains_byte b s = false → replace_byte b a (replace_byte a b s) = s.
Proof.
  induction s as [|c s IH]; cbn; [done|]. intros [Hc Hs]%orb_false_iff. rewrite IH by done.
  destruct (Ascii.eqb_spec c a) as [->|Hne]; [by rewrite Ascii.eqb_refl|].
  apply Ascii.eqb_neq in Hc. destruct (Ascii.eqb_spec c b) as [->|]; [congruence|done].
Qed.

(** The claims a filer-rooted build looks for. The candidates are a strictly
    sorted set: for every position of a FlexVol name that starts the name or
    follows an underscore and continues with [pvc_], the rest of the name with its
    underscores turned back into dashes. So every PersistentVolume named [pvc-...]
    whose default token ends a FlexVol name at such a position is looked for. *)
Theorem pvCandidates_exact vols :
  StronglySorted (cmp_lt String.compare) (pvCandidates vols) ∧
  (∀ c, c ∈ pvCandidates vols ↔ ∃ vol pre x, vol ∈ vols ∧ vol = pre +:+ x ∧ boundary pre ∧
     has_prefix pvCandidatePrefix x = true ∧ c = replace_byte "_" "-" x) ∧
  (∀ pv pre, has_prefix "pvc-" pv = true → contains_byte "_" pv = false → boundary pre →
     pre +:+ replace_byte "-" "_" pv ∈ vols → pv ∈ pvCandidates vols).
Proof.
  assert (∀ c, c ∈ pvCandidates vols ↔ ∃ vol pre x, vol ∈ vols ∧ vol = pre +:+ x ∧ boundary pre ∧
     has_prefix pvCandidatePrefix x = true ∧ c = replace_byte "_" "-" x) as Hexact.
  { intros c. unfold pvCandidates. rewrite (elem_of_sort_compact String.compare), list_elem_of_bind.
    setoid_rewrite elem_of_pv_candidates. split.
    - intros (vol & (pre & x & -> & Hb & Hp & ->) & Hin). exists (pre +:+ x), pre, x.
      split_and!; try done. destruct Hb as [[-> _]|[_ ?]]; [by left|done].
    - intros (vol & pre & x & Hin & -> & Hb & Hp & ->). exists (pre +:+ x). split; [|done].
      exists pre, x. split_and!; try done. destruct (decide (pre = "")); [by left|by right]. }
  split; [apply (sort_compact_sorted String.compare)|]. split; [done|].
  intros pv pre Hpv Hund Hb Hin. apply Hexact. exists (pre +:+ replace_byte "-" "_" pv), pre, (replace_byte "-" "_" pv).
  split_and!; [exact Hin|done|done| |by rewrite replace_byte_inv].
  clear -Hpv. unfold has_prefix, pvCandidatePrefix in *. destruct pv as [|a [|b [|c [|d pv]]]];
    cbn [String.prefix] in Hpv; repeat (destruct (ascii_dec _ _) as [<-|]; [|done]); try done.
  cbn. by destruct (replace_byte _ _ _).
Qed.

Example pvCandidates_example :
  pvCandidates ["trident_pvc_1_2"; "pvc_a_pvc_b"; "xpvc_9"; "vol0"] = ["pvc-1-2"; "pvc-a-pvc-b"; "pvc-b"].
Proof. vm_compute. reflexivity. Qed.

Lemma pvCandidates_exact_witness : "pvc-1-2" ∈ pvCandidates ["vol0"; "trident_pvc_1_2"].
Proof.
  apply (pvCandidates_exact ["vol0"; "trident_pvc_1_2"]) with (pre := "trident_");
    [vm_compute; reflexivity|vm_compute; reflexivity|right; by exists "trident"|right; left].
Defined.
