(* ===== verification/ScopedReads.v ===== *)
(** pkg/build/scopedread.go, podnamespace.go, claimscope.go, claimseed.go,
    podscope.go, nodescope.go, controllerscope.go, podseed.go, nodeseed.go,
    expansion.go: the restricted second-wave reads of a by-reference build. A
    read is a function from what has landed to what lands next; it fails as a
    whole when one of its queries fails. Panic recovery, logs and the per-family
    tallies are left out. *)

From stdpp Require Import pretty.
From S2P Require Import Prelude GoStrings PromStrings Selector Queries ScopeChunks PairScope.
From S2P Require Import ScopedRender AppMetadata Fanout StorageScope BuildIdentity VolumeKey.
From S2P Require Import TopologyTypes NameScopes.

#[local] Open Scope ksg_scope.

(** ** The read of one build *)

(** pkg/build/volumekey.go@86-86, [DefaultQoSScopeBatchBytes] *)
Definition DefaultQoSScopeBatchBytes : Z := 8192.

(** pkg/build/options.go@25-56, [Options]: the fields a topology read consults. *)
Record Options := mkOptions {
  opt_LabelKeys : LabelKeys;
  opt_VolumeKey : option VolumeKeyRewriter;
  opt_AppMetadata : option AppMetadataSource;
  opt_QoSScopeBatchBytes : Z;
}.

(** pkg/build/options.go, [Options.withAppMetadataDefaults] *)
Definition withAppMetadataDefaults (o : Options) : Options :=
  mkOptions (opt_LabelKeys o) (opt_VolumeKey o) (source_OrDefault <$> opt_AppMetadata o) (opt_QoSScopeBatchBytes o).

(** pkg/build/volumekey.go, [Options.qosScopeBatchBytes] *)
Definition qosScopeBatchBytes (o : Options) : Z :=
  if (0 <? opt_QoSScopeBatchBytes o)%Z then opt_QoSScopeBatchBytes o else DefaultQoSScopeBatchBytes.

(** pkg/promql/querier.go@17-19, [Querier]: the answers of one build's querier at the build's
    end time, and its optional upgrade [FamilyServer]. *)
Class Querier := {
  Instant : Query → string → result readError (list Sample);
  FamilyServer : option (Family → bool);
}.

(** [errgroup.Group.Wait]: of the queries of a wave that failed, the one whose
    error is reported is the scheduler's choice. *)
Class Scheduler := {
  first_failed : readError → list readError → readError;
  first_failed_in e es : first_failed e es ∈ e :: es;
}.

(** What has landed so far, per family: the slots of [topologyVectors]. A family
    never read is absent. *)
Definition landed : Type := gmap string (list Sample).
Definition rows_of (v : landed) (q : Query) : list Sample := default [] (v !! q).

(** A target the read may leave untouched. *)
Definition land (v : landed) (q : Query) (o : option (list Sample)) : landed :=
  match o with Some rows => <[q := rows]> v | None => v end.

Section reads.
Context `{Querier} `{Scheduler}.
(** The window, the options and the selector of the build. *)
Context (window : Z) (opts : Options) (sel : Selector).

#[local] Abbreviation keys := (opt_LabelKeys opts).
#[local] Abbreviation lk := (OrDefault keys).
#[local] Abbreviation batch := (qosScopeBatchBytes opts).

(** The errors of a wave's queries. *)
Definition wave_errors {A} (rs : list (result readError A)) : list readError :=
  omap (λ r, match r with Err e => Some e | Ok _ => None end) rs.

(** [wave.Wait]: [out] once every query answered. *)
Definition wave {A B} (rs : list (result readError A)) (out : B) : result readError B :=
  match wave_errors rs with
  | [] => Ok out
  | e :: es => Err (first_failed e es)
  end.

(** The vector of a query that answered. *)
Definition answered (r : result readError (list Sample)) : list Sample :=
  match r with Ok rows => rows | Err _ => [] end.

(** ** Scoped families (scopedread.go) *)

(** pkg/build/scopedread.go@38-45, [scopedFamily]: the slot is the caller's; [None] is the
    rendering on the family's identity label. *)
Record scopedFamily := mkScopedFamily {
  sf_query : Query;
  sf_scope : list string;
  sf_render : option (list string → option string);
  sf_budgetOverhead : Z;
  sf_budgetReserve : Z;
}.

(** A family on its identity label. *)
Definition plain_family (q : Query) (scope : list string) : scopedFamily :=
  mkScopedFamily q scope None 0 0.

(** An error of the build's own. *)
Definition own_error (text : string) : readError := mkReadError text None false false None.

(** pkg/build/scopedread.go, [issueScopedChunk]: the rendering is the caller's or the family's. *)
Definition issueScopedChunk (name : Query) (values : list string) (render : option (list string → option string))
  : result readError (list Sample) :=
  match (match render with Some render => render values | None => RenderScoped name window keys sel values end) with
  | None => Err (own_error (name +:+ ": no scoped rendering for " +:+ pretty (llen values) +:+ " values"))
  | Some text => match Instant name text with
                 | Ok rows => Ok rows
                 | Err e => Err (default e (wrapQueryError name (Some e)))
                 end
  end.

(** The chunks of a family's scope: none for an empty one. *)
Definition family_chunks (fam : scopedFamily) : list (list string) :=
  if bool_decide (sf_scope fam = []) then [] else
  ChunkScopeWithOverhead (sf_scope fam) (Z.max 1 (batch - sf_budgetReserve fam)) (sf_budgetOverhead fam).

(** The answers of a family's chunks, in chunk order. *)
Definition family_parts (fam : scopedFamily) : list (result readError (list Sample)) :=
  map (λ c, issueScopedChunk (sf_query fam) c (sf_render fam)) (family_chunks fam).

(** Its merged vector; [None] when it was not issued. *)
Definition family_rows (fam : scopedFamily) : option (list Sample) :=
  if bool_decide (family_chunks fam = []) then None else Some (mjoin (map answered (family_parts fam))).

(** pkg/build/scopedread.go, [issueScopedFamilies] *)
Definition issueScopedFamilies (fams : list scopedFamily) : result readError (list (option (list Sample))) :=
  wave (mjoin (map family_parts fams)) (map family_rows fams).

(** Issuing families into the slots of their own queries. *)
Definition issueInto (fams : list scopedFamily) (v : landed) : result readError landed :=
  out <-! issueScopedFamilies fams;
  Ok (foldl (λ v fo, land v (sf_query fo.1) fo.2) v (zip fams out)).

(** pkg/build/nodeseed.go, [instantAll] *)
Definition instantAll (name : Query) (queries : list string) : result readError (list Sample) :=
  let parts := map (λ text, match Instant name text with
                            | Ok rows => Ok rows
                            | Err e => Err (default e (wrapQueryError name (Some e)))
                            end) queries in
  wave parts (mjoin (map answered parts)).

(** ** Reads per namespace (podnamespace.go, claimscope.go) *)

(** Splitting a flat list back along the lists it was concatenated from. *)
Fixpoint regroup {A B} (gs : list (list A)) (l : list B) : list (list B) :=
  match gs with
  | [] => []
  | g :: gs => take (length g) l :: regroup gs (drop (length g) l)
  end.

(** One family per namespace, its names restricted within it. *)
Definition namespace_family (label : string) (q : Query) (g : string * list string) : scopedFamily :=
  mkScopedFamily q g.2 (Some (RenderNamesInNamespace q window keys sel g.1 label)) 0 (NamespaceEqualityCost g.1).

(** The merge of the parts of one target, in namespace order. *)
Definition merge_parts (keep : Metric → bool) (parts : list (option (list Sample))) : list Sample :=
  mjoin (map (λ o, keepRows (default [] o) keep) parts).

(** Every target over every group, all under one wave. *)
Definition issueByNamespace (label : string) (keep : Metric → bool) (targets : list Query)
  (groups : list (string * list string)) : result readError (list (list Sample)) :=
  let fams := map (λ q, map (namespace_family label q) groups) targets in
  out <-! issueScopedFamilies (mjoin fams);
  Ok (map (merge_parts keep) (regroup fams out)).

(** The targets' slots. *)
Definition land_all (v : landed) (targets : list Query) (rows : list (list Sample)) : landed :=
  foldl (λ v qr, <[qr.1 := qr.2]> v) v (zip targets rows).

(** pkg/build/podnamespace.go, [issuePodFamiliesByNamespace] *)
Definition issuePodFamiliesByNamespace (targets : list Query) (refs : list PodRef) (v : landed) : result readError landed :=
  let groups := groupPodRefs refs in
  if bool_decide (groups = []) then Ok v else
  rows <-! issueByNamespace PodLabel (λ _, true) targets groups;
  Ok (land_all v targets rows).

(** pkg/build/podnamespace.go, [queryPodsByNamespace] *)
Definition queryPodsByNamespace (name : Query) (refs : list PodRef) : result readError (list Sample) :=
  v <-! issuePodFamiliesByNamespace [name] refs ∅;
  Ok (rows_of v name).

(** The tracked claims of each namespace, in namespace order. *)
Definition claim_groups (claims : gset claimKey) : list (string * list string) :=
  let ks := filter (λ k, ck_claim k ≠ "") (elements claims) in
  map (λ ns, (ns, sortedNames (map ck_claim (filter (λ k, ck_namespace k = ns) ks))))
    (compact (sort_func String.compare (map ck_namespace ks))).

(** The claim a row of a claim family is about is one of [claims]. *)
Definition isTracked (claims : gset claimKey) (m : Metric) : bool :=
  bool_decide (claimKeyOf m lk (label_of m ClaimLabel) ∈ claims).

(** pkg/build/claimscope.go, [issueClaimFamiliesByNamespace] *)
Definition issueClaimFamiliesByNamespace (targets : list Query) (claims : gset claimKey) (v : landed)
  : result readError landed :=
  let groups := claim_groups claims in
  if bool_decide (groups = []) then Ok v else
  rows <-! issueByNamespace ClaimLabel (isTracked claims) targets groups;
  Ok (land_all v targets rows).

(** pkg/build/expansion.go, [trackedClaimKeys] *)
Definition trackedClaimKeys (rows : list Sample) : gset claimKey :=
  list_to_set (map (λ s, claimKeyOf (s_Metric s) lk (bindingClaim (s_Metric s)))
                 (filter (λ s, bindingClaim (s_Metric s) ≠ "") rows)).

(** pkg/build/nodeseed.go, [readMountersOf] *)
Definition readMountersOf (tracked : list Sample) (v : landed) : result readError landed :=
  let claims := trackedClaimKeys tracked in
  if bool_decide (claims = ∅) then Ok (<[QPVCBindings := tracked]> v)
  else issueClaimFamiliesByNamespace [QPVCBindings] claims v.

(** ** The pod, node and controller waves *)

(** pkg/build/podscope.go@16-21, [podTargets] *)
Definition podTargets : list Query := [QPodInfo; QPodOwner].

(** pkg/build/podscope.go, [readScopedPods]: once the bindings, and for an
    application root the recovered pods, have landed. *)
Definition readScopedPods (podRoots : list PodRef) (recovered : list podSeriesKey) (v : landed) : result readError landed :=
  issuePodFamiliesByNamespace podTargets
    (bindingPodRefs (rows_of v QPVCBindings) ++ podRoots ++ podRefsOfKeys recovered) v.

(** pkg/build/nodescope.go@17-24, [nodeTargets] *)
Definition nodeTargets : list Query := [QNodeInfo; QNodeAddresses; QNodeLabels; QNodeStatusCondition].

(** pkg/build/nodescope.go, [readScopedNodes] *)
Definition readScopedNodes (roots : list string) (v : landed) : result readError landed :=
  let scope := nodeScope (rows_of v QPodInfo) roots in
  if bool_decide (scope = []) then Ok v else
  issueInto (map (λ q, plain_family q scope) nodeTargets) v.

(** pkg/build/controllerscope.go, [readScopedControllers]: the second stage reads
    the owners the first one landed. *)
Definition readScopedControllers (v : landed) : result readError landed :=
  let byKind := controllerScope (rows_of v QPodOwner) in
  v <-! issueInto [
      plain_family QReplicaSetOwner (byKind "ReplicaSet");
      plain_family QReplicaSetAnnotations (byKind "ReplicaSet");
      plain_family QJobOwner (byKind "Job");
      plain_family QJobAnnotations (byKind "Job");
      plain_family QStatefulSetAnnotations (byKind "StatefulSet");
      plain_family QDaemonSetAnnotations (byKind "DaemonSet")] v;
  issueInto [
      plain_family QDeploymentAnnotations (deploymentScope (byKind "Deployment") (rows_of v QReplicaSetOwner));
      plain_family QCronJobAnnotations (cronJobScope (byKind "CronJob") (rows_of v QJobOwner))] v.

(** ** The claim side *)

(** pkg/build/claimscope.go@41-49, [claimTargets] *)
Definition claimTargets : list Query :=
  [QPVCInfo; QPVCBindings; QPVCAnnotations; QKubeletVolumeUsedBytes; QKubeletVolumeCapacityBytes].

(** pkg/build/claimscope.go, [readHubClaimInfo]: the claims whose PersistentVolume
    the rooted FlexVols may embed. *)
Definition readHubClaimInfo (v : landed) : result readError landed :=
  let cands := pvCandidates (volumeNames (rows_of v QVolumeLabels)) in
  if bool_decide (cands = []) then Ok v else
  out <-! issueScopedFamilies [plain_family QPVCInfo cands];
  Ok (land v QPVCInfo ((λ rows, keepRows rows (λ m, bool_decide (label_of m VolumeNameLabel ∈ cands))) <$>
                         mjoin (head out))).

(** pkg/build/claimscope.go, [readHubClaimFamilies] *)
Definition readHubClaimFamilies (v : landed) : result readError landed :=
  let claims : gset claimKey :=
    list_to_set (map (λ s, claimKeyOf (s_Metric s) lk (label_of (s_Metric s) ClaimLabel))
      (filter (λ s, label_of (s_Metric s) ClaimLabel ≠ "") (rows_of v QPVCInfo))) in
  issueClaimFamiliesByNamespace (tail claimTargets) claims v.
End reads.
