(* ===== verification/Upstream.v ===== *)
(** What the upstream documents about the queries of a build: an instant query
    whose selector adds label matchers to another returns, of the rows of that
    other query, the ones the matchers select; a missing label reads as empty.
    The estate is what the unrestricted queries return.

    What the restricted reads return from an honest upstream: chunked, merged and
    filtered, a scope yields the rows of the unrestricted family that are about
    the scope, in the order of the family for every object. *)

From S2P Require Import Prelude GoStrings PromStrings Selector Queries ScopeChunks PairScope.
From S2P Require Import ScopedRender Fanout TopologyTypes NameScopes ScopedReads AppMetadata.
From S2P Require Import StorageScope BuildIdentity VolumeKey.

(** A matcher list as [read_fragment] gives it, on the labels of a row. *)
Definition selects (ms : list (string * list string)) (s : Sample) : Prop :=
  Forall (λ kv, label_of (s_Metric s) kv.1 ∈ kv.2) ms.

#[export] Instance selects_dec ms s : Decision (selects ms s).
Proof. unfold selects. apply _. Defined.

(** A querier over an estate: every rendering that adds matchers to a query of
    the build is answered with the rows the matchers select. *)
Class Honest (estate : Query → list Sample) (window : Z) (keys : LabelKeys) (sel : Selector) `{Querier} : Prop :=
  honest q ms text : ms ≠ [] → extends_render q window keys sel ms text →
    Instant q text = Ok (filter (selects ms) (estate q)).

(** ** A querier that reads the text *)

(** The text before the first matcher a scoped rendering adds. *)
Definition scoped_prefix (q : Query) (window : Z) (keys : LabelKeys) (sel : Selector) : string :=
  "last_over_time(" +:+ q +:+
  match base_matchers q keys sel with [] => "{" | base => "{" +:+ join "," base +:+ "," end.

(** The matchers a text adds to a query of the build. *)
Definition added_matchers (q : Query) (window : Z) (keys : LabelKeys) (sel : Selector) (text : string)
  : option (list (string * list string)) :=
  let pre := scoped_prefix q window keys sel in
  let post := "}[" +:+ FormatDuration window +:+ "])" in
  let body := String.substring (String.length pre) (String.length text - String.length pre - String.length post) text in
  if bool_decide (text = pre +:+ body +:+ post) then read_fragment (S (String.length body)) body else None.

Lemma substring_past a b n : String.substring (String.length a) n (a +:+ b) = String.substring 0 n b.
Proof. induction a as [|c a IH]; [done|exact IH]. Qed.

Lemma substring_take a b : String.substring 0 (String.length a) (a +:+ b) = a.
Proof.
  induction a as [|c a IH]; [by destruct b|]. change (String.length (String c a)) with (S (String.length a)).
  change (String c a +:+ b) with (String c (a +:+ b)). cbn [String.substring]. by rewrite IH.
Qed.

(** The text between two others. *)
Lemma substring_between pre body post :
  String.substring (String.length pre)
    (String.length (pre +:+ body +:+ post) - String.length pre - String.length post) (pre +:+ body +:+ post) = body.
Proof.
  rewrite !length_append, substring_past.
  replace (_ - _ - _) with (String.length body) by lia. apply substring_take.
Qed.

Lemma reads_as_nonempty t m : reads_as t m → String.length t ≠ 0.
Proof. intros H. destruct t; [|done]. specialize (H ""). done. Qed.

Lemma length_join_texts ts ms : Forall2 reads_as ts ms → length ts ≤ String.length (join "," ts).
Proof.
  induction 1 as [|t m ts ms Ht Hts IH]; [done|]. apply reads_as_nonempty in Ht.
  destruct ts as [|t' ts]; [cbn in *; lia|]. rewrite join_cons2, !length_append. cbn [length] in *. lia.
Qed.

Lemma join_app_ne sep l1 l2 : l1 ≠ [] → l2 ≠ [] → join sep (l1 ++ l2) = join sep l1 +:+ sep +:+ join sep l2.
Proof.
  intros H1 H2. induction l1 as [|x [|y l1] IH]; [done| |].
  - destruct l2; [done|]. cbn [app]. by rewrite join_cons2.
  - cbn [app] in *. rewrite !join_cons2, IH by done. by rewrite !append_assoc.
Qed.

Lemma append_inj_r a b c : a +:+ c = b +:+ c → a = b.
Proof.
  revert b. induction a as [|x a IH]; intros [|y b] Hab; [done| | |].
  - apply (f_equal String.length) in Hab. rewrite !length_append in Hab. cbn in Hab. lia.
  - apply (f_equal String.length) in Hab. rewrite !length_append in Hab. cbn in Hab. lia.
  - injection Hab as -> Hab. by rewrite (IH _ Hab).
Qed.

(** The added matchers are read back from the text. *)
Lemma added_matchers_extends q window keys sel ms text :
  ms ≠ [] → extends_render q window keys sel ms text → added_matchers q window keys sel text = Some ms.
Proof.
  intros Hne (base & ts & Hb & Hts & ->).
  assert (ts ≠ []) as Hts0 by (intros ->; inversion Hts; by subst).
  set (post := "}[" +:+ FormatDuration window +:+ "])").
  assert (over "last_over_time" q ("{" +:+ join "," (base ++ ts) +:+ "}") (FormatDuration window) =
          scoped_prefix q window keys sel +:+ join "," ts +:+ post) as ->.
  { unfold over, scoped_prefix, post. rewrite selectorBraces_base in Hb.
    assert (match base with [] => "{" | _ => "{" +:+ join "," base +:+ "," end =
            match base_matchers q keys sel with [] => "{" | b => "{" +:+ join "," b +:+ "," end) as <-.
    { destruct (base_matchers q keys sel) as [|b bs], base as [|c cs]; try done.
      assert (join "," (b :: bs) = join "," (c :: cs)) as ->; [|done].
      apply (append_inj_r _ _ "}"). by injection Hb. }
    destruct base as [|b base]; [cbn [app]; by rewrite !append_assoc|].
    rewrite join_app_ne by done. by rewrite !append_assoc. }
  unfold added_matchers. fold post. rewrite substring_between, bool_decide_eq_true_2 by done.
  pose proof (length_join_texts _ _ Hts) as Hlen.
  destruct Hts as [|t m ts ms Ht Hts]; [done|]. apply read_fragment_join; [|done|done]. cbn [length] in *. lia.
Qed.

(** The querier of an estate: it reads the text and answers with the selected
    rows. *)
Definition estate_querier (estate : Query → list Sample) (window : Z) (keys : LabelKeys) (sel : Selector)
  (serves : option (Family → bool)) : Querier :=
  {| Instant := λ q text, match added_matchers q window keys sel text with
                          | Some ms => Ok (filter (selects ms) (estate q))
                          | None => Err (own_error "unsupported query")
                          end;
     FamilyServer := serves |}.

Lemma estate_querier_honest estate window keys sel serves :
  @Honest estate window keys sel (estate_querier estate window keys sel serves).
Proof. intros q ms text Hne Htext. cbn. by rewrite (added_matchers_extends _ _ _ _ ms). Qed.

(** ** Rows split along a key *)

Section by_key.
Context {A K : Type} `{EqDecision K} (f : A → K).
Implicit Types (l : list A) (k : K).

(** The same rows, in the same order for every key: what a loop keyed by [f]
    cannot tell apart. *)
Definition same_by_key l1 l2 : Prop := ∀ k, filter (λ x, f x = k) l1 = filter (λ x, f x = k) l2.

#[export] Instance same_by_key_equiv : Equivalence same_by_key.
Proof.
  split; [by intros l k|by intros l1 l2 Hl k; rewrite (Hl k)|].
  intros l1 l2 l3 H1 H2 k. by rewrite (H1 k).
Qed.

#[export] Instance same_by_key_app : Proper (same_by_key ==> same_by_key ==> same_by_key) (++).
Proof. intros l1 l1' H1 l2 l2' H2 k. by rewrite !filter_app, (H1 k), (H2 k). Qed.

Lemma same_by_key_nil l : same_by_key [] l → l = [].
Proof.
  intros Hl. destruct l as [|x l]; [done|]. specialize (Hl (f x)).
  by rewrite filter_cons_True in Hl.
Qed.

Lemma same_by_key_cons x l l' :
  same_by_key (x :: l) l' → ∃ p s, l' = p ++ x :: s ∧ same_by_key l (p ++ s).
Proof.
  intros Hl. pose proof (Hl (f x)) as Hx. rewrite filter_cons_True in Hx by done.
  assert (∃ p s, l' = p ++ x :: s ∧ filter (λ y, f y = f x) p = []) as (p & s & -> & Hp).
  { clear Hl. revert Hx. induction l' as [|y l' IH]; intros Hx; [done|]. rewrite filter_cons in Hx.
    destruct (decide (f y = f x)) as [Hy|Hy].
    - injection Hx as <- _. by exists [], l'.
    - destruct (IH Hx) as (p & s & -> & Hp). exists (y :: p), s. split; [done|]. by rewrite filter_cons_False. }
  exists p, s. split; [done|]. intros k. specialize (Hl k). rewrite !filter_app, !filter_cons in *.
  destruct (decide (f x = k)) as [<-|]; [|done]. rewrite Hp in *. by injection Hl.
Qed.

Lemma same_by_key_perm l1 l2 : same_by_key l1 l2 → l1 ≡ₚ l2.
Proof.
  revert l2. induction l1 as [|x l1 IH]; intros l2 Hl; [by rewrite (same_by_key_nil l2)|].
  destruct (same_by_key_cons _ _ _ Hl) as (p & s & -> & Hps).
  rewrite (IH _ Hps). apply Permutation_middle.
Qed.

Lemma same_by_key_elem l1 l2 x : same_by_key l1 l2 → x ∈ l1 ↔ x ∈ l2.
Proof. intros Hl%same_by_key_perm. by rewrite Hl. Qed.

(** Filtering on the key commutes. *)
Lemma same_by_key_filter (P : A → Prop) `{∀ x, Decision (P x)} l1 l2 :
  same_by_key l1 l2 → same_by_key (filter P l1) (filter P l2).
Proof.
  intros Hl k. rewrite !list_filter_filter.
  rewrite (list_filter_iff _ (λ x, P x ∧ f x = k)) by tauto.
  rewrite (list_filter_iff _ (λ x, P x ∧ f x = k) l2) by tauto.
  rewrite <- !list_filter_filter. by rewrite (Hl k).
Qed.

(** Rows read piece by piece, each piece its own keys, are the rows of all the
    keys. *)
Lemma pieces_same rows (pieces : list (list K)) :
  NoDup (mjoin pieces) →
  same_by_key (mjoin (map (λ c, filter (λ x, f x ∈ c) rows) pieces)) (filter (λ x, f x ∈ mjoin pieces) rows).
Proof.
  assert (∀ (c : list K) k, filter (λ x, f x = k) (filter (λ x, f x ∈ c) rows) =
                 if decide (k ∈ c) then filter (λ x, f x = k) rows else []) as Hpiece.
  { intros c k. rewrite list_filter_filter. destruct (decide (k ∈ c)) as [Hk|Hk].
    - apply list_filter_iff. intros x. split; [tauto|]. by intros <-.
    - apply elem_of_nil_inv. intros x Hx. apply list_elem_of_filter in Hx as [[H1 H2] _]. apply Hk. naive_solver. }
  intros Hnd k. rewrite Hpiece. induction pieces as [|c cs IH]; [by rewrite decide_False by apply not_elem_of_nil|].
  change (mjoin (map ?g (c :: cs))) with (g c ++ mjoin (map g cs)). change (mjoin (c :: cs)) with (c ++ mjoin cs) in *.
  apply NoDup_app in Hnd as (_ & Hdis & Hnd). cbn beta. rewrite filter_app, Hpiece, (IH Hnd).
  destruct (decide (k ∈ c)) as [Hc|Hc].
  - rewrite decide_False by (by apply Hdis). rewrite decide_True by set_solver. by rewrite app_nil_r.
  - destruct (decide (k ∈ mjoin cs)); [rewrite decide_True by set_solver; done|].
    by rewrite decide_False by set_solver.
Qed.
End by_key.

(** Names a scope may hold: distinct and non-empty. *)
Definition proper_names (l : list string) : Prop := NoDup l ∧ Forall (λ n, n ≠ "") l.

Lemma sortedNames_proper l : proper_names (sortedNames l).
Proof.
  split; [apply (sorted_lt_NoDup String.compare), sortedNames_sorted|].
  apply Forall_forall. by intros n [? _]%elem_of_sortedNames.
Qed.

Lemma proper_has_value c : c ≠ [] → Forall (λ n, n ≠ "") c → hasValue c = true.
Proof.
  destruct c as [|n c]; [done|]. intros _ [Hn _]%Forall_cons. apply hasValue_spec. exists n. split; [by left|done].
Qed.

Lemma elem_of_normalised c v : Forall (λ n, n ≠ "") c → v ∈ normaliseValues c ↔ v ∈ c.
Proof.
  intros Hc. rewrite elem_of_normaliseValues. split; [tauto|]. intros Hv. split; [done|].
  rewrite Forall_forall in Hc. by apply Hc.
Qed.

Section reads.
Context `{Querier} `{Scheduler} (window : Z) (opts : Options) (sel : Selector).
Context (estate : Query → list Sample) `{!Honest estate window (opt_LabelKeys opts) sel}.

#[local] Abbreviation keys := (opt_LabelKeys opts).

(** Every query of a wave answered. *)
Definition all_answered {A} (rs : list (result readError A)) : Prop := Forall (λ r, ∃ a, r = Ok a) rs.

Lemma wave_answered {A B} (rs : list (result readError A)) (out : B) : all_answered rs → wave rs out = Ok out.
Proof.
  unfold wave, wave_errors. intros Hrs. assert (omap (λ r, match r with Err e => Some e | Ok _ => None end) rs = []) as ->; [|done].
  induction Hrs as [|r rs [a ->] _ IH]; [done|]. exact IH.
Qed.

Lemma wave_Ok {A B} (rs : list (result readError A)) (out v : B) : wave rs out = Ok v → all_answered rs ∧ v = out.
Proof.
  unfold wave, wave_errors. destruct (omap _ rs) as [|e es] eqn:E; [|done]. intros [= <-]. split; [|done].
  induction rs as [|[a|e] rs IH]; [constructor| |done]. constructor; [by exists a|exact (IH E)].
Qed.

Lemma all_answered_mjoin {A} (rss : list (list (result readError A))) :
  Forall all_answered rss → all_answered (mjoin rss).
Proof. induction 1 as [|rs rss Hrs _ IH]; [constructor|]. by apply Forall_app. Qed.

Lemma issueScopedFamilies_answered fams :
  Forall (λ fam, all_answered (family_parts window opts sel fam)) fams →
  issueScopedFamilies window opts sel fams = Ok (map (family_rows window opts sel) fams).
Proof. intros Hf. apply wave_answered, all_answered_mjoin. by apply Forall_map. Qed.

(** ** One family *)

Lemma mjoin_concat {A} (ls : list (list A)) : mjoin ls = concat ls.
Proof. induction ls as [|l ls IH]; [done|]. change (mjoin (l :: ls)) with (l ++ mjoin ls). by rewrite IH. Qed.

Lemma family_chunks_scope fam :
  mjoin (family_chunks opts fam) = sf_scope fam ∧ Forall (λ c, c ≠ []) (family_chunks opts fam).
Proof.
  unfold family_chunks. case_bool_decide as Hs; [by rewrite Hs|].
  destruct (chunkScope_spec (sf_scope fam) (Z.max 1 (qosScopeBatchBytes opts - sf_budgetReserve fam))
              (sf_budgetOverhead fam) MaxAlternationValues) as (Hc & Hok & _).
  rewrite mjoin_concat. split; [exact Hc|]. eapply Forall_impl; [exact Hok|]. by intros c [? _].
Qed.

Lemma family_chunk_in fam c : c ∈ family_chunks opts fam → c ≠ [] ∧ ∀ v, v ∈ c → v ∈ sf_scope fam.
Proof.
  destruct (family_chunks_scope fam) as [Hscope Hne]. rewrite Forall_forall in Hne. intros Hc. split; [by apply Hne|].
  intros v Hv. rewrite <-Hscope, mjoin_concat. apply elem_of_concat. by exists c.
Qed.

Lemma issueScopedChunk_answers name values render text ms :
  match render with Some render => render values | None => RenderScoped name window keys sel values end = Some text →
  ms ≠ [] → extends_render name window keys sel ms text →
  issueScopedChunk window opts sel name values render = Ok (filter (selects ms) (estate name)).
Proof. intros Htext Hne Hext. unfold issueScopedChunk. by rewrite Htext, (honest name ms text). Qed.

(** A family whose chunks answer with the rows of their values returns the rows of
    its scope. *)
Lemma family_answers {K} `{EqDecision K} (f : Sample → K) (key : string → K) fam :
  (∀ c, c ∈ family_chunks opts fam →
     issueScopedChunk window opts sel (sf_query fam) c (sf_render fam) =
     Ok (filter (λ s, f s ∈ map key c) (estate (sf_query fam)))) →
  NoDup (map key (sf_scope fam)) →
  all_answered (family_parts window opts sel fam) ∧
  same_by_key f (default [] (family_rows window opts sel fam))
    (filter (λ s, f s ∈ map key (sf_scope fam)) (estate (sf_query fam))).
Proof.
  intros Hc Hnd.
  assert (family_parts window opts sel fam =
          map (λ c, Ok (filter (λ s, f s ∈ map key c) (estate (sf_query fam)))) (family_chunks opts fam)) as Hparts.
  { unfold family_parts. apply map_ext_in. intros c Hin%list_elem_of_In. by apply Hc. }
  destruct (family_chunks_scope fam) as [Hscope _].
  assert (mjoin (map (map key) (family_chunks opts fam)) = map key (sf_scope fam)) as Hkeys.
  { rewrite <-Hscope, !mjoin_concat. symmetry. apply concat_map. }
  split; [rewrite Hparts; apply Forall_map, Forall_true; by eexists|].
  transitivity (mjoin (map (λ c, filter (λ s, f s ∈ c) (estate (sf_query fam))) (map (map key) (family_chunks opts fam)))).
  - unfold family_rows. rewrite Hparts. case_bool_decide as E; [by rewrite E|].
    cbn [default]. by rewrite !map_map.
  - rewrite <-Hkeys in *. by apply pieces_same.
Qed.

(** A family on its identity label. *)
Lemma plain_family_answers q label scope :
  scopedLabel q = Some label → proper_names scope →
  all_answered (family_parts window opts sel (plain_family q scope)) ∧
  same_by_key (λ s, label_of (s_Metric s) label)
    (default [] (family_rows window opts sel (plain_family q scope)))
    (filter (λ s, label_of (s_Metric s) label ∈ scope) (estate q)).
Proof.
  intros Hlabel [Hnd Hne].
  destruct (family_answers (λ s, label_of (s_Metric s) label) id (plain_family q scope)) as [Hall Hsame].
  - intros c [Hc Hin]%family_chunk_in. cbn [plain_family sf_query sf_render sf_scope] in *.
    assert (Forall (λ n, n ≠ "") c) as Hcn by (apply Forall_forall; rewrite Forall_forall in Hne; auto).
    pose proof (RenderScoped_fail_closed q window keys sel c) as Hr.
    destruct (RenderScoped q window keys sel c) as [text|] eqn:E.
    + destruct Hr as (_ & label' & Hl & Hext & _). rewrite Hlabel in Hl. injection Hl as <-.
      rewrite (issueScopedChunk_answers q c None text [(label, normaliseValues c)] E ltac:(done) Hext). f_equal. apply list_filter_iff. intros s.
      unfold selects. rewrite Forall_singleton. cbn [fst snd]. rewrite map_id. by apply elem_of_normalised.
    + destruct Hr as [Hr|Hr]; [congruence|]. by rewrite proper_has_value in Hr.
  - by rewrite map_id.
  - cbn [plain_family sf_query sf_scope] in *. rewrite map_id in Hsame. done.
Qed.
End reads.
