(* ===== verification/ReadPlan.v ===== *)
(** pkg/build/topologyplan.go, claimseed.go and the seed chunking of
    volumelabelscope.go and appscope.go: what one request's root kind reads, the
    seed queries rendered from the request, and the cap that rejects a seed before
    any query is issued. *)

From S2P Require Import Prelude GoStrings PromStrings Selector Queries ScopeChunks PairScope.
From S2P Require Import ScopedRender HarvestScope Fanout StorageScope BuildIdentity VolumeKey.
From S2P Require Import TopologyTypes NameScopes ScopedReads.

#[local] Open Scope ksg_scope.

(** pkg/build/qosscope.go@27-27, [scopeConcurrency] *)
Definition scopeConcurrency : Z := 16.
(** pkg/build/volumelabelscope.go@148-148, [maxRootedVolumeLabelChunks] *)
Definition maxRootedVolumeLabelChunks : Z := scopeConcurrency.
(** pkg/build/appscope.go@21-21, [maxApplicationRootChunks] *)
Definition maxApplicationRootChunks : Z := scopeConcurrency.

(** ** The phase-1 queries of a Harvest seed (volumelabelscope.go) *)

(** pkg/build/volumelabelscope.go@81-93, [phaseOneGroup] *)
Inductive phaseOneGroup := groupAggr | groupSVM | groupNode.

#[export] Instance phaseOneGroup_eq_dec : EqDecision phaseOneGroup.
Proof. solve_decision. Defined.

(** pkg/build/volumelabelscope.go, [rootedVolumeLabelsQuery] *)
Record rootedVolumeLabelsQuery := mkRootedQuery {
  rq_group : phaseOneGroup;
  rq_clusters : list string;
  rq_aggrs : list string;
  rq_svms : list string;
  rq_nodes : list string;
  rq_rendered : string;
}.

(** pkg/build/volumelabelscope.go, [rootedVolumeLabelsQuery.render] *)
Definition rq_render (r : rootedVolumeLabelsQuery) (window : Z) (keys : LabelKeys) (sel : Selector) : option string :=
  match rq_group r with
  | groupSVM => RenderVolumeLabelsSVMRooted window keys sel (rq_clusters r) (rq_svms r)
  | groupNode => RenderVolumeLabelsByNode window keys sel (rq_nodes r)
  | groupAggr => RenderVolumeLabelsRooted window keys sel (rq_clusters r) (rq_aggrs r)
  end.

(** The cap on the queries of one seed. *)
Definition capped {A} (out : list A) : option (list A) :=
  if (maxRootedVolumeLabelChunks <? llen out)%Z then None else Some out.

(** pkg/build/volumelabelscope.go, [rootedNodeLabelChunks] *)
Definition rootedNodeLabelChunks (nodes : list string) (budget : Z) : option (list rootedVolumeLabelsQuery) :=
  capped (map (λ chunk, mkRootedQuery groupNode [] [] [] chunk "") (ChunkScope nodes (Z.max budget 1))).

(** The keys of a map of name lists, in order. *)
Definition sorted_keys (m : gmap string (list string)) : list string := sort_func String.compare (elements (dom m)).

(** pkg/build/volumelabelscope.go, [rootedVolumeLabelsChunks] *)
Definition rootedVolumeLabelsChunks (clusters aggrs svms : list string) (aggrPairs svmPairs : gmap string (list string))
  (budget : Z) : option (list rootedVolumeLabelsQuery) :=
  let fixed := MatcherCost VolumeLabelsClusterLabel clusters in
  let fixed := (if 0 <? fixed then fixed + 1 else fixed)%Z in
  let bare_aggrs := if bool_decide (aggrs = []) then [] else
    map (λ c, mkRootedQuery groupAggr clusters c [] [] "") (ChunkScope aggrs (Z.max (budget - fixed) 1)) in
  let bare_svms := if bool_decide (svms = []) then [] else
    map (λ c, mkRootedQuery groupSVM clusters [] c [] "") (ChunkScope svms (Z.max (budget - fixed) 1)) in
  let only_clusters :=
    if bool_decide (aggrs = []) && bool_decide (svms = []) && bool_decide (aggrPairs = ∅) && bool_decide (svmPairs = ∅)
    then map (λ c, mkRootedQuery groupAggr c [] [] [] "") (ChunkScope clusters budget) else [] in
  let within (m : gmap string (list string)) oc :=
    ChunkScope (default [] (m !! oc)) (Z.max (budget - OwnerCompletionClusterCost oc) 1) in
  let aggr_groups := oc ← sorted_keys aggrPairs;
    map (λ c, mkRootedQuery groupAggr [oc] c [] [] "") (within aggrPairs oc) in
  let svm_groups := oc ← sorted_keys svmPairs;
    map (λ c, mkRootedQuery groupSVM [oc] [] c [] "") (within svmPairs oc) in
  capped (bare_aggrs ++ bare_svms ++ only_clusters ++ aggr_groups ++ svm_groups).

(** ** The plan *)

(** pkg/build/k8spairs.go, [pairChunk] *)
Record pairChunk := mkPairChunk { pc_namespaces : list string; pc_names : list string }.

(** pkg/build/topologyplan.go@114-183, [topologyPlan]: what the request fixes. The rollup and the
    delta switch only pick the rendering of the QoS reads and are left out. *)
Record planRoots := mkPlanRoots {
  kind : StorageRootKind;
  pods : list PodRef;
  skip : list Query;
  byReference : bool;
  nodeRoots : list string;
  volumeClusters : list string;
  volumeAggrs : list string;
  volumeSVMs : list string;
  volumeAggrPairs : gmap string (list string);
  volumeSVMPairs : gmap string (list string);
  volumeNodes : list string;
  claimRoots : list ClaimRef;
  volumeRoots : list string;
  applicationRoots : list string;
  failClosed : bool;
  kubernetesOnly : bool;
}.

(** pkg/build/topologyplan.go@200-218, [topologyPlan]: what [prepare] fills in. *)
Record topologyPlan := mkPlan {
  roots : planRoots;
  phaseOne : list rootedVolumeLabelsQuery;
  resolved : bool;
  nodeSeed : list string;
  nodePrepared : bool;
  podSeed : list string;
  podSeedChunks : list pairChunk;
  podPrepared : bool;
  appPrepared : bool;
  flowlessPrepared : bool;
  claimPrepared : bool;
}.

(** A plan nothing was prepared of. *)
Definition fresh_plan (r : planRoots) : topologyPlan := mkPlan r [] false [] false [] [] false false false false.

(** The zero roots. *)
Definition no_plan_roots : planRoots := mkPlanRoots "" [] [] false [] [] [] [] ∅ ∅ [] [] [] [] false false.

(** pkg/build/topologyplan.go, [fullPlan] *)
Definition fullPlan : topologyPlan := fresh_plan no_plan_roots.

(** pkg/build/topologyplan.go, [storageSkippedLegs] *)
Definition storageSkippedLegs : list Query :=
  [QPodContainerInfo; QServiceInfo; QEndpointSliceEndpoints; QEndpointSliceLabels; QServiceAnnotations; QAppMetadata].

(** pkg/build/topologyplan.go@41-108, [topologyLegs]: the first-wave families and
    whether a query error degrades; the slot is the query's own. *)
Definition topologyLegs (src : bool) : list (Query * bool) :=
  [(QPodInfo, false); (QNodeInfo, false); (QNodeAddresses, false); (QPVCBindings, false); (QNodeLabels, false);
   (QServiceInfo, false); (QEndpointSliceEndpoints, false); (QEndpointSliceLabels, false); (QPodOwner, false);
   (QReplicaSetOwner, false); (QPVCInfo, false); (QVolumeLabels, true); (QPodContainerInfo, true);
   (QNodeStatusCondition, false); (QServiceAnnotations, false); (QPVCAnnotations, false); (QJobOwner, false);
   (QDeploymentAnnotations, false); (QStatefulSetAnnotations, false); (QDaemonSetAnnotations, false);
   (QReplicaSetAnnotations, true); (QJobAnnotations, true); (QCronJobAnnotations, false);
   (QQoSPolicyFixedMaxIOPS, true); (QQoSPolicyFixedMaxMBps, true); (QAggrStatus, true); (QAggrSpaceUsed, true);
   (QAggrSpaceTotal, true); (QNetAppNodeStatus, true); (QNetAppNodeLabels, true); (QNetAppNodeCPUBusy, true);
   (QNetAppNodeTotalOps, true); (QNetAppNodeTotalLatency, true); (QNetAppNodeTotalData, true); (QAlerts, true);
   (QKubeletVolumeUsedBytes, true); (QKubeletVolumeCapacityBytes, true)] ++
  (if src then [(QAppMetadata, true)] else []).

(** pkg/build/topologyplan.go, [k8sSkippedLegs] *)
Definition k8sSkippedLegs : list Query :=
  storageSkippedLegs ++ filter (λ q, FamilyOf q = Some FamilyHarvest) (map fst (topologyLegs false)).

(** pkg/build/expansion.go, [compactPairs] *)
Definition compactPairs (m : gmap string (list string)) : gmap string (list string) :=
  filter (λ cn : string * list string, cn.2 ≠ []) (sortedNames <$> m).

(** pkg/build/topologyplan.go, [qualifiedPairs]: an empty map stands for nil. *)
Definition qualifiedPairs (refs : list ONTAPRef) : gmap string (list string) :=
  compactPairs (foldl (λ m r,
    if bool_decide (or_ONTAPCluster r = "") || bool_decide (or_Name r = "") then m
    else <[or_ONTAPCluster r := default [] (m !! or_ONTAPCluster r) ++ [or_Name r]]> m) ∅ refs).

(** pkg/build/topologyplan.go, [usableClaimRefs] *)
Definition usableClaimRefs (refs : list ClaimRef) : list ClaimRef :=
  compact (sort_func (cmp_lex (on_key cr_Namespace String.compare) (on_key cr_Name String.compare))
    (filter (λ r, cr_Namespace r ≠ "" ∧ cr_Name r ≠ "") refs)).

(** pkg/build/topologyplan.go, [storagePlan] *)
Definition storageRootsPlan (r : StorageRoots) : planRoots :=
  let k := roots_Kind r in
  let names := sortedNames (roots_Names r) in
  let pairs := qualifiedPairs (roots_Qualified r) in
  let when {A} (k' : StorageRootKind) (x : A) (d : A) := if bool_decide (k = k') then x else d in
  mkPlanRoots k (roots_Pods r) storageSkippedLegs true
    (when StorageRootNode names [])
    (when StorageRootONTAPCluster names [])
    (when StorageRootAggr names [])
    (when StorageRootSVM names [])
    (when StorageRootAggr pairs ∅)
    (when StorageRootSVM pairs ∅)
    (when StorageRootONTAPNode names [])
    (when StorageRootPVC (usableClaimRefs (roots_Claims r)) [])
    (when StorageRootPV names [])
    (when StorageRootApplication names [])
    true false.

(** pkg/build/topologyplan.go, [storagePlan] *)
Definition storagePlan (r : StorageRoots) : topologyPlan := fresh_plan (storageRootsPlan r).

(** pkg/build/topologyplan.go, [k8sPlan] *)
Definition k8sPlan (r : StorageRoots) : topologyPlan :=
  let p := storageRootsPlan r in
  fresh_plan (mkPlanRoots (kind p) (pods p) k8sSkippedLegs (byReference p) (nodeRoots p) (volumeClusters p)
    (volumeAggrs p) (volumeSVMs p) (volumeAggrPairs p) (volumeSVMPairs p) (volumeNodes p) (claimRoots p)
    (volumeRoots p) (applicationRoots p) (failClosed p) true).

(** ** What a plan reads *)

(** A list that holds something. *)
Definition some_of {A} (l : list A) : bool := match l with [] => false | _ => true end.

(** pkg/build/topologyplan.go, [topologyPlan.aggrRoots] *)
Definition aggrRoots (r : planRoots) : bool := some_of (volumeAggrs r) || negb (bool_decide (volumeAggrPairs r = ∅)).
(** pkg/build/topologyplan.go, [topologyPlan.svmRoots] *)
Definition svmRoots (r : planRoots) : bool := some_of (volumeSVMs r) || negb (bool_decide (volumeSVMPairs r = ∅)).
(** pkg/build/topologyplan.go, [topologyPlan.harvestSeed] *)
Definition harvestSeed (r : planRoots) : bool :=
  byReference r && (some_of (volumeClusters r) || aggrRoots r || svmRoots r || some_of (volumeNodes r)).
(** pkg/build/topologyplan.go, [topologyPlan.claimSeeded] *)
Definition claimSeeded (r : planRoots) : bool := byReference r && (some_of (claimRoots r) || some_of (volumeRoots r)).
(** pkg/build/topologyplan.go, [topologyPlan.rootedClaims] *)
Definition rootedClaims (p : topologyPlan) : bool := some_of (phaseOne p).

(** pkg/build/topologyplan.go, [topologyPlan.bindingsFromSeed] *)
Definition bindingsFromSeed (r : planRoots) : bool :=
  if bool_decide (kind r = StorageRootNode) then some_of (nodeRoots r)
  else if bool_decide (kind r = StorageRootPod) then some_of (pods r)
  else if bool_decide (kind r = StorageRootApplication) then some_of (applicationRoots r)
  else false.

(** pkg/build/topologyplan.go, [topologyPlan.tracksByReference] *)
Definition tracksByReference (p : topologyPlan) : bool :=
  if negb (byReference (roots p)) then false
  else if harvestSeed (roots p) || rootedClaims p || claimSeeded (roots p) then true
  else bindingsFromSeed (roots p).

(** pkg/build/topologyplan.go, [topologyPlan.issuesFirstWave] *)
Definition issuesFirstWave (r : planRoots) (q : Query) : bool :=
  if bool_decide (q ∈ skip r) then false else if byReference r then bool_decide (q = QAlerts) else true.

(** pkg/build/topologyplan.go, [topologyPlan.issuesBesideSeed] *)
Definition issuesBesideSeed (p : topologyPlan) (q : Query) : bool :=
  if negb (byReference (roots p)) || bool_decide (q ∈ skip (roots p)) || bool_decide (q = QAlerts) then false
  else if bool_decide (q = QVolumeLabels) && harvestSeed (roots p) then true
  else if tracksByReference p then false
  else negb (bool_decide (q ∈ ReferenceScopedQueries)).

(** pkg/build/topologyplan.go, [topologyPlan.readsK8sWorkload] *)
Definition readsK8sWorkload (p : topologyPlan) : bool :=
  kubernetesOnly (roots p) && tracksByReference p && negb (rootedClaims p) && negb (claimSeeded (roots p)).

(** pkg/build/topologyplan.go, [topologyPlan.failsClosed] *)
Definition failsClosed (r : planRoots) (q : Query) : bool := failClosed r && negb (bool_decide (q = QAlerts)).

(** pkg/build/topologyplan.go, [topologyPlan.flowlessAggrGauges] *)
Definition flowlessAggrGauges (r : planRoots) : bool :=
  if negb (byReference r) then false
  else if bool_decide (kind r = StorageRootAggr) then aggrRoots r
  else if bool_decide (kind r = StorageRootONTAPCluster) then some_of (volumeClusters r)
  else false.

(** pkg/build/topologyplan.go, [topologyPlan.flowlessControllers] *)
Definition flowlessControllers (r : planRoots) : bool :=
  if negb (byReference r) then false
  else if bool_decide (kind r = StorageRootAggr) then aggrRoots r
  else if bool_decide (kind r = StorageRootONTAPNode) then some_of (volumeNodes r)
  else if bool_decide (kind r = StorageRootONTAPCluster) then some_of (volumeClusters r)
  else false.

(** ** The claim seed (claimseed.go) *)

(** pkg/build/claimseed.go, [claimSeedGroup] *)
Record claimSeedGroup := mkClaimSeedGroup { csg_namespace : string; csg_label : string; csg_names : list string }.

(** pkg/build/claimseed.go, [topologyPlan.claimSeedGroups] *)
Definition claimSeedGroups (r : planRoots) : list claimSeedGroup :=
  if some_of (claimRoots r) then
    map (λ ns, mkClaimSeedGroup ns ClaimLabel
                 (sortedNames (map cr_Name (filter (λ c, cr_Namespace c = ns) (claimRoots r)))))
      (compact (sort_func String.compare (map cr_Namespace (claimRoots r))))
  else if some_of (volumeRoots r) then [mkClaimSeedGroup "" VolumeNameLabel (volumeRoots r)]
  else [].

(** pkg/build/claimseed.go, [claimSeedGroup.reserve] *)
Definition csg_reserve (g : claimSeedGroup) (keys : LabelKeys) (sel : Selector) : Z :=
  RequestMatcherCost QPVCInfo keys sel +
  (if bool_decide (csg_namespace g = "") then 0 else NamespaceEqualityCost (csg_namespace g)).

(** pkg/build/claimseed.go, [claimSeedGroup.budget] *)
Definition csg_budget (g : claimSeedGroup) (total : Z) (keys : LabelKeys) (sel : Selector) : Z :=
  Z.max 1 (total - csg_reserve g keys sel).

(** pkg/build/claimseed.go, [claimSeedGroup.render] *)
Definition csg_render (g : claimSeedGroup) (window : Z) (keys : LabelKeys) (sel : Selector) (chunk : list string)
  : option string :=
  if bool_decide (csg_namespace g = "") then RenderOnLabel QPVCInfo window keys sel (csg_label g) chunk
  else RenderNamesInNamespace QPVCInfo window keys sel (csg_namespace g) (csg_label g) chunk.

(** pkg/build/claimseed.go, [claimSeedGroup.keep] *)
Definition csg_keep (g : claimSeedGroup) (m : Metric) : bool :=
  let ns := label_of m NamespaceLabel in
  if bool_decide (ns = "") || (negb (bool_decide (csg_namespace g = "")) && negb (bool_decide (ns = csg_namespace g)))
  then false else bool_decide (label_of m (csg_label g) ∈ csg_names g).

(** ** Preparing the seeds *)

(** The rejection of a root past the cap. *)
Definition rejected {A} : result Error A := Err (NewError ReasonInvalidScope RootScopeCapMessage None).

(** pkg/build/topologyplan.go, [podRefNames] *)
Definition podRefNames (refs : list PodRef) : list string := sortedNames (map pr_Name refs).
(** pkg/build/topologyplan.go, [podRefNamespaces] *)
Definition podRefNamespaces (refs : list PodRef) : list string := sortedNames (map pr_Namespace refs).
(** pkg/build/topologyplan.go, [namespacesForNames] *)
Definition namespacesForNames (refs : list PodRef) (names : list string) : list string :=
  podRefNamespaces (filter (λ r, pr_Name r ∈ names) refs).

(** pkg/build/appscope.go, [applicationRootChunks] *)
Definition applicationRootChunks (values : list string) (budget : Z) : list (list string) :=
  ChunkScopeWithOverhead values (Z.max 1 (budget - TrackingIDWrapperCost)) 0.

Section prepare.
Context (window budget : Z) (keys : LabelKeys) (sel : Selector).

(** The phase-1 queries with their text: all of them, or the rejection. *)
Fixpoint render_all (queries : list rootedVolumeLabelsQuery) : option (list rootedVolumeLabelsQuery) :=
  match queries with
  | [] => Some []
  | r :: rest =>
      match rq_render r window keys sel, render_all rest with
      | Some text, Some rest =>
          Some (mkRootedQuery (rq_group r) (rq_clusters r) (rq_aggrs r) (rq_svms r) (rq_nodes r) text :: rest)
      | _, _ => None
      end
  end.

(** pkg/build/topologyplan.go, [topologyPlan.prepareHarvestSeed] *)
Definition prepareHarvestSeed (p : topologyPlan) : result Error topologyPlan :=
  if resolved p then Ok p else
  let done q := mkPlan (roots p) q true (nodeSeed p) (nodePrepared p) (podSeed p) (podSeedChunks p) (podPrepared p)
                  (appPrepared p) (flowlessPrepared p) (claimPrepared p) in
  let r := roots p in
  if negb (harvestSeed r) then Ok (done (phaseOne p)) else
  let budget := (budget - RequestMatcherCost QVolumeLabels keys sel)%Z in
  let queries :=
    if some_of (volumeNodes r) then rootedNodeLabelChunks (volumeNodes r) budget
    else rootedVolumeLabelsChunks (volumeClusters r) (volumeAggrs r) (volumeSVMs r) (volumeAggrPairs r)
           (volumeSVMPairs r) budget in
  match queries ≫= render_all with
  | Some queries => Ok (done queries)
  | None => rejected
  end.

(** pkg/build/topologyplan.go, [topologyPlan.prepareNodeSeed] *)
Definition prepareNodeSeed (p : topologyPlan) : result Error topologyPlan :=
  if nodePrepared p then Ok p else
  let done q := mkPlan (roots p) (phaseOne p) (resolved p) q true (podSeed p) (podSeedChunks p) (podPrepared p)
                  (appPrepared p) (flowlessPrepared p) (claimPrepared p) in
  let r := roots p in
  if negb (bool_decide (kind r = StorageRootNode)) || negb (some_of (nodeRoots r)) then Ok (done (nodeSeed p)) else
  let chunks := ChunkScope (nodeRoots r) (Z.max 1 (budget - RequestMatcherCost QPodInfo keys sel)) in
  if (maxRootedVolumeLabelChunks <? llen chunks)%Z then rejected
  else Ok (done (nodeSeed p ++ omap (RenderPodInfoByNode window keys sel) chunks)).

(** The chunks of a pod root's names, each with the namespaces it needs. *)
Definition pod_seed_chunks (refs : list PodRef) : list pairChunk :=
  let budget := (budget - RequestMatcherCost QPVCBindings keys sel)%Z in
  let nsCost := MatcherCost NamespaceLabel (podRefNamespaces refs) in
  let budget := (if 0 <? nsCost then budget - (nsCost + 1) else budget)%Z in
  map (λ chunk, mkPairChunk (namespacesForNames refs chunk) chunk) (ChunkScope (podRefNames refs) (Z.max 1 budget)).

(** The rendering of one of them. *)
Definition render_pod_seed (c : pairChunk) : option (string * pairChunk) :=
  (λ text, (text, c)) <$> RenderClaimBindingsByPod window keys sel (pc_namespaces c) (pc_names c).

(** pkg/build/topologyplan.go, [topologyPlan.preparePodSeed] *)
Definition preparePodSeed (p : topologyPlan) : result Error topologyPlan :=
  if podPrepared p then Ok p else
  let done q cs := mkPlan (roots p) (phaseOne p) (resolved p) (nodeSeed p) (nodePrepared p) q cs true
                     (appPrepared p) (flowlessPrepared p) (claimPrepared p) in
  let r := roots p in
  if negb (bool_decide (kind r = StorageRootPod)) || negb (some_of (pods r)) then Ok (done (podSeed p) (podSeedChunks p)) else
  let chunks := pod_seed_chunks (pods r) in
  if (maxRootedVolumeLabelChunks <? llen chunks)%Z then rejected
  else let rendered := omap render_pod_seed chunks in
       Ok (done (podSeed p ++ map fst rendered) (podSeedChunks p ++ map snd rendered)).

(** The chunks of the claim seed's groups. *)
Definition claim_seed_chunks (r : planRoots) : Z :=
  foldl Z.add 0%Z (map (λ g, llen (ChunkScope (csg_names g) (csg_budget g budget keys sel))) (claimSeedGroups r)).

(** pkg/build/topologyplan.go, [topologyPlan.prepareClaimSeed] *)
Definition prepareClaimSeed (p : topologyPlan) : result Error topologyPlan :=
  if claimPrepared p then Ok p else
  let p' := mkPlan (roots p) (phaseOne p) (resolved p) (nodeSeed p) (nodePrepared p) (podSeed p) (podSeedChunks p)
              (podPrepared p) (appPrepared p) (flowlessPrepared p) true in
  if negb (claimSeeded (roots p)) then Ok p' else
  if (maxRootedVolumeLabelChunks <? claim_seed_chunks (roots p))%Z then rejected else Ok p'.

(** pkg/build/topologyplan.go, [topologyPlan.prepareApplicationSeed] *)
Definition prepareApplicationSeed (p : topologyPlan) : result Error topologyPlan :=
  if appPrepared p then Ok p else
  let p' := mkPlan (roots p) (phaseOne p) (resolved p) (nodeSeed p) (nodePrepared p) (podSeed p) (podSeedChunks p)
              (podPrepared p) true (flowlessPrepared p) (claimPrepared p) in
  let r := roots p in
  if negb (bool_decide (kind r = StorageRootApplication)) || negb (some_of (applicationRoots r)) then Ok p' else
  if (maxApplicationRootChunks <? llen (applicationRootChunks (applicationRoots r) budget))%Z then rejected else Ok p'.

(** The bare names and the qualified pairs of a flowless gauge read. *)
Definition flowless_scope (r : planRoots) : option (list string * gmap string (list string)) :=
  if bool_decide (kind r = StorageRootAggr) && aggrRoots r then Some (volumeAggrs r, volumeAggrPairs r)
  else if bool_decide (kind r = StorageRootONTAPNode) && some_of (volumeNodes r) then Some (volumeNodes r, ∅)
  else if bool_decide (kind r = StorageRootONTAPCluster) && some_of (volumeClusters r) then Some (volumeClusters r, ∅)
  else None.

(** pkg/build/topologyplan.go, [topologyPlan.prepareFlowless] *)
Definition prepareFlowless (p : topologyPlan) : result Error topologyPlan :=
  if flowlessPrepared p then Ok p else
  let p' := mkPlan (roots p) (phaseOne p) (resolved p) (nodeSeed p) (nodePrepared p) (podSeed p) (podSeedChunks p)
              (podPrepared p) (appPrepared p) true (claimPrepared p) in
  match flowless_scope (roots p) with
  | None => Ok p'
  | Some (names, pairs) =>
      let qualified := llen (ChunkHarvestPairs QAggrStatus keys sel pairs budget) in
      let bare := if some_of names
                  then llen (ChunkScope names (Z.max 1 (budget - RequestMatcherCost QAggrStatus keys sel))) else 0%Z in
      if (maxRootedVolumeLabelChunks <? qualified + bare)%Z then rejected else Ok p'
  end.

(** pkg/build/topologyplan.go, [topologyPlan.prepare] *)
Definition prepare (p : topologyPlan) : result Error topologyPlan :=
  p <-! prepareHarvestSeed p;
  p <-! prepareNodeSeed p;
  p <-! preparePodSeed p;
  p <-! prepareClaimSeed p;
  p <-! prepareApplicationSeed p;
  prepareFlowless p.
End prepare.
