(* ===== verification/K8sRead.v ===== *)
(** pkg/build/k8spairs.go, k8scontrollers.go, k8sworkload.go: the whole read of a
    Kubernetes-only build for a pod or node root. Rows of known pods and claims
    are read by namespaced pairs, cross pairs dropped afterwards; the controller
    state remembers which names each family has been asked for. *)

From stdpp Require Import pretty.
From S2P Require Import Prelude GoStrings PromStrings Selector Queries ScopeChunks PairScope.
From S2P Require Import ScopedRender AppMetadata Fanout StorageScope BuildIdentity VolumeKey.
From S2P Require Import TopologyTypes NameScopes ScopedReads ReadPlan.

#[local] Open Scope ksg_scope.

(** ** Reads by pairs (k8spairs.go) *)

(** pkg/build/k8spairs.go, [chunksOfPairs] *)
Definition chunksOfPairs (pairs : list NamePair) (label : string) (budget : Z) : list pairChunk :=
  map (λ c, mkPairChunk (map Namespace c) (map Name c)) (ChunkNamePairs pairs label budget).

(** pkg/build/k8spairs.go@49-55, [pairRead]: [pr_chunks] is [None] when the pairs
    are chunked by the read itself. *)
Record pairRead := mkPairRead {
  prd_query : Query;
  prd_label : string;
  prd_pairs : list NamePair;
  prd_chunks : option (list pairChunk);
}.

(** pkg/build/k8spairs.go@60-65, [nameRead]: its rows are appended to the slot of
    its query. *)
Record nameRead := mkNameRead { nrd_query : Query; nrd_scope : list string }.

(** pkg/build/k8scontrollers.go@31-37, [controllerReads] *)
Record controllerReads := mkControllerReads {
  requested : gmap string (gset string);
  directDeployments : list string;
  directCronJobs : list string;
}.

(** No controller read yet. *)
Definition no_controllers : controllerReads := mkControllerReads ∅ [] [].

(** pkg/build/k8scontrollers.go, [controllerReads.unrequested] *)
Definition unrequested (c : controllerReads) (q : Query) (names : list string) : list string * controllerReads :=
  let seen := default ∅ (requested c !! q) in
  let out := filter (λ n, n ∉ seen) (sortedNames names) in
  (out, mkControllerReads (<[q := list_to_set out ∪ seen]> (requested c)) (directDeployments c) (directCronJobs c)).

(** pkg/build/k8scontrollers.go, [controllerReads.nonEmpty] *)
Definition nonEmptyReads (reads : list nameRead) : list nameRead := filter (λ r, nrd_scope r ≠ []) reads.

(** Asking several families in turn. *)
Definition ask_all (c : controllerReads) (wanted : list (Query * list string)) : list nameRead * controllerReads :=
  foldl (λ st qn, let '(out, c) := unrequested st.2 qn.1 qn.2 in (st.1 ++ [mkNameRead qn.1 out], c)) ([], c) wanted.

(** pkg/build/k8scontrollers.go, [controllerReads.firstStage] *)
Definition firstStage (c : controllerReads) (podOwner : list Sample) : list nameRead * controllerReads :=
  let byKind := controllerScope podOwner in
  let c := mkControllerReads (requested c) (directDeployments c ++ byKind "Deployment")
             (directCronJobs c ++ byKind "CronJob") in
  let '(reads, c) := ask_all c [
    (QReplicaSetOwner, byKind "ReplicaSet");
    (QReplicaSetAnnotations, byKind "ReplicaSet");
    (QJobOwner, byKind "Job");
    (QJobAnnotations, byKind "Job");
    (QStatefulSetAnnotations, byKind "StatefulSet");
    (QDaemonSetAnnotations, byKind "DaemonSet");
    (QDeploymentAnnotations, byKind "Deployment" ++ withoutFinalSegment (byKind "ReplicaSet"));
    (QCronJobAnnotations, byKind "CronJob" ++ withoutFinalSegment (byKind "Job"))] in
  (nonEmptyReads reads, c).

(** pkg/build/k8scontrollers.go, [controllerReads.secondStage] *)
Definition secondStage (c : controllerReads) (v : landed) : list nameRead * controllerReads :=
  let '(reads, c) := ask_all c [
    (QDeploymentAnnotations, deploymentScope (directDeployments c) (rows_of v QReplicaSetOwner));
    (QCronJobAnnotations, cronJobScope (directCronJobs c) (rows_of v QJobOwner))] in
  (nonEmptyReads reads, c).

(** pkg/build/k8spairs.go, [commitNameReads] *)
Definition commitNameReads (v : landed) (reads : list nameRead) (rows : list (list Sample)) : landed :=
  foldl (λ v rr, <[nrd_query rr.1 := rows_of v (nrd_query rr.1) ++ rr.2]> v) v (zip reads rows).

(** ** The pod sets (k8sworkload.go) *)

(** pkg/build/k8sworkload.go@89-93, [podSet] *)
Record podSet := mkPodSet { ps_keyed : bool; ps_keys : gset podSeriesKey; ps_refs : gset NamePair }.

(** pkg/build/k8sworkload.go, [newPodSet] *)
Definition newPodSet (keyed : bool) : podSet := mkPodSet keyed ∅ ∅.

(** The pair a pod key names. *)
Definition key_pair (k : podSeriesKey) : NamePair := mkNamePair (psk_namespace k) (psk_pod k).

(** pkg/build/k8sworkload.go, [podSet.has] *)
Definition ps_has (s : podSet) (k : podSeriesKey) : bool :=
  if ps_keyed s then bool_decide (k ∈ ps_keys s) else bool_decide (key_pair k ∈ ps_refs s).

(** pkg/build/k8sworkload.go, [podSet.add] *)
Definition ps_add (s : podSet) (k : podSeriesKey) : podSet :=
  if ps_keyed s then mkPodSet (ps_keyed s) ({[k]} ∪ ps_keys s) (ps_refs s)
  else mkPodSet (ps_keyed s) (ps_keys s) ({[key_pair k]} ∪ ps_refs s).

(** pkg/build/k8sworkload.go, [podSet.empty] *)
Definition ps_empty (s : podSet) : bool := bool_decide (ps_keys s = ∅) && bool_decide (ps_refs s = ∅).

(** pkg/build/k8sworkload.go, [podSet.merge] *)
Definition ps_merge (s o : podSet) : podSet :=
  mkPodSet (ps_keyed s) (ps_keys o ∪ ps_keys s) (ps_refs o ∪ ps_refs s).

(** pkg/build/k8sworkload.go, [podSet.pairs] *)
Definition ps_pairs (s : podSet) : list NamePair :=
  SortedNamePairs (elements (ps_refs s) ++ map key_pair (elements (ps_keys s))).

(** pkg/build/k8sworkload.go, [podSet.keepRows] *)
Definition ps_keepRows (s : podSet) (rows : list Sample) (keys : LabelKeys) : list Sample :=
  filter (λ row, ps_has s (podSeriesKeyOf (s_Metric row) keys) = true) rows.

(** pkg/build/k8sworkload.go, [namePairsOf] *)
Definition namePairsOf (rows : list Sample) (label : string) : list NamePair :=
  map (λ s, row_pair s_Metric label s) (filter (λ s, label_of (s_Metric s) label ≠ "") rows).

(** ** Application metadata (appmetadata_scope.go) *)

(** pkg/build/appmetadata_scope.go, [appMetadataRestrictionReserve] *)
Definition appMetadataRestrictionReserve (label : string) (matcherCost : Z) : Z :=
  (if 0 <? matcherCost then matcherCost + 1 else matcherCost)%Z + (len label + wrap_len)%Z.

(** pkg/build/appmetadata_scope.go, [clusterNamespace] *)
Record clusterNamespace := mkClusterNamespace { cn_cluster : string; cn_namespace : string }.

(** pkg/build/appmetadata_scope.go, [appendClusterNamespaces] *)
Definition appendClusterNamespaces (dst : list clusterNamespace) (rows : list Sample) : list clusterNamespace :=
  dst ++ map (λ s, mkClusterNamespace (bucketCluster (label_of (s_Metric s) "cluster"))
                     (label_of (s_Metric s) NamespaceLabel)) rows.

(** pkg/build/appmetadata_scope.go, [appMetadataScopesOf]: each cluster with its
    namespaces. *)
Definition appMetadataScopesOf (pairs : list clusterNamespace) : list (string * list string) :=
  filter (λ cn, cn.2 ≠ [])
    (map (λ c, (c, sortedNames (map cn_namespace (filter (λ p, cn_cluster p = c) pairs))))
       (compact (sort_func String.compare (map cn_cluster pairs)))).

(** ** The rounds (k8sworkload.go) *)

(** What a Kubernetes-only read threads through its rounds: what landed, the
    controllers asked for, the nodes asked for. *)
Record k8sState := mkK8sState { k_v : landed; k_ctrl : controllerReads; k_nodesRead : gset string }.

Section k8s.
Context `{Querier} `{Scheduler}.
Context (window : Z) (opts : Options) (sel : Selector) (plan : topologyPlan).

#[local] Abbreviation keys := (opt_LabelKeys opts).
#[local] Abbreviation lk := (OrDefault keys).

(** pkg/build/appmetadata_scope.go, [appMetadataServed] *)
Definition appMetadataServed : bool :=
  match FamilyServer with Some serves => serves FamilyAppMeta | None => true end.

(** pkg/build/appmetadata_scope.go, [appMetadataActive] *)
Definition appMetadataActive : option AppMetadataSource :=
  match opt_AppMetadata opts with
  | Some src => if bool_decide (am_Namespace src = "") || negb appMetadataServed then None else Some src
  | None => None
  end.

(** The restricted read of one cluster. *)
Definition app_metadata_family (src : AppMetadataSource) (sc : string * list string) : scopedFamily :=
  mkScopedFamily QAppMetadata sc.2 (Some (RenderAppMetadataByNamespace src window keys sel sc.1)) 0
    (appMetadataRestrictionReserve (am_Namespace src) (AppMetadataClusterMatcherCost src keys sel sc.1)).

(** pkg/build/appmetadata_scope.go, [issueAppMetadata] *)
Definition issueAppMetadata (src : AppMetadataSource) (scopes : list (string * list string))
  : result readError (list Sample) :=
  out <-! issueScopedFamilies window opts sel (map (app_metadata_family src) scopes);
  Ok (mjoin (map (default []) out)).

(** pkg/build/k8spairs.go, [k8sRead.pairBudget] *)
Definition pairBudget (q : Query) : Z := Z.max (qosScopeBatchBytes opts - RequestMatcherCost q keys sel) 1.

(** The chunks a pair read issues. *)
Definition pair_chunks (r : pairRead) : list pairChunk :=
  match prd_chunks r with
  | Some cs => cs
  | None => if bool_decide (prd_pairs r = []) then [] else chunksOfPairs (prd_pairs r) (prd_label r) (pairBudget (prd_query r))
  end.

(** The answers of its chunks. *)
Definition pair_parts (r : pairRead) : list (result readError (list Sample)) :=
  map (λ c, issueScopedChunk window opts sel (prd_query r) []
              (Some (λ _, RenderNamesAcrossNamespaces (prd_query r) window keys sel (prd_label r)
                            (pc_namespaces c) (pc_names c)))) (pair_chunks r).

(** pkg/build/k8spairs.go, [k8sRead.issuePairReads] *)
Definition issuePairReads (reads : list pairRead) : result readError (list (list Sample)) :=
  wave (mjoin (map pair_parts reads)) (map (λ r, mjoin (map answered (pair_parts r))) reads).

(** pkg/build/k8spairs.go, [k8sRead.issueNameReads] *)
Definition issueNameReads (reads : list nameRead) : result readError (list (list Sample)) :=
  out <-! issueScopedFamilies window opts sel (map (λ r, plain_family (nrd_query r) (nrd_scope r)) reads);
  Ok (map (default []) out).

(** The error of a read that ran beside others. *)
Definition err_of {A} (r : result readError A) : list readError := match r with Ok _ => [] | Err e => [e] end.
(** What a read that ran beside others returned. *)
Definition got {A} (d : A) (r : result readError A) : A := match r with Ok a => a | Err _ => d end.

(** pkg/build/k8spairs.go, [k8sRead.parallel]: [out] once every read of the round
    returned. *)
Definition parallel {B} (errs : list readError) (out : B) : result readError B :=
  match errs with [] => Ok out | e :: es => Err (first_failed e es) end.

(** pkg/build/k8spairs.go, [k8sRead.keepRequestedPairs] *)
Definition keepRequestedPairs (rows : list Sample) (label : string) (pairs : list NamePair) : list Sample :=
  KeepNamePairs s_Metric rows label pairs.

(** pkg/build/k8sworkload.go, [k8sRead.appMetadataScopes] *)
Definition k8sAppMetadataScopes (rootInfo : list Sample) (tracked : gset claimKey) : list (string * list string) :=
  match appMetadataActive with
  | None => []
  | Some _ =>
      appMetadataScopesOf (appendClusterNamespaces [] rootInfo ++
        map (λ k, mkClusterNamespace (ck_cluster k) (ck_namespace k)) (elements tracked))
  end.

(** pkg/build/k8sworkload.go, [k8sRead.nodeReads] *)
Definition nodeReads (nodesRead : gset string) (pods : list Sample) (roots : list string) : list nameRead * gset string :=
  let scope := filter (λ n, n ∉ nodesRead) (nodeScope pods roots) in
  (if bool_decide (scope = []) then [] else map (λ q, mkNameRead q scope) nodeTargets,
   list_to_set scope ∪ nodesRead).

(** The claim families of the fan-out. *)
Definition k8sClaimTargets : list Query :=
  [QPVCBindings; QPVCInfo; QPVCAnnotations; QKubeletVolumeUsedBytes; QKubeletVolumeCapacityBytes].

(** The pairs of the tracked claims. *)
Definition claim_pairs (tracked : gset claimKey) : list NamePair :=
  SortedNamePairs (map (λ k, mkNamePair (ck_namespace k) (ck_claim k)) (elements tracked)).

(** pkg/build/k8sworkload.go, [k8sRead.fanOut] *)
Definition fanOut (tracked : gset claimKey) (rootInfo rootOwner : list Sample) (st : k8sState) : result readError k8sState :=
  let pairs := claim_pairs tracked in
  let claimReads := if bool_decide (pairs = []) then []
                    else map (λ q, mkPairRead q ClaimLabel pairs None) k8sClaimTargets in
  let scopes := k8sAppMetadataScopes rootInfo tracked in
  let '(nodes, nodesRead) := nodeReads (k_nodesRead st) rootInfo (nodeRoots (roots plan)) in
  let '(controllers, ctrl) := firstStage (k_ctrl st) rootOwner in
  let claimRows := issuePairReads claimReads in
  let appRows := match appMetadataActive, scopes with
                 | Some src, _ :: _ => issueAppMetadata src scopes
                 | _, _ => Ok []
                 end in
  let nodeRows := issueNameReads nodes in
  let controllerRows := issueNameReads controllers in
  parallel (err_of claimRows ++ err_of appRows ++ err_of nodeRows ++ err_of controllerRows)
    (let v := foldl (λ v rr, <[prd_query rr.1 := keepRows rr.2 (isTracked opts tracked)]> v) (k_v st)
                (zip claimReads (got [] claimRows)) in
     let v := if some_of scopes then <[QAppMetadata := got [] appRows]> v else v in
     let v := commitNameReads v nodes (got [] nodeRows) in
     let v := commitNameReads v controllers (got [] controllerRows) in
     mkK8sState v ctrl nodesRead).

(** pkg/build/k8sworkload.go, [k8sRead.freshMounters] *)
Definition freshMounters (bindings : list Sample) (loaded : podSet) : podSet :=
  foldl (λ fresh s,
    let k := podSeriesKeyOf (s_Metric s) lk in
    if bool_decide (bindingClaim (s_Metric s) = "") || bool_decide (psk_pod k = "") || ps_has loaded k then fresh
    else ps_add fresh k) (newPodSet (ps_keyed loaded)) bindings.

(** pkg/build/k8sworkload.go, [k8sRead.completeMounters] *)
Definition completeMounters (loaded : podSet) (st : k8sState) : result readError k8sState :=
  let fresh := freshMounters (rows_of (k_v st) QPVCBindings) loaded in
  let '(second, ctrl) := secondStage (k_ctrl st) (k_v st) in
  if ps_empty fresh && bool_decide (second = []) then Ok (mkK8sState (k_v st) ctrl (k_nodesRead st)) else
  let pairs := ps_pairs fresh in
  let podRows := issuePairReads [mkPairRead QPodInfo PodLabel pairs None; mkPairRead QPodOwner PodLabel pairs None] in
  let secondRows := issueNameReads second in
  v <-! parallel (err_of podRows ++ err_of secondRows) (commitNameReads (k_v st) second (got [] secondRows));
  if ps_empty fresh then Ok (mkK8sState v ctrl (k_nodesRead st)) else
  let rows := got [] podRows in
  let info := ps_keepRows fresh (default [] (rows !! 0%nat)) lk in
  let owner := ps_keepRows fresh (default [] (rows !! 1%nat)) lk in
  let v := <[QPodInfo := rows_of v QPodInfo ++ info]> v in
  let v := <[QPodOwner := rows_of v QPodOwner ++ owner]> v in
  let '(nodes, nodesRead) := nodeReads (k_nodesRead st) info [] in
  let '(controllers, ctrl) := firstStage ctrl owner in
  let nodeRows := issueNameReads nodes in
  let controllerRows := issueNameReads controllers in
  v <-! parallel (err_of nodeRows ++ err_of controllerRows)
    (commitNameReads (commitNameReads v nodes (got [] nodeRows)) controllers (got [] controllerRows));
  let '(tail, ctrl) := secondStage ctrl v in
  tailRows <-! issueNameReads tail;
  Ok (mkK8sState (commitNameReads v tail tailRows) ctrl nodesRead).

(** pkg/build/k8sworkload.go, [k8sRead.fromRoots] *)
Definition fromRoots (rootInfo rootOwner bindings : list Sample) (loaded : podSet) (st : k8sState)
  : result readError k8sState :=
  let st := mkK8sState (<[QPodOwner := rootOwner]> (<[QPodInfo := rootInfo]> (k_v st))) (k_ctrl st) (k_nodesRead st) in
  st <-! fanOut (trackedClaimKeys opts bindings) rootInfo rootOwner st;
  completeMounters loaded st.

(** pkg/build/k8sworkload.go, [k8sRead.nodeRoot] *)
Definition nodeRoot (st : k8sState) : result readError k8sState :=
  onNode <-! instantAll QPodInfo (nodeSeed plan);
  let seed := namePairsOf onNode PodLabel in
  if bool_decide (seed = []) then fromRoots [] [] [] (newPodSet true) st else
  rows <-! issuePairReads [mkPairRead QPodInfo PodLabel seed None; mkPairRead QPVCBindings PodLabel seed None;
                           mkPairRead QPodOwner PodLabel seed None];
  let incarnation := default [] (rows !! 0%nat) in
  let byPod := default [] (rows !! 1%nat) in
  let owners := default [] (rows !! 2%nat) in
  let onRoot := podsNewestOn incarnation (nodeRoots (roots plan)) lk in
  fromRoots (keepPodRows incarnation onRoot lk) (keepPodRows owners onRoot lk) (keepPodBindings byPod onRoot lk)
    (mkPodSet true onRoot ∅) st.

(** The pair a pod reference names. *)
Definition ref_pair (r : PodRef) : NamePair := mkNamePair (pr_Namespace r) (pr_Name r).

(** pkg/build/k8sworkload.go, [k8sRead.podRoot] *)
Definition podRoot (st : k8sState) : result readError k8sState :=
  let chunks := podSeedChunks plan in
  rows <-! issuePairReads [mkPairRead QPVCBindings PodLabel [] (Some chunks); mkPairRead QPodInfo PodLabel [] (Some chunks);
                           mkPairRead QPodOwner PodLabel [] (Some chunks)];
  let refs := map ref_pair (pods (roots plan)) in
  fromRoots (keepRequestedPairs (default [] (rows !! 1%nat)) PodLabel refs)
    (keepRequestedPairs (default [] (rows !! 2%nat)) PodLabel refs)
    (keepRootBindings (default [] (rows !! 0%nat)) (pods (roots plan)))
    (mkPodSet false ∅ (list_to_set refs)) st.

(** pkg/build/k8sworkload.go, [readK8sWorkload]: [quote] is the verb [%q]. *)
Definition readK8sWorkload (quote : string → string) (v : landed) : result readError landed :=
  let st := mkK8sState v no_controllers ∅ in
  st <-! (if bool_decide (kind (roots plan) = StorageRootNode) then nodeRoot st
          else if bool_decide (kind (roots plan) = StorageRootPod) then podRoot st
          else Err (own_error ("k8s workload read: unsupported root kind " +:+ quote (kind (roots plan)))));
  Ok (k_v st).
End k8s.
