(* ===== verification/VolumeLabelScope.v ===== *)
(** pkg/build/volumelabelscope.go: the rooted volume-label read of a storage
    build. Phase 1 reads the family from the request's roots, owner completion
    re-reads whole the aggregates an SVM group only saw a share of, phase 2 reads
    the candidates of the claims phase 1 matched; the three are merged by label
    set. Panic recovery and logs are left out. *)

From S2P Require Import Prelude GoStrings Selector Queries ScopeChunks HarvestScope PairScope.
From S2P Require Import ScopedRender.
From S2P Require Import Fanout StorageScope BuildIdentity VolumeKey TopologyTypes NetApp.
From S2P Require Import NameScopes.
From S2P Require Import ScopedReads ReadPlan K8sRead.

#[local] Open Scope ksg_scope.

(** The filer, the aggregate and the node of a volume-label row. *)
Definition row_filer (s : Sample) : string := label_of (s_Metric s) VolumeLabelsClusterLabel.
Definition row_aggr (s : Sample) : string := label_of (s_Metric s) "aggr".
Definition row_node (s : Sample) : string := label_of (s_Metric s) "node".

(** Filers, each with names. *)
Abbreviation FilerNames := (gmap string (list string)).

(** Filing a name under its filer. *)
Definition file_name (m : FilerNames) (filer name : string) : FilerNames :=
  <[filer := default [] (m !! filer) ++ [name]]> m.

(** The sorted, distinct names of each filer. *)
Definition sort_names (m : FilerNames) : FilerNames := (λ l, compact (sort_func String.compare l)) <$> m.

(** ** Scopes *)

(** pkg/build/volumelabelscope.go, [matchedClaimTokens] *)
Definition matchedClaimTokens (pvcInfo phaseOne : list Sample) (rw : VolumeKeyRewriter) : list string :=
  if bool_decide (pvcInfo = []) || bool_decide (phaseOne = []) then [] else
  match claimVolumeMatcher pvcInfo rw with
  | None => []
  | Some (claims, m) =>
      let matchedClaim : gset nat :=
        list_to_set (mjoin (map (λ s, vm_match m (label_of (s_Metric s) HarvestVolumeLabel))
          (filter (λ s, label_of (s_Metric s) HarvestVolumeLabel ≠ "") phaseOne))) in
      compact (sort_func String.compare
        (filter (λ t, t ≠ "") (omap (λ ci, if bool_decide (ci ∈ matchedClaim) then tokens m !! ci else None)
                                 (seq 0 (length claims)))))
  end.

(** pkg/build/volumelabelscope.go, [tokensOfClaims] *)
Definition tokensOfClaims (pvcInfo : list Sample) (rw : VolumeKeyRewriter) : list string :=
  match claimVolumeMatcher pvcInfo rw with
  | None => []
  | Some (_, m) => compact (sort_func String.compare (filter (λ t, t ≠ "") (tokens m)))
  end.

(** pkg/build/volumelabelscope.go, [aggregatesTouched] *)
Definition aggregatesTouched (rows : list Sample) : FilerNames :=
  sort_names (foldl (λ m s,
    if bool_decide (row_filer s = "") || bool_decide (row_aggr s = "") then m
    else file_name m (row_filer s) (row_aggr s)) ∅ rows).

(** pkg/build/volumelabelscope.go, [rowsOwnedBy]: the owner of an aggregate no
    row votes for reads as the empty name. *)
Definition owner_votes (rows : list Sample) : gmap (string * string) string :=
  foldl (λ m s,
    let k := (row_filer s, row_aggr s) in
    if bool_decide (row_filer s = "") || bool_decide (row_aggr s = "") || bool_decide (row_node s = "") then m
    else match m !! k with
         | Some cur => if str_lt (row_node s) cur then <[k := row_node s]> m else m
         | None => <[k := row_node s]> m
         end) ∅ rows.

(** pkg/build/volumelabelscope.go, [rowsOwnedBy] *)
Definition rowsOwnedBy (rows : list Sample) (rs : list string) : list Sample :=
  filter (λ s, default "" (owner_votes rows !! (row_filer s, row_aggr s)) ∈ rs) rows.

(** The closure [readWhole] of [ownerCompletionTargets]. *)
Definition readWhole (r : planRoots) (filer aggr : string) : bool :=
  if bool_decide (aggr ∈ default [] (volumeAggrPairs r !! filer)) then true
  else if negb (bool_decide (aggr ∈ volumeAggrs r)) then false
  else bool_decide (volumeClusters r = []) || bool_decide (filer ∈ volumeClusters r).

(** pkg/build/volumelabelscope.go, [ownerCompletionTargets] *)
Definition ownerCompletionTargets (svmRows : list Sample) (r : planRoots) : FilerNames :=
  sort_names (foldl (λ m s,
    if bool_decide (row_aggr s = "") || bool_decide (row_filer s = "") || readWhole r (row_filer s) (row_aggr s) then m
    else file_name m (row_filer s) (row_aggr s)) ∅ svmRows).

(** pkg/build/volumelabelscope.go, [withoutTargets] *)
Definition withoutTargets (want done : FilerNames) : FilerNames :=
  filter (λ kv : string * list string, kv.2 ≠ [])
    (map_imap (λ c aggrs, Some (filter (λ a, a ∉ default [] (done !! c)) aggrs)) want).

Section reads.
Context `{Querier} `{Scheduler} `{MetricFingerprint}.
Context (window : Z) (opts : Options) (sel : Selector).

#[local] Abbreviation keys := (opt_LabelKeys opts).

(** ** Merging *)

(** pkg/build/volumelabelscope.go, [mergeVolumeLabels] *)
Definition mergeVolumeLabels (base extra : list Sample) : list Sample :=
  if bool_decide (extra = []) then base else
  (foldl (λ st s,
     let fp := fingerprint (s_Metric s) in
     if bool_decide (fp ∈ st.2) then st else (st.1 ++ [s], {[fp]} ∪ st.2))
   (base, list_to_set (map (λ s, fingerprint (s_Metric s)) base) : gset Z) extra).1.

(** ** Issuing *)

(** One query of the family. *)
Definition ask_volume_labels (text : string) : result readError (list Sample) :=
  match Instant QVolumeLabels text with
  | Ok rows => Ok rows
  | Err e => Err (default e (wrapQueryError QVolumeLabels (Some e)))
  end.

(** pkg/build/volumelabelscope.go, [issueVolumeLabelsParts] *)
Definition issueVolumeLabelsParts (rendered : list string) : result readError (list (list Sample)) :=
  let parts := map ask_volume_labels rendered in
  wave parts (map answered parts).

(** pkg/build/volumelabelscope.go, [issueVolumeLabelsQueries] *)
Definition issueVolumeLabelsQueries (rendered : list string) : result readError (list Sample) :=
  parts <-! issueVolumeLabelsParts rendered;
  Ok (mjoin parts).

(** The rows of the queries of a group. *)
Definition group_rows (svm : bool) (queries : list rootedVolumeLabelsQuery) (parts : list (list Sample)) : list Sample :=
  mjoin (map snd (filter (λ qp : rootedVolumeLabelsQuery * list Sample, bool_decide (rq_group qp.1 = groupSVM) = svm)
                    (zip queries parts))).

(** pkg/build/volumelabelscope.go, [readRootedVolumeLabels]: the merged rows and
    the SVM group's. *)
Definition readRootedVolumeLabels (queries : list rootedVolumeLabelsQuery) : result readError (list Sample * list Sample) :=
  parts <-! issueVolumeLabelsParts (map rq_rendered queries);
  let aggrRows := group_rows false queries parts in
  let svmGroup := group_rows true queries parts in
  Ok (mergeVolumeLabels aggrRows svmGroup, svmGroup).

(** The chunks of one filer's targets, rendered. *)
Definition completion_queries (filer : string) (aggrs : list string) : list string :=
  let budget := Z.max (qosScopeBatchBytes opts - RequestMatcherCost QVolumeLabels keys sel
                       - OwnerCompletionClusterCost filer) 1 in
  omap (RenderVolumeLabelsOwnerCompletion window keys sel filer) (ChunkScope aggrs budget).

(** pkg/build/volumelabelscope.go, [readOwnerCompletion] *)
Definition readOwnerCompletion (targets : FilerNames) : result readError (list Sample) :=
  if bool_decide (targets = ∅) then Ok [] else
  issueVolumeLabelsQueries
    (mjoin (map (λ c, completion_queries c (default [] (targets !! c))) (sorted_keys targets))).

(** pkg/build/volumelabelscope.go, [readONTAPNodeVolumeLabels]: the rows of the
    aggregates the roots own; the SVM group is empty. *)
Definition readONTAPNodeVolumeLabels (plan : topologyPlan) : result readError (list Sample * list Sample) :=
  seeded <-! issueVolumeLabelsQueries (map rq_rendered (phaseOne plan));
  completed <-! readOwnerCompletion (aggregatesTouched seeded);
  Ok (rowsOwnedBy (mergeVolumeLabels seeded completed) (volumeNodes (roots plan)), []).

(** The renderings of the token chunks; the size of the first chunk that has
    none. *)
Fixpoint render_tokens (excludeClusters : list string) (chunks : list (list string)) : result nat (list string) :=
  match chunks with
  | [] => Ok []
  | c :: rest =>
      match RenderVolumeLabelsTokenScoped window keys sel c true excludeClusters with
      | None => Err (length c)
      | Some text => match render_tokens excludeClusters rest with Ok texts => Ok (text :: texts) | Err n => Err n end
      end
  end.

(** pkg/build/volumelabelscope.go, [issueTokenVolumeLabels] *)
Definition issueTokenVolumeLabels (toks excludeClusters : list string) : result readError (list Sample) :=
  if bool_decide (toks = []) then Ok [] else
  match render_tokens excludeClusters (ChunkSuffixTokenScope toks (qosScopeBatchBytes opts)) with
  | Err n => Err (own_error (QVolumeLabels +:+ ": no token-scoped rendering for " +:+ pretty.pretty n +:+ " tokens"))
  | Ok rendered => issueVolumeLabelsQueries rendered
  end.

(** ** The tail of the hub's read *)

(** pkg/build/volumekey.go, [Options.volumeKey]: the default rules compile, or the
    program panics when it starts. *)
Definition rewriter `{RegexpCompile} : VolumeKeyRewriter :=
  match opt_VolumeKey opts with
  | Some rw => rw
  | None => match NewVolumeKeyRewriter None with Ok rw => rw | Err _ => [] end
  end.

(** pkg/build/volumelabelscope.go, [readTokenScopedVolumeLabels] *)
Definition readTokenScopedVolumeLabels (rw : VolumeKeyRewriter) (plan : topologyPlan) (v : landed)
  : result readError (list Sample) :=
  let toks := matchedClaimTokens (rows_of v QPVCInfo) (rows_of v QVolumeLabels) rw in
  if bool_decide (toks = []) then Ok [] else
  issueTokenVolumeLabels toks
    (if aggrRoots (roots plan) || svmRoots (roots plan) then [] else volumeClusters (roots plan)).

(** The aggregates phase 2 alone named, under an SVM or an ontap_node root. *)
Definition late_targets (plan : topologyPlan) (v : landed) (completed : FilerNames) (phaseTwo : list Sample) : FilerNames :=
  let targets := withoutTargets (ownerCompletionTargets phaseTwo (roots plan)) completed in
  if some_of (volumeNodes (roots plan)) then withoutTargets targets (aggregatesTouched (rows_of v QVolumeLabels))
  else targets.

(** pkg/build/volumelabelscope.go, [readVolumeLabelsTail]: once phase 1 and the
    claim info landed. *)
Definition readVolumeLabelsTail (rw : VolumeKeyRewriter) (plan : topologyPlan) (svmRows : list Sample) (v : landed)
  : result readError landed :=
  let completed := ownerCompletionTargets svmRows (roots plan) in
  let completion := readOwnerCompletion completed in
  let phaseTwo := readTokenScopedVolumeLabels rw plan v in
  both <-! parallel (err_of completion ++ err_of phaseTwo) (got [] completion, got [] phaseTwo);
  let '(completion, phaseTwo) := both in
  late <-! (if svmRoots (roots plan) || some_of (volumeNodes (roots plan))
            then readOwnerCompletion (late_targets plan v completed phaseTwo) else Ok []);
  Ok (<[QVolumeLabels := mergeVolumeLabels (mergeVolumeLabels (mergeVolumeLabels (rows_of v QVolumeLabels) completion)
                           phaseTwo) late]> v).

(** pkg/build/expansion.go, [readWorkloadVolumeLabels] *)
Definition readWorkloadVolumeLabels (rw : VolumeKeyRewriter) (plan : topologyPlan) (v : landed) : result readError landed :=
  let toks := tokensOfClaims (rows_of v QPVCInfo) rw in
  if bool_decide (toks = []) then Ok v else
  rows <-! issueTokenVolumeLabels toks [];
  completed <-! readOwnerCompletion (ownerCompletionTargets rows (roots plan));
  let merged := mergeVolumeLabels rows completed in
  Ok (if bool_decide (merged = []) then v else <[QVolumeLabels := merged]> v).
End reads.
