(* ===== verification/K8sReadProps.v ===== *)
(** What the rounds of a Kubernetes-only read load from an honest upstream: the
    pair reads, the name reads and the controllers asked for, round by round.

    The name reads of a Kubernetes-only build: a family asked for names round by
    round holds exactly the rows of the names asked so far, each once, and the
    names asked cover what the owner rows need. *)

From S2P Require Import Prelude GoStrings PromStrings Selector Queries ScopeChunks PairScope.
From S2P Require Import ScopedRender AppMetadata Fanout StorageScope BuildIdentity VolumeKey.
From S2P Require Import TopologyTypes NameScopes ScopedReads ReadPlan K8sRead Upstream.

Section k8s.
Context `{Querier} `{Scheduler} (window : Z) (opts : Options) (sel : Selector).
Context (estate : Query → list Sample) `{!Honest estate window (opt_LabelKeys opts) sel}.

#[local] Abbreviation keys := (opt_LabelKeys opts).
#[local] Abbreviation lk := (OrDefault keys).

(** ** Pair reads *)

(** The rows the two alternations of a chunk match. *)
Definition chunk_match (label : string) (c : pairChunk) (s : Sample) : Prop :=
  label_of (s_Metric s) NamespaceLabel ∈ pc_namespaces c ∧ label_of (s_Metric s) label ∈ pc_names c.

#[export] Instance chunk_match_dec label c s : Decision (chunk_match label c s).
Proof. unfold chunk_match. apply _. Defined.

(** A chunk that can be rendered. *)
Definition good_chunk (c : pairChunk) : Prop :=
  pc_namespaces c ≠ [] ∧ Forall (λ n, n ≠ "") (pc_namespaces c) ∧ pc_names c ≠ [] ∧ Forall (λ n, n ≠ "") (pc_names c).

(** What a pair read returns. *)
Definition pair_rows (r : pairRead) : list Sample :=
  mjoin (map (λ c, filter (chunk_match (prd_label r) c) (estate (prd_query r))) (pair_chunks opts sel r)).

(** A pair read the querier can answer. *)
Definition good_read (r : pairRead) : Prop :=
  namespaceNameLabel (prd_query r) (prd_label r) = true ∧ Forall good_chunk (pair_chunks opts sel r).

Lemma pair_parts_answer r : good_read r →
  pair_parts window opts sel r =
  map (λ c, Ok (filter (chunk_match (prd_label r) c) (estate (prd_query r)))) (pair_chunks opts sel r).
Proof.
  intros [Hlabel Hgood]. unfold pair_parts. apply map_ext_in. intros c Hc%list_elem_of_In.
  rewrite Forall_forall in Hgood. destruct (Hgood c Hc) as (Hns & Hns' & Hn & Hn').
  destruct (RenderNames_fail_closed (prd_query r) window keys sel "" (prd_label r) (pc_namespaces c) (pc_names c)) as [_ Hr].
  destruct (RenderNamesAcrossNamespaces _ _ _ _ _ (pc_namespaces c) _) as [text|] eqn:E.
  - destruct Hr as (_ & _ & _ & Hext).
    rewrite (issueScopedChunk_answers window opts sel estate (prd_query r) [] (Some (λ _, Some text)) text
      [(NamespaceLabel, normaliseValues (pc_namespaces c)); (prd_label r, normaliseValues (pc_names c))] eq_refl ltac:(done) Hext).
    f_equal.
    apply list_filter_iff. intros s. unfold selects, chunk_match. rewrite Forall_cons, Forall_singleton. cbn [fst snd].
    by rewrite !elem_of_normalised.
  - destruct Hr as [Hr|[Hr|Hr]]; [congruence|rewrite proper_has_value in Hr by done; done..].
Qed.

Lemma pair_reads_answer reads : Forall good_read reads →
  issuePairReads window opts sel reads = Ok (map pair_rows reads).
Proof.
  intros Hgood. unfold issuePairReads.
  assert (map (λ r, mjoin (map answered (pair_parts window opts sel r))) reads = map pair_rows reads) as ->.
  { apply map_ext_in. intros r Hr%list_elem_of_In. rewrite Forall_forall in Hgood.
    rewrite pair_parts_answer by (by apply Hgood). unfold pair_rows. by rewrite map_map. }
  apply wave_answered, all_answered_mjoin, Forall_map. eapply Forall_impl; [exact Hgood|]. intros r Hr. cbn.
  rewrite pair_parts_answer by done. apply Forall_map, Forall_true. by eexists.
Qed.

Lemma elem_of_pair_rows r s :
  s ∈ pair_rows r ↔ s ∈ estate (prd_query r) ∧ ∃ c, c ∈ pair_chunks opts sel r ∧ chunk_match (prd_label r) c s.
Proof.
  unfold pair_rows. rewrite mjoin_concat, elem_of_concat. split.
  - intros (l & (c & -> & Hc)%list_elem_of_fmap & [Hm Hs]%list_elem_of_filter). split; [done|]. by exists c.
  - intros (Hs & c & Hc & Hm). eexists. split; [apply list_elem_of_fmap; by exists c|]. by apply list_elem_of_filter.
Qed.

(** The chunks of a pair set, and what their rows hold once the cross pairs are
    dropped. *)
Lemma chunksOfPairs_good pairs label budget : Forall good_chunk (chunksOfPairs pairs label budget).
Proof.
  destruct (ChunkNamePairs_ok pairs label budget) as [Hc Hok]. unfold chunksOfPairs. apply Forall_map, Forall_forall.
  intros c Hcin. assert (c ≠ []) as Hne.
  { rewrite Forall_forall in Hok. by destruct (Hok c Hcin). }
  assert (∀ p, p ∈ c → usable p) as Hu.
  { intros p Hp. apply (elem_of_SortedNamePairs pairs p). rewrite <-Hc. apply elem_of_concat. by exists c. }
  unfold good_chunk. cbn [pc_namespaces pc_names]. split_and!; [by destruct c| |by destruct c|];
    apply Forall_map, Forall_forall; intros p Hp; by destruct (Hu p Hp).
Qed.

(** A read of the pairs themselves. *)
Definition by_pairs (q : Query) (label : string) (pairs : list NamePair) : pairRead := mkPairRead q label pairs None.

Lemma by_pairs_good q label pairs : namespaceNameLabel q label = true → good_read (by_pairs q label pairs).
Proof.
  intros Hl. split; [done|]. unfold pair_chunks. cbn. case_bool_decide; [constructor|]. apply chunksOfPairs_good.
Qed.

Lemma chunk_match_crosses label (c : list NamePair) s :
  chunk_match label (mkPairChunk (map Namespace c) (map Name c)) s ↔ crosses s_Metric label c s.
Proof. done. Qed.

(** The rows of a pair read that are about a requested pair. *)
Lemma by_pairs_rows q label pairs s (Hu : usable (row_pair s_Metric label s)) (Hp : row_pair s_Metric label s ∈ pairs) :
  s ∈ pair_rows (by_pairs q label pairs) ↔ s ∈ estate q.
Proof.
  rewrite elem_of_pair_rows. split; [by intros [? _]|]. intros Hs. split; [done|].
  destruct (ChunkNamePairs_ok pairs label (pairBudget opts sel q)) as [Hc _].
  assert (row_pair s_Metric label s ∈ concat (ChunkNamePairs pairs label (pairBudget opts sel q))) as (c & Hcin & Hpc)%elem_of_concat
    by (rewrite Hc; by apply elem_of_SortedNamePairs).
  exists (mkPairChunk (map Namespace c) (map Name c)). split.
  - unfold pair_chunks. cbn. rewrite bool_decide_eq_false_2 by (intros ->; by apply elem_of_nil in Hp).
    apply list_elem_of_fmap. by exists c.
  - split; cbn; [exact (list_elem_of_fmap_2 Namespace _ _ Hpc)|exact (list_elem_of_fmap_2 Name _ _ Hpc)].
Qed.

Lemma pair_rows_estate r s : s ∈ pair_rows r → s ∈ estate (prd_query r).
Proof. by intros [? _]%elem_of_pair_rows. Qed.
End k8s.

(** The names a family has been asked for. *)
Definition asked (c : controllerReads) (q : Query) : gset string := default ∅ (requested c !! q).

(** The names of a request a family has not been asked for. *)
Definition fresh_names (c : controllerReads) (q : Query) (names : list string) : list string :=
  filter (λ n, n ∉ asked c q) (sortedNames names).

Lemma fresh_names_proper c q names : proper_names (fresh_names c q names).
Proof.
  destruct (sortedNames_proper names) as [Hnd Hne]. split; [by apply NoDup_filter|].
  apply Forall_forall. intros n [_ Hn]%list_elem_of_filter. rewrite Forall_forall in Hne. by apply Hne.
Qed.

Lemma unrequested_spec c q names :
  (unrequested c q names).1 = fresh_names c q names ∧
  asked (unrequested c q names).2 q = list_to_set (fresh_names c q names) ∪ asked c q ∧
  (∀ q', q' ≠ q → asked (unrequested c q names).2 q' = asked c q') ∧
  directDeployments (unrequested c q names).2 = directDeployments c ∧
  directCronJobs (unrequested c q names).2 = directCronJobs c.
Proof.
  unfold unrequested, asked. cbn. rewrite lookup_insert_eq. split_and!; try done.
  intros q' Hq. by rewrite lookup_insert_ne.
Qed.

(** The reads of a request list. *)
Definition reads_for (c : controllerReads) (wanted : list (Query * list string)) : list nameRead :=
  map (λ qn, mkNameRead qn.1 (fresh_names c qn.1 qn.2)) wanted.

Lemma ask_all_spec c wanted : NoDup (map fst wanted) →
  ∃ c', ask_all c wanted = (reads_for c wanted, c') ∧
    (∀ q names, (q, names) ∈ wanted → asked c' q = list_to_set (fresh_names c q names) ∪ asked c q) ∧
    (∀ q, q ∉ map fst wanted → asked c' q = asked c q) ∧
    directDeployments c' = directDeployments c ∧ directCronJobs c' = directCronJobs c.
Proof.
  unfold ask_all. set (step := λ (st : list nameRead * controllerReads) (qn : Query * list string), _).
  assert (∀ acc c, NoDup (map fst wanted) →
    ∃ c', foldl step (acc, c) wanted = (acc ++ reads_for c wanted, c') ∧
    (∀ q names, (q, names) ∈ wanted → asked c' q = list_to_set (fresh_names c q names) ∪ asked c q) ∧
    (∀ q, q ∉ map fst wanted → asked c' q = asked c q) ∧
    directDeployments c' = directDeployments c ∧ directCronJobs c' = directCronJobs c) as Hgen; [|apply (Hgen [])].
  clear c. induction wanted as [|[q names] wanted IH]; intros acc c Hnd.
  { exists c. split_and!; try done; [by rewrite app_nil_r|]. by intros q names ?%elem_of_nil. }
  cbn [map fst] in Hnd. apply NoDup_cons in Hnd as [Hq Hnd]. cbn [foldl].
  destruct (unrequested_spec c q names) as (Hout & Hasked & Hother & Hd & Hj).
  unfold step at 2. cbn [fst snd]. destruct (unrequested c q names) as [out c1]. cbn [fst snd] in *. subst out.
  destruct (IH (acc ++ [mkNameRead q (fresh_names c q names)]) c1 Hnd) as (c' & -> & Hin & Hout & Hd' & Hj').
  exists c'.
  assert (∀ q' names', (q', names') ∈ wanted → q' ≠ q) as Hne.
  { intros q' names' Hw ->. apply Hq. exact (list_elem_of_fmap_2 fst _ _ Hw). }
  assert (∀ q' names', q' ≠ q → fresh_names c1 q' names' = fresh_names c q' names') as Hfresh.
  { intros q' names' Hq'. unfold fresh_names. by rewrite Hother. }
  split_and!.
  - f_equal. rewrite <-app_assoc. f_equal. cbn [reads_for map fst snd app]. f_equal.
    apply map_ext_in. intros [q' names'] Hw%list_elem_of_In. cbn [fst snd]. rewrite Hfresh; [done|by eapply Hne].
  - intros q' names' [[= -> ->]|Hw]%elem_of_cons; [by rewrite Hout|].
    rewrite (Hin q' names' Hw), Hfresh, Hother by (by eapply Hne). done.
  - intros q' [Hq' Hw]%not_elem_of_cons. by rewrite Hout, Hother.
  - by rewrite Hd'.
  - by rewrite Hj'.
Qed.

Lemma rows_of_insert v q rows : rows_of (<[q := rows]> v) q = rows.
Proof. exact (f_equal (default []) (lookup_insert_eq v q rows)). Qed.
Lemma rows_of_insert_ne v q q' rows : q ≠ q' → rows_of (<[q := rows]> v) q' = rows_of v q'.
Proof. intros Hq. exact (f_equal (default []) (lookup_insert_ne v q q' rows Hq)). Qed.

Lemma rows_of_commit v reads (g : nameRead → list Sample) q :
  rows_of (commitNameReads v reads (map g reads)) q =
  rows_of v q ++ mjoin (map g (filter (λ r, nrd_query r = q) reads)).
Proof.
  unfold commitNameReads. revert v. induction reads as [|r reads IH]; intros v; [by rewrite app_nil_r|].
  cbn [map zip zip_with foldl fst snd]. rewrite IH, filter_cons.
  destruct (decide (nrd_query r = q)) as [<-|Hq].
  - rewrite rows_of_insert, <-app_assoc. done.
  - by rewrite rows_of_insert_ne.
Qed.

Lemma filter_or_perm {A} (P Q : A → Prop) `{∀ x, Decision (P x)} `{∀ x, Decision (Q x)} l :
  (∀ x, P x → Q x → False) → filter (λ x, P x ∨ Q x) l ≡ₚ filter P l ++ filter Q l.
Proof.
  intros Hdis. induction l as [|x l IH]; [done|]. rewrite !filter_cons.
  destruct (decide (P x)) as [HP|HP], (decide (Q x)) as [HQ|HQ].
  - by destruct (Hdis x).
  - rewrite decide_True by tauto. cbn. by rewrite IH.
  - rewrite decide_True by tauto. rewrite IH. apply Permutation_middle.
  - by rewrite decide_False by tauto.
Qed.

(** ** Names read ahead *)

Lemma before_last_None c a s : before_last c (String a s) = None ↔ contains_byte c s = false.
Proof.
  revert a. induction s as [|b s IH]; intros a; [done|]. cbn [before_last contains_byte] in *.
  specialize (IH b). destruct (match before_last c s with Some _ => _ | None => _ end) as [p|] eqn:E.
  - split; [done|]. rewrite orb_false_iff. intros [_ Hs]. by apply IH in Hs.
  - destruct (Ascii.eqb b c || contains_byte c s) eqn:Eb; [done|]. done.
Qed.

(** [withoutFinalSegment] of one name: all before the last [c], if that is anything. *)
Lemma before_last_spec c s p :
  before_last c s = Some p ↔ p ≠ "" ∧ ∃ seg, s = p +:+ String c seg ∧ contains_byte c seg = false.
Proof.
  revert p. induction s as [|a s IH]; intros p.
  { split; [done|]. intros (Hp & seg & Hs & _). by destruct p. }
  assert (before_last c (String a s) = Some p ↔ ∃ q, p = String a q ∧
            (before_last c s = Some q ∨ q = "" ∧ before_last c s = None ∧ contains_byte c s = true)) as ->.
  { cbn [before_last]. destruct (before_last c s) as [q|]; [|destruct (contains_byte c s)]; naive_solver. }
  split.
  - intros (q & -> & [Hq|(-> & Hn & Hc)]); (split; [done|]).
    + apply IH in Hq as (_ & seg & -> & Hs). by exists seg.
    + destruct s as [|b s]; [done|]. apply before_last_None in Hn. cbn [contains_byte] in Hc.
      rewrite Hn, orb_false_r in Hc. apply Ascii.eqb_eq in Hc as ->. by exists s.
  - intros (Hp & seg & Hs & Hseg). destruct p as [|a' q]; [done|]. injection Hs as <- Hs. exists q. split; [done|].
    destruct (decide (q = "")) as [->|Hq].
    + right. cbn in Hs. subst s. split_and!; [done|by apply before_last_None|]. cbn. by rewrite Ascii.eqb_refl.
    + left. apply IH. split; [done|]. by exists seg.
Qed.

(** The names read ahead: an owner of kind [kind] called [n]-segment suggests [n]. *)
Definition suggested (owners : list Sample) (kind n : string) : Prop :=
  n ≠ "" ∧ ∃ seg, contains_byte "-"%char seg = false ∧ n +:+ "-" +:+ seg ∈ controllerScope owners kind.

Lemma suggested_spec owners kind n : n ∈ withoutFinalSegment (controllerScope owners kind) ↔ suggested owners kind n.
Proof.
  unfold withoutFinalSegment, suggested. rewrite list_elem_of_omap. setoid_rewrite before_last_spec. split.
  - intros (name & Hin & Hn & seg & -> & Hs). split; [done|]. by exists seg.
  - intros (Hn & seg & Hs & Hin). exists (n +:+ "-" +:+ seg). split; [done|]. split; [done|]. by exists seg.
Qed.

#[export] Instance suggested_dec owners kind n : Decision (suggested owners kind n).
Proof.
  destruct (decide (n ∈ withoutFinalSegment (controllerScope owners kind))) as [Hn|Hn]; [left|right]; by rewrite <-suggested_spec.
Defined.

Section reads.
Context `{Querier} `{Scheduler} (window : Z) (opts : Options) (sel : Selector).
Context (estate : Query → list Sample) `{!Honest estate window (opt_LabelKeys opts) sel}.

(** The rows of a name read. *)
Definition name_rows (r : nameRead) : list Sample :=
  default [] (family_rows window opts sel (plain_family (nrd_query r) (nrd_scope r))).

Definition good_name_read (r : nameRead) : Prop :=
  is_Some (scopedLabel (nrd_query r)) ∧ proper_names (nrd_scope r).

Lemma name_reads_answer reads : Forall good_name_read reads →
  issueNameReads window opts sel reads = Ok (map name_rows reads).
Proof.
  intros Hgood. unfold issueNameReads. rewrite issueScopedFamilies_answered; [cbn; by rewrite !map_map|].
  apply Forall_map. eapply Forall_impl; [exact Hgood|]. intros r [[l Hl] Hp].
  by apply (plain_family_answers window opts sel estate _ l).
Qed.

Lemma name_rows_perm q l scope : scopedLabel q = Some l → proper_names scope →
  name_rows (mkNameRead q scope) ≡ₚ filter (λ s, label_of (s_Metric s) l ∈ scope) (estate q).
Proof. intros Hl Hp. by eapply same_by_key_perm, (plain_family_answers window opts sel estate). Qed.

Lemma name_rows_empty q : name_rows (mkNameRead q []) = [].
Proof. done. Qed.

(** A family holds the rows of the names it has been asked for. *)
Definition asked_ok (names : gset string) (v : landed) (q : Query) (l : string) : Prop :=
  rows_of v q ≡ₚ filter (λ s, label_of (s_Metric s) l ∈ names) (estate q).

Lemma asked_ok_more names v rows q l scope :
  asked_ok names v q l → scopedLabel q = Some l → proper_names scope → (∀ n, n ∈ scope → n ∉ names) →
  rows_of rows q = rows_of v q ++ name_rows (mkNameRead q scope) →
  asked_ok (list_to_set scope ∪ names) rows q l.
Proof.
  unfold asked_ok. intros Hok Hl Hp Hnew ->. rewrite Hok, (name_rows_perm q l) by done.
  rewrite (list_filter_iff (λ s, label_of (s_Metric s) l ∈ list_to_set scope ∪ names)
             (λ s, label_of (s_Metric s) l ∈ names ∨ label_of (s_Metric s) l ∈ scope))
    by (intros s; rewrite elem_of_union, elem_of_list_to_set; tauto).
  symmetry. apply filter_or_perm. intros s H1 H2. by apply (Hnew _ H2).
Qed.

Lemma mjoin_nonEmpty (reads : list nameRead) q :
  mjoin (map name_rows (filter (λ r, nrd_query r = q) (nonEmptyReads reads))) =
  mjoin (map name_rows (filter (λ r, nrd_query r = q) reads)).
Proof.
  unfold nonEmptyReads. induction reads as [|[q' scope] reads IH]; [done|]. rewrite (filter_cons (λ r, nrd_scope r ≠ [])).
  cbn [nrd_scope]. destruct (decide (scope ≠ [])) as [Hs|Hs%dec_stable]; [|subst scope];
    rewrite !(filter_cons (λ r, nrd_query r = q)); cbn [nrd_query]; destruct (decide (q' = q)); [|done..].
  cbn [map]. change (mjoin (?a :: ?b)) with (a ++ mjoin b). by rewrite IH.
Qed.

(** One stage: its reads are answered, and every family keeps holding the rows of
    what it has been asked for. *)
Lemma stage_ok c wanted reads c' :
  NoDup (map fst wanted) → Forall (λ q, is_Some (scopedLabel q)) (map fst wanted) →
  ask_all c wanted = (reads, c') →
  let issued := nonEmptyReads reads in
  issueNameReads window opts sel issued = Ok (map name_rows issued) ∧
  ∀ v q l, scopedLabel q = Some l → asked_ok (asked c q) v q l →
    asked_ok (asked c' q) (commitNameReads v issued (map name_rows issued)) q l.
Proof.
  intros Hnd Hl Hask issued. destruct (ask_all_spec c wanted Hnd) as (c1 & Hask' & Hin & Hout & _).
  rewrite Hask in Hask'. injection Hask' as -> ->.
  rewrite Forall_forall in Hl. split.
  - apply name_reads_answer, Forall_forall. intros r [_ Hr]%list_elem_of_filter.
    apply list_elem_of_fmap in Hr as ([q names] & -> & Hw). cbn. split; [|apply fresh_names_proper].
    apply Hl. exact (list_elem_of_fmap_2 fst _ _ Hw).
  - intros v q l Hql Hok. pose proof (rows_of_commit v issued name_rows q) as Hrows.
    unfold issued in Hrows at 3. rewrite mjoin_nonEmpty in Hrows.
    destruct (decide (q ∈ map fst wanted)) as [Hq|Hq].
    + apply list_elem_of_fmap in Hq as ([q' names] & -> & Hw). cbn [fst] in *.
      rewrite (Hin _ _ Hw). apply (asked_ok_more _ v); [done..|apply fresh_names_proper| |].
      * by intros n [? _]%list_elem_of_filter.
      * rewrite Hrows. f_equal.
        assert (filter (λ r, nrd_query r = q') (reads_for c wanted) = [mkNameRead q' (fresh_names c q' names)]) as ->; [|by cbn; rewrite app_nil_r].
        clear -Hw Hnd. induction wanted as [|[q1 n1] wanted IH]; [by apply elem_of_nil in Hw|].
        cbn [map fst reads_for] in *. apply NoDup_cons in Hnd as [Hq1 Hnd]. rewrite filter_cons. cbn [nrd_query snd fst].
        apply elem_of_cons in Hw as [[= -> ->]|Hw].
        -- rewrite decide_True by done. f_equal. apply elem_of_nil_inv.
           intros r [Hr (w & -> & Hw)%list_elem_of_fmap]%list_elem_of_filter. cbn in Hr. apply Hq1. rewrite <-Hr.
           exact (list_elem_of_fmap_2 fst _ _ Hw).
        -- rewrite decide_False; [by apply IH|]. intros ->. apply Hq1. exact (list_elem_of_fmap_2 fst _ _ Hw).
    + rewrite (Hout q Hq). unfold asked_ok in *. rewrite Hrows.
      assert (filter (λ r, nrd_query r = q) (reads_for c wanted) = []) as ->; [|cbn; by rewrite app_nil_r].
      apply elem_of_nil_inv. intros r [Hr (w & -> & Hw)%list_elem_of_fmap]%list_elem_of_filter. cbn in Hr. apply Hq.
      rewrite <-Hr. exact (list_elem_of_fmap_2 fst _ _ Hw).
Qed.

(** ** The two stages *)

Lemma elem_of_controllerScope rows kind n :
  n ∈ controllerScope rows kind ↔ kind ≠ "" ∧ n ≠ "" ∧ ∃ s, s ∈ rows ∧
    label_of (s_Metric s) "owner_is_controller" = "true" ∧ label_of (s_Metric s) "owner_kind" = kind ∧
    label_of (s_Metric s) "owner_name" = n.
Proof.
  unfold controllerScope. case_bool_decide as Hk; [split; [by intros ?%elem_of_nil|tauto]|].
  rewrite elem_of_sortedNames. unfold label_values. rewrite list_elem_of_fmap. setoid_rewrite list_elem_of_filter.
  split; [intros (? & s & -> & [??] & ?); naive_solver|intros (_ & ? & s & ? & ? & ? & <-); naive_solver].
Qed.

Lemma controllerScope_app rows rows' kind n :
  n ∈ controllerScope (rows ++ rows') kind ↔ n ∈ controllerScope rows kind ∨ n ∈ controllerScope rows' kind.
Proof. rewrite !elem_of_controllerScope. setoid_rewrite elem_of_app. naive_solver. Qed.

(** The families of the first stage that are read for an owner kind alone. *)
Definition first_kinds : list (Query * string) :=
  [(QReplicaSetOwner, "ReplicaSet"); (QReplicaSetAnnotations, "ReplicaSet"); (QJobOwner, "Job");
   (QJobAnnotations, "Job"); (QStatefulSetAnnotations, "StatefulSet"); (QDaemonSetAnnotations, "DaemonSet")].

Lemma elem_of_asked_fresh c q names n :
  n ∈ (list_to_set (fresh_names c q names) ∪ asked c q : gset string) ↔ (n ∈ names ∧ n ≠ "") ∨ n ∈ asked c q.
Proof.
  unfold fresh_names. rewrite elem_of_union, elem_of_list_to_set, list_elem_of_filter, elem_of_sortedNames.
  destruct (decide (n ∈ asked c q)); naive_solver.
Qed.

Lemma nonEmpty_queries c wanted r : r ∈ nonEmptyReads (reads_for c wanted) → nrd_query r ∈ map fst wanted.
Proof.
  intros [_ (w & -> & Hw)%list_elem_of_fmap]%list_elem_of_filter. exact (list_elem_of_fmap_2 fst _ _ Hw).
Qed.

(** What a stage hands on: its reads are answered and touch controller families
    only, and every family keeps holding the rows it has been asked for. *)
Record stage (c : controllerReads) (reads : list nameRead) (c' : controllerReads) : Prop := {
  st_answer : issueNameReads window opts sel reads = Ok (map name_rows reads);
  st_queries : ∀ r, r ∈ reads → nrd_query r ∈ ControllerScopedQueries;
  st_rows : ∀ v q l, scopedLabel q = Some l → asked_ok (asked c q) v q l →
    asked_ok (asked c' q) (commitNameReads v reads (map name_rows reads)) q l;
  st_mono : ∀ q n, n ∈ asked c q → n ∈ asked c' q;
}.

Lemma stage_of c wanted reads c' :
  NoDup (map fst wanted) → Forall (λ q, is_Some (scopedLabel q) ∧ q ∈ ControllerScopedQueries) (map fst wanted) →
  ask_all c wanted = (reads, c') →
  stage c (nonEmptyReads reads) c' ∧
  (∀ q names n, (q, names) ∈ wanted → n ∈ asked c' q ↔ (n ∈ names ∧ n ≠ "") ∨ n ∈ asked c q) ∧
  (∀ q, q ∉ map fst wanted → asked c' q = asked c q) ∧
  directDeployments c' = directDeployments c ∧ directCronJobs c' = directCronJobs c.
Proof.
  intros Hnd Hq Hask. destruct (ask_all_spec c wanted Hnd) as (c1 & Hask' & Hin & Hout & Hd & Hj).
  rewrite Hask in Hask'. injection Hask' as -> <-.
  assert (∀ q names n, (q, names) ∈ wanted → n ∈ asked c' q ↔ (n ∈ names ∧ n ≠ "") ∨ n ∈ asked c q) as Hasked.
  { intros q names n Hw. rewrite (Hin q names Hw). apply elem_of_asked_fresh. }
  destruct (stage_ok c wanted (reads_for c wanted) c' Hnd) as [Hans Hrows]; [|done|].
  { eapply Forall_impl; [exact Hq|]. by intros q [? _]. }
  split; [|done]. rewrite Forall_forall in Hq. split; [done| |done|].
  - intros r Hr%nonEmpty_queries. by apply Hq.
  - intros q n Hn. destruct (decide (q ∈ map fst wanted)) as [Hw|Hw].
    + apply list_elem_of_fmap in Hw as ([q' names] & -> & Hw). apply (Hasked _ names); [done|by right].
    + by rewrite Hout.
Qed.

Lemma firstStage_ok c owner reads c' : firstStage c owner = (reads, c') →
  stage c reads c' ∧
  (∀ q k n, (q, k) ∈ first_kinds → n ∈ asked c' q ↔ n ∈ controllerScope owner k ∨ n ∈ asked c q) ∧
  directDeployments c' = directDeployments c ++ controllerScope owner "Deployment" ∧
  directCronJobs c' = directCronJobs c ++ controllerScope owner "CronJob" ∧
  (∀ n, n ∈ asked c' QDeploymentAnnotations ↔
     n ∈ controllerScope owner "Deployment" ∨ suggested owner "ReplicaSet" n ∨ n ∈ asked c QDeploymentAnnotations) ∧
  (∀ n, n ∈ asked c' QCronJobAnnotations ↔
     n ∈ controllerScope owner "CronJob" ∨ suggested owner "Job" n ∨ n ∈ asked c QCronJobAnnotations).
Proof.
  unfold firstStage. set (c0 := mkControllerReads _ _ _). set (wanted := _ :: _).
  destruct (ask_all c0 wanted) as [reads0 c1] eqn:E. intros [= <- <-].
  destruct (stage_of c0 wanted reads0 c1) as (Hst & Hin & _ & Hd & Hj); [| |done|].
  { apply (bool_decide_unpack _). vm_compute. exact I. }
  { apply (bool_decide_unpack _). vm_compute. exact I. }
  assert (∀ kind n, n ∈ controllerScope owner kind → n ≠ "") as Hne by (intros kind n Hn; by apply elem_of_controllerScope in Hn as (_ & ? & _)).
  assert (∀ q kind kind' n, (q, controllerScope owner kind ++ withoutFinalSegment (controllerScope owner kind')) ∈ wanted →
    n ∈ asked c1 q ↔ n ∈ controllerScope owner kind ∨ suggested owner kind' n ∨ n ∈ asked c q) as Hahead.
  { intros q kind kind' n Hw. rewrite (Hin _ _ n Hw), elem_of_app, suggested_spec. change (asked c0 q) with (asked c q).
    pose proof (Hne kind n). unfold suggested. tauto. }
  split_and!; [|intros q k n Hq|by rewrite Hd|by rewrite Hj| |].
  3, 4: intros n; apply Hahead; unfold wanted; rewrite !elem_of_cons; auto 12.
  - destruct Hst. by split.
  - rewrite (Hin q (controllerScope owner k) n).
    + change (asked c0 q) with (asked c q). split; [tauto|]. intros [Hn|]; [|tauto]. left. split; [done|].
      by apply elem_of_controllerScope in Hn as (_ & ? & _).
    + unfold wanted. clear -Hq. unfold first_kinds in Hq. rewrite !elem_of_cons in *. rewrite elem_of_nil in Hq.
      repeat (destruct Hq as [[= -> ->]|Hq]; [auto 12|]). done.
Qed.

Lemma secondStage_ok c v reads c' : secondStage c v = (reads, c') →
  stage c reads c' ∧
  (∀ r, r ∈ reads → nrd_query r ∈ [QDeploymentAnnotations; QCronJobAnnotations]) ∧
  (∀ q, q ∉ [QDeploymentAnnotations; QCronJobAnnotations] → asked c' q = asked c q) ∧
  (∀ n, n ∈ asked c' QDeploymentAnnotations ↔
     n ∈ deploymentScope (directDeployments c) (rows_of v QReplicaSetOwner) ∨ n ∈ asked c QDeploymentAnnotations) ∧
  (∀ n, n ∈ asked c' QCronJobAnnotations ↔
     n ∈ cronJobScope (directCronJobs c) (rows_of v QJobOwner) ∨ n ∈ asked c QCronJobAnnotations) ∧
  directDeployments c' = directDeployments c ∧ directCronJobs c' = directCronJobs c.
Proof.
  unfold secondStage. set (wanted := _ :: _).
  destruct (ask_all c wanted) as [reads0 c1] eqn:E. intros [= <- <-].
  destruct (stage_of c wanted reads0 c1) as (Hst & Hin & Hout & Hd & Hj); [| |done|].
  { apply (bool_decide_unpack _). vm_compute. exact I. }
  { apply (bool_decide_unpack _). vm_compute. exact I. }
  assert (∀ l n, n ∈ sortedNames l → n ≠ "") as Hne by (intros l n Hn; by apply elem_of_sortedNames in Hn as [? _]).
  split_and!; [done| |done| | |done|done].
  - intros r Hr. destruct (ask_all_spec c wanted) as (c2 & Hask & _); [apply (bool_decide_unpack _); vm_compute; exact I|].
    rewrite E in Hask. injection Hask as -> _. exact (nonEmpty_queries c wanted r Hr).
  - intros n. rewrite (Hin _ _ n ltac:(by left)). unfold deploymentScope. pose proof (Hne (directDeployments c ++ label_values (filter (λ s, label_of (s_Metric s) "owner_kind" = "Deployment") (rows_of v QReplicaSetOwner)) "owner_name") n). tauto.
  - intros n. rewrite (Hin _ _ n ltac:(right; by left)). unfold cronJobScope. pose proof (Hne (directCronJobs c ++ label_values (rows_of v QJobOwner) "owner_name") n). tauto.
Qed.
End reads.
