(* ===== verification/VolumeLabelProps.v ===== *)
(** What the volume-label queries of a storage build return from an honest
    upstream: the rooted queries the rows of their roots, owner completion the
    whole aggregates it names, the token queries the rows whose FlexVol name ends
    in a token.

    The rooted volume-label queries a prepared plan holds, the rows they select,
    and the votes that elect the node an aggregate belongs to.

    What the rooted volume-label read of a storage build returns for each kind of
    root, on an upstream that answers every query from one estate. *)

From S2P Require Import Prelude GoStrings PromStrings Selector Queries ScopeChunks HarvestScope.
From S2P Require Import PairScope ScopedRender Fanout StorageScope BuildIdentity VolumeKey.
From S2P Require Import TopologyTypes NetApp NameScopes ScopedReads Upstream ReadPlan K8sRead.
From S2P Require Import VolumeLabelScope Float64 K8sReadProps.

(** ** Names under filers *)

Lemma elem_of_sort_names m filer name :
  name ∈ default [] (sort_names m !! filer) ↔ name ∈ default [] (m !! filer).
Proof.
  unfold sort_names. rewrite lookup_fmap. destruct (m !! filer) as [l|]; [|done]. cbn.
  apply (elem_of_sort_compact String.compare).
Qed.

Lemma elem_of_file_name m filer name f n :
  n ∈ default [] (file_name m filer name !! f) ↔ n ∈ default [] (m !! f) ∨ (f = filer ∧ n = name).
Proof.
  unfold file_name. destruct (decide (f = filer)) as [->|Hf].
  - rewrite lookup_insert_eq. cbn. rewrite elem_of_app, list_elem_of_singleton. naive_solver.
  - rewrite lookup_insert_ne by done. naive_solver.
Qed.

(** Filing the rows a test lets through. *)
Lemma elem_of_filed (skip : Sample → bool) rows f n :
  n ∈ default [] (foldl (λ m s, if skip s then m else file_name m (row_filer s) (row_aggr s)) ∅ rows !! f) ↔
  ∃ s, s ∈ rows ∧ skip s = false ∧ row_filer s = f ∧ row_aggr s = n.
Proof.
  induction rows as [|s rows IH] using rev_ind.
  - cbn. rewrite lookup_empty. cbn. rewrite elem_of_nil. split; [done|]. by intros (s & ?%elem_of_nil & _).
  - rewrite foldl_app. cbn [foldl]. destruct (skip s) eqn:Es.
    + rewrite IH. split; intros (s' & Hs' & Hrest); exists s'.
      * split; [apply elem_of_app; by left|done].
      * apply elem_of_app in Hs' as [?| ->%list_elem_of_singleton]; [done|]. destruct Hrest as (? & _). congruence.
    + rewrite elem_of_file_name, IH. split.
      * intros [(s' & Hs' & Hrest)|(-> & ->)]; [exists s'|exists s]; (split; [apply elem_of_app|done]); [by left|].
        right. by apply list_elem_of_singleton.
      * intros (s' & [Hs'| ->%list_elem_of_singleton]%elem_of_app & Hrest); [left; by exists s'|right].
        by destruct Hrest as (_ & <- & <-).
Qed.

Lemma elem_of_aggregatesTouched rows f a :
  a ∈ default [] (aggregatesTouched rows !! f) ↔ f ≠ "" ∧ a ≠ "" ∧ ∃ s, s ∈ rows ∧ row_filer s = f ∧ row_aggr s = a.
Proof.
  unfold aggregatesTouched. rewrite elem_of_sort_names, elem_of_filed. setoid_rewrite orb_false_iff.
  setoid_rewrite bool_decide_eq_false. naive_solver.
Qed.

Lemma elem_of_ownerCompletionTargets rows r f a :
  a ∈ default [] (ownerCompletionTargets rows r !! f) ↔
  f ≠ "" ∧ a ≠ "" ∧ readWhole r f a = false ∧ ∃ s, s ∈ rows ∧ row_filer s = f ∧ row_aggr s = a.
Proof.
  unfold ownerCompletionTargets. rewrite elem_of_sort_names, elem_of_filed. setoid_rewrite orb_false_iff.
  setoid_rewrite orb_false_iff. setoid_rewrite bool_decide_eq_false. naive_solver.
Qed.

Lemma elem_of_withoutTargets want done f a :
  a ∈ default [] (withoutTargets want done !! f) ↔ a ∈ default [] (want !! f) ∧ a ∉ default [] (done !! f).
Proof.
  unfold withoutTargets.
  assert (a ∈ default [] (filter (λ kv : string * list string, kv.2 ≠ [])
            (map_imap (λ c aggrs, Some (filter (λ a, a ∉ default [] (done !! c)) aggrs)) want) !! f) ↔
          a ∈ default [] (map_imap (λ c aggrs, Some (filter (λ a, a ∉ default [] (done !! c)) aggrs)) want !! f)) as ->.
  { set (m := map_imap _ want). destruct (m !! f) as [l|] eqn:E.
    - destruct (decide (l = [])) as [->|Hl].
      + assert (filter (λ kv : string * list string, kv.2 ≠ []) m !! f = None) as ->; [|done].
        apply map_lookup_filter_None. right. intros x Hx. rewrite E in Hx. injection Hx as <-. by intros Hn.
      + assert (filter (λ kv : string * list string, kv.2 ≠ []) m !! f = Some l) as ->; [|done].
        by apply map_lookup_filter_Some.
    - assert (filter (λ kv : string * list string, kv.2 ≠ []) m !! f = None) as ->; [|done].
      apply map_lookup_filter_None. by left. }
  rewrite map_lookup_imap. destruct (want !! f) as [l|]; cbn; [rewrite list_elem_of_filter; tauto|].
  rewrite elem_of_nil. tauto.
Qed.

(** ** Merging by label set *)

Section merge.
Context `{MetricFingerprint}.

Definition fps (rows : list Sample) : list Z := map (λ s, fingerprint (s_Metric s)) rows.

Lemma mergeVolumeLabels_spec base extra :
  ∃ added, mergeVolumeLabels base extra = base ++ added ∧
    (∀ s, s ∈ added → s ∈ extra ∧ fingerprint (s_Metric s) ∉ fps base) ∧
    (∀ s, s ∈ extra → fingerprint (s_Metric s) ∈ fps (base ++ added)) ∧
    NoDup (fps added).
Proof.
  unfold mergeVolumeLabels. case_bool_decide as He.
  { exists []. rewrite app_nil_r. subst. split_and!; [done|by intros s ?%elem_of_nil|by intros s ?%elem_of_nil|constructor]. }
  clear He. set (step := λ (st : list Sample * gset Z) (s : Sample), _).
  assert (∃ added, (foldl step (base, list_to_set (fps base)) extra) = (base ++ added, list_to_set (fps (base ++ added))) ∧
    (∀ s, s ∈ added → s ∈ extra ∧ fingerprint (s_Metric s) ∉ fps base) ∧
    (∀ s, s ∈ extra → fingerprint (s_Metric s) ∈ fps (base ++ added)) ∧ NoDup (fps added)) as (added & Heq & Hrest).
  { induction extra as [|s extra IH] using rev_ind.
    - exists []. rewrite app_nil_r. split_and!; [done|by intros s ?%elem_of_nil|by intros s ?%elem_of_nil|constructor].
    - destruct IH as (added & Heq & Hin & Hcov & Hnd). rewrite foldl_app, Heq. cbn [foldl]. unfold step at 1. cbn [fst snd].
      case_bool_decide as Hs.
      + apply elem_of_list_to_set in Hs. exists added. split_and!; [done| | |done].
        * intros s' Hs'. destruct (Hin s' Hs'). split; [|done]. apply elem_of_app. by left.
        * intros s' [Hs'| ->%list_elem_of_singleton]%elem_of_app; [by apply Hcov|done].
      + rewrite elem_of_list_to_set in Hs. unfold fps in Hs. rewrite map_app, elem_of_app in Hs.
        apply Decidable.not_or in Hs as [Hb Ha]. exists (added ++ [s]). rewrite app_assoc. split_and!.
        * f_equal. apply set_eq. intros z. unfold fps. rewrite !map_app, elem_of_union, !elem_of_list_to_set, !elem_of_app.
          cbn [map]. rewrite list_elem_of_singleton, elem_of_singleton. tauto.
        * intros s' [Hs'| ->%list_elem_of_singleton]%elem_of_app.
          -- destruct (Hin s' Hs'). split; [|done]. apply elem_of_app. by left.
          -- split; [apply elem_of_app; right; by apply list_elem_of_singleton|done].
        * intros s' [Hs'| ->%list_elem_of_singleton]%elem_of_app.
          -- pose proof (Hcov s' Hs') as Hc. unfold fps in *. rewrite map_app, elem_of_app. by left.
          -- unfold fps. rewrite map_app, elem_of_app. right. by apply list_elem_of_singleton.
        * unfold fps. rewrite map_app. apply NoDup_app. split_and!; [done| |apply NoDup_singleton].
          intros z Hz ->%list_elem_of_singleton. done. }
  exists added. unfold fps in Heq. by rewrite Heq.
Qed.

(** Rows that are the one row of their label set among [all]. *)
Definition one_series (all : list Sample) : Prop :=
  ∀ s s', s ∈ all → s' ∈ all → fingerprint (s_Metric s) = fingerprint (s_Metric s') → s = s'.

Lemma elem_of_merge all base extra s : one_series all → (∀ s, s ∈ base → s ∈ all) → (∀ s, s ∈ extra → s ∈ all) →
  s ∈ mergeVolumeLabels base extra ↔ s ∈ base ∨ s ∈ extra.
Proof.
  intros Hone Hb He. destruct (mergeVolumeLabels_spec base extra) as (added & -> & Hin & Hcov & _). rewrite elem_of_app. split.
  - intros [?|Hs]; [by left|right]. by apply Hin.
  - intros [?|Hs]; [by left|]. pose proof (Hcov s Hs) as Hf. unfold fps in Hf. apply list_elem_of_fmap in Hf as (s' & Hf & Hs').
    assert (s' ∈ all) as Ha by (apply elem_of_app in Hs' as [?|?]; [by apply Hb|by apply He, Hin]).
    rewrite (Hone s s'); [|by apply He|done|done]. by apply elem_of_app.
Qed.

Lemma NoDup_merge base extra : NoDup (fps base) → NoDup (fps (mergeVolumeLabels base extra)).
Proof.
  intros Hb. destruct (mergeVolumeLabels_spec base extra) as (added & -> & Hin & _ & Ha). unfold fps in *. rewrite map_app.
  apply NoDup_app. split_and!; [done| |done]. intros z Hz (s & -> & Hs)%list_elem_of_fmap. by destruct (Hin s Hs).
Qed.
End merge.

(** ** What the queries select *)

(** The matchers of an optional restriction. *)
Definition restriction (key : string) (values : list string) : list (string * list string) :=
  if bool_decide (normaliseValues values = []) then [] else [(key, normaliseValues values)].

Lemma appendMatcher_reads dst key values : contains_byte "="%char key = false →
  ∃ ts, appendMatcher dst key values = dst ++ ts ∧ Forall2 reads_as ts (restriction key values).
Proof.
  intros Hk. unfold restriction. case_bool_decide as Hv.
  - exists []. rewrite app_nil_r. split; [|constructor]. unfold appendMatcher. by rewrite Hv.
  - destruct (appendMatcher_normalised dst key values Hk Hv) as (t & Ht & Hr). exists [t]. split; [|by repeat constructor].
    rewrite <-Ht. unfold appendMatcher. by rewrite normaliseValues_idem.
Qed.

Lemma volume_labels_base keys sel : base_matchers QVolumeLabels keys sel = requestMatchers QVolumeLabels keys sel.
Proof. reflexivity. Qed.

(** A text with the request's matchers and [ts]. *)
Lemma volume_labels_extends window keys sel ts ms : Forall2 reads_as ts ms →
  extends_render QVolumeLabels window keys sel ms (last_over QVolumeLabels window (requestMatchers QVolumeLabels keys sel ++ ts)).
Proof.
  intros Hts. exists (requestMatchers QVolumeLabels keys sel), ts. split_and!; [|done|done].
  rewrite <-volume_labels_base. apply selectorBraces_base.
Qed.

(** The matchers of a phase-1 query. *)
Definition rq_matchers (q : rootedVolumeLabelsQuery) : list (string * list string) :=
  match rq_group q with
  | groupAggr => restriction VolumeLabelsClusterLabel (rq_clusters q) ++ restriction volumeLabelsAggrLabel (rq_aggrs q)
  | groupSVM => restriction VolumeLabelsClusterLabel (rq_clusters q) ++ restriction volumeLabelsSVMLabel (rq_svms q)
  | groupNode => restriction NodeLabel (rq_nodes q)
  end.

Lemma rq_render_extends q window keys sel text : rq_render q window keys sel = Some text →
  rq_matchers q ≠ [] ∧ extends_render QVolumeLabels window keys sel (rq_matchers q) text.
Proof.
  unfold rq_render, rq_matchers. destruct (rq_group q).
  - unfold RenderVolumeLabelsRooted.
    destruct (appendMatcher_reads [] VolumeLabelsClusterLabel (rq_clusters q)) as (t1 & -> & H1); [done|].
    destruct (appendMatcher_reads ([] ++ t1) volumeLabelsAggrLabel (rq_aggrs q)) as (t2 & -> & H2); [done|].
    cbn [app]. case_bool_decide as Hne; [done|]. intros <-%(inj Some).
    assert (Forall2 reads_as (t1 ++ t2) (restriction VolumeLabelsClusterLabel (rq_clusters q) ++
              restriction volumeLabelsAggrLabel (rq_aggrs q))) as Hts by by apply Forall2_app.
    split; [|by apply volume_labels_extends]. intros Hms. rewrite Hms in Hts. by apply Forall2_nil_inv_r in Hts.
  - unfold RenderVolumeLabelsSVMRooted. case_bool_decide as Hv; [done|].
    destruct (appendMatcher_reads (requestMatchers QVolumeLabels keys sel) VolumeLabelsClusterLabel (rq_clusters q))
      as (t1 & -> & H1); [done|].
    destruct (appendMatcher_reads (requestMatchers QVolumeLabels keys sel ++ t1) volumeLabelsSVMLabel (rq_svms q))
      as (t2 & -> & H2); [done|]. intros <-%(inj Some). split.
    + intros Hms. apply app_eq_nil in Hms as [_ Hms]. unfold restriction in Hms. by rewrite bool_decide_eq_false_2 in Hms.
    + rewrite <-app_assoc. by apply volume_labels_extends, Forall2_app.
  - unfold RenderVolumeLabelsByNode. pose proof (RenderOnLabel_extends QVolumeLabels window keys sel NodeLabel (rq_nodes q) eq_refl) as Hr.
    intros Ht. rewrite Ht in Hr. destruct Hr as (_ & Hv & Hext). unfold restriction. rewrite bool_decide_eq_false_2; [done|].
    intros Hn. apply normaliseValues_nil in Hn. congruence.
Qed.

Lemma completion_extends window keys sel filer aggrs text :
  RenderVolumeLabelsOwnerCompletion window keys sel filer aggrs = Some text →
  extends_render QVolumeLabels window keys sel [(VolumeLabelsClusterLabel, [filer]); (volumeLabelsAggrLabel, normaliseValues aggrs)] text.
Proof.
  unfold RenderVolumeLabelsOwnerCompletion. case_bool_decide as Hv; [done|]. intros <-%(inj Some).
  destruct (appendMatcher_normalised (requestMatchers QVolumeLabels keys sel ++ [cluster_equality filer])
    volumeLabelsAggrLabel aggrs eq_refl Hv) as (t & -> & Ht).
  rewrite <-app_assoc. apply volume_labels_extends. repeat constructor; [|done]. by apply reads_equality.
Qed.

(** ** Answers *)

(** A row whose FlexVol name ends in one of [toks], on no filer of [excl]. *)
Definition token_row (toks excl : list string) (s : Sample) : Prop :=
  (row_filer s ∉ normaliseValues excl) ∧
  ∃ t, t ∈ normaliseValues toks ∧ has_suffix (label_of (s_Metric s) HarvestVolumeLabel) t = true.

#[export] Instance token_row_dec toks excl s : Decision (token_row toks excl s).
Proof.
  unfold token_row.
  destruct (decide (Exists (λ t, has_suffix (label_of (s_Metric s) HarvestVolumeLabel) t = true) (normaliseValues toks)))
    as [Hex|Hex]; destruct (decide (row_filer s ∈ normaliseValues excl)) as [Hin|Hout].
  - right. tauto.
  - left. split; [done|]. by apply Exists_exists in Hex.
  - right. tauto.
  - right. intros [_ Ht]. apply Hex, Exists_exists. destruct Ht as (t & ? & ?). by exists t.
Defined.

Section answers.
Context `{Querier} `{Scheduler} `{MetricFingerprint} (window : Z) (opts : Options) (sel : Selector).
Context (estate : Query → list Sample) `{!Honest estate window (opt_LabelKeys opts) sel}.

#[local] Abbreviation keys := (opt_LabelKeys opts).
#[local] Abbreviation volumes := (estate QVolumeLabels).

(** Queries that all answer. *)
Lemma parts_answered (texts : list string) (parts : list (list Sample)) :
  Forall2 (λ text rows, Instant QVolumeLabels text = Ok rows) texts parts → issueVolumeLabelsParts texts = Ok parts.
Proof.
  intros H2. unfold issueVolumeLabelsParts.
  assert (map ask_volume_labels texts = map Ok parts) as ->.
  { induction H2 as [|text rows texts parts Ha _ IH]; [done|]. cbn [map]. rewrite IH. unfold ask_volume_labels at 1. by rewrite Ha. }
  rewrite wave_answered; [rewrite map_map; cbn [answered]; by rewrite map_id|].
  apply Forall_map, Forall_true. by eexists.
Qed.

Lemma queries_answered (texts : list string) (parts : list (list Sample)) :
  Forall2 (λ text rows, Instant QVolumeLabels text = Ok rows) texts parts →
  issueVolumeLabelsQueries texts = Ok (mjoin parts).
Proof. intros H2. unfold issueVolumeLabelsQueries. by rewrite (parts_answered _ parts). Qed.

(** ** Owner completion *)

(** The chunks of one filer answer with the rows of its aggregates. *)
Lemma completion_chunks filer (cs : list (list string)) : Forall (λ c, c ≠ [] ∧ Forall (λ a, a ≠ "") c) cs →
  Forall2 (λ text rows, Instant QVolumeLabels text = Ok rows)
    (omap (RenderVolumeLabelsOwnerCompletion window keys sel filer) cs)
    (map (λ c, filter (λ s, row_filer s = filer ∧ row_aggr s ∈ c) volumes) cs).
Proof.
  induction 1 as [|c cs [Hne Hc] _ IH]; [constructor|]. cbn [omap list_omap map].
  destruct (RenderVolumeLabelsOwnerCompletion window keys sel filer c) as [text|] eqn:E.
  - constructor; [|exact IH]. apply completion_extends in E.
    rewrite (honest QVolumeLabels [(VolumeLabelsClusterLabel, [filer]); (volumeLabelsAggrLabel, normaliseValues c)] text ltac:(done) E).
    f_equal. apply list_filter_iff. intros s. unfold selects. rewrite Forall_cons, Forall_singleton. cbn [fst snd].
    rewrite list_elem_of_singleton, elem_of_normalised by done. done.
  - exfalso. unfold RenderVolumeLabelsOwnerCompletion in E. case_bool_decide as Hv; [|done].
    apply normaliseValues_nil in Hv. by rewrite proper_has_value in Hv.
Qed.

(** Targets that name something. *)
Definition good_targets (targets : FilerNames) : Prop :=
  ∀ f a, a ∈ default [] (targets !! f) → a ≠ "".

Lemma elem_of_sorted_keys (m : FilerNames) f : f ∈ sorted_keys m ↔ is_Some (m !! f).
Proof. unfold sorted_keys. by rewrite (elem_of_sort_func String.compare), elem_of_elements, elem_of_dom. Qed.

Lemma readOwnerCompletion_ok targets : good_targets targets →
  ∃ rows, readOwnerCompletion window opts sel targets = Ok rows ∧
    ∀ s, s ∈ rows ↔ s ∈ volumes ∧ row_aggr s ∈ default [] (targets !! row_filer s).
Proof.
  intros Hg. unfold readOwnerCompletion. case_bool_decide as He.
  { exists []. split; [done|]. intros s. subst targets. rewrite lookup_empty. cbn. rewrite !elem_of_nil. tauto. }
  set (chunks_of (f : string) := ChunkScope (default [] (targets !! f))
    (Z.max (qosScopeBatchBytes opts - RequestMatcherCost QVolumeLabels keys sel - OwnerCompletionClusterCost f) 1)).
  set (piece (f : string) (c : list string) := filter (λ s, row_filer s = f ∧ row_aggr s ∈ c) volumes).
  assert (∀ f, concat (chunks_of f) = default [] (targets !! f) ∧ Forall (λ c, c ≠ [] ∧ Forall (λ a, a ≠ "") c) (chunks_of f)) as Hch.
  { intros f. destruct (ChunkScope_ok (default [] (targets !! f))
      (Z.max (qosScopeBatchBytes opts - RequestMatcherCost QVolumeLabels keys sel - OwnerCompletionClusterCost f) 1)) as [Hcat Hok].
    split; [exact Hcat|]. apply Forall_forall. intros c Hc. rewrite Forall_forall in Hok. destruct (Hok c Hc) as [Hne _].
    split; [done|]. apply Forall_forall. intros a Ha. apply (Hg f). rewrite <-Hcat. apply elem_of_concat. by exists c. }
  exists (mjoin (mjoin (map (λ f, map (piece f) (chunks_of f)) (sorted_keys targets)))). split.
  - apply queries_answered. induction (sorted_keys targets) as [|f fs IH]; [constructor|].
    change (mjoin (map ?g (f :: fs))) with (g f ++ mjoin (map g fs)). apply Forall2_app; [|exact IH].
    unfold completion_queries. apply completion_chunks, Hch.
  - intros s. rewrite !mjoin_concat, elem_of_concat. setoid_rewrite elem_of_concat. split.
    + intros (l & (l' & (f & -> & _)%list_elem_of_fmap & (c & -> & Hc)%list_elem_of_fmap) & Hs).
      apply list_elem_of_filter in Hs as [[<- Ha] Hs]. split; [done|]. destruct (Hch (row_filer s)) as [<- _].
      apply elem_of_concat. by exists c.
    + intros [Hs Ha]. destruct (Hch (row_filer s)) as [Hcat _]. pose proof Ha as Hin. rewrite <-Hcat in Hin.
      apply elem_of_concat in Hin as (c & Hac & Hc). exists (piece (row_filer s) c). split.
      * exists (map (piece (row_filer s)) (chunks_of (row_filer s))). split; apply list_elem_of_fmap; [|by exists c].
        exists (row_filer s). split; [done|]. apply elem_of_sorted_keys. destruct (targets !! row_filer s); [by eexists|].
        by apply elem_of_nil in Ha.
      * by apply list_elem_of_filter.
Qed.

(** ** Phase 1 *)

(** A rendered phase-1 query. *)
Definition rendered (q : rootedVolumeLabelsQuery) : Prop := rq_render q window keys sel = Some (rq_rendered q).

(** The rows of a phase-1 query. *)
Definition rq_rows (q : rootedVolumeLabelsQuery) : list Sample := filter (selects (rq_matchers q)) volumes.

Lemma phase_one_parts qs : Forall rendered qs → issueVolumeLabelsParts (map rq_rendered qs) = Ok (map rq_rows qs).
Proof.
  intros Hqs. apply parts_answered. induction Hqs as [|q qs Hq _ IH]; [constructor|]. cbn [map]. constructor; [|exact IH].
  destruct (rq_render_extends q window keys sel _ Hq) as [Hne Hext]. exact (honest QVolumeLabels _ _ Hne Hext).
Qed.

Lemma elem_of_group_rows svm qs s :
  s ∈ group_rows svm qs (map rq_rows qs) ↔
  ∃ q, q ∈ qs ∧ bool_decide (rq_group q = groupSVM) = svm ∧ s ∈ volumes ∧ selects (rq_matchers q) s.
Proof.
  unfold group_rows. rewrite mjoin_concat, elem_of_concat. split.
  - intros (l & ([q l'] & -> & [Hsvm Hz]%list_elem_of_filter)%list_elem_of_fmap & Hs). cbn [fst snd] in *.
    assert (l' = rq_rows q ∧ q ∈ qs) as [-> Hq].
    { clear -Hz. induction qs as [|q' qs IH]; [by apply elem_of_nil in Hz|]. cbn [map zip zip_with] in Hz.
      apply elem_of_cons in Hz as [Heq|Hz]; [injection Heq as -> ->; split; [done|left]|].
      destruct (IH Hz). split; [done|by right]. }
    apply list_elem_of_filter in Hs as [Hm Hs]. by exists q.
  - intros (q & Hq & Hsvm & Hs & Hm). exists (rq_rows q). split; [|by apply list_elem_of_filter].
    apply list_elem_of_fmap. exists (q, rq_rows q). split; [done|]. apply list_elem_of_filter. split; [done|].
    clear -Hq. induction qs as [|q' qs IH]; [by apply elem_of_nil in Hq|]. cbn [map zip zip_with].
    apply elem_of_cons in Hq as [->|Hq]; [left|right; by apply IH].
Qed.
End answers.

(** ** Preparing *)

(** A query with its text. *)
Definition rq_key (q : rootedVolumeLabelsQuery) : phaseOneGroup * list (string * list string) := (rq_group q, rq_matchers q).

Lemma render_all_ok window keys sel qs qs' : render_all window keys sel qs = Some qs' →
  Forall (λ q, rq_render q window keys sel = Some (rq_rendered q)) qs' ∧ map rq_key qs' = map rq_key qs.
Proof.
  revert qs'. induction qs as [|q qs IH]; intros qs'; cbn [render_all]; [by intros [= <-]|].
  destruct (rq_render q window keys sel) as [text|] eqn:E; [|done].
  destruct (render_all window keys sel qs) as [rest|]; [|done]. intros [= <-]. destruct (IH rest eq_refl) as [Hr Hk].
  split; [by constructor|]. cbn [map]. by rewrite Hk.
Qed.

(** The queries of a prepared plan's Harvest seed. *)
Definition seed_queries (budget : Z) (keys : LabelKeys) (sel : Selector) (r : planRoots) : option (list rootedVolumeLabelsQuery) :=
  let budget := (budget - RequestMatcherCost QVolumeLabels keys sel)%Z in
  if some_of (volumeNodes r) then rootedNodeLabelChunks (volumeNodes r) budget
  else rootedVolumeLabelsChunks (volumeClusters r) (volumeAggrs r) (volumeSVMs r) (volumeAggrPairs r)
         (volumeSVMPairs r) budget.

(** The later steps keep them. *)
Lemma prepare_keeps_seed window budget keys sel p p' : prepare window budget keys sel p = Ok p' →
  ∃ p1, prepareHarvestSeed window budget keys sel p = Ok p1 ∧ phaseOne p' = phaseOne p1 ∧ roots p' = roots p1.
Proof.
  unfold prepare. destruct (prepareHarvestSeed _ _ _ _ _) as [p1|]; [|done]. cbn [rbind]. intros Hp. exists p1. split; [done|].
  destruct (prepareNodeSeed _ _ _ _ _) as [p2|] eqn:E2; [|done]. cbn [rbind] in Hp.
  assert (phaseOne p2 = phaseOne p1 ∧ roots p2 = roots p1) as (<- & <-).
  { revert E2. unfold prepareNodeSeed. destruct (nodePrepared p1); [by intros [= <-]|].
    destruct (_ || _); [by intros [= <-]|]. destruct (_ <? _)%Z; [done|by intros [= <-]]. }
  destruct (preparePodSeed _ _ _ _ _) as [p3|] eqn:E3; [|done]. cbn [rbind] in Hp.
  assert (phaseOne p3 = phaseOne p2 ∧ roots p3 = roots p2) as (<- & <-).
  { revert E3. unfold preparePodSeed. destruct (podPrepared p2); [by intros [= <-]|].
    destruct (_ || _); [by intros [= <-]|]. destruct (_ <? _)%Z; [done|by intros [= <-]]. }
  destruct (prepareClaimSeed _ _ _ _) as [p4|] eqn:E4; [|done]. cbn [rbind] in Hp.
  assert (phaseOne p4 = phaseOne p3 ∧ roots p4 = roots p3) as (<- & <-).
  { revert E4. unfold prepareClaimSeed. destruct (claimPrepared p3); [by intros [= <-]|].
    destruct (negb _); [by intros [= <-]|]. destruct (_ <? _)%Z; [done|by intros [= <-]]. }
  destruct (prepareApplicationSeed _ _) as [p5|] eqn:E5; [|done]. cbn [rbind] in Hp.
  assert (phaseOne p5 = phaseOne p4 ∧ roots p5 = roots p4) as (<- & <-).
  { revert E5. unfold prepareApplicationSeed. destruct (appPrepared p4); [by intros [= <-]|].
    destruct (_ || _); [by intros [= <-]|]. destruct (_ <? _)%Z; [done|by intros [= <-]]. }
  revert Hp. unfold prepareFlowless. destruct (flowlessPrepared p5); [by intros [= <-]|].
  destruct (flowless_scope _) as [[??]|]; [|by intros [= <-]]. destruct (_ <? _)%Z; [done|by intros [= <-]].
Qed.

Lemma prepare_seed window budget keys sel r p : harvestSeed r = true → prepare window budget keys sel (fresh_plan r) = Ok p →
  roots p = r ∧ Forall (λ q, rq_render q window keys sel = Some (rq_rendered q)) (phaseOne p) ∧
  ∃ qs, seed_queries budget keys sel r = Some qs ∧ map rq_key (phaseOne p) = map rq_key qs.
Proof.
  intros Hs Hp. apply prepare_keeps_seed in Hp as (p1 & Hp & -> & ->). revert Hp. unfold prepareHarvestSeed.
  cbn [fresh_plan resolved roots]. rewrite Hs. cbn [negb]. fold (seed_queries budget keys sel r).
  destruct (seed_queries budget keys sel r) as [qs|]; [|done]. cbn [mbind option_bind].
  destruct (render_all window keys sel qs) as [qs'|] eqn:E; [|done]. intros [= <-]. cbn [roots phaseOne].
  destruct (render_all_ok _ _ _ _ _ E). split_and!; [done|done|]. by exists qs.
Qed.

(** ** What the seed selects *)

Lemma selects_restriction key values s : Forall (λ n, n ≠ "") values →
  selects (restriction key values) s ↔ values = [] ∨ label_of (s_Metric s) key ∈ values.
Proof.
  intros Hv. unfold restriction. case_bool_decide as Hn.
  - split; [intros _; left|intros _; constructor]. destruct values as [|v values]; [done|].
    apply normaliseValues_nil in Hn. by rewrite proper_has_value in Hn.
  - unfold selects. rewrite Forall_singleton. cbn [fst snd]. rewrite elem_of_normalised by done. split; [by right|].
    intros [->|?]; [done|done].
Qed.

(** Some query of [qs], of the SVM group or not, selects the row. *)
Definition seed_selects (svm : bool) (qs : list rootedVolumeLabelsQuery) (s : Sample) : Prop :=
  ∃ q, q ∈ qs ∧ bool_decide (rq_group q = groupSVM) = svm ∧ selects (rq_matchers q) s.

Lemma seed_selects_key svm qs qs' s : map rq_key qs = map rq_key qs' → seed_selects svm qs s ↔ seed_selects svm qs' s.
Proof.
  assert (∀ qs, seed_selects svm qs s ↔ ∃ k, k ∈ map rq_key qs ∧ bool_decide (k.1 = groupSVM) = svm ∧ selects k.2 s) as Hk.
  { intros l. unfold seed_selects. setoid_rewrite list_elem_of_fmap. split.
    - intros (q & Hq & Hrest). exists (rq_key q). split; [by exists q|done].
    - intros (k & (q & -> & Hq) & Hrest). by exists q. }
  intros Heq. by rewrite !Hk, Heq.
Qed.

Lemma seed_selects_app svm qs qs' s : seed_selects svm (qs ++ qs') s ↔ seed_selects svm qs s ∨ seed_selects svm qs' s.
Proof. unfold seed_selects. setoid_rewrite elem_of_app. naive_solver. Qed.

Lemma seed_selects_nil svm s : ¬ seed_selects svm [] s.
Proof. by intros (q & ?%elem_of_nil & _). Qed.

(** The chunks of a scope select what the scope names. *)
Lemma seed_selects_chunks (mk : list string → rootedVolumeLabelsQuery) svm (P : Sample → Prop) label names budget s :
  Forall (λ n, n ≠ "") names →
  (∀ c, bool_decide (rq_group (mk c) = groupSVM) = svm) →
  (∀ c, c ≠ [] → Forall (λ n, n ≠ "") c → selects (rq_matchers (mk c)) s ↔ P s ∧ label_of (s_Metric s) label ∈ c) →
  seed_selects svm (map mk (ChunkScope names budget)) s ↔ P s ∧ label_of (s_Metric s) label ∈ names.
Proof.
  intros Hn Hg Hm. destruct (ChunkScope_ok names budget) as [Hcat Hok]. rewrite Forall_forall in Hok. rewrite Forall_forall in Hn.
  assert (∀ c, c ∈ ChunkScope names budget → c ≠ [] ∧ Forall (λ n, n ≠ "") c) as Hc.
  { intros c Hc. destruct (Hok c Hc) as [Hne _]. split; [done|]. apply Forall_forall. intros n Hin. apply Hn.
    rewrite <-Hcat. apply elem_of_concat. by exists c. }
  unfold seed_selects. split.
  - intros (q & (c & -> & Hin)%list_elem_of_fmap & _ & Hsel). destruct (Hc c Hin).
    apply Hm in Hsel as [HP Hl]; [|done..]. split; [done|]. rewrite <-Hcat. apply elem_of_concat. by exists c.
  - intros [HP Hl]. rewrite <-Hcat in Hl. apply elem_of_concat in Hl as (c & Hin & Hl). destruct (Hc c Hin).
    exists (mk c). split; [by apply list_elem_of_fmap_2|]. split; [apply Hg|]. by apply Hm.
Qed.

Lemma seed_selects_bind {A} svm (f : A → list rootedVolumeLabelsQuery) (l : list A) s :
  seed_selects svm (l ≫= f) s ↔ ∃ x, x ∈ l ∧ seed_selects svm (f x) s.
Proof.
  unfold seed_selects. setoid_rewrite list_elem_of_bind. split.
  - intros (q & (x & Hq & Hx) & Hrest). exists x. split; [done|]. by exists q.
  - intros (x & Hx & q & Hq & Hrest). exists q. split; [by exists x|done].
Qed.

(** Pairs as a plan holds them. *)
Definition good_pairs (m : FilerNames) : Prop := m !! "" = None ∧ ∀ f, Forall (λ n, n ≠ "") (default [] (m !! f)).

Lemma qualifiedPairs_good refs : good_pairs (qualifiedPairs refs).
Proof.
  unfold qualifiedPairs, compactPairs. set (m := foldl _ _ refs).
  assert (m !! "" = None) as Hm.
  { unfold m. clear m. induction refs as [|r refs IH] using rev_ind; [apply lookup_empty|]. rewrite foldl_app. cbn [foldl].
    destruct (bool_decide (or_ONTAPCluster r = "")) eqn:E; [exact IH|]. apply bool_decide_eq_false in E.
    destruct (bool_decide (or_Name r = "")); cbn [orb]; [exact IH|]. by rewrite lookup_insert_ne. }
  split; [apply map_lookup_filter_None; left; by rewrite lookup_fmap, Hm|].
  intros f. destruct (filter _ (sortedNames <$> m) !! f) as [l|] eqn:E; [|constructor].
  apply map_lookup_filter_Some in E as [E _]. rewrite lookup_fmap in E. destruct (m !! f); [|done]. injection E as <-.
  apply sortedNames_proper.
Qed.

Lemma rq_matchers_svm cls svms s : Forall (λ n, n ≠ "") cls → Forall (λ n, n ≠ "") svms →
  selects (rq_matchers (mkRootedQuery groupSVM cls [] svms [] "")) s ↔
  (cls = [] ∨ row_filer s ∈ cls) ∧ (svms = [] ∨ label_of (s_Metric s) volumeLabelsSVMLabel ∈ svms).
Proof.
  intros Hc Hs. unfold rq_matchers. cbn [rq_group rq_clusters rq_svms]. unfold selects at 1. rewrite Forall_app.
  change (Forall _ (restriction VolumeLabelsClusterLabel cls)) with (selects (restriction VolumeLabelsClusterLabel cls) s).
  change (Forall _ (restriction volumeLabelsSVMLabel svms)) with (selects (restriction volumeLabelsSVMLabel svms) s).
  by rewrite !selects_restriction.
Qed.

Lemma rq_matchers_aggr cls aggrs s : Forall (λ n, n ≠ "") cls → Forall (λ n, n ≠ "") aggrs →
  selects (rq_matchers (mkRootedQuery groupAggr cls aggrs [] [] "")) s ↔
  (cls = [] ∨ row_filer s ∈ cls) ∧ (aggrs = [] ∨ row_aggr s ∈ aggrs).
Proof.
  intros Hc Hs. unfold rq_matchers. cbn [rq_group rq_clusters rq_aggrs]. unfold selects at 1. rewrite Forall_app.
  change (Forall _ (restriction VolumeLabelsClusterLabel cls)) with (selects (restriction VolumeLabelsClusterLabel cls) s).
  change (Forall _ (restriction volumeLabelsAggrLabel aggrs)) with (selects (restriction volumeLabelsAggrLabel aggrs) s).
  by rewrite !selects_restriction.
Qed.

(** Bare names on every filer and names within filers. *)
Lemma seed_selects_named (mk : list string → list string → rootedVolumeLabelsQuery) svm label bare pairs b bs s :
  (∀ cls c, bool_decide (rq_group (mk cls c) = groupSVM) = svm) →
  (∀ cls c, Forall (λ n, n ≠ "") cls → Forall (λ n, n ≠ "") c → selects (rq_matchers (mk cls c)) s ↔
    (cls = [] ∨ row_filer s ∈ cls) ∧ (c = [] ∨ label_of (s_Metric s) label ∈ c)) →
  Forall (λ n, n ≠ "") bare → good_pairs pairs →
  seed_selects svm ((if bool_decide (bare = []) then [] else map (mk []) (ChunkScope bare b)) ++
      (oc ← sorted_keys pairs; map (mk [oc]) (ChunkScope (default [] (pairs !! oc)) (bs oc)))) s ↔
  label_of (s_Metric s) label ∈ bare ∨ label_of (s_Metric s) label ∈ default [] (pairs !! row_filer s).
Proof.
  intros Hg Hm Hb [Hnone Hp]. rewrite seed_selects_app, seed_selects_bind. f_equiv.
  - case_bool_decide as He; [subst; rewrite elem_of_nil; split; [apply seed_selects_nil|done]|].
    rewrite (seed_selects_chunks (mk []) svm (λ _, True) label); [tauto|done|apply Hg|].
    intros c Hne Hc. rewrite Hm by done. naive_solver.
  - assert (∀ oc, oc ∈ sorted_keys pairs → seed_selects svm (map (mk [oc]) (ChunkScope (default [] (pairs !! oc)) (bs oc))) s ↔
      row_filer s = oc ∧ label_of (s_Metric s) label ∈ default [] (pairs !! oc)) as Hoc.
    { intros oc Hoc. apply elem_of_sorted_keys in Hoc.
      apply (seed_selects_chunks (mk [oc]) svm (λ s, row_filer s = oc)); [apply Hp|apply Hg|].
      intros c Hne Hc. rewrite Hm; [|apply Forall_singleton; intros ->; by rewrite Hnone in Hoc; destruct Hoc|done].
      rewrite list_elem_of_singleton. naive_solver. }
    split.
    + intros (oc & Hin & Hs). apply Hoc in Hs as [-> Hs]; done.
    + intros Hs. exists (row_filer s). assert (row_filer s ∈ sorted_keys pairs) as Hin.
      { apply elem_of_sorted_keys. destruct (pairs !! row_filer s); [by eexists|by apply elem_of_nil in Hs]. }
      split; [done|]. by apply Hoc.
Qed.

(** ** The hub's roots *)

(** A root of a filer, an aggregate or an SVM. *)
Definition hub_roots (r : StorageRoots) : Prop :=
  roots_Kind r ∈ [StorageRootONTAPCluster; StorageRootAggr; StorageRootSVM].

(** The row of a root, SVM roots apart. *)
Definition rooted_whole (r : planRoots) (s : Sample) : Prop :=
  row_filer s ∈ volumeClusters r ∨ row_aggr s ∈ volumeAggrs r ∨ row_aggr s ∈ default [] (volumeAggrPairs r !! row_filer s).

(** The SVM of a row. *)
Definition row_svm (s : Sample) : string := label_of (s_Metric s) volumeLabelsSVMLabel.

(** The row of an SVM root. *)
Definition rooted_svm (r : planRoots) (s : Sample) : Prop :=
  row_svm s ∈ volumeSVMs r ∨ row_svm s ∈ default [] (volumeSVMPairs r !! row_filer s).

Lemma sorted_keys_empty : sorted_keys ∅ = [].
Proof. by vm_compute. Qed.

Lemma good_pairs_empty : good_pairs ∅.
Proof. split; [done|]. intros f. rewrite lookup_empty. constructor. Qed.

Lemma capped_Some {A} (l l' : list A) : capped l = Some l' → l' = l.
Proof. unfold capped. destruct (_ <? _)%Z; [done|]. by intros [= <-]. Qed.

Lemma hub_seed_clusters clusters budget qs s : Forall (λ n, n ≠ "") clusters →
  rootedVolumeLabelsChunks clusters [] [] ∅ ∅ budget = Some qs →
  (seed_selects false qs s ↔ row_filer s ∈ clusters) ∧ ¬ seed_selects true qs s.
Proof.
  intros Hc. unfold rootedVolumeLabelsChunks. rewrite sorted_keys_empty. intros ->%capped_Some. cbn [app].
  rewrite !bool_decide_eq_true_2 by done. cbn [andb mbind list_bind]. rewrite !app_nil_r. cbn [app]. split.
  - rewrite (seed_selects_chunks _ false (λ _, True) VolumeLabelsClusterLabel); [unfold row_filer; tauto|done|done|].
    intros c Hne Hcn. rewrite rq_matchers_aggr by done. unfold row_filer. naive_solver.
  - intros (q & (c & -> & _)%list_elem_of_fmap & Hg & _). by vm_compute in Hg.
Qed.

Lemma hub_seed_aggrs aggrs pairs budget qs s : Forall (λ n, n ≠ "") aggrs → good_pairs pairs →
  rootedVolumeLabelsChunks [] aggrs [] pairs ∅ budget = Some qs →
  (seed_selects false qs s ↔ row_aggr s ∈ aggrs ∨ row_aggr s ∈ default [] (pairs !! row_filer s)) ∧ ¬ seed_selects true qs s.
Proof.
  intros Ha Hp. unfold rootedVolumeLabelsChunks. rewrite sorted_keys_empty. intros ->%capped_Some.
  assert ((if bool_decide (aggrs = []) && bool_decide (@nil string = []) && bool_decide (pairs = ∅) && bool_decide ((∅ : FilerNames) = ∅)
    then map (λ c, mkRootedQuery groupAggr c [] [] [] "") (ChunkScope [] budget) else []) = []) as -> by by destruct (_ && _).
  rewrite (bool_decide_eq_true_2 (@nil string = [])) by done. cbn [mbind list_bind app]. rewrite !app_nil_r. split.
  - apply (seed_selects_named (λ cls c, mkRootedQuery groupAggr cls c [] [] "") false volumeLabelsAggrLabel); [done| |done|done].
    intros cls c Hcls Hcn. by apply rq_matchers_aggr.
  - intros (q & Hq & Hg & _). assert (rq_group q = groupAggr) as He; [|by rewrite He in Hg].
    apply elem_of_app in Hq as [Hq|Hq].
    + destruct (bool_decide _) in Hq; [by apply elem_of_nil in Hq|]. by apply list_elem_of_fmap in Hq as (c & -> & _).
    + apply list_elem_of_bind in Hq as (oc & Hq & _). by apply list_elem_of_fmap in Hq as (c & -> & _).
Qed.

Lemma hub_seed_svms svms pairs budget qs s : Forall (λ n, n ≠ "") svms → good_pairs pairs →
  rootedVolumeLabelsChunks [] [] svms ∅ pairs budget = Some qs →
  (seed_selects true qs s ↔ row_svm s ∈ svms ∨ row_svm s ∈ default [] (pairs !! row_filer s)) ∧ ¬ seed_selects false qs s.
Proof.
  intros Ha Hp. unfold rootedVolumeLabelsChunks. rewrite sorted_keys_empty. intros ->%capped_Some.
  assert ((if bool_decide (@nil string = []) && bool_decide (svms = []) && bool_decide ((∅ : FilerNames) = ∅) && bool_decide (pairs = ∅)
    then map (λ c, mkRootedQuery groupAggr c [] [] [] "") (ChunkScope [] budget) else []) = []) as -> by by destruct (_ && _).
  rewrite (bool_decide_eq_true_2 (@nil string = [])) by done. cbn [mbind list_bind app]. split.
  - apply (seed_selects_named (λ cls c, mkRootedQuery groupSVM cls [] c [] "") true volumeLabelsSVMLabel); [done| |done|done].
    intros cls c Hcls Hcn. by apply rq_matchers_svm.
  - intros (q & Hq & Hg & _). assert (rq_group q = groupSVM) as He; [|by rewrite He in Hg].
    apply elem_of_app in Hq as [Hq|Hq].
    + destruct (bool_decide _) in Hq; [by apply elem_of_nil in Hq|]. by apply list_elem_of_fmap in Hq as (c & -> & _).
    + apply list_elem_of_bind in Hq as (oc & Hq & _). by apply list_elem_of_fmap in Hq as (c & -> & _).
Qed.

Lemma sortedNames_nonempty l : Forall (λ n, n ≠ "") (sortedNames l).
Proof. apply sortedNames_proper. Qed.

(** Which of the constants a root kind is. *)
Ltac root_kinds :=
  repeat match goal with
  | |- context [bool_decide (?a = ?b)] =>
      is_const a; is_const b; let v := eval vm_compute in (bool_decide (a = b)) in change (bool_decide (a = b)) with v
  end; cbn iota.

(** The seed of a hub root selects its rows. *)
Lemma hub_seed r budget keys sel qs s : hub_roots r → seed_queries budget keys sel (storageRootsPlan r) = Some qs →
  (seed_selects false qs s ↔ rooted_whole (storageRootsPlan r) s) ∧ (seed_selects true qs s ↔ rooted_svm (storageRootsPlan r) s).
Proof.
  unfold hub_roots, seed_queries, rooted_whole, rooted_svm. rewrite !elem_of_cons, elem_of_nil. intros Hk.
  destruct r as [k names refs pods claims]. cbn [roots_Kind] in Hk. unfold storageRootsPlan.
  cbn [roots_Kind roots_Names roots_Qualified volumeNodes volumeClusters volumeAggrs volumeSVMs volumeAggrPairs volumeSVMPairs].
  destruct Hk as [->|[->|[->|[]]]];
    root_kinds; cbn [some_of]; intros Hq.
  - apply (hub_seed_clusters _ _ _ s) in Hq as [Hw Hs]; [|apply sortedNames_nonempty]. rewrite lookup_empty. cbn [default].
    rewrite !elem_of_nil. tauto.
  - apply (hub_seed_aggrs _ _ _ _ s) in Hq as [Hw Hs]; [|apply sortedNames_nonempty|apply qualifiedPairs_good].
    rewrite lookup_empty. cbn [default]. rewrite !elem_of_nil. tauto.
  - apply (hub_seed_svms _ _ _ _ s) in Hq as [Hw Hs]; [|apply sortedNames_nonempty|apply qualifiedPairs_good].
    rewrite lookup_empty. cbn [default]. rewrite !elem_of_nil. tauto.
Qed.

(** ** Elections *)

(** A row that votes on the owner of an aggregate. *)
Definition votes (s : Sample) (f a : string) : Prop := row_filer s = f ∧ row_aggr s = a ∧ row_node s ≠ "".

(** The node an aggregate belongs to: the least one a row of it names. *)
Definition owned_by (rows : list Sample) (f a n : string) : Prop :=
  f ≠ "" ∧ a ≠ "" ∧ (∃ s, s ∈ rows ∧ votes s f a ∧ row_node s = n) ∧
  ∀ s, s ∈ rows → votes s f a → String.compare n (row_node s) ≠ Gt.

(** No row votes. *)
Definition unowned (rows : list Sample) (f a : string) : Prop :=
  f = "" ∨ a = "" ∨ ∀ s, s ∈ rows → ¬ votes s f a.

Lemma owner_votes_spec rows f a :
  match owner_votes rows !! (f, a) with Some n => owned_by rows f a n | None => unowned rows f a end.
Proof.
  unfold owner_votes. induction rows as [|s rows IH] using rev_ind.
  { cbn [foldl]. rewrite lookup_empty. right. right. by intros s ?%elem_of_nil. }
  rewrite foldl_app. cbn [foldl]. set (m := foldl _ ∅ rows) in *.
  assert (¬ votes s f a ∨ f = "" ∨ a = "" →
    match m !! (f, a) with Some n => owned_by (rows ++ [s]) f a n | None => unowned (rows ++ [s]) f a end) as Hskip.
  { intros Hs. destruct (m !! (f, a)) as [n|].
    - destruct IH as (Hf & Ha & (s' & Hs' & Hv) & Hmin). assert (¬ votes s f a) as Hn by tauto.
      split_and!; [done|done| |].
      + exists s'. split; [apply elem_of_app; by left|done].
      + intros s0 [?| ->%list_elem_of_singleton]%elem_of_app; [by apply Hmin|done].
    - destruct Hs as [Hs|[?|?]]; [|by left|right; by left]. destruct IH as [?|[?|IH]]; [by left|right; by left|].
      right. right. intros s0 [?| ->%list_elem_of_singleton]%elem_of_app; [by apply IH|done]. }
  destruct (bool_decide (row_filer s = "")) eqn:E1; cbn [orb].
  { apply bool_decide_eq_true in E1. apply Hskip. destruct (decide (f = "")); [tauto|left]. intros (? & _). congruence. }
  destruct (bool_decide (row_aggr s = "")) eqn:E2; cbn [orb].
  { apply bool_decide_eq_true in E2. apply Hskip. destruct (decide (a = "")); [tauto|left]. intros (_ & ? & _). congruence. }
  destruct (bool_decide (row_node s = "")) eqn:E3; cbn [orb].
  { apply bool_decide_eq_true in E3. apply Hskip. left. by intros (_ & _ & ?). }
  apply bool_decide_eq_false in E1. apply bool_decide_eq_false in E2. apply bool_decide_eq_false in E3.
  destruct (decide ((row_filer s, row_aggr s) = (f, a))) as [Heq|Hne]; cycle 1.
  { assert (¬ votes s f a) as Hn by (intros (<- & <- & _); done).
    assert ((match m !! (row_filer s, row_aggr s) with
             | Some cur => if str_lt (row_node s) cur then <[(row_filer s, row_aggr s):=row_node s]> m else m
             | None => <[(row_filer s, row_aggr s):=row_node s]> m
             end) !! (f, a) = m !! (f, a)) as ->; [|apply Hskip; by left].
    destruct (m !! (row_filer s, row_aggr s)); [destruct (str_lt _ _)|]; [by rewrite lookup_insert_ne|done|by rewrite lookup_insert_ne]. }
  injection Heq as <- <-. destruct (m !! (row_filer s, row_aggr s)) as [cur|] eqn:Em.
  - destruct IH as (_ & _ & (s' & Hs' & Hv & Hcur) & Hmin). destruct (str_lt (row_node s) cur) eqn:Elt.
    + rewrite lookup_insert_eq. split_and!; [done|done| |].
      * exists s. split; [apply elem_of_app; right; by apply list_elem_of_singleton|done].
      * intros s0 [Hs0| ->%list_elem_of_singleton]%elem_of_app Hv0; [|by rewrite gc_refl by apply _].
        apply (gc_trans (c:=String.compare) _ cur); [|by apply Hmin].
        unfold str_lt in Elt. apply bool_decide_eq_true in Elt. by rewrite Elt.
    + rewrite Em. split_and!; [done|done| |].
      * exists s'. split; [apply elem_of_app; by left|done].
      * intros s0 [Hs0| ->%list_elem_of_singleton]%elem_of_app Hv0; [by apply Hmin|].
        unfold str_lt in Elt. apply bool_decide_eq_false in Elt. rewrite (gc_antisym (c:=String.compare) (row_node s) cur).
        by destruct (String.compare (row_node s) cur).
  - rewrite lookup_insert_eq. split_and!; [done|done| |].
    + exists s. split; [apply elem_of_app; right; by apply list_elem_of_singleton|done].
    + intros s0 [Hs0| ->%list_elem_of_singleton]%elem_of_app Hv0; [|by rewrite gc_refl by apply _].
      destruct IH as [?|[?|IH]]; [done|done|]. by destruct (IH s0 Hs0).
Qed.

Lemma owned_by_unique rows f a n n' : owned_by rows f a n → owned_by rows f a n' → n = n'.
Proof.
  intros (_ & _ & (s & Hs & Hv & <-) & Hmin) (_ & _ & (s' & Hs' & Hv' & <-) & Hmin'). apply (gcs_eq (c:=String.compare)).
  apply gc_eq_le; [apply _|]. split; [by apply Hmin|by apply Hmin'].
Qed.

(** An election sees only the rows of its aggregate. *)
Lemma owned_by_same rows rows' f a n : (∀ s, row_filer s = f → row_aggr s = a → s ∈ rows ↔ s ∈ rows') →
  owned_by rows f a n → owned_by rows' f a n.
Proof.
  intros Hsame (Hf & Ha & (s & Hs & (Hsf & Hsa & Hsn) & Hn) & Hmin). split_and!; [done|done| |].
  - exists s. split; [by apply Hsame|done].
  - intros s' Hs' (Hf' & Ha' & Hn'). apply Hmin; [by apply Hsame|done].
Qed.

Lemma elem_of_rowsOwnedBy rows rs s : Forall (λ n, n ≠ "") rs →
  s ∈ rowsOwnedBy rows rs ↔ s ∈ rows ∧ ∃ n, n ∈ rs ∧ owned_by rows (row_filer s) (row_aggr s) n.
Proof.
  intros Hrs. unfold rowsOwnedBy. rewrite list_elem_of_filter.
  enough (default "" (owner_votes rows !! (row_filer s, row_aggr s)) ∈ rs ↔
          ∃ n, n ∈ rs ∧ owned_by rows (row_filer s) (row_aggr s) n) by tauto.
  pose proof (owner_votes_spec rows (row_filer s) (row_aggr s)) as Ho. rewrite Forall_forall in Hrs.
  destruct (owner_votes rows !! (row_filer s, row_aggr s)) as [n|]; cbn [default].
  - split; [intros Hn; by exists n|]. intros (n' & Hn' & Ho'). by rewrite (owned_by_unique _ _ _ _ _ Ho Ho').
  - split; [intros Hn; by destruct (Hrs _ Hn)|]. intros (n & _ & Hf & Ha & (s' & Hs' & Hv & _) & _).
    destruct Ho as [?|[?|Ho]]; [done|done|]. by destruct (Ho s').
Qed.

Section reads.
Context `{Querier} `{Scheduler} `{MetricFingerprint} (window : Z) (opts : Options) (sel : Selector).
Context (estate : Query → list Sample) `{!Honest estate window (opt_LabelKeys opts) sel}.

#[local] Abbreviation keys := (opt_LabelKeys opts).
#[local] Abbreviation volumes := (estate QVolumeLabels).

Lemma elem_of_rq_rows qs s :
  s ∈ mjoin (map (rq_rows estate) qs) ↔ s ∈ volumes ∧ (seed_selects false qs s ∨ seed_selects true qs s).
Proof.
  rewrite mjoin_concat, elem_of_concat. split.
  - intros (l & (q & -> & Hq)%list_elem_of_fmap & Hs). apply list_elem_of_filter in Hs as [Hsel Hs]. split; [done|].
    destruct (bool_decide (rq_group q = groupSVM)) eqn:E; [right|left]; by exists q.
  - intros [Hs [(q & Hq & _ & Hsel)|(q & Hq & _ & Hsel)]]; (exists (rq_rows estate q); split;
      [by apply list_elem_of_fmap_2|by apply list_elem_of_filter]).
Qed.

(** ** The ontap_node seed *)

(** A request of controllers. *)
Record controller_request (r : StorageRoots) : Prop := {
  cq_kind : roots_Kind r = StorageRootONTAPNode;
  cq_names : sortedNames (roots_Names r) ≠ [];
}.

Lemma controller_seed r plan s : controller_request r →
  prepare window (qosScopeBatchBytes opts) keys sel (storagePlan r) = Ok plan →
  volumeNodes (roots plan) = sortedNames (roots_Names r) ∧
  Forall (rendered window opts sel) (phaseOne plan) ∧
  (seed_selects false (phaseOne plan) s ∨ seed_selects true (phaseOne plan) s ↔ row_node s ∈ sortedNames (roots_Names r)).
Proof.
  intros [Hk Hn] Hp. destruct r as [k names refs ps claims]. cbn [roots_Kind roots_Names] in *. subst k.
  assert (volumeNodes (storageRootsPlan (mkStorageRoots StorageRootONTAPNode names refs ps claims)) = sortedNames names) as Hv by done.
  apply prepare_seed in Hp as (Hr & Hren & qs & Hqs & Hkey).
  2: { unfold harvestSeed. rewrite Hv. destruct (sortedNames names); [done|]. by rewrite !orb_true_r. }
  rewrite Hr, Hv. split_and!; [done|exact Hren|]. rewrite !(seed_selects_key _ _ _ _ Hkey).
  unfold seed_queries in Hqs. rewrite Hv in Hqs. destruct (some_of (sortedNames names)) eqn:E; [|by destruct (sortedNames names)].
  apply capped_Some in Hqs as ->. rewrite (seed_selects_chunks _ false (λ _, True) NodeLabel).
  - split; [|by left]. intros [[_ ?]|(q & (c & -> & _)%list_elem_of_fmap & Hg & _)]; [done|by vm_compute in Hg].
  - apply sortedNames_nonempty.
  - done.
  - intros c Hne Hc. unfold rq_matchers. cbn [rq_group rq_nodes]. rewrite selects_restriction by done. naive_solver.
Qed.

(** A read of controllers loads exactly the rows of the aggregates a requested
    controller owns, an aggregate belonging to the least controller any row of
    the estate names for it: the vote over what was re-read elects the owner the
    vote over the whole estate elects. *)
Theorem ontap_node_read_exact r plan : one_series volumes → controller_request r →
  prepare window (qosScopeBatchBytes opts) keys sel (storagePlan r) = Ok plan →
  ∃ rows, readONTAPNodeVolumeLabels window opts sel plan = Ok (rows, []) ∧
    ∀ s, s ∈ rows ↔ s ∈ volumes ∧ ∃ n, n ∈ sortedNames (roots_Names r) ∧ owned_by volumes (row_filer s) (row_aggr s) n.
Proof.
  intros Hone Hq Hp. unfold readONTAPNodeVolumeLabels.
  destruct (controller_seed _ _ (mkSample ∅ (Float64.f_of_Z 0) 0) Hq Hp) as (Hnodes & Hren & _).
  assert (∀ s, seed_selects false (phaseOne plan) s ∨ seed_selects true (phaseOne plan) s ↔ row_node s ∈ sortedNames (roots_Names r)) as Hsel.
  { intros s. by destruct (controller_seed _ _ s Hq Hp) as (_ & _ & ?). }
  pose proof (phase_one_parts window opts sel estate _ Hren) as Hseed. unfold issueVolumeLabelsQueries at 1.
  rewrite Hseed. cbn [rbind]. set (seeded := mjoin (map (rq_rows estate) (phaseOne plan))).
  assert (∀ s, s ∈ seeded ↔ s ∈ volumes ∧ row_node s ∈ sortedNames (roots_Names r)) as Hs.
  { intros s. unfold seeded. by rewrite elem_of_rq_rows, Hsel. }
  destruct (readOwnerCompletion_ok window opts sel estate (aggregatesTouched seeded)) as (completed & -> & Hc).
  { intros f a Ha. by apply elem_of_aggregatesTouched in Ha as (_ & ? & _). }
  cbn [rbind]. eexists. split; [done|]. intros s. rewrite Hnodes, elem_of_rowsOwnedBy by apply sortedNames_nonempty.
  assert (∀ s, s ∈ mergeVolumeLabels seeded completed ↔ s ∈ seeded ∨ s ∈ completed) as Hm.
  { intros s0. apply (elem_of_merge volumes); [done|intros ? ?%Hs; tauto|intros ? ?%Hc; tauto]. }
  (* the merged rows hold every row of an aggregate a seeded row is of *)
  assert (∀ f a, f ≠ "" → a ≠ "" → (∃ s0, s0 ∈ seeded ∧ row_filer s0 = f ∧ row_aggr s0 = a) →
    ∀ s0, row_filer s0 = f → row_aggr s0 = a → s0 ∈ mergeVolumeLabels seeded completed ↔ s0 ∈ volumes) as Hwhole.
  { intros f a Hf Ha Hex s0 <- <-. rewrite Hm, Hs, Hc, elem_of_aggregatesTouched. tauto. }
  split.
  - intros (Hin & n & Hn & Ho). split; [apply Hm in Hin as [?%Hs|?%Hc]; tauto|]. exists n. split; [done|].
    pose proof Ho as (Hf & Ha & (s' & Hs' & (Hf' & Ha' & _) & Hn') & _). apply (owned_by_same _ _ _ _ _) with (2 := Ho).
    apply Hwhole; [done|done|]. exists s'. split_and!; [|done|done]. apply Hs. subst n. split; [|done].
    apply Hm in Hs' as [?%Hs|?%Hc]; tauto.
  - intros (Hin & n & Hn & Ho). pose proof Ho as (Hf & Ha & (s' & Hs' & (Hf' & Ha' & _) & Hn') & _).
    assert (∀ s0, row_filer s0 = row_filer s → row_aggr s0 = row_aggr s → s0 ∈ mergeVolumeLabels seeded completed ↔ s0 ∈ volumes) as Hw.
    { apply Hwhole; [done|done|]. exists s'. split_and!; [|done|done]. apply Hs. subst n. done. }
    split; [by apply Hw|]. exists n. split; [done|]. apply (owned_by_same volumes); [|done]. intros s0 Hf0 Ha0. by rewrite Hw.
Qed.

(** ** The hub's read *)

(** The token queries of the read are answered: [.*<literal>] selects the rows
    whose FlexVol ends in the token, [!~] the rows on other filers. *)
Definition answers_tokens (toks excl : list string) : Prop :=
  ∀ c text, c ∈ ChunkSuffixTokenScope toks (qosScopeBatchBytes opts) →
    RenderVolumeLabelsTokenScoped window keys sel c true excl = Some text →
    Instant QVolumeLabels text = Ok (filter (token_row c excl) volumes).

(** A row whose FlexVol is a candidate of one of the tokens. *)
Definition token_candidate (toks : list string) (s : Sample) : Prop :=
  ∃ t, t ∈ toks ∧ has_suffix (label_of (s_Metric s) HarvestVolumeLabel) t = true.

Lemma token_chunks_answer excl (cs : list (list string)) :
  (∀ c text, c ∈ cs → RenderVolumeLabelsTokenScoped window keys sel c true excl = Some text →
    Instant QVolumeLabels text = Ok (filter (token_row c excl) volumes)) →
  Forall (λ c, hasValue c = true) cs →
  ∃ texts, render_tokens window opts sel excl cs = Ok texts ∧
    Forall2 (λ text rows, Instant QVolumeLabels text = Ok rows) texts (map (λ c, filter (token_row c excl) volumes) cs).
Proof.
  induction cs as [|c cs IH]; intros Ha Hc; [exists []; split; [done|constructor]|].
  apply Forall_cons in Hc as [Hv Hc]. destruct IH as (texts & Ht & Hf); [intros c' text Hin; apply Ha; by right|done|].
  cbn [render_tokens]. destruct (RenderVolumeLabelsTokenScoped window keys sel c true excl) as [text|] eqn:E.
  - rewrite Ht. exists (text :: texts). split; [done|]. constructor; [|done]. apply Ha; [left|done].
  - exfalso. unfold RenderVolumeLabelsTokenScoped in E. case_bool_decide as Hn; [|done].
    apply normaliseValues_nil in Hn. congruence.
Qed.

Lemma issueTokenVolumeLabels_ok toks excl : Forall (λ t, t ≠ "") toks → answers_tokens toks excl →
  ∃ rows, issueTokenVolumeLabels window opts sel toks excl = Ok rows ∧
    ∀ s, s ∈ rows ↔ s ∈ volumes ∧ (row_filer s ∉ normaliseValues excl) ∧ token_candidate toks s.
Proof.
  intros Ht Ha. unfold issueTokenVolumeLabels. case_bool_decide as He.
  { exists []. split; [done|]. intros s. subst. split; [by intros ?%elem_of_nil|]. by intros (_ & _ & t & ?%elem_of_nil & _). }
  destruct (chunkScope_spec toks (qosScopeBatchBytes opts) VolumeTokenBranchOverhead 0) as (Hcat & Hok & _).
  fold (ChunkSuffixTokenScope toks (qosScopeBatchBytes opts)) in Hcat, Hok. rewrite Forall_forall in Hok. rewrite Forall_forall in Ht.
  assert (∀ c, c ∈ ChunkSuffixTokenScope toks (qosScopeBatchBytes opts) → Forall (λ t, t ≠ "") c) as Hc.
  { intros c Hc. apply Forall_forall. intros t Hin. apply Ht. rewrite <-Hcat. apply elem_of_concat. by exists c. }
  destruct (token_chunks_answer excl (ChunkSuffixTokenScope toks (qosScopeBatchBytes opts)) Ha) as (texts & -> & Hf).
  { apply Forall_forall. intros c Hin. apply proper_has_value; [by destruct (Hok c Hin)|by apply Hc]. }
  eexists. split; [by apply queries_answered|]. intros s. rewrite mjoin_concat, elem_of_concat. split.
  - intros (l & (c & -> & Hin)%list_elem_of_fmap & Hs). apply list_elem_of_filter in Hs as [[Hx (t & Htc & Hsuf)] Hs].
    split_and!; [done|done|]. exists t. split; [|done]. rewrite elem_of_normalised in Htc by (by apply Hc). rewrite <-Hcat.
    apply elem_of_concat. by exists c.
  - intros (Hs & Hx & t & Htoks & Hsuf). rewrite <-Hcat in Htoks. apply elem_of_concat in Htoks as (c & Hin & Htc).
    exists (filter (token_row c excl) volumes). split; [apply list_elem_of_fmap; by exists c|]. apply list_elem_of_filter. split; [|done].
    split; [done|]. exists t. split; [|done]. apply elem_of_normalised; [by apply Hc|done].
Qed.

Lemma matchedClaimTokens_nonempty pvcInfo rows rw : Forall (λ t, t ≠ "") (matchedClaimTokens pvcInfo rows rw).
Proof.
  unfold matchedClaimTokens. destruct (_ || _); [constructor|]. destruct (claimVolumeMatcher _ _) as [[claims m]|]; [|constructor].
  apply Forall_forall. intros t Hin. rewrite (elem_of_sort_compact String.compare) in Hin. by apply list_elem_of_filter in Hin as [? _].
Qed.

(** What a hub root rules out. *)
Lemma hub_cases r : hub_roots r →
  let p := storageRootsPlan r in
  volumeNodes p = [] ∧
  ((svmRoots p = true ∧ volumeClusters p = [] ∧ (∀ s, ¬ rooted_whole p s) ∧ ∀ f a, readWhole p f a = false) ∨
   (svmRoots p = false ∧ ∀ s, ¬ rooted_svm p s)).
Proof.
  intros Hk p. unfold hub_roots in Hk. rewrite !elem_of_cons, elem_of_nil in Hk.
  assert (volumeNodes p = []) as Hn by (destruct Hk as [Hk|[Hk|[Hk|[]]]]; unfold p, storageRootsPlan; cbn; by rewrite Hk).
  split; [done|]. destruct (svmRoots p) eqn:E.
  - left. clear Hn. revert E. destruct r as [k names refs ps claims]. cbn [roots_Kind] in Hk. unfold p, storageRootsPlan.
    unfold svmRoots, rooted_whole, readWhole.
    cbn [roots_Kind roots_Names roots_Qualified volumeClusters volumeAggrs volumeSVMs volumeAggrPairs volumeSVMPairs].
    destruct Hk as [->|[->|[->|[]]]]; root_kinds; intros E; [by vm_compute in E|by vm_compute in E|]. split_and!; [done|done| |].
    + intros s. rewrite lookup_empty. cbn. rewrite !elem_of_nil. tauto.
    + intros f a. rewrite lookup_empty. done.
  - right. split; [done|]. intros s. unfold svmRoots in E. apply orb_false_iff in E as [E1 E2].
    apply negb_false_iff, bool_decide_eq_true in E2. unfold rooted_svm. rewrite E2, lookup_empty.
    destruct (volumeSVMs p); [|done]. cbn. rewrite !elem_of_nil. tauto.
Qed.

(** A row the request or a matched claim names. *)
Definition candidate (r : StorageRoots) (toks : list string) (s : Sample) : Prop :=
  rooted_whole (storageRootsPlan r) s ∨ rooted_svm (storageRootsPlan r) s ∨ token_candidate toks s.

(** Two rows of one aggregate. *)
Definition same_aggregate (s s' : Sample) : Prop :=
  row_filer s = row_filer s' ∧ row_aggr s = row_aggr s' ∧ row_filer s ≠ "" ∧ row_aggr s ≠ "".

Lemma elem_of_targets rows r s :
  row_aggr s ∈ default [] (ownerCompletionTargets rows r !! row_filer s) ↔
  readWhole r (row_filer s) (row_aggr s) = false ∧ ∃ s', s' ∈ rows ∧ same_aggregate s s'.
Proof.
  rewrite elem_of_ownerCompletionTargets. unfold same_aggregate. split.
  - intros (Hf & Ha & Hw & s' & Hs' & Hf' & Ha'). split; [done|]. by exists s'.
  - intros (Hw & s' & Hs' & Hf' & Ha' & Hf & Ha). split_and!; [done..|]. by exists s'.
Qed.

(** Phase 1 of a hub root. *)
Lemma hub_phase_one r plan : one_series volumes → hub_roots r → harvestSeed (storageRootsPlan r) = true →
  prepare window (qosScopeBatchBytes opts) keys sel (storagePlan r) = Ok plan →
  roots plan = storageRootsPlan r ∧
  ∃ first svm, readRootedVolumeLabels (phaseOne plan) = Ok (first, svm) ∧
    (∀ s, s ∈ first ↔ s ∈ volumes ∧ (rooted_whole (storageRootsPlan r) s ∨ rooted_svm (storageRootsPlan r) s)) ∧
    (∀ s, s ∈ svm ↔ s ∈ volumes ∧ rooted_svm (storageRootsPlan r) s).
Proof.
  intros Hone Hhub Hseed Hp. apply prepare_seed in Hp as (Hr & Hren & qs & Hqs & Hkey); [|done]. split; [done|].
  assert (∀ svm s, s ∈ group_rows svm (phaseOne plan) (map (rq_rows estate) (phaseOne plan)) ↔
            s ∈ volumes ∧ if svm then rooted_svm (storageRootsPlan r) s else rooted_whole (storageRootsPlan r) s) as Hg.
  { intros svm s. destruct (hub_seed _ _ _ _ _ s Hhub Hqs) as [Hw Hs]. rewrite elem_of_group_rows.
    destruct svm; [rewrite <-Hs|rewrite <-Hw]; rewrite <-(seed_selects_key _ _ _ _ Hkey); unfold seed_selects; naive_solver. }
  unfold readRootedVolumeLabels. rewrite (phase_one_parts window opts sel estate _ Hren). cbn [rbind].
  eexists _, _. split; [done|]. split; [|intros s; exact (Hg true s)].
  intros s. rewrite (elem_of_merge volumes); [rewrite (Hg false), (Hg true); tauto|done|intros ? ?%(Hg false); tauto|intros ? ?%(Hg true); tauto].
Qed.

(** C15: The Harvest seed of a hub root loads, whatever the chunking, exactly the
    candidates: once the tail ran, the family holds the estate's rows of the
    requested filers, aggregates or SVMs, and every row whose FlexVol ends in the
    token of a claim a rooted row matched, wherever it is (rows on filers that
    were read whole are not read twice). Under an SVM root it also holds every
    row of an aggregate one of those rows is on, so the owner vote runs over
    whole aggregates. The read always returns. *)
Theorem hub_candidates_exact r plan rw v : one_series volumes → hub_roots r → harvestSeed (storageRootsPlan r) = true →
  prepare window (qosScopeBatchBytes opts) keys sel (storagePlan r) = Ok plan →
  ∃ first svm, readRootedVolumeLabels (phaseOne plan) = Ok (first, svm) ∧
    let toks := matchedClaimTokens (rows_of v QPVCInfo) first rw in
    let excl := if aggrRoots (storageRootsPlan r) || svmRoots (storageRootsPlan r) then []
                else volumeClusters (storageRootsPlan r) in
    (rows_of v QVolumeLabels = first → answers_tokens toks excl →
     ∃ rows, readVolumeLabelsTail window opts sel rw plan svm v = Ok (<[QVolumeLabels := rows]> v) ∧
       ∀ s, s ∈ rows ↔ s ∈ volumes ∧
         (candidate r toks s ∨
          svmRoots (storageRootsPlan r) = true ∧ ∃ s', s' ∈ volumes ∧ candidate r toks s' ∧ same_aggregate s s')).
Proof.
  intros Hone Hhub Hseed Hp. destruct (hub_phase_one r plan Hone Hhub Hseed Hp) as (Hr & first & svm & Hread & Hfirst & Hsvm).
  exists first, svm. split; [done|]. intros toks excl Hv Ha. unfold readVolumeLabelsTail. rewrite Hr.
  destruct (readOwnerCompletion_ok window opts sel estate (ownerCompletionTargets svm (storageRootsPlan r)))
    as (compl & Hcompl & Hc); [by intros f a (_ & ? & _)%elem_of_ownerCompletionTargets|].
  destruct (issueTokenVolumeLabels_ok toks excl) as (two & Htwo & H2); [apply matchedClaimTokens_nonempty|done|].
  assert (readTokenScopedVolumeLabels window opts sel rw plan v = Ok two) as ->.
  { unfold readTokenScopedVolumeLabels. rewrite Hv, Hr. fold toks. fold excl. rewrite <-Htwo. unfold issueTokenVolumeLabels.
    by case_bool_decide. }
  rewrite Hcompl. cbn [err_of got app rbind]. unfold parallel at 1. cbn [rbind].
  destruct (hub_cases r Hhub) as [Hnodes Hcases]. rewrite Hnodes. cbn [some_of]. rewrite orb_false_r.
  assert (∀ s, token_candidate toks s → s ∈ volumes → s ∈ two ∨ rooted_whole (storageRootsPlan r) s) as Htok.
  { intros s Ht Hs. destruct (decide (row_filer s ∈ normaliseValues excl)) as [Hx|Hx]; [right|left; by apply H2].
    apply elem_of_normaliseValues in Hx as [Hx _]. unfold excl in Hx. destruct (aggrRoots _ || svmRoots _); [by apply elem_of_nil in Hx|]. by left. }
  assert (∀ s, s ∈ mergeVolumeLabels first compl ↔ s ∈ first ∨ s ∈ compl) as Hm1.
  { intros s. apply (elem_of_merge volumes); [done|intros ? ?%Hfirst; tauto|intros ? ?%Hc; tauto]. }
  assert (∀ s, s ∈ mergeVolumeLabels (mergeVolumeLabels first compl) two ↔ s ∈ first ∨ s ∈ compl ∨ s ∈ two) as Hm2.
  { intros s. rewrite (elem_of_merge volumes), Hm1; [tauto|done|intros ? [?%Hfirst|?%Hc]%Hm1; tauto|intros ? ?%H2; tauto]. }
  destruct Hcases as [(Hsvms & Hcl & Hnw & Hwhole)|(Hsvms & Hns)]; rewrite Hsvms.
  - destruct (readOwnerCompletion_ok window opts sel estate (late_targets plan v (ownerCompletionTargets svm (storageRootsPlan r)) two))
      as (late & -> & Hl).
    { unfold late_targets. rewrite Hr, Hnodes. cbn [some_of].
      by intros f a [(_ & ? & _)%elem_of_ownerCompletionTargets _]%elem_of_withoutTargets. }
    cbn [rbind]. rewrite Hv. eexists. split; [done|]. intros s.
    rewrite (elem_of_merge volumes), Hm2, Hfirst, Hc, H2, Hl;
      [|done|intros ? [?%Hfirst|[?%Hc|?%H2]]%Hm2; tauto|intros ? ?%Hl; tauto].
    unfold late_targets. rewrite Hr, Hnodes. cbn [some_of]. rewrite elem_of_withoutTargets.
    assert (∀ s, s ∈ two ↔ s ∈ volumes ∧ token_candidate toks s) as H2'.
    { intros s0. rewrite H2. unfold excl. rewrite Hsvms, orb_true_r. split; [tauto|]. intros []. split_and!; [done| |done].
      by intros ?%elem_of_nil. }
    rewrite <-H2. destruct (decide (row_aggr s ∈ default [] (ownerCompletionTargets svm (storageRootsPlan r) !! row_filer s))) as [Hd|Hd].
    + split.
      * intros [[[??]|[[? _]|[? _]%H2']]|(? & _ & ?)]; (split; [done|]); [right|right|right|done]; (split; [done|]);
          apply elem_of_targets in Hd as (_ & s' & [? ?]%Hsvm & Hsame); exists s'; (split_and!; [done|right; by left|done]).
      * tauto.
    + rewrite H2', (elem_of_targets two), Hwhole. split.
      * intros [[[? [?|?]]|[[??]|[??]]]|(? & (_ & s' & [??]%H2' & ?) & _)]; (split; [done|]).
        -- left. by left.
        -- left. right. by left.
        -- done.
        -- left. right. by right.
        -- right. split; [done|]. exists s'. split_and!; [done|right; by right|done].
      * intros [? [[Hw|[?|?]]|(_ & s' & ? & [Hw|[?|?]] & ?)]]; [by destruct (Hnw s)|tauto|tauto|by destruct (Hnw s')| |].
        -- destruct Hd. apply elem_of_targets. rewrite Hwhole. split; [done|]. exists s'. split; [by apply Hsvm|done].
        -- right. split_and!; [done|done| |done]. exists s'. split; [by apply H2'|done].
  - cbn [rbind]. rewrite Hv. eexists. split; [done|]. intros s.
    rewrite (elem_of_merge volumes), Hm2, Hfirst, Hc, H2;
      [|done|intros ? [?%Hfirst|[?%Hc|?%H2]]%Hm2; tauto|intros ? ?%elem_of_nil; tauto].
    unfold candidate. rewrite elem_of_ownerCompletionTargets. setoid_rewrite Hsvm.
    split.
    + intros [[?|[(_ & _ & _ & _ & s' & (_ & Hs') & _)|?]]|?%elem_of_nil]; [tauto|by apply Hns in Hs'|tauto|done].
    + intros [Hs [[?|[?|Ht]]|[? _]]]; [tauto|tauto| |done]. destruct (Htok s Ht Hs) as [?%H2|?]; tauto.
Qed.
End reads.

Lemma one_series_NoDup `{MetricFingerprint} rows : NoDup (fps rows) → one_series rows.
Proof.
  intros Hnd s s' (i & Hi)%list_elem_of_lookup (j & Hj)%list_elem_of_lookup Heq. assert (i = j) as ->; [|congruence].
  apply (NoDup_lookup (fps rows) i j (fingerprint (s_Metric s))); [done| |]; unfold fps; rewrite list_lookup_fmap.
  - by rewrite Hi.
  - by rewrite Hj, Heq.
Qed.

(** ** An estate *)

Module Filers.
Definition row (l : list (string * string)) : Sample := mkSample (list_to_map l) (Float64.f_of_Z 1) 5%Z.
Definition flexvol f a n svm vol := row [("cluster", f); ("aggr", a); ("node", n); ("svm", svm); ("volume", vol)].

(** The volume of claim pvc_1 on svm1 and its clone on another filer. *)
Definition volumes : list Sample :=
  [flexvol "f1" "a1" "n1" "svm1" "trident_pvc_1"; flexvol "f1" "a1" "n0" "svm2" "other";
   flexvol "f2" "a9" "n2" "svm3" "clone_pvc_1"; flexvol "f2" "a9" "n3" "svm4" "u"; flexvol "f3" "a1" "n1" "svm4" "w"].
Definition estate (q : Query) : list Sample := if String.eqb q QVolumeLabels then volumes else [].
Definition claims : list Sample := [row [("persistentvolumeclaim", "data"); ("volumename", "pvc_1")]].

Definition window : Z := 300000000000.
Definition opts : Options := mkOptions DefaultLabelKeys None None 0.
Definition sel : Selector := mkSelector ["z1"] [] [] [].
Definition label_hash : MetricFingerprint := λ m, Z.pos (encode m).
Definition scheduler : Scheduler.
Proof. refine {| first_failed := λ e _, e |}. intros e es. by left. Defined.
(** It answers the query of the one token besides the selectors it reads. *)
Definition querier : Querier :=
  {| Instant := λ q text,
       match added_matchers q window (opt_LabelKeys opts) sel text with
       | Some ms => Ok (filter (selects ms) (estate q))
       | None =>
           if bool_decide (RenderVolumeLabelsTokenScoped window (opt_LabelKeys opts) sel ["pvc_1"] true [] = Some text)
           then Ok (filter (token_row ["pvc_1"] []) volumes) else Err (own_error "unsupported query")
       end;
     FamilyServer := None |}.
Lemma is_honest : @Honest estate window (opt_LabelKeys opts) sel querier.
Proof. intros q ms text Hne Htext. cbn. by rewrite (added_matchers_extends _ _ _ _ ms). Qed.

Definition plan_of (r : StorageRoots) : topologyPlan :=
  match prepare window (qosScopeBatchBytes opts) (opt_LabelKeys opts) sel (storagePlan r) with Ok p => p | Err _ => fullPlan end.
Definition svm_root : StorageRoots := mkStorageRoots StorageRootSVM ["svm1"] [] [] [].
Definition controller_root : StorageRoots := mkStorageRoots StorageRootONTAPNode ["n1"] [] [] [].
(** The FlexVols of rows. *)
Definition names (rows : list Sample) : list string := map (λ s, label_of (s_Metric s) "volume") rows.

Lemma distinct : @one_series label_hash volumes.
Proof. apply one_series_NoDup. apply (bool_decide_unpack _). by vm_compute. Qed.
End Filers.
#[local] Existing Instances Filers.querier Filers.scheduler Filers.label_hash Filers.is_honest.

Lemma ontap_node_read_exact_witness :
  ∃ rows, readONTAPNodeVolumeLabels Filers.window Filers.opts Filers.sel (Filers.plan_of Filers.controller_root) = Ok (rows, []) ∧
    Filers.names rows = ["w"].
Proof.
  destruct (ontap_node_read_exact Filers.window Filers.opts Filers.sel Filers.estate Filers.controller_root
              (Filers.plan_of Filers.controller_root)) as (rows & Hr & _).
  - exact Filers.distinct.
  - split; [done|]. by vm_compute.
  - vm_compute. reflexivity.
  - exists rows. split; [exact Hr|].
    assert (match readONTAPNodeVolumeLabels Filers.window Filers.opts Filers.sel (Filers.plan_of Filers.controller_root) with
            | Ok p => Filers.names p.1 | Err _ => [] end = ["w"]) as Hn by (vm_compute; reflexivity).
    rewrite Hr in Hn. exact Hn.
Defined.

(** What landed when the tail starts. *)
Definition after_phase_one : landed :=
  <[QVolumeLabels := match readRootedVolumeLabels (phaseOne (Filers.plan_of Filers.svm_root)) with Ok p => p.1 | Err _ => [] end]>
    (<[QPVCInfo := Filers.claims]> ∅).
(** The tail of the read. *)
Definition hub_tail : result readError landed :=
  match readRootedVolumeLabels (phaseOne (Filers.plan_of Filers.svm_root)) with
  | Ok p => readVolumeLabelsTail Filers.window Filers.opts Filers.sel [] (Filers.plan_of Filers.svm_root) p.2 after_phase_one
  | Err e => Err e
  end.

Lemma hub_candidates_exact_witness :
  ∃ rows, hub_tail = Ok (<[QVolumeLabels := rows]> after_phase_one) ∧
    ∀ s, s ∈ rows ↔ s ∈ Filers.volumes ∧
      (candidate Filers.svm_root ["pvc_1"] s ∨
       ∃ s', s' ∈ Filers.volumes ∧ candidate Filers.svm_root ["pvc_1"] s' ∧ same_aggregate s s').
Proof.
  destruct (hub_candidates_exact Filers.window Filers.opts Filers.sel Filers.estate Filers.svm_root
              (Filers.plan_of Filers.svm_root) [] after_phase_one Filers.distinct) as (first & svm & Hread & Htail).
  - right. right. left.
  - by vm_compute.
  - vm_compute. reflexivity.
  - assert (rows_of after_phase_one QVolumeLabels = first) as Hfirst.
    { unfold after_phase_one. rewrite rows_of_insert. by rewrite Hread. }
    assert (matchedClaimTokens (rows_of after_phase_one QPVCInfo) first [] = ["pvc_1"]) as Htoks.
    { rewrite <-Hfirst. vm_compute. reflexivity. }
    cbv zeta in Htail. rewrite Htoks in Htail.
    assert ((if aggrRoots (storageRootsPlan Filers.svm_root) || svmRoots (storageRootsPlan Filers.svm_root) then []
             else volumeClusters (storageRootsPlan Filers.svm_root)) = []) as Hex by (vm_compute; reflexivity).
    rewrite Hex in Htail. destruct Htail as (rows & Ht & Hrows).
    + exact Hfirst.
    + intros c text Hc Htext. assert (ChunkSuffixTokenScope ["pvc_1"] (qosScopeBatchBytes Filers.opts) = [["pvc_1"]]) as Hch by (vm_compute; reflexivity).
      rewrite Hch in Hc. apply list_elem_of_singleton in Hc as ->. cbn [Instant Filers.querier].
      rewrite Htext, bool_decide_eq_true_2 by done.
      assert (match RenderVolumeLabelsTokenScoped Filers.window (opt_LabelKeys Filers.opts) Filers.sel ["pvc_1"] true [] with
              | Some t => added_matchers QVolumeLabels Filers.window (opt_LabelKeys Filers.opts) Filers.sel t | None => None end = None)
        as Hno by (vm_compute; reflexivity).
      rewrite Htext in Hno. by rewrite Hno.
    + exists rows. split; [unfold hub_tail; by rewrite Hread|]. intros s. rewrite Hrows.
      assert (svmRoots (storageRootsPlan Filers.svm_root) = true) as Hsvm by (vm_compute; reflexivity).
      rewrite Hsvm. tauto.
Defined.
