(* ===== verification/K8sLoad.v ===== *)
(** The Kubernetes-only read loads exactly what its roots reach: their claims,
    every pod mounting one of those claims, and the nodes and controllers of the
    loaded pods.

    The rounds of a Kubernetes-only read after its root pods are known
    ([fromRoots]): what the fan-out and the completion of the mounters land.

    The whole read after the root pods are known: the mounters it completes, and
    what every family holds at the end. *)

From S2P Require Import Prelude GoStrings PromStrings Keyed Selector Queries ScopeChunks.
From S2P Require Import PairScope ScopedRender AppMetadata Fanout StorageScope BuildIdentity.
From S2P Require Import VolumeKey TopologyTypes NameScopes ScopedReads ReadPlan K8sRead Upstream.
From S2P Require Import K8sReadProps.

(** ** The slots a round writes *)

(** The group a family belongs to. *)
Definition slot_group (q : Query) : nat :=
  if bool_decide (q ∈ k8sClaimTargets) then 0 else if bool_decide (q = QAppMetadata) then 1
  else if bool_decide (q ∈ podTargets) then 2 else if bool_decide (q ∈ nodeTargets) then 3 else 4.

Lemma slot_groups :
  Forall (λ q, slot_group q = 0) k8sClaimTargets ∧ slot_group QAppMetadata = 1 ∧
  Forall (λ q, slot_group q = 2) podTargets ∧ Forall (λ q, slot_group q = 3) nodeTargets ∧
  Forall (λ q, slot_group q = 4) ControllerScopedQueries.
Proof. apply (bool_decide_unpack _). vm_compute. exact I. Qed.

Lemma claim_group q : q ∈ k8sClaimTargets → slot_group q = 0.
Proof. destruct slot_groups as (Hg & _). rewrite Forall_forall in Hg. apply Hg. Qed.
Lemma pod_group q : q ∈ podTargets → slot_group q = 2.
Proof. destruct slot_groups as (_ & _ & Hg & _). rewrite Forall_forall in Hg. apply Hg. Qed.
Lemma node_group q : q ∈ nodeTargets → slot_group q = 3.
Proof. destruct slot_groups as (_ & _ & _ & Hg & _). rewrite Forall_forall in Hg. apply Hg. Qed.
Lemma controller_group q : q ∈ ControllerScopedQueries → slot_group q = 4.
Proof. destruct slot_groups as (_ & _ & _ & _ & Hg). rewrite Forall_forall in Hg. apply Hg. Qed.

(** ** Landing rows *)

Lemma rows_of_land_reads (reads : list pairRead) (g : pairRead → list Sample) (h : list Sample → list Sample) v :
  NoDup (map prd_query reads) →
  let v' := foldl (λ v rr, <[prd_query rr.1 := h rr.2]> v) v (zip reads (map g reads)) in
  (∀ r, r ∈ reads → rows_of v' (prd_query r) = h (g r)) ∧
  (∀ q, q ∉ map prd_query reads → rows_of v' q = rows_of v q).
Proof.
  revert v. induction reads as [|r reads IH]; intros v Hnd; cbn [map zip zip_with foldl fst snd].
  { split; [by intros r ?%elem_of_nil|done]. }
  cbn [map] in Hnd. apply NoDup_cons in Hnd as [Hr Hnd].
  destruct (IH (<[prd_query r := h (g r)]> v) Hnd) as [Hin Hout]. split.
  - intros r' [->|Hr']%elem_of_cons; [by rewrite Hout, rows_of_insert|by apply Hin].
  - intros q [Hq Hqs]%not_elem_of_cons. rewrite Hout by done. by apply rows_of_insert_ne.
Qed.

Lemma rows_of_commit_other v reads (g : nameRead → list Sample) q :
  (∀ r, r ∈ reads → nrd_query r ≠ q) → rows_of (commitNameReads v reads (map g reads)) q = rows_of v q.
Proof.
  intros Hq. rewrite rows_of_commit.
  assert (filter (λ r, nrd_query r = q) reads = []) as ->; [|apply app_nil_r].
  apply elem_of_nil_inv. intros r [Hr Hin]%list_elem_of_filter. by apply (Hq r).
Qed.

(** The read of one family among reads on one scope. *)
Lemma reads_of_query (qs : list Query) q scope : NoDup qs → q ∈ qs →
  filter (λ r, nrd_query r = q) (map (λ q, mkNameRead q scope) qs) = [mkNameRead q scope].
Proof.
  induction 1 as [|q' qs Hq' Hnd IH]; intros Hq; [by apply elem_of_nil in Hq|]. cbn [map]. rewrite filter_cons.
  cbn [nrd_query]. apply elem_of_cons in Hq as [->|Hq].
  - rewrite decide_True by done. f_equal. apply elem_of_nil_inv.
    by intros r [Hr (q & -> & ?)%list_elem_of_fmap]%list_elem_of_filter; cbn in Hr; subst.
  - rewrite decide_False by (by intros ->). by apply IH.
Qed.

Lemma elem_of_keepRows rows keep s : s ∈ keepRows rows keep ↔ s ∈ rows ∧ keep (s_Metric s) = true.
Proof. unfold keepRows. rewrite list_elem_of_filter. tauto. Qed.

Lemma elem_of_nodeScope pods roots n :
  n ∈ nodeScope pods roots ↔ n ≠ "" ∧ ((∃ s, s ∈ pods ∧ label_of (s_Metric s) "node" = n) ∨ n ∈ roots).
Proof.
  unfold nodeScope, label_values. rewrite elem_of_sortedNames, elem_of_app, list_elem_of_fmap. naive_solver.
Qed.

Section exact.
Context `{Querier} `{Scheduler} (window : Z) (opts : Options) (sel : Selector).
Context (estate : Query → list Sample) `{!Honest estate window (opt_LabelKeys opts) sel}.
Context (plan : topologyPlan).

#[local] Abbreviation keys := (opt_LabelKeys opts).
#[local] Abbreviation lk := (OrDefault keys).

Lemma asked_ok_rows names v v' q l : asked_ok estate names v q l → rows_of v' q = rows_of v q → asked_ok estate names v' q l.
Proof. unfold asked_ok. by intros Hok ->. Qed.

(** ** Nodes *)

(** The node families hold the rows of the nodes read so far. *)
Definition nodes_ok (names : gset string) (v : landed) : Prop :=
  ∀ q, q ∈ nodeTargets → asked_ok estate names v q "node".

Lemma node_labels q : q ∈ nodeTargets → scopedLabel q = Some "node".
Proof.
  assert (Forall (λ q, scopedLabel q = Some "node") nodeTargets) as Hall
    by (apply (bool_decide_unpack _); vm_compute; exact I).
  rewrite Forall_forall in Hall. apply Hall.
Qed.

Lemma nodeReads_ok names pods roots reads names' : nodeReads names pods roots = (reads, names') →
  issueNameReads window opts sel reads = Ok (map (name_rows window opts sel) reads) ∧
  (∀ r, r ∈ reads → nrd_query r ∈ nodeTargets) ∧
  (∀ v, nodes_ok names v → nodes_ok names' (commitNameReads v reads (map (name_rows window opts sel) reads))) ∧
  (∀ n, n ∈ names' ↔ n ∈ names ∨ n ∈ nodeScope pods roots).
Proof.
  unfold nodeReads. set (scope := filter _ _). intros Heq. apply pair_equal_spec in Heq as [<- <-].
  assert (proper_names scope) as Hproper.
  { destruct (sortedNames_proper (label_values pods "node" ++ roots)) as [Hnd Hne]. split; [by apply NoDup_filter|].
    apply Forall_forall. intros n [_ Hn]%list_elem_of_filter. rewrite Forall_forall in Hne. by apply Hne. }
  assert (∀ n, n ∈ scope ↔ n ∉ names ∧ n ∈ nodeScope pods roots) as Hscope.
  { intros n. unfold scope. by rewrite list_elem_of_filter. }
  set (reads := if bool_decide (scope = []) then _ else _).
  assert (∀ r, r ∈ reads →
            nrd_query r ∈ nodeTargets ∧ nrd_scope r = scope) as Hreads.
  { intros r. unfold reads. case_bool_decide; [by intros ?%elem_of_nil|]. by intros (q & -> & Hq)%list_elem_of_fmap. }
  split_and!.
  - apply (name_reads_answer window opts sel estate), Forall_forall. intros r [Hq Hs]%Hreads. split; [|by rewrite Hs].
    rewrite (node_labels _ Hq). by eexists.
  - by intros r [? _]%Hreads.
  - intros v Hok q Hq. apply (asked_ok_more window opts sel estate _ v); [by apply Hok|by apply node_labels|done| |].
    + by intros n [? _]%Hscope.
    + rewrite rows_of_commit. f_equal. unfold reads. case_bool_decide as Es; [by rewrite Es|].
      rewrite (reads_of_query nodeTargets q scope) by (done || (apply (bool_decide_unpack _); vm_compute; exact I)).
      apply app_nil_r.
  - intros n. rewrite elem_of_union, elem_of_list_to_set, Hscope. destruct (decide (n ∈ names)); tauto.
Qed.

(** ** Controllers *)

Lemma suggested_app rows rows' kind n :
  suggested (rows ++ rows') kind n ↔ suggested rows kind n ∨ suggested rows' kind n.
Proof. unfold suggested. setoid_rewrite controllerScope_app. naive_solver. Qed.

Lemma deploymentScope_mono d d' rows rows' n : (∀ n, n ∈ d → n ∈ d') → (∀ s, s ∈ rows → s ∈ rows') →
  n ∈ deploymentScope d rows → n ∈ deploymentScope d' rows'.
Proof.
  intros Hd Hr. unfold deploymentScope, label_values. rewrite !elem_of_sortedNames, !elem_of_app, !list_elem_of_fmap.
  setoid_rewrite list_elem_of_filter. naive_solver.
Qed.

Lemma cronJobScope_mono d d' rows rows' n : (∀ n, n ∈ d → n ∈ d') → (∀ s, s ∈ rows → s ∈ rows') →
  n ∈ cronJobScope d rows → n ∈ cronJobScope d' rows'.
Proof.
  intros Hd Hr. unfold cronJobScope, label_values. rewrite !elem_of_sortedNames, !elem_of_app, !list_elem_of_fmap.
  naive_solver.
Qed.

(** Committing reads only adds rows. *)
Lemma commit_adds v reads (g : nameRead → list Sample) q s :
  s ∈ rows_of v q → s ∈ rows_of (commitNameReads v reads (map g reads)) q.
Proof. rewrite rows_of_commit, elem_of_app. auto. Qed.

(** The controller families hold the rows of the names asked for, and the names
    asked for are the owners of [owners]; the Deployments and CronJobs asked for
    are those the rows that landed name and those their owners suggest. *)
Record controllers_ok (c : controllerReads) (v : landed) (owners : list Sample) : Prop := {
  co_rows : ∀ q l, q ∈ ControllerScopedQueries → scopedLabel q = Some l → asked_ok estate (asked c q) v q l;
  co_first : ∀ q k n, (q, k) ∈ first_kinds → n ∈ asked c q ↔ n ∈ controllerScope owners k;
  co_deployments : ∀ n, n ∈ directDeployments c ↔ n ∈ controllerScope owners "Deployment";
  co_cronjobs : ∀ n, n ∈ directCronJobs c ↔ n ∈ controllerScope owners "CronJob";
  co_dep_ahead : ∀ n, suggested owners "ReplicaSet" n → n ∈ asked c QDeploymentAnnotations;
  co_cron_ahead : ∀ n, suggested owners "Job" n → n ∈ asked c QCronJobAnnotations;
  co_dep_bound : ∀ n, n ∈ asked c QDeploymentAnnotations →
    suggested owners "ReplicaSet" n ∨ n ∈ deploymentScope (directDeployments c) (rows_of v QReplicaSetOwner);
  co_cron_bound : ∀ n, n ∈ asked c QCronJobAnnotations →
    suggested owners "Job" n ∨ n ∈ cronJobScope (directCronJobs c) (rows_of v QJobOwner);
}.

Lemma controllers_ok_rows c v v' owners : controllers_ok c v owners →
  (∀ q, q ∈ ControllerScopedQueries → rows_of v' q = rows_of v q) → controllers_ok c v' owners.
Proof.
  intros Hok Hv. destruct Hok as [Hrows ????? Hdb Hcb]. split; [|done..| |].
  - intros q l Hq Hl. eapply asked_ok_rows; [by apply Hrows|by apply Hv].
  - rewrite Hv by (apply (bool_decide_unpack _); by vm_compute). exact Hdb.
  - rewrite Hv by (apply (bool_decide_unpack _); by vm_compute). exact Hcb.
Qed.

Lemma first_controllers c v owners owner reads c' :
  controllers_ok c v owners → firstStage c owner = (reads, c') →
  controllers_ok c' (commitNameReads v reads (map (name_rows window opts sel) reads)) (owners ++ owner).
Proof.
  intros Hok Hst. destruct (firstStage_ok window opts sel estate c owner reads c' Hst) as (Hs & Hin & Hd & Hj & Hdep & Hcron).
  assert (∀ kind n, n ∈ controllerScope owner kind → n ≠ "") as Hne
    by (intros kind n Hn; by apply elem_of_controllerScope in Hn as (_ & ? & _)).
  split.
  - intros q l Hq Hl. apply (st_rows _ _ _ _ _ _ _ Hs); [done|]. by apply (co_rows _ _ _ Hok).
  - intros q k n Hq. rewrite (Hin q k n Hq), (co_first _ _ _ Hok q k n Hq), controllerScope_app. tauto.
  - intros n. rewrite Hd, elem_of_app, (co_deployments _ _ _ Hok), controllerScope_app. done.
  - intros n. rewrite Hj, elem_of_app, (co_cronjobs _ _ _ Hok), controllerScope_app. done.
  - intros n [Hn|Hn]%suggested_app; apply Hdep; [do 2 right; by apply (co_dep_ahead _ _ _ Hok)|by right; left].
  - intros n [Hn|Hn]%suggested_app; apply Hcron; [do 2 right; by apply (co_cron_ahead _ _ _ Hok)|by right; left].
  - intros n [Hn|[Hn|[Hn|Hn]%(co_dep_bound _ _ _ Hok)]]%Hdep; rewrite suggested_app; [|by auto|by auto|]; right.
    + unfold deploymentScope. rewrite elem_of_sortedNames, Hd, !elem_of_app. split; [by eapply Hne|auto].
    + revert Hn. apply deploymentScope_mono; [|intros s; apply commit_adds]. intros m. rewrite Hd, elem_of_app. auto.
  - intros n [Hn|[Hn|[Hn|Hn]%(co_cron_bound _ _ _ Hok)]]%Hcron; rewrite suggested_app; [|by auto|by auto|]; right.
    + unfold cronJobScope. rewrite elem_of_sortedNames, Hj, !elem_of_app. split; [by eapply Hne|auto].
    + revert Hn. apply cronJobScope_mono; [|intros s; apply commit_adds]. intros m. rewrite Hj, elem_of_app. auto.
Qed.

Lemma second_controllers c v0 v owners reads c' :
  controllers_ok c v owners → secondStage c v0 = (reads, c') →
  rows_of v QReplicaSetOwner = rows_of v0 QReplicaSetOwner → rows_of v QJobOwner = rows_of v0 QJobOwner →
  controllers_ok c' (commitNameReads v reads (map (name_rows window opts sel) reads)) owners.
Proof.
  intros Hok Hst HR HJ.
  destruct (secondStage_ok window opts sel estate c v0 reads c' Hst) as (Hs & _ & Hout & Hdep & Hcron & Hd & Hj). split.
  - intros q l Hq Hl. apply (st_rows _ _ _ _ _ _ _ Hs); [done|]. by apply (co_rows _ _ _ Hok).
  - intros q k n Hq. rewrite Hout; [by apply (co_first _ _ _ Hok)|].
    assert (Forall (λ qk : Query * string, qk.1 ∉ [QDeploymentAnnotations; QCronJobAnnotations]) first_kinds) as Hall
      by (apply (bool_decide_unpack _); vm_compute; exact I).
    rewrite Forall_forall in Hall. exact (Hall _ Hq).
  - intros n. rewrite Hd. apply (co_deployments _ _ _ Hok).
  - intros n. rewrite Hj. apply (co_cronjobs _ _ _ Hok).
  - intros n Hn. apply Hdep. right. by apply (co_dep_ahead _ _ _ Hok).
  - intros n Hn. apply Hcron. right. by apply (co_cron_ahead _ _ _ Hok).
  - intros n Hn. assert (suggested owners "ReplicaSet" n ∨ n ∈ deploymentScope (directDeployments c) (rows_of v QReplicaSetOwner))
      as [?|Hin] by (apply Hdep in Hn as [Hn|Hn]; [right; by rewrite HR|by apply (co_dep_bound _ _ _ Hok)]); [by left|right].
    rewrite Hd. revert Hin. apply deploymentScope_mono; [done|intros s; apply commit_adds].
  - intros n Hn. assert (suggested owners "Job" n ∨ n ∈ cronJobScope (directCronJobs c) (rows_of v QJobOwner))
      as [?|Hin] by (apply Hcron in Hn as [Hn|Hn]; [right; by rewrite HJ|by apply (co_cron_bound _ _ _ Hok)]); [by left|right].
    rewrite Hj. revert Hin. apply cronJobScope_mono; [done|intros s; apply commit_adds].
Qed.

(** The Deployment and CronJob annotations cover the owners the owner rows name. *)
Definition second_covered (c : controllerReads) (v : landed) : Prop :=
  (∀ n, n ∈ deploymentScope (directDeployments c) (rows_of v QReplicaSetOwner) → n ∈ asked c QDeploymentAnnotations) ∧
  (∀ n, n ∈ cronJobScope (directCronJobs c) (rows_of v QJobOwner) → n ∈ asked c QCronJobAnnotations).

Lemma second_covers c v v' reads c' :
  secondStage c v = (reads, c') → rows_of v' QReplicaSetOwner = rows_of v QReplicaSetOwner →
  rows_of v' QJobOwner = rows_of v QJobOwner →
  second_covered c' (commitNameReads v' reads (map (name_rows window opts sel) reads)).
Proof.
  intros Hst HR HJ.
  destruct (secondStage_ok window opts sel estate c v reads c' Hst) as (_ & Hq & _ & Hdep & Hcron & Hd & Hj).
  assert (∀ q, q ∈ [QReplicaSetOwner; QJobOwner] → ∀ r, r ∈ reads → nrd_query r ≠ q) as Hne.
  { intros q Hq' r Hr Heq. specialize (Hq r Hr). rewrite Heq in Hq. clear -Hq Hq'.
    assert (Forall (λ q, q ∉ [QDeploymentAnnotations; QCronJobAnnotations]) [QReplicaSetOwner; QJobOwner]) as Hall
      by (apply (bool_decide_unpack _); vm_compute; exact I).
    rewrite Forall_forall in Hall. by apply (Hall q). }
  split; rewrite rows_of_commit_other by (apply Hne; set_solver); [rewrite HR, Hd|rewrite HJ, Hj]; intros n Hn;
    [apply Hdep|apply Hcron]; by left.
Qed.
End exact.

(** ** Pod sets *)

(** Two pod keys a pod set cannot tell apart. *)
Definition same_pod (keyed : bool) (k k' : podSeriesKey) : Prop :=
  if keyed then k = k' else key_pair k = key_pair k'.

Lemma ps_has_add s k k' : ps_has (ps_add s k') k = true ↔ same_pod (ps_keyed s) k k' ∨ ps_has s k = true.
Proof.
  unfold ps_has, ps_add, same_pod. destruct (ps_keyed s) eqn:E; cbn; rewrite ?E, !bool_decide_eq_true, elem_of_union, elem_of_singleton; done.
Qed.

Lemma ps_keyed_add s k : ps_keyed (ps_add s k) = ps_keyed s.
Proof. unfold ps_add. by destruct (ps_keyed s) eqn:E. Qed.

Lemma ps_has_same s k k' : same_pod (ps_keyed s) k k' → ps_has s k = ps_has s k'.
Proof. unfold ps_has, same_pod. destruct (ps_keyed s); intros ->; done. Qed.

Lemma elem_of_ps_pairs s p :
  p ∈ ps_pairs s ↔ usable p ∧ (p ∈ ps_refs s ∨ ∃ k, k ∈ ps_keys s ∧ key_pair k = p).
Proof.
  unfold ps_pairs. rewrite elem_of_SortedNamePairs, elem_of_app, elem_of_elements, list_elem_of_fmap.
  setoid_rewrite elem_of_elements. naive_solver.
Qed.

(** A set whose unused half is empty. *)
Definition ps_wf (s : podSet) : Prop := if ps_keyed s then ps_refs s = ∅ else ps_keys s = ∅.

Lemma ps_wf_add s k : ps_wf s → ps_wf (ps_add s k).
Proof. unfold ps_wf, ps_add. by destruct (ps_keyed s) eqn:E; cbn; rewrite ?E. Qed.

Lemma ps_pairs_has s k : ps_has s k = true → usable (key_pair k) → key_pair k ∈ ps_pairs s.
Proof.
  intros Hk Hu. apply elem_of_ps_pairs. split; [done|]. unfold ps_has in Hk.
  destruct (ps_keyed s); apply bool_decide_eq_true in Hk; [right; by exists k|by left].
Qed.

Lemma ps_empty_has s k : ps_empty s = true → ps_has s k = false.
Proof.
  unfold ps_empty, ps_has. rewrite andb_true_iff, !bool_decide_eq_true. intros [-> ->].
  destruct (ps_keyed s); apply bool_decide_eq_false, not_elem_of_empty.
Qed.

Section load.
Context `{Querier} `{Scheduler} (window : Z) (opts : Options) (sel : Selector).
Context (estate : Query → list Sample) `{!Honest estate window (opt_LabelKeys opts) sel}.
Context (plan : topologyPlan).

#[local] Abbreviation keys := (opt_LabelKeys opts).
#[local] Abbreviation lk := (OrDefault keys).
#[local] Abbreviation pod_key s := (podSeriesKeyOf (s_Metric s) lk).

(** A row of a pod that mounts a claim, as the bindings tell it. *)
Definition mounts (keyed : bool) (bindings : list Sample) (k : podSeriesKey) : Prop :=
  ∃ b, b ∈ bindings ∧ bindingClaim (s_Metric b) ≠ "" ∧ psk_pod (pod_key b) ≠ "" ∧ same_pod keyed k (pod_key b).

Lemma freshMounters_spec bindings loaded k :
  ps_wf (freshMounters opts bindings loaded) ∧ ps_keyed (freshMounters opts bindings loaded) = ps_keyed loaded ∧
  (ps_has (freshMounters opts bindings loaded) k = true ↔
   ps_has loaded k = false ∧ mounts (ps_keyed loaded) bindings k).
Proof.
  unfold freshMounters. set (step := λ (fresh : podSet) (s : Sample), _).
  induction bindings as [|b bindings IH] using rev_ind.
  { cbn. unfold ps_wf, ps_has, mounts. cbn. split_and!; [by destruct (ps_keyed loaded)|done|].
    destruct (ps_keyed loaded); rewrite bool_decide_eq_true;
      (split; [by intros ?%not_elem_of_empty|by intros (_ & b & ?%elem_of_nil & _)]). }
  rewrite foldl_app. cbn [foldl]. destruct IH as (Hwf & Hk & Hhas). set (f := foldl step _ bindings) in *.
  assert (mounts (ps_keyed loaded) (bindings ++ [b]) k ↔ mounts (ps_keyed loaded) bindings k ∨
            bindingClaim (s_Metric b) ≠ "" ∧ psk_pod (pod_key b) ≠ "" ∧ same_pod (ps_keyed loaded) k (pod_key b)) as Hm.
  { unfold mounts. split.
    - intros (b' & [Hb|Hb%list_elem_of_singleton]%elem_of_app & Hrest); [left; by exists b'|right; by subst b'].
    - intros [(b' & Hb & Hrest)|Hrest]; [exists b'|exists b]; (split; [apply elem_of_app|done]); [by left|].
      right. by apply list_elem_of_singleton. }
  rewrite Hm. unfold step. cbn zeta.
  destruct (bool_decide (bindingClaim (s_Metric b) = "") || bool_decide (psk_pod (pod_key b) = "") ||
            ps_has loaded (pod_key b)) eqn:E.
  - split_and!; [done|done|]. rewrite Hhas. split; [tauto|]. intros (Hl & [?|(Hc & Hp & Hs)]); [done|].
    apply ps_has_same in Hs. rewrite Hs in Hl. rewrite !orb_true_iff, !bool_decide_eq_true in E.
    destruct E as [[?|?]|?]; congruence.
  - rewrite !orb_false_iff, !bool_decide_eq_false in E. destruct E as [[Hc Hp] Hl].
    split_and!; [by apply ps_wf_add|by rewrite ps_keyed_add|]. rewrite ps_has_add, Hk, Hhas.
    split; [|intros (Hf & [Hb|(_ & _ & Hs)]); [right; by split|by left]].
    intros [Hs|[Hf Hb]]; [|by split; [|left]]. split; [by rewrite (ps_has_same _ _ _ Hs)|by right].
Qed.

(** ** Claims *)

(** A row of a claim family that is about one of [tracked]. *)
Definition about_claim (tracked : gset claimKey) (s : Sample) : Prop :=
  let k := claimKeyOf (s_Metric s) lk (label_of (s_Metric s) ClaimLabel) in
  k ∈ tracked ∧ ck_namespace k ≠ "" ∧ ck_claim k ≠ "".

(** The claim families hold the rows about the tracked claims. *)
Definition claims_loaded (tracked : gset claimKey) (v : landed) : Prop :=
  ∀ q s, q ∈ k8sClaimTargets → s ∈ rows_of v q ↔ s ∈ estate q ∧ about_claim tracked s.

Lemma claim_pairs_spec tracked p :
  p ∈ claim_pairs tracked ↔ usable p ∧ ∃ k, k ∈ tracked ∧ ck_namespace k = Namespace p ∧ ck_claim k = Name p.
Proof.
  unfold claim_pairs. rewrite elem_of_SortedNamePairs, list_elem_of_fmap. setoid_rewrite elem_of_elements.
  split; [intros [(k & -> & Hk) Hu]; split; [done|by exists k]|].
  intros (Hu & k & Hk & Hns & Hc). split; [|done]. exists k. split; [|done]. destruct p; cbn in *; by subst.
Qed.

Lemma claim_rows_kept tracked q s (Hq : q ∈ k8sClaimTargets) :
  s ∈ keepRows (pair_rows opts sel estate (by_pairs q ClaimLabel (claim_pairs tracked))) (isTracked opts tracked) ↔
  s ∈ estate q ∧ about_claim tracked s.
Proof.
  rewrite elem_of_keepRows. unfold isTracked, about_claim. rewrite bool_decide_eq_true.
  set (k := claimKeyOf _ _ _). set (p := row_pair s_Metric ClaimLabel s). split.
  - intros [Hs Hk]. pose proof Hs as (He & c & Hc & Hm)%elem_of_pair_rows. split; [done|]. split; [done|].
    unfold pair_chunks in Hc. cbn [by_pairs prd_chunks prd_pairs prd_label prd_query] in Hc.
    case_bool_decide; [by apply elem_of_nil in Hc|].
    pose proof (chunksOfPairs_good (claim_pairs tracked) ClaimLabel (pairBudget opts sel q)) as Hg.
    rewrite Forall_forall in Hg. destruct (Hg c Hc) as (_ & Hns & _ & Hn). destruct Hm as [Hm1 Hm2].
    rewrite Forall_forall in Hns, Hn. split; [exact (Hns _ Hm1)|exact (Hn _ Hm2)].
  - intros (He & Hk & Hns & Hc). split; [|done]. apply by_pairs_rows; [done| |done].
    apply claim_pairs_spec. split; [done|]. by exists k.
Qed.

Lemma claim_labels : Forall (λ q, namespaceNameLabel q ClaimLabel = true) k8sClaimTargets.
Proof. apply (bool_decide_unpack _). vm_compute. exact I. Qed.

Lemma pod_labels : Forall (λ q, namespaceNameLabel q PodLabel = true) [QPodInfo; QPodOwner; QPVCBindings].
Proof. apply (bool_decide_unpack _). vm_compute. exact I. Qed.
(** ** The application metadata *)

(** The metadata read is off, or the upstream answers the metadata family. *)
Definition metadata_answers : Prop :=
  appMetadataActive opts = None ∨ ∀ text, ∃ rows, Instant QAppMetadata text = Ok rows.

Lemma appMetadataActive_namespace src : appMetadataActive opts = Some src → am_Namespace src ≠ "".
Proof.
  unfold appMetadataActive. destruct (opt_AppMetadata opts) as [src'|]; [|done].
  destruct (bool_decide (am_Namespace src' = "")) eqn:E; [done|]. apply bool_decide_eq_false in E.
  cbn [orb]. destruct (negb _); [done|]. by intros [= <-].
Qed.

Lemma appMetadataScopesOf_spec pairs sc :
  Forall (λ p, cn_cluster p ≠ "") pairs → sc ∈ appMetadataScopesOf pairs → sc.1 ≠ "" ∧ sc.2 ≠ [] ∧ proper_names sc.2.
Proof.
  intros Hp [Hne (c & -> & Hc)%list_elem_of_fmap]%list_elem_of_filter. cbn [fst snd] in *.
  rewrite (elem_of_sort_compact String.compare), list_elem_of_fmap in Hc. destruct Hc as (p & -> & Hc).
  rewrite Forall_forall in Hp. split_and!; [by apply Hp|done|apply sortedNames_proper].
Qed.

Lemma app_metadata_answered src sc : (∀ text, ∃ rows, Instant QAppMetadata text = Ok rows) →
  am_Namespace src ≠ "" → sc.1 ≠ "" → proper_names sc.2 →
  all_answered (family_parts window opts sel (app_metadata_family window opts sel src sc)).
Proof.
  intros Hall Hns Hc [_ Hn]. apply Forall_map, Forall_forall. intros c Hin.
  destruct (family_chunk_in opts _ _ Hin) as [Hne Hsub]. cbn [app_metadata_family sf_query sf_render sf_scope] in *.
  unfold issueScopedChunk, RenderAppMetadataByNamespace.
  assert (normaliseValues c ≠ []) as Hv.
  { destruct c as [|x c]; [done|]. assert (x ∈ normaliseValues (x :: c)) as Hx; [|by intros E; rewrite E in Hx; apply elem_of_nil in Hx].
    apply elem_of_normaliseValues. rewrite Forall_forall in Hn. split; [left|]; apply Hn, Hsub; left. }
  rewrite !bool_decide_eq_false_2 by done. cbn [orb].
  destruct (Hall (formatAppMetadata src window (appendMatcher (appMetadataClusterMatchers src keys sel sc.1)
    (am_Namespace src) c))) as [rows ->]. by eexists.
Qed.

(** The metadata read of a round returns, whatever its scopes. *)
Lemma app_rows_answer rootInfo tracked : metadata_answers → (∀ k, k ∈ tracked → ck_cluster k ≠ "") →
  ∃ rows, match appMetadataActive opts, k8sAppMetadataScopes opts rootInfo tracked with
          | Some src, _ :: _ => issueAppMetadata window opts sel src (k8sAppMetadataScopes opts rootInfo tracked)
          | _, _ => Ok []
          end = Ok rows.
Proof.
  intros [->|Hall] Ht; [by eexists|]. unfold k8sAppMetadataScopes. destruct (appMetadataActive opts) as [src|] eqn:E; [|by eexists].
  set (pairs := _ ++ _). destruct (appMetadataScopesOf pairs) as [|sc0 scs] eqn:Es; [by eexists|]. rewrite <-Es.
  unfold issueAppMetadata. rewrite issueScopedFamilies_answered; [by eexists|].
  apply Forall_map, Forall_forall. intros sc Hsc.
  destruct (appMetadataScopesOf_spec pairs sc) as (Hc & _ & Hn); [|done|].
  - apply Forall_app. split; apply Forall_map, Forall_forall; [|intros k Hk%elem_of_elements; by apply Ht].
    intros s _. cbn. unfold bucketCluster. by case_bool_decide.
  - apply app_metadata_answered; [done|by apply appMetadataActive_namespace|done|done].
Qed.

(** ** The fan-out *)

(** The claim reads of a round. *)
Definition claim_reads (tracked : gset claimKey) : list pairRead :=
  if bool_decide (claim_pairs tracked = []) then []
  else map (λ q, mkPairRead q ClaimLabel (claim_pairs tracked) None) k8sClaimTargets.

Lemma claim_reads_good tracked : Forall (good_read opts sel) (claim_reads tracked).
Proof.
  unfold claim_reads. case_bool_decide; [constructor|]. apply Forall_map. eapply Forall_impl; [exact claim_labels|].
  intros q Hq. by apply by_pairs_good.
Qed.

Lemma claim_land tracked v : (∀ q, q ∈ k8sClaimTargets → rows_of v q = []) →
  let v1 := foldl (λ v rr, <[prd_query rr.1 := keepRows rr.2 (isTracked opts tracked)]> v) v
              (zip (claim_reads tracked) (map (pair_rows opts sel estate) (claim_reads tracked))) in
  claims_loaded tracked v1 ∧ ∀ q, q ∉ k8sClaimTargets → rows_of v1 q = rows_of v q.
Proof.
  intros Hv. unfold claim_reads. case_bool_decide as Hp.
  - cbn. split; [|done]. intros q s Hq. rewrite Hv by done. split; [by intros ?%elem_of_nil|].
    intros (_ & Hk & Hns & Hc). set (k := claimKeyOf _ _ _) in *.
    assert (mkNamePair (ck_namespace k) (ck_claim k) ∈ claim_pairs tracked) as Hin.
    { apply claim_pairs_spec. split; [done|]. by exists k. }
    rewrite Hp in Hin. by apply elem_of_nil in Hin.
  - set (reads := map _ k8sClaimTargets).
    assert (map prd_query reads = k8sClaimTargets) as Hq by (unfold reads; by rewrite map_map, map_id).
    destruct (rows_of_land_reads reads (pair_rows opts sel estate) (λ rows, keepRows rows (isTracked opts tracked)) v)
      as [Hin Hout].
    { rewrite Hq. apply (bool_decide_unpack _). vm_compute. exact I. }
    rewrite Hq in Hout. split; [|exact Hout]. intros q s Hs.
    assert (mkPairRead q ClaimLabel (claim_pairs tracked) None ∈ reads) as Hr by (apply list_elem_of_fmap; by exists q).
    specialize (Hin _ Hr). cbn [prd_query] in Hin. rewrite Hin. by apply claim_rows_kept.
Qed.

(** The slots a list of name reads leaves alone. *)
Lemma commit_apart v reads (g : nameRead → list Sample) (qs : list Query) q :
  (∀ r, r ∈ reads → nrd_query r ∈ qs) → q ∉ qs → rows_of (commitNameReads v reads (map g reads)) q = rows_of v q.
Proof. intros Hr Hq. apply rows_of_commit_other. intros r Hin <-. by apply Hq, Hr. Qed.

Lemma fanOut_ok tracked rootInfo rootOwner st :
  metadata_answers → (∀ k, k ∈ tracked → ck_cluster k ≠ "") →
  (∀ q, q ∈ k8sClaimTargets → rows_of (k_v st) q = []) →
  nodes_ok estate (k_nodesRead st) (k_v st) → controllers_ok estate (k_ctrl st) (k_v st) [] →
  ∃ st', fanOut window opts sel plan tracked rootInfo rootOwner st = Ok st' ∧
    claims_loaded tracked (k_v st') ∧
    (∀ q, q ∈ podTargets → rows_of (k_v st') q = rows_of (k_v st) q) ∧
    nodes_ok estate (k_nodesRead st') (k_v st') ∧
    (∀ n, n ∈ k_nodesRead st' ↔ n ∈ k_nodesRead st ∨ n ∈ nodeScope rootInfo (nodeRoots (roots plan))) ∧
    controllers_ok estate (k_ctrl st') (k_v st') rootOwner.
Proof.
  intros Hmeta Htr Hclaims Hnodes Hctrl. unfold fanOut.
  destruct (nodeReads (k_nodesRead st) rootInfo (nodeRoots (roots plan))) as [nodes nodesRead] eqn:En.
  destruct (firstStage (k_ctrl st) rootOwner) as [ctrls ctrl] eqn:Ec.
  destruct (nodeReads_ok window opts sel estate _ _ _ _ _ En) as (-> & Hnq & Hnrows & Hnames).
  destruct (firstStage_ok window opts sel estate _ _ _ _ Ec) as (Hst & _). rewrite (st_answer _ _ _ _ _ _ _ Hst).
  destruct (app_rows_answer rootInfo tracked Hmeta Htr) as [appRows ->].
  fold (claim_reads tracked). rewrite (pair_reads_answer window opts sel estate _ (claim_reads_good tracked)).
  cbn [err_of app parallel got].
  destruct (claim_land tracked (k_v st) Hclaims) as [Hcl Hv1]. set (v1 := foldl _ (k_v st) _) in *.
  set (v2 := if some_of _ then _ else v1).
  assert (∀ q, slot_group q ≠ 1 → rows_of v2 q = rows_of v1 q) as Hv2.
  { intros q Hq. unfold v2. destruct (some_of _); [|done]. apply rows_of_insert_ne. intros <-.
    exact (Hq (proj1 (proj2 slot_groups))). }
  assert (∀ q, slot_group q ≠ 0 → slot_group q ≠ 1 → rows_of v2 q = rows_of (k_v st) q) as Hv.
  { intros q H0' H1'. rewrite Hv2, Hv1; [done| |done]. by intros ?%claim_group. }
  set (v3 := commitNameReads v2 nodes _). set (v4 := commitNameReads v3 ctrls _).
  assert (∀ q, q ∉ nodeTargets → rows_of v3 q = rows_of v2 q) as Hv3 by (intros q; by apply commit_apart).
  assert (∀ q, q ∉ ControllerScopedQueries → rows_of v4 q = rows_of v3 q) as Hv4
    by (intros q; by apply commit_apart, (st_queries _ _ _ _ _ _ _ Hst)).
  eexists. split; [done|]. cbn [k_v k_ctrl k_nodesRead]. split_and!.
  - intros q s Hq. pose proof (claim_group _ Hq) as Hg.
    rewrite Hv4, Hv3, Hv2; [by apply Hcl|lia|intros ?%node_group; lia|intros ?%controller_group; lia].
  - intros q Hq%pod_group. rewrite Hv4, Hv3, Hv; [done|lia|lia|intros ?%node_group; lia|intros ?%controller_group; lia].
  - intros q Hq. pose proof (node_group _ Hq) as Hg. eapply asked_ok_rows; [|by apply Hv4; intros ?%controller_group; lia].
    apply (Hnrows v2); [|done]. intros q' Hq'. pose proof (node_group _ Hq') as Hg'.
    eapply asked_ok_rows; [by apply Hnodes|apply Hv; lia].
  - done.
  - eapply (first_controllers window opts sel estate _ v3 []); [|done].
    apply (controllers_ok_rows _ _ (k_v st)); [done|]. intros q Hq%controller_group.
    rewrite Hv3, Hv; [done|lia|lia|intros ?%node_group; lia].
Qed.
End load.

Lemma nodeScope_app pods pods' rs n :
  n ∈ nodeScope (pods ++ pods') rs ↔ n ∈ nodeScope pods rs ∨ n ∈ nodeScope pods' [].
Proof.
  rewrite !elem_of_nodeScope. setoid_rewrite elem_of_app. rewrite elem_of_nil. split.
  - intros (Hn & [(s & [Hs|Hs] & Hl)|Hr]); [left|right|left]; (split; [done|]); eauto.
  - intros [(Hn & [(s & Hs & Hl)|Hr])|(Hn & [(s & Hs & Hl)|[]])]; (split; [done|]); eauto.
Qed.

Section rounds.
Context `{Querier} `{Scheduler} (window : Z) (opts : Options) (sel : Selector).
Context (estate : Query → list Sample) `{!Honest estate window (opt_LabelKeys opts) sel}.
Context (plan : topologyPlan).

#[local] Abbreviation keys := (opt_LabelKeys opts).
#[local] Abbreviation lk := (OrDefault keys).
#[local] Abbreviation pod_key s := (podSeriesKeyOf (s_Metric s) lk).

(** Between two rounds: the node and controller families hold what the pods
    loaded so far ask for. *)
Record rounds_ok (st : k8sState) : Prop := {
  ro_nodes : nodes_ok estate (k_nodesRead st) (k_v st);
  ro_scope : ∀ n, n ∈ k_nodesRead st ↔ n ∈ nodeScope (rows_of (k_v st) QPodInfo) (nodeRoots (roots plan));
  ro_ctrl : controllers_ok estate (k_ctrl st) (k_v st) (rows_of (k_v st) QPodOwner);
}.

(** The slots of [qs] hold the same rows. *)
Definition same_on (qs : list Query) (v v' : landed) : Prop := ∀ q, q ∈ qs → rows_of v' q = rows_of v q.

(** A second stage keeps the invariant and covers the owner rows it was derived
    from. *)
Lemma second_round st v0 reads ctrl : rounds_ok st → secondStage (k_ctrl st) v0 = (reads, ctrl) →
  rows_of (k_v st) QReplicaSetOwner = rows_of v0 QReplicaSetOwner → rows_of (k_v st) QJobOwner = rows_of v0 QJobOwner →
  let v' := commitNameReads (k_v st) reads (map (name_rows window opts sel) reads) in
  issueNameReads window opts sel reads = Ok (map (name_rows window opts sel) reads) ∧
  rounds_ok (mkK8sState v' ctrl (k_nodesRead st)) ∧
  (∀ q, q ∉ ControllerScopedQueries → rows_of v' q = rows_of (k_v st) q) ∧
  second_covered ctrl v'.
Proof.
  intros [Hn Hs Hc] Hst HR HJ v'.
  pose proof (secondStage_ok window opts sel estate _ _ _ _ Hst) as (Hstage & _).
  assert (∀ q, q ∉ ControllerScopedQueries → rows_of v' q = rows_of (k_v st) q) as Hv'
    by (intros q; by apply commit_apart, (st_queries _ _ _ _ _ _ _ Hstage)).
  split; [by apply (st_answer _ _ _ _ _ _ _ Hstage)|]. split_and!; [|done|].
  - split; cbn [k_v k_ctrl k_nodesRead].
    + intros q Hq. pose proof (node_group _ Hq). eapply asked_ok_rows; [by apply Hn|apply Hv'].
      intros ?%controller_group; lia.
    + rewrite Hv'; [done|]. apply (bool_decide_unpack _). vm_compute. exact I.
    + rewrite Hv'; [|apply (bool_decide_unpack _); vm_compute; exact I].
      by apply (second_controllers window opts sel estate (k_ctrl st) v0).
  - by apply (second_covers window opts sel estate (k_ctrl st) v0).
Qed.

(** Loading the pods [info] with the owners [owner] beside the ones loaded. *)
Lemma pods_round st info owner nodes nodesRead ctrls ctrl :
  rounds_ok st → nodeReads (k_nodesRead st) info [] = (nodes, nodesRead) → firstStage (k_ctrl st) owner = (ctrls, ctrl) →
  let v := <[QPodOwner := rows_of (k_v st) QPodOwner ++ owner]> (<[QPodInfo := rows_of (k_v st) QPodInfo ++ info]> (k_v st)) in
  let v' := commitNameReads (commitNameReads v nodes (map (name_rows window opts sel) nodes)) ctrls
              (map (name_rows window opts sel) ctrls) in
  issueNameReads window opts sel nodes = Ok (map (name_rows window opts sel) nodes) ∧
  issueNameReads window opts sel ctrls = Ok (map (name_rows window opts sel) ctrls) ∧
  rounds_ok (mkK8sState v' ctrl nodesRead) ∧
  rows_of v' QPodInfo = rows_of (k_v st) QPodInfo ++ info ∧ rows_of v' QPodOwner = rows_of (k_v st) QPodOwner ++ owner ∧
  same_on k8sClaimTargets (k_v st) v'.
Proof.
  intros [Hn Hs Hc] En Ec v v'.
  destruct (nodeReads_ok window opts sel estate _ _ _ _ _ En) as (Hnans & Hnq & Hnrows & Hnames).
  pose proof (firstStage_ok window opts sel estate _ _ _ _ Ec) as (Hstage & _).
  assert (∀ q, slot_group q ≠ 2 → rows_of v q = rows_of (k_v st) q) as Hv.
  { intros q Hq. unfold v. rewrite !rows_of_insert_ne; [done| |]; intros <-; apply Hq; by vm_compute. }
  set (v1 := commitNameReads v nodes _) in *.
  assert (∀ q, q ∉ nodeTargets → rows_of v1 q = rows_of v q) as Hv1 by (intros q; by apply commit_apart).
  assert (∀ q, q ∉ ControllerScopedQueries → rows_of v' q = rows_of v1 q) as Hv'
    by (intros q; by apply commit_apart, (st_queries _ _ _ _ _ _ _ Hstage)).
  assert (∀ q, slot_group q = 2 → rows_of v' q = rows_of v q) as Hpods.
  { intros q Hq. rewrite Hv', Hv1; [done|intros ?%node_group; lia|intros ?%controller_group; lia]. }
  assert (rows_of v' QPodInfo = rows_of (k_v st) QPodInfo ++ info) as Hinfo.
  { rewrite Hpods by (by vm_compute). unfold v. by rewrite rows_of_insert_ne, rows_of_insert by (by vm_compute). }
  assert (rows_of v' QPodOwner = rows_of (k_v st) QPodOwner ++ owner) as Howner.
  { rewrite Hpods by (by vm_compute). unfold v. by rewrite rows_of_insert. }
  split; [done|]. split; [by apply (st_answer _ _ _ _ _ _ _ Hstage)|]. split_and!; [|done|done|].
  - split; cbn [k_v k_ctrl k_nodesRead]; rewrite ?Hinfo, ?Howner.
    + intros q Hq. pose proof (node_group _ Hq). eapply asked_ok_rows; [|apply Hv'; intros ?%controller_group; lia].
      apply (Hnrows v); [|done]. intros q' Hq'. pose proof (node_group _ Hq').
      eapply asked_ok_rows; [by apply Hn|apply Hv; lia].
    + intros n. by rewrite Hnames, Hs, nodeScope_app.
    + eapply (first_controllers window opts sel estate _ v1); [|done]. apply (controllers_ok_rows _ _ (k_v st)); [done|].
      intros q Hq%controller_group. rewrite Hv1, Hv; [done|lia|intros ?%node_group; lia].
  - intros q Hq%claim_group. rewrite Hv', Hv1, Hv; [done|lia|intros ?%node_group; lia|intros ?%controller_group; lia].
Qed.
(** ** The mounters *)

(** The rows of the pods of [fresh] a round adds. *)
Definition fresh_rows (fresh : podSet) (q : Query) : list Sample :=
  ps_keepRows fresh (pair_rows opts sel estate (by_pairs q PodLabel (ps_pairs fresh))) lk.

Lemma elem_of_fresh_rows fresh q s :
  s ∈ fresh_rows fresh q ↔ s ∈ estate q ∧ usable (key_pair (pod_key s)) ∧ ps_has fresh (pod_key s) = true.
Proof.
  unfold fresh_rows, ps_keepRows. rewrite list_elem_of_filter. split.
  - intros (Hh & Hs). pose proof Hs as (He & c & Hc & Hm)%elem_of_pair_rows. split_and!; [done| |done].
    unfold pair_chunks in Hc. cbn [by_pairs prd_chunks prd_pairs prd_label prd_query] in Hc.
    case_bool_decide; [by apply elem_of_nil in Hc|].
    pose proof (chunksOfPairs_good (ps_pairs fresh) PodLabel (pairBudget opts sel q)) as Hg.
    rewrite Forall_forall in Hg. destruct (Hg c Hc) as (_ & Hns & _ & Hn). destruct Hm as [Hm1 Hm2].
    rewrite Forall_forall in Hns, Hn. split; [exact (Hns _ Hm1)|exact (Hn _ Hm2)].
  - intros (He & Hu & Hh). split; [done|]. apply by_pairs_rows; [done| |done]. by apply (ps_pairs_has fresh (pod_key s)).
Qed.

Lemma fresh_reads_answer fresh :
  issuePairReads window opts sel
    [mkPairRead QPodInfo PodLabel (ps_pairs fresh) None; mkPairRead QPodOwner PodLabel (ps_pairs fresh) None] =
  Ok [pair_rows opts sel estate (by_pairs QPodInfo PodLabel (ps_pairs fresh));
      pair_rows opts sel estate (by_pairs QPodOwner PodLabel (ps_pairs fresh))].
Proof.
  apply (pair_reads_answer window opts sel estate). pose proof pod_labels as Hl.
  apply Forall_cons in Hl as [H1 [H2 _]%Forall_cons]. repeat constructor; by apply by_pairs_good.
Qed.

(** What completing the mounters leaves. *)
Record completed (loaded : podSet) (st st' : k8sState) : Prop := {
  cp_rounds : rounds_ok st';
  cp_second : second_covered (k_ctrl st') (k_v st');
  cp_claims : same_on k8sClaimTargets (k_v st) (k_v st');
  cp_pods : ∀ q s, q ∈ podTargets → s ∈ rows_of (k_v st') q ↔ s ∈ rows_of (k_v st) q ∨
    (s ∈ estate q ∧ usable (key_pair (pod_key s)) ∧ ps_has loaded (pod_key s) = false ∧
     mounts opts (ps_keyed loaded) (rows_of (k_v st) QPVCBindings) (pod_key s));
}.

(** No mounter is missing: only the second stage is left. *)
Lemma completed_without loaded st reads ctrl :
  rounds_ok st → secondStage (k_ctrl st) (k_v st) = (reads, ctrl) →
  ps_empty (freshMounters opts (rows_of (k_v st) QPVCBindings) loaded) = true →
  completed loaded st (mkK8sState (commitNameReads (k_v st) reads (map (name_rows window opts sel) reads)) ctrl (k_nodesRead st)).
Proof.
  intros Hst Hs He. destruct (second_round st (k_v st) reads ctrl Hst Hs eq_refl eq_refl) as (_ & Hro & Hv & Hcov).
  split; [done|by apply Hcov| |]; cbn [k_v].
  - intros q Hq%claim_group. apply Hv. intros ?%controller_group; lia.
  - intros q s Hq%pod_group. rewrite Hv by (intros ?%controller_group; lia). split; [by left|].
    intros [?|(_ & _ & Hl & Hm)]; [done|]. apply (ps_empty_has _ (pod_key s)) in He.
    destruct (freshMounters_spec opts (rows_of (k_v st) QPVCBindings) loaded (pod_key s)) as (_ & _ & Hf).
    rewrite He in Hf. by pose proof (proj2 Hf (conj Hl Hm)).
Qed.

Lemma completeMounters_ok loaded st : rounds_ok st →
  ∃ st', completeMounters window opts sel loaded st = Ok st' ∧ completed loaded st st'.
Proof.
  intros Hst. unfold completeMounters. destruct (secondStage (k_ctrl st) (k_v st)) as [second ctrl] eqn:Es.
  pose proof (second_round st (k_v st) second ctrl Hst Es eq_refl eq_refl) as (Hans & Hro & Hv & _).
  set (fresh := freshMounters _ _ _). destruct (ps_empty fresh) eqn:Ee.
  { pose proof (completed_without loaded st second ctrl Hst Es Ee) as Hc. cbn [andb].
    rewrite fresh_reads_answer, Hans. case_bool_decide as E2; eexists; (split; [|exact Hc]); [by rewrite E2|done]. }
  cbn [andb]. rewrite fresh_reads_answer, Hans.
  cbn [err_of app parallel got lookup list_lookup default from_option id rbind].
  fold (fresh_rows fresh QPodInfo) (fresh_rows fresh QPodOwner).
  set (v1 := commitNameReads (k_v st) second _) in *. set (st1 := mkK8sState v1 ctrl (k_nodesRead st)) in *.
  assert (rows_of (<[QPodInfo := rows_of v1 QPodInfo ++ fresh_rows fresh QPodInfo]> v1) QPodOwner = rows_of v1 QPodOwner) as ->
    by (by apply rows_of_insert_ne).
  destruct (nodeReads (k_nodesRead st) (fresh_rows fresh QPodInfo) []) as [nodes nodesRead] eqn:En.
  destruct (firstStage ctrl (fresh_rows fresh QPodOwner)) as [ctrls ctrl1] eqn:Ec.
  pose proof (pods_round st1 _ _ _ _ _ _ Hro En Ec) as (-> & -> & Hro2 & Hinfo & Howner & Hclaims).
  cbn [err_of app parallel got rbind k_v k_ctrl k_nodesRead st1] in *.
  set (v3 := commitNameReads (commitNameReads _ nodes _) ctrls _) in *.
  set (st3 := mkK8sState v3 ctrl1 nodesRead) in *.
  destruct (secondStage ctrl1 v3) as [tail ctrl2] eqn:Et.
  pose proof (second_round st3 v3 tail ctrl2 Hro2 Et eq_refl eq_refl) as (-> & Hro4 & Hv4 & Hcov).
  cbn [rbind k_v k_nodesRead st3] in *. eexists. split; [done|]. split; [done|by apply Hcov| |]; cbn [k_v].
  - intros q Hq. pose proof (claim_group _ Hq). rewrite Hv4 by (intros ?%controller_group; lia).
    rewrite (Hclaims q Hq). apply Hv. intros ?%controller_group; lia.
  - intros q s Hq. pose proof (pod_group _ Hq). rewrite Hv4 by (intros ?%controller_group; lia).
    destruct (freshMounters_spec opts (rows_of (k_v st) QPVCBindings) loaded (pod_key s)) as (_ & _ & Hf). fold fresh in Hf.
    rewrite <-Hf, <-elem_of_fresh_rows, <-elem_of_app.
    rewrite <-(Hv q) by (intros ?%controller_group; lia). unfold podTargets in Hq.
    rewrite !elem_of_cons, elem_of_nil in Hq. destruct Hq as [->|[->|[]]]; by rewrite ?Hinfo, ?Howner.
Qed.
(** ** What the read loads *)

(** The Deployments the annotations are read of: those a pod or a loaded ReplicaSet is
    owned by, and those the ReplicaSets' names suggest. *)
Definition deployment_read (owners rsOwners : list Sample) (n : string) : Prop :=
  n ∈ deploymentScope (controllerScope owners "Deployment") rsOwners ∨ suggested owners "ReplicaSet" n.

(** The same for CronJobs, through the Jobs. *)
Definition cronjob_read (owners jobOwners : list Sample) (n : string) : Prop :=
  n ∈ cronJobScope (controllerScope owners "CronJob") jobOwners ∨ suggested owners "Job" n.

#[export] Instance deployment_read_dec owners rsOwners n : Decision (deployment_read owners rsOwners n).
Proof. apply or_dec; [exact (list_elem_of_dec n _)|apply suggested_dec]. Defined.
#[export] Instance cronjob_read_dec owners jobOwners n : Decision (cronjob_read owners jobOwners n).
Proof. apply or_dec; [exact (list_elem_of_dec n _)|apply suggested_dec]. Defined.

(** The annotation rows of the Deployments and of the CronJobs that are read. *)
Definition deployment_rows (owners rsOwners : list Sample) : list Sample :=
  @filter _ _ list_filter (λ s, deployment_read owners rsOwners (label_of (s_Metric s) "deployment"))
    (λ s, deployment_read_dec owners rsOwners _) (estate QDeploymentAnnotations).

Definition cronjob_rows (owners jobOwners : list Sample) : list Sample :=
  @filter _ _ list_filter (λ s, cronjob_read owners jobOwners (label_of (s_Metric s) "cronjob"))
    (λ s, cronjob_read_dec owners jobOwners _) (estate QCronJobAnnotations).

(** What the families of a Kubernetes-only build hold: [root] are the root pods,
    [tracked] the claims they mount. *)
Record k8s_loaded (keyed : bool) (root : podSeriesKey → Prop) (tracked : gset claimKey) (v : landed) : Prop := {
  kl_claims : claims_loaded opts estate tracked v;
  kl_pods : ∀ q s, q ∈ podTargets → s ∈ rows_of v q ↔ s ∈ estate q ∧ usable (key_pair (pod_key s)) ∧
    (root (pod_key s) ∨ mounts opts keyed (rows_of v QPVCBindings) (pod_key s));
  kl_nodes : ∀ q, q ∈ nodeTargets → rows_of v q ≡ₚ
    filter (λ s, label_of (s_Metric s) "node" ∈ nodeScope (rows_of v QPodInfo) (nodeRoots (roots plan))) (estate q);
  kl_controllers : ∀ q k l, (q, k) ∈ first_kinds → scopedLabel q = Some l → rows_of v q ≡ₚ
    filter (λ s, label_of (s_Metric s) l ∈ controllerScope (rows_of v QPodOwner) k) (estate q);
  kl_deployments : rows_of v QDeploymentAnnotations ≡ₚ deployment_rows (rows_of v QPodOwner) (rows_of v QReplicaSetOwner);
  kl_cronjobs : rows_of v QCronJobAnnotations ≡ₚ cronjob_rows (rows_of v QPodOwner) (rows_of v QJobOwner);
}.

Lemma first_kinds_controllers : Forall (λ qk : Query * string, qk.1 ∈ ControllerScopedQueries) first_kinds.
Proof. apply (bool_decide_unpack _). vm_compute. exact I. Qed.

Lemma deploymentScope_members d d' rows n : (∀ n, n ∈ d ↔ n ∈ d') → n ∈ deploymentScope d rows ↔ n ∈ deploymentScope d' rows.
Proof. intros Hd. unfold deploymentScope. by rewrite !elem_of_sortedNames, !elem_of_app, Hd. Qed.

Lemma cronJobScope_members d d' rows n : (∀ n, n ∈ d ↔ n ∈ d') → n ∈ cronJobScope d rows ↔ n ∈ cronJobScope d' rows.
Proof. intros Hd. unfold cronJobScope. by rewrite !elem_of_sortedNames, !elem_of_app, Hd. Qed.

Lemma rounds_loaded st keyed root tracked : rounds_ok st → second_covered (k_ctrl st) (k_v st) →
  claims_loaded opts estate tracked (k_v st) →
  (∀ q s, q ∈ podTargets → s ∈ rows_of (k_v st) q ↔ s ∈ estate q ∧ usable (key_pair (pod_key s)) ∧
    (root (pod_key s) ∨ mounts opts keyed (rows_of (k_v st) QPVCBindings) (pod_key s))) →
  k8s_loaded keyed root tracked (k_v st).
Proof.
  intros [Hn Hs Hc] [Hd Hj] Hcl Hp.
  assert (QDeploymentAnnotations ∈ ControllerScopedQueries ∧ QCronJobAnnotations ∈ ControllerScopedQueries) as [HD HJ]
    by (apply (bool_decide_unpack _); vm_compute; exact I).
  split; [done|done| | | |].
  - intros q Hq. pose proof (Hn q Hq) as Hr. unfold asked_ok in Hr. rewrite Hr. by rewrite (list_filter_iff _ _ _ (λ s, Hs (label_of (s_Metric s) "node"))).
  - intros q k l Hq Hl. pose proof first_kinds_controllers as Hf. rewrite Forall_forall in Hf.
    pose proof (co_rows _ _ _ _ Hc q l (Hf _ Hq) Hl) as Hr. unfold asked_ok in Hr. rewrite Hr.
    by rewrite (list_filter_iff _ _ _ (λ s, co_first _ _ _ _ Hc q k (label_of (s_Metric s) l) Hq)).
  - pose proof (co_rows _ _ _ _ Hc _ "deployment" HD eq_refl) as Hr. unfold asked_ok in Hr. rewrite Hr.
    apply Permutation_refl', list_filter_iff. intros s. set (n := label_of _ _). unfold deployment_read.
    rewrite <-(deploymentScope_members _ _ _ _ (co_deployments _ _ _ _ Hc)). split.
    + intros [?|?]%(co_dep_bound _ _ _ _ Hc); auto.
    + intros [?|?]; [by apply Hd|by apply (co_dep_ahead _ _ _ _ Hc)].
  - pose proof (co_rows _ _ _ _ Hc _ "cronjob" HJ eq_refl) as Hr. unfold asked_ok in Hr. rewrite Hr.
    apply Permutation_refl', list_filter_iff. intros s. set (n := label_of _ _). unfold cronjob_read.
    rewrite <-(cronJobScope_members _ _ _ _ (co_cronjobs _ _ _ _ Hc)). split.
    + intros [?|?]%(co_cron_bound _ _ _ _ Hc); auto.
    + intros [?|?]; [by apply Hj|by apply (co_cron_ahead _ _ _ _ Hc)].
Qed.

Lemma asked_none q : asked no_controllers q = ∅.
Proof. unfold asked. cbn. by rewrite lookup_empty. Qed.

(** The families a Kubernetes-only read loads. *)
Definition k8s_families : list Query := k8sClaimTargets ++ podTargets ++ nodeTargets ++ ControllerScopedQueries.

(** What a read starts from: none of its families has landed. *)
Definition unread (v : landed) : Prop := ∀ q, q ∈ k8s_families → rows_of v q = [].

Lemma fromRoots_ok rootInfo rootOwner bindings loaded v (root : podSeriesKey → Prop) :
  metadata_answers opts → unread v →
  (∀ s, s ∈ rootInfo ↔ s ∈ estate QPodInfo ∧ usable (key_pair (pod_key s)) ∧ root (pod_key s)) →
  (∀ s, s ∈ rootOwner ↔ s ∈ estate QPodOwner ∧ usable (key_pair (pod_key s)) ∧ root (pod_key s)) →
  (∀ k, ps_has loaded k = true ↔ root k) →
  ∃ st', fromRoots window opts sel plan rootInfo rootOwner bindings loaded (mkK8sState v no_controllers ∅) = Ok st' ∧
    k8s_loaded (ps_keyed loaded) root (trackedClaimKeys opts bindings) (k_v st').
Proof.
  intros Hmeta Hv Hinfo Howner Hhas. unfold fromRoots. cbn [k_v k_ctrl k_nodesRead].
  set (v0 := <[QPodOwner := rootOwner]> _).
  assert (∀ q, q ∈ k8s_families → slot_group q ≠ 2 → rows_of v0 q = []) as Hv0.
  { intros q Hq Hg. unfold v0. rewrite !rows_of_insert_ne; [by apply Hv| |]; intros <-; apply Hg; by vm_compute. }
  assert (∀ q, q ∈ k8sClaimTargets → q ∈ k8s_families) as HC by (intros; apply elem_of_app; by left).
  assert (∀ q, q ∈ nodeTargets → q ∈ k8s_families) as HN
    by (intros; apply elem_of_app; right; apply elem_of_app; right; apply elem_of_app; by left).
  assert (∀ q, q ∈ ControllerScopedQueries → q ∈ k8s_families) as HK
    by (intros; apply elem_of_app; right; apply elem_of_app; right; apply elem_of_app; by right).
  destruct (fanOut_ok window opts sel estate plan (trackedClaimKeys opts bindings) rootInfo rootOwner
              (mkK8sState v0 no_controllers ∅) Hmeta) as (st1 & -> & Hcl & Hsame & Hn & Hnames & Hc).
  { intros k Hk. unfold trackedClaimKeys in Hk. apply elem_of_list_to_set, list_elem_of_fmap in Hk as (s & -> & _).
    cbn. unfold bucketCluster. by case_bool_decide. }
  { intros q Hq. apply Hv0; [by apply HC|]. apply claim_group in Hq. cbn. lia. }
  { intros q Hq. unfold asked_ok. cbn [k_v]. rewrite Hv0; [|by apply HN|apply node_group in Hq; lia].
    rewrite (list_filter_iff _ (λ _, False)) by set_solver. by induction (estate q). }
  { split; cbn [k_v k_ctrl].
    - intros q l Hq _. unfold asked_ok. rewrite Hv0; [|by apply HK|apply controller_group in Hq; lia].
      rewrite (list_filter_iff _ (λ _, False)) by (intros s; by rewrite asked_none, elem_of_empty). by induction (estate q).
    - intros q k n _. rewrite asked_none, elem_of_controllerScope, elem_of_empty. split; [done|]. by intros (_ & _ & s & ?%elem_of_nil & _).
    - intros n. cbn. rewrite elem_of_controllerScope, elem_of_nil. split; [done|]. by intros (_ & _ & s & ?%elem_of_nil & _).
    - intros n. cbn. rewrite elem_of_controllerScope, elem_of_nil. split; [done|]. by intros (_ & _ & s & ?%elem_of_nil & _).
    - intros n (_ & seg & _ & Hin). by apply elem_of_controllerScope in Hin as (_ & _ & s & ?%elem_of_nil & _).
    - intros n (_ & seg & _ & Hin). by apply elem_of_controllerScope in Hin as (_ & _ & s & ?%elem_of_nil & _).
    - intros n. by rewrite asked_none, elem_of_empty.
    - intros n. by rewrite asked_none, elem_of_empty. }
  cbn [rbind]. assert (rows_of (k_v st1) QPodInfo = rootInfo) as HI.
  { rewrite Hsame by left. cbn [k_v]. unfold v0. by rewrite rows_of_insert_ne, rows_of_insert by (by vm_compute). }
  assert (rows_of (k_v st1) QPodOwner = rootOwner) as HO.
  { rewrite Hsame by (right; left). cbn [k_v]. unfold v0. by rewrite rows_of_insert. }
  destruct (completeMounters_ok loaded st1) as (st2 & -> & [Hro Hcov Hclaims Hpods]).
  { split; [done| |by rewrite HO]. intros n. rewrite Hnames, HI. cbn. rewrite elem_of_empty. tauto. }
  exists st2. split; [done|]. apply rounds_loaded; [done|done| |].
  - intros q s Hq. rewrite (Hclaims q Hq). by apply Hcl.
  - intros q s Hq. rewrite (Hpods q s Hq). rewrite (Hclaims QPVCBindings) by left.
    set (m := mounts opts _ _ (pod_key s)). pose proof (Hhas (pod_key s)) as Hr.
    assert (s ∈ rows_of (k_v st1) q ↔ s ∈ estate q ∧ usable (key_pair (pod_key s)) ∧ root (pod_key s)) as ->.
    { unfold podTargets in Hq. rewrite !elem_of_cons, elem_of_nil in Hq.
      destruct Hq as [->|[->|[]]]; [by rewrite HI, Hinfo|by rewrite HO, Howner]. }
    rewrite <-Hr. destruct (ps_has loaded (pod_key s)); naive_solver.
Qed.
End rounds.
