(* ===== verification/K8sReadTheorems.v ===== *)
(** The Kubernetes-only read loads exactly what its roots reach: the claims its
    root pods mount, every pod mounting one of those claims, and the nodes and
    controllers of the loaded pods.

    The node root of a Kubernetes-only read: the pods whose newest incarnation
    runs on a root, whatever the chunks that read them.

    What a Kubernetes-only read loads for its pod and node roots, on an upstream
    that answers every query of the build from one estate. *)

From S2P Require Import Prelude GoStrings PromStrings Keyed Selector Queries ScopeChunks.
From S2P Require Import HarvestScope PairScope ScopedRender AppMetadata Fanout StorageScope.
From S2P Require Import BuildIdentity VolumeKey TopologyTypes MetadataPicks NameScopes.
From S2P Require Import ScopedReads ReadPlan K8sRead Upstream K8sReadProps K8sLoad Float64.

(** ** What preparing leaves *)

(** Two plans on the same roots, with the same pod chunks and node seed. *)
Lemma prepareHarvestSeed_keeps window budget keys sel p p' : prepareHarvestSeed window budget keys sel p = Ok p' →
  roots p' = roots p ∧ nodeSeed p' = nodeSeed p ∧ podSeedChunks p' = podSeedChunks p ∧
  nodePrepared p' = nodePrepared p ∧ podPrepared p' = podPrepared p.
Proof.
  unfold prepareHarvestSeed. destruct (resolved p); [by intros [= <-]|].
  destruct (negb (harvestSeed _)); [by intros [= <-]|]. destruct (_ ≫= _); [by intros [= <-]|done].
Qed.

Lemma prepareNodeSeed_ok window budget keys sel p p' : prepareNodeSeed window budget keys sel p = Ok p' →
  nodePrepared p = false →
  roots p' = roots p ∧ podSeedChunks p' = podSeedChunks p ∧ podPrepared p' = podPrepared p ∧
  nodeSeed p' = if bool_decide (kind (roots p) = StorageRootNode) && some_of (nodeRoots (roots p))
                then nodeSeed p ++ omap (RenderPodInfoByNode window keys sel)
                       (ChunkScope (nodeRoots (roots p)) (Z.max 1 (budget - RequestMatcherCost QPodInfo keys sel)))
                else nodeSeed p.
Proof.
  unfold prepareNodeSeed. intros Hp E; rewrite E in Hp; revert Hp. case_bool_decide; cbn [negb orb andb]; [|by intros [= <-]].
  destruct (some_of _); cbn [negb]; [|by intros [= <-]]. destruct (_ <? _)%Z; [done|by intros [= <-]].
Qed.

Lemma preparePodSeed_ok window budget keys sel p p' : preparePodSeed window budget keys sel p = Ok p' →
  podPrepared p = false →
  roots p' = roots p ∧ nodeSeed p' = nodeSeed p ∧
  podSeedChunks p' = if bool_decide (kind (roots p) = StorageRootPod) && some_of (pods (roots p))
                     then podSeedChunks p ++ map snd (omap (render_pod_seed window keys sel)
                                                        (pod_seed_chunks budget keys sel (pods (roots p))))
                     else podSeedChunks p.
Proof.
  unfold preparePodSeed. intros Hp E; rewrite E in Hp; revert Hp. case_bool_decide; cbn [negb orb andb]; [|by intros [= <-]].
  destruct (some_of _); cbn [negb]; [|by intros [= <-]]. destruct (_ <? _)%Z; [done|by intros [= <-]].
Qed.

Lemma prepare_tail_keeps budget keys sel p p1 p2 p3 :
  prepareClaimSeed budget keys sel p = Ok p1 → prepareApplicationSeed budget p1 = Ok p2 →
  prepareFlowless budget keys sel p2 = Ok p3 →
  roots p3 = roots p ∧ nodeSeed p3 = nodeSeed p ∧ podSeedChunks p3 = podSeedChunks p.
Proof.
  intros H1 H2 H3.
  assert (roots p1 = roots p ∧ nodeSeed p1 = nodeSeed p ∧ podSeedChunks p1 = podSeedChunks p) as (<- & <- & <-).
  { revert H1. unfold prepareClaimSeed. destruct (claimPrepared p); [by intros [= <-]|].
    destruct (negb _); [by intros [= <-]|]. destruct (_ <? _)%Z; [done|by intros [= <-]]. }
  assert (roots p2 = roots p1 ∧ nodeSeed p2 = nodeSeed p1 ∧ podSeedChunks p2 = podSeedChunks p1) as (<- & <- & <-).
  { revert H2. unfold prepareApplicationSeed. destruct (appPrepared p1); [by intros [= <-]|].
    destruct (_ || _); [by intros [= <-]|]. destruct (_ <? _)%Z; [done|by intros [= <-]]. }
  revert H3. unfold prepareFlowless. destruct (flowlessPrepared p2); [by intros [= <-]|].
  destruct (flowless_scope _) as [[??]|]; [|by intros [= <-]]. destruct (_ <? _)%Z; [done|by intros [= <-]].
Qed.

(** A Kubernetes-only plan once prepared. *)
Lemma prepare_k8s window budget keys sel r p : prepare window budget keys sel (k8sPlan r) = Ok p →
  roots p = roots (k8sPlan r) ∧
  (roots_Kind r = StorageRootNode → nodeRoots (roots p) ≠ [] →
   nodeSeed p = omap (RenderPodInfoByNode window keys sel)
     (ChunkScope (nodeRoots (roots p)) (Z.max 1 (budget - RequestMatcherCost QPodInfo keys sel)))) ∧
  (roots_Kind r = StorageRootPod → roots_Pods r ≠ [] →
   podSeedChunks p = map snd (omap (render_pod_seed window keys sel) (pod_seed_chunks budget keys sel (roots_Pods r)))).
Proof.
  unfold prepare. destruct (prepareHarvestSeed _ _ _ _ _) as [p1|] eqn:E1; [|done]. cbn [rbind].
  destruct (prepareNodeSeed _ _ _ _ _) as [p2|] eqn:E2; [|done]. cbn [rbind].
  destruct (preparePodSeed _ _ _ _ _) as [p3|] eqn:E3; [|done]. cbn [rbind].
  destruct (prepareClaimSeed _ _ _ _) as [p4|] eqn:E4; [|done]. cbn [rbind].
  destruct (prepareApplicationSeed _ _) as [p5|] eqn:E5; [|done]. cbn [rbind]. intros E6.
  destruct (prepareHarvestSeed_keeps _ _ _ _ _ _ E1) as (HR1 & HN1 & HP1 & HNP & HPP).
  destruct (prepareNodeSeed_ok _ _ _ _ _ _ E2 HNP) as (HR2 & HP2 & HPP2 & HN2). rewrite HPP in HPP2.
  destruct (preparePodSeed_ok _ _ _ _ _ _ E3 HPP2) as (HR3 & HN3 & HP3).
  destruct (prepare_tail_keeps _ _ _ _ _ _ _ E4 E5 E6) as (HR6 & HN6 & HP6).
  rewrite HR2, HR1 in *. assert (roots p = roots (k8sPlan r)) as HR by congruence. split; [done|]. rewrite HR. split.
  - intros Hk Hne. rewrite HN6, HN3, HN2, HN1, bool_decide_eq_true_2 by done.
    destruct (nodeRoots (roots (k8sPlan r))); done.
  - intros Hk Hne. rewrite HP6, HP3, HP2, HP1, bool_decide_eq_true_2 by done. cbn [k8sPlan fresh_plan roots pods storageRootsPlan].
    destruct (roots_Pods r); done.
Qed.

(** ** The seed chunks of a pod root *)

Lemma elem_of_namespacesForNames refs names ns :
  ns ∈ namespacesForNames refs names ↔ ns ≠ "" ∧ ∃ r, r ∈ refs ∧ pr_Name r ∈ names ∧ pr_Namespace r = ns.
Proof.
  unfold namespacesForNames, podRefNamespaces. rewrite elem_of_sortedNames, list_elem_of_fmap.
  setoid_rewrite list_elem_of_filter. naive_solver.
Qed.

Lemma pod_seed_good budget keys sel refs : Forall (λ r, usable (ref_pair r)) refs →
  Forall good_chunk (pod_seed_chunks budget keys sel refs) ∧
  ∀ r, r ∈ refs → ∃ c, c ∈ pod_seed_chunks budget keys sel refs ∧ pr_Namespace r ∈ pc_namespaces c ∧ pr_Name r ∈ pc_names c.
Proof.
  intros Hu. rewrite Forall_forall in Hu. unfold pod_seed_chunks. set (b := Z.max 1 _).
  destruct (ChunkScope_ok (podRefNames refs) b) as [Hcat Hok]. rewrite Forall_forall in Hok.
  assert (∀ n, n ∈ podRefNames refs ↔ n ≠ "" ∧ ∃ r, r ∈ refs ∧ pr_Name r = n) as Hnames.
  { intros n. unfold podRefNames. rewrite elem_of_sortedNames, list_elem_of_fmap. naive_solver. }
  split.
  - apply Forall_map, Forall_forall. intros c Hc. destruct (Hok c Hc) as [Hne _].
    assert (∀ n, n ∈ c → n ≠ "" ∧ ∃ r, r ∈ refs ∧ pr_Name r = n) as Hin.
    { intros n Hn. apply Hnames. rewrite <-Hcat. apply elem_of_concat. by exists c. }
    split_and!; cbn [pc_namespaces pc_names].
    + destruct c as [|n c]; [done|]. destruct (Hin n) as (_ & r & Hr & Hn); [left|].
      intros E. assert (pr_Namespace r ∈ namespacesForNames refs (n :: c)) as Hns; [|rewrite E in Hns; by apply elem_of_nil in Hns].
      apply elem_of_namespacesForNames. destruct (Hu r Hr) as [Hu1 _]. split; [done|]. exists r. rewrite Hn. by split_and!; [|left|].
    + apply Forall_forall. by intros ns [? _]%elem_of_namespacesForNames.
    + done.
    + apply Forall_forall. by intros n [? _]%Hin.
  - intros r Hr. destruct (Hu r Hr) as [Hns Hn].
    assert (pr_Name r ∈ concat (ChunkScope (podRefNames refs) b)) as (c & Hin & Hc)%elem_of_concat.
    { rewrite Hcat. apply Hnames. split; [done|by exists r]. }
    eexists. split; [apply list_elem_of_fmap; by exists c|]. cbn. split; [|done].
    apply elem_of_namespacesForNames. split; [done|]. by exists r.
Qed.

Lemma pod_seed_rendered window keys sel cs : Forall good_chunk cs →
  map snd (omap (render_pod_seed window keys sel) cs) = cs.
Proof.
  induction 1 as [|c cs (H1 & H2 & H3 & H4) _ IH]; [done|]. cbn [omap list_omap]. unfold render_pod_seed at 1, RenderClaimBindingsByPod.
  destruct (RenderNames_fail_closed QPVCBindings window keys sel "" PodLabel (pc_namespaces c) (pc_names c)) as [_ Hr].
  destruct (RenderNamesAcrossNamespaces _ _ _ _ _ _ _) as [text|]; [by cbn; f_equal|].
  destruct Hr as [Hr|[Hr|Hr]]; [by vm_compute in Hr|rewrite proper_has_value in Hr by done; done..].
Qed.

Section roots.
Context `{Querier} `{Scheduler} (window : Z) (opts : Options) (sel : Selector).
Context (estate : Query → list Sample) `{!Honest estate window (opt_LabelKeys opts) sel}.

#[local] Abbreviation keys := (opt_LabelKeys opts).
#[local] Abbreviation lk := (OrDefault keys).
#[local] Abbreviation pod_key s := (podSeriesKeyOf (s_Metric s) lk).

Lemma trackedClaimKeys_members rows rows' : (∀ s, s ∈ rows ↔ s ∈ rows') → trackedClaimKeys opts rows = trackedClaimKeys opts rows'.
Proof.
  intros Hr. apply set_eq. intros k. unfold trackedClaimKeys. rewrite !elem_of_list_to_set, !list_elem_of_fmap.
  setoid_rewrite list_elem_of_filter. by setoid_rewrite Hr.
Qed.

(** The rows of a seed read that are about a root pod. *)
Lemma seed_rows q refs s (Hu : Forall (λ r, usable (ref_pair r)) refs) budget :
  mkPodRef (label_of (s_Metric s) NamespaceLabel) (label_of (s_Metric s) PodLabel) ∈ refs →
  s ∈ pair_rows opts sel estate (mkPairRead q PodLabel [] (Some (pod_seed_chunks budget keys sel refs))) ↔ s ∈ estate q.
Proof.
  intros Hs. rewrite elem_of_pair_rows. cbn [prd_query prd_label pair_chunks prd_chunks]. split; [tauto|].
  intros He. split; [done|]. destruct (pod_seed_good budget keys sel refs Hu) as [_ Hc].
  destruct (Hc _ Hs) as (c & Hin & Hns & Hn). exists c. by split_and!.
Qed.
Lemma ref_of_pair refs s :
  mkPodRef (label_of (s_Metric s) NamespaceLabel) (label_of (s_Metric s) PodLabel) ∈ refs ↔
  key_pair (pod_key s) ∈ map ref_pair refs.
Proof.
  rewrite list_elem_of_fmap. split; [intros Hs; eexists; by split; [|exact Hs]|].
  intros ([ns n] & Heq & Hr). unfold ref_pair, key_pair in Heq. cbn in Heq. by injection Heq as -> ->.
Qed.

(** The rows of a seed read the root keeps. *)
Lemma requested_rows q refs budget s : Forall (λ r, usable (ref_pair r)) refs →
  s ∈ keepRequestedPairs (pair_rows opts sel estate
        (mkPairRead q PodLabel [] (Some (pod_seed_chunks budget keys sel refs)))) PodLabel (map ref_pair refs) ↔
  s ∈ estate q ∧ usable (key_pair (pod_key s)) ∧ key_pair (pod_key s) ∈ map ref_pair refs.
Proof.
  intros Hu. unfold keepRequestedPairs, KeepNamePairs. rewrite list_elem_of_filter, elem_of_list_to_set.
  change (mkNamePair _ _) with (key_pair (pod_key s)). split.
  - intros [Hs He%pair_rows_estate]. split; [done|]. split; [|done]. apply list_elem_of_fmap in Hs as (ref & -> & Hr).
    rewrite Forall_forall in Hu. by apply Hu.
  - intros (He & _ & Hs). split; [done|]. apply seed_rows; [done| |done]. by apply ref_of_pair.
Qed.

(** The plan of a prepared Kubernetes-only request. *)
Definition prepared (r : StorageRoots) (plan : topologyPlan) : Prop :=
  prepare window (qosScopeBatchBytes opts) keys sel (k8sPlan r) = Ok plan.

(** A request for pods: every root names its namespace and its pod. *)
Record pod_request (r : StorageRoots) : Prop := {
  pq_kind : roots_Kind r = StorageRootPod;
  pq_some : roots_Pods r ≠ [];
  pq_named : Forall (λ ref, usable (ref_pair ref)) (roots_Pods r);
}.

Lemma podRoot_ok r plan v : pod_request r → prepared r plan → metadata_answers opts → unread v →
  ∃ st', podRoot window opts sel plan (mkK8sState v no_controllers ∅) = Ok st' ∧
    k8s_loaded opts estate plan false (λ k, key_pair k ∈ map ref_pair (roots_Pods r))
      (trackedClaimKeys opts (keepRootBindings (estate QPVCBindings) (roots_Pods r))) (k_v st').
Proof.
  intros [Hk Hne Hu] Hp Hmeta Hv. destruct (prepare_k8s _ _ _ _ _ _ Hp) as (HR & _ & HP).
  specialize (HP Hk Hne). destruct (pod_seed_good (qosScopeBatchBytes opts) keys sel (roots_Pods r) Hu) as [Hgood _].
  rewrite pod_seed_rendered in HP by done.
  assert (pods (roots plan) = roots_Pods r) as HPods by (by rewrite HR).
  unfold podRoot. rewrite HP, HPods. set (read q := mkPairRead q PodLabel [] (Some (pod_seed_chunks (qosScopeBatchBytes opts) keys sel (roots_Pods r)))).
  fold (read QPVCBindings) (read QPodInfo) (read QPodOwner).
  pose proof pod_labels as Hl. rewrite Forall_forall in Hl.
  rewrite (pair_reads_answer window opts sel estate).
  2: { repeat constructor; cbn; try done; apply Hl; set_solver. }
  cbn [rbind map lookup list_lookup default from_option id].
  destruct (fromRoots_ok window opts sel estate plan
    (keepRequestedPairs (pair_rows opts sel estate (read QPodInfo)) PodLabel (map ref_pair (roots_Pods r)))
    (keepRequestedPairs (pair_rows opts sel estate (read QPodOwner)) PodLabel (map ref_pair (roots_Pods r)))
    (keepRootBindings (pair_rows opts sel estate (read QPVCBindings)) (roots_Pods r))
    (mkPodSet false ∅ (list_to_set (map ref_pair (roots_Pods r)))) v
    (λ k, key_pair k ∈ map ref_pair (roots_Pods r)) Hmeta Hv) as (st' & -> & Hst).
  - intros s. by apply requested_rows.
  - intros s. by apply requested_rows.
  - intros k. unfold ps_has. cbn [ps_keyed ps_refs]. by rewrite bool_decide_eq_true, elem_of_list_to_set.
  - exists st'. split; [done|].
    rewrite (trackedClaimKeys_members _ (keepRootBindings (estate QPVCBindings) (roots_Pods r))) in Hst; [done|].
    intros s. unfold keepRootBindings. rewrite !list_elem_of_filter. split; [by intros (H1 & ?%pair_rows_estate)|].
    intros ([Hs Hb] & He). split; [done|]. by apply seed_rows.
Qed.
End roots.

(** ** The newest incarnation *)

(** The rows of one pod, read at one time: [cur] has their greatest uid, and no
    node only when no row of that uid has one. *)
Definition newest_of (t : Z) (rows : list Sample) (cur : newest) : Prop :=
  nw_ts cur = t ∧ ∀ s, s ∈ rows →
    String.compare (label_of (s_Metric s) "uid") (nw_uid cur) ≠ Gt ∧
    (label_of (s_Metric s) "uid" = nw_uid cur → nw_node cur = "" → label_of (s_Metric s) "node" = "").

Lemma str_lt_uid a b : str_lt a b = match String.compare b a with Gt => true | _ => false end.
Proof. rewrite str_lt_compare, (gc_antisym a b). by destruct (String.compare a b). Qed.

(** One row, the kept value explicit. *)
Lemma newest_row t cur s : nw_ts cur = t → s_Timestamp s = t →
  at_key newest_upd (Some cur) s =
  Some (let uid := label_of (s_Metric s) "uid" in let node := label_of (s_Metric s) "node" in
        match String.compare uid (nw_uid cur) with
        | Gt => mkNewest t uid node
        | Eq => if bool_decide (nw_node cur = "") then mkNewest t uid node else cur
        | Lt => cur
        end).
Proof.
  intros Hc Hs. unfold at_key, newest_upd. rewrite Hs, Hc, Z.ltb_irrefl, bool_decide_eq_true_2, str_lt_uid by done.
  cbn [orb andb]. set (uid := label_of _ "uid").
  destruct (String.compare uid (nw_uid cur)) eqn:E; cbn.
  - apply (gcs_eq (c := String.compare)) in E. rewrite (bool_decide_eq_true_2 (uid = _)) by done. cbn.
    by destruct (bool_decide (nw_node cur = "")); rewrite <-?E.
  - rewrite (bool_decide_eq_false_2 (uid = _)); [done|]. intros Eu. by rewrite Eu, (gc_refl String.compare) in E.
  - rewrite (bool_decide_eq_false_2 (uid = _)); [done|]. intros Eu. by rewrite Eu, (gc_refl String.compare) in E.
Qed.

Lemma newest_fixed t rows cur s : newest_of t rows cur → s ∈ rows → s_Timestamp s = t →
  at_key newest_upd (Some cur) s = Some cur.
Proof.
  intros [Ht Hrows] Hs Hts. destruct (Hrows s Hs) as [Hle Hnode]. rewrite (newest_row t) by done. cbn zeta.
  destruct (String.compare _ _) eqn:E; [|done|done]. apply (gcs_eq (c := String.compare)) in E.
  case_bool_decide as En; [|done]. rewrite Hnode by done. rewrite E, <-Ht. by destruct cur; cbn in *; subst.
Qed.

Lemma newest_more t rows cur s : newest_of t rows cur → s_Timestamp s = t →
  ∃ cur', at_key newest_upd (Some cur) s = Some cur' ∧ newest_of t (rows ++ [s]) cur'.
Proof.
  intros [Ht Hrows] Hs. rewrite (newest_row t) by done. eexists. split; [done|]. cbn zeta.
  assert (∀ s', s' ∈ rows ++ [s] → s' ∈ rows ∨ s' = s) as Hin by (by intros s' [?|?%list_elem_of_singleton]%elem_of_app; auto).
  destruct (String.compare (label_of (s_Metric s) "uid") (nw_uid cur)) eqn:E.
  - apply (gcs_eq (c := String.compare)) in E. case_bool_decide as En.
    + split; [done|]. intros s' [Hs'| ->]%Hin; cbn; [|by rewrite (gc_refl String.compare)].
      destruct (Hrows s' Hs') as [Hle Hnode]. rewrite E. split; [done|]. intros Hu _. by apply Hnode.
    + split; [done|]. intros s' [Hs'| ->]%Hin; [by apply Hrows|]. rewrite E, (gc_refl String.compare). by split.
  - split; [done|]. intros s' [Hs'| ->]%Hin; [by apply Hrows|]. rewrite E. split; [done|].
    intros Hu. by rewrite Hu, (gc_refl String.compare) in E.
  - split; [done|]. intros s' [Hs'| ->]%Hin; cbn; [|by rewrite (gc_refl String.compare)].
    destruct (Hrows s' Hs') as [Hle _]. split.
    + apply (gc_trans (c := String.compare) _ (nw_uid cur)); [done|]. rewrite (gc_antisym (label_of (s_Metric s) "uid")), E. done.
    + intros Hu. rewrite Hu in Hle. done.
Qed.

(** Reading the rows of one pod again changes nothing. *)
Lemma newest_fold t rows : Forall (λ s, s_Timestamp s = t) rows → rows ≠ [] →
  ∃ cur, fold_left (at_key newest_upd) rows None = Some cur ∧ newest_of t rows cur.
Proof.
  intros Hts. induction rows as [|s rows IH] using rev_ind; [done|]. intros _.
  apply Forall_app in Hts as [Hts [Hs _]%Forall_cons]. rewrite fold_left_app. cbn [fold_left].
  destruct rows as [|s0 rows].
  - eexists. split; [done|]. split; [done|]. intros s' ->%list_elem_of_singleton. cbn. by rewrite (gc_refl String.compare).
  - destruct (IH Hts) as (cur & -> & Hcur); [done|]. by apply newest_more.
Qed.

Lemma newest_again t rows pieces : Forall (λ s, s_Timestamp s = t) rows →
  Forall (λ p, p = rows ∨ p = []) pieces → rows ∈ pieces →
  fold_left (at_key newest_upd) (mjoin pieces) None = fold_left (at_key newest_upd) rows None.
Proof.
  intros Hts Hp Hin. destruct (decide (rows = [])) as [->|Hne].
  { assert (mjoin pieces = []) as ->; [|done]. clear Hin. induction Hp as [|p ps [->| ->] _ IH]; [done|exact IH..]. }
  destruct (newest_fold t rows Hts Hne) as (cur & Hcur & Hof). rewrite Forall_forall in Hts.
  assert (fold_left (at_key newest_upd) rows (Some cur) = Some cur) as Hfix.
  { assert (∀ l, (∀ s, s ∈ l → s ∈ rows) → fold_left (at_key newest_upd) l (Some cur) = Some cur) as Hl; [|by apply Hl].
    induction l as [|s l IH]; intros Hsub; [done|]. cbn [fold_left].
    rewrite (newest_fixed t rows) by (done || (try apply Hts); apply Hsub; left). apply IH. intros s' Hs'. apply Hsub. by right. }
  assert (∀ ps, Forall (λ p, p = rows ∨ p = []) ps → fold_left (at_key newest_upd) (mjoin ps) (Some cur) = Some cur) as Hrest.
  { induction 1 as [|p ps Hor _ IH]; [done|]. change (mjoin (p :: ps)) with (p ++ mjoin ps). rewrite fold_left_app.
    destruct Hor as [->| ->]; [by rewrite Hfix|done]. }
  rewrite Hcur. induction Hp as [|p ps Hor Hps IH]; [by apply elem_of_nil in Hin|].
  change (mjoin (p :: ps)) with (p ++ mjoin ps). rewrite fold_left_app. destruct Hor as [->| ->].
  - rewrite Hcur. by apply Hrest.
  - apply elem_of_cons in Hin as [?|Hin]; [done|by apply IH].
Qed.

(** The node kept is one a row names. *)
Lemma newest_origin t rows cur : Forall (λ s, s_Timestamp s = t) rows →
  fold_left (at_key newest_upd) rows None = Some cur → nw_ts cur = t ∧ ∃ s, s ∈ rows ∧ label_of (s_Metric s) "node" = nw_node cur.
Proof.
  intros Hts. revert cur. induction rows as [|s rows IH] using rev_ind; intros cur; [done|].
  apply Forall_app in Hts as [Hts [Hs _]%Forall_cons]. rewrite fold_left_app. cbn [fold_left].
  destruct (fold_left _ rows None) as [c|] eqn:E.
  - destruct (IH Hts c eq_refl) as (Hc & s' & Hs' & Hn). rewrite (newest_row t) by done. intros [= <-]. cbn zeta.
    set (new := match String.compare _ _ with Eq => _ | Lt => _ | Gt => _ end).
    assert (new = mkNewest t (label_of (s_Metric s) "uid") (label_of (s_Metric s) "node") ∨ new = c) as [->| ->]
      by (unfold new; destruct (String.compare _ _); [case_bool_decide| |]; auto).
    + split; [done|]. exists s. split; [apply elem_of_app; right; by apply list_elem_of_singleton|done].
    + split; [done|]. exists s'. split; [apply elem_of_app; by left|done].
  - cbn. intros [= <-]. split; [done|]. exists s. split; [apply elem_of_app; right; by apply list_elem_of_singleton|done].
Qed.

Lemma elem_of_podsNewestOn rows rs lk k : k ∈ podsNewestOn rows rs lk ↔
  ∃ b, fold_left (at_key newest_upd) (filter (λ s, newest_key lk s = Some k) rows) None = Some b ∧ nw_node b ∈ rs.
Proof.
  unfold podsNewestOn. rewrite elem_of_dom. unfold is_Some. setoid_rewrite map_lookup_filter_Some.
  setoid_rewrite lookup_fold_keyed. setoid_rewrite lookup_empty. done.
Qed.

Lemma filter_mjoin {A} (P : A → Prop) `{∀ x, Decision (P x)} (ls : list (list A)) :
  filter P (mjoin ls) = mjoin (map (filter P) ls).
Proof.
  induction ls as [|l ls IH]; [done|]. change (mjoin (l :: ls)) with (l ++ mjoin ls). by rewrite filter_app, IH.
Qed.

Lemma newest_key_Some lk s k : newest_key lk s = Some k → podSeriesKeyOf (s_Metric s) lk = k ∧ psk_pod k ≠ "".
Proof.
  unfold newest_key. destruct (bool_decide (label_of _ _ = "")); [done|]. case_bool_decide as Hp; [done|].
  by intros [= <-].
Qed.

Section node_root.
Context `{Querier} `{Scheduler} (window : Z) (opts : Options) (sel : Selector).
Context (estate : Query → list Sample) `{!Honest estate window (opt_LabelKeys opts) sel}.

#[local] Abbreviation keys := (opt_LabelKeys opts).
#[local] Abbreviation lk := (OrDefault keys).
#[local] Abbreviation pod_key s := (podSeriesKeyOf (s_Metric s) lk).

(** The instant vector of a query carries the evaluation time on every row. *)
Context (t : Z) (Htime : Forall (λ s, s_Timestamp s = t) (estate QPodInfo)).

(** ** The seed *)

(** The rows a seed query of [c] returns. *)
Definition on_nodes (c : list string) : list Sample := filter (λ s, label_of (s_Metric s) "node" ∈ c) (estate QPodInfo).

Lemma node_chunk_answers (c : list string) : c ≠ [] → Forall (λ n, n ≠ "") c →
  ∃ text, RenderPodInfoByNode window keys sel c = Some text ∧ Instant QPodInfo text = Ok (on_nodes c).
Proof.
  intros Hne Hn. pose proof (RenderOnLabel_extends QPodInfo window keys sel NodeLabel c ltac:(by vm_compute)) as Hr.
  unfold RenderPodInfoByNode. destruct (RenderOnLabel _ _ _ _ _ c) as [text|].
  - destruct Hr as (_ & _ & Hext). exists text. split; [done|]. rewrite (honest QPodInfo [(NodeLabel, normaliseValues c)] text ltac:(done) Hext). f_equal.
    apply list_filter_iff. intros s. unfold selects. rewrite Forall_singleton. cbn [fst snd]. by apply elem_of_normalised.
  - exfalso. destruct Hr as [Hr|Hr]; [by vm_compute in Hr|]. by rewrite proper_has_value in Hr.
Qed.

Lemma node_chunks_answer (cs : list (list string)) : Forall (λ c, c ≠ [] ∧ Forall (λ n, n ≠ "") c) cs →
  instantAll QPodInfo (omap (RenderPodInfoByNode window keys sel) cs) = Ok (mjoin (map on_nodes cs)).
Proof.
  intros Hcs. unfold instantAll. set (part := λ text, _).
  assert (map part (omap (RenderPodInfoByNode window keys sel) cs) = map (λ c, Ok (on_nodes c)) cs) as ->.
  { induction Hcs as [|c cs [Hne Hn] _ IH]; [done|]. destruct (node_chunk_answers c Hne Hn) as (text & Ht & Ha).
    cbn [omap list_omap]. rewrite Ht. cbn [map]. rewrite IH. unfold part at 1. by rewrite Ha. }
  rewrite wave_answered; [by rewrite map_map|]. apply Forall_map, Forall_true. by eexists.
Qed.

Lemma node_seed_rows names budget : Forall (λ n, n ≠ "") names →
  ∃ onNode, instantAll QPodInfo (omap (RenderPodInfoByNode window keys sel) (ChunkScope names budget)) = Ok onNode ∧
    ∀ s, s ∈ onNode ↔ s ∈ estate QPodInfo ∧ label_of (s_Metric s) "node" ∈ names.
Proof.
  intros Hn. destruct (ChunkScope_ok names budget) as [Hcat Hok]. rewrite Forall_forall in Hok. rewrite Forall_forall in Hn.
  assert (∀ c n, c ∈ ChunkScope names budget → n ∈ c → n ∈ names) as Hsub.
  { intros c n Hc Hin. rewrite <-Hcat. apply elem_of_concat. by exists c. }
  eexists. split; [apply node_chunks_answer, Forall_forall|].
  - intros c Hc. destruct (Hok c Hc) as [Hne _]. split; [done|]. apply Forall_forall. intros n Hin. by apply Hn, (Hsub c).
  - intros s. rewrite mjoin_concat, elem_of_concat. split.
    + intros (l & (c & -> & Hc)%list_elem_of_fmap & [Hm Hs]%list_elem_of_filter). split; [done|]. by eapply Hsub.
    + intros [Hs Hm]. rewrite <-Hcat in Hm. apply elem_of_concat in Hm as (c & Hin & Hc).
      eexists. split; [apply list_elem_of_fmap; by exists c|]. by apply list_elem_of_filter.
Qed.

(** ** The pods whose newest incarnation runs on a root *)

(** The pods whose newest incarnation, of all the rows there are, runs on [rs]. *)
Definition on_root (rs : list string) : gset podSeriesKey :=
  filter (λ k, psk_namespace k ≠ "") (podsNewestOn (estate QPodInfo) rs lk).

Lemma on_root_row rs k : k ∈ on_root rs →
  usable (key_pair k) ∧ ∃ s, s ∈ estate QPodInfo ∧ pod_key s = k ∧ label_of (s_Metric s) "node" ∈ rs.
Proof.
  unfold on_root. rewrite elem_of_filter, elem_of_podsNewestOn. intros (Hns & b & Hb & Hrs).
  destruct (newest_origin t _ _ (proj2 (Forall_forall _ _) (λ s Hs, proj1 (Forall_forall _ _) Htime s (proj2 (proj1 (list_elem_of_filter _ _ _) Hs)))) Hb)
    as (_ & s & Hs & Hn).
  apply list_elem_of_filter in Hs as [Hk Hs]. apply newest_key_Some in Hk as [Hk Hp]. split; [by split|].
  exists s. split_and!; [done|done|by rewrite Hn].
Qed.

(** The rows of one pod. *)
Definition pod_rows (k : podSeriesKey) : list Sample := filter (λ s, newest_key lk s = Some k) (estate QPodInfo).

Lemma pod_rows_time k : Forall (λ s, s_Timestamp s = t) (pod_rows k).
Proof. unfold pod_rows. apply Forall_forall. intros s [_ Hs]%list_elem_of_filter. revert s Hs. by apply Forall_forall. Qed.

(** A chunk reads all the rows of a pod or none of them. *)
Lemma chunk_pod_rows k c : filter (λ s, newest_key lk s = Some k) (filter (chunk_match PodLabel c) (estate QPodInfo)) =
  if bool_decide (psk_namespace k ∈ pc_namespaces c ∧ psk_pod k ∈ pc_names c) then pod_rows k else [].
Proof.
  rewrite list_filter_filter. case_bool_decide as Hc.
  - apply list_filter_iff. intros s. split; [tauto|]. intros Hk. split; [done|].
    apply newest_key_Some in Hk as [<- _]. exact Hc.
  - apply elem_of_nil_inv. intros s [[Hk Hm] _]%list_elem_of_filter. apply Hc.
    apply newest_key_Some in Hk as [<- _]. exact Hm.
Qed.

Lemma pod_rows_by_pairs seed k :
  filter (λ s, newest_key lk s = Some k) (pair_rows opts sel estate (by_pairs QPodInfo PodLabel seed)) =
  mjoin (map (λ c, if bool_decide (psk_namespace k ∈ pc_namespaces c ∧ psk_pod k ∈ pc_names c) then pod_rows k else [])
           (pair_chunks opts sel (by_pairs QPodInfo PodLabel seed))).
Proof.
  unfold pair_rows. rewrite filter_mjoin, map_map. f_equal. apply map_ext. intros c. apply chunk_pod_rows.
Qed.

(** Reading a pod's rows in several chunks keeps its newest incarnation. *)
Lemma newest_by_pairs seed k :
  fold_left (at_key newest_upd)
    (filter (λ s, newest_key lk s = Some k) (pair_rows opts sel estate (by_pairs QPodInfo PodLabel seed))) None =
  if decide (Exists (λ c, psk_namespace k ∈ pc_namespaces c ∧ psk_pod k ∈ pc_names c)
               (pair_chunks opts sel (by_pairs QPodInfo PodLabel seed)))
  then fold_left (at_key newest_upd) (pod_rows k) None else None.
Proof.
  rewrite pod_rows_by_pairs. set (piece := λ c : pairChunk, _). set (cs := pair_chunks _ _ _).
  destruct (decide _) as [(c & Hc & Hk)%Exists_exists|Hno].
  - apply (newest_again t); [apply pod_rows_time| |].
    + apply Forall_map, Forall_true. intros c'. unfold piece. case_bool_decide; auto.
    + apply list_elem_of_fmap. exists c. split; [|done]. unfold piece. by rewrite bool_decide_eq_true_2.
  - assert (mjoin (map piece cs) = []) as ->; [|done]. apply elem_of_nil_inv. intros s.
    rewrite mjoin_concat, elem_of_concat. intros (l & (c & -> & Hc)%list_elem_of_fmap & Hs). apply Hno, Exists_exists. exists c.
    split; [done|]. unfold piece in Hs. case_bool_decide; [done|by apply elem_of_nil in Hs].
Qed.

(** The seed of a node root: a pair for every pod with a row on a root. *)
Definition covers_root (rs : list string) (seed : list NamePair) : Prop := ∀ k, k ∈ on_root rs → key_pair k ∈ seed.

Lemma pods_on_root rs seed : covers_root rs seed →
  podsNewestOn (pair_rows opts sel estate (by_pairs QPodInfo PodLabel seed)) rs lk = on_root rs.
Proof.
  intros Hcov. apply set_eq. intros k. unfold on_root. rewrite elem_of_filter.
  rewrite (elem_of_podsNewestOn (estate QPodInfo)). fold (pod_rows k). rewrite elem_of_podsNewestOn, newest_by_pairs.
  set (cs := pair_chunks _ _ _). destruct (decide _) as [(c & Hc & Hns & _)%Exists_exists|Hno].
  - split; [|tauto]. intros Hb. split; [|done]. unfold cs, pair_chunks in Hc. cbn in Hc.
    case_bool_decide; [by apply elem_of_nil in Hc|].
    pose proof (chunksOfPairs_good seed PodLabel (pairBudget opts sel QPodInfo)) as Hg. rewrite Forall_forall in Hg.
    destruct (Hg c Hc) as (_ & Hgns & _). rewrite Forall_forall in Hgns. by apply Hgns.
  - split; [by intros (b & ? & _)|]. intros [Hns Hb]. exfalso. apply Hno, Exists_exists.
    assert (k ∈ on_root rs) as Hk by (unfold on_root; by rewrite elem_of_filter, elem_of_podsNewestOn).
    destruct (on_root_row rs k Hk) as (Hu & s & Hs & Hsk & _). pose proof (Hcov k Hk) as Hin.
    assert (s ∈ pair_rows opts sel estate (by_pairs QPodInfo PodLabel seed)) as (_ & c & Hc & Hm)%elem_of_pair_rows.
    { apply by_pairs_rows; [|rewrite <-Hsk in Hin; exact Hin|done]. rewrite <-Hsk in Hu. exact Hu. }
    exists c. split; [done|]. rewrite <-Hsk. exact Hm.
Qed.
(** ** The read *)

(** A request for nodes: one root at least has a name. *)
Record node_request (r : StorageRoots) : Prop := {
  nq_kind : roots_Kind r = StorageRootNode;
  nq_named : sortedNames (roots_Names r) ≠ [];
}.

(** The families a node root reads by the pairs of its seed. *)
Lemma seed_reads_answer seed :
  issuePairReads window opts sel [mkPairRead QPodInfo PodLabel seed None; mkPairRead QPVCBindings PodLabel seed None;
                                  mkPairRead QPodOwner PodLabel seed None] =
  Ok (map (λ q, pair_rows opts sel estate (by_pairs q PodLabel seed)) [QPodInfo; QPVCBindings; QPodOwner]).
Proof.
  apply (pair_reads_answer window opts sel estate [by_pairs QPodInfo PodLabel seed; by_pairs QPVCBindings PodLabel seed;
    by_pairs QPodOwner PodLabel seed]).
  pose proof pod_labels as Hl. rewrite Forall_forall in Hl. repeat (apply Forall_cons; split; [apply by_pairs_good, Hl; set_solver|]). constructor.
Qed.

(** The rows of the pods on a root, read by the pairs of the seed. *)
Lemma rows_on_root rs seed q s : covers_root rs seed → pod_key s ∈ on_root rs →
  s ∈ pair_rows opts sel estate (by_pairs q PodLabel seed) ↔ s ∈ estate q.
Proof.
  intros Hcov Hk. destruct (on_root_row rs _ Hk) as [Hu _]. apply by_pairs_rows; [done|]. exact (Hcov _ Hk).
Qed.

Lemma kept_on_root rs seed q s : covers_root rs seed →
  s ∈ keepPodRows (pair_rows opts sel estate (by_pairs q PodLabel seed)) (on_root rs) lk ↔
  s ∈ estate q ∧ usable (key_pair (pod_key s)) ∧ pod_key s ∈ on_root rs.
Proof.
  intros Hcov. unfold keepPodRows. rewrite list_elem_of_filter. split.
  - intros [Hk Hs%pair_rows_estate]. split; [done|]. split; [|done]. by apply (on_root_row rs).
  - intros (Hs & _ & Hk). split; [done|]. by apply (rows_on_root rs).
Qed.

Lemma nodeRoot_ok r plan v : node_request r → prepared window opts sel r plan → metadata_answers opts → unread v →
  ∃ st', nodeRoot window opts sel plan (mkK8sState v no_controllers ∅) = Ok st' ∧
    k8s_loaded opts estate plan true (λ k, k ∈ on_root (sortedNames (roots_Names r)))
      (trackedClaimKeys opts (keepPodBindings (estate QPVCBindings) (on_root (sortedNames (roots_Names r))) lk)) (k_v st').
Proof.
  intros [Hk Hne] Hp Hmeta Hv. destruct (prepare_k8s _ _ _ _ _ _ Hp) as (HR & HN & _).
  assert (nodeRoots (roots plan) = sortedNames (roots_Names r)) as Hroots.
  { rewrite HR. cbn. by rewrite bool_decide_eq_true_2. }
  rewrite Hroots in HN. set (rs := sortedNames (roots_Names r)) in *.
  unfold nodeRoot. rewrite (HN Hk Hne). destruct (sortedNames_proper (roots_Names r)) as [_ Hproper].
  destruct (node_seed_rows rs (Z.max 1 (qosScopeBatchBytes opts - RequestMatcherCost QPodInfo keys sel)) Hproper)
    as (onNode & -> & Hon). cbn [rbind].
  set (seed := namePairsOf onNode PodLabel).
  assert (covers_root rs seed) as Hcov.
  { intros k Hin. destruct (on_root_row rs k Hin) as (Hu & s & Hs & <- & Hn). unfold seed, namePairsOf.
    apply list_elem_of_fmap. exists s. split; [done|]. apply list_elem_of_filter. split; [by destruct Hu|]. by apply Hon. }
  case_bool_decide as Hseed.
  - assert (∀ k, k ∉ on_root rs) as Hnone by (intros k Hin; specialize (Hcov k Hin); rewrite Hseed in Hcov; by apply elem_of_nil in Hcov).
    destruct (fromRoots_ok window opts sel estate plan [] [] [] (newPodSet true) v (λ k, k ∈ on_root rs) Hmeta Hv)
      as (st' & -> & Hst).
    + intros s. split; [by intros ?%elem_of_nil|]. by intros (_ & _ & ?%Hnone).
    + intros s. split; [by intros ?%elem_of_nil|]. by intros (_ & _ & ?%Hnone).
    + intros k. unfold ps_has. cbn. rewrite bool_decide_eq_true. split; [by intros ?%not_elem_of_empty|by intros ?%Hnone].
    + exists st'. split; [done|]. rewrite (trackedClaimKeys_members opts _ []); [exact Hst|].
      intros s. unfold keepPodBindings. rewrite list_elem_of_filter, elem_of_nil. split; [by intros [[?%Hnone _] _]|done].
  - rewrite seed_reads_answer. cbn [rbind map lookup list_lookup default from_option id]. rewrite Hroots, (pods_on_root rs seed Hcov).
    destruct (fromRoots_ok window opts sel estate plan
      (keepPodRows (pair_rows opts sel estate (by_pairs QPodInfo PodLabel seed)) (on_root rs) lk)
      (keepPodRows (pair_rows opts sel estate (by_pairs QPodOwner PodLabel seed)) (on_root rs) lk)
      (keepPodBindings (pair_rows opts sel estate (by_pairs QPVCBindings PodLabel seed)) (on_root rs) lk)
      (mkPodSet true (on_root rs) ∅) v (λ k, k ∈ on_root rs) Hmeta Hv) as (st' & -> & Hst).
    + intros s. by apply kept_on_root.
    + intros s. by apply kept_on_root.
    + intros k. unfold ps_has. cbn. by rewrite bool_decide_eq_true.
    + exists st'. split; [done|]. rewrite (trackedClaimKeys_members opts _ (keepPodBindings
        (pair_rows opts sel estate (by_pairs QPVCBindings PodLabel seed)) (on_root rs) lk)); [exact Hst|].
      intros s. unfold keepPodBindings. rewrite !list_elem_of_filter. split; intros ([Hs Hb] & He); (split; [done|]);
        by apply (rows_on_root rs seed).
Qed.
End node_root.

Section theorems.
Context `{Querier} `{Scheduler} (window : Z) (opts : Options) (sel : Selector).
Context (estate : Query → list Sample) `{!Honest estate window (opt_LabelKeys opts) sel}.

(** C13: A read that starts from a prepared plan returns, and for a request of pods
    every family it is responsible for holds exactly: the claim families, the rows
    about the claims the requested pods mount; [kube_pod_info] and [kube_pod_owner],
    those of the requested pods and of every pod that mounts one of those claims; the
    node families, those of the nodes the loaded pods run on; the owner and
    annotation families of ReplicaSets, Jobs, StatefulSets and DaemonSets, those of
    the loaded pods' owners; the annotations of Deployments and CronJobs, those of
    the owners of the loaded pods, ReplicaSets and Jobs and those read ahead, whose
    name is a loaded pod's ReplicaSet's or Job's less its last segment. No other row
    of the estate is in these families, each row of the last three groups is there
    once, and the chunking of the seed does not show. What the metadata family loads
    is not stated. *)
Theorem k8s_pod_read_exact quote r plan v :
  pod_request r → prepared window opts sel r plan → metadata_answers opts → unread v →
  ∃ v', readK8sWorkload window opts sel plan quote v = Ok v' ∧
    k8s_loaded opts estate plan false (λ k, key_pair k ∈ map ref_pair (roots_Pods r))
      (trackedClaimKeys opts (keepRootBindings (estate QPVCBindings) (roots_Pods r))) v'.
Proof.
  intros Hr Hp Hmeta Hv. destruct (podRoot_ok window opts sel estate r plan v Hr Hp Hmeta Hv) as (st & Hst & Hl).
  exists (k_v st). split; [|done]. unfold readK8sWorkload.
  destruct (prepare_k8s _ _ _ _ _ _ Hp) as [-> _]. cbn [k8sPlan fresh_plan roots storageRootsPlan kind].
  rewrite (pq_kind _ Hr). change (bool_decide (StorageRootPod = StorageRootNode)) with false.
  change (bool_decide (StorageRootPod = StorageRootPod)) with true. cbn iota. by rewrite Hst.
Qed.

(** C14: The same, family by family, for a request of nodes, when the rows of
    [kube_pod_info] carry one timestamp, as an instant vector does: the root pods are
    those whose newest incarnation runs on a requested node, told apart by cluster,
    zone and environment as well, and the node families are also read for the
    requested nodes themselves. *)
Theorem k8s_node_read_exact quote r plan v t :
  Forall (λ s, s_Timestamp s = t) (estate QPodInfo) →
  node_request r → prepared window opts sel r plan → metadata_answers opts → unread v →
  ∃ v', readK8sWorkload window opts sel plan quote v = Ok v' ∧
    let root := on_root opts estate (sortedNames (roots_Names r)) in
    k8s_loaded opts estate plan true (λ k, k ∈ root)
      (trackedClaimKeys opts (keepPodBindings (estate QPVCBindings) root (OrDefault (opt_LabelKeys opts)))) v'.
Proof.
  intros Ht Hr Hp Hmeta Hv. destruct (nodeRoot_ok window opts sel estate t Ht r plan v Hr Hp Hmeta Hv) as (st & Hst & Hl).
  exists (k_v st). split; [|done]. unfold readK8sWorkload.
  destruct (prepare_k8s _ _ _ _ _ _ Hp) as [-> _]. cbn [k8sPlan fresh_plan roots storageRootsPlan kind].
  rewrite (nq_kind _ Hr), bool_decide_eq_true_2 by done. by rewrite Hst.
Qed.
End theorems.

(** ** An estate *)

Module Estate.
Definition row (l : list (string * string)) : Sample := mkSample (list_to_map l) (Float64.f_of_Z 1) 5%Z.
Definition binding ns pod c := row [("namespace", ns); ("pod", pod); ("persistentvolumeclaim", c); ("az", "z1"); ("cluster", "c1")].
Definition pod_info ns p node := row [("namespace", ns); ("pod", p); ("node", node); ("uid", p); ("az", "z1"); ("cluster", "c1")].

(** Pods a and b of shop mount the claim data; a of another namespace mounts its
    own; c mounts nothing. *)
Definition estate (q : Query) : list Sample :=
  if String.eqb q QPodInfo then
    [pod_info "shop" "a" "n1"; pod_info "shop" "b" "n2"; pod_info "x" "a" "n1"; pod_info "shop" "c" "n3"]
  else if String.eqb q QPVCBindings then [binding "shop" "a" "data"; binding "shop" "b" "data"; binding "x" "a" "data"]
  else if String.eqb q QNodeInfo then [row [("node", "n1")]; row [("node", "n2")]; row [("node", "n3")]]
  else [].

Definition window : Z := 300000000000.
Definition opts : Options := mkOptions DefaultLabelKeys None None 0.
Definition sel : Selector := mkSelector ["z1"] [] [] [].
Definition querier : Querier := estate_querier estate window (opt_LabelKeys opts) sel None.
Definition scheduler : Scheduler.
Proof. refine {| first_failed := λ e _, e |}. intros e es. by left. Defined.
Definition is_honest : @Honest estate window (opt_LabelKeys opts) sel querier := estate_querier_honest _ _ _ _ _.

Definition pod_roots : StorageRoots := mkStorageRoots StorageRootPod [] [] [mkPodRef "shop" "a"] [].
Definition node_roots : StorageRoots := mkStorageRoots StorageRootNode ["n1"] [] [] [].
Definition plan_of (r : StorageRoots) : topologyPlan :=
  match prepare window (qosScopeBatchBytes opts) (opt_LabelKeys opts) sel (k8sPlan r) with Ok p => p | Err _ => fullPlan end.
(** The read of a request. *)
Definition read (r : StorageRoots) : result readError landed :=
  @readK8sWorkload querier scheduler window opts sel (plan_of r) (λ s, s) ∅.
(** The pods a read loaded. *)
Definition loaded_pods (v : landed) : list (string * string) :=
  map (λ s, (label_of (s_Metric s) "namespace", label_of (s_Metric s) "pod")) (rows_of v QPodInfo).

Definition read_pods (r : StorageRoots) : list (string * string) :=
  match read r with Ok v => loaded_pods v | Err _ => [] end.

Lemma unread_empty : unread ∅.
Proof. intros q _. unfold rows_of. exact (f_equal (default []) (lookup_empty q)). Qed.
End Estate.
#[local] Existing Instances Estate.querier Estate.scheduler Estate.is_honest.

Lemma k8s_pod_read_exact_witness :
  ∃ v', Estate.read Estate.pod_roots = Ok v' ∧
    Estate.loaded_pods v' = [("shop", "a"); ("shop", "b")].
Proof.
  destruct (k8s_pod_read_exact Estate.window Estate.opts Estate.sel Estate.estate (λ s, s) Estate.pod_roots
              (Estate.plan_of Estate.pod_roots) ∅) as (v' & Hv & _).
  - split; [done|done|]. apply Forall_singleton. by split.
  - vm_compute. reflexivity.
  - by left.
  - apply Estate.unread_empty.
  - exists v'. split; [exact Hv|]. assert (Estate.read_pods Estate.pod_roots = [("shop", "a"); ("shop", "b")]) as Hl by (vm_compute; reflexivity).
    unfold Estate.read_pods, Estate.read in Hl. rewrite Hv in Hl. exact Hl.
Defined.

Lemma k8s_node_read_exact_witness :
  ∃ v', Estate.read Estate.node_roots = Ok v' ∧
    Estate.loaded_pods v' = [("shop", "a"); ("x", "a"); ("shop", "b")].
Proof.
  destruct (k8s_node_read_exact Estate.window Estate.opts Estate.sel Estate.estate (λ s, s) Estate.node_roots
              (Estate.plan_of Estate.node_roots) ∅ 5) as (v' & Hv & _).
  - apply (bool_decide_unpack _). vm_compute. exact I.
  - split; [done|]. by vm_compute.
  - vm_compute. reflexivity.
  - by left.
  - apply Estate.unread_empty.
  - exists v'. split; [exact Hv|]. assert (Estate.read_pods Estate.node_roots = [("shop", "a"); ("x", "a"); ("shop", "b")]) as Hl by (vm_compute; reflexivity).
    unfold Estate.read_pods, Estate.read in Hl. rewrite Hv in Hl. exact Hl.
Defined.

(** A requested pair of one chunk can be a cross pair of another: its row is read
    by both and kept twice. *)
Lemma requested_row_twice :
  let pairs := [mkNamePair "n1" "b"; mkNamePair "n2" "a"; mkNamePair "n2" "a-very-long-claim-name"; mkNamePair "n2" "b"] in
  let row := Estate.row [("namespace", "n2"); (ClaimLabel, "b")] in
  keepRequestedPairs (mjoin (map (λ c, filter (chunk_match ClaimLabel c) [row]) (chunksOfPairs pairs ClaimLabel 60)))
    ClaimLabel pairs = [row; row].
Proof. vm_compute. reflexivity. Qed.
