(* ===== verification/Build.v ===== *)
(** pkg/build/build.go, build_k8s.go: the builder. What the upstream
    readers return is an argument; the builder classifies their errors, decides
    what is outside retention and what need not be read, assembles the nodes and
    the edges, and freezes the graph. Logs, spans and gauges are left out.

    What a build assembles: every edge is of a declared type, between assembled nodes
    of kinds the type declares; the skipped read is provably empty; an error
    is classified by what it wraps. *)

From S2P Require Import Prelude GoStrings Keyed GraphNode GraphEdge Graph Queries PairScope.
From S2P Require Import Fanout StorageScope RedMetrics BuildIdentity TopologyTypes NetApp.
From S2P Require Import Topology Alerts StorageFlow NameScopes ServiceGraph ServiceGraphParse.
From S2P Require Import Selector NetAppProps NetAddr PeerAddress ServiceGraphEffects.
From S2P Require Import ServiceGraphEffects ServiceGraphProps RoutePrescan ServiceGraphTheorems.
From S2P Require Import ServiceGraphAdmission.

#[local] Open Scope bool_scope.

(** ** Assembly *)

Section build.
Context `{EdgeUUID}.

(** pkg/build/build.go, [assemble]: the order decides which of two nodes with one
    id is kept. *)
Definition assemble (t : Topology) (sg : ServiceGraphResult) : list GraphNode * list Edge :=
  (map NPod (Pods t) ++ map NK8sNode (Nodes t) ++ map NPVC (PVCs t) ++
   map NNetAppAggr (NetAppAggrs t) ++ map NNetAppNode (NetAppNodes t) ++
   map NPod (sg_SynthPods sg) ++ map NService (sg_ServiceNodes sg) ++ map NExternal (sg_ExternalNodes sg),
   TopologyEdges t ++ StorageEdges t ++ sg_Edges sg).

(** pkg/build/build.go, [Builder.freeze] *)
Definition freeze (now : Z) (t : Topology) (nodes : list GraphNode) (edges : list Edge) : Graph :=
  let g := NewGraph (attachStatus (attachAlerts nodes t)) edges now in
  mkGraph (BuiltAt g) (NodesByID g) (Edges g) (default ∅ (TopoIdentities t))
    (default ∅ (TopoNamespaceMeta t)) (default ∅ (TopoApplicationMeta t)).

(** The zero [ServiceGraphResult]. *)
Definition no_service_graph : ServiceGraphResult := mkServiceGraphResult [] [] [] [].

(** pkg/build/build.go@158-158, [Builder.Build]: the read no filtered build over an empty topology needs. *)
Definition skips_service_graph (filtered : bool) (t : Topology) : bool :=
  filtered && bool_decide (Pods t = []) && bool_decide (ServicesByNameNS t = ∅).

(** pkg/build/build.go@101-140, [Builder.Build]: zero rows from a healthy upstream. A failed probe leaves
    the build alone. *)
Definition outside_retention (filtered : bool) (t : Topology) (probe : result string bool) : bool :=
  negb filtered && bool_decide (Pods t = []) && bool_decide (Nodes t = []) &&
  match probe with Ok up => up | Err _ => false end.

(** pkg/build/build.go, [Builder.upProbe]: over the answer of the [up] query. *)
Definition upProbe (answer : result string (list (option Sample))) : result string bool :=
  match answer with Err e => Err e | Ok vec => Ok (0 <? length vec)%nat end.

(** pkg/build/build.go, [Builder.Build]: [message] is the retention text. *)
Definition Build (filtered : bool) (now : Z) (message : string) (topology : result readError Topology)
  (probe : result string bool) (read_sg : Topology → result readError ServiceGraphResult) : result Error Graph :=
  match topology with
  | Err e => Err (classifyReadError "topology read failed" e)
  | Ok t =>
      if outside_retention filtered t probe then Err (NewError ReasonOutsideRetention message None) else
      match (if skips_service_graph filtered t then Ok no_service_graph else read_sg t) with
      | Err e => Err (classifyReadError "service-graph read failed" e)
      | Ok sg => let '(nodes, edges) := assemble t sg in Ok (freeze now t nodes edges)
      end
  end.

(** pkg/build/build.go, [topologyPlan.run]: the assembler of the storage read path. *)
Definition run_assemble (kubernetesOnly : bool) (t : Topology) : list GraphNode * list Edge :=
  if kubernetesOnly then assemble t no_service_graph else assembleStorageFlow t.

(** pkg/build/build.go@335-366, [Builder.buildStorage]: past the plan and the read. *)
Definition buildStorage (kubernetesOnly : bool) (now : Z) (topology : result readError Topology) : result Error Graph :=
  match topology with
  | Err e => Err (classifyReadError "topology read failed" e)
  | Ok t => let '(nodes, edges) := run_assemble kubernetesOnly t in Ok (freeze now t nodes edges)
  end.
End build.

(** ** The Kubernetes-only build *)

(** pkg/build/build_k8s.go@60-65, [refuseHarvest]: the wrapped querier's answer. *)
Definition refuse_harvest {A} (inner : string → result string A) (name : string) : result string A :=
  if bool_decide (FamilyOf name = Some FamilyHarvest)
  then Err ("harvest query " +:+ name +:+ " issued by a Kubernetes-only build")
  else inner name.

(** pkg/build/build_k8s.go, [k8sRoots] *)
Definition k8sRoots (roots : StorageRoots) : bool :=
  if bool_decide (roots_Kind roots = StorageRootPod) then
    forallb (λ ref, negb (bool_decide (pr_Namespace ref = "")) && negb (bool_decide (pr_Name ref = ""))) (roots_Pods roots) &&
    negb (bool_decide (roots_Pods roots = []))
  else if bool_decide (roots_Kind roots = StorageRootNode) then negb (bool_decide (sortedNames (roots_Names roots) = []))
  else false.


(** ** The service graph's edges by type *)

(** A node of the built graph that is no Service. *)
Definition pod_or_external (t : Topology) (out : ServiceGraphResult) (id : string) : Prop :=
  id ∈ map pod_ID (Pods t) ∨ id ∈ map pod_ID (sg_SynthPods out) ∨ id ∈ map ext_ID (sg_ExternalNodes out).

Lemma read_edge_kind `{EdgeUUID, URLHost, MetricFingerprint} {E} (total failed duration : result E (list Sample))
    ctxDone end_ t resolver answered fl out e :
  pods_in t → ReadServiceGraph total failed duration ctxDone end_ t resolver answered fl = Ok out →
  e ∈ sg_Edges out →
  edge_Type e = EdgeTypePodCallsPod ∧ pod_or_external t out (Target e) ∨
  edge_Type e = EdgeTypePodCallsService ∧ out_service out (Target e) ∨
  edge_Type e = EdgeTypeServiceSelectsPod ∧ out_service out (Source e) ∧ Target e ∈ map pod_ID (Pods t).
Proof.
  intros Ht (vec & red & rts & ->)%ReadServiceGraph_parse He.
  pose proof (newSGResolver_ok t rts fl Ht) as Hok.
  destruct (parseWithResolver_out _ Hok vec red) as (ps & es & Hinv & Heq & Hes). rewrite Heq in *.
  cbn [out_of sg_Edges] in He. destruct Hes as [->|(rj & fo & du & ->)]; [by apply not_elem_of_nil in He|].
  destruct (emit_closed _ ps rj fo du e Hinv He) as (_ & Htg & Hcall & Hsel & _).
  pose proof (out_service_in (newSGResolver t rts fl) ps (emit_edges ps rj fo du)) as Hsvc.
  destruct (emit_kind _ ps rj fo du e Hinv He) as [[Hk Hn]|[Hk|Hk]].
  - left. split; [done|]. pose proof (pi_ids _ ps Hinv) as [Hex Hsy _].
    destruct Htg as [Hl|[Hx|[Hx|Hx]]]; [left; by apply newSGResolver_pods in Hl|right; right|right; left|done].
    + destruct (elem_of_values _ ext_ID _ Hex Hx) as (x & Hin & <-). by apply list_elem_of_fmap_2.
    + destruct (elem_of_values _ pod_ID _ Hsy Hx) as (x & Hin & <-). by apply list_elem_of_fmap_2.
  - right. left. split; [done|]. by apply Hsvc, Hcall.
  - right. right. destruct (Hsel Hk) as [Hs Hl]. split; [done|]. split; [by apply Hsvc|].
    by apply newSGResolver_pods in Hl.
Qed.

(** ** Typed edges *)

(** A placement edge names the Kubernetes node its pod's label names. *)
Definition placement (nodes : list GraphNode) (e : Edge) : Prop :=
  ∃ n, n ∈ nodes ∧ ID n = Source e ∧ Type_ n = NodeTypePod ∧ lget (Labels n) "node" = Target e ∧ Target e ≠ "".

(** An edge of a declared type, between assembled nodes of kinds the type declares; a
    placement edge names the Kubernetes node whether or not it was loaded. *)
Definition typed_by (nodes : list GraphNode) (e : Edge) : Prop :=
  ∃ d, d ∈ EdgeTypes ∧ etd_Type d = edge_Type e ∧
    (∃ n, n ∈ nodes ∧ ID n = Source e ∧ Type_ n ∈ etd_SourceType d) ∧
    (edge_Type e ≠ EdgeTypePodToNode → ∃ n, n ∈ nodes ∧ ID n = Target e ∧ Type_ n ∈ etd_TargetType d) ∧
    (edge_Type e = EdgeTypePodToNode → placement nodes e).

Definition has_kind (nodes : list GraphNode) (ks : list NodeType) (id : string) : Prop :=
  ∃ n, n ∈ nodes ∧ ID n = id ∧ Type_ n ∈ ks.

Lemma has_kind_mono nodes ks ks' id : ks ⊆ ks' → has_kind nodes ks id → has_kind nodes ks' id.
Proof. intros Hs (n & ? & ? & Hn). exists n. split_and!; [done|done|by apply Hs]. Qed.

Lemma typed_decl nodes e d :
  d ∈ EdgeTypes → etd_Type d = edge_Type e → has_kind nodes (etd_SourceType d) (Source e) →
  (edge_Type e ≠ EdgeTypePodToNode → has_kind nodes (etd_TargetType d) (Target e)) →
  (edge_Type e = EdgeTypePodToNode → placement nodes e) → typed_by nodes e.
Proof. intros Hd Ht Hs Htg Hp. by exists d. Qed.

Section typed.
Context `{EdgeUUID, URLHost, MetricFingerprint}.

(** The kinds of the nodes [assemble] appends. *)
Lemma assemble_kinds t sg : let nodes := (assemble t sg).1 in
  (∀ id, id ∈ map pod_ID (Pods t) ∨ id ∈ map pod_ID (sg_SynthPods sg) → has_kind nodes [NodeTypePod] id) ∧
  (∀ p, p ∈ PVCs t → has_kind nodes [NodeTypePVC] (pvc_ID p)) ∧
  (∀ a, a ∈ NetAppAggrs t → has_kind nodes [NodeTypeNetAppAggr] (aggr_ID a)) ∧
  (∀ id, id ∈ map svc_ID (sg_ServiceNodes sg) → has_kind nodes [NodeTypeService] id) ∧
  (∀ id, id ∈ map ext_ID (sg_ExternalNodes sg) → has_kind nodes [NodeTypeExternal] id).
Proof.
  cbv zeta. unfold has_kind, assemble. cbn [fst].
  assert (∀ n (l1 l2 : list GraphNode), n ∈ l2 → n ∈ l1 ++ l2) as Hr by set_solver.
  assert (∀ n (l1 l2 : list GraphNode), n ∈ l1 → n ∈ l1 ++ l2) as Hl by set_solver.
  split_and!.
  - intros id [(p & -> & Hp)%list_elem_of_fmap|(p & -> & Hp)%list_elem_of_fmap]; exists (NPod p);
      (split_and!; [|done|by left]).
    + by apply Hl, (list_elem_of_fmap_2 NPod).
    + do 5 apply Hr. by apply Hl, (list_elem_of_fmap_2 NPod).
  - intros p Hp. exists (NPVC p). split_and!; [|done|by left]. do 2 apply Hr. by apply Hl, (list_elem_of_fmap_2 NPVC).
  - intros a Ha. exists (NNetAppAggr a). split_and!; [|done|by left]. do 3 apply Hr.
    by apply Hl, (list_elem_of_fmap_2 NNetAppAggr).
  - intros id (s & -> & Hs)%list_elem_of_fmap. exists (NService s). split_and!; [|done|by left]. do 6 apply Hr.
    by apply Hl, (list_elem_of_fmap_2 NService).
  - intros id (x & -> & Hx)%list_elem_of_fmap. exists (NExternal x). split_and!; [|done|by left]. do 7 apply Hr.
    by apply (list_elem_of_fmap_2 NExternal).
Qed.

Lemma topology_edges_typed v keys win sg e : let t := parseTopology v keys win in
  e ∈ TopologyEdges t ++ StorageEdges t → typed_by (assemble t sg).1 e.
Proof.
  intros t. destruct (assemble_kinds t sg) as (Hpod & Hpvc & Haggr & _ & _). intros [He|He]%elem_of_app.
  - destruct (topology_edge_ends t (parse_bindings v keys win) e He) as (p & Hp & Hsrc & [(Ht & c & Hc & Htg)|(Ht & Hl & Hne)]).
    + eapply (typed_decl _ _ (mkEdgeTypeDefinition EdgeTypePodMountsPVC [NodeTypePod] [NodeTypePVC] true false _));
        [by left|done| | |by rewrite Ht].
      * apply Hpod. left. rewrite <- Hsrc. by apply list_elem_of_fmap_2.
      * intros _. rewrite <- Htg. by apply Hpvc.
    + eapply (typed_decl _ _ (mkEdgeTypeDefinition EdgeTypePodToNode [NodeTypePod] [NodeTypeK8sNode] true false []));
        [do 4 right; by left|done| |done|].
      * apply Hpod. left. rewrite <- Hsrc. by apply list_elem_of_fmap_2.
      * intros _. exists (NPod p). split_and!; [|done|done|done|done]. unfold assemble. cbn [fst].
        apply elem_of_app. left. by apply (list_elem_of_fmap_2 NPod).
  - destruct (parse_storage_edges v keys win e He) as (Ht & (c & Hc & Hs) & a & Ha & Htg).
    eapply (typed_decl _ _ (mkEdgeTypeDefinition EdgeTypePVCToNetAppAggr [NodeTypePVC] [NodeTypeNetAppAggr] true false []));
      [do 5 right; by left|done| | |by rewrite Ht].
    + rewrite Hs. by apply Hpvc.
    + intros _. rewrite Htg. by apply Haggr.
Qed.

Lemma service_edges_typed {E} t (total failed duration : result E (list Sample)) ctxDone end_ resolver answered fl sg e :
  pods_in t → ReadServiceGraph total failed duration ctxDone end_ t resolver answered fl = Ok sg →
  e ∈ sg_Edges sg → typed_by (assemble t sg).1 e.
Proof.
  intros Ht Hr He. destruct (assemble_kinds t sg) as (Hpod & _ & _ & Hsvc & Hext).
  destruct (read_edges _ _ _ _ _ _ _ _ _ _ e Ht Hr He) as (Hsrc & _).
  assert (has_kind (assemble t sg).1 [NodeTypePod; NodeTypeService; NodeTypeExternal] (Source e)) as Hs.
  { destruct Hsrc as [Hx|[Hx|[Hx|Hx]]]; (eapply has_kind_mono; [|auto]); set_solver. }
  destruct (read_edge_kind _ _ _ _ _ _ _ _ _ _ e Ht Hr He) as [[Hk Htg]|[[Hk (s & Hs' & Htg)]|(Hk & (s & Hs' & Hss) & Htg)]].
  - eapply (typed_decl _ _ (mkEdgeTypeDefinition EdgeTypePodCallsPod [NodeTypePod; NodeTypeService; NodeTypeExternal]
      [NodeTypePod; NodeTypeExternal] true true _)); [right; by left|done|done| |by rewrite Hk].
    intros _. destruct Htg as [Hx|[Hx|Hx]]; (eapply has_kind_mono; [|auto]); set_solver.
  - eapply (typed_decl _ _ (mkEdgeTypeDefinition EdgeTypePodCallsService [NodeTypePod; NodeTypeService; NodeTypeExternal]
      [NodeTypeService] true true _)); [do 2 right; by left|done|done| |by rewrite Hk].
    intros _. rewrite <- Htg. by apply Hsvc, list_elem_of_fmap_2.
  - eapply (typed_decl _ _ (mkEdgeTypeDefinition EdgeTypeServiceSelectsPod [NodeTypeService] [NodeTypePod] true true _));
      [do 3 right; by left|done| | |by rewrite Hk].
    + rewrite <- Hss. by apply Hsvc, list_elem_of_fmap_2.
    + intros _. apply Hpod. by left.
Qed.

Lemma assembled_typed {E} v keys win (total failed duration : result E (list Sample)) ctxDone end_
    resolver answered fl sg e :
  let t := parseTopology v keys win in
  sg = no_service_graph ∨ ReadServiceGraph total failed duration ctxDone end_ t resolver answered fl = Ok sg →
  e ∈ (assemble t sg).2 → typed_by (assemble t sg).1 e.
Proof.
  intros t Hr. cbn [assemble snd]. rewrite (assoc_L (++)). intros [He|He]%elem_of_app.
  - by apply topology_edges_typed.
  - destruct Hr as [->|Hr]; [by apply elem_of_nil in He|].
    eapply service_edges_typed; [apply parseTopology_pods_in|exact Hr|exact He].
Qed.

(** ** The build *)

(** A build that reads the service graph always. *)
Definition Build_reading (filtered : bool) (now : Z) (message : string) (topology : result readError Topology)
  (probe : result string bool) (read_sg : Topology → result readError ServiceGraphResult) : result Error Graph :=
  match topology with
  | Err e => Err (classifyReadError "topology read failed" e)
  | Ok t =>
      if outside_retention filtered t probe then Err (NewError ReasonOutsideRetention message None) else
      match read_sg t with
      | Err e => Err (classifyReadError "service-graph read failed" e)
      | Ok sg => let '(nodes, edges) := assemble t sg in Ok (freeze now t nodes edges)
      end
  end.

(** Skipping the service-graph queries of a filtered build over an empty topology
    loses nothing: whatever the queries would have answered, the build returns
    what it would have returned having read them. *)
Theorem skipped_read_empty v keys win total failed duration ctxDone end_ resolver answered filtered now message probe sg :
  let t := parseTopology v keys win in
  let read t := ReadServiceGraph total failed duration ctxDone end_ t resolver answered filtered in
  read t = Ok sg →
  Build filtered now message (Ok t) probe read = Build_reading filtered now message (Ok t) probe read.
Proof.
  intros t read Hr. unfold Build, Build_reading. destruct (outside_retention filtered t probe); [done|].
  destruct (skips_service_graph filtered t) eqn:Es; [|done].
  unfold skips_service_graph in Es. apply andb_true_iff in Es as [[Hf Hp]%andb_true_iff Hs].
  apply bool_decide_eq_true in Hp, Hs. subst filtered. rewrite Hr.
  by rewrite (read_empty v keys win _ _ _ _ _ _ _ sg Hp Hs Hr).
Qed.
End typed.

(** ** Samples *)

#[local] Existing Instance name_uuid.
#[local] Existing Instance no_fingerprint.
#[local] Existing Instance sample_host.

(** A filtered build over no rows at all, with series nobody can place. *)
Definition nothing_read : topologyVectors :=
  mkTopologyVectors [] [] [] [] [] [] [] [] [] [] [] [] [] [] [] [] [] [] [] [] [] [] None None
    false None false false [] [] [] [] [] [] [] [] [] [] [] [] [] [] [] [] [] [] [] [] [] [] [] [] [] [] [].

Lemma skipped_read_empty_witness :
  let t := parseTopology nothing_read DefaultLabelKeys (mkAlertWindow 0 0) in
  let read t := ReadServiceGraph (E:=readError) (Ok sg_series) (Ok []) (Ok []) false 0 t None (λ _, true) true in
  skips_service_graph true t = true ∧
  Build true 7 "" (Ok t) (Ok true) read = Build_reading true 7 "" (Ok t) (Ok true) read.
Proof.
  cbv zeta. split; [vm_compute; reflexivity|].
  apply (skipped_read_empty nothing_read DefaultLabelKeys (mkAlertWindow 0 0) (Ok sg_series) (Ok []) (Ok []) false 0
    None (λ _, true) true 7 "" (Ok true) (mkServiceGraphResult [] [] [] [])). vm_compute. reflexivity.
Defined.
