(* ===== verification/PodApplication.v ===== *)
(** pkg/build/podapplication.go: the Application of one pod, on demand. The lookup
    asks the label endpoint one question per step and applies the rules the build
    applies to every pod; the theorem is that, over one estate, it answers what the
    build answers. *)

From S2P Require Import Prelude GoStrings Keyed Selector Queries PairScope Fanout Backend.
From S2P Require Import LabelQuery AppMetadata.
From S2P Require Import BuildIdentity VolumeKey TopologyTypes TopologyOwners MetadataPicks.
From S2P Require Import Topology.

#[local] Open Scope ksg_scope.

(** pkg/build/podapplication.go, [LabelQuerier]: the label endpoint, with the
    optional upgrade [FamilyServer] of the value passed. *)
Class LabelQuerier (E : Type) := {
  lq_QueryLabels : LabelQuery → result E (list (gmap string string));
  lq_FamilyServer : option (Family → bool);
}.

(** The errors of a lookup, one per message; an upstream error names its metric. *)
Inductive LookupError {E : Type} :=
  | LookupRequired (field : string)
  | LookupNoInstant
  | LookupBadWindow
  | LookupBadSource (e : SourceError)
  | ErrAmbiguousPod
  | LookupQuery (metric : string) (e : E).
Arguments LookupError : clear implicits.

(** pkg/build/podapplication.go, [PodApplicationRequest]: [rq_At] is [None] for the
    zero instant. *)
Record PodApplicationRequest := mkPodApplicationRequest {
  rq_AZ : string;
  rq_Env : string;
  rq_Cluster : string;
  rq_Namespace : string;
  rq_Pod : string;
  rq_At : option Z;
  rq_Window : Z;
  rq_LabelKeys : LabelKeys;
  rq_AppMetadata : option AppMetadataSource;
}.

(** pkg/build/podapplication.go, [pin] *)
Record pin := mkPin { pin_val : string; pin_set : bool }.
(** pkg/build/podapplication.go, [pinOf] *)
Definition pinOf (v : string) : pin := mkPin v (negb (bool_decide (v = ""))).

(** pkg/build/podapplication.go, [podAppLookup]: but for the querier. *)
Record podAppLookup := mkPodAppLookup {
  l_req : PodApplicationRequest;
  l_keys : LabelKeys;
  l_az : pin;
  l_env : pin;
}.

(** pkg/build/podapplication.go@72-72, [ResolvePodApplication] *)
Definition with_source (r : PodApplicationRequest) (src : option AppMetadataSource) : PodApplicationRequest :=
  mkPodApplicationRequest (rq_AZ r) (rq_Env r) (rq_Cluster r) (rq_Namespace r) (rq_Pod r) (rq_At r) (rq_Window r)
    (rq_LabelKeys r) src.

(** pkg/build/podapplication.go, [minLabel] *)
Definition minLabel (sets : list (gmap string string)) (label : string) : string * bool :=
  let best := fold_left (λ best s,
    let v := label_of s label in
    if negb (bool_decide (v = "")) && (bool_decide (best = "") || str_lt v best) then v else best) sets "" in
  (best, negb (bool_decide (best = ""))).

(** pkg/build/podapplication.go, [podAppLookup.pinScope]: of a non-empty answer. *)
Definition pinScope {E} (l : podAppLookup) (first : gmap string string) (rest : list (gmap string string))
  : result (LookupError E) podAppLookup :=
  let az s := label_of s (key_AZ (l_keys l)) in
  let env s := label_of s (key_Env (l_keys l)) in
  if existsb (λ s, (negb (pin_set (l_az l)) && negb (bool_decide (az s = az first))) ||
                   (negb (pin_set (l_env l)) && negb (bool_decide (env s = env first)))) rest
  then Err ErrAmbiguousPod
  else Ok (mkPodAppLookup (l_req l) (l_keys l)
             (if pin_set (l_az l) then l_az l else mkPin (az first) true)
             (if pin_set (l_env l) then l_env l else mkPin (env first) true)).

(** pkg/build/podapplication.go, [podAppLookup.applyScope] *)
Definition applyScope (l : podAppLookup) (q : LabelQuery) : LabelQuery :=
  let az := l_az l in
  let env := l_env l in
  let fs := lq_Filters q in
  let zoned := pin_set az && negb (bool_decide (pin_val az = "")) in
  let fs := if pin_set az && bool_decide (pin_val az = "") then <[key_AZ (l_keys l) := ""]> fs else fs in
  let fs := if pin_set env then <[key_Env (l_keys l) := pin_val env]> fs else fs in
  mkLabelQuery (lq_Metric q) (lq_Family q) (if zoned then pin_val az else lq_AZ q) fs (lq_At q) (lq_Window q)
    (lq_Limit q) (lq_LabelKeys q).

(** pkg/build/podapplication.go@191-200, [podAppLookup.query]: its request. *)
Definition ksm_request (l : podAppLookup) (metric : Query) (filters : list (string * string)) : LabelQuery :=
  let r := l_req l in
  let q := applyScope l (mkLabelQuery metric FamilyKSM "" (<["cluster" := rq_Cluster r]> {["namespace" := rq_Namespace r]})
                           (rq_At r) (rq_Window r) 0 (rq_LabelKeys r)) in
  mkLabelQuery (lq_Metric q) (lq_Family q) (lq_AZ q) (list_to_map filters ∪ lq_Filters q) (lq_At q) (lq_Window q)
    (lq_Limit q) (lq_LabelKeys q).

(** pkg/build/podapplication.go@226-239, [podAppLookup.appMetadataRows]: its request. *)
Definition appmeta_request (l : podAppLookup) (src : AppMetadataSource) : LabelQuery :=
  let r := l_req l in
  applyScope l (mkLabelQuery (am_Metric src) FamilyAppMeta ""
    (<[am_Pod src := rq_Pod r]> (<[am_Namespace src := rq_Namespace r]> {["cluster" := rq_Cluster r]}))
    (rq_At r) (rq_Window r) 0 (rq_LabelKeys r)).

(** pkg/build/podapplication.go@299-303, [podAppLookup.controllerApp]: the family of
    a kind and the label naming its objects, as [controllerAnnotationFamilies] pairs
    them. *)
Definition annotation_query (kind : string) : option (Query * string) :=
  (λ x : nat * (string * (Query * string)), x.2.2) <$> list_find (λ f : string * (Query * string), f.1 = kind) [
    ("Deployment", (QDeploymentAnnotations, "deployment"));
    ("StatefulSet", (QStatefulSetAnnotations, "statefulset"));
    ("DaemonSet", (QDaemonSetAnnotations, "daemonset"));
    ("ReplicaSet", (QReplicaSetAnnotations, "replicaset"));
    ("Job", (QJobAnnotations, "job_name"));
    ("CronJob", (QCronJobAnnotations, "cronjob"))].

Section lookup.
Context {E : Type} `{LabelQuerier E}.

(** pkg/build/podapplication.go, [PodApplicationRequest.validate] *)
Definition pa_validate (r : PodApplicationRequest) : result (LookupError E) unit :=
  match list_find (λ f : string * string, f.2 = "")
          [("Cluster", rq_Cluster r); ("Namespace", rq_Namespace r); ("Pod", rq_Pod r)] with
  | Some (_, (name, _)) => Err (LookupRequired name)
  | None =>
      match rq_At r with
      | None => Err LookupNoInstant
      | Some _ =>
          if (rq_Window r <=? 0)%Z then Err LookupBadWindow else
          match rq_AppMetadata r with
          | None => Ok tt
          | Some src => match source_Validate src (rq_LabelKeys r) with
                        | Ok _ => Ok tt
                        | Err e => Err (LookupBadSource e)
                        end
          end
      end
  end.

(** An upstream error named by its metric. *)
Definition named {A} (metric : string) (r : result E A) : result (LookupError E) A :=
  match r with Ok a => Ok a | Err e => Err (LookupQuery metric e) end.

(** pkg/build/podapplication.go, [podAppLookup.query] *)
Definition pa_query (l : podAppLookup) (metric : Query) (filters : list (string * string))
  : result (LookupError E) (list (gmap string string)) :=
  named metric (lq_QueryLabels (ksm_request l metric filters)).

(** pkg/build/podapplication.go, [lookupUsesAppMetadata] *)
Definition lookupUsesAppMetadata (src : option AppMetadataSource) : option AppMetadataSource :=
  match src, lq_FamilyServer with
  | Some src, Some serves => if serves FamilyAppMeta then Some src else None
  | _, _ => None
  end.

(** pkg/build/podapplication.go, [podAppLookup.appMetadataRows] *)
Definition appMetadataRows (l : podAppLookup) (src : AppMetadataSource) : result (LookupError E) (list (gmap string string)) :=
  named "app_metadata" (lq_QueryLabels (appmeta_request l src)).

(** pkg/build/podapplication.go@269-275, [podAppLookup.controllerOwner]: the distinct
    owners of the rows, in order. *)
Definition owner_refs (owners : list (gmap string string)) : list ownerRef :=
  compact (sort_func ref_cmp (omap (λ s,
    let k := label_of s "owner_kind" in
    let n := label_of s "owner_name" in
    if bool_decide (k = "") || bool_decide (n = "") then None else Some (mkOwnerRef k n)) owners)).

(** pkg/build/podapplication.go@276-287, [podAppLookup.controllerOwner]: one owner, a
    ReplicaSet collapsed to its Deployment. *)
Definition collapse_owner (l : podAppLookup) (ref : ownerRef) : result (LookupError E) ownerRef :=
  if negb (bool_decide (or_kind ref = "ReplicaSet")) then Ok ref else
  rsOwners <-! pa_query l QReplicaSetOwner [("replicaset", or_name ref); ("owner_kind", "Deployment")];
  let '(dep, found) := minLabel rsOwners "owner_name" in
  Ok (if found then mkOwnerRef "Deployment" dep else ref).

(** pkg/build/podapplication.go@275-291, [podAppLookup.controllerOwner]: the loop,
    [cur] the least owner so far. *)
Fixpoint owner_loop (l : podAppLookup) (cur : option ownerRef) (refs : list ownerRef)
  : result (LookupError E) (option ownerRef) :=
  match refs with
  | [] => Ok cur
  | ref :: refs =>
      ref <-! collapse_owner l ref;
      owner_loop l (match cur with
                    | Some c => if ownerLess (or_kind ref) (or_name ref) (or_kind c) (or_name c) then Some ref else cur
                    | None => Some ref
                    end) refs
  end.

(** pkg/build/podapplication.go, [podAppLookup.controllerOwner] *)
Definition controllerOwner (l : podAppLookup) (owners : list (gmap string string)) : result (LookupError E) (option ownerRef) :=
  owner_loop l None (owner_refs owners).

(** pkg/build/podapplication.go, [podAppLookup.controllerApp] *)
Definition controllerApp (l : podAppLookup) (kind name : string) : result (LookupError E) (option string) :=
  match annotation_query kind with
  | None => Ok None
  | Some (q, nameLabel) =>
      sets <-! pa_query l q [(nameLabel, name)];
      let best := fold_left (λ best s,
        let raw := label_of s argoTrackingIDLabel in
        if betterTrackingID best raw then raw else best) sets "" in
      Ok (if bool_decide (best = "") then None else Some (argoAppName best))
  end.

(** pkg/build/podapplication.go, [podAppLookup.cronJobOf] *)
Definition cronJobOf (l : podAppLookup) (job : string) : result (LookupError E) (option string) :=
  jobOwners <-! pa_query l QJobOwner [("job_name", job); ("owner_kind", "CronJob"); ("owner_is_controller", "true")];
  let '(cronJob, ok) := minLabel jobOwners "owner_name" in
  Ok (if ok then Some cronJob else None).

(** pkg/build/topology_owners.go, [resolveOwnerApplication]: over the queries of a
    lookup; the first error ends it. *)
Definition resolveOwnerApplication_via (l : podAppLookup) (kind name : string) : result (LookupError E) string :=
  own <-! controllerApp l kind name;
  match own with
  | Some app => Ok app
  | None =>
      if negb (bool_decide (kind = "Job")) then Ok "" else
      cron <-! cronJobOf l name;
      match cron with
      | None => Ok ""
      | Some cronJob => app <-! controllerApp l "CronJob" cronJob; Ok (default "" app)
      end
  end.

(** pkg/build/podapplication.go@124-128, [ResolvePodApplication]: the controller
    chain. *)
Definition owner_chain (l : podAppLookup) (owners : list (gmap string string)) : result (LookupError E) string :=
  ref <-! controllerOwner l owners;
  match ref with
  | None => Ok ""
  | Some ref => resolveOwnerApplication_via l (or_kind ref) (or_name ref)
  end.

(** pkg/build/podapplication.go@78-84, [ResolvePodApplication] *)
Definition new_lookup (r : PodApplicationRequest) : podAppLookup :=
  mkPodAppLookup r (OrDefault (rq_LabelKeys r)) (pinOf (rq_AZ r)) (pinOf (rq_Env r)).

(** pkg/build/podapplication.go, [ResolvePodApplication] *)
Definition ResolvePodApplication (r : PodApplicationRequest) : result (LookupError E) string :=
  let r := with_source r (source_OrDefault <$> rq_AppMetadata r) in
  _ <-! pa_validate r;
  let l := new_lookup r in
  owners <-! pa_query l QPodOwner [("pod", rq_Pod r); ("owner_is_controller", "true")];
  let metric := lookupUsesAppMetadata (rq_AppMetadata r) in
  match owners with
  | [] =>
      match metric with
      | None => Ok ""
      | Some src =>
          rows <-! appMetadataRows l src;
          match rows with
          | [] => Ok ""
          | first :: rest => _ <-! pinScope l first rest; Ok (minLabel rows (am_App src)).1
          end
      end
  | first :: rest =>
      l <-! pinScope l first rest;
      match metric with
      | None => owner_chain l owners
      | Some src =>
          rows <-! appMetadataRows l src;
          let '(app, ok) := minLabel rows (am_App src) in
          if ok then Ok app else owner_chain l owners
      end
  end.
End lookup.

(** ** Picks *)

(** A loop that keeps the least usable value, the empty text standing for none. *)
Lemma fold_best {A} (p : string → bool) (f : A → string) (l : list A) : p "" = false →
  fold_left (λ best s, if p (f s) && (bool_decide (best = "") || str_lt (f s) best) then f s else best) l "" =
  default "" (least String.compare (filter (λ x, p x = true) (map f l))).
Proof.
  intros Hp. induction l as [|s l IH] using rev_ind; [done|].
  rewrite fold_left_app, map_app, filter_app. cbn [fold_left map]. rewrite IH. set (rest := filter _ (map f l)).
  rewrite filter_cons. change (filter (λ x, p x = true) []) with (@nil string).
  destruct (p (f s)) eqn:E; cbn [andb]; [rewrite decide_True by done|rewrite decide_False by done; by rewrite app_nil_r].
  rewrite least_snoc. destruct (least String.compare rest) as [cur|] eqn:El; cbn [default from_option]; [|done].
  apply least_Some in El as [Hc _]; [|apply _]. apply list_elem_of_filter in Hc as [Hc _].
  rewrite (bool_decide_eq_false_2 (cur = "")) by (intros ->; congruence). cbn [orb].
  unfold least_step, keep_least, str_lt. by destruct (bool_decide _).
Qed.

Lemma minLabel_least sets label :
  minLabel sets label =
  match least String.compare (filter (λ x, x ≠ "") (map (λ s, label_of s label) sets)) with
  | Some x => (x, true)
  | None => ("", false)
  end.
Proof.
  assert (fold_left (λ best s,
    if negb (bool_decide (label_of s label = "")) && (bool_decide (best = "") || str_lt (label_of s label) best)
    then label_of s label else best) sets "" =
    default "" (least String.compare (filter (λ x, x ≠ "") (map (λ s, label_of s label) sets)))) as Hf.
  { etransitivity; [exact (fold_best (λ x, negb (bool_decide (x = ""))) (λ s : Metric, label_of s label) sets eq_refl)|].
    f_equal. f_equal. apply list_filter_iff. intros x. by rewrite negb_true_iff, bool_decide_eq_false. }
  unfold minLabel. cbv zeta. rewrite Hf.
  destruct (least _ _) as [x|] eqn:El; [|done]. cbn.
  apply least_Some in El as [Hx _]; [|apply _]. apply list_elem_of_filter in Hx as [Hx _].
  by rewrite bool_decide_eq_false_2.
Qed.

(** A single Deployment per ReplicaSet: the last row read is the least. *)
Lemma rs_to_deployment_least rsVec mc k : rs_single mc rsVec →
  rs_to_deployment rsVec mc !! k =
  least String.compare (map (λ s, label_of (s_Metric s) "owner_name") (filter (λ s, rs_row_key mc s = Some k) rsVec)).
Proof.
  intros Hone. destruct (rs_to_deployment rsVec mc !! k) as [d|] eqn:E; symmetry.
  - apply rs_to_deployment_Some in E as (s & Hs & Hk & <-). apply (least_spec String.compare). split.
    + apply list_elem_of_fmap. exists s. split; [done|]. by apply list_elem_of_filter.
    + intros y Hy. apply list_elem_of_fmap in Hy as (s' & -> & Hs'). apply list_elem_of_filter in Hs' as [Hk' Hs'].
      rewrite (Hone s s' Hs Hs') by (rewrite ?Hk, ?Hk'; done). by rewrite (gc_refl String.compare).
  - apply (least_None String.compare). destruct (filter _ rsVec) as [|s l] eqn:Ef; [done|].
    assert (s ∈ filter (λ s, rs_row_key mc s = Some k) rsVec) as Hs by (rewrite Ef; by left).
    apply list_elem_of_filter in Hs as [Hk Hs]. by destruct (rs_to_deployment_None _ _ _ E s Hs).
Qed.

Lemma resolveApplications_least `{Countable K} (vec : list Sample) label (keyOf : Metric → option K) k :
  resolveApplications vec label keyOf !! k =
  argoAppName <$> least String.compare (map (λ s, label_of (s_Metric s) label)
    (filter (λ s, (if usableTrackingID (label_of (s_Metric s) label) then keyOf (s_Metric s) else None) = Some k) vec)).
Proof. unfold resolveApplications. by rewrite tracking_fold, lookup_fmap, lookup_index_least. Qed.

(** ** What a label request selects *)

(** A label set an answer may hold: it has the requested zone and every requested
    label value, a missing label reading as empty. *)
Definition selected (req : LabelQuery) (m : Metric) : Prop :=
  (lq_AZ req ≠ "" → label_of m (key_AZ (OrDefault (lq_LabelKeys req))) = lq_AZ req) ∧
  map_Forall (λ k x, label_of m k = x) (lq_Filters req).

#[export] Instance selected_dec req m : Decision (selected req m).
Proof. unfold selected. apply _. Defined.

(** What a pin asks of a label. *)
Definition holds (p : pin) (x : string) : Prop := pin_set p = true → x = pin_val p.

(** The labels the lookup reads and filters by; the zone and environment labels are
    others. *)
Definition ksm_labels : list string :=
  ["cluster"; "namespace"; "pod"; "owner_is_controller"; "owner_kind"; "owner_name"; "replicaset"; "job_name";
   "deployment"; "statefulset"; "daemonset"; "cronjob"; "__name__"].
Definition keys_apart (keys : LabelKeys) : Prop :=
  key_AZ keys ∉ ksm_labels ∧ key_Env keys ∉ ksm_labels ∧ key_AZ keys ≠ key_Env keys.

Lemma holds_pinOf v x : holds (pinOf v) x ↔ (v = "" ∨ x = v).
Proof. unfold holds, pinOf. cbn. rewrite negb_true_iff, bool_decide_eq_false. destruct (decide (v = "")); naive_solver. Qed.

Lemma map_Forall_union_list (P : string → string → Prop) (fs : list (string * string)) (base : gmap string string) :
  NoDup fs.*1 → (∀ k, k ∈ fs.*1 → base !! k = None) →
  map_Forall P (list_to_map fs ∪ base) ↔ Forall (λ kv, P kv.1 kv.2) fs ∧ map_Forall P base.
Proof.
  induction fs as [|[k x] fs IH]; intros Hnd Hb.
  - cbn [list_to_map foldr]. rewrite (left_id_L ∅ (∪)). split; [|tauto]. intros; split; [constructor|done].
  - apply NoDup_cons in Hnd as [Hk Hnd]. cbn [list_to_map foldr fst snd]. rewrite <-insert_union_l.
    rewrite map_Forall_insert, IH, Forall_cons; [tauto|done|intros; apply Hb; by right|].
    apply lookup_union_None. split; [by apply not_elem_of_list_to_map_1|apply Hb; by left].
Qed.

(** The filters of a scoped request beside its own. *)
Lemma selected_scope l q m : l_keys l = OrDefault (lq_LabelKeys q) → lq_AZ q = "" →
  lq_Filters q !! key_AZ (l_keys l) = None → lq_Filters q !! key_Env (l_keys l) = None → key_AZ (l_keys l) ≠ key_Env (l_keys l) →
  selected (applyScope l q) m ↔
  map_Forall (λ k x, label_of m k = x) (lq_Filters q) ∧
  holds (l_az l) (label_of m (key_AZ (l_keys l))) ∧ holds (l_env l) (label_of m (key_Env (l_keys l))).
Proof.
  intros Hk Haz H1 H2 Hne. unfold selected, applyScope, holds. cbn [lq_AZ lq_Filters lq_LabelKeys]. rewrite Haz, <-Hk.
  destruct (l_az l) as [a sa], (l_env l) as [e se]. cbn [pin_set pin_val].
  destruct sa; [destruct (bool_decide_reflect (a = "")) as [->|Ha]|]; cbn [negb andb]; destruct se; cbn [negb andb].
  all: rewrite ?map_Forall_insert by (rewrite ?lookup_insert_ne by congruence; done). all: naive_solver.
Qed.

Section requests.
Context (r : PodApplicationRequest) (l : podAppLookup).
Hypothesis Hreq : l_req l = r.
Hypothesis Hkeys : l_keys l = OrDefault (rq_LabelKeys r).
Hypothesis Hapart : keys_apart (l_keys l).

(** What a kube-state-metrics request of the lookup selects. *)
Lemma selected_ksm q fs m : NoDup fs.*1 → Forall (λ k, k ∈ ksm_labels ∧ k ≠ "cluster" ∧ k ≠ "namespace") fs.*1 →
  selected (ksm_request l q fs) m ↔
  Forall (λ kv, label_of m kv.1 = kv.2) fs ∧
  (label_of m "cluster" = rq_Cluster r ∧ label_of m "namespace" = rq_Namespace r) ∧
  holds (l_az l) (label_of m (key_AZ (l_keys l))) ∧ holds (l_env l) (label_of m (key_Env (l_keys l))).
Proof.
  intros Hnd Hfs. destruct Hapart as (Ha & He & Hne). rewrite Forall_forall in Hfs.
  set (base := mkLabelQuery q FamilyKSM "" (<["cluster" := rq_Cluster r]> {["namespace" := rq_Namespace r]})
                 (rq_At r) (rq_Window r) 0 (rq_LabelKeys r)).
  assert (∀ k, k ≠ "cluster" → k ≠ "namespace" → lq_Filters base !! k = None) as Hbase.
  { intros k H1 H2. cbn. by rewrite lookup_insert_ne, lookup_singleton_ne. }
  assert (∀ k, k ∉ ksm_labels → k ≠ "cluster" ∧ k ≠ "namespace") as Hout.
  { intros k Hk. split; intros ->; apply Hk; unfold ksm_labels; set_solver. }
  assert (selected (ksm_request l q fs) m ↔ Forall (λ kv, label_of m kv.1 = kv.2) fs ∧ selected (applyScope l base) m) as ->.
  { unfold selected, ksm_request. rewrite Hreq. fold base. cbn [lq_AZ lq_Filters lq_LabelKeys].
    rewrite map_Forall_union_list; [tauto|done|]. intros k Hk. destruct (Hfs k Hk) as (Hin & H1 & H2).
    unfold applyScope. cbn [lq_Filters]. destruct (pin_set (l_az l) && _), (pin_set (l_env l));
      rewrite ?lookup_insert_ne by (intros <-; done); by apply Hbase. }
  rewrite selected_scope; [|done|done|apply Hbase; by apply Hout..|done].
  cbn [base lq_Filters]. rewrite map_Forall_insert, map_Forall_singleton by (by rewrite lookup_singleton_ne). done.
Qed.

(** What the application-metadata request selects. *)
Lemma selected_appmeta src m : source_Validate src (rq_LabelKeys r) = Ok tt → source_OrDefault src = src →
  selected (appmeta_request l src) m ↔
  (label_of m "cluster" = rq_Cluster r ∧ label_of m (am_Namespace src) = rq_Namespace r ∧ label_of m (am_Pod src) = rq_Pod r) ∧
  holds (l_az l) (label_of m (key_AZ (l_keys l))) ∧ holds (l_env l) (label_of m (key_Env (l_keys l))).
Proof.
  intros Hv Hd. unfold source_Validate in Hv. destruct (negb _); [done|]. rewrite Hd in Hv.
  apply check_fields_ok in Hv as (Hl & Hnd & _). destruct Hapart as (Ha & He & Hne).
  assert (am_Namespace src ≠ am_Pod src) as Hnp.
  { cbn in Hnd. rewrite !NoDup_cons in Hnd. set_solver. }
  destruct (Hl "namespace" (am_Namespace src)) as (_ & Hn1 & Hn2 & Hn3); [unfold source_fields; set_solver|].
  destruct (Hl "pod" (am_Pod src)) as (_ & Hp1 & Hp2 & Hp3); [unfold source_fields; set_solver|].
  assert (∀ k, k ∉ ksm_labels → k ≠ "cluster") as Hout by (intros k Hk ->; apply Hk; unfold ksm_labels; set_solver).
  unfold appmeta_request. rewrite selected_scope; cbn [lq_LabelKeys lq_AZ lq_Filters]; rewrite ?Hreq, ?Hkeys; [|done|done| | |].
  - rewrite !map_Forall_insert, map_Forall_singleton; [tauto|..];
      rewrite ?lookup_insert_ne, ?lookup_singleton_ne by congruence; done.
  - rewrite !lookup_insert_ne, lookup_singleton_ne; try congruence. intros E. apply (Hout _ Ha). congruence.
  - rewrite !lookup_insert_ne, lookup_singleton_ne; try congruence. intros E. apply (Hout _ He). congruence.
  - congruence.
Qed.
End requests.

(** ** The lookup over one estate *)

(** The vector of a family, as the build reads it. *)
Definition ksm_rows (v : topologyVectors) (q : Query) : list Sample :=
  match list_find (λ f : Query * list Sample, f.1 = q) [
    (QPodOwner, v_PodOwner v); (QReplicaSetOwner, v_ReplicaSetOwner v); (QJobOwner, v_JobOwner v);
    (QDeploymentAnnotations, v_DeploymentAnnotations v); (QStatefulSetAnnotations, v_StatefulSetAnnotations v);
    (QDaemonSetAnnotations, v_DaemonSetAnnotations v); (QReplicaSetAnnotations, v_ReplicaSetAnnotations v);
    (QJobAnnotations, v_JobAnnotations v); (QCronJobAnnotations, v_CronJobAnnotations v)] with
  | Some (_, (_, rows)) => rows
  | None => []
  end.

(** The rows a label request of a lookup is about. *)
Definition family_rows (v : topologyVectors) (req : LabelQuery) : list Sample :=
  if bool_decide (lq_Family req = FamilyAppMeta) then default [] (v_AppMetadata v) else ksm_rows v (lq_Metric req).

(** All the rows a lookup can meet. *)
Definition lookup_rows (v : topologyVectors) : list Sample :=
  v_PodOwner v ++ v_ReplicaSetOwner v ++ v_JobOwner v ++ v_DeploymentAnnotations v ++ v_StatefulSetAnnotations v ++
  v_DaemonSetAnnotations v ++ v_ReplicaSetAnnotations v ++ v_JobAnnotations v ++ v_CronJobAnnotations v ++
  default [] (v_AppMetadata v).

(** What the label endpoint documents, over the estate of [v]: the label sets, metric
    name removed, of the rows that match. *)
Class AnswersFrom (E : Type) `{LabelQuerier E} (v : topologyVectors) := {
  answers_from req : ∃ sets, lq_QueryLabels req = Ok sets ∧
    ∀ m, m ∈ sets ↔ ∃ s, s ∈ family_rows v req ∧ selected req (s_Metric s) ∧ m = label_set s;
}.

(** Where the pod of a request is: one zone and environment, and the rows whose
    identity the build gives its cluster are those that carry its three labels. This
    leaves out unstamped rows, which an unfiltered build may adopt into the pod's
    identity and the lookup, which pins both labels, does not see: there the two
    differ, as documented. *)
Record placed (v : topologyVectors) (mc : clusterResolver) (r : PodApplicationRequest) (K a e : string) : Prop := {
  pl_keys : keys_apart (OrDefault (rq_LabelKeys r));
  pl_identity s : s ∈ lookup_rows v →
    identify mc (s_Metric s) = K ↔
    label_of (s_Metric s) (key_AZ (OrDefault (rq_LabelKeys r))) = a ∧
    label_of (s_Metric s) (key_Env (OrDefault (rq_LabelKeys r))) = e ∧ label_of (s_Metric s) "cluster" = rq_Cluster r;
  pl_az : rq_AZ r = "" ∨ rq_AZ r = a;
  pl_env : rq_Env r = "" ∨ rq_Env r = e;
  pl_owners s : s ∈ v_PodOwner v → let m := s_Metric s in
    label_of m "cluster" = rq_Cluster r → label_of m "namespace" = rq_Namespace r → label_of m "pod" = rq_Pod r →
    (rq_AZ r = "" ∨ label_of m (key_AZ (OrDefault (rq_LabelKeys r))) = rq_AZ r) →
    (rq_Env r = "" ∨ label_of m (key_Env (OrDefault (rq_LabelKeys r))) = rq_Env r) →
    label_of m (key_AZ (OrDefault (rq_LabelKeys r))) = a ∧ label_of m (key_Env (OrDefault (rq_LabelKeys r))) = e;
  pl_metadata src s : rq_AppMetadata r = Some src → s ∈ default [] (v_AppMetadata v) → let m := s_Metric s in
    label_of m "cluster" = rq_Cluster r → label_of m (am_Namespace src) = rq_Namespace r → label_of m (am_Pod src) = rq_Pod r →
    (rq_AZ r = "" ∨ label_of m (key_AZ (OrDefault (rq_LabelKeys r))) = rq_AZ r) →
    (rq_Env r = "" ∨ label_of m (key_Env (OrDefault (rq_LabelKeys r))) = rq_Env r) →
    label_of m (key_AZ (OrDefault (rq_LabelKeys r))) = a ∧ label_of m (key_Env (OrDefault (rq_LabelKeys r))) = e;
}.

Lemma label_of_set s l : l ≠ "__name__" → label_of (label_set s) l = label_of (s_Metric s) l.
Proof. intros Hl. unfold label_of, label_set. by rewrite lookup_delete_ne. Qed.

Section estate.
Context {E : Type} `{LabelQuerier E} (v : topologyVectors) `{!AnswersFrom E v}.
Context (mc : clusterResolver) (r : PodApplicationRequest) (K a e : string).
Hypothesis Hplaced : placed v mc r K a e.

#[local] Abbreviation keys := (OrDefault (rq_LabelKeys r)).

(** The lookup once the pod's rows pinned it. *)
Definition pinned : podAppLookup := mkPodAppLookup r keys (mkPin a true) (mkPin e true).

(** A row of the build's cluster and the pod's namespace with the labels of [fs]. *)
Definition pinned_row (fs : list (string * string)) (s : Sample) : Prop :=
  identify mc (s_Metric s) = K ∧ label_of (s_Metric s) "namespace" = rq_Namespace r ∧
  Forall (λ kv, label_of (s_Metric s) kv.1 = kv.2) fs.

#[local] Instance pinned_row_dec fs s : Decision (pinned_row fs s).
Proof. unfold pinned_row. apply _. Defined.

(** A restricted query of the pinned lookup: the rows of the build's cluster. *)
Lemma pinned_query q fs : ksm_rows v q ⊆ lookup_rows v → NoDup fs.*1 →
  Forall (λ k, k ∈ ksm_labels ∧ k ≠ "cluster" ∧ k ≠ "namespace") fs.*1 →
  ∃ sets, pa_query (E:=E) pinned q fs = Ok sets ∧
    ∀ m, m ∈ sets ↔ ∃ s, s ∈ ksm_rows v q ∧ pinned_row fs s ∧ m = label_set s.
Proof.
  intros Hrows Hnd Hfs. destruct (answers_from (ksm_request pinned q fs)) as (sets & Hs & Hm).
  exists sets. unfold pa_query. rewrite Hs. split; [done|]. intros m. rewrite Hm.
  apply exist_proper. intros s. unfold family_rows. rewrite bool_decide_eq_false_2 by done.
  change (lq_Metric (ksm_request pinned q fs)) with q.
  split; intros (Hin & H1 & ->); refine (conj Hin (conj _ eq_refl)).
  - apply (selected_ksm r pinned) in H1 as (Hf & [Hc Hn] & Ha & He); [|done|done|apply Hplaced|done|done].
    refine (conj _ (conj Hn Hf)). apply (pl_identity _ _ _ _ _ _ Hplaced); [by apply Hrows|]. split_and!; [by apply Ha|by apply He|done].
  - destruct H1 as (Hid & Hn & Hf). apply (pl_identity _ _ _ _ _ _ Hplaced) in Hid as (Ha & He & Hc); [|by apply Hrows].
    apply (selected_ksm r pinned); [done|done|apply Hplaced|done|done|]. unfold holds. cbn [pinned l_az l_env l_keys pin_val].
    by split_and!.
Qed.

(** Two rows' picks agree when their values do. *)
Lemma least_sets (sets : list (gmap string string)) (rows : list Sample) label (P : Sample → Prop) `{∀ s, Decision (P s)} :
  label ≠ "__name__" → (∀ m, m ∈ sets ↔ ∃ s, s ∈ rows ∧ P s ∧ m = label_set s) →
  least String.compare (filter (λ x, x ≠ "") (map (λ s, label_of s label) sets)) =
  least String.compare (map (λ s, label_of (s_Metric s) label) (filter (λ s, P s ∧ label_of (s_Metric s) label ≠ "") rows)).
Proof.
  intros Hl Hm. apply (least_ext String.compare). intros x. rewrite list_elem_of_filter, !list_elem_of_fmap. split.
  - intros (Hx & m & -> & Hin). apply Hm in Hin as (s & Hs & HP & ->). exists s. rewrite label_of_set in * by done.
    split; [done|]. by apply list_elem_of_filter.
  - intros (s & -> & Hs). apply list_elem_of_filter in Hs as [[HP Hx] Hs]. split; [done|]. exists (label_set s).
    rewrite label_of_set by done. split; [done|]. apply Hm. by exists s.
Qed.

(** *** The controller *)

Hypothesis Hsingle : rs_single mc (v_ReplicaSetOwner v).

(** What the build collapses an owner to. *)
Definition collapsed (ref : ownerRef) : ownerRef :=
  if bool_decide (or_kind ref = "ReplicaSet") then
    match rs_to_deployment (v_ReplicaSetOwner v) mc !! mkPodNameKey K (rq_Namespace r) (or_name ref) with
    | Some dep => mkOwnerRef "Deployment" dep
    | None => ref
    end
  else ref.

Lemma collapse_owner_ok ref : or_name ref ≠ "" → collapse_owner (E:=E) pinned ref = Ok (collapsed ref).
Proof.
  intros Hne. unfold collapse_owner, collapsed. case_bool_decide as Hk; cbn [negb]; [|done].
  destruct (pinned_query QReplicaSetOwner [("replicaset", or_name ref); ("owner_kind", "Deployment")]) as (sets & -> & Hm).
  { intros s Hs. change (s ∈ v_ReplicaSetOwner v) in Hs. unfold lookup_rows. rewrite !elem_of_app. tauto. }
  { apply (bool_decide_unpack _). by vm_compute. }
  { apply (bool_decide_unpack _). by vm_compute. }
  cbn [rbind]. rewrite minLabel_least, rs_to_deployment_least by done.
  assert ("owner_name" ≠ "__name__") as Hl by done. rewrite (least_sets sets (v_ReplicaSetOwner v) "owner_name" _ Hl Hm).
  rewrite (list_filter_iff _ (λ s, rs_row_key mc s = Some (mkPodNameKey K (rq_Namespace r) (or_name ref)))); [by destruct (least _ _)|].
  intros s. unfold pinned_row. rewrite !Forall_cons, Forall_nil. cbn [fst snd]. unfold rs_row_key. cbv zeta. destruct ref as [kd nm]; cbn [or_name] in *.
  case_bool_decide as H1; cbn [negb]; [|split; [by intros ((_ & _ & _ & Hd & _) & _)|done]].
  case_bool_decide as H2; cbn [orb]; [split; [intros ((_ & _ & Hd & _) & _); congruence|done]|].
  case_bool_decide as H3; [split; [by intros [_ Hd]|done]|].
  split; [by intros ((-> & -> & -> & _) & _)|]. intros Heq. injection Heq as -> -> ->. by split_and!.
Qed.

Lemma owner_loop_ok refs cur : Forall (λ ref, or_name ref ≠ "") refs →
  owner_loop (E:=E) pinned cur refs = Ok (fold_left (least_step ref_cmp) (map collapsed refs) cur).
Proof.
  intros Hr. revert cur. induction Hr as [|ref refs Hne _ IH]; intros cur; [done|].
  cbn [owner_loop map fold_left]. rewrite collapse_owner_ok by done. cbn [rbind]. rewrite IH. do 2 f_equal.
  destruct cur as [c|]; [|done]. rewrite ownerLess_cmp. unfold least_step, keep_least. by destruct (bool_decide _).
Qed.

(** The row of an owner. *)
Definition owner_row (s : Sample) : Prop :=
  identify mc (s_Metric s) = K ∧ label_of (s_Metric s) "namespace" = rq_Namespace r ∧
  label_of (s_Metric s) "pod" = rq_Pod r ∧ label_of (s_Metric s) "owner_is_controller" = "true".

Lemma controllerOwner_ok owners : rq_Pod r ≠ "" →
  (∀ m, m ∈ owners ↔ ∃ s, s ∈ v_PodOwner v ∧ owner_row s ∧ m = label_set s) →
  controllerOwner (E:=E) pinned owners =
  Ok (resolvePodOwners (v_PodOwner v) (v_ReplicaSetOwner v) mc !! mkPodNameKey K (rq_Namespace r) (rq_Pod r)).
Proof.
  intros Hpod Hm. unfold controllerOwner. set (key := mkPodNameKey K (rq_Namespace r) (rq_Pod r)).
  assert (∀ x, x ∈ owner_refs owners ↔ ∃ s, s ∈ v_PodOwner v ∧ owner_row_key mc s = Some key ∧
            x = mkOwnerRef (label_of (s_Metric s) "owner_kind") (label_of (s_Metric s) "owner_name")) as Hrefs.
  { intros x. unfold owner_refs. rewrite (elem_of_sort_compact ref_cmp), list_elem_of_omap. split.
    - intros (m & Hin & Hx). apply Hm in Hin as (s & Hs & (H1 & H2 & H3 & H4) & ->). rewrite !label_of_set in Hx by done.
      exists s. split; [done|]. unfold owner_row_key, key. rewrite H1, H2, H3, H4, (bool_decide_eq_false_2 (rq_Pod r = "")) by done.
      by destruct (bool_decide _), (bool_decide _); cbn in *; simplify_eq.
    - intros (s & Hs & Hk & ->). exists (label_set s). unfold owner_row_key in Hk. rewrite !label_of_set by done.
      case_bool_decide as H4; cbn [negb] in Hk; [|done].
      destruct (bool_decide (label_of (s_Metric s) "pod" = "")), (bool_decide (label_of (s_Metric s) "owner_kind" = "")),
        (bool_decide (label_of (s_Metric s) "owner_name" = "")); cbn in Hk; try done.
      injection Hk as H1 H2 H3. split; [|done]. apply Hm. by exists s. }
  rewrite owner_loop_ok.
  2:{ apply Forall_forall. intros x Hx. apply Hrefs in Hx as (s & _ & Hk & ->). cbn [or_name]. unfold owner_row_key in Hk.
      destruct (negb _); [done|]. destruct (bool_decide_reflect (label_of (s_Metric s) "owner_name" = "")); [|done].
      by rewrite !orb_true_r in Hk. }
  f_equal. rewrite resolvePodOwners_least, lookup_index_least. apply (least_ext ref_cmp). intros x.
  rewrite !list_elem_of_fmap. split.
  - intros (ref & -> & Hin). apply Hrefs in Hin as (s & Hs & Hk & ->). exists s. split; [|by apply list_elem_of_filter].
    unfold collapsed, owner_row_ref. cbn [or_kind or_name]. case_bool_decide; [|done].
    unfold owner_row_key in Hk. destruct (negb _); [done|]. destruct (_ || _); [done|]. by injection Hk as -> -> _.
  - intros (s & -> & Hin). apply list_elem_of_filter in Hin as [Hk Hs].
    exists (mkOwnerRef (label_of (s_Metric s) "owner_kind") (label_of (s_Metric s) "owner_name")).
    split; [|apply Hrefs; by exists s].
    unfold collapsed, owner_row_ref. cbn [or_kind or_name]. case_bool_decide; [|done].
    unfold owner_row_key in Hk. destruct (negb _); [done|]. destruct (_ || _); [done|]. by injection Hk as -> -> _.
Qed.
(** *** The application of a controller *)

(** The best tracking id of an annotation answer. *)
Lemma controllerApp_sets sets (rows : list Sample) (P : Sample → Prop) `{∀ s, Decision (P s)} :
  (∀ m, m ∈ sets ↔ ∃ s, s ∈ rows ∧ P s ∧ m = label_set s) →
  fold_left (λ best s, if betterTrackingID best (label_of s argoTrackingIDLabel) then label_of s argoTrackingIDLabel else best) sets "" =
  default "" (least String.compare (map (λ s, label_of (s_Metric s) argoTrackingIDLabel)
    (filter (λ s, P s ∧ usableTrackingID (label_of (s_Metric s) argoTrackingIDLabel) = true) rows))).
Proof.
  intros Hm. etransitivity.
  { exact (fold_best usableTrackingID (λ s : Metric, label_of s argoTrackingIDLabel) sets eq_refl). }
  assert (argoTrackingIDLabel ≠ "__name__") as Hl by done.
  f_equal. apply (least_ext String.compare). intros x. rewrite list_elem_of_filter, !list_elem_of_fmap. split.
  - intros (Hx & m & -> & Hin). apply Hm in Hin as (s & Hs & HP & ->). rewrite label_of_set in * by done.
    exists s. split; [done|]. by apply list_elem_of_filter.
  - intros (s & -> & Hs). apply list_elem_of_filter in Hs as [[HP Hx] Hs]. split; [done|]. exists (label_set s).
    rewrite label_of_set by done. split; [done|]. apply Hm. by exists s.
Qed.

Lemma controllerApp_from kind q nameLabel (f : topologyVectors → list Sample) name : name ≠ "" →
  annotation_query kind = Some (q, nameLabel) → ksm_rows v q = f v → f v ⊆ lookup_rows v →
  nameLabel ∈ ksm_labels ∧ nameLabel ≠ "cluster" ∧ nameLabel ≠ "namespace" →
  controllerApp (E:=E) pinned kind name =
  Ok (resolveApplications (f v) argoTrackingIDLabel
        (λ m, (λ '(c, n, s), mkControllerKey c n kind s) <$> named_key mc nameLabel m)
      !! mkControllerKey K (rq_Namespace r) kind name).
Proof.
  intros Hname Hq Hrows Hsub Hlabel. unfold controllerApp. rewrite Hq.
  destruct (pinned_query q [(nameLabel, name)]) as (sets & -> & Hm).
  { by rewrite Hrows. }
  { apply NoDup_singleton. }
  { by apply Forall_singleton. }
  cbn [rbind]. cbv zeta. rewrite Hrows in Hm. rewrite (controllerApp_sets sets (f v) _ Hm), resolveApplications_least. f_equal.
  rewrite (list_filter_iff _ (λ s, (if usableTrackingID (label_of (s_Metric s) argoTrackingIDLabel)
    then (λ '(c, n, s), mkControllerKey c n kind s) <$> named_key mc nameLabel (s_Metric s) else None) =
    Some (mkControllerKey K (rq_Namespace r) kind name))).
  - destruct (least _ _) as [best|] eqn:El; [|done]. cbn [default from_option fmap option_fmap option_map].
    apply least_Some in El as [Hb _]; [|apply _]. apply list_elem_of_fmap in Hb as (s & -> & Hs).
    apply list_elem_of_filter in Hs as [Hs _]. destruct (usableTrackingID _) eqn:Eu; [|done].
    change (id ?x) with x. rewrite bool_decide_eq_false_2; [done|]. intros He. unfold id in He. by rewrite He in Eu.
  - intros s. unfold pinned_row, named_key. rewrite Forall_singleton. cbn [fst snd]. cbv zeta.
    destruct (usableTrackingID _); [|split; [by intros [_ ?]|done]].
    case_bool_decide as H1; cbn; [split; [intros ((_ & _ & Hd) & _); congruence|done]|].
    split; [by intros ((-> & -> & ->) & _)|]. intros Heq. injection Heq as -> -> ->. by split_and!.
Qed.

(** A map that stamps another kind has no such key. *)
Lemma other_kind (vec : list Sample) kind nameLabel c n kind' name : kind ≠ kind' →
  resolveApplications vec argoTrackingIDLabel
    (λ m, (λ '(c, n, s), mkControllerKey c n kind s) <$> named_key mc nameLabel m) !! mkControllerKey c n kind' name = None.
Proof.
  intros Hne. rewrite resolveApplications_least. apply fmap_None, (least_None String.compare).
  destruct (filter _ vec) as [|s l] eqn:Ef; [done|]. exfalso.
  assert (s ∈ s :: l) as Hs by by left. rewrite <-Ef in Hs. apply list_elem_of_filter in Hs as [Hk _].
  destruct (usableTrackingID _); [|done]. unfold named_key in Hk. cbv zeta in Hk. destruct (bool_decide _); [done|].
  cbn in Hk. congruence.
Qed.

Lemma controllerApp_ok kind name : name ≠ "" →
  controllerApp (E:=E) pinned kind name =
  Ok (indexed_controllerApp (resolveControllerApplications v mc) K (rq_Namespace r) kind name).
Proof.
  intros Hname. unfold indexed_controllerApp, resolveControllerApplications, controllerAnnotationFamilies. cbn [fold_left].
  rewrite !lookup_union, lookup_empty.
  destruct (decide (kind ∈ ["Deployment"; "StatefulSet"; "DaemonSet"; "ReplicaSet"; "Job"; "CronJob"])) as [Hin|Hout].
  - repeat (apply elem_of_cons in Hin as [->|Hin]); [..|by apply elem_of_nil in Hin].
    all: try rewrite (other_kind _ "Deployment") by done; try rewrite (other_kind _ "StatefulSet") by done;
      try rewrite (other_kind _ "DaemonSet") by done; try rewrite (other_kind _ "ReplicaSet") by done;
      try rewrite (other_kind _ "Job") by done; try rewrite (other_kind _ "CronJob") by done;
      rewrite ?(left_id_L None (∪)), ?(right_id_L None (∪)).
    all: erewrite controllerApp_from; [reflexivity|done|reflexivity|reflexivity| |apply (bool_decide_unpack _); by vm_compute].
    all: intros s Hs; unfold lookup_rows; rewrite !elem_of_app; tauto.
  - rewrite !other_kind by (intros <-; apply Hout; set_solver). unfold controllerApp, annotation_query.
    cbn [list_find]. rewrite !decide_False by (intros <-; apply Hout; set_solver). done.
Qed.

Lemma cronJobOf_ok job : job ≠ "" →
  cronJobOf (E:=E) pinned job = Ok (indexed_cronJobOf (resolveJobCronJobOwners (v_JobOwner v) mc) false K (rq_Namespace r) job).
Proof.
  intros Hjob. unfold cronJobOf, indexed_cronJobOf, resolveJobCronJobOwners.
  destruct (pinned_query QJobOwner [("job_name", job); ("owner_kind", "CronJob"); ("owner_is_controller", "true")]) as (sets & -> & Hm).
  { intros s Hs. change (s ∈ v_JobOwner v) in Hs. unfold lookup_rows. rewrite !elem_of_app. tauto. }
  { apply (bool_decide_unpack _). by vm_compute. }
  { apply (bool_decide_unpack _). by vm_compute. }
  assert ("owner_name" ≠ "__name__") as Hl by done.
  cbn [rbind]. rewrite minLabel_least, (least_sets sets (v_JobOwner v) "owner_name" _ Hl Hm).
  rewrite (keep_least_fold String.compare _ (λ s, label_of (s_Metric s) "owner_name")) by done. rewrite lookup_index_least.
  match goal with |- _ = Ok (least _ (map _ (filter ?P _))) => rewrite (list_filter_iff _ P) end; [by destruct (least _ _)|].
  intros s. unfold pinned_row. rewrite !Forall_cons, Forall_nil. cbn [fst snd]. cbv zeta.
  case_bool_decide as H1; cbn [negb orb]; [|split; [by intros ((_ & _ & _ & Hd & _) & _)|done]].
  case_bool_decide as H2; cbn [negb orb]; [|split; [by intros ((_ & _ & _ & _ & Hd & _) & _)|done]].
  case_bool_decide as H3; cbn [orb]; [split; [intros ((_ & _ & Hd & _) & _); congruence|done]|].
  case_bool_decide as H4; [split; [by intros [_ Hd]|done]|].
  split; [by intros ((-> & -> & -> & _) & _)|]. intros Heq. injection Heq as -> -> ->. by split_and!.
Qed.
Lemma resolveOwnerApplication_ok kind name : name ≠ "" →
  resolveOwnerApplication_via (E:=E) pinned kind name =
  Ok (resolveOwnerApplication (indexed_controllerApp (resolveControllerApplications v mc) K (rq_Namespace r))
        (indexed_cronJobOf (resolveJobCronJobOwners (v_JobOwner v) mc) false K (rq_Namespace r)) kind name).
Proof.
  intros Hname. unfold resolveOwnerApplication_via, resolveOwnerApplication. rewrite controllerApp_ok by done. cbn [rbind].
  destruct (indexed_controllerApp _ _ _ kind name); [done|]. destruct (negb _); [done|].
  rewrite cronJobOf_ok by done. cbn [rbind]. destruct (indexed_cronJobOf _ _ _ _ name) as [cron|] eqn:Ec; [|done].
  rewrite controllerApp_ok; [done|]. intros ->. unfold indexed_cronJobOf, resolveJobCronJobOwners in Ec.
  rewrite (keep_least_fold String.compare _ (λ s, label_of (s_Metric s) "owner_name")), lookup_index_least in Ec by done.
  apply least_Some in Ec as [Hin _]; [|apply _]. apply list_elem_of_fmap in Hin as (s & Hs & Hin).
  apply list_elem_of_filter in Hin as [Hk _]. cbv zeta in Hk. destruct (_ || _) in Hk; [done|].
  by rewrite (bool_decide_eq_true_2 (label_of (s_Metric s) "owner_name" = "")), orb_true_r in Hk.
Qed.

(** The application of the pod's controller in the build. *)
Definition chain_app : string :=
  match resolvePodOwners (v_PodOwner v) (v_ReplicaSetOwner v) mc !! mkPodNameKey K (rq_Namespace r) (rq_Pod r) with
  | None => ""
  | Some owner => resolveOwnerApplication (indexed_controllerApp (resolveControllerApplications v mc) K (rq_Namespace r))
                    (indexed_cronJobOf (resolveJobCronJobOwners (v_JobOwner v) mc) false K (rq_Namespace r))
                    (or_kind owner) (or_name owner)
  end.

Lemma owner_chain_ok owners : rq_Pod r ≠ "" →
  (∀ m, m ∈ owners ↔ ∃ s, s ∈ v_PodOwner v ∧ owner_row s ∧ m = label_set s) →
  owner_chain (E:=E) pinned owners = Ok chain_app.
Proof.
  intros Hpod Hm. unfold owner_chain, chain_app. rewrite (controllerOwner_ok owners Hpod Hm). cbn [rbind].
  destruct (resolvePodOwners _ _ _ !! _) as [owner|] eqn:Eo; [|done]. apply resolveOwnerApplication_ok. intros He.
  rewrite resolvePodOwners_least, lookup_index_least in Eo. apply least_Some in Eo as [Hin _]; [|apply _].
  apply list_elem_of_fmap in Hin as (s & -> & Hin). apply list_elem_of_filter in Hin as [Hk _].
  unfold owner_row_key in Hk. destruct (negb _); [done|]. destruct (bool_decide_reflect (label_of (s_Metric s) "owner_name" = "")) as [|Hn];
    [by rewrite !orb_true_r in Hk|].
  unfold owner_row_ref in He. cbv zeta in He. case_bool_decide; [|done].
  destruct (rs_to_deployment _ _ !! _) as [dep|] eqn:Ed; [|done]. cbn in He. subst dep.
  apply rs_to_deployment_Some in Ed as (s' & _ & Hk' & Hd). unfold rs_row_key in Hk'. destruct (negb _); [done|].
  by rewrite (bool_decide_eq_true_2 (label_of (s_Metric s') "owner_name" = "")), orb_true_r in Hk'.
Qed.

(** *** The rows of the pod *)

Lemma pinScope_ok first rest :
  (∀ m, m ∈ first :: rest → label_of m (key_AZ keys) = a ∧ label_of m (key_Env keys) = e) →
  pinScope (E:=E) (new_lookup r) first rest = Ok pinned.
Proof.
  intros Hrows. unfold pinScope, new_lookup. cbn [l_req l_keys l_az l_env]. cbv zeta.
  destruct (Hrows first) as [Ha He]; [by left|]. destruct (existsb _ rest) eqn:Ex.
  - exfalso. apply existsb_exists in Ex as (m & Hm & Hb). destruct (Hrows m) as [Ha' He']; [right; by apply list_elem_of_In|].
    by rewrite Ha, He, Ha', He', !bool_decide_eq_true_2, !andb_false_r in Hb.
  - unfold pinned, pinOf. cbn [pin_set]. rewrite Ha, He.
    destruct (pl_az _ _ _ _ _ _ Hplaced) as [Hz|Hz], (pl_env _ _ _ _ _ _ Hplaced) as [Hv|Hv]; rewrite Hz, Hv;
      repeat case_bool_decide; cbn [negb]; congruence.
Qed.

(** The zone an answered row of the build's cluster carries. *)
Lemma row_zone s : s ∈ lookup_rows v → identify mc (s_Metric s) = K →
  label_of (label_set s) (key_AZ keys) = a ∧ label_of (label_set s) (key_Env keys) = e.
Proof.
  intros Hs Hid. apply (pl_identity _ _ _ _ _ _ Hplaced) in Hid as (Ha & He & _); [|done].
  destruct (pl_keys _ _ _ _ _ _ Hplaced) as (H1 & H2 & _).
  rewrite !label_of_set; [done|intros E1; apply H2; rewrite E1|intros E1; apply H1; rewrite E1];
    apply (bool_decide_unpack _); by vm_compute.
Qed.

(** A pin of the request lets the pod's zone through. *)
Lemma request_pins x y : (rq_AZ r = "" ∨ x = rq_AZ r) ∧ (rq_Env r = "" ∨ y = rq_Env r) ↔
  holds (pinOf (rq_AZ r)) x ∧ holds (pinOf (rq_Env r)) y.
Proof. by rewrite !holds_pinOf. Qed.

Lemma placed_pins : (rq_AZ r = "" ∨ a = rq_AZ r) ∧ (rq_Env r = "" ∨ e = rq_Env r).
Proof. destruct (pl_az _ _ _ _ _ _ Hplaced), (pl_env _ _ _ _ _ _ Hplaced); auto. Qed.

(** The first query: the controller rows of the pod. *)
Lemma owner_query_ok : ∃ owners,
  pa_query (E:=E) (new_lookup r) QPodOwner [("pod", rq_Pod r); ("owner_is_controller", "true")] = Ok owners ∧
  ∀ m, m ∈ owners ↔ ∃ s, s ∈ v_PodOwner v ∧ owner_row s ∧ m = label_set s.
Proof.
  set (fs := [_; _]). destruct (answers_from (ksm_request (new_lookup r) QPodOwner fs)) as (sets & Hs & Hm).
  exists sets. unfold pa_query. rewrite Hs. split; [done|]. intros m. rewrite Hm. apply exist_proper. intros s.
  change (family_rows v (ksm_request (new_lookup r) QPodOwner fs)) with (v_PodOwner v).
  assert (s ∈ v_PodOwner v → selected (ksm_request (new_lookup r) QPodOwner fs) (s_Metric s) ↔ owner_row s) as Hsel.
  2:{ split; intros (H1 & H2 & H3); refine (conj H1 (conj _ H3)); by apply (Hsel H1). }
  intros Hin. rewrite (selected_ksm r (new_lookup r)); [|done|done|apply Hplaced|apply (bool_decide_unpack _); by vm_compute|
    apply (bool_decide_unpack _); by vm_compute].
  cbn [new_lookup l_az l_env l_keys]. rewrite <-request_pins. unfold fs, owner_row. rewrite !Forall_cons, Forall_nil. cbn [fst snd].
  assert (s ∈ lookup_rows v) as Hrow by (unfold lookup_rows; rewrite !elem_of_app; tauto). split.
  - intros ((Hp & Ho & _) & (Hc & Hn) & Hz & He). refine (conj _ (conj Hn (conj Hp Ho))).
    apply (pl_identity _ _ _ _ _ _ Hplaced); [done|].
    destruct (pl_owners _ _ _ _ _ _ Hplaced s Hin Hc Hn Hp Hz He) as [Ha' He']. done.
  - intros (Hid & Hn & Hp & Ho). apply (pl_identity _ _ _ _ _ _ Hplaced) in Hid as (-> & -> & Hc); [|done].
    pose proof placed_pins. tauto.
Qed.
(** *** The application metadata *)

(** A row of the pod in the metadata metric. *)
Definition metadata_row (src : AppMetadataSource) (s : Sample) : Prop :=
  identify mc (s_Metric s) = K ∧ label_of (s_Metric s) (am_Namespace src) = rq_Namespace r ∧
  label_of (s_Metric s) (am_Pod src) = rq_Pod r.

#[local] Instance metadata_row_dec src s : Decision (metadata_row src s).
Proof. unfold metadata_row. apply _. Defined.

Lemma metadata_query_ok l src : l = new_lookup r ∨ l = pinned → rq_AppMetadata r = Some src →
  source_Validate src (rq_LabelKeys r) = Ok tt → source_OrDefault src = src →
  ∃ rows, appMetadataRows (E:=E) l src = Ok rows ∧
    ∀ m, m ∈ rows ↔ ∃ s, s ∈ default [] (v_AppMetadata v) ∧ metadata_row src s ∧ m = label_set s.
Proof.
  intros Hl Hsrc Hv Hd. destruct (answers_from (appmeta_request l src)) as (sets & Hs & Hm).
  exists sets. unfold appMetadataRows. rewrite Hs. split; [done|]. intros m. rewrite Hm. apply exist_proper. intros s.
  change (family_rows v (appmeta_request l src)) with (default [] (v_AppMetadata v)).
  assert (s ∈ default [] (v_AppMetadata v) → selected (appmeta_request l src) (s_Metric s) ↔ metadata_row src s) as Hsel.
  2:{ split; intros (H1 & H2 & H3); refine (conj H1 (conj _ H3)); by apply (Hsel H1). }
  intros Hin. assert (s ∈ lookup_rows v) as Hrow by (unfold lookup_rows; rewrite !elem_of_app; tauto).
  assert (l_req l = r ∧ l_keys l = keys) as [Hq Hk] by by destruct Hl as [->| ->].
  rewrite (selected_appmeta r l Hq Hk) by (done || (rewrite Hk; apply Hplaced)).
  unfold metadata_row. split.
  - intros ((Hc & Hn & Hp) & Hpins). refine (conj _ (conj Hn Hp)). apply (pl_identity _ _ _ _ _ _ Hplaced); [done|].
    destruct Hl as [->| ->]; cbn [new_lookup pinned l_az l_env l_keys] in Hpins.
    + apply request_pins in Hpins as [Hz He].
      destruct (pl_metadata _ _ _ _ _ _ Hplaced src s Hsrc Hin Hc Hn Hp Hz He) as [Ha' He']. done.
    + unfold holds in Hpins. cbn [pin_set pin_val] in Hpins. by destruct Hpins as [-> ->].
  - intros (Hid & Hn & Hp). apply (pl_identity _ _ _ _ _ _ Hplaced) in Hid as (Ha' & He' & Hc); [|done].
    split; [done|]. destruct Hl as [->| ->]; cbn [new_lookup pinned l_az l_env l_keys]; rewrite Ha', He'.
    + apply request_pins, placed_pins.
    + done.
Qed.

Lemma metadata_pick rows src : rq_Pod r ≠ "" → am_App src ≠ "__name__" → am_App src ≠ "" → am_Namespace src ≠ "" → am_Pod src ≠ "" →
  (∀ m, m ∈ rows ↔ ∃ s, s ∈ default [] (v_AppMetadata v) ∧ metadata_row src s ∧ m = label_set s) →
  minLabel rows (am_App src) =
  match pod_picks src mc (default [] (v_AppMetadata v)) !! mkPodNameKey K (rq_Namespace r) (rq_Pod r) with
  | Some app => (app, true)
  | None => ("", false)
  end.
Proof.
  intros Hpod Hname Ha Hn Hp Hm. rewrite minLabel_least, (least_sets rows _ (am_App src) _ Hname Hm).
  unfold pod_picks. rewrite (keep_least_fold String.compare _ (row_app src)), lookup_index_least by done.
  unfold pod_pick_key, row_app, row_ns, metricLabel.
  rewrite (bool_decide_eq_false_2 (am_App src = "")), (bool_decide_eq_false_2 (am_Namespace src = "")),
    (bool_decide_eq_false_2 (am_Pod src = "")) by done.
  match goal with |- _ = match least _ (map _ (filter ?P _)) with _ => _ end => rewrite (list_filter_iff _ P) end; [done|].
  intros s. unfold metadata_row. cbv zeta. case_bool_decide as H1; cbn [orb].
  { split; [intros ((_ & _ & Hd) & _); congruence|done]. }
  case_bool_decide as H2; [split; [by intros [_ Hd]|done]|].
  split; [by intros ((-> & -> & ->) & _)|]. intros Heq. injection Heq as -> -> ->. by split_and!.
Qed.
End estate.

Lemma source_OrDefault_idemp src : source_OrDefault (source_OrDefault src) = source_OrDefault src.
Proof.
  unfold source_OrDefault, str_or. cbn. f_equal; repeat case_bool_decide; congruence.
Qed.

Lemma source_OrDefault_names src : am_App (source_OrDefault src) ≠ "" ∧ am_Namespace (source_OrDefault src) ≠ "" ∧ am_Pod (source_OrDefault src) ≠ "".
Proof. unfold source_OrDefault, str_or. cbn. split_and!; by case_bool_decide. Qed.

Lemma pa_validate_ok {E} r : pa_validate (E:=E) r = Ok tt →
  rq_Pod r ≠ "" ∧ ∀ s, rq_AppMetadata r = Some s → source_Validate s (rq_LabelKeys r) = Ok tt.
Proof.
  unfold pa_validate. destruct (list_find _ _) as [[i [name x]]|] eqn:El; [done|]. apply list_find_None in El.
  rewrite !Forall_cons in El. destruct El as (_ & _ & Hp & _). intros Hv. split; [done|]. intros s Hs. rewrite Hs in Hv.
  destruct (rq_At r); [|done]. destruct (_ <=? _)%Z; [done|]. by destruct (source_Validate s _) as [[]|].
Qed.

(** ** The lookup and the build *)

Section theorem.
Context {E : Type} `{LabelQuerier E} (v : topologyVectors) `{!AnswersFrom E v} (mc : clusterResolver).

(** The Application the build gives a pod, "" for none. *)
Definition build_app (src : option AppMetadataSource) (pod : podNameKey) : string :=
  default "" (pod_applications mc v (resolvePodOwners (v_PodOwner v) (v_ReplicaSetOwner v) mc)
                ((λ src, resolveAppMetadata src mc (default [] (v_AppMetadata v))) <$> src) !! pod).

(** C20: The lookup of one pod answers what the build answers for it, where the
    estate keeps to what the lookup documents: a row has the pod's cluster identity
    exactly when it carries the pod's cluster, zone and environment (no unstamped row
    for the build to adopt), and the pod's owner and metadata rows the request's pins
    admit are of that one zone and environment; the zone and
    environment labels have names apart from each other and from those the lookup
    filters on, and the metadata label is a label; no ReplicaSet names two
    Deployments; and the build's read of Job annotations did not degrade. Then a valid
    request returns the Application the build resolves, whether the metadata metric,
    the controller's annotation or the CronJob of its Job supplies it, and "" when the
    build resolves none - given that a metric not served to the lookup was not read by
    the build either. Outside these conditions the two can differ, as the documents
    say. *)
Theorem lookup_agrees_with_build r K a e :
  let src := source_OrDefault <$> rq_AppMetadata r in
  pa_validate (E:=E) (with_source r src) = Ok tt →
  placed v mc (with_source r src) K a e →
  rs_single mc (v_ReplicaSetOwner v) →
  v_JobAnnotationsDegraded v = false →
  (lookupUsesAppMetadata src = None → default [] (v_AppMetadata v) = []) →
  (∀ s, src = Some s → am_App s ≠ "__name__") →
  ResolvePodApplication (E:=E) r = Ok (build_app src (mkPodNameKey K (rq_Namespace r) (rq_Pod r))).
Proof.
  intros src Hvalid Hpl Hone Hdeg Hread Hname. unfold ResolvePodApplication. fold src. rewrite Hvalid. cbn [rbind].
  set (r' := with_source r src) in *. change (rq_Pod r) with (rq_Pod r'). change (rq_Namespace r) with (rq_Namespace r').
  change (rq_AppMetadata r') with src.
  assert (rq_Pod r' ≠ "" ∧ ∀ s, src = Some s → source_Validate s (rq_LabelKeys r') = Ok tt) as [Hpod Hsrc].
  { by apply pa_validate_ok in Hvalid. }
  set (key := mkPodNameKey K (rq_Namespace r') (rq_Pod r')).
  set (picks := default ∅ (ix_podApps <$> ((λ src, resolveAppMetadata src mc (default [] (v_AppMetadata v))) <$> src))).
  assert (build_app src key = match picks !! key with Some app => if decide (app = "") then chain_app v mc r' K else app | None => chain_app v mc r' K end) as Hbuild.
  { unfold build_app, pod_applications, resolvePodApplications. fold picks. rewrite lookup_union, map_lookup_filter, map_lookup_imap, Hdeg.
    unfold chain_app. fold key.
    assert (∀ o : option string, o = None → default "" (o ∪ (resolvePodOwners (v_PodOwner v) (v_ReplicaSetOwner v) mc !! key ≫= λ owner,
      let app := resolveOwnerApplication (indexed_controllerApp (resolveControllerApplications v mc) (pnk_cluster key) (pnk_namespace key))
        (indexed_cronJobOf (resolveJobCronJobOwners (v_JobOwner v) mc) false (pnk_cluster key) (pnk_namespace key)) (or_kind owner) (or_name owner)
      in if bool_decide (app = "") then None else Some app)) = chain_app v mc r' K) as Hc.
    { intros o ->. rewrite (left_id_L None (∪)). unfold chain_app. fold key. destruct (resolvePodOwners _ _ _ !! key) as [o|]; [|done].
      cbn [mbind option_bind]. cbv zeta. case_bool_decide as He; [symmetry; exact He|done]. }
    destruct (picks !! key) as [app|] eqn:Ep; cbn [mbind option_bind]; [|by apply Hc].
    destruct (decide (app = "")) as [->|Hne]; (case_guard as Hg; [|]); cbn [mbind option_bind snd] in Hg |- *; try done; try (by apply Hc).
    change (mret Hg ≫= λ _, Some app) with (Some app). by destruct (resolvePodOwners _ _ _ !! key ≫= _). }
  destruct (owner_query_ok v mc r' K a e Hpl) as (owners & Howners & Hom). rewrite Howners. cbn [rbind].
  pose proof (owner_chain_ok v mc r' K a e Hpl Hone owners Hpod Hom) as Hchain.
  (* what the metadata metric says, for either lookup *)
  assert (∀ s, src = Some s → ∀ l, l = new_lookup r' ∨ l = pinned r' a e → ∃ rows,
    appMetadataRows (E:=E) l s = Ok rows ∧ (∀ m, m ∈ rows ↔ ∃ x, x ∈ default [] (v_AppMetadata v) ∧ metadata_row mc r' K s x ∧ m = label_set x) ∧
    minLabel rows (am_App s) = match picks !! key with Some app => (app, true) | None => ("", false) end) as Hmeta.
  { intros s Hs l Hl. assert (source_OrDefault s = s ∧ am_App s ≠ "" ∧ am_Namespace s ≠ "" ∧ am_Pod s ≠ "") as (Hd & HA & HN & HP).
    { unfold src in Hs. destruct (rq_AppMetadata r) as [s0|]; [|done]. injection Hs as <-.
      split; [apply source_OrDefault_idemp|]. apply source_OrDefault_names. }
    destruct (metadata_query_ok v mc r' K a e Hpl l s Hl Hs (Hsrc s Hs) Hd) as (rows & Hrows & Hm).
    exists rows. split; [done|]. split; [done|]. unfold picks. rewrite Hs.
    exact (metadata_pick v mc r' K rows s Hpod (Hname s Hs) HA HN HP Hm). }
  assert (lookupUsesAppMetadata src = None → picks !! key = None) as Hnopick.
  { intros Hu. unfold picks. destruct src as [s|]; [|done]. cbn. by rewrite (Hread Hu). }
  assert (∀ s, lookupUsesAppMetadata src = Some s → src = Some s) as Huses.
  { intros s. unfold lookupUsesAppMetadata. destruct src, lq_FamilyServer as [f|]; try done. by destruct (f _). }
  assert (∀ rows l app ok, minLabel rows l = (app, ok) → ok = negb (bool_decide (app = ""))) as Hok.
  { intros rows l app ok. unfold minLabel. by intros [= <- <-]. }
  destruct owners as [|first rest].
  - assert (chain_app v mc r' K = "") as Hnone by (unfold owner_chain in Hchain; cbn in Hchain; congruence).
    rewrite Hbuild, Hnone. destruct (lookupUsesAppMetadata src) as [s|] eqn:Hu; [|by rewrite Hnopick].
    destruct (Hmeta s (Huses s eq_refl) (new_lookup r') (or_introl eq_refl)) as (rows & -> & Hm & Hmin). cbn [rbind].
    destruct rows as [|first rest].
    + unfold minLabel in Hmin. cbn in Hmin. destruct (picks !! key); [|done]. by case_decide.
    + rewrite (pinScope_ok v mc r' K a e Hpl).
      * cbn [rbind]. rewrite Hmin. destruct (picks !! key); [|done]. cbn. by case_decide; subst.
      * intros m Hin. apply Hm in Hin as (x & Hx & (Hid & _) & ->).
        apply (row_zone v mc r' K a e Hpl); [|done]. unfold lookup_rows. rewrite !elem_of_app. tauto.
  - rewrite (pinScope_ok v mc r' K a e Hpl).
    2:{ intros m Hin. apply Hom in Hin as (x & Hx & (Hid & _) & ->).
        apply (row_zone v mc r' K a e Hpl); [|done]. unfold lookup_rows. rewrite !elem_of_app. tauto. }
    cbn [rbind]. rewrite Hbuild. destruct (lookupUsesAppMetadata src) as [s|] eqn:Hu; [|by rewrite Hnopick].
    destruct (Hmeta s (Huses s eq_refl) (pinned r' a e) (or_intror eq_refl)) as (rows & -> & _ & Hmin). cbn [rbind].
    destruct (minLabel rows (am_App s)) as [app ok] eqn:El. apply Hok in El as Hb.
    destruct (picks !! key) as [app'|]; injection Hmin as -> ->; [|done].
    case_decide; [|done]. subst. by rewrite bool_decide_eq_true_2 in Hb.
Qed.

(** A pod whose controller rows lie in two zones or environments, neither pinned by
    the request, is refused: no Application of another zone is ever substituted. *)
Theorem ambiguous_pod_refused r s1 s2 :
  let src := source_OrDefault <$> rq_AppMetadata r in
  pa_validate (E:=E) (with_source r src) = Ok tt → keys_apart (OrDefault (rq_LabelKeys r)) →
  rq_AZ r = "" → rq_Env r = "" → s1 ∈ v_PodOwner v → s2 ∈ v_PodOwner v →
  (∀ s, s = s1 ∨ s = s2 → label_of (s_Metric s) "cluster" = rq_Cluster r ∧ label_of (s_Metric s) "namespace" = rq_Namespace r ∧
     label_of (s_Metric s) "pod" = rq_Pod r ∧ label_of (s_Metric s) "owner_is_controller" = "true") →
  let zone_of s := (label_of (s_Metric s) (key_AZ (OrDefault (rq_LabelKeys r))), label_of (s_Metric s) (key_Env (OrDefault (rq_LabelKeys r)))) in
  zone_of s1 ≠ zone_of s2 →
  ResolvePodApplication (E:=E) r = Err ErrAmbiguousPod.
Proof.
  intros src Hv Hk Haz Henv Hs1 Hs2 Hrows zone_of Hne. unfold ResolvePodApplication. fold src. rewrite Hv. cbn [rbind].
  set (r' := with_source r src) in *. unfold pa_query. set (fs := [_; _]). set (l := new_lookup r').
  destruct (answers_from (ksm_request l QPodOwner fs)) as (owners & -> & Hm). cbn [named rbind].
  assert (∀ s, s = s1 ∨ s = s2 → label_set s ∈ owners) as Hin.
  { intros s Hs. apply Hm. exists s. split; [by destruct Hs as [->| ->]|]. split; [|done].
    destruct (Hrows s Hs) as (Hc & Hn & Hp & Ho).
    apply (selected_ksm r' l); [done|done|done|apply (bool_decide_unpack _); by vm_compute|apply (bool_decide_unpack _); by vm_compute|].
    cbn [l new_lookup l_az l_env l_keys]. rewrite !holds_pinOf. change (rq_AZ r') with (rq_AZ r). change (rq_Env r') with (rq_Env r).
    repeat constructor; cbn; auto. }
  assert (∀ s, (label_of (label_set s) (key_AZ (OrDefault (rq_LabelKeys r))), label_of (label_set s) (key_Env (OrDefault (rq_LabelKeys r)))) = zone_of s) as Hz.
  { intros s. destruct Hk as (H1 & H2 & _). unfold zone_of.
    rewrite !label_of_set; [done|intros E1; apply H2; rewrite E1|intros E1; apply H1; rewrite E1]; apply (bool_decide_unpack _); by vm_compute. }
  destruct owners as [|first rest]; [by destruct (proj1 (elem_of_nil _) (Hin s1 (or_introl eq_refl)))|].
  unfold pinScope. cbn [l new_lookup l_az l_env l_keys]. change (rq_LabelKeys r') with (rq_LabelKeys r).
  change (rq_AZ r') with (rq_AZ r). change (rq_Env r') with (rq_Env r). rewrite Haz, Henv. cbv zeta. unfold pinOf. cbn [pin_set pin_val].
  rewrite bool_decide_eq_true_2 by done. cbn [negb andb].
  set (differs := λ s, _). assert (∀ s, s = s1 ∨ s = s2 → differs (label_set s) = true ∨ zone_of s =
    (label_of first (key_AZ (OrDefault (rq_LabelKeys r))), label_of first (key_Env (OrDefault (rq_LabelKeys r))))) as Hd.
  { intros s _. rewrite <-Hz. unfold differs. do 2 case_bool_decide; cbn [negb orb]; auto. right. by f_equal. }
  assert (existsb differs rest = true) as ->; [|done]. apply existsb_exists.
  assert (∀ s, s = s1 ∨ s = s2 → differs (label_set s) = true → ∃ x, In x rest ∧ differs x = true) as Hex.
  { intros s Hs Hx. exists (label_set s). split; [|done]. apply list_elem_of_In.
    destruct (proj1 (elem_of_cons rest (label_set s) first) (Hin s Hs)) as [Heq|]; [|done].
    exfalso. revert Hx. rewrite Heq. unfold differs. by rewrite !bool_decide_eq_true_2. }
  destruct (Hd s1 (or_introl eq_refl)) as [H1|H1]; [by apply (Hex s1); [left|]|].
  destruct (Hd s2 (or_intror eq_refl)) as [H2|H2]; [by apply (Hex s2); [right|]|]. congruence.
Qed.
End theorem.

(** ** A sample *)

(** The label endpoint of an estate: every request answers with the matching rows. *)
Definition estate_labels (v : topologyVectors) : LabelQuerier string := {|
  lq_QueryLabels req := Ok (map label_set (filter (λ s, selected req (s_Metric s)) (family_rows v req)));
  lq_FamilyServer := Some (λ _, true);
|}.

Lemma estate_answers v : @AnswersFrom string (estate_labels v) v.
Proof.
  split. intros req. eexists. split; [done|]. intros m. rewrite list_elem_of_fmap. split.
  - intros (s & -> & Hs). apply list_elem_of_filter in Hs as [Hsel Hs]. by exists s.
  - intros (s & Hs & Hsel & ->). exists s. split; [done|]. by apply list_elem_of_filter.
Qed.

Module PodEstate.
Definition row (l : list (string * string)) : Sample :=
  mkSample (list_to_map (("az", "z1") :: ("env", "prod") :: ("cluster", "c1") :: ("namespace", "shop") :: l)) (Float64.f_of_Z 1) 5%Z.

(** A pod of a Job that carries no annotation; the Job's CronJob carries one. *)
Definition vectors : topologyVectors :=
  mkTopologyVectors [] [] [] [] [] [] [] []
    [row [("pod", "report-1-x"); ("owner_is_controller", "true"); ("owner_kind", "Job"); ("owner_name", "report-1")]] []
    [row [("job_name", "report-1"); ("owner_is_controller", "true"); ("owner_kind", "CronJob"); ("owner_name", "report")]]
    [] [] [] [] [] [] [] [] [] []
    [row [("cronjob", "report"); (argoTrackingIDLabel, "reports:batch/CronJob:shop/report")]] None None
    false None false false [] [] [] [] [] [] [] [] [] [] [] [] [] [] [] [] [] [] [] [] [] [] [] []
    [] [] [].

Definition request : PodApplicationRequest :=
  mkPodApplicationRequest "z1" "" "c1" "shop" "report-1-x" (Some 1%Z) 300000000000 DefaultLabelKeys None.
Definition resolver : clusterResolver :=
  fold_left (λ mc s, observe mc (s_Metric s)) (lookup_rows vectors) (newClusterResolver DefaultLabelKeys).
Definition labels_of : LabelQuerier string := estate_labels vectors.
Definition answers : @AnswersFrom string labels_of vectors := estate_answers vectors.
End PodEstate.
#[local] Existing Instances PodEstate.labels_of PodEstate.answers.

Lemma lookup_agrees_with_build_witness :
  ResolvePodApplication (E:=string) PodEstate.request = Ok "reports" ∧
  build_app PodEstate.vectors PodEstate.resolver None (mkPodNameKey "z1-prod-c1" "shop" "report-1-x") = "reports".
Proof.
  assert (build_app PodEstate.vectors PodEstate.resolver None (mkPodNameKey "z1-prod-c1" "shop" "report-1-x") = "reports") as Hb
    by (vm_compute; reflexivity).
  split; [|exact Hb]. rewrite <-Hb.
  apply (lookup_agrees_with_build PodEstate.vectors PodEstate.resolver PodEstate.request "z1-prod-c1" "z1" "prod").
  - vm_compute. reflexivity.
  - split.
    + split_and!; apply (bool_decide_unpack _); vm_compute; exact I.
    + apply (proj1 (Forall_forall (λ s, identify PodEstate.resolver (s_Metric s) = "z1-prod-c1" ↔
        label_of (s_Metric s) "az" = "z1" ∧ label_of (s_Metric s) "env" = "prod" ∧ label_of (s_Metric s) "cluster" = "c1") (lookup_rows PodEstate.vectors))).
      repeat constructor.
    + by right.
    + by left.
    + intros s Hs m _ _ _ _ _. apply list_elem_of_singleton in Hs as ->. split; vm_compute; reflexivity.
    + intros src s [=].
  - intros s1 s2 Hs1. change (s1 ∈ @nil Sample) in Hs1. destruct (proj1 (elem_of_nil s1) Hs1).
  - reflexivity.
  - reflexivity.
  - intros s [=].
Defined.
