(* ===== verification/RequestParse.v ===== *)
(** pkg/kubegraph/parse.go and align.go: the request contract of the three graph
    endpoints - the query parameters parsed into a window, a selector and a scope -
    and the grid a request's end is floored to. What package time does is written
    out: an instant is a wrapping 64-bit count of seconds and the nanoseconds within
    one, as [time.Time] keeps it. *)

From S2P Require Import Prelude GoStrings Strconv DeployTime Project StorageScope.
From S2P Require Import Selector ScopedRender LabelQuery PeerAddress NameScopes ReadPlan Build.

#[local] Open Scope ksg_scope.

(** ** package time *)

Section time.
#[local] Open Scope Z_scope.

(** A 64-bit integer operation wraps. *)
Definition wrap64 (z : Z) : Z := (z + 2 ^ 63) mod 2 ^ 64 - 2 ^ 63.
Definition max64 : Z := 2 ^ 63 - 1.

(** An instant: seconds since 0001-01-01T00:00:00Z and nanoseconds. *)
Record Time := mkTime { t_sec : Z; t_nsec : Z }.

(** Seconds from year 1 to the Unix epoch. *)
Definition unixToInternal : Z := 62135596800.

(** [time.Unix(n, 0)] *)
Definition Unix (n : Z) : Time := mkTime (wrap64 (n + unixToInternal)) 0.
(** [Time.UnixNano] *)
Definition UnixNano (t : Time) : Z := wrap64 (nanos * (t_sec t - unixToInternal) + t_nsec t).
(** [Time.After] *)
Definition After (t u : Time) : bool := (t_sec u <? t_sec t) || (t_sec t =? t_sec u) && (t_nsec u <? t_nsec t).

(** [Time.addSec]: saturating. *)
Definition addSec (s d : Z) : Z :=
  let sum := wrap64 (s + d) in
  if Bool.eqb (s <? sum) (0 <? d) then sum else if 0 <? d then max64 else - max64.

(** [Time.Add] of a duration in nanoseconds. *)
Definition Add (t : Time) (d : Z) : Time :=
  let dsec := Z.quot d nanos in
  let nsec := t_nsec t + Z.rem d nanos in
  if nanos <=? nsec then mkTime (addSec (t_sec t) (dsec + 1)) (nsec - nanos)
  else if nsec <? 0 then mkTime (addSec (t_sec t) (dsec - 1)) (nsec + nanos)
  else mkTime (addSec (t_sec t) dsec) nsec.

(** [Time.Sub]: saturating. *)
Definition Sub (t u : Time) : Z :=
  let d := wrap64 (nanos * wrap64 (t_sec t - t_sec u) + (t_nsec t - t_nsec u)) in
  let back := Add u d in
  if (t_sec back =? t_sec t) && (t_nsec back =? t_nsec t) then d
  else if After u t then - 2 ^ 63 else max64.

(** [getnum] of package time: two digits, or one where they are not required. *)
Definition getnum (fixed : bool) (s : string) : option (Z * string) :=
  match s with
  | "" => None
  | String a s1 =>
      d ← digit_of a;
      match s1 with
      | String b s2 => match digit_of b with
                       | Some d2 => Some (10 * d + d2, s2)
                       | None => if fixed then None else Some (d, s1)
                       end
      | "" => if fixed then None else Some (d, s1)
      end
  end.

(** The digits of a fraction, the first nine of which count. *)
Fixpoint fraction (weight acc : Z) (s : string) : Z * string :=
  match s with
  | String a s' => match digit_of a with
                   | Some d => fraction (weight / 10) (acc + weight * d) s'
                   | None => (acc, s)
                   end
  | "" => (acc, "")
  end.

(** Fractional seconds after the clock, though the layout has none: a point or a
    comma and at least one digit. *)
Definition scan_fraction (s : string) : Z * string :=
  match s with
  | String c (String d s') =>
      if (Ascii.eqb c "." || Ascii.eqb c ",") && bool_decide (is_Some (digit_of d))
      then fraction 100000000 0 (String d s') else (0, s)
  | _ => (0, s)
  end.

(** The zone: [Z], or a signed offset; hours to 24 and minutes to 60 are let through. *)
Definition scan_zone (s : string) : option Z :=
  match s with
  | "" => None
  | String c s =>
      if Ascii.eqb c "Z" then (if bool_decide (s = "") then Some 0 else None) else
      '(h, s) ← digits 2 0 s; s ← lit ":" s; '(m, s) ← digits 2 0 s;
      if negb (bool_decide (s = "")) || (24 <? h) || (60 <? m) then None
      else if Ascii.eqb c "+" then Some (3600 * h + 60 * m)
      else if Ascii.eqb c "-" then Some (- (3600 * h + 60 * m)) else None
  end.

(** [time.Parse(time.RFC3339, s)]: the fields in the layout's order, then the range
    checks. *)
Definition parse_rfc3339 (s : string) : option Time :=
  '(y, s) ← digits 4 0 s; s ← lit "-" s;
  '(mo, s) ← getnum true s; s ← lit "-" s;
  '(d, s) ← getnum true s; s ← lit "T" s;
  '(h, s) ← getnum false s; s ← lit ":" s;
  '(mi, s) ← getnum true s; s ← lit ":" s;
  '(se, s) ← getnum true s;
  let '(frac, s) := scan_fraction s in
  off ← scan_zone s;
  let c := mkCivil y mo d h mi se in
  if civil_ok c then Some (mkTime (instant c off / nanos) frac) else None.
End time.

(** ** Parameters *)

(** [url.Values] *)
Definition Values : Type := gmap string (list string).
Definition vals (v : Values) (k : string) : list string := default [] (v !! k).
(** [Values.Get]: the first value, "" for none. *)
Definition Get (v : Values) (k : string) : string := default "" (head (vals v k)).

(** pkg/kubegraph/parse.go, [ParseError] *)
Record ParseError := mkParseError { pe_Reason : string; pe_Message : string }.

Section parse.
(** The verb [%q]. *)
Context (quote : string → string).

(** The message of an error of the root parser. *)
Definition root_error_text (e : root_error) : string :=
  match e with
  | ErrValuesRequireKind => "storage root values require a kind"
  | ErrUnknownRootKind k => "unknown storage root kind " +:+ quote k
  | ErrInvalidNamespaced param v hint =>
      "invalid " +:+ param +:+ " root " +:+ quote v +:+ ": expected <namespace>/<" +:+ hint +:+ ">"
  | ErrInvalidONTAP k v => "invalid " +:+ k +:+ " root " +:+ quote v +:+ ": expected <name> or <ontap_cluster>/<name>"
  end.

(** pkg/kubegraph/parse.go, [parseTimestamp] *)
Definition parseTimestamp (s : string) : result string Time :=
  match Atoi s with
  | Some n => Ok (Unix n)
  | None => match parse_rfc3339 s with
            | Some t => Ok t
            | None => Err ("timestamp must be RFC 3339 or Unix seconds: " +:+ quote s)
            end
  end.

(** pkg/kubegraph/parse.go, [parseWindow] *)
Definition parseWindow (v : Values) : result ParseError (Time * Time) :=
  let startStr := Get v "start" in
  let endStr := Get v "end" in
  if bool_decide (startStr = "") then Err (mkParseError "missing_start" "start query parameter is required") else
  if bool_decide (endStr = "") then Err (mkParseError "missing_end" "end query parameter is required") else
  match parseTimestamp startStr with
  | Err m => Err (mkParseError "invalid_start" m)
  | Ok start =>
      match parseTimestamp endStr with
      | Err m => Err (mkParseError "invalid_end" m)
      | Ok end_ =>
          if negb (After end_ start) then Err (mkParseError "invalid_range" "end must be after start")
          else Ok (start, end_)
      end
  end.

(** pkg/kubegraph/parse.go, [nonEmptySorted] *)
Definition nonEmptySorted (values : list string) : list string :=
  compact (sort_func String.compare (filter (λ x, x ≠ "") values)).

(** pkg/kubegraph/parse.go, [atLeastOne] *)
Definition atLeastOne (param : string) (values : list string) : result ParseError (list string) :=
  let got := nonEmptySorted values in
  if bool_decide (got = []) then Err (mkParseError ("missing_" +:+ param) (param +:+ " query parameter is required")) else Ok got.

(** pkg/kubegraph/parse.go, [parsePrune] *)
Definition parsePrune (raw : string) : result ParseError bool :=
  if bool_decide (raw = "") || bool_decide (raw = "true") then Ok true
  else if bool_decide (raw = "false") then Ok false
  else Err (mkParseError "invalid_scope" ("prune must be true or false, got " +:+ quote raw)).

(** pkg/kubegraph/parse.go@46-46, [maxSelectorValueLen] *)
Definition maxSelectorValueLen : nat := 253.

(** pkg/kubegraph/parse.go, [validateSelectorValues] *)
Fixpoint validateSelectorValues (param : string) (values : list string) : result ParseError unit :=
  match values with
  | [] => Ok tt
  | val :: rest =>
      if bool_decide (val = "") then validateSelectorValues param rest else
      if (maxSelectorValueLen <? String.length val)%nat
      then Err (mkParseError "invalid_scope" (param +:+ " value exceeds 253 bytes")) else
      match scan_utf8 val with
      | None => Err (mkParseError "invalid_scope" (param +:+ " value is not valid UTF-8"))
      | Some true => Err (mkParseError "invalid_scope" (param +:+ " value contains a control character"))
      | Some false => validateSelectorValues param rest
      end
  end.

(** pkg/kubegraph/parse.go@277-281, [ParseK8sValues]: [validateSelectorValues] of
    every listed parameter. *)
Fixpoint validate_params (v : Values) (params : list string) : result ParseError unit :=
  match params with
  | [] => Ok tt
  | p :: rest => _ <-! validateSelectorValues p (vals v p); validate_params v rest
  end.

(** pkg/kubegraph/parse.go, [hasNonEmpty] *)
Definition hasNonEmpty (values : list string) : bool := existsb (λ x, negb (bool_decide (x = ""))) values.

(** pkg/kubegraph/parse.go, [oneStorageRoot] *)
Definition oneStorageRoot (v : Values) (params : list string) (missingMsg : string)
  : result ParseError (StorageRootKind * list string) :=
  match filter (λ p, hasNonEmpty (vals v p) = true) params with
  | [] => Err (mkParseError "missing_root" missingMsg)
  | [p] => Ok (p, vals v p)
  | present => Err (mkParseError "invalid_scope" ("exactly one root kind is allowed, got " +:+ join " and " present))
  end.

(** pkg/kubegraph/parse.go@303-305, [storageRootParams] *)
Definition storageRootParams : list string :=
  ["ontap_cluster"; "ontap_node"; "aggr"; "svm"; "node"; "pod"; "pvc"; "pv"; "application"].
(** pkg/kubegraph/parse.go@246-246, [k8sRootParams] *)
Definition k8sRootParams : list string := ["node"; "pod"].

(** pkg/kubegraph/parse.go, [parseIODelta] *)
Definition parseIODelta (values : list string) : result ParseError bool :=
  _ <-! validateSelectorValues "io_delta" values;
  let got := nonEmptySorted values in
  let invalid := Err (mkParseError "invalid_scope" ("io_delta must be true or false, got " +:+ quote (join "," got))) in
  match got with
  | [] => Ok false
  | [x] => if bool_decide (x = "true") then Ok true else if bool_decide (x = "false") then Ok false else invalid
  | _ => invalid
  end.

(** pkg/kubegraph/parse.go, [parseIORollup] *)
Definition parseIORollup (values : list string) : result ParseError Rollup :=
  _ <-! validateSelectorValues "io_rollup" values;
  let invalid raw := Err (mkParseError "invalid_scope" (InvalidRollupMessage quote "io_rollup" raw)) in
  match nonEmptySorted values with
  | [] => Ok RollupLast
  | [x] => match ParseRollup quote x with Ok r => Ok r | Err _ => invalid x end
  | got => invalid (join "," got)
  end.

(** ** The three endpoints *)

(** pkg/kubegraph/parse.go, [Request] *)
Record Request := mkRequest { rq_Start : Time; rq_End : Time; rq_Scope : Scope; rq_Selector : Selector }.

(** pkg/kubegraph/parse.go, [ParseValues] *)
Definition ParseValues (v : Values) : result ParseError Request :=
  w <-! parseWindow v;
  _ <-! validate_params v ["cluster"; "namespace"; "az"; "env"];
  prune <-! parsePrune (Get v "prune");
  Ok (mkRequest w.1 w.2 (NewScope (vals v "cluster") (vals v "namespace") (negb prune))
        (mkSelector (vals v "az") (vals v "env") (vals v "cluster") (vals v "namespace"))).

(** pkg/kubegraph/parse.go, [StorageRequest] *)
Record StorageRequest := mkStorageRequest {
  sr_Start : Time; sr_End : Time; sr_Scope : StorageScope; sr_Selector : Selector; sr_IORollup : Rollup; sr_IODelta : bool;
}.

(** The scope of a root parameter; a malformed value is a 400. *)
Definition parse_scope (clusters namespaces : list string) (root : StorageRootKind * list string) : result ParseError StorageScope :=
  match NewStorageScope clusters namespaces root.1 root.2 with
  | Ok s => Ok s
  | Err e => Err (mkParseError "invalid_scope" (root_error_text e))
  end.

(** pkg/kubegraph/parse.go, [ParseStorageValues] *)
Definition ParseStorageValues (v : Values) : result ParseError StorageRequest :=
  w <-! parseWindow v;
  az <-! atLeastOne "az" (vals v "az");
  env <-! atLeastOne "env" (vals v "env");
  _ <-! validate_params v ["cluster"; "namespace"; "az"; "env"; "ontap_cluster"; "ontap_node"; "node"; "aggr"; "svm"; "pod"; "pvc"; "pv"; "application"];
  root <-! oneStorageRoot v storageRootParams "a storage-graph request requires exactly one root kind";
  scope <-! parse_scope (vals v "cluster") (vals v "namespace") root;
  rollup <-! parseIORollup (vals v "io_rollup");
  delta <-! parseIODelta (vals v "io_delta");
  Ok (mkStorageRequest w.1 w.2 scope (mkSelector az env (vals v "cluster") (vals v "namespace")) rollup delta).

(** pkg/kubegraph/parse.go, [K8sRequest] *)
Record K8sRequest := mkK8sRequest { kr_Start : Time; kr_End : Time; kr_Scope : StorageScope; kr_Selector : Selector }.

(** pkg/kubegraph/parse.go, [ParseK8sValues] *)
Definition ParseK8sValues (v : Values) : result ParseError K8sRequest :=
  w <-! parseWindow v;
  cluster <-! atLeastOne "cluster" (vals v "cluster");
  az <-! atLeastOne "az" (vals v "az");
  env <-! atLeastOne "env" (vals v "env");
  _ <-! validate_params v (["cluster"; "namespace"; "az"; "env"] ++ k8sRootParams);
  root <-! oneStorageRoot v k8sRootParams "a k8s-graph request requires exactly one root kind, pod or node";
  scope <-! parse_scope cluster (vals v "namespace") root;
  Ok (mkK8sRequest w.1 w.2 scope (mkSelector az env cluster (vals v "namespace"))).
End parse.

(** ** The grid *)

(** pkg/kubegraph/align.go@7-7, [DefaultEndAlign] *)
Definition DefaultEndAlign : Z := 30000000000.

(** pkg/kubegraph/align.go, [AlignWindow] *)
Definition AlignWindow (start end_ : Time) (grid : Z) : Time * Time :=
  (if grid <=? 0 then (start, end_) else
   let rem := Z.rem (UnixNano end_) grid in
   let delta := if rem <? 0 then rem + grid else rem in
   (Add start (- delta), Add end_ (- delta)))%Z.

(** pkg/kubegraph/align.go, [resolveDuration] *)
Definition resolveDuration (v def : Z) : Z := (if v =? 0 then def else if v <? 0 then 0 else v)%Z.
(** pkg/kubegraph/align.go, [resolveInt] *)
Definition resolveInt (v def : Z) : Z := (if v =? 0 then def else if v <? 0 then 0 else v)%Z.

(** ** Alignment *)

Section align.
#[local] Open Scope Z_scope.

(** The nanoseconds of an instant since year 1. *)
Definition ns (t : Time) : Z := nanos * t_sec t + t_nsec t.

(** An instant within 146 billion years of year 1. *)
Definition sane (t : Time) : Prop := -2 ^ 62 < t_sec t < 2 ^ 62 ∧ 0 ≤ t_nsec t < nanos.

#[local] Ltac numbers := unfold sane, ns, nanos, max64 in *; change (2 ^ 62) with 4611686018427387904 in *;
  change (2 ^ 63) with 9223372036854775808 in *; change (2 ^ 64) with 18446744073709551616 in *.

Lemma wrap64_id z : -2 ^ 63 ≤ z < 2 ^ 63 → wrap64 z = z.
Proof. intros H. unfold wrap64. rewrite Z.mod_small; numbers; lia. Qed.

Lemma wrap64_range z : -2 ^ 63 ≤ wrap64 z < 2 ^ 63.
Proof. unfold wrap64. pose proof (Z.mod_pos_bound (z + 2 ^ 63) (2 ^ 64) ltac:(lia)). numbers. lia. Qed.

Lemma wrap64_add_wrap x y : wrap64 (nanos * wrap64 x + y) = wrap64 (nanos * x + y).
Proof.
  set (q := (x + 2 ^ 63) / 2 ^ 64). assert (wrap64 x = x + (- q) * 2 ^ 64) as ->.
  { unfold wrap64, q. rewrite Z.mod_eq by lia. ring. }
  unfold wrap64. f_equal.
  replace (nanos * (x + - q * 2 ^ 64) + y + 2 ^ 63) with (nanos * x + y + 2 ^ 63 + (- nanos * q) * 2 ^ 64) by ring.
  by rewrite Z.mod_add by lia.
Qed.

Lemma addSec_id s d : -2 ^ 63 ≤ s + d < 2 ^ 63 → addSec s d = s + d.
Proof.
  intros H. unfold addSec. rewrite wrap64_id by done.
  assert (Bool.eqb (s <? s + d) (0 <? d) = true) as ->; [|done].
  destruct (Z.ltb_spec s (s + d)), (Z.ltb_spec 0 d); cbn; lia.
Qed.

Lemma Add_ns t d : sane t → -2 ^ 63 ≤ d < 2 ^ 63 → ns (Add t d) = ns t + d ∧ 0 ≤ t_nsec (Add t d) < nanos.
Proof.
  intros [Hs Hn] Hd. unfold Add.
  assert (d = nanos * Z.quot d nanos + Z.rem d nanos ∧ - nanos < Z.rem d nanos < nanos ∧ -9300000000 < Z.quot d nanos < 9300000000) as (Hq & Hr & Hb).
  { numbers. Z.to_euclidean_division_equations. lia. }
  set (q := Z.quot d nanos) in *. set (r := Z.rem d nanos) in *. clearbody q r.
  destruct (Z.leb_spec nanos (t_nsec t + r)); [|destruct (Z.ltb_spec (t_nsec t + r) 0)];
    unfold ns; cbn [t_sec t_nsec]; rewrite addSec_id; numbers; lia.
Qed.

Lemma ns_inj t u : 0 ≤ t_nsec t < nanos → 0 ≤ t_nsec u < nanos → ns t = ns u → t = u.
Proof. destruct t as [s n], u as [s' n']. numbers. cbn. intros H1 H2 H. assert (s = s') as -> by lia. f_equal. lia. Qed.

(** [Time.Sub] is the exact difference, saturated. *)
Lemma Sub_clamp t u : sane t → sane u → Sub t u = Z.max (- 2 ^ 63) (Z.min max64 (ns t - ns u)).
Proof.
  intros Ht Hu. unfold Sub. set (d := wrap64 _).
  assert (d = wrap64 (ns t - ns u)) as Hd.
  { unfold d. rewrite wrap64_add_wrap. f_equal. numbers. lia. }
  pose proof (wrap64_range (ns t - ns u)) as Hrange. rewrite <-Hd in Hrange.
  destruct (Add_ns u d Hu Hrange) as [Hns Hwf].
  destruct (decide (-2 ^ 63 ≤ ns t - ns u < 2 ^ 63)) as [Hin|Hout].
  - rewrite wrap64_id in Hd by done.
    assert (Add u d = t) as -> by (apply ns_inj; [done|apply Ht|lia]).
    rewrite !Z.eqb_refl. cbn. numbers. lia.
  - destruct ((t_sec (Add u d) =? t_sec t) && (t_nsec (Add u d) =? t_nsec t)) eqn:E.
    { exfalso. apply andb_true_iff in E as [E1 E2]. apply Z.eqb_eq in E1, E2. apply Hout.
      assert (ns (Add u d) = ns t) by (unfold ns; congruence). lia. }
    assert (After u t = (ns t <? ns u)) as ->.
    { unfold After. destruct Ht as [Ht1 Ht2], Hu as [Hu1 Hu2].
      destruct (Z.ltb_spec (t_sec t) (t_sec u)), (Z.eqb_spec (t_sec u) (t_sec t)), (Z.ltb_spec (t_nsec t) (t_nsec u)), (Z.ltb_spec (ns t) (ns u));
        numbers; cbn; lia. }
    destruct (Z.ltb_spec (ns t) (ns u)); numbers; lia.
Qed.

(** The window of a request is shifted as a whole and by less than one grid step; its
    end lands on the grid. The exact instants are restricted only where Go's own
    [UnixNano] is defined: between the years 1678 and 2262. *)
Lemma AlignWindow_spec start end_ grid : 0 < grid < 2 ^ 63 → sane start → sane end_ →
  -2 ^ 63 ≤ ns end_ - nanos * unixToInternal < 2 ^ 63 →
  let w := AlignWindow start end_ grid in
  let delta := (ns end_ - nanos * unixToInternal) mod grid in
  ns w.1 = ns start - delta ∧ ns w.2 = ns end_ - delta ∧
  0 ≤ t_nsec w.1 < nanos ∧ 0 ≤ t_nsec w.2 < nanos.
Proof.
  intros Hg Hs He Hr w delta. unfold w, AlignWindow. rewrite (proj2 (Z.leb_gt grid 0)) by lia. cbv zeta.
  assert (UnixNano end_ = ns end_ - nanos * unixToInternal) as ->.
  { unfold UnixNano. replace (nanos * (t_sec end_ - unixToInternal) + t_nsec end_) with (ns end_ - nanos * unixToInternal) by (unfold ns; ring).
    by apply wrap64_id. }
  set (x := ns end_ - nanos * unixToInternal) in *.
  assert ((if Z.rem x grid <? 0 then Z.rem x grid + grid else Z.rem x grid) = delta) as ->.
  { unfold delta. pose proof (Z.quot_rem' x grid) as Hq. pose proof (Z.rem_bound_abs x grid ltac:(lia)) as Hb.
    destruct (Z.ltb_spec (Z.rem x grid) 0).
    - apply (Z.mod_unique x grid (Z.quot x grid - 1)); lia.
    - apply (Z.mod_unique x grid (Z.quot x grid)); lia. }
  pose proof (Z.mod_pos_bound x grid ltac:(lia)) as Hd. fold delta in Hd. cbn [fst snd].
  destruct (Add_ns start (- delta) Hs ltac:(lia)) as [-> H1], (Add_ns end_ (- delta) He ltac:(lia)) as [-> H2].
  split_and!; lia.
Qed.

(** An instant within 73 billion years of year 1. *)
Definition dated (t : Time) : Prop := -2 ^ 61 < t_sec t < 2 ^ 61 ∧ 0 ≤ t_nsec t < nanos.

Lemma dated_sane t : dated t → sane t.
Proof. unfold dated. change (2 ^ 61) with 2305843009213693952. numbers. lia. Qed.

Lemma dated_shift t u d : dated t → 0 ≤ d < 2 ^ 63 → ns u = ns t - d → 0 ≤ t_nsec u < nanos → sane u.
Proof. unfold dated. change (2 ^ 61) with 2305843009213693952. numbers. lia. Qed.

(** The grid step an instant lies in, counted from the Unix epoch. *)
Definition grid_step (t : Time) (grid : Z) : Z := (ns t - nanos * unixToInternal) / grid.

(** The instants of an aligned window depend on the grid step of the end and on the
    window's length alone. *)
Lemma AlignWindow_step start end_ start' end' grid :
  0 < grid < 2 ^ 63 → dated start → dated end_ → dated start' → dated end' →
  -2 ^ 63 ≤ ns end_ - nanos * unixToInternal < 2 ^ 63 → -2 ^ 63 ≤ ns end' - nanos * unixToInternal < 2 ^ 63 →
  grid_step end' grid = grid_step end_ grid → ns end' - ns start' = ns end_ - ns start →
  AlignWindow start' end' grid = AlignWindow start end_ grid.
Proof.
  intros Hg Hs He Hs' He' Hr Hr' Hstep Hlen.
  destruct (AlignWindow_spec start end_ grid Hg (dated_sane _ Hs) (dated_sane _ He) Hr) as (H1 & H2 & H3 & H4).
  destruct (AlignWindow_spec start' end' grid Hg (dated_sane _ Hs') (dated_sane _ He') Hr') as (K1 & K2 & K3 & K4).
  unfold grid_step in Hstep.
  set (x := ns end_ - nanos * unixToInternal) in *. set (x' := ns end' - nanos * unixToInternal) in *.
  pose proof (Z.div_mod x grid ltac:(lia)) as Hx. pose proof (Z.div_mod x' grid ltac:(lia)) as Hx'. rewrite Hstep in Hx'.
  destruct (AlignWindow start end_ grid) as [w1 w2], (AlignWindow start' end' grid) as [w1' w2']. cbn [fst snd] in *.
  unfold x, x' in *. f_equal; apply ns_inj; (done || lia).
Qed.

(** C22: An aligned window keeps its length, ends on the grid, less than one step before
    the end asked for; and requests for windows of one length that end within one
    step are the same window, so they render the same queries at the same instant.
    [Time]'s 64-bit seconds, the saturating [Time.Sub] and [Time.Add] and the
    wrapping [UnixNano] are the ones of package time; ends are restricted to the
    years [UnixNano] is defined for, 1678 to 2262. *)
Theorem aligned_window start end_ grid :
  0 < grid < 2 ^ 63 → dated start → dated end_ → -2 ^ 63 ≤ ns end_ - nanos * unixToInternal < 2 ^ 63 →
  let w := AlignWindow start end_ grid in
  Sub w.2 w.1 = Sub end_ start ∧ (ns w.2 - nanos * unixToInternal) mod grid = 0 ∧ 0 ≤ ns end_ - ns w.2 < grid ∧
  ∀ start' end', dated start' → dated end' → -2 ^ 63 ≤ ns end' - nanos * unixToInternal < 2 ^ 63 →
    grid_step end' grid = grid_step end_ grid → ns end' - ns start' = ns end_ - ns start →
    AlignWindow start' end' grid = w.
Proof.
  intros Hg Hs He Hr w. destruct (AlignWindow_spec start end_ grid Hg (dated_sane _ Hs) (dated_sane _ He) Hr) as (H1 & H2 & H3 & H4).
  fold w in H1, H2, H3, H4. set (x := ns end_ - nanos * unixToInternal) in *. set (delta := x mod grid) in *.
  pose proof (Z.mod_pos_bound x grid ltac:(lia)) as Hd. fold delta in Hd. pose proof (Z.div_mod x grid ltac:(lia)) as Hx. fold delta in Hx.
  assert (0 ≤ delta < 2 ^ 63) as Hd' by lia.
  split; [|split; [|split]].
  - rewrite (Sub_clamp end_ start), (Sub_clamp w.2 w.1); [rewrite H1, H2; do 2 f_equal; lia|..];
      [by apply (dated_shift end_ _ delta)|by apply (dated_shift start _ delta)|by apply dated_sane..].
  - replace (ns w.2 - nanos * unixToInternal) with (x / grid * grid) by (unfold x in *; lia). apply Z.mod_mul. lia.
  - lia.
  - intros start' end' Hs' He' Hr' Hstep Hlen. by apply AlignWindow_step.
Qed.

Lemma aligned_window_witness :
  AlignWindow (Unix 1700000017) (Unix 1700003617) DefaultEndAlign = (Unix 1700000010, Unix 1700003610) ∧
  AlignWindow (Unix 1700000011) (Unix 1700003611) DefaultEndAlign = AlignWindow (Unix 1700000017) (Unix 1700003617) DefaultEndAlign.
Proof.
  assert (∀ n, 1700000000 ≤ n < 1800000000 → dated (Unix n) ∧ -2 ^ 63 ≤ ns (Unix n) - nanos * unixToInternal < 2 ^ 63) as Hn.
  { intros n Hn. unfold dated, ns, Unix, nanos, unixToInternal. cbn [t_sec t_nsec]. rewrite wrap64_id by lia. lia. }
  split; [vm_compute; reflexivity|].
  apply (aligned_window (Unix 1700000017) (Unix 1700003617) DefaultEndAlign); try apply Hn; try lia.
  all: vm_compute; (reflexivity || split; congruence).
Defined.
End align.

(** ** What is accepted *)

(** A value that may reach an upstream query. *)
Definition proper_value (x : string) : Prop := x ≠ "" → (String.length x ≤ maxSelectorValueLen)%nat ∧ scan_utf8 x = Some false.

Lemma validateSelectorValues_spec param values :
  match validateSelectorValues param values with
  | Ok _ => ∀ x, x ∈ values → proper_value x
  | Err e => pe_Reason e = "invalid_scope" ∧ ∃ x, x ∈ values ∧ ¬ proper_value x
  end.
Proof.
  induction values as [|val rest IH]; cbn [validateSelectorValues]; [by intros x ?%elem_of_nil|].
  assert (proper_value val → match validateSelectorValues param rest with
    | Ok _ => ∀ x, x ∈ val :: rest → proper_value x
    | Err e => pe_Reason e = "invalid_scope" ∧ ∃ x, x ∈ val :: rest ∧ ¬ proper_value x end) as Hrest.
  { intros Hv. destruct (validateSelectorValues param rest) as [u|e].
    - by intros x [->|Hx]%elem_of_cons; [|apply IH].
    - destruct IH as [Hr (x & Hx & Hn)]. split; [done|]. exists x. split; [by right|done]. }
  assert (∀ reason msg, reason = "invalid_scope" → ¬ proper_value val →
    pe_Reason (mkParseError reason msg) = "invalid_scope" ∧ ∃ x, x ∈ val :: rest ∧ ¬ proper_value x) as Hbad.
  { intros reason msg -> Hn. split; [done|]. exists val. split; [by left|done]. }
  case_bool_decide as He; [by apply Hrest|].
  destruct (Nat.ltb_spec maxSelectorValueLen (String.length val)).
  { apply Hbad; [done|]. intros Hp. destruct (Hp He). lia. }
  destruct (scan_utf8 val) as [[]|] eqn:Eu; [| |].
  1, 3: apply Hbad; [done|]; intros Hp; destruct (Hp He); congruence.
  by apply Hrest.
Qed.

Lemma validate_params_spec v params :
  match validate_params v params with
  | Ok _ => ∀ p x, p ∈ params → x ∈ vals v p → proper_value x
  | Err e => pe_Reason e = "invalid_scope" ∧ ∃ p x, p ∈ params ∧ x ∈ vals v p ∧ ¬ proper_value x
  end.
Proof.
  induction params as [|p params IH]; cbn [validate_params]; [by intros p x ?%elem_of_nil|].
  pose proof (validateSelectorValues_spec p (vals v p)) as Hp. destruct (validateSelectorValues p (vals v p)) as [u|e]; cbn [rbind].
  - destruct (validate_params v params) as [u'|e].
    + intros p' x [->|Hin]%elem_of_cons Hx; [by apply Hp|by apply (IH p')].
    + destruct IH as [Hr (p' & x & Hin & Hx & Hn)]. split; [done|]. exists p', x. split; [by right|done].
  - destruct Hp as [Hr (x & Hx & Hn)]. split; [done|]. exists p, x. split; [by left|done].
Qed.

Lemma hasNonEmpty_spec values : hasNonEmpty values = true ↔ ∃ x, x ∈ values ∧ x ≠ "".
Proof. exact (hasValue_spec values). Qed.

Lemma elem_of_nonEmptySorted values x : x ∈ nonEmptySorted values ↔ x ≠ "" ∧ x ∈ values.
Proof. exact (elem_of_sortedNames values x). Qed.

Lemma nonEmptySorted_ext v1 v2 : (∀ x, x ≠ "" → x ∈ v1 ↔ x ∈ v2) → nonEmptySorted v1 = nonEmptySorted v2.
Proof.
  intros H. apply (sort_compact_ext String.compare). intros x. rewrite !list_elem_of_filter. specialize (H x). tauto.
Qed.

Lemma in_not_nil {A} (x : A) l : x ∈ l → l ≠ [].
Proof. intros Hx ->. by apply elem_of_nil in Hx. Qed.

(** Namespaced roots name at least one object, by two segments. *)
Lemma namespacedRefs_rooted x values param hint refs : x ∈ values → namespacedRefs values param hint = Ok refs →
  refs ≠ [] ∧ ∀ p, p ∈ refs → nr_Namespace p ≠ "" ∧ nr_Name p ≠ "".
Proof.
  intros Hx Hr. pose proof (namespacedRefs_spec values param hint) as Hs. rewrite Hr in Hs. destruct Hs as (H1 & _ & H3). split.
  - destruct (H1 x Hx) as (a & b & Ha & Hb & ->). apply (in_not_nil (mkNamespacedRef a b)), H3. done.
  - intros p Hp. apply H3 in Hp as ([? _] & [? _] & _). done.
Qed.

(** Qualified or bare, an aggregate or SVM root names at least one object. *)
Lemma ontapRoots_rooted x kind values r : x ∈ values → ontapRoots kind values = Ok r →
  roots_Kind r = kind ∧ (roots_Names r ≠ [] ∨ roots_Qualified r ≠ []).
Proof.
  intros Hx. unfold ontapRoots. pose proof (split_ontap_spec kind values) as Hs.
  destruct (split_ontap kind values) as [[bare q]|]; [|done]. intros [= <-]. split; [done|]. cbn [roots_Names roots_Qualified].
  destruct Hs as (H1 & H2 & H3). destruct (contains_byte "/"%char x) eqn:Ec.
  - destruct (H1 x Hx Ec) as (oc & name & Ho & Hn & ->).
    destruct (decide (name ∈ compact (sort_func String.compare bare))) as [Hin|Hout]; [left; by eapply in_not_nil|right].
    apply (in_not_nil (mkONTAPRef oc name)), list_elem_of_filter. split; [done|]. rewrite (elem_of_sort_compact ontap_cmp).
    by apply H3.
  - left. apply (in_not_nil x). rewrite (elem_of_sort_compact String.compare). by apply H2.
Qed.

(** A root kind with a value names at least one root; a pod or node root is one a
    Kubernetes-only build reads. *)
Lemma newStorageRoots_rooted kind values r : kind ∈ StorageRootKinds → hasNonEmpty values = true → newStorageRoots kind values = Ok r →
  roots_Kind r = kind ∧ Any r = true ∧ (kind = StorageRootPod ∨ kind = StorageRootNode → k8sRoots r = true).
Proof.
  intros Hk Hv. apply hasNonEmpty_spec in Hv as (x & Hx & Hne). unfold newStorageRoots.
  assert (kind ≠ "") as Hk0 by (intros ->; revert Hk; apply (bool_decide_unpack ("" ∉ StorageRootKinds)); by vm_compute).
  assert (x ∈ nonEmpty values) as Hxk by by apply elem_of_nonEmpty.
  rewrite (bool_decide_eq_false_2 (kind = "")), (bool_decide_eq_true_2 (kind ∈ StorageRootKinds)) by done. cbn [negb].
  rewrite bool_decide_eq_false_2 by (by apply (in_not_nil x)).
  assert (∀ r', roots_Kind r' = kind → roots_Names r' ≠ [] ∨ roots_Qualified r' ≠ [] ∨ roots_Pods r' ≠ [] ∨ roots_Claims r' ≠ [] → Any r' = true) as Hany.
  { intros r' Hk' Hn. unfold Any. rewrite Hk', bool_decide_eq_false_2 by done. cbn [negb andb]. rewrite !orb_true_iff, !negb_true_iff, !bool_decide_eq_false.
    tauto. }
  destruct (bool_decide_reflect (kind = StorageRootPod)) as [->|Hnpod].
  { unfold podRefs. destruct (namespacedRefs _ _ _) as [refs|] eqn:Er; [|done]. intros [= <-].
    destruct (namespacedRefs_rooted x _ _ _ _ Hxk Er) as [Hn Hall].
    assert (map (λ r, mkPodRef (nr_Namespace r) (nr_Name r)) refs ≠ []) as Hm by by destruct refs.
    split; [done|]. split; [apply Hany; cbn; auto|]. intros _. unfold k8sRoots. cbn [roots_Kind roots_Pods].
    rewrite bool_decide_eq_true_2, (bool_decide_eq_false_2 (map _ _ = [])), andb_true_r by done. apply forallb_forall. intros p Hp.
    apply list_elem_of_In, list_elem_of_fmap in Hp as (q & -> & Hq). destruct (Hall q Hq). cbn. by rewrite !bool_decide_eq_false_2. }
  destruct (bool_decide_reflect (kind = StorageRootPVC)) as [->|Hnpvc].
  { unfold claimRefs. destruct (namespacedRefs _ _ _) as [refs|] eqn:Er; [|done]. intros [= <-].
    destruct (namespacedRefs_rooted x _ _ _ _ Hxk Er) as [Hn _]. split; [done|]. split; [|by intros [?|?]].
    apply Hany; [done|]. right. right. right. by destruct refs. }
  destruct (_ || _) eqn:Eo.
  { intros Hr. destruct (ontapRoots_rooted x kind _ _ Hxk Hr) as [Hkind Hn]. split; [done|]. split; [apply Hany; [done|tauto]|].
    intros [->| ->]; by vm_compute in Eo. }
  intros [= <-]. assert (x ∈ compact (sort_func String.compare (nonEmpty values))) as Hxs by by rewrite (elem_of_sort_compact String.compare).
  split; [done|]. split; [apply Hany; [done|left; by apply (in_not_nil x)]|].
  intros [?| ->]; [done|]. unfold k8sRoots. cbn [roots_Kind roots_Names]. rewrite bool_decide_eq_false_2, bool_decide_eq_true_2 by done.
  rewrite bool_decide_eq_false_2; [done|]. apply (in_not_nil x). apply elem_of_sortedNames. done.
Qed.

(** ** The contract *)

Section contract.
Context (quote : string → string).

Lemma rbind_Ok {E A B} (m : result E A) (k : A → result E B) b : (x <-! m; k x) = Ok b → ∃ a, m = Ok a ∧ k a = Ok b.
Proof. destruct m as [a|e]; [by exists a|done]. Qed.

Lemma parseWindow_after v w : parseWindow quote v = Ok w → After w.2 w.1 = true.
Proof.
  unfold parseWindow. do 2 (case_bool_decide; [done|]). destruct (parseTimestamp quote (Get v "start")) as [s|]; [|done].
  destruct (parseTimestamp quote (Get v "end")) as [e|]; [|done]. destruct (After e s) eqn:Ea; [|done]. by intros [= <-].
Qed.

Lemma atLeastOne_ok param values got : atLeastOne param values = Ok got → got = nonEmptySorted values ∧ got ≠ [].
Proof. unfold atLeastOne. case_bool_decide; [done|]. by intros [= <-]. Qed.

Lemma oneStorageRoot_ok v params msg root : oneStorageRoot v params msg = Ok root →
  root.1 ∈ params ∧ root.2 = vals v root.1 ∧ hasNonEmpty root.2 = true.
Proof.
  unfold oneStorageRoot. destruct (filter _ params) as [|p [|]] eqn:Ef; try done. intros [= <-].
  assert (p ∈ filter (λ p, hasNonEmpty (vals v p) = true) params) as Hp by (rewrite Ef; by left).
  by apply list_elem_of_filter in Hp as [? ?].
Qed.

Lemma parse_scope_ok clusters namespaces root scope : root.1 ∈ StorageRootKinds → hasNonEmpty root.2 = true →
  parse_scope quote clusters namespaces root = Ok scope →
  roots_Kind (Roots scope) = root.1 ∧ Any (Roots scope) = true ∧
  (root.1 = StorageRootPod ∨ root.1 = StorageRootNode → k8sRoots (Roots scope) = true).
Proof.
  intros Hk Hv. unfold parse_scope, NewStorageScope. destruct (newStorageRoots root.1 root.2) as [r|] eqn:Er; [|done].
  intros [= <-]. cbn [Roots]. by apply (newStorageRoots_rooted root.1 root.2).
Qed.

Lemma parseIORollup_ok values r : parseIORollup quote values = Ok r → r ∈ [RollupLast; RollupMax; RollupAvg].
Proof.
  unfold parseIORollup. destruct (validateSelectorValues _ _); [|done]. cbn [rbind].
  destruct (nonEmptySorted values) as [|x [|]]; [intros [= <-]; by left| |done].
  unfold ParseRollup. destruct (_ || _); [intros [= <-]; by left|].
  destruct (bool_decide_reflect (x = RollupMax)) as [->|]; [intros [= <-]; right; by left|].
  destruct (bool_decide_reflect (x = RollupAvg)) as [->|]; [intros [= <-]; right; right; by left|done].
Qed.

(** The values of a selector. *)
Definition selector_values (s : Selector) : list string := sel_AZ s ++ sel_Env s ++ sel_Cluster s ++ sel_Namespace s.

Lemma selector_values_proper v (params : list string) az env cl ns :
  (∀ p x, p ∈ params → x ∈ vals v p → proper_value x) → Forall (λ p, p ∈ params) ["az"; "env"; "cluster"; "namespace"] →
  az ⊆ vals v "az" → env ⊆ vals v "env" → cl ⊆ vals v "cluster" → ns ⊆ vals v "namespace" →
  ∀ x, x ∈ selector_values (mkSelector az env cl ns) → proper_value x.
Proof.
  intros Hp Hin Haz Henv Hcl Hns x Hx. rewrite Forall_forall in Hin. unfold selector_values in Hx. cbn in Hx.
  rewrite !elem_of_app in Hx. destruct Hx as [Hx|[Hx|[Hx|Hx]]].
  - apply (Hp "az"); [apply Hin; by left|by apply Haz].
  - apply (Hp "env"); [apply Hin; right; by left|by apply Henv].
  - apply (Hp "cluster"); [apply Hin; do 2 right; by left|by apply Hcl].
  - apply (Hp "namespace"); [apply Hin; do 3 right; by left|by apply Hns].
Qed.

Lemma nonEmptySorted_subset values : nonEmptySorted values ⊆ values.
Proof. intros x Hx. by apply elem_of_nonEmptySorted in Hx as [_ ?]. Qed.

(** C21: A request that parses is one the build accepts: its window has a positive
    length, its zones and environments are named, every value of its selector is
    short, valid UTF-8 and free of control characters, and its root is one kind with
    at least one object. For the Kubernetes graph it is a pod or a node root the
    Kubernetes-only build reads, and for the storage graph the rollup is one the build
    knows: the guards of both builds pass, so neither answers the error it keeps for
    callers that skip the parser. *)
Theorem parsed_requests_accepted v :
  (∀ req, ParseStorageValues quote v = Ok req →
     After (sr_End req) (sr_Start req) = true ∧ Any (Roots (sr_Scope req)) = true ∧
     roots_Kind (Roots (sr_Scope req)) ∈ StorageRootKinds ∧ Valid (sr_IORollup req) = true ∧
     sel_AZ (sr_Selector req) ≠ [] ∧ sel_Env (sr_Selector req) ≠ [] ∧
     ∀ x, x ∈ selector_values (sr_Selector req) → proper_value x) ∧
  (∀ req, ParseK8sValues quote v = Ok req →
     After (kr_End req) (kr_Start req) = true ∧ k8sRoots (Roots (kr_Scope req)) = true ∧
     sel_Cluster (kr_Selector req) ≠ [] ∧ sel_AZ (kr_Selector req) ≠ [] ∧ sel_Env (kr_Selector req) ≠ [] ∧
     ∀ x, x ∈ selector_values (kr_Selector req) → proper_value x).
Proof.
  split; intros req.
  - unfold ParseStorageValues. intros (w & Hw%parseWindow_after & H)%rbind_Ok.
    apply rbind_Ok in H as (az & [-> Haz]%atLeastOne_ok & H). apply rbind_Ok in H as (env & [-> Henv]%atLeastOne_ok & H).
    apply rbind_Ok in H as ([] & Hval & H). apply rbind_Ok in H as (root & (Hk & Hrv & Hne)%oneStorageRoot_ok & H).
    apply rbind_Ok in H as (scope & Hscope & H). apply rbind_Ok in H as (rollup & Hroll%parseIORollup_ok & H).
    apply rbind_Ok in H as (delta & _ & [= <-]). cbn [sr_End sr_Start sr_Scope sr_IORollup sr_Selector sel_AZ sel_Env].
    assert (root.1 ∈ StorageRootKinds) as Hkind.
    { revert Hk. generalize root.1. apply (Forall_forall (λ k, k ∈ StorageRootKinds) storageRootParams). apply (bool_decide_unpack _). by vm_compute. }
    destruct (parse_scope_ok _ _ root scope Hkind Hne Hscope) as (Hkk & Hany & _).
    split_and!; [done|done|by rewrite Hkk| |done|done|].
    + revert Hroll. generalize rollup. apply (Forall_forall (λ r, Valid r = true)). repeat constructor.
    + intros x Hx. pose proof (validate_params_spec v ["cluster"; "namespace"; "az"; "env"; "ontap_cluster"; "ontap_node"; "node"; "aggr"; "svm"; "pod"; "pvc"; "pv"; "application"]) as Hp.
      rewrite Hval in Hp. revert x Hx. apply (selector_values_proper v _ _ _ _ _ Hp); try (apply nonEmptySorted_subset || reflexivity).
      apply (bool_decide_unpack _). by vm_compute.
  - unfold ParseK8sValues. intros (w & Hw%parseWindow_after & H)%rbind_Ok.
    apply rbind_Ok in H as (cl & [-> Hcl]%atLeastOne_ok & H).
    apply rbind_Ok in H as (az & [-> Haz]%atLeastOne_ok & H). apply rbind_Ok in H as (env & [-> Henv]%atLeastOne_ok & H).
    apply rbind_Ok in H as ([] & Hval & H). apply rbind_Ok in H as (root & (Hk & Hrv & Hne)%oneStorageRoot_ok & H).
    apply rbind_Ok in H as (scope & Hscope & [= <-]). cbn [kr_End kr_Start kr_Scope kr_Selector sel_AZ sel_Env sel_Cluster].
    assert (root.1 ∈ StorageRootKinds ∧ (root.1 = StorageRootPod ∨ root.1 = StorageRootNode)) as [Hkind Hpn].
    { revert Hk. generalize root.1. apply (Forall_forall (λ k, k ∈ StorageRootKinds ∧ (k = StorageRootPod ∨ k = StorageRootNode)) k8sRootParams).
      apply (bool_decide_unpack _). by vm_compute. }
    destruct (parse_scope_ok _ _ root scope Hkind Hne Hscope) as (_ & _ & Hk8s).
    split_and!; [done|by apply Hk8s|done|done|done|].
    intros x Hx. pose proof (validate_params_spec v (["cluster"; "namespace"; "az"; "env"] ++ k8sRootParams)) as Hp.
    rewrite Hval in Hp. revert x Hx. apply (selector_values_proper v _ _ _ _ _ Hp); try (apply nonEmptySorted_subset || reflexivity).
    apply (bool_decide_unpack _). by vm_compute.
Qed.
End contract.

(** ** Samples *)

(** Two spellings of one pod root and a bare namespace, in an order of a client's. *)
Definition sample_values : Values :=
  list_to_map [("start", ["1700000017"]); ("end", ["2023-11-14T22:18:37.5Z"]); ("cluster", ["c2"; ""; "c1"; "c2"]); ("az", ["z1"]);
    ("env", ["e1"; "e1"]); ("namespace", [""]); ("pod", ["shop/a"; ""; "shop/a"])].

Lemma parsed_requests_accepted_witness :
  ∃ req, ParseK8sValues (λ s, s) sample_values = Ok req ∧ sel_Cluster (kr_Selector req) = ["c1"; "c2"] ∧
    roots_Pods (Roots (kr_Scope req)) = [mkPodRef "shop" "a"] ∧ k8sRoots (Roots (kr_Scope req)) = true.
Proof.
  destruct (ParseK8sValues (λ s, s) sample_values) as [req|] eqn:E; [|by vm_compute in E]. exists req.
  split; [done|]. split; [by revert E; vm_compute; intros [= <-]|]. split; [by revert E; vm_compute; intros [= <-]|].
  exact (proj1 (proj2 (proj2 (parsed_requests_accepted (λ s, s) sample_values) req E))).
Defined.

Example parse_window_sample : parseWindow (λ s, s) sample_values =
  Ok (Unix 1700000017, mkTime (t_sec (Unix 1700000317)) 500000000).
Proof. vm_compute. reflexivity. Qed.
Example parse_offset : parse_rfc3339 "2023-11-14T23:18:37+01:00" = Some (Unix 1700000317) ∧
  parse_rfc3339 "2023-02-29T00:00:00Z" = None ∧ parse_rfc3339 "2023-11-14 22:18:37Z" = None.
Proof. vm_compute. done. Qed.
Example two_roots : ParseStorageValues (λ s, s) (<["aggr" := ["a1"]]> (sample_values : gmap string (list string))) =
  Err (mkParseError "invalid_scope" "exactly one root kind is allowed, got aggr and pod").
Proof. vm_compute. reflexivity. Qed.
