(* ===== verification/StorageReads.v ===== *)
(** pkg/build/podseed.go, nodeseed.go, claimseed.go, expansion.go, flowless.go,
    qosscope.go, appscope.go, appmetadata_scope.go: the seeds of a storage build
    and the reads that expand them. A read is a function from what has landed to
    what lands next; it fails as a whole when one of its queries fails, the scoped
    QoS read of a build that fails open excepted. Panic recovery, logs and the
    per-family tallies are left out. *)

From S2P Require Import Prelude GoStrings Selector Queries ScopeChunks HarvestScope PairScope.
From S2P Require Import ScopedRender AppMetadata Fanout StorageScope BuildIdentity VolumeKey.
From S2P Require Import TopologyTypes.
From S2P Require Import TopologyOwners NetApp NameScopes ScopedReads ReadPlan K8sRead.
From S2P Require Import VolumeLabelScope.

#[local] Open Scope ksg_scope.

(** ** Names from rows *)

(** pkg/build/flowless.go, [controllerNames] *)
Definition controllerNames (vecs : list (list Sample)) : list string :=
  compact (sort_func String.compare (filter (λ n, n ≠ "") (map row_node (mjoin vecs)))).

(** pkg/build/appscope.go, [namesFromTracking] *)
Definition namesFromTracking (vec : list Sample) (label : string) (apps : list string) : list string :=
  sortedNames (omap (λ s,
    let app := argoAppName (label_of (s_Metric s) TrackingIDLabel) in
    if bool_decide (app = "") || negb (bool_decide (app ∈ apps)) || bool_decide (label_of (s_Metric s) label = "") then None
    else Some (label_of (s_Metric s) label)) vec).

(** pkg/build/appscope.go, [filteredNames] *)
Definition filteredNames (vec : list Sample) (label : string) (keep : Metric → bool) : list string :=
  sortedNames (filter (λ n, n ≠ "") (map (λ s, label_of (s_Metric s) label) (filter (λ s, keep (s_Metric s) = true) vec))).

(** pkg/build/expansion.go, [annotatedClaimKeys] *)
Definition annotatedClaimKeys (rows : list Sample) (rs : list string) (lk : LabelKeys) : gset claimKey :=
  let apps := filter (λ r, r ≠ "") rs in
  list_to_set (omap (λ s,
    let app := argoAppName (label_of (s_Metric s) TrackingIDLabel) in
    let claim := label_of (s_Metric s) ClaimLabel in
    if bool_decide (app = "") || negb (bool_decide (app ∈ apps)) || bool_decide (claim = "") then None
    else Some (claimKeyOf (s_Metric s) lk claim)) rows).

(** pkg/build/expansion.go, [uncoveredAggrPairs] *)
Definition uncoveredAggrPairs (rows : list Sample) (r : planRoots) : FilerNames :=
  compactPairs (foldl (λ m s,
    let cluster := row_filer s in
    let aggr := row_aggr s in
    if bool_decide (cluster = "") || bool_decide (aggr = "") then m
    else if bool_decide (cluster ∈ volumeClusters r) || bool_decide (aggr ∈ volumeAggrs r)
            || bool_decide (aggr ∈ default [] (volumeAggrPairs r !! cluster)) then m
    else file_name m cluster aggr) ∅ rows).

(** pkg/build/expansion.go, [uncoveredControllerPairs] *)
Definition uncoveredControllerPairs (rows : list (list Sample)) (r : planRoots) (alreadyByName : list string) : FilerNames :=
  compactPairs (foldl (λ m s,
    let cluster := row_filer s in
    let node := row_node s in
    if bool_decide (cluster = "") || bool_decide (node = "") then m
    else if bool_decide (cluster ∈ volumeClusters r) then m
    else if bool_decide (node ∈ alreadyByName) then m
    else file_name m cluster node) ∅ (mjoin rows)).

(** pkg/build/expansion.go, [svmPairsOfMatched]: an empty map stands for nil. *)
Definition svmPairsOfMatched (volumeLabels pvcInfo : list Sample) (rw : VolumeKeyRewriter) : FilerNames :=
  if bool_decide (volumeLabels = []) || bool_decide (pvcInfo = []) then ∅ else
  match claimVolumeMatcher pvcInfo rw with
  | None => ∅
  | Some (_, matcher) =>
      compactPairs (foldl (λ m s,
        let cluster := row_filer s in
        let svm := label_of (s_Metric s) "svm" in
        if negb (vm_any matcher (label_of (s_Metric s) HarvestVolumeLabel)) then m
        else if bool_decide (cluster = "") || bool_decide (svm = "") then m
        else file_name m cluster svm) ∅ volumeLabels)
  end.

(** pkg/build/appmetadata_scope.go, [appMetadataPodKeys] *)
Definition appMetadataPodKeys (rows : list Sample) (src : AppMetadataSource) (rs : list string) (lk : LabelKeys)
  : list podSeriesKey :=
  compact (sort_func comparePodSeriesKeys (omap (λ s,
    let m := s_Metric s in
    if negb (bool_decide (label_of m (am_App src) ∈ rs)) || bool_decide (label_of m (am_Pod src) = "") then None
    else Some (mkPodSeriesKey (label_of m (key_AZ lk)) (label_of m (key_Env lk)) (bucketCluster (label_of m "cluster"))
                 (label_of m (am_Namespace src)) (label_of m (am_Pod src)))) rows)).

(** pkg/build/appmetadata_scope.go, [unionPodSeriesKeys] *)
Definition unionPodSeriesKeys (a b : list podSeriesKey) : list podSeriesKey :=
  compact (sort_func comparePodSeriesKeys (a ++ b)).

(** pkg/build/appmetadata_scope.go, [appMetadataScopes] *)
Definition appMetadataScopes (pods claims : list Sample) : list (string * list string) :=
  appMetadataScopesOf (appendClusterNamespaces (appendClusterNamespaces [] pods) claims).

(** pkg/build/flowless.go, [harvestDst]: whether the family has a slot of its own. *)
Definition harvestDst (q : Query) : bool := bool_decide (q ∈ AggrPairQueries ++ NetAppNodePairQueries ++ PolicyPairQueries).

(** pkg/build/qosscope.go, [deltaBudget] *)
Definition deltaBudget (budget : Z) : Z := if (budget <=? 0)%Z then budget else Z.max (budget / 2) 1.

(** An error of the build as a read returns it. *)
Definition build_error (e : Error) : readError := mkReadError (Error_Error e) (Some e) false false None.

Section reads.
Context `{Querier} `{Scheduler} `{MetricFingerprint}.
Context (window : Z) (opts : Options) (sel : Selector).

#[local] Abbreviation keys := (opt_LabelKeys opts).
#[local] Abbreviation lk := (OrDefault keys).
#[local] Abbreviation batch := (qosScopeBatchBytes opts).

(** ** The seeds *)

(** pkg/build/podseed.go, [readPodSeed] *)
Definition readPodSeed (plan : topologyPlan) (v : landed) : result readError landed :=
  rows <-! instantAll QPVCBindings (podSeed plan);
  readMountersOf window opts sel (keepRootBindings rows (pods (roots plan))) v.

(** pkg/build/nodeseed.go, [readNodeSeed] *)
Definition readNodeSeed (plan : topologyPlan) (v : landed) : result readError landed :=
  onNode <-! instantAll QPodInfo (nodeSeed plan);
  let onNodeRefs := podRefsOf onNode in
  if bool_decide (onNodeRefs = []) then Ok v else
  incarnation <-! queryPodsByNamespace window opts sel QPodInfo onNodeRefs;
  let onRoot := podsNewestOn incarnation (nodeRoots (roots plan)) lk in
  if bool_decide (onRoot = ∅) then Ok v else
  byPod <-! queryPodsByNamespace window opts sel QPVCBindings (podRefsOfKeys (elements onRoot));
  readMountersOf window opts sel (keepPodBindings byPod onRoot lk) v.

(** One group of the claim seed. *)
Definition claim_seed_family (g : claimSeedGroup) : scopedFamily :=
  mkScopedFamily QPVCInfo (csg_names g) (Some (csg_render g window keys sel)) 0 (csg_reserve g keys sel).

(** pkg/build/claimscope.go, [issueClaimKeyed]: families paired with what they
    keep; one with an empty scope is not issued. *)
Definition issueClaimKeyed (fams : list (scopedFamily * (Metric → bool))) : result readError (list (list Sample)) :=
  let scoped := filter (λ f : scopedFamily * (Metric → bool), sf_scope f.1 ≠ []) fams in
  out <-! issueScopedFamilies window opts sel (map fst scoped);
  Ok (map (λ fo, keepRows (default [] fo.2) fo.1.2) (zip scoped out)).

(** pkg/build/claimseed.go, [readClaimSeed] *)
Definition readClaimSeed (plan : topologyPlan) (v : landed) : result readError landed :=
  let groups := claimSeedGroups (roots plan) in
  if bool_decide (groups = []) then Ok v else
  parts <-! issueClaimKeyed (map (λ g, (claim_seed_family g, csg_keep g)) groups);
  Ok (<[QPVCInfo := mjoin parts]> v).

(** ** The claims of a workload root *)

(** pkg/build/expansion.go, [readWorkloadClaims]: once the bindings, and for an
    application root the recovered applications, have landed. *)
Definition readWorkloadClaims (plan : topologyPlan) (v : landed) : result readError landed :=
  let tracked := annotatedClaimKeys (rows_of v QPVCAnnotations) (applicationRoots (roots plan)) lk
                 ∪ trackedClaimKeys opts (rows_of v QPVCBindings) in
  if bool_decide (tracked = ∅) then Ok v else
  issueClaimFamiliesByNamespace window opts sel
    [QPVCInfo; QPVCAnnotations; QKubeletVolumeUsedBytes; QKubeletVolumeCapacityBytes] tracked v.

(** ** Harvest families *)

(** One family of a read restricted on names or on filers. *)
Definition harvest_family (render : Query → Z → LabelKeys → Selector → list string → option string)
  (values : list string) (q : Query) : scopedFamily :=
  mkScopedFamily q values (Some (render q window keys sel)) 0 (RequestMatcherCost QAggrStatus keys sel).

(** pkg/build/flowless.go, [issueHarvestScoped] *)
Definition issueHarvestScoped (render : Query → Z → LabelKeys → Selector → list string → option string)
  (families : list Query) (values : list string) (v : landed) : result readError landed :=
  if bool_decide (values = []) then Ok v else
  issueInto window opts sel (map (harvest_family render values) (filter (λ q, harvestDst q = true) families)) v.

(** pkg/build/flowless.go, [issueHarvestByName] *)
Definition issueHarvestByName : list Query → list string → landed → result readError landed :=
  issueHarvestScoped RenderHarvestByName.

(** pkg/build/flowless.go, [issueHarvestByCluster] *)
Definition issueHarvestByCluster : list Query → list string → landed → result readError landed :=
  issueHarvestScoped RenderHarvestByCluster.

(** The answers of a family's chunks; a chunk with no rendering is not issued. *)
Definition pair_map_parts (byCluster : FilerNames) (q : Query) : list (result readError (list Sample)) :=
  map (λ c, match RenderHarvestPair q window keys sel (chunk_Cluster c) (chunk_Names c) with
            | None => Ok []
            | Some text => match Instant q text with
                           | Ok rows => Ok rows
                           | Err e => Err (default e (wrapQueryError q (Some e)))
                           end
            end) (ChunkHarvestPairs q keys sel byCluster batch).

(** pkg/build/expansion.go, [issueHarvestPairMap]: merged into what a flowless
    read landed. *)
Definition issueHarvestPairMap (families : list Query) (byCluster : FilerNames) (v : landed) : result readError landed :=
  if bool_decide (byCluster = ∅) then Ok v else
  let fams := filter (λ q, harvestDst q = true ∧ pair_map_parts byCluster q ≠ []) families in
  wave (mjoin (map (pair_map_parts byCluster) fams))
    (foldl (λ v q, <[q := mergeVolumeLabels (rows_of v q)
                            (foldl mergeVolumeLabels [] (map answered (pair_map_parts byCluster q)))]> v) v fams).

(** pkg/build/flowless.go, [readFlowlessHarvest]: the controllers of an aggregate
    root wait on the volume labels. *)
Definition readFlowlessHarvest (plan : topologyPlan) (v : landed) : result readError landed :=
  let r := roots plan in
  if bool_decide (kind r = StorageRootAggr) then
    v <-! issueHarvestByName AggrPairQueries (volumeAggrs r) v;
    v <-! issueHarvestPairMap AggrPairQueries (volumeAggrPairs r) v;
    issueHarvestByName NetAppNodePairQueries
      (controllerNames [rows_of v QAggrStatus; rows_of v QAggrSpaceUsed; rows_of v QAggrSpaceTotal; rows_of v QVolumeLabels]) v
  else if bool_decide (kind r = StorageRootONTAPNode) then issueHarvestByName NetAppNodePairQueries (volumeNodes r) v
  else if bool_decide (kind r = StorageRootONTAPCluster) then
    issueHarvestByCluster (AggrPairQueries ++ NetAppNodePairQueries) (volumeClusters r) v
  else Ok v.

(** pkg/build/expansion.go, [controllersAlreadyRead] *)
Definition controllersAlreadyRead (r : planRoots) (v : landed) : list string :=
  if negb (flowlessControllers r) then []
  else if bool_decide (kind r = StorageRootONTAPNode) then filter (λ n, n ≠ "") (volumeNodes r)
  else if bool_decide (kind r = StorageRootAggr) then
    controllerNames [rows_of v QAggrStatus; rows_of v QAggrSpaceUsed; rows_of v QAggrSpaceTotal; rows_of v QVolumeLabels]
  else [].

(** pkg/build/expansion.go, [readReachedHarvest]: the policies beside the
    aggregates and their controllers; they write disjoint slots. *)
Definition readReachedHarvest (rw : VolumeKeyRewriter) (plan : topologyPlan) (v : landed) : result readError landed :=
  let r := roots plan in
  let already := controllersAlreadyRead r v in
  let policies := issueHarvestPairMap PolicyPairQueries
                    (svmPairsOfMatched (rows_of v QVolumeLabels) (rows_of v QPVCInfo) rw) v in
  let chain v :=
    v <-! issueHarvestPairMap AggrPairQueries (uncoveredAggrPairs (rows_of v QVolumeLabels) r) v;
    issueHarvestPairMap NetAppNodePairQueries
      (uncoveredControllerPairs [rows_of v QVolumeLabels; rows_of v QAggrStatus; rows_of v QAggrSpaceUsed; rows_of v QAggrSpaceTotal]
         r already) v in
  match policies, chain v with
  | Ok v', Ok _ => chain v'
  | _, out => parallel (err_of policies ++ err_of out) v
  end.

(** ** The scoped QoS read (qosscope.go) *)

(** pkg/build/qosscope.go, [runQoSChunk]: [gone], the caller's context is done. *)
Definition runQoSChunk (gone failClosed : bool) (name : Query) (rendered : option string) : result readError (list Sample) :=
  match rendered with
  | None => Ok []
  | Some text =>
      match Instant name text with
      | Ok rows => Ok rows
      | Err e => if failClosed then Err (default e (wrapQueryError name (Some e)))
                 else if gone then Err e else Ok []
      end
  end.

(** pkg/build/qosscope.go, [readScopedQoS]: the measurements land in the slots of
    their families; the second component holds the deltas, none unless asked for. *)
Definition readScopedQoS (gone failClosed : bool) (rollup : Rollup) (delta : bool) (rw : VolumeKeyRewriter) (v : landed)
  : result readError (landed * landed) :=
  let scope := qosVolumeScope (rows_of v QPVCInfo) (rows_of v QVolumeLabels) rw in
  if bool_decide (scope = []) then Ok (v, ∅) else
  let run (render : Query → list string → option string) chunks :=
    map (λ q, map (λ c, runQoSChunk gone failClosed q (render q c)) chunks) QoSWorkloadQueries in
  let parts := run (λ q c, RenderQoSVolumeScopedRollup q window keys sel c rollup) (ChunkQoSVolumeScope scope batch) in
  let deltas := if delta
                then run (λ q c, RenderQoSVolumeScopedDelta q window keys sel c) (ChunkQoSVolumeScope scope (deltaBudget batch))
                else [] in
  let merged ps := map (λ rs, mjoin (map answered rs)) ps in
  wave (mjoin deltas ++ mjoin parts)
    (land_all v QoSWorkloadQueries (merged parts), land_all ∅ QoSWorkloadQueries (merged deltas)).

(** ** Applications (appscope.go, appmetadata_scope.go) *)

(** pkg/build/appmetadata_scope.go, [appMetadataSeedActive] *)
Definition appMetadataSeedActive : option AppMetadataSource :=
  match opt_AppMetadata opts with
  | Some src => if bool_decide (am_App src = "") || negb appMetadataServed then None else Some src
  | None => None
  end.

(** pkg/build/appmetadata_scope.go, [appMetadataRootChunks] *)
Definition appMetadataRootChunks (src : AppMetadataSource) (values : list string) : list (list string) :=
  ChunkScopeWithOverhead values
    (Z.max (batch - appMetadataRestrictionReserve (am_App src) (AppMetadataMatcherCost src keys sel)) 1) 0.

(** pkg/build/appmetadata_scope.go, [appMetadataSeedCap] *)
Definition appMetadataSeedCap (rs : list string) : option Error :=
  match appMetadataSeedActive with
  | Some src => if negb (bool_decide (rs = [])) && (maxApplicationRootChunks <? llen (appMetadataRootChunks src rs))%Z
                then Some (NewError ReasonInvalidScope RootScopeCapMessage None) else None
  | None => None
  end.

(** pkg/build/appmetadata_scope.go, [rejectWideAppMetadataSeed] *)
Definition rejectWideAppMetadataSeed (plan : topologyPlan) : option Error :=
  if negb (bool_decide (kind (roots plan) = StorageRootApplication)) || negb (some_of (applicationRoots (roots plan))) then None
  else appMetadataSeedCap (applicationRoots (roots plan)).

(** pkg/build/appmetadata_scope.go, [readScopedAppMetadata]: once the pods and the
    claim info have landed. *)
Definition readScopedAppMetadata (v : landed) : result readError landed :=
  match appMetadataActive opts with
  | None => Ok v
  | Some src =>
      let scopes := appMetadataScopes (rows_of v QPodInfo) (rows_of v QPVCInfo) in
      if bool_decide (scopes = []) then Ok v else
      rows <-! issueAppMetadata window opts sel src scopes;
      Ok (<[QAppMetadata := rows]> v)
  end.

(** pkg/build/appscope.go, [annotationRecoveryFamilies]: the family, the kind it
    annotates and the label that names the controller. *)
Definition annotationRecoveryFamilies : list (Query * string * string) :=
  [(QDeploymentAnnotations, "Deployment", "deployment"); (QStatefulSetAnnotations, "StatefulSet", "statefulset");
   (QDaemonSetAnnotations, "DaemonSet", "daemonset"); (QCronJobAnnotations, "CronJob", "cronjob");
   (QReplicaSetAnnotations, "ReplicaSet", "replicaset"); (QJobAnnotations, "Job", "job_name")].

(** A family restricted on the root Applications by its tracking id. *)
Definition tracking_family (rs : list string) (q : Query) : scopedFamily :=
  mkScopedFamily q rs (Some (RenderTrackingIDScoped q window keys sel)) 0 TrackingIDWrapperCost.

(** A family restricted on its owners of one kind. *)
Definition owner_family (q : Query) (kind : string) (names : list string) : scopedFamily :=
  mkScopedFamily q names (Some (RenderOwnerScoped q window keys sel kind)) 0 0.

(** The metric seed. *)
Definition app_seed_family (rs : list string) (src : AppMetadataSource) : scopedFamily :=
  mkScopedFamily QAppMetadata rs (Some (RenderAppMetadataByApp src window keys sel)) 0
    (appMetadataRestrictionReserve (am_App src) (AppMetadataMatcherCost src keys sel)).

(** What stage 1 of the recovery read: the controllers of each kind that carry a
    root Application, the rows of the metric seed. *)
Record recovered1 := mkRecovered1 { r1_names : string → list string; r1_seeded : list Sample; r1_v : landed }.

(** Stage 1 of [readScopedApplications]: the annotation families, the claim
    annotations and the metric seed. *)
Definition recover_controllers (rs : list string) (v : landed) : result readError recovered1 :=
  let fams := annotationRecoveryFamilies in
  out <-! issueScopedFamilies window opts sel
            (map (λ f, tracking_family rs f.1.1) fams ++ [tracking_family rs QPVCAnnotations] ++
             match appMetadataSeedActive with Some src => [app_seed_family rs src] | None => [] end);
  let rows i := default [] (mjoin (out !! i)) in
  let names k := mjoin (imap (λ i f, if bool_decide (f.1.2 = k) then namesFromTracking (rows i) f.2 rs else []) fams) in
  Ok (mkRecovered1 names (rows (S (length fams))) (land v QPVCAnnotations (mjoin (out !! length fams)))).

(** Stage 2: the ReplicaSets of the Deployments and the Jobs of the CronJobs. *)
Definition recover_hops (names : string → list string) : result readError (list Sample * list Sample) :=
  out <-! issueScopedFamilies window opts sel
            [owner_family QReplicaSetOwner "Deployment" (names "Deployment"); owner_family QJobOwner "CronJob" (names "CronJob")];
  Ok (default [] (mjoin (out !! 0%nat)), default [] (mjoin (out !! 1%nat))).

(** The kinds stage 3 reads the pods of. *)
Definition recovery_kinds : list string := ["ReplicaSet"; "Job"; "StatefulSet"; "DaemonSet"; "Deployment"; "CronJob"].

(** The controllers of a kind, those of the hops included. *)
Definition kind_names (names : string → list string) (rs job : list Sample) (k : string) : list string :=
  if bool_decide (k = "ReplicaSet") then
    sortedNames (names k ++ filteredNames rs "replicaset" (λ m, bool_decide (label_of m "owner_kind" = "Deployment")))
  else if bool_decide (k = "Job") then sortedNames (names k ++ filteredNames job "job_name" (λ _, true))
  else names k.

(** Stage 3: the pods those controllers own. *)
Definition recover_pods (kinds : string → list string) : result readError (list Sample) :=
  out <-! issueScopedFamilies window opts sel (map (λ k, owner_family QPodOwner k (kinds k)) recovery_kinds);
  Ok (mjoin (map (default []) out)).

(** pkg/build/appscope.go, [readApplicationBindings] *)
Definition readApplicationBindings (ks : list podSeriesKey) (rs : list string) (v : landed) : result readError landed :=
  let ann := annotatedClaimKeys (rows_of v QPVCAnnotations) rs lk in
  tracked <-! (if bool_decide (ks = []) then Ok [] else
               byPod <-! queryPodsByNamespace window opts sel QPVCBindings (podRefsOfKeys ks);
               Ok (keepPodBindings byPod (list_to_set ks) lk));
  let claims := ann ∪ trackedClaimKeys opts tracked in
  if bool_decide (claims = ∅) then Ok (<[QPVCBindings := tracked]> v)
  else issueClaimFamiliesByNamespace window opts sel [QPVCBindings] claims v.

(** pkg/build/appscope.go, [readScopedApplications]: the recovered pods and what
    landed. *)
Definition readScopedApplications (roots : list string) (v : landed) : result readError (list podSeriesKey * landed) :=
  let rs := sortedNames roots in
  if bool_decide (rs = []) then Ok ([], v) else
  if (maxApplicationRootChunks <? llen (applicationRootChunks rs batch))%Z
  then Err (build_error (NewError ReasonInvalidScope RootScopeCapMessage None)) else
  st <-! recover_controllers rs v;
  hops <-! recover_hops (r1_names st);
  owned <-! recover_pods (kind_names (r1_names st) hops.1 hops.2);
  let ks := podKeysOf owned lk in
  let ks := match appMetadataSeedActive with
            | Some src => unionPodSeriesKeys ks (appMetadataPodKeys (r1_seeded st) src rs lk)
            | None => ks
            end in
  v <-! readApplicationBindings ks rs (r1_v st);
  Ok (ks, v).
End reads.
