(* ===== verification/ReadTopology.v ===== *)
(** pkg/build/topology_read.go, build.go, build_k8s.go: the fan-out of one read.
    Every leg of the read is a function from what has landed; a signal orders the
    legs that wait on each other, and the legs that do not write disjoint slots.
    The errors of all legs are collected, and which one the group reports is the
    scheduler's choice. A leg whose prerequisite failed is not run (in the code it
    may still start before the group's context is cancelled; the read fails either
    way). Panic recovery, logs, the per-family tallies and self-metrics are left
    out. *)

From S2P Require Import Prelude GoStrings Selector Queries ScopeChunks HarvestScope PairScope.
From S2P Require Import ScopedRender AppMetadata Fanout StorageScope BuildIdentity VolumeKey.
From S2P Require Import TopologyTypes.
From S2P Require Import GraphNode GraphEdge Graph NetApp Topology NameScopes ScopedReads.
From S2P Require Import ReadPlan K8sRead VolumeLabelScope.
From S2P Require Import VolumeLabelProps StorageReads Build.

#[local] Open Scope ksg_scope.

(** ** The vectors *)

(** The slots as the parse reads them. A concatenation of no rows is nil, so a
    by-reference read of the metric that matched nothing is no read. *)
Definition vectors_of (opts : Options) (rw : VolumeKeyRewriter) (plan : topologyPlan) (v delta : landed) (degraded : bool)
  : topologyVectors := {|
  v_Pod := rows_of v QPodInfo; v_Node := rows_of v QNodeInfo; v_Addr := rows_of v QNodeAddresses;
  v_PVC := rows_of v QPVCBindings; v_NodeLabels := rows_of v QNodeLabels; v_Service := rows_of v QServiceInfo;
  v_EpEndpoints := rows_of v QEndpointSliceEndpoints; v_EpLabels := rows_of v QEndpointSliceLabels;
  v_PodOwner := rows_of v QPodOwner; v_ReplicaSetOwner := rows_of v QReplicaSetOwner; v_JobOwner := rows_of v QJobOwner;
  v_PVCInfo := rows_of v QPVCInfo; v_PodContainerInfo := rows_of v QPodContainerInfo;
  v_NodeStatus := rows_of v QNodeStatusCondition; v_ServiceAnnotations := rows_of v QServiceAnnotations;
  v_PVCAnnotations := rows_of v QPVCAnnotations; v_DeploymentAnnotations := rows_of v QDeploymentAnnotations;
  v_StatefulSetAnnotations := rows_of v QStatefulSetAnnotations; v_DaemonSetAnnotations := rows_of v QDaemonSetAnnotations;
  v_ReplicaSetAnnotations := rows_of v QReplicaSetAnnotations; v_JobAnnotations := rows_of v QJobAnnotations;
  v_CronJobAnnotations := rows_of v QCronJobAnnotations;
  v_AppMetadata := match v !! QAppMetadata with
                   | Some [] => if byReference (roots plan) then None else Some []
                   | o => o
                   end;
  v_AppMetadataSource := opt_AppMetadata opts; v_JobAnnotationsDegraded := degraded; v_VolumeKey := Some rw;
  v_VolumeLabelsRestricted := rootedClaims plan; v_MaterialiseUnboundClaims := claimSeeded (roots plan);
  v_VolumeLabels := rows_of v QVolumeLabels;
  v_QoSReadOps := rows_of v QQoSReadOps; v_QoSWriteOps := rows_of v QQoSWriteOps;
  v_QoSReadLatency := rows_of v QQoSReadLatency; v_QoSWriteLatency := rows_of v QQoSWriteLatency;
  v_QoSReadData := rows_of v QQoSReadData; v_QoSWriteData := rows_of v QQoSWriteData;
  v_QoSReadOpsDelta := rows_of delta QQoSReadOps; v_QoSWriteOpsDelta := rows_of delta QQoSWriteOps;
  v_QoSReadLatencyDelta := rows_of delta QQoSReadLatency; v_QoSWriteLatencyDelta := rows_of delta QQoSWriteLatency;
  v_QoSReadDataDelta := rows_of delta QQoSReadData; v_QoSWriteDataDelta := rows_of delta QQoSWriteData;
  v_QoSPolicyMaxIOPS := rows_of v QQoSPolicyFixedMaxIOPS; v_QoSPolicyMaxMBps := rows_of v QQoSPolicyFixedMaxMBps;
  v_AggrStatus := rows_of v QAggrStatus; v_AggrSpaceUsed := rows_of v QAggrSpaceUsed;
  v_AggrSpaceTotal := rows_of v QAggrSpaceTotal; v_NetAppNodeStatus := rows_of v QNetAppNodeStatus;
  v_NetAppNodeLabels := rows_of v QNetAppNodeLabels; v_NetAppNodeCPUBusy := rows_of v QNetAppNodeCPUBusy;
  v_NetAppNodeTotalOps := rows_of v QNetAppNodeTotalOps; v_NetAppNodeTotalLatency := rows_of v QNetAppNodeTotalLatency;
  v_NetAppNodeTotalData := rows_of v QNetAppNodeTotalData; v_KubeletVolumeUsed := rows_of v QKubeletVolumeUsedBytes;
  v_KubeletVolumeCapacity := rows_of v QKubeletVolumeCapacityBytes; v_Alerts := rows_of v QAlerts |}.

(** ** The fan-out *)

(** pkg/build/topology_read.go@242-247, [readTopology]: the channels its legs wait on. *)
Inductive signal := SigVolumeLabels | SigPVCInfo | SigBindings | SigAnnotations | SigApp | SigFinal | SigFlowless | SigPods.

#[export] Instance signal_eq_dec : EqDecision signal.
Proof. solve_decision. Defined.

(** What a read threads through its legs: the slots, the delta slots, phase 1's SVM
    rows, the pods an application root recovered, whether the Job annotations
    degraded; the errors so far and the signals whose leg failed. *)
Record fanOutState := mkFanOut {
  fo_v : landed; fo_delta : landed; fo_svm : list Sample; fo_recovered : list podSeriesKey; fo_degraded : bool;
  fo_errors : list readError; fo_failed : list signal;
}.

Definition fo_start : fanOutState := mkFanOut ∅ ∅ [] [] false [] [].
Definition with_v (st : fanOutState) (v : landed) : fanOutState :=
  mkFanOut v (fo_delta st) (fo_svm st) (fo_recovered st) (fo_degraded st) (fo_errors st) (fo_failed st).

(** A leg: it waits on [lg_needs] and closes [lg_gives] whatever it returns. *)
Record leg := mkLeg { lg_needs : list signal; lg_gives : list signal; lg_run : fanOutState → result readError fanOutState }.

(** Running a leg: not at all once one of its prerequisites failed. *)
Definition run_leg (st : fanOutState) (l : leg) : fanOutState :=
  let fail es := mkFanOut (fo_v st) (fo_delta st) (fo_svm st) (fo_recovered st) (fo_degraded st)
                   (fo_errors st ++ es) (fo_failed st ++ lg_gives l) in
  if existsb (λ s, bool_decide (s ∈ fo_failed st)) (lg_needs l) then fail [] else
  match lg_run l st with
  | Ok st' => st'
  | Err e => fail [e]
  end.

(** A leg that only lands slots. *)
Definition land_leg (needs gives : list signal) (f : landed → result readError landed) : leg :=
  mkLeg needs gives (λ st, v <-! f (fo_v st); Ok (with_v st v)).

(** Legs a plan may not launch. *)
Definition legs_if (b : bool) (ls : list leg) : list leg := if b then ls else [].

(** ** The channels *)

(** pkg/build/topology_read.go@246-276, [readTopology]: the channels the first wave closes,
    by family; a plan whose claim side or seed closes one takes it out. *)
Definition wave_signals (plan : topologyPlan) : list (Query * signal) :=
  let keyed := rootedClaims plan || claimSeeded (roots plan) in
  let tracked := tracksByReference plan && negb (rootedClaims plan) in
  filter (λ qs : Query * signal,
    negb (keyed && bool_decide (qs.1 ∈ [QPVCInfo; QPVCBindings; QPVCAnnotations])) &&
    negb (bindingsFromSeed (roots plan) && bool_decide (qs.1 = QPVCBindings)) &&
    negb (tracked && bool_decide (qs.1 ∈ [QPVCInfo; QVolumeLabels; QPVCAnnotations])) = true)
    [(QPVCInfo, SigPVCInfo); (QVolumeLabels, SigVolumeLabels); (QPVCBindings, SigBindings); (QPVCAnnotations, SigAnnotations)].

(** The channel a first-wave leg closes. *)
Definition leg_signal (plan : topologyPlan) (q : Query) : list signal :=
  map snd (filter (λ qs : Query * signal, qs.1 = q) (wave_signals plan)).

(** Whether a family is read by the first wave. *)
Definition in_first_wave (plan : topologyPlan) (q : Query) : bool := issuesFirstWave (roots plan) q || issuesBesideSeed plan q.

(** The channel the volume labels are final on: a plan that reads them in two steps
    has one of its own. *)
Definition final_signal (plan : topologyPlan) : signal :=
  if rootedClaims plan || tracksByReference plan then SigFinal else SigVolumeLabels.

(** The channels closed before any leg runs: those of a family the plan never issues
    and those that gate a read the plan does not make. *)
Definition closed_at_start (plan : topologyPlan) : list signal :=
  let r := roots plan in
  map snd (filter (λ qs : Query * signal, in_first_wave plan qs.1 = false) (wave_signals plan)) ++
  (if byReference r && some_of (applicationRoots r) then [] else [SigApp]) ++
  (if tracksByReference plan && negb (rootedClaims plan) && negb (claimSeeded r) && readsK8sWorkload plan then [SigFinal] else []) ++
  (if flowlessAggrGauges r || flowlessControllers r then [] else [SigFlowless]).

Section fan_out.
Context `{Querier} `{Scheduler} `{MetricFingerprint} `{RegexpCompile}.
(** [promql.IsBadQuery]; whether the caller's context is done; the verb [%q]. *)
Context (is_bad_query : readError → bool) (gone : bool) (quote : string → string).
Context (window end_ : Z) (opts : Options) (sel : Selector).

#[local] Abbreviation keys := (opt_LabelKeys opts).

(** pkg/build/topology_read.go, [renderTopologyQuery] *)
Definition renderTopologyQuery (q : Query) : string :=
  match opt_AppMetadata opts with
  | Some src => if bool_decide (q = QAppMetadata) then RenderAppMetadata src window keys sel else Render q window keys sel
  | None => Render q window keys sel
  end.

(** The closure [fetch] of [readTopology]. *)
Definition fetch (q : Query) : result readError (list Sample) :=
  match Instant q (renderTopologyQuery q) with
  | Ok rows => Ok rows
  | Err e => Err (default e (wrapQueryError q (Some e)))
  end.

(** The closure [fetchOptionalVia] of [readTopology]: [None], the family degraded. *)
Definition fetchOptionalVia (answer : result readError (list Sample)) : result readError (option (list Sample)) :=
  match answer with
  | Ok rows => Ok (Some rows)
  | Err e => if gone then Err e else Ok None
  end.

(** The closure [fetchAlerts] of [readTopology]: its answer, retried once in the
    portable form. *)
Definition alerts_answer : result readError (list Sample) :=
  match Instant QAlerts (Render QAlerts window keys sel) with
  | Ok rows => Ok rows
  | Err e => if is_bad_query e && negb gone then Instant QAlerts (RenderAlertsPortable window keys sel) else Err e
  end.

(** A rooted read of the volume labels: the SVM group's rows are kept apart. *)
Definition rooted_leg (plan : topologyPlan) (read : result readError (list Sample * list Sample)) : leg :=
  mkLeg [] (leg_signal plan QVolumeLabels) (λ st,
    out <-! read;
    Ok (mkFanOut (<[QVolumeLabels := out.1]> (fo_v st)) (fo_delta st) out.2 (fo_recovered st) (fo_degraded st)
          (fo_errors st) (fo_failed st))).

(** The closure [start] of [readTopology]: one first-wave leg. *)
Definition start_leg (plan : topologyPlan) (l : Query * bool) : leg :=
  let '(q, optional) := l in
  if bool_decide (q = QVolumeLabels) && bool_decide (kind (roots plan) = StorageRootONTAPNode) && rootedClaims plan
  then rooted_leg plan (readONTAPNodeVolumeLabels window opts sel plan)
  else if bool_decide (q = QVolumeLabels) && rootedClaims plan
  then rooted_leg plan (readRootedVolumeLabels (phaseOne plan))
  else if negb optional || failsClosed (roots plan) q
  then land_leg [] (leg_signal plan q) (λ v, rows <-! fetch q; Ok (<[q := rows]> v))
  else mkLeg [] (leg_signal plan q) (λ st,
    out <-! fetchOptionalVia (if bool_decide (q = QAlerts) then alerts_answer else Instant q (renderTopologyQuery q));
    Ok (mkFanOut (land (fo_v st) q out) (fo_delta st) (fo_svm st) (fo_recovered st)
          (fo_degraded st || bool_decide (q = QJobAnnotations) && negb (bool_decide (is_Some out)))
          (fo_errors st) (fo_failed st))).

(** The first wave. *)
Definition first_wave (plan : topologyPlan) : list leg :=
  map (start_leg plan) (filter (λ l : Query * bool, in_first_wave plan l.1 = true)
    (topologyLegs (match opt_AppMetadata opts with Some _ => appMetadataServed | None => false end))).

(** The seeds that name pods, each closing the bindings. *)
Definition pod_seeds (plan : topologyPlan) : list leg :=
  let r := roots plan in
  legs_if (bool_decide (kind r = StorageRootNode) && some_of (nodeRoots r) && negb (readsK8sWorkload plan))
    [land_leg [] [SigBindings] (readNodeSeed window opts sel plan)] ++
  legs_if (bool_decide (kind r = StorageRootPod) && some_of (pods r) && negb (readsK8sWorkload plan))
    [land_leg [] [SigBindings] (readPodSeed window opts sel plan)] ++
  legs_if (byReference r && negb (readsK8sWorkload plan) && some_of (applicationRoots r))
    [mkLeg [] [SigBindings; SigApp] (λ st,
       out <-! readScopedApplications window opts sel (applicationRoots r) (fo_v st);
       Ok (mkFanOut out.2 (fo_delta st) (fo_svm st) out.1 (fo_degraded st) (fo_errors st) (fo_failed st)))].

(** The claim side: of the hub, of a claim root, of a workload root. *)
Definition claim_side (rw : VolumeKeyRewriter) (plan : topologyPlan) : list leg :=
  let r := roots plan in
  let families := land_leg [SigPVCInfo] [SigBindings; SigAnnotations] (readHubClaimFamilies window opts sel) in
  let labels := land_leg [SigPVCInfo] [SigFinal] (readWorkloadVolumeLabels window opts sel rw plan) in
  legs_if (rootedClaims plan)
    [land_leg [SigVolumeLabels] [SigPVCInfo] (readHubClaimInfo window opts sel); families;
     mkLeg [SigVolumeLabels; SigPVCInfo] [SigFinal] (λ st,
       v <-! readVolumeLabelsTail window opts sel rw plan (fo_svm st) (fo_v st); Ok (with_v st v))] ++
  legs_if (claimSeeded r) [land_leg [] [SigPVCInfo] (readClaimSeed window opts sel plan); families; labels] ++
  legs_if (tracksByReference plan && negb (rootedClaims plan) && negb (claimSeeded r))
    (if readsK8sWorkload plan
     then [land_leg [] [SigBindings; SigPVCInfo; SigAnnotations] (readK8sWorkload window opts sel plan quote)]
     else [land_leg (SigBindings :: if some_of (applicationRoots r) then [SigApp] else []) [SigPVCInfo; SigAnnotations]
             (readWorkloadClaims window opts sel plan); labels]).

(** The Harvest waves. *)
Definition harvest_side (rollup : Rollup) (delta : bool) (rw : VolumeKeyRewriter) (plan : topologyPlan) : list leg :=
  let r := roots plan in
  [mkLeg [SigPVCInfo; final_signal plan] [] (λ st,
     out <-! readScopedQoS window opts sel gone (failClosed r) rollup delta rw (fo_v st);
     Ok (mkFanOut out.1 out.2 (fo_svm st) (fo_recovered st) (fo_degraded st) (fo_errors st) (fo_failed st)))] ++
  legs_if (flowlessAggrGauges r || flowlessControllers r)
    [land_leg (if bool_decide (kind r = StorageRootAggr) then [final_signal plan] else []) [SigFlowless]
       (readFlowlessHarvest window opts sel plan)] ++
  legs_if (tracksByReference plan && negb (kubernetesOnly r))
    [land_leg [SigPVCInfo; final_signal plan; SigFlowless] [] (readReachedHarvest window opts sel rw plan)].

(** The waves of the loaded pods. *)
Definition reference_side (plan : topologyPlan) : list leg :=
  let r := roots plan in
  legs_if (byReference r && negb (readsK8sWorkload plan))
    [mkLeg ([SigBindings; SigApp] ++ if some_of (applicationRoots r) then [SigAnnotations] else []) [SigPods] (λ st,
       v <-! readScopedPods window opts sel (pods r) (fo_recovered st) (fo_v st); Ok (with_v st v));
     land_leg [SigPods] [] (readScopedNodes window opts sel (nodeRoots r));
     land_leg [SigPods] [] (readScopedControllers window opts sel);
     land_leg [SigPods; SigPVCInfo] [] (readScopedAppMetadata window opts sel)].

(** All the legs of a prepared plan, each after those it waits on. *)
Definition legs_of (rollup : Rollup) (delta : bool) (rw : VolumeKeyRewriter) (plan : topologyPlan) : list leg :=
  first_wave plan ++ pod_seeds plan ++ claim_side rw plan ++ harvest_side rollup delta rw plan ++ reference_side plan.

(** [fmt.Errorf("topology fan-out: %w", err)] *)
Definition fan_out_error (e : readError) : readError :=
  mkReadError ("topology fan-out: " +:+ re_text e) (re_build e) (re_canceled e) (re_deadline e) (re_query e).

(** What the legs of a plan leave to parse. *)
Definition read_vectors (rollup : Rollup) (delta : bool) (plan : topologyPlan) : result readError topologyVectors :=
  let rw := rewriter opts in
  let st := foldl run_leg fo_start (legs_of rollup delta rw plan) in
  match fo_errors st with
  | [] => Ok (vectors_of opts rw plan (fo_v st) (fo_delta st) (fo_degraded st))
  | e :: es => Err (fan_out_error (first_failed e es))
  end.
End fan_out.

Section read.
Context `{Querier} `{Scheduler} `{MetricFingerprint} `{RegexpCompile} `{EdgeUUID}.
Context (is_bad_query : readError → bool) (gone : bool) (quote : string → string).
Context (window end_ : Z) (opts : Options) (sel : Selector).

(** pkg/build/topology_read.go@99-128, [readTopology] *)
Definition readTopology (rollup : Rollup) (delta : bool) (plan : topologyPlan) : result readError Topology :=
  let opts := withAppMetadataDefaults opts in
  match prepare window (qosScopeBatchBytes opts) (opt_LabelKeys opts) sel plan with
  | Err e => Err (build_error e)
  | Ok plan =>
      match rejectWideAppMetadataSeed opts sel plan with
      | Some e => Err (build_error e)
      | None =>
          v <-! read_vectors is_bad_query gone quote window opts sel rollup delta plan;
          Ok (parseTopology v (opt_LabelKeys opts) (mkAlertWindow (end_ - window) end_))
      end
  end.

(** pkg/build/topology_read.go, [ReadTopology] *)
Definition ReadTopology : result readError Topology := readTopology "" false fullPlan.
End read.

(** ** The builds *)

(** pkg/build/build_k8s.go@67-74, [harvestRefuser.Instant]: a querier that refuses the
    Harvest families. *)
Definition refusing `{Querier} : Querier := {|
  Instant q text :=
    if bool_decide (FamilyOf q = Some FamilyHarvest)
    then Err (own_error ("harvest query " +:+ q +:+ " issued by a Kubernetes-only build"))
    else Instant q text;
  FamilyServer := FamilyServer;
|}.

Section builds.
Context `{Querier} `{Scheduler} `{MetricFingerprint} `{RegexpCompile} `{EdgeUUID}.
Context (is_bad_query : readError → bool) (gone : bool) (quote : string → string).
Context (window end_ now : Z) (opts : Options) (sel : Selector).

(** pkg/build/build.go@319-366, [Builder.buildStorage] *)
Definition buildStorage_plan (rollup : Rollup) (delta : bool) (plan : topologyPlan) : result Error Graph :=
  match prepare window (qosScopeBatchBytes opts) (opt_LabelKeys opts) sel plan with
  | Err e => Err e
  | Ok plan =>
      let q := if kubernetesOnly (roots plan) then refusing else _ in
      buildStorage (kubernetesOnly (roots plan)) now
        (readTopology (H:=q) is_bad_query gone quote window end_ opts sel rollup delta plan)
  end.

(** pkg/build/build.go, [Builder.BuildStorageWith] *)
Definition BuildStorageWith (rollup : Rollup) (delta : bool) (r : StorageRoots) : result Error Graph :=
  if negb (Valid rollup) then Err (NewError ReasonInvalidScope (InvalidRollupMessage quote "io_rollup" rollup) None)
  else buildStorage_plan rollup delta (storagePlan r).

(** pkg/build/build.go, [Builder.BuildStorage] *)
Definition BuildStorage (r : StorageRoots) : result Error Graph := BuildStorageWith "" false r.

(** pkg/build/build_k8s.go, [Builder.BuildK8s] *)
Definition BuildK8s (r : StorageRoots) : result Error Graph :=
  if negb (k8sRoots r) then Err (NewError ReasonInvalidScope "k8s graph requires a pod or node root" None)
  else buildStorage_plan "" false (k8sPlan r).
End builds.
