(* ===== verification/ReadTopologyProps.v ===== *)
(** The fan-out of one read: every channel it waits on is closed once and in time; a
    Kubernetes-only build never asks a Harvest family; which failures fail an
    unrestricted read. *)

From S2P Require Import Prelude GoStrings Selector Queries ScopeChunks HarvestScope PairScope.
From S2P Require Import ScopedRender AppMetadata Fanout StorageScope BuildIdentity VolumeKey.
From S2P Require Import TopologyTypes.
From S2P Require Import GraphNode GraphEdge Graph NetApp Topology NameScopes ScopedReads.
From S2P Require Import ReadPlan K8sRead VolumeLabelScope.
From S2P Require Import VolumeLabelProps StorageReads Build.
From S2P Require Import ReadTopology NetAppProps K8sReadTheorems.

#[local] Open Scope ksg_scope.

(** ** Every channel has one closer *)

(** What a leg waits on and closes. *)
Definition ports (l : leg) : list signal * list signal := (lg_needs l, lg_gives l).

(** Whether every leg waits only on channels closed before it. *)
Fixpoint ordered (closed : list signal) (ps : list (list signal * list signal)) : bool :=
  match ps with
  | [] => true
  | (needs, gives) :: ps => forallb (λ s, bool_decide (s ∈ closed)) needs && ordered (closed ++ gives) ps
  end.

Lemma ordered_spec closed ps : ordered closed ps = true →
  ∀ pre n g post, ps = pre ++ (n, g) :: post → ∀ s, s ∈ n → s ∈ closed ++ mjoin (map snd pre).
Proof.
  revert closed. induction ps as [|[n' g'] ps IH]; intros closed Ho pre n g post Heq s Hs; [by destruct pre|].
  cbn [ordered] in Ho. apply andb_true_iff in Ho as [Hf Ho]. destruct pre as [|[n1 g1] pre].
  - injection Heq as -> -> ->. rewrite forallb_forall in Hf. apply elem_of_app. left.
    apply (bool_decide_eq_true (s ∈ closed)), Hf, list_elem_of_In, Hs.
  - injection Heq as -> -> ->. specialize (IH _ Ho pre n g post eq_refl s Hs). cbn. by rewrite (assoc_L (++)).
Qed.

Lemma ordered_app closed ps ps' :
  ordered closed (ps ++ ps') = ordered closed ps && ordered (closed ++ mjoin (map snd ps)) ps'.
Proof.
  revert closed. induction ps as [|[n g] ps IH]; intros closed; cbn [ordered app map mjoin snd].
  - cbn. by rewrite app_nil_r.
  - rewrite IH, <-(assoc_L (++)). by destruct (forallb _ n).
Qed.

Lemma ordered_free closed ps : Forall (λ p : list signal * list signal, p.1 = []) ps → ordered closed ps = true.
Proof. intros Hf. revert closed. induction Hf as [|[n g] ps Hn _ IH]; intros closed; [done|]. cbn in Hn. subst n. apply IH. Qed.

(** A read plan of one of the endpoints. *)
Inductive endpoint_plan : topologyPlan → Prop :=
  | graph_plan : endpoint_plan fullPlan
  | storage_plan r : endpoint_plan (storagePlan r)
  | k8s_plan r : k8sRoots r = true → endpoint_plan (k8sPlan r).

(** What a preparation leaves of an endpoint's plan. *)
Lemma prepare_shape window budget keys sel p plan : endpoint_plan p → prepare window budget keys sel p = Ok plan →
  roots plan = roots p ∧ (harvestSeed (roots p) = false → rootedClaims plan = false).
Proof.
  intros Hp (p1 & Hp1 & Hph & ->)%prepare_keeps_seed. unfold rootedClaims. rewrite Hph. clear Hph.
  assert (phaseOne p = [] ∧ resolved p = false) as [Hn Hr] by by destruct Hp.
  revert Hp1. unfold prepareHarvestSeed. rewrite Hr. destruct (harvestSeed (roots p)); cbn [negb].
  - destruct (_ ≫= _); [|done]. by intros [= <-].
  - intros [= <-]. by rewrite Hn.
Qed.

(** The ports of the legs after the first wave. *)
Definition later_ports (plan : topologyPlan) : list (list signal * list signal) :=
  let r := roots plan in
  let apps := some_of (applicationRoots r) in
  let families := ([SigPVCInfo], [SigBindings; SigAnnotations]) in
  (if bool_decide (kind r = StorageRootNode) && some_of (nodeRoots r) && negb (readsK8sWorkload plan)
   then [([], [SigBindings])] else []) ++
  (if bool_decide (kind r = StorageRootPod) && some_of (pods r) && negb (readsK8sWorkload plan)
   then [([], [SigBindings])] else []) ++
  (if byReference r && negb (readsK8sWorkload plan) && apps then [([], [SigBindings; SigApp])] else []) ++
  (if rootedClaims plan then [([SigVolumeLabels], [SigPVCInfo]); families; ([SigVolumeLabels; SigPVCInfo], [SigFinal])] else []) ++
  (if claimSeeded r then [([], [SigPVCInfo]); families; ([SigPVCInfo], [SigFinal])] else []) ++
  (if tracksByReference plan && negb (rootedClaims plan) && negb (claimSeeded r) then
     if readsK8sWorkload plan then [([], [SigBindings; SigPVCInfo; SigAnnotations])]
     else [(SigBindings :: (if apps then [SigApp] else []), [SigPVCInfo; SigAnnotations]); ([SigPVCInfo], [SigFinal])]
   else []) ++
  [([SigPVCInfo; final_signal plan], [])] ++
  (if flowlessAggrGauges r || flowlessControllers r
   then [(if bool_decide (kind r = StorageRootAggr) then [final_signal plan] else [], [SigFlowless])] else []) ++
  (if tracksByReference plan && negb (kubernetesOnly r) then [([SigPVCInfo; final_signal plan; SigFlowless], [])] else []) ++
  (if byReference r && negb (readsK8sWorkload plan)
   then [([SigBindings; SigApp] ++ (if apps then [SigAnnotations] else []), [SigPods]); ([SigPods], []); ([SigPods], []);
         ([SigPods; SigPVCInfo], [])] else []).

(** The families that close a channel, in the order of the first wave. *)
Definition closing : list Query := [QPVCBindings; QPVCInfo; QVolumeLabels; QPVCAnnotations].

(** The channels the first wave of a plan closes. *)
Definition wave_gives (plan : topologyPlan) : list signal :=
  mjoin (map (λ q, if in_first_wave plan q then leg_signal plan q else []) closing).

Section channels.
Context `{Querier} `{Scheduler} `{MetricFingerprint} `{RegexpCompile}.
Context (is_bad_query : readError → bool) (gone : bool) (quote : string → string).
Context (window : Z) (opts : Options) (sel : Selector).

Lemma ports_later plan rollup delta rw :
  map ports (pod_seeds window opts sel plan ++ claim_side quote window opts sel rw plan ++
             harvest_side gone window opts sel rollup delta rw plan ++ reference_side window opts sel plan) = later_ports plan.
Proof.
  unfold pod_seeds, claim_side, harvest_side, reference_side, legs_if, later_ports. rewrite !map_app.
  repeat match goal with |- context [if ?b then _ else _] => destruct b end; done.
Qed.

Lemma ports_start plan l : ports (start_leg is_bad_query gone window opts sel plan l) = ([], leg_signal plan l.1).
Proof.
  destruct l as [q o]. unfold start_leg. destruct (decide (q = QVolumeLabels)) as [->|Hq].
  - cbn [fst]. destruct (bool_decide (kind _ = _)), (rootedClaims plan), (negb o || _); done.
  - rewrite bool_decide_eq_false_2 by done. cbn [andb fst]. by destruct (_ || _).
Qed.

Lemma gives_first_wave plan : mjoin (map lg_gives (first_wave is_bad_query gone window opts sel plan)) = wave_gives plan ∧
  Forall (λ l, lg_needs l = []) (first_wave is_bad_query gone window opts sel plan).
Proof.
  split.
  - unfold first_wave, wave_gives. set (f := λ q : Query, if in_first_wave plan q then leg_signal plan q else []).
    set (src := match opt_AppMetadata opts with Some _ => _ | None => _ end). clearbody src.
    assert (∀ ls : list (Query * bool), mjoin (map lg_gives (map (start_leg is_bad_query gone window opts sel plan)
        (filter (λ l : Query * bool, in_first_wave plan l.1 = true) ls))) = mjoin (map f (map fst ls))) as Hls.
    { intros ls. induction ls as [|l ls IH]; [done|]. rewrite filter_cons. cbn [map].
      replace (f l.1) with (if in_first_wave plan l.1 then leg_signal plan l.1 else []) by done.
      destruct (in_first_wave plan l.1); [rewrite decide_True by done|rewrite decide_False by done; exact IH].
      apply (f_equal2 app); [exact (f_equal snd (ports_start plan l))|exact IH]. }
    rewrite Hls.
    assert (∀ q, q ∉ closing → f q = []) as Hn.
    { intros q Hq. unfold f. destruct (in_first_wave plan q); [|done]. unfold leg_signal.
      enough (filter (λ qs : Query * signal, qs.1 = q) (wave_signals plan) = []) as -> by done. apply elem_of_nil_inv.
      intros [q' s] [Heq Hin]%list_elem_of_filter. cbn in Heq. subst q'. apply Hq. unfold wave_signals in Hin.
      apply list_elem_of_filter in Hin as [_ Hin]. unfold closing. rewrite !elem_of_cons, elem_of_nil in Hin.
      rewrite !elem_of_cons. naive_solver. }
    assert (∀ qs : list Query, mjoin (map f qs) = mjoin (map f (filter (λ q, q ∈ closing) qs))) as ->.
    { intros qs. induction qs as [|q qs IH]; [done|]. rewrite filter_cons. destruct (decide (q ∈ closing)) as [Hq|Hq].
      - exact (f_equal (app (f q)) IH).
      - etransitivity; [exact (f_equal (λ l, l ++ mjoin (map f qs)) (Hn q Hq))|exact IH]. }
    by destruct src.
  - unfold first_wave. apply Forall_map, Forall_true. intros l. exact (f_equal fst (ports_start plan l)).
Qed.
End channels.

(** Nothing else is closed: each channel once, each before it is waited on. *)
Definition channels_ok (plan : topologyPlan) : bool :=
  bool_decide (NoDup (closed_at_start plan ++ wave_gives plan ++ mjoin (map snd (later_ports plan)))) &&
  ordered (closed_at_start plan ++ wave_gives plan) (later_ports plan).

(** A closed computation of a boolean. *)
Ltac compute_bool := vm_compute; lazymatch goal with |- ?b = ?b => exact eq_refl end.

(** Deciding a plan whose roots are variables. *)
Ltac plan_compute ph Hh :=
  destruct ph;
  [compute_bool
  |first [compute_bool
         |let Hx := fresh in assert (true = false) as Hx by (apply Hh; compute_bool); discriminate Hx]].

(** The roots of a plan made variables. *)
Ltac plan_vars Hh :=
  match goal with names : list string, qs : list ONTAPRef, cs : list ClaimRef |- _ =>
    revert Hh; unfold storagePlan, k8sPlan, storageRootsPlan;
    cbn [roots_Kind roots_Names roots_Qualified roots_Pods roots_Claims fresh_plan roots];
    generalize (sortedNames names), (qualifiedPairs qs), (usableClaimRefs cs)
  end.
Ltac plan_names ph Hh := plan_vars Hh; intros [|? ?] qs' cs' Hh; plan_compute ph Hh.
Ltac plan_claims ph Hh := plan_vars Hh; intros names' qs' [|? ?] Hh; plan_compute ph Hh.
Ltac plan_pairs ph Hh := plan_vars Hh; intros [|? ?] [[|?]] cs' Hh; plan_compute ph Hh.
Ltac plan_pods ps ph Hh := plan_vars Hh; intros names' qs' cs' Hh; destruct ps; plan_compute ph Hh.

(** A plan of no kind has no root. *)
Ltac plan_unknown k ph Hh :=
  plan_vars Hh; intros names' qs' cs';
  unfold channels_ok, closed_at_start, wave_gives, later_ports, leg_signal, wave_signals, in_first_wave, issuesBesideSeed,
    issuesFirstWave, readsK8sWorkload, final_signal, tracksByReference, bindingsFromSeed, flowlessAggrGauges, flowlessControllers;
  cbn [roots kind];
  repeat match goal with n : k ≠ ?X |- _ => rewrite ?(bool_decide_eq_false_2 (k = X) n); clear n end;
  intros Hh; plan_compute ph Hh.

Lemma k8sRoots_kind r : k8sRoots r = true → roots_Kind r = StorageRootPod ∨ roots_Kind r = StorageRootNode.
Proof. unfold k8sRoots. case_bool_decide; [by left|]. case_bool_decide; [by right|done]. Qed.

Lemma channels_ok_endpoint p plan : endpoint_plan p → roots plan = roots p →
  (harvestSeed (roots p) = false → rootedClaims plan = false) → channels_ok plan = true.
Proof.
  intros Hp Hr Hh. destruct plan as [r ph]. cbn in Hr. subst r. unfold rootedClaims in Hh. cbn [phaseOne] in Hh.
  destruct Hp as [|r|r Hk]; [plan_compute ph Hh|destruct r as [k names qs ps cs]..].
  - destruct (decide (k = StorageRootNode)) as [->|]; [plan_names ph Hh|].
    destruct (decide (k = StorageRootPod)) as [->|]; [plan_pods ps ph Hh|].
    destruct (decide (k = StorageRootApplication)) as [->|]; [plan_names ph Hh|].
    destruct (decide (k = StorageRootPVC)) as [->|]; [plan_claims ph Hh|].
    destruct (decide (k = StorageRootPV)) as [->|]; [plan_names ph Hh|].
    destruct (decide (k = StorageRootONTAPCluster)) as [->|]; [plan_names ph Hh|].
    destruct (decide (k = StorageRootONTAPNode)) as [->|]; [plan_names ph Hh|].
    destruct (decide (k = StorageRootAggr)) as [->|]; [plan_pairs ph Hh|].
    destruct (decide (k = StorageRootSVM)) as [->|]; [plan_pairs ph Hh|].
    plan_unknown k ph Hh.
  - apply k8sRoots_kind in Hk as [Hk|Hk]; cbn in Hk; subst k; [plan_pods ps ph Hh|plan_names ph Hh].
Qed.

Section channels.
Context `{Querier} `{Scheduler} `{MetricFingerprint} `{RegexpCompile}.
Context (is_bad_query : readError → bool) (gone : bool) (quote : string → string).
Context (window : Z) (opts : Options) (sel : Selector).

(** C17: The fan-out of every endpoint closes no channel twice and waits on no channel
    that is not closed by then: in the order of the legs, a leg waits only on
    channels closed at the start or by an earlier leg, whether that leg succeeded
    or failed. So no leg blocks for ever and no close panics. *)
Theorem fan_out_channels p plan budget rollup delta rw : endpoint_plan p →
  prepare window budget (opt_LabelKeys opts) sel p = Ok plan →
  let legs := legs_of is_bad_query gone quote window opts sel rollup delta rw plan in
  NoDup (closed_at_start plan ++ mjoin (map lg_gives legs)) ∧
  ∀ pre l post, legs = pre ++ l :: post → ∀ s, s ∈ lg_needs l → s ∈ closed_at_start plan ++ mjoin (map lg_gives pre).
Proof.
  intros Hp Hprep legs. destruct (prepare_shape _ _ _ _ _ _ Hp Hprep) as [Hr Hh].
  pose proof (channels_ok_endpoint p plan Hp Hr Hh) as Hok. unfold channels_ok in Hok.
  apply andb_true_iff in Hok as [Hnd Ho]. apply bool_decide_eq_true in Hnd.
  destruct (gives_first_wave is_bad_query gone quote window opts sel plan) as [Hg Hn].
  pose proof (ports_later gone quote window opts sel plan rollup delta rw) as Hl.
  set (first := first_wave _ _ _ _ _ _) in *. set (later := _ ++ _) in Hl. change legs with (first ++ later). clear legs.
  assert (∀ ls : list leg, mjoin (map lg_gives ls) = mjoin (map snd (map ports ls))) as Hgives by (intros ls; by rewrite map_map).
  split.
  - rewrite map_app, join_app, Hg, (Hgives later), Hl. exact Hnd.
  - intros pre l post Heq s Hs. rewrite Hgives.
    apply (ordered_spec (closed_at_start plan) (map ports (first ++ later))) with (n := lg_needs l) (g := lg_gives l) (post := map ports post);
      [|by rewrite Heq, map_app|done].
    rewrite map_app, ordered_app, <-Hgives, Hg, Hl, Ho, andb_true_r. apply ordered_free, Forall_map, Hn.
Qed.
End channels.

(** ** A Kubernetes-only read asks no Harvest family *)

Section refusing.
Context `{Querier} `{Scheduler}.
Context (window : Z) (opts : Options) (sel : Selector).

(** A family the refusal lets through. *)
Definition answered_family (q : Query) : Prop := FamilyOf q ≠ Some FamilyHarvest.

Lemma Instant_refusing q text : answered_family q → @Instant refusing q text = Instant q text.
Proof. intros Hq. unfold Instant at 1, refusing. by rewrite bool_decide_eq_false_2. Qed.

Lemma instantAll_refusing q texts : answered_family q → @instantAll refusing _ q texts = instantAll q texts.
Proof.
  intros Hq. unfold instantAll.
  match goal with |- wave (map ?f _) _ = wave (map ?g _) _ => rewrite (map_ext f g); [done|] end.
  intros text. by rewrite Instant_refusing.
Qed.

Lemma chunk_refusing q values render : answered_family q →
  @issueScopedChunk refusing window opts sel q values render = issueScopedChunk window opts sel q values render.
Proof. intros Hq. unfold issueScopedChunk. destruct (match render with Some _ => _ | None => _ end); [|done]. by rewrite Instant_refusing. Qed.

Lemma families_refusing fams : Forall (λ f, answered_family (sf_query f)) fams →
  @issueScopedFamilies refusing _ window opts sel fams = issueScopedFamilies window opts sel fams.
Proof.
  intros Hf. rewrite Forall_forall in Hf. unfold issueScopedFamilies.
  assert (∀ f, f ∈ fams → @family_parts refusing window opts sel f = family_parts window opts sel f) as Hp.
  { intros f Hin. unfold family_parts. apply map_ext. intros c. by apply chunk_refusing, Hf. }
  rewrite (map_ext_in (@family_parts refusing window opts sel) (family_parts window opts sel))
    by (intros f Hin; apply Hp, list_elem_of_In, Hin).
  rewrite (map_ext_in (@family_rows refusing window opts sel) (family_rows window opts sel)); [done|].
  intros f Hin. unfold family_rows. by rewrite Hp by (by apply list_elem_of_In).
Qed.

Lemma pairs_refusing reads : Forall (λ r, answered_family (prd_query r)) reads →
  @issuePairReads refusing _ window opts sel reads = issuePairReads window opts sel reads.
Proof.
  intros Hf. rewrite Forall_forall in Hf. unfold issuePairReads.
  assert (∀ r, r ∈ reads → @pair_parts refusing window opts sel r = pair_parts window opts sel r) as Hp.
  { intros r Hin. unfold pair_parts. apply map_ext. intros c. by apply chunk_refusing, Hf. }
  rewrite (map_ext_in (@pair_parts refusing window opts sel) (pair_parts window opts sel))
    by (intros r Hin; apply Hp, list_elem_of_In, Hin).
  f_equal. apply map_ext_in. intros r Hin. by rewrite Hp by (by apply list_elem_of_In).
Qed.

Lemma names_refusing reads : Forall (λ r, answered_family (nrd_query r)) reads →
  @issueNameReads refusing _ window opts sel reads = issueNameReads window opts sel reads.
Proof. intros Hf. unfold issueNameReads. rewrite families_refusing; [done|]. by apply Forall_map. Qed.

Lemma metadata_refusing src scopes :
  @issueAppMetadata refusing _ window opts sel src scopes = issueAppMetadata window opts sel src scopes.
Proof. unfold issueAppMetadata. rewrite families_refusing; [done|]. apply Forall_map, Forall_true. intros sc. by vm_compute. Qed.
(** ** The queries of the controller and node rounds *)

Lemma ask_all_queries c wanted : map nrd_query (ask_all c wanted).1 = map fst wanted.
Proof.
  unfold ask_all. set (f := λ st qn, _).
  assert (∀ acc c, map nrd_query (foldl f (acc, c) wanted).1 = map nrd_query acc ++ map fst wanted) as Hf; [|apply Hf].
  induction wanted as [|[q ns] wanted IH]; intros acc c0; [by rewrite app_nil_r|]. cbn [foldl].
  destruct (f (acc, c0) (q, ns)) as [acc' c1] eqn:E. rewrite IH. revert E. unfold f. cbn.
  intros [= <- <-]. by rewrite map_app, <-(assoc_L (++)).
Qed.

Definition answered_reads (reads : list nameRead) : Prop := Forall (λ r, answered_family (nrd_query r)) reads.

Lemma asked_reads c wanted : Forall answered_family (map fst wanted) → answered_reads (nonEmptyReads (ask_all c wanted).1).
Proof.
  intros Hw. unfold answered_reads, nonEmptyReads. rewrite <-(ask_all_queries c), Forall_map in Hw.
  rewrite Forall_forall in Hw |- *. intros r [_ Hr]%list_elem_of_filter. by apply Hw.
Qed.

Lemma firstStage_reads c owner : answered_reads (firstStage c owner).1.
Proof.
  unfold firstStage. set (c' := mkControllerReads _ _ _). set (w := _ :: _).
  pose proof (asked_reads c' w) as Hr. destruct (ask_all c' w) as [reads c'']. apply Hr.
  unfold w, answered_family. apply (bool_decide_unpack _). by vm_compute.
Qed.

Lemma secondStage_reads c v : answered_reads (secondStage c v).1.
Proof.
  unfold secondStage. set (w := [_; _]). pose proof (asked_reads c w) as Hr. destruct (ask_all c w) as [reads c'']. apply Hr.
  unfold w, answered_family. apply (bool_decide_unpack _). by vm_compute.
Qed.

Lemma nodeReads_reads names pods roots : answered_reads (nodeReads names pods roots).1.
Proof.
  unfold nodeReads. cbn [fst]. case_bool_decide; [constructor|]. apply Forall_map.
  apply (bool_decide_unpack _). by vm_compute.
Qed.

(** ** The rounds *)

(** The slots of the Harvest families are untouched. *)
Definition harvest_kept (v v' : landed) : Prop := ∀ q, ¬ answered_family q → v' !! q = v !! q.

Lemma kept_insert v v' q rows : answered_family q → harvest_kept v v' → harvest_kept v (<[q := rows]> v').
Proof. intros Hq Hv q' Hq'. transitivity (v' !! q'); [apply lookup_insert_ne; by intros ->|by apply Hv]. Qed.

Lemma kept_commit v v' reads rows : answered_reads reads → harvest_kept v v' → harvest_kept v (commitNameReads v' reads rows).
Proof.
  intros Hr. unfold commitNameReads. revert v' rows. induction Hr as [|r reads Hq _ IH]; intros v' rows Hv; [done|].
  destruct rows as [|row rows]; [done|]. cbn. apply IH, kept_insert; [exact Hq|done].
Qed.

Lemma kept_pairs v v' (reads : list pairRead) rows h : Forall (λ r, answered_family (prd_query r)) reads →
  harvest_kept v v' → harvest_kept v (foldl (λ v (rr : pairRead * list Sample), <[prd_query rr.1 := h rr.2]> v) v' (zip reads rows)).
Proof.
  intros Hr. revert v' rows. induction Hr as [|r reads Hq _ IH]; intros v' rows Hv; [done|].
  destruct rows as [|row rows]; [done|]. cbn. apply IH, kept_insert; [exact Hq|done].
Qed.

Lemma parallel_Ok {B} es (out out' : B) : parallel es out = Ok out' → out' = out.
Proof. destruct es; [by intros [= ->]|done]. Qed.

Lemma claim_targets_answered : Forall answered_family k8sClaimTargets.
Proof. apply (bool_decide_unpack _). by vm_compute. Qed.

Lemma fanOut_refusing plan tracked ri ro st :
  @fanOut refusing _ window opts sel plan tracked ri ro st = fanOut window opts sel plan tracked ri ro st ∧
  ∀ st', fanOut window opts sel plan tracked ri ro st = Ok st' → harvest_kept (k_v st) (k_v st').
Proof.
  unfold fanOut. set (reads := if bool_decide _ then _ else _).
  assert (Forall (λ r, answered_family (prd_query r)) reads) as Hr.
  { unfold reads. case_bool_decide; [constructor|]. apply Forall_map, claim_targets_answered. }
  pose proof (nodeReads_reads (k_nodesRead st) ri (nodeRoots (roots plan))) as Hn.
  destruct (nodeReads _ _ _) as [nodes nr]. pose proof (firstStage_reads (k_ctrl st) ro) as Hc.
  destruct (firstStage _ _) as [ctrls ctrl]. cbn [fst] in Hn, Hc. split.
  - rewrite (pairs_refusing reads Hr), (names_refusing nodes Hn), (names_refusing ctrls Hc).
    change (@k8sAppMetadataScopes refusing opts) with (k8sAppMetadataScopes opts).
    change (@appMetadataActive refusing opts) with (appMetadataActive opts).
    destruct (appMetadataActive opts) as [src|]; [|done]. destruct (k8sAppMetadataScopes _ _ _); [done|].
    by rewrite metadata_refusing.
  - intros st' ->%parallel_Ok. cbn [k_v]. apply kept_commit; [done|]. apply kept_commit; [done|].
    destruct (some_of _); [apply kept_insert; [by vm_compute|]|]; by apply kept_pairs.
Qed.

Lemma kept_trans v v' v'' : harvest_kept v v' → harvest_kept v' v'' → harvest_kept v v''.
Proof. intros H1 H2 q Hq. by rewrite H2, H1. Qed.

Lemma pod_reads_answered pairs :
  Forall (λ r, answered_family (prd_query r)) [mkPairRead QPodInfo PodLabel pairs None; mkPairRead QPodOwner PodLabel pairs None].
Proof. repeat constructor; by vm_compute. Qed.

(** The same answer, no Harvest slot written. *)
Definition same_round (v : landed) (r r' : result readError k8sState) : Prop :=
  r = r' ∧ ∀ st', r' = Ok st' → harvest_kept v (k_v st').

Lemma same_bind {A} v (m m' : result readError A) k k' : m = m' → (∀ a, m' = Ok a → same_round v (k a) (k' a)) →
  same_round v (rbind m k) (rbind m' k').
Proof. intros -> Hk. destruct m' as [a|]; [by apply Hk|by split]. Qed.

Lemma same_Ok v st : harvest_kept v (k_v st) → same_round v (Ok st) (Ok st).
Proof. intros Hv. split; [done|]. by intros st' [= <-]. Qed.

Lemma completeMounters_refusing loaded st : same_round (k_v st)
  (@completeMounters refusing _ window opts sel loaded st) (completeMounters window opts sel loaded st).
Proof.
  unfold completeMounters. set (fresh := freshMounters _ _ _).
  pose proof (secondStage_reads (k_ctrl st) (k_v st)) as Hs. destruct (secondStage _ _) as [second ctrl]. cbn [fst] in Hs.
  destruct (_ && _); [by apply same_Ok|].
  rewrite (pairs_refusing _ (pod_reads_answered _)), (names_refusing second Hs).
  apply same_bind; [done|]. intros v Hv. apply parallel_Ok in Hv.
  assert (harvest_kept (k_v st) v) as Hkv by (subst v; by apply kept_commit). clear Hv.
  destruct (ps_empty fresh); [by apply same_Ok|].
  generalize (got [] (issuePairReads window opts sel
    [mkPairRead QPodInfo PodLabel (ps_pairs fresh) None; mkPairRead QPodOwner PodLabel (ps_pairs fresh) None])).
  intros rows. set (info := ps_keepRows fresh (default [] (rows !! 0%nat)) _).
  set (owner := ps_keepRows fresh (default [] (rows !! 1%nat)) _).
  set (v2 := <[QPodOwner := _]> (<[QPodInfo := _]> v)).
  assert (harvest_kept (k_v st) v2) as Hv2 by (apply kept_insert, kept_insert; [by vm_compute..|done]). clearbody v2.
  pose proof (nodeReads_reads (k_nodesRead st) info []) as Hn. destruct (nodeReads _ _ _) as [nodes nr].
  pose proof (firstStage_reads ctrl owner) as Hc. destruct (firstStage _ _) as [ctrls ctrl']. cbn [fst] in Hn, Hc.
  rewrite (names_refusing nodes Hn), (names_refusing ctrls Hc).
  apply same_bind; [done|]. intros v3 Hv3. apply parallel_Ok in Hv3.
  assert (harvest_kept (k_v st) v3) as Hkv3 by (subst v3; apply kept_commit, kept_commit; done). clear Hv3.
  pose proof (secondStage_reads ctrl' v3) as Ht. destruct (secondStage _ _) as [tl ctrl'']. cbn [fst] in Ht.
  apply same_bind; [by apply names_refusing|]. intros tailRows _. by apply same_Ok, kept_commit.
Qed.

Lemma fromRoots_refusing plan ri ro bindings loaded st : same_round (k_v st)
  (@fromRoots refusing _ window opts sel plan ri ro bindings loaded st) (fromRoots window opts sel plan ri ro bindings loaded st).
Proof.
  unfold fromRoots. set (st0 := mkK8sState _ _ _).
  pose proof (fanOut_refusing plan (trackedClaimKeys opts bindings) ri ro st0) as [Heq Hf].
  apply same_bind; [done|]. intros st1 Hst1. pose proof (completeMounters_refusing loaded st1) as [-> Hc]. split; [done|].
  intros st' Hst'. apply (kept_trans _ (k_v st1)); [|by apply Hc]. apply (kept_trans _ (k_v st0)); [|by apply Hf].
  exact (kept_insert _ _ QPodOwner ro ltac:(by vm_compute) (kept_insert _ _ QPodInfo ri ltac:(by vm_compute) (λ q _, eq_refl))).
Qed.

Lemma nodeRoot_refusing plan st : same_round (k_v st)
  (@nodeRoot refusing _ window opts sel plan st) (nodeRoot window opts sel plan st).
Proof.
  unfold nodeRoot. apply same_bind; [by apply instantAll_refusing|]. intros onNode _. case_bool_decide; [apply fromRoots_refusing|].
  apply same_bind; [apply pairs_refusing; repeat constructor; by vm_compute|]. intros rows _. apply fromRoots_refusing.
Qed.

Lemma podRoot_refusing plan st : same_round (k_v st)
  (@podRoot refusing _ window opts sel plan st) (podRoot window opts sel plan st).
Proof.
  unfold podRoot. apply same_bind; [apply pairs_refusing; repeat constructor; by vm_compute|]. intros rows _. apply fromRoots_refusing.
Qed.

(** A Kubernetes-only read asks no Harvest family and leaves their slots alone. *)
Lemma readK8sWorkload_refusing plan quote v :
  @readK8sWorkload refusing _ window opts sel plan quote v = readK8sWorkload window opts sel plan quote v ∧
  ∀ v', readK8sWorkload window opts sel plan quote v = Ok v' → harvest_kept v v'.
Proof.
  unfold readK8sWorkload. set (st := mkK8sState v no_controllers ∅).
  pose proof (nodeRoot_refusing plan st) as [-> Hn]. pose proof (podRoot_refusing plan st) as [-> Hp].
  split; [done|]. intros v'. destruct (bool_decide (kind _ = StorageRootNode)); [|destruct (bool_decide (kind _ = StorageRootPod)); [|done]].
  - destruct (nodeRoot _ _ _ _ st) as [st'|]; [|done]. intros [= <-]. by apply Hn.
  - destruct (podRoot _ _ _ _ st) as [st'|]; [|done]. intros [= <-]. by apply Hp.
Qed.
End refusing.

(** What preparing changes of any plan: neither the roots nor, when there is no
    Harvest root, phase 1. *)
Lemma prepare_roots window budget keys sel p plan : prepare window budget keys sel p = Ok plan →
  roots plan = roots p ∧ (harvestSeed (roots p) = false → phaseOne plan = phaseOne p).
Proof.
  intros (p1 & Hp1 & -> & ->)%prepare_keeps_seed. revert Hp1. unfold prepareHarvestSeed.
  destruct (resolved p); [by intros [= ->]|]. destruct (harvestSeed (roots p)); cbn [negb].
  - destruct (_ ≫= _); [|done]. by intros [= <-].
  - by intros [= <-].
Qed.

(** The facts of a Kubernetes-only plan its legs depend on. *)
Record k8s_shape (plan : topologyPlan) : Prop := {
  ks_wave src : filter (λ l : Query * bool, in_first_wave plan l.1 = true) (topologyLegs src) = [(QAlerts, true)];
  ks_flags : (rootedClaims plan, claimSeeded (roots plan), readsK8sWorkload plan, tracksByReference plan) = (false, false, true, true);
  ks_kind : flowlessAggrGauges (roots plan) || flowlessControllers (roots plan) = false;
  ks_only : kubernetesOnly (roots plan) = true;
  ks_alerts : failsClosed (roots plan) QAlerts = false;
}.

Ltac compute_eq := vm_compute; lazymatch goal with |- ?b = ?b => exact eq_refl end.

Lemma k8s_plan_shape r plan : k8sRoots r = true → roots plan = roots (k8sPlan r) → phaseOne plan = [] → k8s_shape plan.
Proof.
  intros Hk Hr Hph. destruct plan as [r' ph]. cbn [roots phaseOne] in Hr, Hph. subst r' ph.
  destruct r as [k names qs ps cs]. unfold k8sRoots in Hk. cbn [roots_Kind roots_Pods roots_Names] in Hk.
  revert Hk. case_bool_decide as Hp; [|case_bool_decide as Hn; [|done]]; subst k.
  - intros Hps. destruct ps as [|p ps]; [done|]. unfold k8sPlan, storageRootsPlan.
    cbn [roots_Kind roots_Names roots_Qualified roots_Pods roots_Claims fresh_plan roots].
    generalize (sortedNames names), (qualifiedPairs qs), (usableClaimRefs cs). intros names' qs' cs'.
    split; [intros [|]|..]; compute_eq.
  - unfold k8sPlan, storageRootsPlan. cbn [roots_Kind roots_Names roots_Qualified roots_Pods roots_Claims fresh_plan roots].
    generalize (sortedNames names), (qualifiedPairs qs), (usableClaimRefs cs). intros [|n names'] qs' cs'; [done|]. intros _.
    split; [intros [|]|..]; compute_eq.
Qed.

Section k8s_build.
Context `{Querier} `{Scheduler} `{MetricFingerprint} `{RegexpCompile}.
Context (is_bad_query : readError → bool) (gone : bool) (quote : string → string).
Context (window : Z) (opts : Options) (sel : Selector).

(** The legs of a Kubernetes-only read. *)
Lemma k8s_legs rollup delta rw plan : k8s_shape plan →
  legs_of is_bad_query gone quote window opts sel rollup delta rw plan =
  [start_leg is_bad_query gone window opts sel plan (QAlerts, true);
   land_leg [] [SigBindings; SigPVCInfo; SigAnnotations] (readK8sWorkload window opts sel plan quote);
   mkLeg [SigPVCInfo; SigFinal] [] (λ st,
     out <-! readScopedQoS window opts sel gone (failClosed (roots plan)) rollup delta rw (fo_v st);
     Ok (mkFanOut out.1 out.2 (fo_svm st) (fo_recovered st) (fo_degraded st) (fo_errors st) (fo_failed st)))].
Proof.
  intros [Hw Hf Hk Ho _]. injection Hf as Hrc Hcs Hrk Htr.
  unfold legs_of, first_wave, pod_seeds, claim_side, harvest_side, reference_side, final_signal.
  by rewrite Hw, Hrc, Hcs, Hrk, Htr, Hk, Ho, !andb_false_r.
Qed.

Lemma alerts_leg_refusing plan :
  start_leg (H:=refusing) is_bad_query gone window opts sel plan (QAlerts, true) =
  start_leg is_bad_query gone window opts sel plan (QAlerts, true).
Proof.
  unfold start_leg. rewrite (bool_decide_eq_false_2 (QAlerts = QVolumeLabels)) by done. cbn [andb].
  assert (answered_family QAlerts) as Ha by by vm_compute.
  assert (alerts_answer (H:=refusing) is_bad_query gone window opts sel = alerts_answer is_bad_query gone window opts sel) as Heq.
  { unfold alerts_answer. rewrite !(Instant_refusing QAlerts _ Ha). done. }
  rewrite Heq, bool_decide_eq_true_2 by done. unfold fetch. by rewrite (Instant_refusing QAlerts _ Ha).
Qed.

(** No Harvest family has landed. *)
Definition no_harvest (v : landed) : Prop := harvest_kept ∅ v.

Lemma no_harvest_labels v : no_harvest v → rows_of v QVolumeLabels = [].
Proof. intros Hv. unfold rows_of. rewrite (Hv QVolumeLabels); [done|]. unfold answered_family. by intros Hq; apply Hq; vm_compute. Qed.

Lemma alerts_leg_landed plan : no_harvest (fo_v (run_leg fo_start (start_leg is_bad_query gone window opts sel plan (QAlerts, true)))).
Proof.
  assert (answered_family QAlerts) as Ha by by vm_compute. unfold no_harvest, start_leg.
  rewrite (bool_decide_eq_false_2 (QAlerts = QVolumeLabels)) by done. cbn [andb].
  destruct (_ || _); unfold run_leg, land_leg; cbn [lg_needs lg_run existsb fo_v fo_start].
  - destruct (fetch _ _ _ _); [|done]. by apply kept_insert.
  - destruct (fetchOptionalVia _ _) as [[rows|]|]; [|done..]. by apply kept_insert.
Qed.

Lemma qos_idle v fc rollup delta rw : rows_of v QVolumeLabels = [] →
  readScopedQoS window opts sel gone fc rollup delta rw v = Ok (v, ∅).
Proof.
  intros Hv. unfold readScopedQoS. rewrite Hv. unfold qosVolumeScope.
  by rewrite (bool_decide_eq_true_2 (@nil Sample = [])), orb_true_r.
Qed.
End k8s_build.

Section k8s_build.
Context `{Querier} `{Scheduler} `{MetricFingerprint} `{RegexpCompile}.
Context (is_bad_query : readError → bool) (gone : bool) (quote : string → string).
Context (window : Z) (opts : Options) (sel : Selector).

(** The leg of the whole Kubernetes read. *)
Definition k8s_leg (plan : topologyPlan) : leg :=
  land_leg [] [SigBindings; SigPVCInfo; SigAnnotations] (readK8sWorkload window opts sel plan quote).

Lemma k8s_leg_landed plan st : no_harvest (fo_v st) →
  no_harvest (fo_v (run_leg st (k8s_leg plan))) ∨ SigPVCInfo ∈ fo_failed (run_leg st (k8s_leg plan)).
Proof.
  intros Hst. pose proof (readK8sWorkload_refusing window opts sel plan quote (fo_v st)) as [_ Hk].
  unfold k8s_leg, run_leg, land_leg. cbn [lg_needs lg_gives lg_run existsb].
  destruct (readK8sWorkload window opts sel plan quote (fo_v st)) as [v|e]; cbn [rbind].
  - left. intros q Hq. cbn [with_v fo_v]. by rewrite (Hk v eq_refl q Hq), Hst.
  - right. cbn [fo_failed]. rewrite elem_of_app. right. by right; left.
Qed.

(** The leg of the scoped QoS read. *)
Definition qos_leg (fc : bool) (rollup : Rollup) (delta : bool) (rw : VolumeKeyRewriter) : leg :=
  mkLeg [SigPVCInfo; SigFinal] [] (λ st,
    out <-! readScopedQoS window opts sel gone fc rollup delta rw (fo_v st);
    Ok (mkFanOut out.1 out.2 (fo_svm st) (fo_recovered st) (fo_degraded st) (fo_errors st) (fo_failed st))).

Lemma qos_leg_idle fc rollup delta rw st : no_harvest (fo_v st) ∨ SigPVCInfo ∈ fo_failed st →
  run_leg st (qos_leg fc rollup delta rw) =
  run_leg st (mkLeg [SigPVCInfo; SigFinal] [] (λ st,
    Ok (mkFanOut (fo_v st) ∅ (fo_svm st) (fo_recovered st) (fo_degraded st) (fo_errors st) (fo_failed st)))).
Proof.
  intros Hst. unfold run_leg. cbn [qos_leg lg_needs lg_gives lg_run existsb]. destruct Hst as [Hst|Hst].
  - by rewrite qos_idle by by apply no_harvest_labels.
  - by rewrite (bool_decide_eq_true_2 (SigPVCInfo ∈ _)).
Qed.
End k8s_build.

Section k8s_build.
Context `{Querier} `{Scheduler} `{MetricFingerprint} `{RegexpCompile}.
Context (is_bad_query : readError → bool) (gone : bool) (quote : string → string).
Context (window : Z) (opts : Options) (sel : Selector).

Lemma read_vectors_refusing rollup delta plan : k8s_shape plan →
  read_vectors (H:=refusing) is_bad_query gone quote window opts sel rollup delta plan =
  read_vectors is_bad_query gone quote window opts sel rollup delta plan.
Proof.
  intros Hs. unfold read_vectors.
  assert (foldl run_leg fo_start (legs_of (H:=refusing) is_bad_query gone quote window opts sel rollup delta (rewriter opts) plan) =
          foldl run_leg fo_start (legs_of is_bad_query gone quote window opts sel rollup delta (rewriter opts) plan)) as ->; [|done].
  rewrite !k8s_legs by done. cbn [foldl]. rewrite alerts_leg_refusing.
  pose proof (alerts_leg_landed is_bad_query gone window opts sel plan) as Hst. revert Hst.
  generalize (run_leg fo_start (start_leg is_bad_query gone window opts sel plan (QAlerts, true))). intros st Hst.
  assert (run_leg st (@k8s_leg refusing _ quote window opts sel plan) = run_leg st (k8s_leg quote window opts sel plan)) as Hk.
  { unfold run_leg, k8s_leg, land_leg. cbn [lg_needs lg_gives lg_run existsb].
    by rewrite (proj1 (readK8sWorkload_refusing window opts sel plan quote (fo_v st))). }
  etransitivity; [exact (f_equal (λ st, run_leg st (@qos_leg refusing _ gone window opts sel _ _ _ _)) Hk)|].
  pose proof (k8s_leg_landed quote window opts sel plan st Hst) as Hst'.
  etransitivity; [by apply (@qos_leg_idle refusing)|]. symmetry. by apply qos_leg_idle.
Qed.
End k8s_build.

Section k8s_theorem.
Context `{Querier} `{Scheduler} `{MetricFingerprint} `{RegexpCompile} `{EdgeUUID}.
Context (is_bad_query : readError → bool) (gone : bool) (quote : string → string).
Context (window end_ now : Z) (opts : Options) (sel : Selector).

(** C19: A Kubernetes-only build reads no Harvest family: the guard that refuses them
    never speaks, so the build is what it would be on the querier itself,
    whatever that querier answers. *)
Theorem k8s_build_asks_no_harvest r plan : k8sRoots r = true →
  prepare window (qosScopeBatchBytes opts) (opt_LabelKeys opts) sel (k8sPlan r) = Ok plan →
  BuildK8s is_bad_query gone quote window end_ now opts sel r =
  buildStorage true now (readTopology is_bad_query gone quote window end_ opts sel "" false plan).
Proof.
  intros Hk Hp. unfold BuildK8s, buildStorage_plan. rewrite Hk, Hp. cbn [negb].
  destruct (prepare_roots _ _ _ _ _ _ Hp) as [Hr Hph].
  assert (kubernetesOnly (roots plan) = true) as -> by by rewrite Hr. f_equal. unfold readTopology.
  destruct (prepare _ _ _ _ plan) as [plan'|] eqn:Hp'; [|done]. destruct (prepare_roots _ _ _ _ _ _ Hp') as [Hr' Hph'].
  change (@rejectWideAppMetadataSeed refusing) with (@rejectWideAppMetadataSeed _).
  destruct (rejectWideAppMetadataSeed _ _ plan'); [done|]. rewrite read_vectors_refusing; [done|].
  assert (harvestSeed (roots (k8sPlan r)) = false) as Hh.
  { destruct (k8sRoots_kind r Hk) as [Hkind|Hkind]; unfold k8sPlan, storageRootsPlan; rewrite Hkind; by vm_compute. }
  apply (k8s_plan_shape r); [done|congruence|]. rewrite Hph' by (by rewrite Hr). by rewrite Hph.
Qed.
End k8s_theorem.

(** ** The errors of an unrestricted read *)

(** The families whose failure fails a read of /v1/graph. *)
Definition required : list Query :=
  [QPodInfo; QNodeInfo; QNodeAddresses; QPVCBindings; QNodeLabels; QServiceInfo; QEndpointSliceEndpoints;
   QEndpointSliceLabels; QPodOwner; QReplicaSetOwner; QPVCInfo; QNodeStatusCondition; QServiceAnnotations;
   QPVCAnnotations; QJobOwner; QDeploymentAnnotations; QStatefulSetAnnotations; QDaemonSetAnnotations;
   QCronJobAnnotations].

(** The families of the first wave whose failure degrades it: Harvest, the alerts, the
    kubelet, the containers, the annotations of ReplicaSets and Jobs, the metadata. *)
Definition degrading : list Query :=
  [QVolumeLabels; QQoSPolicyFixedMaxIOPS; QQoSPolicyFixedMaxMBps; QAggrStatus; QAggrSpaceUsed; QAggrSpaceTotal;
   QNetAppNodeStatus; QNetAppNodeLabels; QNetAppNodeCPUBusy; QNetAppNodeTotalOps; QNetAppNodeTotalLatency;
   QNetAppNodeTotalData; QAlerts; QKubeletVolumeUsedBytes; QKubeletVolumeCapacityBytes; QPodContainerInfo;
   QReplicaSetAnnotations; QJobAnnotations; QAppMetadata].

Section graph_read.
Context `{Querier} `{Scheduler} `{MetricFingerprint} `{RegexpCompile} `{EdgeUUID}.
Context (is_bad_query : readError → bool) (quote : string → string).
Context (window end_ : Z) (opts : Options) (sel : Selector).

(** The facts of the /v1/graph plan its legs depend on. *)
Record graph_shape (plan : topologyPlan) : Prop := {
  gs_wave src : filter (λ l : Query * bool, in_first_wave plan l.1 = true) (topologyLegs src) = topologyLegs src;
  gs_flags : (rootedClaims plan, claimSeeded (roots plan), tracksByReference plan, byReference (roots plan)) = (false, false, false, false);
  gs_closed : failClosed (roots plan) = false;
  gs_kind : (bindingsFromSeed (roots plan), flowlessAggrGauges (roots plan) || flowlessControllers (roots plan)) = (false, false);
  gs_seeds : (some_of (nodeRoots (roots plan)), some_of (pods (roots plan))) = (false, false);
  gs_apps : some_of (applicationRoots (roots plan)) = false;
}.

Lemma graph_plan_shape plan : roots plan = roots fullPlan → phaseOne plan = [] → graph_shape plan.
Proof.
  intros Hr Hph. destruct plan as [r' ph]. cbn [roots phaseOne] in Hr, Hph. subst r' ph.
  split; [intros [|]|..]; compute_eq.
Qed.

Lemma graph_legs rollup delta rw plan : graph_shape plan →
  legs_of is_bad_query false quote window opts sel rollup delta rw plan =
  map (start_leg is_bad_query false window opts sel plan)
    (topologyLegs (match opt_AppMetadata opts with Some _ => appMetadataServed | None => false end)) ++
  [mkLeg [SigPVCInfo; SigVolumeLabels] [] (λ st,
     out <-! readScopedQoS window opts sel false (failClosed (roots plan)) rollup delta rw (fo_v st);
     Ok (mkFanOut out.1 out.2 (fo_svm st) (fo_recovered st) (fo_degraded st) (fo_errors st) (fo_failed st)))].
Proof.
  intros [Hw Hf Hc Hk Hs _]. injection Hf as Hrc Hcs Htr Hbr. injection Hk as _ Hfl. injection Hs as Hn Hp.
  unfold legs_of, first_wave, pod_seeds, claim_side, harvest_side, reference_side, final_signal.
  rewrite Hw, Hrc, Hcs, Htr, Hbr, Hfl, Hn, Hp, !andb_false_r. done.
Qed.

(** What a first-wave leg of an unrestricted read adds to the errors. *)
Definition leg_errors (l : Query * bool) : list readError := if l.2 then [] else err_of (fetch window opts sel l.1).

Lemma start_leg_errors plan st l : graph_shape plan →
  fo_errors (run_leg st (start_leg is_bad_query false window opts sel plan l)) = fo_errors st ++ leg_errors l.
Proof.
  intros [_ Hf Hc _ _ _]. injection Hf as Hrc _ _ _. destruct l as [q optional]. unfold start_leg. rewrite Hrc, !andb_false_r.
  unfold failsClosed. rewrite Hc. cbn [andb orb]. rewrite orb_false_r. unfold leg_errors. cbn [fst snd].
  destruct optional; cbn [negb]; unfold run_leg, land_leg; cbn [lg_needs lg_run existsb].
  - destruct (if bool_decide (q = QAlerts) then _ else _); cbn; by rewrite app_nil_r.
  - destruct (fetch window opts sel q); cbn; [by rewrite app_nil_r|done].
Qed.

Lemma wave_errors_all plan ls st : graph_shape plan →
  fo_errors (foldl run_leg st (map (start_leg is_bad_query false window opts sel plan) ls)) = fo_errors st ++ mjoin (map leg_errors ls).
Proof.
  intros Hs. revert st. induction ls as [|l ls IH]; intros st; cbn [map foldl]; [cbn; by rewrite app_nil_r|].
  rewrite IH, start_leg_errors by done. cbn. by rewrite (assoc_L (++)).
Qed.

Lemma qos_chunk_degrades q text : ∃ rows, runQoSChunk false false q text = Ok rows.
Proof. unfold runQoSChunk. destruct text as [text|]; [|by eexists]. destruct (Instant q text); by eexists. Qed.

Lemma no_wave_errors (f : Query → list string → result readError (list Sample)) qs cs :
  (∀ q c, ∃ rows, f q c = Ok rows) → wave_errors (mjoin (map (λ q, map (f q) cs) qs)) = [].
Proof.
  intros Hf. unfold wave_errors. apply elem_of_nil_inv. intros e (r & Hr & He)%list_elem_of_omap.
  apply list_elem_of_join in Hr as (l & Hr & Hl). apply list_elem_of_fmap in Hl as (q & -> & _).
  apply list_elem_of_fmap in Hr as (c & -> & _). destruct (Hf q c) as [rows Hrows]. by rewrite Hrows in He.
Qed.

(** A failing scoped QoS query degrades. *)
Lemma qos_degrades rollup delta rw v : ∃ out, readScopedQoS window opts sel false false rollup delta rw v = Ok out.
Proof.
  unfold readScopedQoS. case_bool_decide; [by eexists|]. cbv zeta.
  match goal with |- ∃ _, wave (?a ++ ?b) ?o = _ =>
    enough (wave_errors a = [] ∧ wave_errors b = []) as [Ha Hb] by (exists o; unfold wave, wave_errors in *; by rewrite omap_app, Ha, Hb)
  end.
  split; [destruct delta; [|done]|]; apply no_wave_errors; intros; apply qos_chunk_degrades.
Qed.

Lemma graph_read_errors rollup delta rw plan : graph_shape plan →
  fo_errors (foldl run_leg fo_start (legs_of is_bad_query false quote window opts sel rollup delta rw plan)) =
  mjoin (map (λ q, err_of (fetch window opts sel q)) required).
Proof.
  intros Hs. rewrite graph_legs, foldl_app by done. cbn [foldl].
  set (st := foldl run_leg fo_start _).
  assert (fo_errors (run_leg st (mkLeg [SigPVCInfo; SigVolumeLabels] [] (λ st,
     out <-! readScopedQoS window opts sel false (failClosed (roots plan)) rollup delta rw (fo_v st);
     Ok (mkFanOut out.1 out.2 (fo_svm st) (fo_recovered st) (fo_degraded st) (fo_errors st) (fo_failed st))))) = fo_errors st) as ->.
  { unfold run_leg. cbn [lg_needs lg_run lg_gives]. destruct (existsb _ _); [cbn; by rewrite app_nil_r|].
    rewrite (gs_closed _ Hs). destruct (qos_degrades rollup delta rw (fo_v st)) as [out ->]. done. }
  unfold st. rewrite wave_errors_all by done. cbn [app fo_errors fo_start].
  assert (∀ ls, mjoin (map leg_errors ls) =
    mjoin (map (λ q, err_of (fetch window opts sel q)) (map fst (filter (λ l : Query * bool, l.2 = false) ls)))) as Hls.
  { intros ls. induction ls as [|[q o] ls IH]; [done|]. rewrite filter_cons. unfold leg_errors in *. cbn [map snd fst].
    destruct o; [rewrite decide_False by done; exact IH|rewrite decide_True by done; exact (f_equal (app _) IH)]. }
  rewrite Hls. by destruct (match opt_AppMetadata opts with Some _ => _ | None => _ end).
Qed.
End graph_read.

Section graph_theorem.
Context `{Querier} `{Scheduler} `{MetricFingerprint} `{RegexpCompile} `{EdgeUUID}.
Context (is_bad_query : readError → bool) (quote : string → string).
Context (window end_ : Z) (opts : Options) (sel : Selector).

(** C18: While its caller waits, an unrestricted read fails exactly when one of the
    nineteen required families fails: the pods, nodes, their addresses, labels and
    conditions, the claims, their bindings and annotations, the services, their
    annotations and endpoint slices, the owners of pods, ReplicaSets and Jobs, and
    the annotations of Deployments, StatefulSets, DaemonSets and CronJobs. The
    families of the first wave beside these are the nineteen [degrading] ones -
    Harvest, alerts, kubelet, containers, ReplicaSet and Job annotations, application
    metadata - and no failure of theirs, nor of a scoped QoS query, fails it. The
    error returned is one of a required family's, wrapped with its name. *)
Theorem ReadTopology_degrades :
  let read := ReadTopology is_bad_query false quote window end_ opts sel in
  (map fst (topologyLegs true) ≡ₚ required ++ degrading ∧ NoDup (required ++ degrading)) ∧
  ((∃ t, read = Ok t) ↔ ∀ q, q ∈ required → ∃ rows, Instant q (Render q window (opt_LabelKeys opts) sel) = Ok rows) ∧
  ∀ e, read = Err e → ∃ q e', q ∈ required ∧ Instant q (Render q window (opt_LabelKeys opts) sel) = Err e' ∧
    Some e = fan_out_error <$> wrapQueryError q (Some e').
Proof.
  intros read. split; [split; apply (bool_decide_unpack _); by vm_compute|]. unfold read, ReadTopology, readTopology.
  destruct (prepare _ _ _ _ fullPlan) as [plan|] eqn:Hp; [|exfalso; revert Hp; by vm_compute].
  destruct (prepare_roots _ _ _ _ _ _ Hp) as [Hr Hph].
  assert (graph_shape plan) as Hs by (apply graph_plan_shape; [done|by rewrite Hph]). clear Hp Hr Hph.
  set (o := withAppMetadataDefaults opts).
  assert (rejectWideAppMetadataSeed o sel plan = None) as ->.
  { unfold rejectWideAppMetadataSeed. by rewrite (gs_apps _ Hs), orb_true_r. }
  unfold read_vectors. rewrite graph_read_errors by done.
  assert (∀ q, q ∈ required → fetch window o sel q = match Instant q (Render q window (opt_LabelKeys opts) sel) with
      | Ok rows => Ok rows | Err e => Err (default e (wrapQueryError q (Some e))) end) as Hfetch.
  { intros q Hq. unfold fetch, renderTopologyQuery. cbn [o withAppMetadataDefaults opt_AppMetadata opt_LabelKeys].
    assert (q ≠ QAppMetadata) as Hne.
    { intros ->. revert Hq. apply (bool_decide_unpack (QAppMetadata ∉ required)). by vm_compute. }
    destruct (_ <$> _); [|done]. by rewrite bool_decide_eq_false_2. }
  assert (∀ e, e ∈ mjoin (map (λ q, err_of (fetch window o sel q)) required) ↔
    ∃ q e', q ∈ required ∧ Instant q (Render q window (opt_LabelKeys opts) sel) = Err e' ∧ Some e = wrapQueryError q (Some e')) as Hin.
  { intros e. rewrite list_elem_of_join. split.
    - intros (l & He & Hl). apply list_elem_of_fmap in Hl as (q & -> & Hq). rewrite (Hfetch q Hq) in He. exists q.
      destruct (Instant q _) as [rows|e']; [by apply elem_of_nil in He|]. exists e'. split_and!; [done|done|].
      cbn in He |- *. by apply list_elem_of_singleton in He as ->.
    - intros (q & e' & Hq & Hi & He). exists (err_of (fetch window o sel q)). split; [|by apply list_elem_of_fmap; exists q].
      rewrite (Hfetch q Hq), Hi. cbn in He |- *. apply list_elem_of_singleton. by injection He. }
  destruct (mjoin _) as [|e es] eqn:Hes; cbn [rbind].
  - split; [|done]. split; [|by eexists]. intros _ q Hq. destruct (Instant q _) as [rows|e'] eqn:Hi; [by eexists|].
    exfalso. destruct (Hin (default e' (wrapQueryError q (Some e')))) as [_ Hx].
    apply (elem_of_nil (default e' (wrapQueryError q (Some e')))), Hx. by exists q, e'.
  - destruct (proj1 (Hin (first_failed e es)) (first_failed_in e es)) as (q & e' & Hq & Hi & He). split.
    + split; [by intros [t ?]|]. intros Hall. destruct (Hall q Hq) as [rows Hr]. congruence.
    + intros e0 [= <-]. exists q, e'. split_and!; [done|done|]. by rewrite <-He.
Qed.
End graph_theorem.

(** ** Samples *)

#[local] Existing Instances Estate.querier Estate.scheduler NetAppProps.no_fingerprint VolumeKey.literal_regexp NetAppProps.name_uuid.

Definition sample_plan (p : topologyPlan) : topologyPlan :=
  match prepare Estate.window (qosScopeBatchBytes Estate.opts) (opt_LabelKeys Estate.opts) Estate.sel p with
  | Ok p => p
  | Err _ => fullPlan
  end.

Lemma fan_out_channels_witness :
  NoDup (closed_at_start (sample_plan (storagePlan Estate.pod_roots)) ++
    mjoin (map lg_gives (legs_of (λ _, false) false (λ s, s) Estate.window Estate.opts Estate.sel "" false (rewriter Estate.opts)
      (sample_plan (storagePlan Estate.pod_roots))))).
Proof.
  apply (fan_out_channels (λ _, false) false (λ s, s) Estate.window Estate.opts Estate.sel (storagePlan Estate.pod_roots)
           _ (qosScopeBatchBytes Estate.opts)).
  - apply storage_plan.
  - vm_compute. reflexivity.
Defined.

Lemma k8s_build_asks_no_harvest_witness :
  BuildK8s (λ _, false) false (λ s, s) Estate.window 0 0 Estate.opts Estate.sel Estate.pod_roots =
  buildStorage true 0 (readTopology (λ _, false) false (λ s, s) Estate.window 0 Estate.opts Estate.sel "" false
    (sample_plan (k8sPlan Estate.pod_roots))).
Proof.
  apply (k8s_build_asks_no_harvest (λ _, false) false (λ s, s) Estate.window 0 0 Estate.opts Estate.sel Estate.pod_roots).
  - vm_compute. reflexivity.
  - vm_compute. reflexivity.
Defined.

(** A store of which every family but the required ones is down. *)
Definition required_only : Querier := {|
  Instant q _ := if bool_decide (q ∈ required) then Ok [] else Err (own_error "down");
  FamilyServer := None;
|}.

Lemma ReadTopology_degrades_witness :
  (∃ t, ReadTopology (H:=required_only) (λ _, false) false (λ s, s) Estate.window 0 Estate.opts Estate.sel = Ok t) ∧
  ∃ e, Instant (Querier:=required_only) QAlerts "ALERTS" = Err e.
Proof.
  split; [|by eexists].
  refine (proj2 (proj1 (proj2 (ReadTopology_degrades (H:=required_only) (λ _, false) (λ s, s) Estate.window 0 Estate.opts Estate.sel))) _).
  intros q Hq. exists []. cbn [required_only Instant]. by rewrite bool_decide_eq_true_2.
Defined.
