(* ===== verification/ClaimRoot.v ===== *)
(** What a claim root reads, on an upstream that answers every query of the build
    from one estate: the reads per namespace return the rows of the named objects,
    and the claim seed, the claim families and the pod wave of a pvc or pv root
    load exactly what the root reaches. *)

From S2P Require Import Prelude GoStrings PromStrings Selector Queries ScopeChunks PairScope.
From S2P Require Import HarvestScope.
From S2P Require Import ScopedRender AppMetadata Float64 Fanout StorageScope BuildIdentity.
From S2P Require Import VolumeKey TopologyTypes.
From S2P Require Import NameScopes ScopedReads ReadPlan K8sRead Upstream K8sReadProps K8sLoad.
From S2P Require Import K8sReadTheorems.
From S2P Require Import VolumeLabelScope VolumeLabelProps StorageReads.

#[local] Open Scope ksg_scope.

(** ** Reads per namespace *)

(** The namespace and the named object of a row. *)
Definition row_object (label : string) (s : Sample) : string * string :=
  (label_of (s_Metric s) NamespaceLabel, label_of (s_Metric s) label).

(** The objects a group names, and all groups. *)
Definition group_objects (g : string * list string) : list (string * string) := map (pair g.1) g.2.
Definition groups_objects (gs : list (string * list string)) : list (string * string) := mjoin (map group_objects gs).

(** Groups of distinct namespaces, each of distinct non-empty names. *)
Definition good_groups (gs : list (string * list string)) : Prop :=
  NoDup (map fst gs) ∧ Forall (λ g : string * list string, proper_names g.2) gs.

Lemma groups_objects_NoDup gs : good_groups gs → NoDup (groups_objects gs).
Proof.
  intros [Hnd Hf]. unfold groups_objects. induction gs as [|[ns l] gs IH]; [constructor|].
  cbn [map fst] in Hnd. apply NoDup_cons in Hnd as [Hns Hnd]. apply Forall_cons in Hf as [[Hl _] Hf].
  change (mjoin (map group_objects ((ns, l) :: gs))) with (group_objects (ns, l) ++ mjoin (map group_objects gs)).
  apply NoDup_app. split_and!; [|intros [a b] Hin Hin'|by apply IH].
  - apply NoDup_fmap_2; [|exact Hl]. by intros x y [= ->].
  - apply list_elem_of_fmap in Hin as (n & [= -> ->] & _). apply list_elem_of_join in Hin' as (o & Ho & Hgs).
    apply list_elem_of_fmap in Hgs as ([ns' l'] & -> & Hg). apply list_elem_of_fmap in Ho as (n' & [= -> ->] & _).
    apply Hns, list_elem_of_fmap. by exists (ns', l').
Qed.

(** Groups filed by distinct namespaces. *)
Lemma filed_groups_good (f : string → list string) l : (∀ ns, proper_names (f ns)) →
  good_groups (map (λ ns, (ns, f ns)) (compact (sort_func String.compare l))).
Proof.
  intros Hf. split.
  - rewrite map_map. cbn [fst]. rewrite map_id. apply (sorted_lt_NoDup String.compare), (sort_compact_sorted String.compare).
  - apply Forall_map, Forall_true. intros ns. apply Hf.
Qed.

Lemma regroup_map {A B} (f : A → B) (gs : list (list A)) : regroup gs (map f (mjoin gs)) = map (map f) gs.
Proof.
  induction gs as [|g gs IH]; [done|]. change (mjoin (g :: gs)) with (g ++ mjoin gs). cbn [regroup map].
  rewrite map_app, <-(length_map f g), take_app_length, drop_app_length. by rewrite IH.
Qed.

Section reads.
Context `{Querier} `{Scheduler} (window : Z) (opts : Options) (sel : Selector).
Context (estate : Query → list Sample) `{!Honest estate window (opt_LabelKeys opts) sel}.

#[local] Abbreviation keys := (opt_LabelKeys opts).
#[local] Abbreviation lk := (OrDefault keys).

(** A family restricted within one namespace. *)
Lemma in_namespace_answers q label g render overhead reserve : namespaceNameLabel q label = true → proper_names g.2 →
  (∀ c, render c = RenderNamesInNamespace q window keys sel g.1 label c) →
  let fam := mkScopedFamily q g.2 (Some render) overhead reserve in
  all_answered (family_parts window opts sel fam) ∧
  same_by_key (row_object label) (default [] (family_rows window opts sel fam))
    (filter (λ s, row_object label s ∈ group_objects g) (estate q)).
Proof.
  intros Hlabel [Hnd Hne] Hrender fam.
  apply (family_answers window opts sel estate (row_object label) (pair g.1) fam); [|by apply NoDup_fmap_2; [intros x y [= ->]|]].
  intros c [Hc Hin]%family_chunk_in. cbn [fam sf_query sf_render sf_scope] in *.
  assert (Forall (λ n, n ≠ "") c) as Hcn by (apply Forall_forall; rewrite Forall_forall in Hne; auto).
  destruct (RenderNames_fail_closed q window keys sel g.1 label [] c) as [Hr _]. rewrite <-Hrender in Hr.
  destruct (render c) as [text|] eqn:E.
  - destruct Hr as (_ & _ & Hext).
    rewrite (issueScopedChunk_answers window opts sel estate q c (Some render) text
      [(NamespaceLabel, [g.1]); (label, normaliseValues c)] E ltac:(done) Hext).
    f_equal. apply list_filter_iff. intros s. unfold selects, row_object. rewrite Forall_cons, Forall_singleton. cbn [fst snd].
    rewrite list_elem_of_singleton, elem_of_normalised, list_elem_of_fmap by done. split.
    + intros [-> Hn]. by eexists.
    + by intros (n & [= -> ->] & Hn).
  - destruct Hr as [Hr|Hr]; [congruence|by rewrite proper_has_value in Hr].
Qed.

(** What one family returns over the groups. *)
Definition grouped_rows (label : string) (keep : Metric → bool) (gs : list (string * list string)) (q : Query) : list Sample :=
  merge_parts keep (map (family_rows window opts sel) (map (namespace_family window opts sel label q) gs)).

Lemma grouped_rows_same label keep gs q : namespaceNameLabel q label = true → good_groups gs →
  same_by_key (row_object label) (grouped_rows label keep gs q)
    (filter (λ s, keep (s_Metric s) = true ∧ row_object label s ∈ groups_objects gs) (estate q)).
Proof.
  intros Hlabel Hgs. pose proof (groups_objects_NoDup gs Hgs) as Hnd. destruct Hgs as [_ Hgs].
  transitivity (mjoin (map (λ c, filter (λ s, row_object label s ∈ c) (filter (λ s, keep (s_Metric s) = true) (estate q)))
                  (map group_objects gs))).
  - unfold grouped_rows, merge_parts. clear Hnd. induction Hgs as [|g gs Hg _ IH]; [done|].
    change (same_by_key (row_object label)
      (keepRows (default [] (family_rows window opts sel (namespace_family window opts sel label q g))) keep ++
       mjoin (map (λ o, keepRows (default [] o) keep)
         (map (family_rows window opts sel) (map (namespace_family window opts sel label q) gs))))
      (filter (λ s, row_object label s ∈ group_objects g) (filter (λ s, keep (s_Metric s) = true) (estate q)) ++
       mjoin (map (λ c, filter (λ s, row_object label s ∈ c) (filter (λ s, keep (s_Metric s) = true) (estate q)))
                (map group_objects gs)))).
    apply same_by_key_app; [|exact IH].
    destruct (in_namespace_answers q label g (RenderNamesInNamespace q window keys sel g.1 label) 0 (NamespaceEqualityCost g.1)
                Hlabel Hg (λ _, eq_refl)) as [_ Hsame].
    unfold keepRows. etransitivity; [by apply (same_by_key_filter _ (λ s, keep (s_Metric s) = true))|].
    rewrite !list_filter_filter. intros k. f_equal. apply list_filter_iff. intros s. tauto.
  - rewrite pieces_same by done. rewrite list_filter_filter. fold (groups_objects gs).
    intros k. f_equal. apply list_filter_iff. intros s. tauto.
Qed.

Lemma issueByNamespace_ok label keep targets gs : Forall (λ q, namespaceNameLabel q label = true) targets → good_groups gs →
  issueByNamespace window opts sel label keep targets gs = Ok (map (grouped_rows label keep gs) targets).
Proof.
  intros Ht Hgs. unfold issueByNamespace. rewrite issueScopedFamilies_answered.
  - cbn [rbind]. rewrite regroup_map, !map_map. done.
  - rewrite Forall_forall in Ht. destruct Hgs as [_ Hgs]. rewrite Forall_forall in Hgs.
    apply Forall_forall. intros fam Hin. apply list_elem_of_join in Hin as (l & Hfam & Hl).
    apply list_elem_of_fmap in Hl as (q & -> & Hq). apply list_elem_of_fmap in Hfam as (g & -> & Hg).
    by apply (in_namespace_answers q label g (RenderNamesInNamespace q window keys sel g.1 label)); [apply Ht|apply Hgs|].
Qed.

(** ** The slots *)

Lemma rows_of_land_all v targets (f : Query → list Sample) : NoDup targets →
  (∀ q, q ∈ targets → rows_of (land_all v targets (map f targets)) q = f q) ∧
  (∀ q, q ∉ targets → rows_of (land_all v targets (map f targets)) q = rows_of v q).
Proof.
  unfold land_all. revert v. induction targets as [|t targets IH]; intros v Hnd; [split; [by intros q ?%elem_of_nil|done]|].
  apply NoDup_cons in Hnd as [Ht Hnd]. cbn [map zip zip_with foldl fst snd]. destruct (IH (<[t := f t]> v) Hnd) as [Hin Hout]. split.
  - intros q [->|Hq]%elem_of_cons; [by rewrite Hout, rows_of_insert|by apply Hin].
  - intros q [Hq Hqs]%not_elem_of_cons. rewrite Hout by done. by apply rows_of_insert_ne.
Qed.

(** ** Claims *)

(** A row about one of [claims]. *)
Definition about_one (claims : gset claimKey) (s : Sample) : Prop :=
  label_of (s_Metric s) ClaimLabel ≠ "" ∧ claimKeyOf (s_Metric s) lk (label_of (s_Metric s) ClaimLabel) ∈ claims.

#[export] Instance about_one_dec claims s : Decision (about_one claims s).
Proof. unfold about_one. apply _. Defined.

Lemma claim_groups_good claims : good_groups (claim_groups claims).
Proof.
  unfold claim_groups. apply filed_groups_good. intros ns. apply sortedNames_proper.
Qed.

Lemma claim_groups_objects claims p :
  p ∈ groups_objects (claim_groups claims) ↔ ∃ k, k ∈ claims ∧ ck_claim k ≠ "" ∧ p = (ck_namespace k, ck_claim k).
Proof.
  unfold groups_objects, claim_groups. rewrite list_elem_of_join. split.
  - intros (l & Hp & Hl). apply list_elem_of_fmap in Hl as (g & -> & Hg). apply list_elem_of_fmap in Hg as (ns & -> & _).
    apply list_elem_of_fmap in Hp as (c & -> & Hc). cbn [fst snd] in *. apply elem_of_sortedNames in Hc as [_ Hc].
    apply list_elem_of_fmap in Hc as (k & -> & Hk). apply list_elem_of_filter in Hk as [<- Hk].
    apply list_elem_of_filter in Hk as [Hne Hk]. rewrite elem_of_elements in Hk. by exists k.
  - intros (k & Hk & Hne & ->). set (ks := filter _ _).
    assert (k ∈ ks) as Hks by (apply list_elem_of_filter; by rewrite elem_of_elements).
    set (g := (ck_namespace k, sortedNames (map ck_claim (filter (λ k', ck_namespace k' = ck_namespace k) ks)))).
    exists (group_objects g). split.
    + apply list_elem_of_fmap. exists (ck_claim k). split; [done|]. apply elem_of_sortedNames. split; [done|].
      apply list_elem_of_fmap. exists k. split; [done|]. by apply list_elem_of_filter.
    + apply list_elem_of_fmap. exists g. split; [done|]. apply list_elem_of_fmap. exists (ck_namespace k). split; [done|].
      apply (elem_of_sort_compact String.compare), list_elem_of_fmap. by exists k.
Qed.

(** The read of claim families per namespace: the rows about the claims. *)
Lemma issueClaimFamilies_ok targets claims v : Forall (λ q, namespaceNameLabel q ClaimLabel = true) targets → NoDup targets →
  (∀ q, q ∈ targets → rows_of v q = []) →
  ∃ v', issueClaimFamiliesByNamespace window opts sel targets claims v = Ok v' ∧
    (∀ q, q ∈ targets → rows_of v' q ≡ₚ filter (about_one claims) (estate q)) ∧
    (∀ q, q ∉ targets → rows_of v' q = rows_of v q).
Proof.
  intros Ht Hnd Hv. unfold issueClaimFamiliesByNamespace.
  assert (∀ s, isTracked opts claims (s_Metric s) = true ∧ row_object ClaimLabel s ∈ groups_objects (claim_groups claims) ↔
               about_one claims s) as Habout.
  { intros s. unfold isTracked, about_one, row_object. rewrite bool_decide_eq_true, claim_groups_objects. split.
    - intros (Hin & k & Hk & Hne & [= Hns Hc]). by rewrite Hc in *.
    - intros [Hne Hin]. split; [done|]. by eexists. }
  case_bool_decide as Hg.
  - exists v. split_and!; [done| |done]. intros q Hq. rewrite Hv by done.
    assert (filter (about_one claims) (estate q) = []) as ->; [|done]. apply elem_of_nil_inv.
    intros s [Hs _]%list_elem_of_filter. apply Habout in Hs as [_ Hs]. rewrite Hg in Hs. by apply elem_of_nil in Hs.
  - rewrite issueByNamespace_ok by (done || apply claim_groups_good). cbn [rbind]. eexists. split; [done|].
    destruct (rows_of_land_all v targets (grouped_rows ClaimLabel (isTracked opts claims) (claim_groups claims)) Hnd) as [Hin Hout].
    split; [|exact Hout]. intros q Hq. rewrite (Hin q Hq). rewrite Forall_forall in Ht.
    rewrite (same_by_key_perm _ _ _ (grouped_rows_same ClaimLabel (isTracked opts claims) _ q (Ht q Hq) (claim_groups_good claims))).
    by rewrite (list_filter_iff _ _ _ Habout).
Qed.

(** ** Pods *)

Lemma groupPodRefs_good refs : good_groups (groupPodRefs refs).
Proof.
  unfold groupPodRefs. apply filed_groups_good. intros ns.
  split; [apply (sorted_lt_NoDup String.compare), (sort_compact_sorted String.compare)|].
  apply Forall_forall. intros n Hn. rewrite (elem_of_sort_compact String.compare) in Hn.
  apply list_elem_of_fmap in Hn as (r & -> & Hr).
    apply list_elem_of_filter in Hr as [_ Hr]. by apply list_elem_of_filter in Hr as [? _].
Qed.

Lemma groupPodRefs_objects refs p :
  p ∈ groups_objects (groupPodRefs refs) ↔ ∃ r, r ∈ refs ∧ pr_Name r ≠ "" ∧ p = (pr_Namespace r, pr_Name r).
Proof.
  unfold groups_objects, groupPodRefs. rewrite list_elem_of_join. split.
  - intros (l & Hp & Hl). apply list_elem_of_fmap in Hl as (g & -> & Hg). apply list_elem_of_fmap in Hg as (ns & -> & _).
    apply list_elem_of_fmap in Hp as (c & -> & Hc). cbn [fst snd] in *. rewrite (elem_of_sort_compact String.compare) in Hc.
    apply list_elem_of_fmap in Hc as (k & -> & Hk). apply list_elem_of_filter in Hk as [<- Hk].
    apply list_elem_of_filter in Hk as [Hne Hk]. by exists k.
  - intros (k & Hk & Hne & ->). set (ks := filter (λ r, pr_Name r ≠ "") refs).
    assert (k ∈ ks) as Hks by by apply list_elem_of_filter.
    set (g := (pr_Namespace k, compact (sort_func String.compare (map pr_Name (filter (λ k', pr_Namespace k' = pr_Namespace k) ks))))).
    exists (group_objects g). split.
    + apply list_elem_of_fmap. exists (pr_Name k). split; [done|]. apply (elem_of_sort_compact String.compare), list_elem_of_fmap. exists k.
      split; [done|]. by apply list_elem_of_filter.
    + apply list_elem_of_fmap. exists g. split; [done|]. apply list_elem_of_fmap. exists (pr_Namespace k). split; [done|].
      apply (elem_of_sort_compact String.compare), list_elem_of_fmap. by exists k.
Qed.

(** The read of pod families per namespace: the rows of the referenced pods. *)
Lemma issuePodFamilies_ok targets refs v : Forall (λ q, namespaceNameLabel q PodLabel = true) targets → NoDup targets →
  (∀ q, q ∈ targets → rows_of v q = []) →
  ∃ v', issuePodFamiliesByNamespace window opts sel targets refs v = Ok v' ∧
    (∀ q, q ∈ targets → rows_of v' q ≡ₚ
       filter (λ s, label_of (s_Metric s) PodLabel ≠ "" ∧ pod_ref_of (s_Metric s) ∈ refs) (estate q)) ∧
    (∀ q, q ∉ targets → rows_of v' q = rows_of v q).
Proof.
  intros Ht Hnd Hv. unfold issuePodFamiliesByNamespace.
  assert (∀ s, true = true ∧ row_object PodLabel s ∈ groups_objects (groupPodRefs refs) ↔
               label_of (s_Metric s) PodLabel ≠ "" ∧ pod_ref_of (s_Metric s) ∈ refs) as Habout.
  { intros s. unfold row_object, pod_ref_of. rewrite groupPodRefs_objects. split.
    - intros (_ & [ns n] & Hr & Hne & [= Hns Hn]). cbn in *. by subst.
    - intros [Hne Hin]. split; [done|]. by eexists. }
  case_bool_decide as Hg.
  - exists v. split_and!; [done| |done]. intros q Hq. rewrite Hv by done.
    match goal with |- _ ≡ₚ ?l => assert (l = []) as ->; [|done] end. apply elem_of_nil_inv.
    intros s [Hs _]%list_elem_of_filter. apply Habout in Hs as [_ Hs]. rewrite Hg in Hs. by apply elem_of_nil in Hs.
  - rewrite issueByNamespace_ok by (done || apply groupPodRefs_good). cbn [rbind]. eexists. split; [done|].
    destruct (rows_of_land_all v targets (grouped_rows PodLabel (λ _, true) (groupPodRefs refs)) Hnd) as [Hin Hout].
    split; [|exact Hout]. intros q Hq. rewrite (Hin q Hq). rewrite Forall_forall in Ht.
    rewrite (same_by_key_perm _ _ _ (grouped_rows_same PodLabel (λ _, true) _ q (Ht q Hq) (groupPodRefs_good refs))).
    by rewrite (list_filter_iff _ _ _ Habout).
Qed.
End reads.

(** ** The claim seed *)

(** A row of the claim-info family a pvc or pv root names. *)
Definition claim_root (r : planRoots) (s : Sample) : Prop :=
  label_of (s_Metric s) NamespaceLabel ≠ "" ∧
  if some_of (claimRoots r) then mkClaimRef (label_of (s_Metric s) NamespaceLabel) (label_of (s_Metric s) ClaimLabel) ∈ claimRoots r
  else label_of (s_Metric s) VolumeNameLabel ∈ volumeRoots r.

#[export] Instance claim_root_dec r s : Decision (claim_root r s).
Proof. unfold claim_root. destruct (some_of _); apply _. Defined.

(** What a plan's claim roots are: usable references or distinct volume names. *)
Record claim_plan (r : planRoots) : Prop := {
  cp_seeded : claimSeeded r = true;
  cp_refs : Forall (λ c, cr_Namespace c ≠ "" ∧ cr_Name c ≠ "") (claimRoots r);
  cp_volumes : proper_names (volumeRoots r);
}.

(** The order of claim references. *)
Definition claim_ref_cmp : ClaimRef → ClaimRef → comparison :=
  cmp_lex (on_key cr_Namespace String.compare) (on_key cr_Name String.compare).

#[export] Instance claim_ref_cmp_strict : GoCmpStrict claim_ref_cmp.
Proof.
  split; [unfold claim_ref_cmp; apply _|]. intros [a b] [c d] Heq.
  apply cmp_lex_eq in Heq as [H1 H2]. by apply string_compare_eq in H1 as [= ->], H2 as [= ->].
Qed.

Lemma storage_claim_plan r : claimSeeded (storageRootsPlan r) = true → claim_plan (storageRootsPlan r).
Proof.
  intros Hs. split; [done| |].
  - unfold storageRootsPlan. cbn [claimRoots]. case_bool_decide; [|constructor]. apply Forall_forall. intros c Hc.
    unfold usableClaimRefs in Hc. fold claim_ref_cmp in Hc.
    rewrite (elem_of_sort_compact claim_ref_cmp) in Hc. by apply list_elem_of_filter in Hc as [? _].
  - unfold storageRootsPlan. cbn [volumeRoots]. case_bool_decide; [apply sortedNames_proper|split; constructor].
Qed.

Section seed.
Context `{Querier} `{Scheduler} (window : Z) (opts : Options) (sel : Selector).
Context (estate : Query → list Sample) `{!Honest estate window (opt_LabelKeys opts) sel}.

#[local] Abbreviation keys := (opt_LabelKeys opts).

(** What one family of a keyed read keeps. *)
Definition kept_rows (f : scopedFamily * (Metric → bool)) : list Sample :=
  keepRows (default [] (family_rows window opts sel f.1)) f.2.

Lemma issueClaimKeyed_ok fams : Forall (λ f : scopedFamily * (Metric → bool), all_answered (family_parts window opts sel f.1)) fams →
  ∃ parts, issueClaimKeyed window opts sel fams = Ok parts ∧ mjoin parts = mjoin (map kept_rows fams).
Proof.
  intros Hf. unfold issueClaimKeyed. set (scoped := filter _ fams).
  rewrite issueScopedFamilies_answered.
  - cbn [rbind]. eexists. split; [done|]. unfold scoped. clear.
    induction fams as [|f fams IH]; [done|]. rewrite filter_cons. destruct (decide (sf_scope f.1 ≠ [])) as [Hne|He].
    + exact (f_equal (app (kept_rows f)) IH).
    + apply dec_stable in He. change (mjoin (map kept_rows (f :: fams))) with (kept_rows f ++ mjoin (map kept_rows fams)).
      assert (kept_rows f = []) as ->; [|exact IH].
      unfold kept_rows, family_rows, family_chunks. by rewrite He, !bool_decide_eq_true_2.
  - apply Forall_map. rewrite Forall_forall in Hf |- *. intros f [_ Hin]%list_elem_of_filter. by apply Hf.
Qed.

(** One group of a pvc root. *)
Lemma claim_group_rows ns names : ns ≠ "" → proper_names names →
  let g := mkClaimSeedGroup ns ClaimLabel names in
  all_answered (family_parts window opts sel (claim_seed_family window opts sel g)) ∧
  same_by_key (row_object ClaimLabel) (kept_rows (claim_seed_family window opts sel g, csg_keep g))
    (filter (λ s, row_object ClaimLabel s ∈ group_objects (ns, names)) (estate QPVCInfo)).
Proof.
  intros Hns Hnames g.
  destruct (in_namespace_answers window opts sel estate QPVCInfo ClaimLabel (ns, names) (csg_render g window keys sel) 0
              (csg_reserve g keys sel)) as [Hall Hsame]; [by vm_compute|done|..].
  { intros c. unfold csg_render. by rewrite bool_decide_eq_false_2. }
  split; [exact Hall|]. unfold kept_rows, keepRows. cbn [fst snd].
  etransitivity; [by apply (same_by_key_filter _ (λ s, csg_keep g (s_Metric s) = true))|].
  rewrite list_filter_filter. intros k. f_equal. apply list_filter_iff. intros s. split; [tauto|]. intros Hs. split; [|done].
  apply list_elem_of_fmap in Hs as (n & [= Hn1 Hn2] & Hn). unfold csg_keep. cbn [g csg_namespace csg_label csg_names].
  rewrite Hn1, Hn2, (bool_decide_eq_false_2 (ns = "")), (bool_decide_eq_true_2 (ns = ns)) by done. by apply bool_decide_eq_true_2.
Qed.

(** The group of a pv root. *)
Lemma volume_group_rows names : proper_names names →
  let g := mkClaimSeedGroup "" VolumeNameLabel names in
  all_answered (family_parts window opts sel (claim_seed_family window opts sel g)) ∧
  kept_rows (claim_seed_family window opts sel g, csg_keep g) ≡ₚ
    filter (λ s, label_of (s_Metric s) NamespaceLabel ≠ "" ∧ label_of (s_Metric s) VolumeNameLabel ∈ names) (estate QPVCInfo).
Proof.
  intros [Hnd Hne] g. set (fam := claim_seed_family window opts sel g).
  destruct (family_answers window opts sel estate (λ s, label_of (s_Metric s) VolumeNameLabel) id fam) as [Hall Hsame].
  - intros c [Hc Hin]%family_chunk_in. cbn [fam claim_seed_family g sf_query sf_render sf_scope csg_names] in *.
    assert (Forall (λ n, n ≠ "") c) as Hcn by (apply Forall_forall; rewrite Forall_forall in Hne; auto).
    pose proof (RenderOnLabel_extends QPVCInfo window keys sel VolumeNameLabel c ltac:(by vm_compute)) as Hr.
    destruct (RenderOnLabel QPVCInfo window keys sel VolumeNameLabel c) as [text|] eqn:E.
    + destruct Hr as (_ & _ & Hext).
      rewrite (issueScopedChunk_answers window opts sel estate QPVCInfo c (Some (csg_render g window keys sel)) text
        [(VolumeNameLabel, normaliseValues c)] E ltac:(done) Hext).
      f_equal. apply list_filter_iff. intros s. unfold selects. rewrite Forall_singleton. cbn [fst snd]. rewrite map_id.
      by apply elem_of_normalised.
    + destruct Hr as [Hr|Hr]; [done|by rewrite proper_has_value in Hr].
  - by rewrite map_id.
  - split; [exact Hall|]. rewrite map_id in Hsame. cbn [fam claim_seed_family g sf_query sf_scope csg_names] in Hsame.
    unfold kept_rows, keepRows. cbn [fst snd]. fold fam.
    rewrite (same_by_key_perm _ _ _ Hsame), list_filter_filter.
    match goal with |- ?l ≡ₚ ?l' => assert (l = l') as ->; [|done] end. apply list_filter_iff. intros s.
    unfold csg_keep. cbn [g csg_namespace csg_label csg_names]. rewrite (bool_decide_eq_true_2 ("" = "")) by done.
    cbn [negb andb]. rewrite orb_false_r. case_bool_decide; rewrite ?bool_decide_eq_true; naive_solver.
Qed.

Lemma keyed_groups_ok (gs : list claimSeedGroup) :
  Forall (λ g, all_answered (family_parts window opts sel (claim_seed_family window opts sel g))) gs →
  ∃ parts, issueClaimKeyed window opts sel (map (λ g, (claim_seed_family window opts sel g, csg_keep g)) gs) = Ok parts ∧
    mjoin parts = mjoin (map (λ g, kept_rows (claim_seed_family window opts sel g, csg_keep g)) gs).
Proof.
  intros Hgs. destruct (issueClaimKeyed_ok (map (λ g, (claim_seed_family window opts sel g, csg_keep g)) gs)) as (parts & Hp & Hj);
    [by apply Forall_map|]. exists parts. split; [exact Hp|]. by rewrite Hj, map_map.
Qed.

(** The names a namespace's references name. *)
Definition refs_in (refs : list ClaimRef) (ns : string) : list string :=
  sortedNames (map cr_Name (filter (λ c, cr_Namespace c = ns) refs)).

Lemma elem_of_refs_objects refs s : Forall (λ c, cr_Namespace c ≠ "" ∧ cr_Name c ≠ "") refs →
  row_object ClaimLabel s ∈ groups_objects (map (λ ns, (ns, refs_in refs ns)) (compact (sort_func String.compare (map cr_Namespace refs)))) ↔
  mkClaimRef (label_of (s_Metric s) NamespaceLabel) (label_of (s_Metric s) ClaimLabel) ∈ refs.
Proof.
  intros Hrefs. rewrite Forall_forall in Hrefs. unfold groups_objects, row_object. rewrite list_elem_of_join. split.
  - intros (o & Ho & Hgs). apply list_elem_of_fmap in Hgs as (g & -> & Hg).
    apply list_elem_of_fmap in Hg as (ns & -> & _). apply list_elem_of_fmap in Ho as (n & Heq & Hn).
    cbn [fst snd] in *. injection Heq as Hl1 Hl2. rewrite Hl1, Hl2.
    apply elem_of_sortedNames in Hn as [_ Hn]. apply list_elem_of_fmap in Hn as ([cns cn] & -> & Hc).
    apply list_elem_of_filter in Hc as [Heq Hc]. cbn in Heq |- *. by subst cns.
  - intros Hin. set (ns := label_of (s_Metric s) NamespaceLabel) in *. exists (group_objects (ns, refs_in refs ns)). split.
    + apply list_elem_of_fmap. eexists. split; [done|]. apply elem_of_sortedNames.
      split; [by apply (Hrefs _ Hin)|]. apply list_elem_of_fmap.
      exists (mkClaimRef ns (label_of (s_Metric s) ClaimLabel)). split; [done|]. by apply list_elem_of_filter.
    + apply list_elem_of_fmap. exists (ns, refs_in refs ns). split; [done|]. apply list_elem_of_fmap. exists ns. split; [done|].
      rewrite (elem_of_sort_compact String.compare). apply list_elem_of_fmap.
      by exists (mkClaimRef ns (label_of (s_Metric s) ClaimLabel)).
Qed.

(** The groups of a pvc root answer with the rows of their references. *)
Lemma claim_groups_rows refs nss : Forall (λ ns, ns ≠ "") nss →
  let gs := map (λ ns, mkClaimSeedGroup ns ClaimLabel (refs_in refs ns)) nss in
  Forall (λ g, all_answered (family_parts window opts sel (claim_seed_family window opts sel g))) gs ∧
  same_by_key (row_object ClaimLabel) (mjoin (map (λ g, kept_rows (claim_seed_family window opts sel g, csg_keep g)) gs))
    (mjoin (map (λ c, filter (λ s, row_object ClaimLabel s ∈ c) (estate QPVCInfo)) (map group_objects (map (λ ns, (ns, refs_in refs ns)) nss)))).
Proof.
  intros Hns gs. unfold gs. rewrite !map_map. induction Hns as [|ns nss Hne _ [IHa IHs]]; [split; [constructor|done]|].
  destruct (claim_group_rows ns (refs_in refs ns) Hne (sortedNames_proper _)) as [Ha Hs]. split; [by constructor|].
  exact (same_by_key_app (row_object ClaimLabel) _ _ Hs _ _ IHs).
Qed.

Lemma readClaimSeed_ok plan v : claim_plan (roots plan) →
  ∃ v', readClaimSeed window opts sel plan v = Ok v' ∧
    rows_of v' QPVCInfo ≡ₚ filter (claim_root (roots plan)) (estate QPVCInfo) ∧
    ∀ q, q ≠ QPVCInfo → rows_of v' q = rows_of v q.
Proof.
  intros [Hseed Hrefs Hvols]. unfold readClaimSeed. set (r := roots plan) in *.
  assert (claimSeedGroups r ≠ [] ∧ ∃ parts,
    issueClaimKeyed window opts sel (map (λ g, (claim_seed_family window opts sel g, csg_keep g)) (claimSeedGroups r)) = Ok parts ∧
    mjoin parts ≡ₚ filter (claim_root r) (estate QPVCInfo)) as (Hne & parts & Hparts & Hrows).
  { unfold claimSeedGroups. destruct (some_of (claimRoots r)) eqn:Ec.
    - set (nss := compact (sort_func String.compare (map cr_Namespace (claimRoots r)))).
      change (map _ nss) with (map (λ ns, mkClaimSeedGroup ns ClaimLabel (refs_in (claimRoots r) ns)) nss).
      destruct (claim_groups_rows (claimRoots r) nss) as [Hall Hsame].
      { apply Forall_forall. intros ns Hin. unfold nss in Hin. rewrite (elem_of_sort_compact String.compare) in Hin.
        apply list_elem_of_fmap in Hin as (c & -> & Hc). rewrite Forall_forall in Hrefs. by apply Hrefs. }
      destruct (keyed_groups_ok _ Hall) as (parts & Hp & Hj). split.
      + destruct (claimRoots r) as [|c cs] eqn:Ecs; [done|]. assert (cr_Namespace c ∈ nss) as Hin.
        { unfold nss. rewrite (elem_of_sort_compact String.compare). by left. }
        by destruct nss; [apply elem_of_nil in Hin|].
      + exists parts. split; [exact Hp|]. rewrite Hj. apply (same_by_key_perm (row_object ClaimLabel)). etransitivity; [exact Hsame|].
        rewrite pieces_same by (apply groups_objects_NoDup, filed_groups_good; intros; apply sortedNames_proper).
        intros k. f_equal. apply list_filter_iff. intros s. unfold claim_root. rewrite Ec.
        etransitivity; [exact (elem_of_refs_objects (claimRoots r) s Hrefs)|]. split; [|tauto]. intros Hin. split; [|done].
        rewrite Forall_forall in Hrefs. by apply (Hrefs _ Hin).
    - unfold claimSeeded in Hseed. rewrite Ec in Hseed. cbn [orb] in Hseed. apply andb_true_iff in Hseed as [_ Hv]. rewrite Hv.
      split; [done|]. destruct (volume_group_rows (volumeRoots r) Hvols) as [Hall Hrows].
      destruct (keyed_groups_ok [mkClaimSeedGroup "" VolumeNameLabel (volumeRoots r)]) as (parts & Hp & Hj); [by apply Forall_singleton|].
      exists parts. split; [exact Hp|]. rewrite Hj. cbn [map]. change (mjoin [?l]) with (l ++ []). rewrite app_nil_r, Hrows.
      match goal with |- ?l ≡ₚ ?l' => assert (l = l') as ->; [|done] end. apply list_filter_iff. intros s. unfold claim_root. by rewrite Ec. }
  rewrite bool_decide_eq_false_2 by done. rewrite Hparts. cbn [rbind]. eexists. split; [done|].
  split; [by rewrite rows_of_insert|]. intros q Hq. by apply rows_of_insert_ne.
Qed.
End seed.

(** ** The read of a claim root *)

Section theorem.
Context `{Querier} `{Scheduler} (window : Z) (opts : Options) (sel : Selector).
Context (estate : Query → list Sample) `{!Honest estate window (opt_LabelKeys opts) sel}.

(** The claims a root names. *)
Definition root_claims (r : planRoots) : gset claimKey :=
  list_to_set (map (λ s, claimKeyOf (s_Metric s) (OrDefault (opt_LabelKeys opts)) (label_of (s_Metric s) ClaimLabel))
    (filter (λ s, label_of (s_Metric s) ClaimLabel ≠ "") (filter (claim_root r) (estate QPVCInfo)))).

(** The three reads of the claim side of a claim root, in order. *)
Definition claim_side_reads (plan : topologyPlan) (v : landed) : result readError landed :=
  v <-! readClaimSeed window opts sel plan v;
  v <-! readHubClaimFamilies window opts sel v;
  readScopedPods window opts sel (pods (roots plan)) [] v.

(** C16: The claim side of a pvc or pv root returns, and loads exactly: the claim-info
    rows the root names; of each other claim family the rows about those claims;
    of the two pod families the rows of the pods that mount one of those claims,
    and of the request's pods. How the reads are grouped by namespace and split
    into chunks does not show. *)
Theorem claim_root_read_exact r plan v : claimSeeded (storageRootsPlan r) = true →
  prepare window (qosScopeBatchBytes opts) (opt_LabelKeys opts) sel (storagePlan r) = Ok plan →
  (∀ q, q ∈ tail claimTargets ++ podTargets → rows_of v q = []) →
  ∃ v', claim_side_reads plan v = Ok v' ∧
    rows_of v' QPVCInfo ≡ₚ filter (claim_root (storageRootsPlan r)) (estate QPVCInfo) ∧
    (∀ q, q ∈ tail claimTargets → rows_of v' q ≡ₚ filter (about_one opts (root_claims (storageRootsPlan r))) (estate q)) ∧
    (∀ q, q ∈ podTargets → rows_of v' q ≡ₚ
       filter (λ s, label_of (s_Metric s) PodLabel ≠ "" ∧ pod_ref_of (s_Metric s) ∈
           bindingPodRefs (filter (about_one opts (root_claims (storageRootsPlan r))) (estate QPVCBindings)) ++ roots_Pods r)
         (estate q)).
Proof.
  intros Hseed Hprep Hv.
  assert (roots plan = storageRootsPlan r) as Hr.
  { apply prepare_keeps_seed in Hprep as (p1 & Hp1 & _ & ->). revert Hp1. unfold prepareHarvestSeed. cbn [storagePlan fresh_plan resolved roots].
    destruct (harvestSeed _); cbn [negb]; [destruct (_ ≫= _); [|done]|]; by intros [= <-]. }
  unfold claim_side_reads. rewrite Hr.
  destruct (readClaimSeed_ok window opts sel estate plan v) as (v1 & -> & Hinfo & Hother1).
  { rewrite Hr. by apply storage_claim_plan. }
  cbn [rbind]. unfold readHubClaimFamilies. rewrite Hr in Hinfo. set (claims := list_to_set (map _ (filter _ (rows_of v1 QPVCInfo)))).
  assert (claims = root_claims (storageRootsPlan r)) as Hclaims.
  { unfold claims, root_claims. apply leibniz_equiv. by rewrite Hinfo. }
  destruct (issueClaimFamilies_ok window opts sel estate (tail claimTargets) claims v1) as (v2 & -> & Hfam & Hother2).
  { apply (bool_decide_unpack _). by vm_compute. }
  { apply (bool_decide_unpack _). by vm_compute. }
  { intros q Hq. rewrite Hother1; [by apply Hv, elem_of_app; left|].
    intros ->. revert Hq. apply (bool_decide_unpack (QPVCInfo ∉ tail claimTargets)). by vm_compute. }
  cbn [rbind]. unfold readScopedPods.
  destruct (issuePodFamilies_ok window opts sel estate podTargets
    (bindingPodRefs (rows_of v2 QPVCBindings) ++ pods (storageRootsPlan r) ++ podRefsOfKeys []) v2) as (v3 & -> & Hpod & Hother3).
  { apply (bool_decide_unpack _). by vm_compute. }
  { apply (bool_decide_unpack _). by vm_compute. }
  { intros q Hq. rewrite Hother2, Hother1; [by apply Hv, elem_of_app; right|..].
    - intros ->. revert Hq. apply (bool_decide_unpack (QPVCInfo ∉ podTargets)). by vm_compute.
    - intros Hin. revert q Hq Hin. apply (Forall_forall (λ q, q ∉ tail claimTargets) podTargets).
      apply (bool_decide_unpack _). by vm_compute. }
  exists v3. rewrite <-Hclaims. split_and!; [done|..].
  - rewrite Hother3, Hother2; [exact Hinfo|apply (bool_decide_unpack _); by vm_compute..].
  - intros q Hq. rewrite Hother3; [by apply Hfam|]. revert q Hq. apply (Forall_forall (λ q, q ∉ podTargets) (tail claimTargets)).
    apply (bool_decide_unpack _). by vm_compute.
  - assert (bindingPodRefs (rows_of v2 QPVCBindings) ≡ₚ bindingPodRefs (filter (about_one opts claims) (estate QPVCBindings))) as Hb.
    { unfold bindingPodRefs. rewrite (Hfam QPVCBindings); [done|]. apply (bool_decide_unpack _). by vm_compute. }
    intros q Hq. rewrite (Hpod q Hq). match goal with |- ?l ≡ₚ ?l' => assert (l = l') as ->; [|done] end.
    apply list_filter_iff. intros s. unfold podRefsOfKeys. cbn [map]. rewrite app_nil_r, !elem_of_app, Hb. done.
Qed.
End theorem.

(** ** A sample *)

Module ClaimEstate.
Definition row (l : list (string * string)) : Sample := mkSample (list_to_map l) (Float64.f_of_Z 1) 5%Z.
Definition base : list (string * string) := [("az", "z1"); ("cluster", "c1")].

(** Two claims of shop and the claim data of another namespace; pods a and b of
    shop mount data, c mounts logs. *)
Definition estate (q : Query) : list Sample :=
  let claim ns c := row (("namespace", ns) :: ("persistentvolumeclaim", c) :: ("volumename", (ns ++ "-" ++ c)%string) :: base) in
  let bound ns p c := row (("namespace", ns) :: ("pod", p) :: ("persistentvolumeclaim", c) :: base) in
  let pod ns p := row (("namespace", ns) :: ("pod", p) :: ("uid", p) :: base) in
  if String.eqb q QPVCInfo then [claim "shop" "data"; claim "shop" "logs"; claim "x" "data"]
  else if String.eqb q QPVCBindings then [bound "shop" "a" "data"; bound "shop" "b" "data"; bound "shop" "c" "logs"; bound "x" "a" "data"]
  else if String.eqb q QPodInfo then [pod "shop" "a"; pod "shop" "b"; pod "shop" "c"; pod "x" "a"]
  else [].

Definition window : Z := 300000000000.
Definition opts : Options := mkOptions DefaultLabelKeys None None 0.
Definition sel : Selector := mkSelector ["z1"] [] [] [].
Definition querier : Querier := estate_querier estate window (opt_LabelKeys opts) sel None.
Definition scheduler : Scheduler.
Proof. refine {| first_failed := λ e _, e |}. intros e es. by left. Defined.
Definition is_honest : @Honest estate window (opt_LabelKeys opts) sel querier := estate_querier_honest _ _ _ _ _.

Definition roots : StorageRoots := mkStorageRoots StorageRootPVC [] [] [] [mkClaimRef "shop" "data"].
Definition plan : topologyPlan :=
  match prepare window (qosScopeBatchBytes opts) (opt_LabelKeys opts) sel (storagePlan roots) with Ok p => p | Err _ => fullPlan end.
Definition read_pods : list string :=
  match @claim_side_reads querier scheduler window opts sel plan ∅ with
  | Ok v => map (λ s, label_of (s_Metric s) "pod") (rows_of v QPodInfo)
  | Err _ => ["failed"]
  end.
End ClaimEstate.
#[local] Existing Instances ClaimEstate.querier ClaimEstate.scheduler ClaimEstate.is_honest.

Lemma claim_root_read_exact_witness :
  ∃ v', claim_side_reads ClaimEstate.window ClaimEstate.opts ClaimEstate.sel ClaimEstate.plan ∅ = Ok v' ∧
    map (λ s, label_of (s_Metric s) "pod") (rows_of v' QPodInfo) = ["a"; "b"].
Proof.
  destruct (claim_root_read_exact ClaimEstate.window ClaimEstate.opts ClaimEstate.sel ClaimEstate.estate ClaimEstate.roots
              ClaimEstate.plan ∅) as (v' & Hv & _).
  - vm_compute. reflexivity.
  - vm_compute. reflexivity.
  - intros q _. unfold rows_of. exact (f_equal (default []) (lookup_empty q)).
  - exists v'. split; [exact Hv|]. assert (ClaimEstate.read_pods = ["a"; "b"]) as Hl by (vm_compute; reflexivity).
    unfold ClaimEstate.read_pods in Hl. rewrite Hv in Hl. exact Hl.
Defined.
