(* ===== verification/QueryCache.v ===== *)
(** pkg/promql/querycache.go: the least-recently-used cache of upstream results.
    The list and the index are two views of one set of entries, the resident
    series stay within the budget, and a hit is the latest result stored under
    its key, not yet expired. *)

From S2P Require Import Prelude GoStrings PromStrings Selector Queries PairScope Fanout.

#[local] Open Scope Z_scope.

(** pkg/promql/querycache.go@17-17, [DefaultMaxConcurrency] *)
Definition DefaultMaxConcurrency : Z := 32.
(** pkg/promql/querycache.go@20-20, [DefaultQueryCacheMaxSeries] *)
Definition DefaultQueryCacheMaxSeries : Z := 100000.
(** pkg/promql/querycache.go@22-22, [DefaultQueryCacheTTL] *)
Definition DefaultQueryCacheTTL : Z := 60 * Second.

(** pkg/promql/querycache.go, [cacheKey] *)
Record cacheKey := mkCacheKey { ck_store : N; ck_query : string; ck_ts : Z }.

#[export] Instance cacheKey_eq_dec : EqDecision cacheKey.
Proof. solve_decision. Defined.
#[export] Instance cacheKey_countable : Countable cacheKey.
Proof.
  by refine (inj_countable' (λ k, (ck_store k, ck_query k, ck_ts k))
    (λ '(a, b, c), mkCacheKey a b c) _); intros [].
Defined.

(** pkg/promql/querycache.go, [cacheEntry]: with the identity of the list
    element that holds it. *)
Record cacheEntry := mkCacheEntry {
  ce_el : nat;
  ce_key : cacheKey;
  ce_vec : Vector;
  ce_cost : Z;
  ce_expires : Z;
}.

(** pkg/promql/querycache.go, [queryCache]: [qc_ll] is the recency list, front
    first; [qc_items] maps a key to its list element; [qc_next] numbers the
    elements [PushFront] allocates. *)
Record queryCache := mkQueryCache {
  qc_max : Z;
  qc_ttl : Z;
  qc_ll : list cacheEntry;
  qc_items : gmap cacheKey nat;
  qc_size : Z;
  qc_next : nat;
}.

(** pkg/promql/querycache.go, [newQueryCache]: [None] is the disabled cache. *)
Definition newQueryCache (maxSeries ttl : Z) : option queryCache :=
  if maxSeries <=? 0 then None
  else Some (mkQueryCache maxSeries (if ttl <=? 0 then DefaultQueryCacheTTL else ttl) [] ∅ 0 0).

(** pkg/promql/querycache.go, [entryCost] *)
Definition entryCost (v : Vector) : Z := Z.max 1 (Z.of_nat (length v)).

(** The element a pointer names. *)
Definition find_el (el : nat) (ll : list cacheEntry) : option cacheEntry :=
  head (filter (λ e, ce_el e = el) ll).

(** pkg/promql/querycache.go, [queryCache.removeLocked] *)
Definition removeLocked (c : queryCache) (e : cacheEntry) : queryCache :=
  mkQueryCache (qc_max c) (qc_ttl c)
    (filter (λ e', ce_el e' ≠ ce_el e) (qc_ll c))
    (delete (ce_key e) (qc_items c))
    (qc_size c - ce_cost e) (qc_next c).

(** [ll.MoveToFront] *)
Definition moveToFront (c : queryCache) (e : cacheEntry) : queryCache :=
  mkQueryCache (qc_max c) (qc_ttl c)
    (e :: filter (λ e', ce_el e' ≠ ce_el e) (qc_ll c))
    (qc_items c) (qc_size c) (qc_next c).

(** pkg/promql/querycache.go, [queryCache.get]: at instant [now]; the vector
    handed out is a fresh slice over the same samples. *)
Definition get (oc : option queryCache) (now : Z) (k : cacheKey) : option Vector * option queryCache :=
  match oc with
  | None => (None, None)
  | Some c =>
      match qc_items c !! k with
      | None => (None, Some c)
      | Some el =>
          match find_el el (qc_ll c) with
          | None => (None, Some c)
          | Some e =>
              if negb (now <? ce_expires e) then (None, Some (removeLocked c e))
              else (Some (ce_vec e), Some (moveToFront c e))
          end
      end
  end.

(** The eviction loop of [put]: the back of the list goes first; the loop ends
    by itself, [fuel] is the length of the list. *)
Fixpoint evict (fuel : nat) (cost : Z) (c : queryCache) : queryCache :=
  match fuel with
  | O => c
  | S fuel =>
      if qc_max c <? qc_size c + cost then
        match last (qc_ll c) with
        | None => c
        | Some back => evict fuel cost (removeLocked c back)
        end
      else c
  end.

(** pkg/promql/querycache.go, [queryCache.put]: at instant [now]. *)
Definition put (oc : option queryCache) (now : Z) (k : cacheKey) (v : Vector) : option queryCache :=
  match oc with
  | None => None
  | Some c =>
      let cost := entryCost v in
      if qc_max c <? cost then Some c else
      let c := match qc_items c !! k with
               | None => c
               | Some el => match find_el el (qc_ll c) with
                            | None => c
                            | Some e => removeLocked c e
                            end
               end in
      let c := evict (S (length (qc_ll c))) cost c in
      let e := mkCacheEntry (qc_next c) k v cost (now + qc_ttl c) in
      Some (mkQueryCache (qc_max c) (qc_ttl c) (e :: qc_ll c) (<[k := qc_next c]> (qc_items c))
              (qc_size c + cost) (S (qc_next c)))
  end.

(** ** The two views agree *)

Definition total_cost (ll : list cacheEntry) : Z := foldr (λ e a, ce_cost e + a) 0 ll.

(** The list and the index hold the same entries, each key once; the size is
    the cost of the entries; the budget holds. *)
Record cache_ok (c : queryCache) : Prop := {
  ok_el : NoDup (map ce_el (qc_ll c));
  ok_fresh : ∀ e, e ∈ qc_ll c → (ce_el e < qc_next c)%nat;
  ok_key : NoDup (map ce_key (qc_ll c));
  ok_items : ∀ k el, qc_items c !! k = Some el ↔ ∃ e, e ∈ qc_ll c ∧ ce_key e = k ∧ ce_el e = el;
  ok_cost : ∀ e, e ∈ qc_ll c → ce_cost e = entryCost (ce_vec e);
  ok_size : qc_size c = total_cost (qc_ll c);
  ok_max : qc_size c ≤ qc_max c;
}.

Lemma total_cost_perm l1 l2 : l1 ≡ₚ l2 → total_cost l1 = total_cost l2.
Proof. unfold total_cost. induction 1; simpl; lia. Qed.

Lemma entryCost_pos v : 1 ≤ entryCost v.
Proof. unfold entryCost. lia. Qed.

Lemma total_cost_nonneg ll : (∀ e, e ∈ ll → ce_cost e = entryCost (ce_vec e)) → 0 ≤ total_cost ll.
Proof.
  induction ll as [|e ll IH]; intros H; cbn; [lia|].
  pose proof (entryCost_pos (ce_vec e)). rewrite (H e) by left.
  assert (0 ≤ total_cost ll) by (apply IH; intros e' He'; apply H; by right).
  unfold total_cost in *. lia.
Qed.

(** Splitting an element off the list. *)
Lemma split_el ll e :
  NoDup (map ce_el ll) → e ∈ ll → ll ≡ₚ e :: filter (λ e', ce_el e' ≠ ce_el e) ll.
Proof.
  induction ll as [|x ll IH]; intros Hnd Hin; [by apply elem_of_nil in Hin|].
  cbn [map] in Hnd. apply NoDup_cons in Hnd as [Hx Hnd]. rewrite filter_cons.
  apply elem_of_cons in Hin as [->|Hin].
  - rewrite decide_False by auto. f_equiv.
    assert (filter (λ e', ce_el e' ≠ ce_el x) ll = ll) as ->; [|done].
    clear IH Hnd. induction ll as [|y ll IH]; [done|]. cbn [map] in Hx.
    apply not_elem_of_cons in Hx as [Hxy Hx]. rewrite filter_cons_True by congruence.
    by rewrite IH.
  - rewrite decide_True.
    + rewrite Permutation_swap. f_equiv. by apply IH.
    + intros Heq. apply Hx. rewrite Heq. by apply list_elem_of_fmap_2.
Qed.

Lemma find_el_some ll el e :
  NoDup (map ce_el ll) → find_el el ll = Some e ↔ e ∈ ll ∧ ce_el e = el.
Proof.
  intros Hnd. unfold find_el. split.
  - intros H. apply head_Some_elem_of, list_elem_of_filter in H. tauto.
  - intros [Hin <-]. induction ll as [|x ll IH]; [by apply elem_of_nil in Hin|].
    cbn [map] in Hnd. apply NoDup_cons in Hnd as [Hx Hnd]. rewrite filter_cons.
    apply elem_of_cons in Hin as [->|Hin]; [by rewrite decide_True|].
    rewrite decide_False; [by apply IH|]. intros Heq. apply Hx. rewrite Heq.
    by apply list_elem_of_fmap_2.
Qed.

(** The element an index entry points at. *)
Lemma find_item c k el :
  cache_ok c → qc_items c !! k = Some el →
  ∃ e, find_el el (qc_ll c) = Some e ∧ e ∈ qc_ll c ∧ ce_key e = k.
Proof.
  intros Hok Hk. apply (ok_items c Hok) in Hk as (e & Hin & <- & <-). exists e.
  split; [|done]. by apply (find_el_some _ _ _ (ok_el c Hok)).
Qed.

(** Only the order of the list may change. *)
Lemma cache_ok_perm c ll :
  cache_ok c → ll ≡ₚ qc_ll c →
  cache_ok (mkQueryCache (qc_max c) (qc_ttl c) ll (qc_items c) (qc_size c) (qc_next c)).
Proof.
  intros [] Hp. split; cbn.
  - by rewrite Hp.
  - intros e He. rewrite Hp in He. auto.
  - by rewrite Hp.
  - intros k el. rewrite ok_items0. by setoid_rewrite Hp.
  - intros e He. rewrite Hp in He. auto.
  - rewrite ok_size0. symmetry. by apply total_cost_perm.
  - done.
Qed.

Lemma removeLocked_ok c e : cache_ok c → e ∈ qc_ll c → cache_ok (removeLocked c e).
Proof.
  intros Hok Hin. pose proof (split_el _ _ (ok_el c Hok) Hin) as Hp.
  destruct Hok. rewrite Hp in ok_el0, ok_key0. cbn [map] in ok_el0, ok_key0.
  apply NoDup_cons in ok_el0 as [Hel Hnel]. apply NoDup_cons in ok_key0 as [Hkey Hnkey].
  assert (∀ e', e' ∈ filter (λ e', ce_el e' ≠ ce_el e) (qc_ll c) → e' ∈ qc_ll c) as Hsub.
  { intros e' [_ He']%list_elem_of_filter. done. }
  rewrite (total_cost_perm _ _ Hp) in ok_size0. cbn in ok_size0.
  assert (ce_cost e = entryCost (ce_vec e)) as Hc by auto. pose proof (entryCost_pos (ce_vec e)).
  split; cbn; [done|auto|done| |auto|unfold total_cost in *; lia|lia].
  intros k el. rewrite lookup_delete_Some, ok_items0. split.
  - intros (Hne & e' & He' & <- & <-). exists e'. split; [|done].
    apply list_elem_of_filter. split; [|done]. intros Heq. rewrite Hp in He'.
    apply elem_of_cons in He' as [->|He']; [done|]. apply Hel, list_elem_of_fmap. by exists e'.
  - intros (e' & He' & <- & <-). split.
    + intros Heq. apply Hkey. rewrite Heq. by apply list_elem_of_fmap_2.
    + exists e'. split; [by apply Hsub|done].
Qed.

Lemma removeLocked_sub c e e' : e' ∈ qc_ll (removeLocked c e) → e' ∈ qc_ll c.
Proof. intros [_ H]%list_elem_of_filter. done. Qed.

(** ** Eviction *)

Lemma length_removeLocked c e :
  NoDup (map ce_el (qc_ll c)) → e ∈ qc_ll c →
  length (qc_ll c) = S (length (qc_ll (removeLocked c e))).
Proof. intros Hnd Hin. by rewrite (split_el _ _ Hnd Hin) at 1. Qed.

(** The loop makes room, keeps the invariant and only removes entries. *)
Lemma evict_ok fuel cost c :
  cache_ok c → cost ≤ qc_max c → (length (qc_ll c) < fuel)%nat →
  let c' := evict fuel cost c in
  cache_ok c' ∧ qc_size c' + cost ≤ qc_max c' ∧ qc_max c' = qc_max c ∧ qc_ttl c' = qc_ttl c ∧
  qc_next c' = qc_next c ∧ (∀ e, e ∈ qc_ll c' → e ∈ qc_ll c).
Proof.
  revert c. induction fuel as [|fuel IH]; intros c Hok Hc Hf; [lia|]. cbn [evict].
  destruct (Z.ltb_spec (qc_max c) (qc_size c + cost)) as [Hlt|Hge]; [|done].
  destruct (last (qc_ll c)) as [back|] eqn:El.
  - assert (back ∈ qc_ll c) as Hin by (by apply last_Some_elem_of).
    pose proof (length_removeLocked c back (ok_el c Hok) Hin) as Hlen.
    destruct (IH (removeLocked c back)) as (H1 & H2 & H3 & H4 & H5 & H6);
      [by apply removeLocked_ok|done|lia|]. split_and!; try done.
    intros e He. by eapply removeLocked_sub, H6.
  - apply last_None in El. pose proof (ok_size c Hok) as Hs. rewrite El in Hs. cbn in Hs. lia.
Qed.

(** ** Histories *)

(** The operations on the cache, each at its instant. *)
Inductive cache_op :=
  | OpGet (now : Z) (k : cacheKey)
  | OpPut (now : Z) (k : cacheKey) (v : Vector).

Definition step (c : option queryCache) (o : cache_op) : option queryCache :=
  match o with
  | OpGet now k => (get c now k).2
  | OpPut now k v => put c now k v
  end.

Definition run (c : option queryCache) (ops : list cache_op) : option queryCache := foldl step c ops.

(** The latest result stored under a key that fits the budget, and when. *)
Fixpoint last_put (max : Z) (k : cacheKey) (rev_ops : list cache_op) : option (Z * Vector) :=
  match rev_ops with
  | [] => None
  | OpPut now k' v :: rest =>
      if bool_decide (k' = k) && (entryCost v <=? max) then Some (now, v) else last_put max k rest
  | OpGet _ _ :: rest => last_put max k rest
  end.

(** Every entry is the latest result stored under its key. *)
Definition logged (c : queryCache) (rev_ops : list cache_op) : Prop :=
  ∀ e, e ∈ qc_ll c → ∃ t, last_put (qc_max c) (ce_key e) rev_ops = Some (t, ce_vec e) ∧
                          ce_expires e = t + qc_ttl c.

(** What [get] leaves behind: the same entries, less an expired one. *)
Lemma get_ok c now k :
  cache_ok c →
  ∃ c', (get (Some c) now k).2 = Some c' ∧ cache_ok c' ∧ qc_max c' = qc_max c ∧
        qc_ttl c' = qc_ttl c ∧ (∀ e, e ∈ qc_ll c' → e ∈ qc_ll c).
Proof.
  intros Hok. unfold get. destruct (qc_items c !! k) as [el|] eqn:Ek; [|by exists c].
  destruct (find_item c k el Hok Ek) as (e & -> & Hin & _).
  destruct (negb (now <? ce_expires e)).
  - exists (removeLocked c e). split_and!; try done; [by apply removeLocked_ok|].
    apply removeLocked_sub.
  - exists (moveToFront c e). pose proof (split_el _ _ (ok_el c Hok) Hin) as Hp.
    split_and!; try done; [by apply cache_ok_perm|].
    intros e' He'. by rewrite Hp.
Qed.

(** What [put] leaves behind: the new entry in front of surviving entries of
    other keys. *)
Lemma put_ok c now k v :
  cache_ok c → entryCost v ≤ qc_max c →
  ∃ c', put (Some c) now k v = Some c' ∧ cache_ok c' ∧ qc_max c' = qc_max c ∧
        qc_ttl c' = qc_ttl c ∧
        ∃ rest, qc_ll c' = mkCacheEntry (qc_next c) k v (entryCost v) (now + qc_ttl c) :: rest ∧
                ∀ e, e ∈ rest → e ∈ qc_ll c ∧ ce_key e ≠ k.
Proof.
  intros Hok Hcost. unfold put. rewrite (proj2 (Z.ltb_ge _ _) Hcost). cbv zeta.
  set (c1 := match qc_items c !! k with None => c | Some el => _ end).
  assert (cache_ok c1 ∧ qc_max c1 = qc_max c ∧ qc_ttl c1 = qc_ttl c ∧ qc_next c1 = qc_next c ∧
    ∀ e, e ∈ qc_ll c1 → e ∈ qc_ll c ∧ ce_key e ≠ k) as (Hok1 & Hm1 & Ht1 & Hn1 & Hs1).
  { subst c1. destruct (qc_items c !! k) as [el|] eqn:Ek.
    - destruct (find_item c k el Hok Ek) as (e & -> & Hin & Hk).
      pose proof (removeLocked_ok c e Hok Hin) as Hok1. split_and!; try done.
      intros e' He'. split; [by eapply removeLocked_sub|]. intros Hk'.
      assert (qc_items (removeLocked c e) !! k = Some (ce_el e')) as Hi
        by (apply (ok_items _ Hok1); by exists e').
      cbn in Hi. rewrite Hk, lookup_delete_eq in Hi. done.
    - split_and!; try done. intros e He. split; [done|]. intros Hk.
      assert (qc_items c !! k = Some (ce_el e)); [|congruence]. apply (ok_items _ Hok). by exists e. }
  destruct (evict_ok (S (length (qc_ll c1))) (entryCost v) c1 Hok1) as (Hok2 & Hfit & Hm2 & Ht2 & Hn2 & Hs2);
    [lia|lia|].
  set (c2 := evict _ _ c1) in *. clearbody c2. rewrite Hn2, Hn1, Ht2, Ht1, Hm2, Hm1.
  eexists. split; [done|]. split_and!; [|done|done|].
  2:{ exists (qc_ll c2). split; [done|]. intros e He. by apply Hs1, Hs2. }
  assert (∀ e, e ∈ qc_ll c2 → ce_key e ≠ k) as Hk2 by (intros e He; by apply Hs1, Hs2).
  assert (∀ e, e ∈ qc_ll c2 → (ce_el e < qc_next c)%nat) as Hf2.
  { intros e He. pose proof (ok_fresh c2 Hok2 e He). lia. }
  destruct Hok2. split; cbn.
  - constructor; [|done]. intros Hin. apply list_elem_of_fmap in Hin as (e & Heq & He).
    specialize (Hf2 e He). lia.
  - intros e [->|He]%elem_of_cons; cbn; [lia|]. specialize (Hf2 e He). lia.
  - constructor; [|done]. intros Hin. apply list_elem_of_fmap in Hin as (e & Heq & He).
    by apply (Hk2 e He).
  - intros k' el. rewrite lookup_insert_Some, ok_items0. split.
    + intros [[<- <-]|(Hne & e & He & <- & <-)]; [by eexists; split; [left|]|].
      exists e. split; [by right|done].
    + intros (e & [->|He]%elem_of_cons & <- & <-); [by left|]. right.
      split; [intros Heq; by apply (Hk2 e He)|]. by exists e.
  - intros e [->|He]%elem_of_cons; [done|by apply ok_cost0].
  - unfold total_cost in *. rewrite ok_size0. lia.
  - lia.
Qed.

(** The TTL [newQueryCache] settles on. *)
Definition effective_ttl (ttl : Z) : Z := if ttl <=? 0 then DefaultQueryCacheTTL else ttl.

Lemma run_inv maxSeries ttl ops :
  0 < maxSeries →
  ∃ c, run (newQueryCache maxSeries ttl) ops = Some c ∧ cache_ok c ∧ qc_max c = maxSeries ∧
       qc_ttl c = effective_ttl ttl ∧ logged c (rev ops).
Proof.
  intros Hmax. unfold newQueryCache. rewrite (proj2 (Z.leb_gt _ _) Hmax).
  induction ops as [|o ops IH] using rev_ind.
  { eexists. split; [done|]. split_and!; try done; [|by intros e ?%elem_of_nil].
    split; cbn; try constructor; try done; try lia; try (intros e ?%elem_of_nil; done).
    intros (e & ?%elem_of_nil & _). done. }
  destruct IH as (c & Hrun & Hok & Hm & Ht & Hlog).
  unfold run in *. rewrite foldl_app, Hrun, rev_app_distr. cbn [foldl step rev app].
  destruct o as [now k|now k v]; cbn [step].
  - destruct (get_ok c now k Hok) as (c' & Hc' & Hok' & Hm' & Ht' & Hs').
    exists c'. split_and!; [done|done|lia|congruence|].
    intros e He. cbn [last_put]. rewrite Hm', Ht'. by apply Hlog, Hs'.
  - destruct (Z.ltb_spec (qc_max c) (entryCost v)) as [Hbig|Hfit].
    + exists c. unfold put. rewrite (proj2 (Z.ltb_lt _ _) Hbig). split_and!; try done.
      intros e He. cbn [last_put]. rewrite (proj2 (Z.leb_gt _ _) Hbig), andb_false_r. by apply Hlog.
    + destruct (put_ok c now k v Hok Hfit) as (c' & Hc' & Hok' & Hm' & Ht' & rest & Hll & Hrest).
      exists c'. split_and!; [done|done|lia|congruence|].
      intros e He. rewrite Hll in He. cbn [last_put]. rewrite Hm', (proj2 (Z.leb_le _ _) Hfit), andb_true_r.
      apply elem_of_cons in He as [->|He].
      * rewrite bool_decide_eq_true_2 by done. exists now. cbn. by rewrite Ht'.
      * destruct (Hrest e He) as [Hin Hne]. rewrite bool_decide_eq_false_2 by congruence.
        rewrite Ht'. by apply Hlog.
Qed.

(** C34: whatever the sequence of lookups and stores, the list and the index
    hold the same entries, every key at most once, and the resident series
    (an empty result charged one) never exceed the budget. *)
Theorem cache_bounded maxSeries ttl ops :
  0 < maxSeries →
  ∃ c, run (newQueryCache maxSeries ttl) ops = Some c ∧ cache_ok c ∧
       Z.of_nat (length (concat (map ce_vec (qc_ll c)))) ≤ maxSeries.
Proof.
  intros Hmax. destruct (run_inv maxSeries ttl ops Hmax) as (c & Hrun & Hok & Hm & _).
  exists c. split_and!; [done|done|].
  transitivity (total_cost (qc_ll c)).
  - pose proof (ok_cost c Hok) as Hc. clear -Hc. induction (qc_ll c) as [|e ll IH]; [done|].
    cbn [map concat]. rewrite length_app, Nat2Z.inj_add. cbn [total_cost foldr].
    fold (total_cost ll). rewrite (Hc e) by left. unfold entryCost.
    assert (∀ e', e' ∈ ll → ce_cost e' = entryCost (ce_vec e')) as Hc'
      by (intros e' He'; apply Hc; by right). specialize (IH Hc'). lia.
  - rewrite <- (ok_size c Hok), <- Hm. apply (ok_max c Hok).
Qed.

(** A hit is never stale nor foreign: after any history, a lookup that
    answers returns the latest result stored under that very key that fits the
    budget, stored less than the TTL ago; and a result that fits is found
    again right after it was stored. *)
Theorem cache_hit_sound maxSeries ttl ops now k :
  0 < maxSeries →
  let c := run (newQueryCache maxSeries ttl) ops in
  (∀ v, (get c now k).1 = Some v →
     ∃ t, last_put maxSeries k (rev ops) = Some (t, v) ∧ now < t + effective_ttl ttl) ∧
  (∀ v now', entryCost v ≤ maxSeries → now' < now + effective_ttl ttl →
     (get (put c now k v) now' k).1 = Some v).
Proof.
  intros Hmax c. subst c.
  destruct (run_inv maxSeries ttl ops Hmax) as (c & -> & Hok & Hm & Ht & Hlog). split.
  - intros v. unfold get. destruct (qc_items c !! k) as [el|] eqn:Ek; [|done].
    destruct (find_item c k el Hok Ek) as (e & -> & Hin & Hk).
    destruct (Z.ltb_spec now (ce_expires e)) as [Hlt|]; cbn; [|done]. intros [= <-].
    destruct (Hlog e Hin) as (t & Hl & He). exists t. rewrite <- Hm, <- Hk, <- Ht. split; [done|lia].
  - intros v now' Hfit Hnow. rewrite <- Hm in Hfit.
    destruct (put_ok c now k v Hok Hfit) as (c' & -> & Hok' & _ & _ & rest & Hll & _).
    set (e := mkCacheEntry _ k v _ _) in Hll.
    assert (e ∈ qc_ll c') as Hin by (rewrite Hll; left).
    assert (qc_items c' !! k = Some (ce_el e)) as Hi by (apply (ok_items c' Hok'); by exists e).
    unfold get. rewrite Hi, (proj2 (find_el_some _ _ e (ok_el c' Hok')) (conj Hin eq_refl)).
    cbn. rewrite Ht, (proj2 (Z.ltb_lt _ _) Hnow). done.
Qed.

Definition sample_key (q : string) : cacheKey := mkCacheKey 1 q 1700000000.
Definition sample_ops : list cache_op := [
  OpPut 0 (sample_key "a") [None; None]; OpPut 1 (sample_key "b") [None];
  OpGet 2 (sample_key "a"); OpPut 3 (sample_key "c") [None]
].

Lemma cache_bounded_witness :
  ∃ c, run (newQueryCache 3 0) sample_ops = Some c ∧ cache_ok c ∧
       Z.of_nat (length (concat (map ce_vec (qc_ll c)))) ≤ 3.
Proof. apply (cache_bounded 3 0 sample_ops). reflexivity. Defined.

Lemma cache_hit_sound_witness :
  (get (run (newQueryCache 3 0) sample_ops) 4 (sample_key "a")).1 = Some [None; None] ∧
  (get (run (newQueryCache 3 0) sample_ops) 4 (sample_key "b")).1 = None ∧
  ∃ t, last_put 3 (sample_key "a") (rev sample_ops) = Some (t, [None; None]) ∧
       4 < t + effective_ttl 0.
Proof.
  assert ((get (run (newQueryCache 3 0) sample_ops) 4 (sample_key "a")).1 = Some [None; None]) as H
    by (vm_compute; reflexivity).
  split; [exact H|]. split; [vm_compute; reflexivity|].
  exact (proj1 (cache_hit_sound 3 0 sample_ops 4 (sample_key "a") eq_refl) _ H).
Defined.
