(* ===== verification/Guard.v ===== *)
(** pkg/promql/guard.go: the guard in front of a backend store. A call is
    answered from the query cache, else joins the one execution in flight for
    its query and instant, which waits for the store's slot and asks the real
    client. The goroutines are interleaved: a state holds the shared cache, one
    semaphore and one flight group per store, the callers and the executions;
    an [action] is one goroutine's next step (or an outside event: a context
    ends, the client answers) and [gstep] is what it does. The observations
    reported to metrics are left out.

    [golang.org/x/sync] is not part of the repository: the weighted semaphore
    and the flight group are the classes [Semaphore] and [FlightGroup], whose
    laws are their documented behaviour. *)

From stdpp Require Import relations pretty functions.
From S2P Require Import Prelude GoStrings PromStrings Queries PairScope Fanout QueryCache.

#[local] Open Scope Z_scope.

(** ** The concurrency library *)

(** [semaphore.Weighted] with unit weights: [sem_acquire] is [None] when the
    call would block. *)
Class Semaphore (Sm : Type) := {
  sem_new : Z → Sm;
  sem_cap : Sm → Z;
  sem_held : Sm → Z;
  sem_acquire : Sm → option Sm;
  sem_release : Sm → Sm;
  sem_new_ok : ∀ n, sem_cap (sem_new n) = n ∧ sem_held (sem_new n) = 0;
  sem_acquire_blocks : ∀ s, sem_acquire s = None ↔ sem_cap s ≤ sem_held s;
  sem_acquire_ok : ∀ s s', sem_acquire s = Some s' →
    sem_cap s' = sem_cap s ∧ sem_held s' = sem_held s + 1;
  sem_release_ok : ∀ s, 0 < sem_held s →
    sem_cap (sem_release s) = sem_cap s ∧ sem_held (sem_release s) = sem_held s - 1;
}.

(** [singleflight.Group]: the execution in flight for a key. *)
Class FlightGroup (Fl : Type) := {
  fl_new : Fl;
  fl_running : Fl → string → option nat;
  fl_start : Fl → string → nat → Fl;
  fl_forget : Fl → string → Fl;
  fl_new_ok : ∀ k, fl_running fl_new k = None;
  fl_start_ok : ∀ f k r k', fl_running (fl_start f k r) k' = if decide (k' = k) then Some r else fl_running f k';
  fl_forget_ok : ∀ f k k', fl_running (fl_forget f k) k' = if decide (k' = k) then None else fl_running f k';
}.

(** ** Options *)

(** pkg/promql/guard.go, [guardConfig] *)
Record guardConfig := mkGuardConfig { maxConcurrency : Z; cacheMaxSeries : Z; cacheTTL : Z }.

(** pkg/promql/guard.go, [RouterOption]: [None] is a nil option. *)
Definition RouterOption : Type := option (guardConfig → guardConfig).

(** pkg/promql/guard.go, [newGuardConfig] *)
Definition newGuardConfig (opts : list RouterOption) : guardConfig :=
  foldl (λ cfg o, match o with None => cfg | Some f => f cfg end)
    (mkGuardConfig DefaultMaxConcurrency DefaultQueryCacheMaxSeries DefaultQueryCacheTTL) opts.

(** pkg/promql/guard.go, [WithMaxConcurrency] *)
Definition WithMaxConcurrency (n : Z) : RouterOption :=
  Some (λ c, mkGuardConfig (Z.max 0 n) (cacheMaxSeries c) (cacheTTL c)).

(** pkg/promql/guard.go, [WithQueryCache] *)
Definition WithQueryCache (maxSeries ttl : Z) : RouterOption :=
  Some (λ c, mkGuardConfig (maxConcurrency c) (Z.max 0 maxSeries)
    (if ttl <=? 0 then DefaultQueryCacheTTL else ttl)).

(** ** Calls, errors and states *)

(** [ctx.Err()] of a context that ended. *)
Inductive ctxErr := Canceled | DeadlineExceeded.

(** What a call can fail with: the client's own error (and whether it wraps a
    context error), the wait for a slot, the caller's context. *)
Inductive qerr :=
  | UpstreamErr (text : string) (of_context : bool)
  | SlotErr (name : string) (e : ctxErr)
  | CallerErr (name : string) (e : ctxErr).

(** pkg/promql/guard.go, [isContextErr] *)
Definition isContextErr (e : qerr) : bool :=
  match e with UpstreamErr _ b => b | SlotErr _ _ | CallerErr _ _ => true end.

(** pkg/promql/guard.go, [isProbe] *)
Definition isProbe (name : string) : bool :=
  match FamilyOf name with Some fam => bool_decide (fam = FamilyProbe) | None => false end.

(** A call of [guard.instant] on the guard of a store; the instant in
    nanoseconds. *)
Record call := mkCall { c_store : N; c_name : string; c_query : string; c_ts : Z }.

(** The cache key of a call. *)
Definition key_of (c : call) : cacheKey := mkCacheKey (c_store c) (c_query c) (c_ts c).

(** [strconv.FormatInt(n, 10)]. *)
Definition FormatInt (n : Z) : string := pretty n.

(** The key of the flight group. *)
Definition flightKey (c : call) : string :=
  c_query c +:+ String "000"%char (FormatInt (c_ts c)).

Definition answer : Type := result qerr Vector.

(** pkg/promql/guard.go@233-247, [guard.fetch]: waiting for the slot, then the
    client asked. *)
Inductive fetching := AtSlot | AtUpstream.

(** Where a caller is in [guard.instant]: not yet started, asking the client
    as a probe, fetching without a cache, at the head of the loop's attempt,
    selecting on its context and the channel of an execution, returned. *)
Inductive phase :=
  | Entering
  | Probing
  | Fetching (f : fetching)
  | Looping (attempt : nat)
  | Awaiting (attempt : nat) (r : nat)
  | Returned (a : answer).

(** Where an execution is: before its own lookup, fetching, storing a vector,
    returning, its answer delivered and its key forgotten. *)
Inductive run_phase :=
  | RunEntering
  | RunFetching (f : fetching)
  | RunStoring (v : Vector)
  | RunReturning (a : answer)
  | RunOver (a : answer).

(** A caller: its call, how its context ended, where it is. *)
Record caller := mkCaller { cl_call : call; cl_ctx : option ctxErr; cl_ph : phase }.

(** An execution: the caller that leads it, whose call and context it uses. *)
Record run := mkRun { rn_leader : nat; rn_call : call; rn_ph : run_phase }.

(** A query the client answered. *)
Record upcall := mkUpcall { up_call : call; up_answer : answer }.

(** ** Steps *)

(** What happens next. *)
Inductive action :=
  | CtxEnds (i : nat) (e : ctxErr)
  | Enter (i : nat) (now : Z)
  | Join (i : nat)
  | GiveUp (i : nat)
  | Receive (i : nat)
  | CallerSlot (i : nat)
  | CallerNoSlot (i : nat)
  | CallerAnswered (i : nat) (a : answer)
  | RunLookup (r : nat) (now : Z)
  | RunSlot (r : nat)
  | RunNoSlot (r : nat)
  | RunAnswered (r : nat) (a : answer)
  | RunStored (r : nat) (now : Z)
  | RunReturns (r : nat).

Section guard.
Context {Sm Fl : Type} `{!Semaphore Sm, !FlightGroup Fl}.

(** pkg/promql/guard.go@104-112, [guard]: the guards of all stores. [st_log] lists what
    the client answered, latest first. *)
Record state := mkState {
  st_cache : option queryCache;
  st_sem : N → option Sm;
  st_flight : N → Fl;
  st_callers : list caller;
  st_runs : list run;
  st_log : list upcall;
}.

(** pkg/promql/guard.go@116-128, [newGuard]: the state of fresh guards sharing
    one cache, before [calls] are made. *)
Definition newGuard (cfg : guardConfig) (calls : list call) : state :=
  mkState (newQueryCache (cacheMaxSeries cfg) (cacheTTL cfg))
    (λ _, if 0 <? maxConcurrency cfg then Some (sem_new (maxConcurrency cfg)) else None)
    (λ _, fl_new)
    (map (λ c, mkCaller c None Entering) calls) [] [].

Definition set_caller (i : nat) (c : caller) (st : state) : state :=
  mkState (st_cache st) (st_sem st) (st_flight st) (<[i := c]> (st_callers st)) (st_runs st) (st_log st).
Definition set_run (r : nat) (n : run) (st : state) : state :=
  mkState (st_cache st) (st_sem st) (st_flight st) (st_callers st) (<[r := n]> (st_runs st)) (st_log st).
Definition set_cache (c : option queryCache) (st : state) : state :=
  mkState c (st_sem st) (st_flight st) (st_callers st) (st_runs st) (st_log st).
Definition set_sem (s : N) (m : option Sm) (st : state) : state :=
  mkState (st_cache st) (<[s := m]> (st_sem st)) (st_flight st) (st_callers st) (st_runs st) (st_log st).
Definition log_up (c : call) (a : answer) (st : state) : state :=
  mkState (st_cache st) (st_sem st) (st_flight st) (st_callers st) (st_runs st) (mkUpcall c a :: st_log st).

Definition at_phase (c : caller) (ph : phase) : caller := mkCaller (cl_call c) (cl_ctx c) ph.
Definition run_at (n : run) (ph : run_phase) : run := mkRun (rn_leader n) (rn_call n) ph.

(** [g.sem.Acquire], when it does not block; a nil semaphore bounds nothing. *)
Definition acquire_slot (s : N) (st : state) : option state :=
  match st_sem st s with
  | None => Some st
  | Some m => match sem_acquire m with None => None | Some m' => Some (set_sem s (Some m') st) end
  end.

(** [g.sem.Acquire], when the context ends first. *)
Definition slot_error (c : call) (ctx : option ctxErr) (st : state) : option answer :=
  match st_sem st (c_store c), ctx with
  | Some _, Some e => Some (Err (SlotErr (c_name c) e))
  | _, _ => None
  end.

(** The deferred [g.sem.Release]. *)
Definition release_slot (s : N) (st : state) : state :=
  match st_sem st s with None => st | Some m => set_sem s (Some (sem_release m)) st end.

(** The head of [guard.instant]: a probe goes to the client; no cache fetches;
    a hit returns; a miss enters the loop. *)
Definition enter (c : call) (now : Z) (st : state) : phase * option queryCache :=
  if isProbe (c_name c) then (Probing, st_cache st) else
  match st_cache st with
  | None => (Fetching AtSlot, None)
  | Some _ =>
      match QueryCache.get (st_cache st) now (key_of c) with
      | (Some v, cache') => (Returned (Ok v), cache')
      | (None, cache') => (Looping 0, cache')
      end
  end.

(** [g.flight.DoChan]: the execution in flight for the key, else a new one led
    by caller [i]. *)
Definition doChan (i : nat) (c : call) (st : state) : nat * state :=
  match fl_running (st_flight st (c_store c)) (flightKey c) with
  | Some r => (r, st)
  | None =>
      let r := length (st_runs st) in
      (r, mkState (st_cache st) (st_sem st)
            (<[c_store c := fl_start (st_flight st (c_store c)) (flightKey c) r]> (st_flight st))
            (st_callers st) (st_runs st ++ [mkRun i c RunEntering]) (st_log st))
  end.

(** The received branch of the select of the loop's [attempt]. *)
Definition receive (led : bool) (attempt : nat) (ctx : option ctxErr) (a : answer) : phase :=
  match a with
  | Err e =>
      if negb led && (attempt =? 0)%nat && bool_decide (ctx = None) && isContextErr e
      then Looping (S attempt) else Returned (Err e)
  | Ok v => Returned (Ok v)
  end.

(** The execution's own lookup: a flight that completed in between left its
    entry behind. *)
Definition lookup_run (c : call) (now : Z) (st : state) : run_phase * option queryCache :=
  match QueryCache.get (st_cache st) now (key_of c) with
  | (Some v, cache') => (RunReturning (Ok v), cache')
  | (None, cache') => (RunFetching AtSlot, cache')
  end.

(** The answer of the execution's fetch: a vector is stored first. *)
Definition fetched (a : answer) : run_phase :=
  match a with Ok v => RunStoring v | Err e => RunReturning (Err e) end.

(** The group forgets the key and sends the answer. *)
Definition forget (s : N) (k : string) (st : state) : state :=
  mkState (st_cache st) (st_sem st) (<[s := fl_forget (st_flight st s) k]> (st_flight st))
    (st_callers st) (st_runs st) (st_log st).

(** pkg/promql/guard.go@161-215, [guard.instant]: a caller's step. *)
Definition caller_step (i : nat) (c : caller) (a : action) (st : state) : option state :=
  let to ph st := Some (set_caller i (at_phase c ph) st) in
  match a, cl_ph c with
  | CtxEnds _ e, _ =>
      match cl_ctx c with
      | None => Some (set_caller i (mkCaller (cl_call c) (Some e) (cl_ph c)) st)
      | Some _ => None
      end
  | Enter _ now, Entering => let '(ph, cache') := enter (cl_call c) now st in to ph (set_cache cache' st)
  | Join _, Looping attempt => let '(r, st') := doChan i (cl_call c) st in to (Awaiting attempt r) st'
  | GiveUp _, Awaiting _ _ =>
      match cl_ctx c with
      | Some e => to (Returned (Err (CallerErr (c_name (cl_call c)) e))) st
      | None => None
      end
  | Receive _, Awaiting attempt r =>
      match st_runs st !! r with
      | Some n => match rn_ph n with
                  | RunOver ans => to (receive (bool_decide (rn_leader n = i)) attempt (cl_ctx c) ans) st
                  | _ => None
                  end
      | None => None
      end
  | CallerSlot _, Fetching AtSlot =>
      match acquire_slot (c_store (cl_call c)) st with Some st' => to (Fetching AtUpstream) st' | None => None end
  | CallerNoSlot _, Fetching AtSlot =>
      match slot_error (cl_call c) (cl_ctx c) st with Some ans => to (Returned ans) st | None => None end
  | CallerAnswered _ ans, Fetching AtUpstream =>
      to (Returned ans) (log_up (cl_call c) ans (release_slot (c_store (cl_call c)) st))
  | CallerAnswered _ ans, Probing => to (Returned ans) (log_up (cl_call c) ans st)
  | _, _ => None
  end.

(** pkg/promql/guard.go@181-196, [guard.instant]: a step of the function handed to [DoChan]. *)
Definition run_step (r : nat) (n : run) (a : action) (st : state) : option state :=
  let to ph st := Some (set_run r (run_at n ph) st) in
  match a, rn_ph n with
  | RunLookup _ now, RunEntering => let '(ph, cache') := lookup_run (rn_call n) now st in to ph (set_cache cache' st)
  | RunSlot _, RunFetching AtSlot =>
      match acquire_slot (c_store (rn_call n)) st with Some st' => to (RunFetching AtUpstream) st' | None => None end
  | RunNoSlot _, RunFetching AtSlot =>
      match slot_error (rn_call n) (st_callers st !! rn_leader n ≫= cl_ctx) st with
      | Some ans => to (RunReturning ans) st
      | None => None
      end
  | RunAnswered _ ans, RunFetching AtUpstream =>
      to (fetched ans) (log_up (rn_call n) ans (release_slot (c_store (rn_call n)) st))
  | RunStored _ now, RunStoring v =>
      to (RunReturning (Ok v)) (set_cache (QueryCache.put (st_cache st) now (key_of (rn_call n)) v) st)
  | RunReturns _, RunReturning ans =>
      to (RunOver ans) (forget (c_store (rn_call n)) (flightKey (rn_call n)) st)
  | _, _ => None
  end.

(** The goroutine an action belongs to. *)
Definition subject (a : action) : nat + nat :=
  match a with
  | CtxEnds i _ | Enter i _ | Join i | GiveUp i | Receive i | CallerSlot i | CallerNoSlot i
  | CallerAnswered i _ => inl i
  | RunLookup r _ | RunSlot r | RunNoSlot r | RunAnswered r _ | RunStored r _ | RunReturns r => inr r
  end.

(** One step of the whole: [None] when the action cannot happen now. *)
Definition gstep (st : state) (a : action) : option state :=
  match subject a with
  | inl i => match st_callers st !! i with Some c => caller_step i c a st | None => None end
  | inr r => match st_runs st !! r with Some n => run_step r n a st | None => None end
  end.

Definition steps_to (st st' : state) : Prop := ∃ a, gstep st a = Some st'.

(** The states reachable from fresh guards. *)
Definition reachable (cfg : guardConfig) (calls : list call) (st : state) : Prop :=
  rtc steps_to (newGuard cfg calls) st.

End guard.
