(* ===== verification/GuardProps.v ===== *)
(** The guard's guarantees over every interleaving: the upstream queries of a
    store stay within its bound, one query is in flight per key, an answer
    comes from the client, every call returns within a bounded number of
    steps, and a probe never queues. *)

From stdpp Require Import relations pretty functions.
From S2P Require Import Prelude GoStrings PromStrings Queries PairScope Fanout QueryCache Guard.

#[local] Open Scope Z_scope.

(** ** Lists and the cache *)

(** Replacing one element moves a sum by that element's share. *)
Lemma sum_list_with_insert {A} (f : A → nat) (l : list A) i x y :
  l !! i = Some x → (sum_list_with f (<[i := y]> l) + f x = sum_list_with f l + f y)%nat.
Proof.
  revert i. induction l as [|z l IH]; intros [|i] Hi; simplify_eq/=; [lia|].
  specialize (IH i Hi). lia.
Qed.

Lemma sum_list_with_pos {A} (f : A → nat) (l : list A) :
  (0 < sum_list_with f l)%nat → ∃ i x, l !! i = Some x ∧ (0 < f x)%nat.
Proof.
  induction l as [|z l IH]; cbn; [lia|]. intros Hs. destruct (f z) as [|n] eqn:Ez.
  - destruct IH as (i & x & Hi & Hx); [lia|]. by exists (S i), x.
  - exists 0%nat, z. split; [done|lia].
Qed.

(** Every entry of the cache satisfies [G]. *)
Definition cache_sat (G : cacheKey → Vector → Prop) (oc : option queryCache) : Prop :=
  match oc with None => True | Some c => cache_ok c ∧ ∀ e, e ∈ qc_ll c → G (ce_key e) (ce_vec e) end.

Lemma get_sat G oc now k :
  cache_sat G oc →
  cache_sat G (QueryCache.get oc now k).2 ∧ (is_Some (QueryCache.get oc now k).2 ↔ is_Some oc) ∧
  ∀ v, (QueryCache.get oc now k).1 = Some v → G k v.
Proof.
  destruct oc as [c|]; [|done]. intros [Hok HG].
  destruct (get_ok c now k Hok) as (c' & Hc' & Hok' & _ & _ & Hsub). rewrite Hc'.
  split_and!; [split; [done|]; intros e He; by apply HG, Hsub|done|].
  intros v. unfold QueryCache.get. destruct (qc_items c !! k) as [el|] eqn:Ek; [|done].
  destruct (find_item c k el Hok Ek) as (e & -> & Hin & <-).
  destruct (negb _); [done|]. intros [= <-]. by apply HG.
Qed.

Lemma put_sat G oc now k v :
  cache_sat G oc → G k v →
  cache_sat G (QueryCache.put oc now k v) ∧ (is_Some (QueryCache.put oc now k v) ↔ is_Some oc).
Proof.
  destruct oc as [c|]; [|done]. intros [Hok HG] Hv.
  destruct (Z.ltb_spec (qc_max c) (entryCost v)) as [Hbig|Hfit].
  { unfold QueryCache.put. by rewrite (proj2 (Z.ltb_lt _ _) Hbig). }
  destruct (put_ok c now k v Hok Hfit) as (c' & -> & Hok' & _ & _ & rest & Hll & Hrest).
  split; [|done]. split; [done|]. intros e. rewrite Hll.
  intros [->|He]%elem_of_cons; [done|]. by apply HG, Hrest.
Qed.

Lemma cache_sat_mono (G G' : cacheKey → Vector → Prop) oc :
  (∀ k v, G k v → G' k v) → cache_sat G oc → cache_sat G' oc.
Proof. intros HG. destruct oc as [c|]; [|done]. intros [? ?]. split; auto. Qed.

(** ** The flight key *)

(** A digit string holds no byte but its digits and sign. *)
Lemma pretty_no_byte c (n : N) :
  Forall (λ d, d ≠ c) ["0"; "1"; "2"; "3"; "4"; "5"; "6"; "7"; "8"; "9"]%char →
  contains_byte c (pretty n) = false.
Proof.
  intros Hc. rewrite !Forall_cons in Hc. destruct_and!.
  assert (∀ s, contains_byte c s = false → contains_byte c (pretty_N_go n s) = false) as Hgo.
  { induction (N.lt_wf_0 n) as [n _ IH]. intros s Hs.
    destruct (N.eq_0_gt_0_cases n) as [->|Hn]; [by rewrite pretty_N_go_0|].
    rewrite pretty_N_go_step by done. apply IH; [by apply N.div_lt|].
    cbn [contains_byte]. rewrite Hs, orb_false_r. apply Ascii.eqb_neq.
    unfold pretty_N_char. repeat case_match; congruence. }
  unfold pretty, pretty_N. destruct (decide (n = 0%N)); [|by apply Hgo].
  cbn [contains_byte]. rewrite orb_false_r. apply Ascii.eqb_neq. congruence.
Qed.

Lemma FormatInt_no_nul n : contains_byte "000"%char (FormatInt n) = false.
Proof.
  unfold FormatInt. destruct n as [|n|n]; [done| |].
  - change (pretty (Z.pos n)) with (pretty (N.pos n)). apply pretty_no_byte. by repeat constructor.
  - change (pretty (Z.neg n)) with ("-" +:+ pretty (N.pos n)).
    rewrite contains_byte_app, pretty_no_byte by (by repeat constructor). done.
Qed.

(** What follows the last NUL byte is determined. *)
Lemma last_nul_inj c q q' d d' :
  contains_byte c d = false → contains_byte c d' = false →
  q +:+ String c d = q' +:+ String c d' → q = q' ∧ d = d'.
Proof.
  intros Hd Hd'. revert q'. induction q as [|a q IH]; intros [|a' q']; cbn [String.append].
  - by intros [= ->].
  - intros [= <- ->]. rewrite contains_byte_app in Hd. cbn [contains_byte] in Hd.
    by rewrite Ascii.eqb_refl, orb_true_r in Hd.
  - intros [= -> <-]. rewrite contains_byte_app in Hd'. cbn [contains_byte] in Hd'.
    by rewrite Ascii.eqb_refl, orb_true_r in Hd'.
  - intros [= -> H]. by destruct (IH q' H) as [-> ->].
Qed.

(** Calls of one store with one flight key ask the same. *)
Lemma flightKey_inj c c' :
  c_store c = c_store c' → flightKey c = flightKey c' → key_of c = key_of c'.
Proof.
  unfold flightKey, key_of. intros Hs Hk.
  apply last_nul_inj in Hk as [-> Hd]; [|apply FormatInt_no_nul..].
  apply (inj (pretty : Z → string)) in Hd. by rewrite Hs, Hd.
Qed.

Section guard_props.
Context {Sm Fl : Type} `{!Semaphore Sm, !FlightGroup Fl}.
Implicit Types st : state (Sm:=Sm) (Fl:=Fl).

(** ** The step relation *)

(** What [gstep] does, one rule per action. *)
Inductive moved st : action → state → Prop :=
  | m_ctx i c e : st_callers st !! i = Some c → cl_ctx c = None →
      moved st (CtxEnds i e) (set_caller i (mkCaller (cl_call c) (Some e) (cl_ph c)) st)
  | m_enter i c now : st_callers st !! i = Some c → cl_ph c = Entering →
      moved st (Enter i now)
        (set_caller i (at_phase c (enter (cl_call c) now st).1) (set_cache (enter (cl_call c) now st).2 st))
  | m_join i c k : st_callers st !! i = Some c → cl_ph c = Looping k →
      moved st (Join i)
        (set_caller i (at_phase c (Awaiting k (doChan i (cl_call c) st).1)) (doChan i (cl_call c) st).2)
  | m_giveup i c k r e : st_callers st !! i = Some c → cl_ph c = Awaiting k r → cl_ctx c = Some e →
      moved st (GiveUp i) (set_caller i (at_phase c (Returned (Err (CallerErr (c_name (cl_call c)) e)))) st)
  | m_receive i c k r n ans : st_callers st !! i = Some c → cl_ph c = Awaiting k r →
      st_runs st !! r = Some n → rn_ph n = RunOver ans →
      moved st (Receive i)
        (set_caller i (at_phase c (receive (bool_decide (rn_leader n = i)) k (cl_ctx c) ans)) st)
  | m_slot i c st1 : st_callers st !! i = Some c → cl_ph c = Fetching AtSlot →
      acquire_slot (c_store (cl_call c)) st = Some st1 →
      moved st (CallerSlot i) (set_caller i (at_phase c (Fetching AtUpstream)) st1)
  | m_noslot i c ans : st_callers st !! i = Some c → cl_ph c = Fetching AtSlot →
      slot_error (cl_call c) (cl_ctx c) st = Some ans →
      moved st (CallerNoSlot i) (set_caller i (at_phase c (Returned ans)) st)
  | m_answered i c ans : st_callers st !! i = Some c → cl_ph c = Fetching AtUpstream →
      moved st (CallerAnswered i ans)
        (set_caller i (at_phase c (Returned ans)) (log_up (cl_call c) ans (release_slot (c_store (cl_call c)) st)))
  | m_probed i c ans : st_callers st !! i = Some c → cl_ph c = Probing →
      moved st (CallerAnswered i ans) (set_caller i (at_phase c (Returned ans)) (log_up (cl_call c) ans st))
  | m_lookup r n now : st_runs st !! r = Some n → rn_ph n = RunEntering →
      moved st (RunLookup r now)
        (set_run r (run_at n (lookup_run (rn_call n) now st).1) (set_cache (lookup_run (rn_call n) now st).2 st))
  | m_rslot r n st1 : st_runs st !! r = Some n → rn_ph n = RunFetching AtSlot →
      acquire_slot (c_store (rn_call n)) st = Some st1 →
      moved st (RunSlot r) (set_run r (run_at n (RunFetching AtUpstream)) st1)
  | m_rnoslot r n ans : st_runs st !! r = Some n → rn_ph n = RunFetching AtSlot →
      slot_error (rn_call n) (st_callers st !! rn_leader n ≫= cl_ctx) st = Some ans →
      moved st (RunNoSlot r) (set_run r (run_at n (RunReturning ans)) st)
  | m_ranswered r n ans : st_runs st !! r = Some n → rn_ph n = RunFetching AtUpstream →
      moved st (RunAnswered r ans)
        (set_run r (run_at n (fetched ans)) (log_up (rn_call n) ans (release_slot (c_store (rn_call n)) st)))
  | m_rstored r n now v : st_runs st !! r = Some n → rn_ph n = RunStoring v →
      moved st (RunStored r now)
        (set_run r (run_at n (RunReturning (Ok v)))
           (set_cache (QueryCache.put (st_cache st) now (key_of (rn_call n)) v) st))
  | m_rreturns r n ans : st_runs st !! r = Some n → rn_ph n = RunReturning ans →
      moved st (RunReturns r)
        (set_run r (run_at n (RunOver ans)) (forget (c_store (rn_call n)) (flightKey (rn_call n)) st)).

Lemma caller_step_moved i c a st st' :
  st_callers st !! i = Some c → subject a = inl i → caller_step i c a st = Some st' → moved st a st'.
Proof.
  intros Hc Hs H. unfold caller_step in H.
  destruct a; cbn in Hs; simplify_eq; destruct (cl_ph c) as [| |[]|k|k r|] eqn:Eph; try done;
    try (destruct (cl_ctx c) eqn:Ectx; [done|]; simplify_eq; rewrite <- Eph; by econstructor).
  - destruct (enter _ _ _) as [ph cache'] eqn:E. simplify_eq. 
    pose proof (m_enter st i c now Hc Eph) as Hm. by rewrite E in Hm.
  - destruct (doChan _ _ _) as [r st1] eqn:E. simplify_eq.
    pose proof (m_join st i c _ Hc Eph) as Hm. by rewrite E in Hm.
  - destruct (cl_ctx c) eqn:Ectx; [|done]. simplify_eq. by econstructor.
  - destruct (st_runs st !! r) as [n|] eqn:En; [|done]. destruct (rn_ph n) eqn:Ern; try done.
    simplify_eq. by econstructor.
  - destruct (acquire_slot _ _) eqn:E; [|done]. simplify_eq. by econstructor.
  - destruct (slot_error _ _ _) eqn:E; [|done]. simplify_eq. by econstructor.
  - simplify_eq. by apply m_probed.
  - simplify_eq. by apply m_answered.
Qed.

Lemma run_step_moved r n a st st' :
  st_runs st !! r = Some n → subject a = inr r → run_step r n a st = Some st' → moved st a st'.
Proof.
  intros Hn Hs H. unfold run_step in H.
  destruct a; cbn in Hs; simplify_eq; destruct (rn_ph n) as [|[]| | |] eqn:Eph; try done.
  - destruct (lookup_run _ _ _) as [ph cache'] eqn:E. simplify_eq.
    pose proof (m_lookup st r n now Hn Eph) as Hm. by rewrite E in Hm.
  - destruct (acquire_slot _ _) eqn:E; [|done]. simplify_eq. by econstructor.
  - destruct (slot_error _ _ _) eqn:E; [|done]. simplify_eq. by econstructor.
  - simplify_eq. by econstructor.
  - simplify_eq. by econstructor.
  - simplify_eq. by econstructor.
Qed.

(** The rules are exactly the executable step. *)
Lemma gstep_moved st a st' : gstep st a = Some st' ↔ moved st a st'.
Proof.
  split.
  - unfold gstep. intros H. destruct (subject a) as [i|r] eqn:Es.
    + destruct (st_callers st !! i) as [c|] eqn:Ec; [|done]. by eapply caller_step_moved.
    + destruct (st_runs st !! r) as [n|] eqn:En; [|done]. by eapply run_step_moved.
  - destruct 1; unfold gstep; cbn [subject];
      repeat match goal with E : _ !! _ = Some _ |- context [match ?l with _ => _ end] =>
               match type of E with l = _ => rewrite E; clear E end end;
      unfold caller_step, run_step;
      repeat match goal with
             | E : st_runs _ !! _ = Some _ |- _ => rewrite E; clear E
             | E : cl_ph _ = _ |- _ => rewrite E
             | E : rn_ph _ = _ |- _ => rewrite E
             | E : cl_ctx _ = _ |- _ => rewrite E
             | E : acquire_slot _ _ = _ |- _ => rewrite E
             | E : slot_error _ _ _ = _ |- _ => rewrite E
             end;
      repeat match goal with |- context [let '(_, _) := ?x in _] => destruct x end; try done.
Qed.

(** ** Termination *)

(** The steps a caller has left, an execution it may still start included. *)
Definition phase_weight (ph : phase) : nat :=
  match ph with
  | Entering => 15
  | Looping O => 14
  | Awaiting O _ => 8
  | Looping (S _) => 7
  | Awaiting (S _) _ => 1
  | Fetching AtSlot => 2
  | Fetching AtUpstream | Probing => 1
  | Returned _ => 0
  end.
Definition caller_weight (c : caller) : nat :=
  (match cl_ctx c with Some _ => 0 | None => 1 end) + phase_weight (cl_ph c).
Definition run_weight (n : run) : nat :=
  match rn_ph n with
  | RunEntering => 5
  | RunFetching AtSlot => 4
  | RunFetching AtUpstream => 3
  | RunStoring _ => 2
  | RunReturning _ => 1
  | RunOver _ => 0
  end.
Definition weight st : nat :=
  (sum_list_with caller_weight (st_callers st) + sum_list_with run_weight (st_runs st))%nat.

Lemma weight_caller st s i c c' k :
  st_callers st !! i = Some c → st_callers s = st_callers st → (weight s ≤ weight st + k)%nat →
  (caller_weight c' + k < caller_weight c)%nat → (weight (set_caller i c' s) < weight st)%nat.
Proof.
  intros Hc Hs Hw Hlt. unfold weight in *. rewrite <- Hs in Hc.
  pose proof (sum_list_with_insert caller_weight _ i _ c' Hc). cbn in *. lia.
Qed.

Lemma weight_run st s r n n' :
  st_runs st !! r = Some n → st_runs s = st_runs st → st_callers s = st_callers st →
  (run_weight n' < run_weight n)%nat → (weight (set_run r n' s) < weight st)%nat.
Proof.
  intros Hn Hs Hc Hlt. unfold weight in *. rewrite <- Hs in Hn.
  pose proof (sum_list_with_insert run_weight _ r _ n' Hn). cbn. rewrite Hc, <- Hs. lia.
Qed.

Lemma acquire_slot_frame s st st' : acquire_slot s st = Some st' →
  st_callers st' = st_callers st ∧ st_runs st' = st_runs st ∧ st_flight st' = st_flight st ∧
  st_cache st' = st_cache st ∧ st_log st' = st_log st.
Proof. unfold acquire_slot. intros H. repeat dmatch_in H; simplify_eq/=; done. Qed.

Lemma release_slot_frame s st :
  let st' := release_slot s st in
  st_callers st' = st_callers st ∧ st_runs st' = st_runs st ∧ st_flight st' = st_flight st ∧
  st_cache st' = st_cache st ∧ st_log st' = st_log st.
Proof. unfold release_slot. by destruct (st_sem st s). Qed.

(** Joining starts at most one execution. *)
Lemma doChan_weight i c st :
  st_callers (doChan i c st).2 = st_callers st ∧ (weight (doChan i c st).2 ≤ weight st + 5)%nat.
Proof.
  unfold doChan, weight. destruct (fl_running _ _); cbn; [split; [done|lia]|].
  rewrite sum_list_with_app. cbn. split; [done|lia].
Qed.

Lemma enter_weight c now st : (phase_weight (enter c now st).1 < 15)%nat.
Proof. unfold enter. repeat case_match; cbn; lia. Qed.

Lemma lookup_run_weight c now st n : (run_weight (run_at n (lookup_run c now st).1) < 5)%nat.
Proof. unfold lookup_run. repeat case_match; cbn; lia. Qed.

Lemma receive_weight led k ctx a r : (phase_weight (receive led k ctx a) < phase_weight (Awaiting k r))%nat.
Proof.
  unfold receive. destruct a as [|e]; [destruct k; cbn; lia|].
  destruct k as [|k]; [|rewrite andb_false_r; cbn; lia].
  destruct (_ && _ && _ && _); cbn; lia.
Qed.

(** Every step uses up weight. *)
Lemma gstep_weight st a st' : gstep st a = Some st' → (weight st' < weight st)%nat.
Proof.
  rewrite gstep_moved. destruct 1 as
    [i c e Hc Hx|i c now Hc Hp|i c k Hc Hp|i c k r e Hc Hp Hx|i c k r n ans Hc Hp Hn Ha|i c st1 Hc Hp Hs
    |i c ans Hc Hp Hs|i c ans Hc Hp|i c ans Hc Hp|r n now Hn Hp|r n st1 Hn Hp Hs|r n ans Hn Hp Hs
    |r n ans Hn Hp|r n now v Hn Hp|r n ans Hn Hp].
  - apply (weight_caller st st i c _ 0); [done..|lia|]. unfold caller_weight. rewrite Hx. cbn. lia.
  - apply (weight_caller st _ i c _ 0); [done..|cbn; unfold weight; cbn; lia|].
    unfold caller_weight. rewrite Hp. cbn. pose proof (enter_weight (cl_call c) now st). lia.
  - destruct (doChan_weight i (cl_call c) st) as [Hcs Hw].
    apply (weight_caller st _ i c _ 5); [done..|]. unfold caller_weight. rewrite Hp.
    destruct k; cbn; lia.
  - apply (weight_caller st st i c _ 0); [done..|lia|]. unfold caller_weight. rewrite Hp.
    destruct k; cbn; rewrite Hx; lia.
  - apply (weight_caller st st i c _ 0); [done..|lia|]. unfold caller_weight. rewrite Hp.
    pose proof (receive_weight (bool_decide (rn_leader n = i)) k (cl_ctx c) ans r). cbn [at_phase cl_ph cl_ctx]. lia.
  - destruct (acquire_slot_frame _ _ _ Hs) as (H1 & H2 & _).
    apply (weight_caller st st1 i c _ 0); [done..|unfold weight; rewrite H1, H2; lia|].
    unfold caller_weight. rewrite Hp. cbn. lia.
  - apply (weight_caller st st i c _ 0); [done..|lia|]. unfold caller_weight. rewrite Hp. cbn. lia.
  - destruct (release_slot_frame (c_store (cl_call c)) st) as (H1 & H2 & _).
    apply (weight_caller st _ i c _ 0); [done..|unfold weight; cbn; rewrite H1, H2; lia|].
    unfold caller_weight. rewrite Hp. cbn. lia.
  - apply (weight_caller st _ i c _ 0); [done..|unfold weight; cbn; lia|].
    unfold caller_weight. rewrite Hp. cbn. lia.
  - apply (weight_run st _ r n); [done..|]. unfold run_weight at 2. rewrite Hp.
    apply lookup_run_weight.
  - destruct (acquire_slot_frame _ _ _ Hs) as (H1 & H2 & _).
    apply (weight_run st _ r n); [done..|]. unfold run_weight. rewrite Hp. cbn. lia.
  - apply (weight_run st _ r n); [done..|]. unfold run_weight. rewrite Hp. cbn. lia.
  - destruct (release_slot_frame (c_store (rn_call n)) st) as (H1 & H2 & _).
    apply (weight_run st _ r n); [done..|]. unfold run_weight. rewrite Hp.
    destruct ans; cbn; lia.
  - apply (weight_run st _ r n); [done..|]. unfold run_weight. rewrite Hp. cbn. lia.
  - apply (weight_run st _ r n); [done..|]. unfold run_weight. rewrite Hp. cbn. lia.
Qed.

Lemma weight_fresh cfg calls : weight (newGuard cfg calls) = (16 * length calls)%nat.
Proof.
  unfold weight. cbn. rewrite Nat.add_0_r. induction calls as [|c calls IH]; cbn in *; lia.
Qed.

(** C36: A call takes finitely many steps: whatever the interleaving, no run of the
    guards goes on forever, and from fresh guards it takes at most sixteen steps
    per call (two attempts, each leading at most one execution). *)
Theorem guard_terminates :
  well_founded (flip steps_to : relation (state (Sm:=Sm) (Fl:=Fl))) ∧
  ∀ cfg calls k st, nsteps steps_to k (newGuard cfg calls) st → (k ≤ 16 * length calls)%nat.
Proof.
  split.
  - apply (wf_projected (<)%nat weight); [|apply lt_wf].
    intros st' st [a Ha]. by apply gstep_weight in Ha.
  - intros cfg calls k st Hk. rewrite <- (weight_fresh cfg calls).
    induction Hk as [|k s1 s2 s3 [a Ha] Hk IH]; [lia|]. apply gstep_weight in Ha. lia.
Qed.
End guard_props.
