(* ===== verification/GuardSafety.v ===== *)
(** The invariants of the guard: the slots held are the upstream queries in
    flight, the flight group names the executions that are not over, and every
    vector at hand is one the client answered. *)

From stdpp Require Import relations functions.
From S2P Require Import Prelude GoStrings PromStrings Queries PairScope Fanout QueryCache Guard.
From S2P Require Import GuardProps.

#[local] Open Scope Z_scope.

Section guard_safety.
Context {Sm Fl : Type} `{!Semaphore Sm, !FlightGroup Fl}.
Implicit Types st : state (Sm:=Sm) (Fl:=Fl).

(** An invariant of the fresh state kept by every rule holds of every reachable
    state. *)
Lemma reachable_ind_moved cfg calls (P : state (Sm:=Sm) (Fl:=Fl) → Prop) :
  P (newGuard cfg calls) → (∀ st a st', P st → moved st a st' → P st') →
  ∀ st, reachable cfg calls st → P st.
Proof.
  intros H0 Hstep st Hst. refine (rtc_ind_r P (newGuard cfg calls) H0 _ st Hst).
  intros s1 s2 _ [a Ha] IH. apply gstep_moved in Ha. by eapply Hstep.
Qed.

(** ** Slots *)

(** The queries of a store the client is being asked, probes apart. *)
Definition caller_holds (s : N) (c : caller) : nat :=
  match cl_ph c with Fetching AtUpstream => if decide (c_store (cl_call c) = s) then 1 else 0 | _ => 0 end.
Definition run_holds (s : N) (n : run) : nat :=
  match rn_ph n with RunFetching AtUpstream => if decide (c_store (rn_call n) = s) then 1 else 0 | _ => 0 end.
Definition in_flight (s : N) st : nat :=
  (sum_list_with (caller_holds s) (st_callers st) + sum_list_with (run_holds s) (st_runs st))%nat.

(** The semaphore of every store holds one slot per query in flight. *)
Definition slots_ok (bound : Z) st : Prop :=
  ∀ s, match st_sem st s with
       | None => bound ≤ 0
       | Some m => 0 < bound ∧ sem_cap m = bound ∧ sem_held m = Z.of_nat (in_flight s st) ∧ sem_held m ≤ bound
       end.

Lemma in_flight_caller s st st0 i c c' :
  st_callers st !! i = Some c → st_callers st0 = st_callers st → in_flight s st0 = in_flight s st →
  (in_flight s (set_caller i c' st0) + caller_holds s c = in_flight s st + caller_holds s c')%nat.
Proof.
  intros Hc H1 H2. rewrite <- H2. unfold in_flight. rewrite <- H1 in Hc.
  pose proof (sum_list_with_insert (caller_holds s) _ i _ c' Hc). cbn. lia.
Qed.
Lemma in_flight_run s st st0 r n n' :
  st_runs st !! r = Some n → st_runs st0 = st_runs st → in_flight s st0 = in_flight s st →
  (in_flight s (set_run r n' st0) + run_holds s n = in_flight s st + run_holds s n')%nat.
Proof.
  intros Hn H1 H2. rewrite <- H2. unfold in_flight. rewrite <- H1 in Hn.
  pose proof (sum_list_with_insert (run_holds s) _ r _ n' Hn). cbn. lia.
Qed.

(** Slots and queries in flight change together. *)
Lemma slots_same bound st st' :
  slots_ok bound st → st_sem st' = st_sem st → (∀ s, in_flight s st' = in_flight s st) → slots_ok bound st'.
Proof. intros H Hs Hf s. specialize (H s). rewrite Hs. destruct (st_sem st s); [|done]. by rewrite Hf. Qed.

Lemma slots_caller bound st st0 i c c' :
  slots_ok bound st → st_callers st !! i = Some c → st_callers st0 = st_callers st →
  st_sem st0 = st_sem st → (∀ s, in_flight s st0 = in_flight s st) →
  (∀ s, caller_holds s c = 0 ∧ caller_holds s c' = 0)%nat → slots_ok bound (set_caller i c' st0).
Proof.
  intros H Hc H1 H2 H3 Hh. apply (slots_same bound st); [done..|]. intros s.
  pose proof (in_flight_caller s st st0 i c c' Hc H1 (H3 s)). specialize (Hh s). lia.
Qed.
Lemma slots_run bound st st0 r n n' :
  slots_ok bound st → st_runs st !! r = Some n → st_runs st0 = st_runs st →
  st_sem st0 = st_sem st → (∀ s, in_flight s st0 = in_flight s st) →
  (∀ s, run_holds s n = 0 ∧ run_holds s n' = 0)%nat → slots_ok bound (set_run r n' st0).
Proof.
  intros H Hn H1 H2 H3 Hh. apply (slots_same bound st); [done..|]. intros s.
  pose proof (in_flight_run s st st0 r n n' Hn H1 (H3 s)). specialize (Hh s). lia.
Qed.

Lemma slots_acquire bound st st1 st' s0 :
  slots_ok bound st → acquire_slot s0 st = Some st1 → st_sem st' = st_sem st1 →
  (∀ s, in_flight s st' = in_flight s st + if decide (s0 = s) then 1 else 0)%nat → slots_ok bound st'.
Proof.
  intros H Ha Hs Hf s. pose proof (H s) as H'. rewrite Hs, Hf. unfold acquire_slot in Ha.
  destruct (st_sem st s0) as [m|] eqn:Em.
  - destruct (sem_acquire m) as [m'|] eqn:Eacq; [|done]. simplify_eq. cbn.
    destruct (sem_acquire_ok m m' Eacq) as [Hcap Hheld].
    assert (¬ sem_cap m ≤ sem_held m) by (rewrite <- sem_acquire_blocks; congruence).
    destruct (decide (s0 = s)) as [<-|Hne].
    + rewrite fn_lookup_insert. rewrite Em in H'. lia.
    + rewrite fn_lookup_insert_ne by done. destruct (st_sem st s); [lia|done].
  - simplify_eq. destruct (st_sem st1 s) as [m|] eqn:E; [|done]. rewrite decide_False by congruence. lia.
Qed.

Lemma slots_release bound st st' s0 :
  slots_ok bound st → st_sem st' = st_sem (release_slot s0 st) →
  (∀ s, in_flight s st' + (if decide (s0 = s) then 1 else 0) = in_flight s st)%nat → slots_ok bound st'.
Proof.
  intros H Hs Hf s. pose proof (H s) as H'. specialize (Hf s). rewrite Hs. unfold release_slot.
  destruct (st_sem st s0) as [m|] eqn:Em; cbn.
  - destruct (decide (s0 = s)) as [<-|Hne].
    + rewrite fn_lookup_insert. rewrite Em in H'. destruct (sem_release_ok m); lia.
    + rewrite fn_lookup_insert_ne by done. destruct (st_sem st s); [lia|done].
  - destruct (st_sem st s) as [m|] eqn:E; [|done]. rewrite decide_False in Hf by congruence. lia.
Qed.

Lemma enter_holds s c now st : caller_holds s (at_phase c (enter (cl_call c) now st).1) = 0%nat.
Proof. unfold enter. by repeat case_match. Qed.
Lemma receive_holds s c led k ctx ans : caller_holds s (at_phase c (receive led k ctx ans)) = 0%nat.
Proof. unfold receive. by repeat case_match. Qed.
Lemma lookup_holds s n now st : run_holds s (run_at n (lookup_run (rn_call n) now st).1) = 0%nat.
Proof. unfold lookup_run. by repeat case_match. Qed.
Lemma fetched_holds s n ans : run_holds s (run_at n (fetched ans)) = 0%nat.
Proof. by destruct ans. Qed.

Lemma join_in_flight s i c st :
  in_flight s (doChan i c st).2 = in_flight s st ∧ st_sem (doChan i c st).2 = st_sem st.
Proof.
  unfold doChan, in_flight. destruct (fl_running _ _); [done|]. cbn.
  rewrite sum_list_with_app. cbn. split; [lia|done].
Qed.

Lemma slots_moved bound st a st' : slots_ok bound st → moved st a st' → slots_ok bound st'.
Proof.
  intros H. destruct 1 as
    [i c e Hc Hx|i c now Hc Hp|i c k Hc Hp|i c k r e Hc Hp Hx|i c k r n ans Hc Hp Hn Ha|i c st1 Hc Hp Hs
    |i c ans Hc Hp Hs|i c ans Hc Hp|i c ans Hc Hp|r n now Hn Hp|r n st1 Hn Hp Hs|r n ans Hn Hp Hs
    |r n ans Hn Hp|r n now v Hn Hp|r n ans Hn Hp].
  - apply (slots_same bound st); [done..|]. intros s.
    pose proof (in_flight_caller s st st i c (mkCaller (cl_call c) (Some e) (cl_ph c)) Hc eq_refl eq_refl) as E.
    unfold caller_holds in E. cbn [cl_ph cl_call] in E. lia.
  - eapply slots_caller; try done. intros s. split; [by unfold caller_holds; rewrite Hp|apply enter_holds].
  - eapply (slots_caller _ st);
      [exact H|exact Hc|apply doChan_weight|apply (join_in_flight 0)|intros s; apply join_in_flight|].
    intros s. split; [by unfold caller_holds; rewrite Hp|done].
  - eapply slots_caller; try done. intros s. split; [by unfold caller_holds; rewrite Hp|done].
  - eapply slots_caller; try done. intros s. split; [by unfold caller_holds; rewrite Hp|apply receive_holds].
  - destruct (acquire_slot_frame _ _ _ Hs) as (H1 & H2 & _).
    eapply (slots_acquire bound st st1); [exact H|exact Hs|done|]. intros s.
    pose proof (in_flight_caller s st st1 i c (at_phase c (Fetching AtUpstream)) Hc H1) as E.
    unfold caller_holds in E. rewrite Hp in E. cbn [cl_ph cl_call at_phase] in E.
    specialize (E ltac:(unfold in_flight; congruence)). lia.
  - eapply slots_caller; try done. intros s. split; [by unfold caller_holds; rewrite Hp|done].
  - destruct (release_slot_frame (c_store (cl_call c)) st) as (H1 & H2 & _).
    eapply (slots_release bound st); [exact H|done|]. intros s.
    pose proof (in_flight_caller s st (log_up (cl_call c) ans (release_slot (c_store (cl_call c)) st))
      i c (at_phase c (Returned ans)) Hc H1) as E.
    unfold caller_holds in E. rewrite Hp in E. cbn [cl_ph cl_call at_phase] in E.
    specialize (E ltac:(unfold in_flight; cbn; congruence)). lia.
  - eapply slots_caller; try done. intros s. split; [by unfold caller_holds; rewrite Hp|done].
  - eapply slots_run; try done. intros s. split; [by unfold run_holds; rewrite Hp|apply lookup_holds].
  - destruct (acquire_slot_frame _ _ _ Hs) as (H1 & H2 & _).
    eapply (slots_acquire bound st st1); [exact H|exact Hs|done|]. intros s.
    pose proof (in_flight_run s st st1 r n (run_at n (RunFetching AtUpstream)) Hn H2) as E.
    unfold run_holds in E. rewrite Hp in E. cbn [rn_ph rn_call run_at] in E.
    specialize (E ltac:(unfold in_flight; congruence)). lia.
  - eapply slots_run; try done. intros s. split; [by unfold run_holds; rewrite Hp|done].
  - destruct (release_slot_frame (c_store (rn_call n)) st) as (H1 & H2 & _).
    eapply (slots_release bound st); [exact H|done|]. intros s.
    pose proof (in_flight_run s st (log_up (rn_call n) ans (release_slot (c_store (rn_call n)) st))
      r n (run_at n (fetched ans)) Hn H2) as E.
    rewrite fetched_holds in E. unfold run_holds in E. rewrite Hp in E.
    specialize (E ltac:(unfold in_flight; cbn; congruence)). lia.
  - eapply slots_run; try done. intros s. split; [by unfold run_holds; rewrite Hp|done].
  - eapply slots_run; try done. intros s. split; [by unfold run_holds; rewrite Hp|done].
Qed.

Lemma sum_list_with_zero {A} (f : A → nat) (l : list A) : (∀ x, x ∈ l → f x = 0%nat) → sum_list_with f l = 0%nat.
Proof.
  induction l as [|x l IH]; intros Hf; cbn; [done|]. rewrite Hf by left.
  rewrite IH; [done|]. intros y Hy. apply Hf. by right.
Qed.

Lemma slots_fresh cfg calls : slots_ok (maxConcurrency cfg) (newGuard cfg calls).
Proof.
  intros s. cbn. destruct (Z.ltb_spec 0 (maxConcurrency cfg)) as [Hpos|]; [|done].
  destruct (sem_new_ok (maxConcurrency cfg)) as [-> ->]. unfold in_flight. cbn.
  rewrite sum_list_with_zero; [lia|]. intros x Hx. apply list_elem_of_fmap in Hx as (c & -> & _). done.
Qed.

Lemma reachable_slots cfg calls st : reachable cfg calls st → slots_ok (maxConcurrency cfg) st.
Proof.
  apply (reachable_ind_moved cfg calls (slots_ok (maxConcurrency cfg))); [apply slots_fresh|].
  intros s1 a s2. apply slots_moved.
Qed.

(** ** What only grows *)

(** The client's log and the contexts that ended only grow; calls, executions
    and the presence of the cache stay. *)
Record later st st' : Prop := {
  later_log : st_log st ⊆ st_log st';
  later_callers : ∀ i c, st_callers st !! i = Some c → ∃ c', st_callers st' !! i = Some c' ∧
    cl_call c' = cl_call c ∧ ∀ e, cl_ctx c = Some e → cl_ctx c' = Some e;
  later_runs : ∀ r n, st_runs st !! r = Some n → ∃ n', st_runs st' !! r = Some n' ∧ rn_call n' = rn_call n;
  later_cache : is_Some (st_cache st') ↔ is_Some (st_cache st);
}.

Lemma later_set_caller st st0 i c c' :
  st_callers st !! i = Some c → st_callers st0 = st_callers st →
  cl_call c' = cl_call c → (∀ e, cl_ctx c = Some e → cl_ctx c' = Some e) →
  st_log st ⊆ st_log st0 → (∃ new, st_runs st0 = st_runs st ++ new) →
  (is_Some (st_cache st0) ↔ is_Some (st_cache st)) → later st (set_caller i c' st0).
Proof.
  intros Hc Hcs Hcall Hctx Hlog [new Hruns] Hcache. split; cbn; [done| | |done].
  - intros j d Hd. rewrite Hcs. destruct (decide (i = j)) as [<-|Hne].
    + exists c'. rewrite list_lookup_insert_eq by (by eapply lookup_lt_Some). by simplify_eq.
    + exists d. by rewrite list_lookup_insert_ne.
  - intros r n Hn. exists n. rewrite Hruns. split; [by apply lookup_app_l_Some|done].
Qed.

Lemma later_set_run st st0 r n n' :
  st_runs st !! r = Some n → st_runs st0 = st_runs st → rn_call n' = rn_call n →
  st_callers st0 = st_callers st → st_log st ⊆ st_log st0 →
  (is_Some (st_cache st0) ↔ is_Some (st_cache st)) → later st (set_run r n' st0).
Proof.
  intros Hn Hruns Hcall Hcs Hlog Hcache. split; cbn; [done| | |done].
  - intros j d Hd. exists d. by rewrite Hcs.
  - intros q m Hm. rewrite Hruns. destruct (decide (r = q)) as [<-|Hne].
    + exists n'. rewrite list_lookup_insert_eq by (by eapply lookup_lt_Some). by simplify_eq.
    + exists m. by rewrite list_lookup_insert_ne.
Qed.

(** ** Where an answer comes from *)

(** The client answered [a] to the key's query, or the wait for the slot of a
    caller with that key ended with its context. *)
Definition answered st (k : cacheKey) (a : answer) : Prop :=
  (∃ u, u ∈ st_log st ∧ key_of (up_call u) = k ∧ up_answer u = a) ∨
  (∃ i c e, st_callers st !! i = Some c ∧ key_of (cl_call c) = k ∧ cl_ctx c = Some e ∧
            a = Err (SlotErr (c_name (cl_call c)) e)).

(** ... or the caller's own context ended. *)
Definition delivered st (c : caller) (a : answer) : Prop :=
  answered st (key_of (cl_call c)) a ∨ ∃ e, cl_ctx c = Some e ∧ a = Err (CallerErr (c_name (cl_call c)) e).

(** A call that is no probe, and one that is. *)
Record no_probe (c : call) : Prop := { no_probe_name : isProbe (c_name c) = false }.
Record probe (c : call) : Prop := { probe_name : isProbe (c_name c) = true }.

Definition caller_ok st (c : caller) : Prop :=
  match cl_ph c with
  | Entering => True
  | Probing => probe (cl_call c)
  | Fetching _ => no_probe (cl_call c) ∧ st_cache st = None
  | Looping _ => no_probe (cl_call c) ∧ is_Some (st_cache st)
  | Awaiting _ r => no_probe (cl_call c) ∧ is_Some (st_cache st) ∧
      ∃ n, st_runs st !! r = Some n ∧ key_of (rn_call n) = key_of (cl_call c)
  | Returned a => delivered st c a
  end.

Definition run_ok st (n : run) : Prop :=
  no_probe (rn_call n) ∧ is_Some (st_cache st) ∧
  match rn_ph n with
  | RunEntering | RunFetching _ => True
  | RunStoring v => answered st (key_of (rn_call n)) (Ok v)
  | RunReturning a | RunOver a => answered st (key_of (rn_call n)) a
  end.

Lemma answered_later st st' k a : later st st' → answered st k a → answered st' k a.
Proof.
  intros Hl [(u & Hu & Hk & Ha)|(i & c & e & Hc & Hk & He & Ha)].
  - left. exists u. split; [by apply (later_log _ _ Hl)|done].
  - right. destruct (later_callers _ _ Hl i c Hc) as (c' & Hc' & Hcall & Hctx).
    exists i, c', e. rewrite Hcall. auto.
Qed.
Lemma caller_ok_later st st' c : later st st' → caller_ok st c → caller_ok st' c.
Proof.
  intros Hl. unfold caller_ok. destruct (cl_ph c) as [| |f|k|k r|a]; try done.
  - intros [? Hn]. split; [done|]. apply eq_None_not_Some. rewrite (later_cache _ _ Hl), Hn. by intros [].
  - intros [? Hs]. split; [done|]. by apply (later_cache _ _ Hl).
  - intros (? & Hs & n & Hn & Hk). split_and!; [done|by apply (later_cache _ _ Hl)|].
    destruct (later_runs _ _ Hl r n Hn) as (n' & Hn' & Hcall). exists n'. by rewrite Hcall.
  - intros [H|H]; [left; by eapply answered_later|by right].
Qed.
Lemma run_ok_later st st' n : later st st' → run_ok st n → run_ok st' n.
Proof.
  intros Hl (Hp & Hs & H). split_and!; [done|by apply (later_cache _ _ Hl)|].
  destruct (rn_ph n); try done; by eapply answered_later.
Qed.

Record flow_ok st : Prop := {
  flow_cache : cache_sat (λ k v, answered st k (Ok v)) (st_cache st);
  flow_callers : ∀ i c, st_callers st !! i = Some c → caller_ok st c;
  flow_runs : ∀ r n, st_runs st !! r = Some n → run_ok st n;
}.

Lemma flow_set_caller st st0 i c' :
  flow_ok st → later st (set_caller i c' st0) → st_callers st0 = st_callers st →
  cache_sat (λ k v, answered st k (Ok v)) (st_cache st0) →
  caller_ok (set_caller i c' st0) c' →
  (∀ r n, st_runs st0 !! r = Some n → st_runs st !! r = Some n ∨ run_ok (set_caller i c' st0) n) →
  flow_ok (set_caller i c' st0).
Proof.
  intros Hok Hl Hcs Hcache Hc' Hruns. split.
  - eapply cache_sat_mono; [|exact Hcache]. intros k v. by apply answered_later.
  - cbn [set_caller st_callers]. intros j d. rewrite list_lookup_insert_Some.
    intros [(_ & <- & _)|[_ Hd]]; [done|]. rewrite Hcs in Hd.
    by eapply caller_ok_later, (flow_callers st Hok).
  - intros r n Hn. destruct (Hruns r n Hn) as [Hn'|]; [|done]. by eapply run_ok_later, (flow_runs st Hok).
Qed.
Lemma flow_set_run st st0 r n' :
  flow_ok st → later st (set_run r n' st0) → st_callers st0 = st_callers st → st_runs st0 = st_runs st →
  cache_sat (λ k v, answered (set_run r n' st0) k (Ok v)) (st_cache st0) →
  run_ok (set_run r n' st0) n' → flow_ok (set_run r n' st0).
Proof.
  intros Hok Hl Hcs Hrs Hcache Hn'. split; [done| |].
  - cbn [set_run st_callers]. intros j d Hd. rewrite Hcs in Hd.
    by eapply caller_ok_later, (flow_callers st Hok).
  - cbn [set_run st_runs]. intros q m. rewrite list_lookup_insert_Some.
    intros [(_ & <- & _)|[_ Hm]]; [done|]. rewrite Hrs in Hm. by eapply run_ok_later, (flow_runs st Hok).
Qed.

Lemma release_slot_log s st : st_log (release_slot s st) = st_log st.
Proof. apply release_slot_frame. Qed.

(** The lookup at the head of a call. *)
Lemma enter_ok st i c now :
  flow_ok st → st_callers st !! i = Some c → cl_ph c = Entering →
  flow_ok (set_caller i (at_phase c (enter (cl_call c) now st).1) (set_cache (enter (cl_call c) now st).2 st)).
Proof.
  intros Hok Hc Hp. pose proof (get_sat _ _ now (key_of (cl_call c)) (flow_cache st Hok)) as (Hsat & Hsome & Hhit).
  assert (is_Some (enter (cl_call c) now st).2 ↔ is_Some (st_cache st)) as Hs.
  { unfold enter. destruct (isProbe _); [done|]. destruct (st_cache st) as [q|] eqn:Eq; [|done].
    destruct (QueryCache.get _ _ _) as [[]]; done. }
  assert (later st (set_caller i (at_phase c (enter (cl_call c) now st).1) (set_cache (enter (cl_call c) now st).2 st)))
    as Hl by (apply (later_set_caller st _ i c); try done; exists []; by rewrite app_nil_r).
  eapply flow_set_caller; [done|done|done| | |by left].
  - unfold enter. cbn. destruct (isProbe _); [by apply flow_cache|].
    destruct (st_cache st) as [q|] eqn:Eq; [|done]. destruct (QueryCache.get _ _ _) as [[]]; done.
  - unfold caller_ok. cbn [at_phase cl_ph cl_call]. unfold enter at 1.
    destruct (isProbe _) eqn:Epr; [by constructor|]. pose proof (later_cache _ _ Hl) as Hlc.
    apply Build_no_probe in Epr.
    destruct (st_cache st) as [q|] eqn:Eq.
    + destruct (QueryCache.get _ _ _) as [[v|] oc] eqn:Eg; cbn [fst].
      * left. eapply answered_later; [done|]. by apply Hhit.
      * split; [done|]. by apply Hlc.
    + split; [done|]. apply eq_None_not_Some. rewrite Hlc. by intros [].
Qed.

Lemma lookup_ok st r n now :
  flow_ok st → st_runs st !! r = Some n → rn_ph n = RunEntering →
  flow_ok (set_run r (run_at n (lookup_run (rn_call n) now st).1) (set_cache (lookup_run (rn_call n) now st).2 st)).
Proof.
  intros Hok Hn Hp. pose proof (get_sat _ _ now (key_of (rn_call n)) (flow_cache st Hok)) as (Hsat & Hsome & Hhit).
  destruct (flow_runs st Hok r n Hn) as (Hpr & Hcs & _). unfold lookup_run.
  destruct (QueryCache.get _ _ _) as [[v|] oc] eqn:Eg; cbn [fst snd] in *;
    (assert (∀ n', rn_call n' = rn_call n → later st (set_run r n' (set_cache oc st))) as Hl
      by (intros n' Hn'; by apply (later_set_run st _ r n)));
    (eapply flow_set_run; [done|by apply Hl|done|done| |]);
    try (eapply cache_sat_mono; [|exact Hsat]; intros k w; by apply answered_later, Hl);
    (split_and!; [done|by apply (later_cache _ _ (Hl _ eq_refl))|]); [|done].
  cbn. eapply answered_later; [by apply Hl|]. by apply Hhit.
Qed.

Lemma stored_ok st r n now v :
  flow_ok st → st_runs st !! r = Some n → rn_ph n = RunStoring v →
  flow_ok (set_run r (run_at n (RunReturning (Ok v)))
    (set_cache (QueryCache.put (st_cache st) now (key_of (rn_call n)) v) st)).
Proof.
  intros Hok Hn Hp. destruct (flow_runs st Hok r n Hn) as (Hpr & Hcs & Ha). rewrite Hp in Ha.
  destruct (put_sat _ _ now _ v (flow_cache st Hok) Ha) as [Hsat Hsome].
  assert (later st (set_run r (run_at n (RunReturning (Ok v)))
    (set_cache (QueryCache.put (st_cache st) now (key_of (rn_call n)) v) st))) as Hl
    by (by apply (later_set_run st _ r n)).
  eapply flow_set_run; [done..| |].
  - eapply cache_sat_mono; [|exact Hsat]. intros k w. by apply answered_later.
  - split_and!; [done|by apply (later_cache _ _ Hl)|]. by eapply answered_later.
Qed.

(** An answer the client gives is in the log. *)
Lemma logged_answered st c a st0 :
  st_log st0 = mkUpcall c a :: st_log st → answered st0 (key_of c) a.
Proof. intros E. left. exists (mkUpcall c a). rewrite E. split; [by left|done]. Qed.

Lemma join_ok st i c k :
  flow_ok st → st_callers st !! i = Some c → cl_ph c = Looping k →
  (∀ s k r, fl_running (st_flight st s) k = Some r →
     ∃ n, st_runs st !! r = Some n ∧ c_store (rn_call n) = s ∧ flightKey (rn_call n) = k) →
  flow_ok (set_caller i (at_phase c (Awaiting k (doChan i (cl_call c) st).1)) (doChan i (cl_call c) st).2).
Proof.
  intros Hok Hc Hp Hfl. pose proof (flow_callers st Hok i c Hc) as Hco. unfold caller_ok in Hco.
  rewrite Hp in Hco. destruct Hco as [Hpr Hcs]. unfold doChan.
  destruct (fl_running _ _) as [r|] eqn:Er; cbn [fst snd].
  - destruct (Hfl _ _ _ Er) as (n & Hn & Hs & Hk).
    assert (later st (set_caller i (at_phase c (Awaiting k r)) st)) as Hl
      by (apply (later_set_caller st st i c); try done; exists []; by rewrite app_nil_r).
    eapply flow_set_caller; [done..|by apply flow_cache| |by left].
    split_and!; [done|done|]. exists n. split; [done|]. by apply flightKey_inj.
  - set (st0 := mkState _ _ _ _ _ _).
    assert (later st (set_caller i (at_phase c (Awaiting k (length (st_runs st)))) st0)) as Hl
      by (apply (later_set_caller st st0 i c); try done; by eexists).
    apply (flow_set_caller st st0); [done..|by apply (flow_cache st)| |].
    + split_and!; [done|done|]. eexists. split; [by apply list_lookup_middle|done].
    + intros r n Hn. cbn in Hn. apply lookup_app_Some in Hn as [Hn|[_ Hn]]; [by left|].
      right. apply list_lookup_singleton_Some in Hn as [_ <-]. by split_and!.
Qed.

(** ** The flight group *)

Definition over (n : run) : Prop := match rn_ph n with RunOver _ => True | _ => False end.
#[local] Instance over_dec n : Decision (over n).
Proof. unfold over. destruct (rn_ph n); apply _. Defined.

(** The group names, for every key, the one execution that is not over; an
    execution is led by a caller that made its call. *)
Record flights_ok st : Prop := {
  fl_named : ∀ s k r, fl_running (st_flight st s) k = Some r ↔
    ∃ n, st_runs st !! r = Some n ∧ c_store (rn_call n) = s ∧ flightKey (rn_call n) = k ∧ ¬ over n;
  fl_led : ∀ r n, st_runs st !! r = Some n → ∃ c, st_callers st !! rn_leader n = Some c ∧ cl_call c = rn_call n;
}.

Lemma flights_set_caller st st0 i c c' :
  flights_ok st → st_callers st !! i = Some c → cl_call c' = cl_call c →
  st_callers st0 = st_callers st → st_runs st0 = st_runs st → st_flight st0 = st_flight st →
  flights_ok (set_caller i c' st0).
Proof.
  intros [Hn Hl] Hc Hcall H1 H2 H3. split; cbn; rewrite ?H1, ?H2, ?H3; [done|].
  intros r n Hr. destruct (Hl r n Hr) as (d & Hd & Hcd). destruct (decide (i = rn_leader n)) as [->|Hne].
  - exists c'. rewrite list_lookup_insert_eq by (by eapply lookup_lt_Some). split; [done|congruence].
  - exists d. by rewrite list_lookup_insert_ne.
Qed.

Lemma flights_set_run st st0 r n n' :
  flights_ok st → st_runs st !! r = Some n → ¬ over n → rn_call n' = rn_call n → rn_leader n' = rn_leader n →
  st_callers st0 = st_callers st → st_runs st0 = st_runs st →
  (∀ s k, fl_running (st_flight st0 s) k =
     if decide (over n' ∧ s = c_store (rn_call n) ∧ k = flightKey (rn_call n)) then None
     else fl_running (st_flight st s) k) →
  flights_ok (set_run r n' st0).
Proof.
  intros [Hnm Hl] Hn Hov Hcall Hld H1 H2 H3. split; cbn; rewrite ?H1, ?H2.
  - intros s k q. rewrite H3. split.
    + intros H. destruct (decide _) as [|Hnot]; [done|]. apply Hnm in H as (m & Hm & <- & <- & Hom).
      destruct (decide (r = q)) as [<-|Hne].
      * simplify_eq. exists n'. rewrite list_lookup_insert_eq by (by eapply lookup_lt_Some).
        rewrite Hcall in *. split_and!; try done. intros Ho. by apply Hnot.
      * exists m. by rewrite list_lookup_insert_ne.
    + intros (m & Hm & <- & <- & Hom). apply list_lookup_insert_Some in Hm as [(<- & <- & _)|[Hne Hm]].
      * rewrite decide_False by (by intros [? _]). apply Hnm. rewrite Hcall. by exists n.
      * destruct (decide _) as [(Ho & Hs & Hk)|]; [|apply Hnm; by exists m].
        assert (fl_running (st_flight st (c_store (rn_call n))) (flightKey (rn_call n)) = Some r) as Hr
          by (apply Hnm; by exists n).
        assert (fl_running (st_flight st (c_store (rn_call m))) (flightKey (rn_call m)) = Some q) as Hq
          by (apply Hnm; by exists m). rewrite Hs, Hk in Hq. congruence.
  - intros q m. rewrite list_lookup_insert_Some. intros [(_ & <- & _)|[_ Hm]]; [|by apply (Hl q)].
    rewrite Hld, Hcall. by apply (Hl r).
Qed.

Lemma flights_join st i c k :
  flights_ok st → st_callers st !! i = Some c →
  flights_ok (set_caller i (at_phase c (Awaiting k (doChan i (cl_call c) st).1)) (doChan i (cl_call c) st).2).
Proof.
  intros Hok Hc. unfold doChan. destruct (fl_running _ _) as [r|] eqn:Er; cbn [fst snd].
  { by eapply flights_set_caller. }
  apply (flights_set_caller (mkState (st_cache st) (st_sem st)
    (<[c_store (cl_call c) := fl_start (st_flight st (c_store (cl_call c))) (flightKey (cl_call c)) (length (st_runs st))]> (st_flight st))
    (st_callers st) (st_runs st ++ [mkRun i (cl_call c) RunEntering]) (st_log st)) _ i c); try done.
  destruct Hok as [Hnm Hl]. split; cbn.
  - intros s q r. destruct (decide (c_store (cl_call c) = s)) as [<-|Hs].
    + rewrite fn_lookup_insert, fl_start_ok. destruct (decide (q = flightKey (cl_call c))) as [->|Hq].
      * split.
        -- intros [= <-]. eexists. split; [by apply list_lookup_middle|]. by split_and!; [..|intros ?].
        -- intros (n & Hn & Hs & Hk & Ho). apply lookup_app_Some in Hn as [Hn|[Hge Hn]].
           ++ assert (fl_running (st_flight st (c_store (cl_call c))) (flightKey (cl_call c)) = Some r)
                by (apply Hnm; by exists n). congruence.
           ++ apply list_lookup_singleton_Some in Hn as [Hn _]. f_equal. lia.
      * rewrite Hnm. split; intros (n & Hn & Hs & Hk & Ho); exists n; (split; [|done]).
        -- by apply lookup_app_l_Some.
        -- apply lookup_app_Some in Hn as [Hn|[_ Hn]]; [done|].
           apply list_lookup_singleton_Some in Hn as [_ <-]. by cbn in Hk.
    + rewrite fn_lookup_insert_ne by done. rewrite Hnm.
      split; intros (n & Hn & Hns & Hk & Ho); exists n; (split; [|done]).
      * by apply lookup_app_l_Some.
      * apply lookup_app_Some in Hn as [Hn|[_ Hn]]; [done|].
        apply list_lookup_singleton_Some in Hn as [_ <-]. by cbn in Hns.
  - intros r n Hn. apply lookup_app_Some in Hn as [Hn|[_ Hn]]; [by apply (Hl r)|].
    apply list_lookup_singleton_Some in Hn as [_ <-]. by exists c.
Qed.
End guard_safety.
