(* ===== verification/GuardTheorems.v ===== *)
(** What the guard promises its callers and the store behind it, in every
    reachable interleaving. *)

From stdpp Require Import relations functions.
From S2P Require Import Prelude GoStrings PromStrings Queries PairScope Fanout QueryCache Guard.
From S2P Require Import GuardProps GuardSafety.

#[local] Open Scope Z_scope.

Section guard_theorems.
Context {Sm Fl : Type} `{!Semaphore Sm, !FlightGroup Fl}.
Implicit Types st : state (Sm:=Sm) (Fl:=Fl).

Lemma flights_moved st a st' : flights_ok st → moved st a st' → flights_ok st'.
Proof.
  intros H. destruct 1 as
    [i c e Hc Hx|i c now Hc Hp|i c k Hc Hp|i c k r e Hc Hp Hx|i c k r n ans Hc Hp Hn Ha|i c st1 Hc Hp Hs
    |i c ans Hc Hp Hs|i c ans Hc Hp|i c ans Hc Hp|r n now Hn Hp|r n st1 Hn Hp Hs|r n ans Hn Hp Hs
    |r n ans Hn Hp|r n now v Hn Hp|r n ans Hn Hp];
    try (eapply (flights_set_caller st _ i c); (done || by eapply acquire_slot_frame || by apply release_slot_frame));
    try (assert (¬ over n) as Ho by (unfold over; rewrite Hp; by intros [])).
  - by apply flights_join.
  - destruct (release_slot_frame (c_store (cl_call c)) st) as (H1 & H2 & H3 & _).
    by apply (flights_set_caller st _ i c).
  - apply (flights_set_run st _ r n); [done..|]. intros s k. unfold lookup_run.
    destruct (QueryCache.get _ _ _) as [[]]; by rewrite decide_False by (by intros [? _]).
  - destruct (acquire_slot_frame _ _ _ Hs) as (H1 & H2 & H3 & _).
    apply (flights_set_run st _ r n); [done..|]. intros s k. rewrite H3. by rewrite decide_False by (by intros [? _]).
  - apply (flights_set_run st _ r n); [done..|]. intros s k. by rewrite decide_False by (by intros [? _]).
  - destruct (release_slot_frame (c_store (rn_call n)) st) as (H1 & H2 & H3 & _).
    apply (flights_set_run st _ r n); [done..|]. intros s k. cbn. rewrite H3.
    rewrite decide_False; [done|]. by destruct ans; intros [? _].
  - apply (flights_set_run st _ r n); [done..|]. intros s k. by rewrite decide_False by (by intros [? _]).
  - apply (flights_set_run st _ r n); [done..|]. intros s k. cbn.
    destruct (decide (c_store (rn_call n) = s)) as [<-|Hne].
    + rewrite fn_lookup_insert, fl_forget_ok. destruct (decide (k = _)) as [->|Hk].
      * by rewrite decide_True.
      * rewrite decide_False; [done|]. by intros (_ & _ & ?).
    + rewrite fn_lookup_insert_ne by done. rewrite decide_False; [done|]. intros (_ & Hs & _). congruence.
Qed.

Lemma receive_delivered st i c k r n ans :
  flow_ok st → st_callers st !! i = Some c → cl_ph c = Awaiting k r →
  st_runs st !! r = Some n → rn_ph n = RunOver ans →
  caller_ok st (at_phase c (receive (bool_decide (rn_leader n = i)) k (cl_ctx c) ans)).
Proof.
  intros Hok Hc Hp Hn Ha. pose proof (flow_callers st Hok i c Hc) as Hco. unfold caller_ok in Hco.
  rewrite Hp in Hco. destruct Hco as (Hpr & Hcs & m & Hm & Hk).
  assert (m = n) as -> by congruence. destruct (flow_runs st Hok r n Hn) as (_ & _ & Hans). rewrite Ha, Hk in Hans.
  unfold receive. destruct ans as [v|e]; [by left|]. destruct (_ && _ && _ && _); [done|by left].
Qed.

Lemma slot_error_some st c ctx ans :
  slot_error c ctx st = Some ans → ∃ e, ctx = Some e ∧ ans = Err (SlotErr (c_name c) e).
Proof. unfold slot_error. destruct (st_sem st _), ctx; naive_solver. Qed.

Lemma later_set_caller_same st st0 i c c' :
  st_callers st !! i = Some c → st_callers st0 = st_callers st → st_runs st0 = st_runs st →
  st_cache st0 = st_cache st → st_log st ⊆ st_log st0 →
  cl_call c' = cl_call c → (∀ e, cl_ctx c = Some e → cl_ctx c' = Some e) → later st (set_caller i c' st0).
Proof.
  intros Hc Hcs Hrs Hch Hlog Hcall Hctx. apply (later_set_caller st st0 i c); try done.
  - exists []. by rewrite app_nil_r.
  - by rewrite Hch.
Qed.

Lemma flow_moved st a st' : flow_ok st → flights_ok st → moved st a st' → flow_ok st'.
Proof.
  intros H Hfl. destruct 1 as
    [i c e Hc Hx|i c now Hc Hp|i c k Hc Hp|i c k r e Hc Hp Hx|i c k r n ans Hc Hp Hn Ha|i c st1 Hc Hp Hs
    |i c ans Hc Hp Hs|i c ans Hc Hp|i c ans Hc Hp|r n now Hn Hp|r n st1 Hn Hp Hs|r n ans Hn Hp Hs
    |r n ans Hn Hp|r n now v Hn Hp|r n ans Hn Hp].
  - apply (flow_set_caller st st); [done|by apply (later_set_caller_same st st i c); try done; intros e'; cbn; congruence|done|by apply (flow_cache st)| |by left].
    pose proof (flow_callers st H i c Hc) as Hco.
    eapply caller_ok_later; [by apply (later_set_caller_same st st i c); try done; intros e'; cbn; congruence|].
    unfold caller_ok, delivered in *. cbn. destruct (cl_ph c); try done.
    destruct Hco as [|(e' & He & _)]; [by left|congruence].
  - by apply enter_ok.
  - apply join_ok; try done. intros s q r Hr. apply (fl_named _ Hfl) in Hr as (n & ? & ? & ? & _). by exists n.
  - apply (flow_set_caller st st); [done| |done|by apply (flow_cache st)|right; by exists e|by left].
    by apply (later_set_caller_same st st i c).
  - assert (later st (set_caller i (at_phase c (receive (bool_decide (rn_leader n = i)) k (cl_ctx c) ans)) st)) as Hl
      by (by apply (later_set_caller_same st st i c)).
    apply (flow_set_caller st st); [done|done|done|by apply (flow_cache st)| |by left].
    eapply caller_ok_later; [done|]. by eapply receive_delivered.
  - destruct (acquire_slot_frame _ _ _ Hs) as (H1 & H2 & _ & H4 & H5).
    pose proof (flow_callers st H i c Hc) as Hco. unfold caller_ok in Hco. rewrite Hp in Hco.
    apply (flow_set_caller st st1); [done| |done|rewrite H4; by apply (flow_cache st)| |rewrite H2; by left].
    + by apply (later_set_caller_same st st1 i c); try done; rewrite H5.
    + unfold caller_ok. cbn. by rewrite H4.
  - destruct (slot_error_some st _ _ _ Hs) as (e & He & ->).
    assert (later st (set_caller i (at_phase c (Returned (Err (SlotErr (c_name (cl_call c)) e)))) st)) as Hl
      by (by apply (later_set_caller_same st st i c)).
    apply (flow_set_caller st st); [done|done|done|by apply (flow_cache st)| |by left].
    left. eapply answered_later; [done|]. right. by exists i, c, e.
  - destruct (release_slot_frame (c_store (cl_call c)) st) as (H1 & H2 & _ & H4 & H5).
    eapply (flow_set_caller st); [done| |done|cbn; rewrite H4; by apply (flow_cache st)| |cbn; rewrite H2; by left].
    + apply (later_set_caller_same st _ i c); try done. cbn. rewrite H5. by right.
    + left. by eapply logged_answered.
  - eapply (flow_set_caller st); [done| |done|by apply (flow_cache st)| |by left].
    + apply (later_set_caller_same st _ i c); try done. by right.
    + left. by eapply logged_answered.
  - by apply lookup_ok.
  - destruct (acquire_slot_frame _ _ _ Hs) as (H1 & H2 & _ & H4 & H5).
    destruct (flow_runs st H r n Hn) as (Hpr & Hcs & _).
    assert (later st (set_run r (run_at n (RunFetching AtUpstream)) st1)) as Hl
      by (apply (later_set_run st st1 r n); try done; [by rewrite H5|by rewrite H4]).
    apply (flow_set_run st st1); [done..| |].
    + rewrite H4. eapply cache_sat_mono; [|by apply (flow_cache st)]. intros k v. by apply answered_later.
    + split_and!; [done|by apply (later_cache _ _ Hl)|done].
  - destruct (slot_error_some st _ _ _ Hs) as (e & He & ->).
    destruct (flow_runs st H r n Hn) as (Hpr & Hcs & _).
    assert (later st (set_run r (run_at n (RunReturning (Err (SlotErr (c_name (rn_call n)) e)))) st)) as Hl
      by (by apply (later_set_run st st r n)).
    apply (flow_set_run st st); [done..| |].
    + eapply cache_sat_mono; [|by apply (flow_cache st)]. intros k v. by apply answered_later.
    + split_and!; [done|by apply (later_cache _ _ Hl)|]. eapply answered_later; [done|]. right.
      destruct (fl_led _ Hfl r n Hn) as (c & Hc & Hcall). exists (rn_leader n), c, e.
      rewrite Hc in He. by rewrite Hcall.
  - destruct (release_slot_frame (c_store (rn_call n)) st) as (H1 & H2 & _ & H4 & H5).
    destruct (flow_runs st H r n Hn) as (Hpr & Hcs & _).
    set (st0 := log_up (rn_call n) ans (release_slot (c_store (rn_call n)) st)).
    assert (later st (set_run r (run_at n (fetched ans)) st0)) as Hl.
    { apply (later_set_run st st0 r n); try done; cbn; [rewrite H5; by right|by rewrite H4]. }
    apply (flow_set_run st st0); [done..| |].
    + cbn. rewrite H4. eapply cache_sat_mono; [|by apply (flow_cache st)]. intros k v. by apply answered_later.
    + split_and!; [done|by apply (later_cache _ _ Hl)|].
      assert (answered (set_run r (run_at n (fetched ans)) st0) (key_of (rn_call n)) ans) as Ha
        by (eapply logged_answered; cbn; by rewrite H5). by destruct ans.
  - by apply stored_ok.
  - destruct (flow_runs st H r n Hn) as (Hpr & Hcs & Ha). rewrite Hp in Ha.
    set (st0 := forget (c_store (rn_call n)) (flightKey (rn_call n)) st).
    assert (later st (set_run r (run_at n (RunOver ans)) st0)) as Hl by (by apply (later_set_run st st0 r n)).
    apply (flow_set_run st st0); [done..| |].
    + eapply cache_sat_mono; [|by apply (flow_cache st)]. intros k v. by apply answered_later.
    + split_and!; [done|by apply (later_cache _ _ Hl)|]. by eapply answered_later.
Qed.

Lemma cache_fresh cfg G : cache_sat G (newQueryCache (cacheMaxSeries cfg) (cacheTTL cfg)).
Proof.
  unfold newQueryCache. destruct (_ <=? _) eqn:E; [done|]. apply Z.leb_gt in E. split.
  - split; cbn; try constructor; try done; try lia; try (intros e ?%elem_of_nil; done).
    intros (e & ?%elem_of_nil & _). done.
  - intros e ?%elem_of_nil. done.
Qed.

Lemma reachable_flow cfg calls st : reachable cfg calls st → flow_ok st ∧ flights_ok st.
Proof.
  apply (reachable_ind_moved cfg calls (λ st, flow_ok st ∧ flights_ok st)).
  - split; split; cbn.
    + apply cache_fresh.
    + intros i c. rewrite list_lookup_fmap. intros (d & _ & ->)%fmap_Some. done.
    + done.
    + intros s k r. rewrite fl_new_ok. split; [done|]. by intros (n & ? & _).
    + done.
  - intros s1 a s2 [Hfw Hfl] Hm. split; [by eapply flow_moved|by eapply flights_moved].
Qed.

(** The calls made are the calls asked for. *)
Lemma reachable_calls cfg calls st : reachable cfg calls st → map cl_call (st_callers st) = calls.
Proof.
  apply (reachable_ind_moved cfg calls (λ st, map cl_call (st_callers st) = calls)).
  - cbn. rewrite map_map. apply map_id.
  - assert (∀ st0 i c c', st_callers st0 !! i = Some c → cl_call c' = cl_call c →
      map cl_call (<[i := c']> (st_callers st0)) = map cl_call (st_callers st0)) as Hset.
    { intros st0 i c c' Hc Hcall. change (cl_call <$> <[i := c']> (st_callers st0) = cl_call <$> st_callers st0).
      rewrite list_fmap_insert. apply list_insert_id. rewrite list_lookup_fmap, Hc, Hcall. done. }
    intros s1 a s2 <-. destruct 1; cbn;
      repeat match goal with
             | Hs : acquire_slot _ _ = Some _ |- _ => apply acquire_slot_frame in Hs as (-> & _)
             | |- context [st_callers (release_slot ?s ?t)] => rewrite (proj1 (release_slot_frame s t))
             | |- context [st_callers (doChan ?i ?c ?t).2] => rewrite (proj1 (doChan_weight i c t))
             end; try done; by eapply Hset.
Qed.

(** The cache is there from the start or never. *)
Lemma reachable_cache cfg calls st :
  reachable cfg calls st → 0 < cacheMaxSeries cfg → is_Some (st_cache st).
Proof.
  intros Hr Hpos. revert st Hr.
  assert (∀ oc now k, is_Some oc → is_Some (QueryCache.get oc now k).2) as Hget.
  { intros [q|] now k [? ?]; [|done]. unfold QueryCache.get. repeat case_match; done. }
  apply (reachable_ind_moved cfg calls (λ st, is_Some (st_cache st))).
  - cbn. unfold newQueryCache. by rewrite (proj2 (Z.leb_gt _ _) Hpos).
  - intros s1 a s2 H. destruct 1; cbn; try done;
      repeat match goal with
             | Hs : acquire_slot _ _ = Some _ |- _ => apply acquire_slot_frame in Hs as (_ & _ & _ & -> & _)
             | |- context [st_cache (release_slot ?s ?t)] =>
                 rewrite (proj1 (proj2 (proj2 (proj2 (release_slot_frame s t)))))
             end; try done.
    + unfold enter. destruct (isProbe _); [done|]. destruct (st_cache s1) as [q|] eqn:Eq; [|done].
      pose proof (Hget (Some q) now (key_of (cl_call c)) H) as Hg.
      by destruct (QueryCache.get _ _ _) as [[]].
    + unfold doChan. by destruct (fl_running _ _).
    + unfold lookup_run. pose proof (Hget (st_cache s1) now (key_of (rn_call n)) H) as Hg.
      by destruct (QueryCache.get _ _ _) as [[]].
    + destruct (st_cache s1) as [q|]; [|done]. unfold QueryCache.put. repeat case_match; done.
Qed.

(** ** Progress *)

(** An action other than a context's end. *)
Definition own_action (a : action) : Prop := match a with CtxEnds _ _ => False | _ => True end.
Definition progress st : Prop := ∃ a st', gstep st a = Some st' ∧ own_action a.

Lemma progress_by st a st' : moved st a st' → own_action a → progress st.
Proof. intros Hm Ha. exists a, st'. split; [by apply gstep_moved|done]. Qed.

(** A full store is being asked a query, whose answer frees a slot. *)
Lemma slot_progress bound s st :
  slots_ok bound st → (∃ st1, acquire_slot s st = Some st1) ∨ progress st.
Proof.
  intros H. specialize (H s). unfold acquire_slot.
  destruct (st_sem st s) as [m|]; [|by left; eexists]. destruct H as (Hb & Hcap & Hheld & _).
  destruct (sem_acquire m) eqn:Ea; [by left; eexists|right]. apply sem_acquire_blocks in Ea.
  assert (0 < sum_list_with (caller_holds s) (st_callers st) ∨
          0 < sum_list_with (run_holds s) (st_runs st))%nat as [Hc|Hr] by (unfold in_flight in Hheld; lia).
  - apply sum_list_with_pos in Hc as (i & c & Hc & Hh). unfold caller_holds in Hh.
    destruct (cl_ph c) as [| |[]| | |] eqn:Ep; try lia. eapply progress_by; [by eapply (m_answered st i c (Ok []))|done].
  - apply sum_list_with_pos in Hr as (r & n & Hn & Hh). unfold run_holds in Hh.
    destruct (rn_ph n) as [|[]| | |] eqn:Ep; try lia. eapply progress_by; [by eapply (m_ranswered st r n (Ok []))|done].
Qed.

Lemma run_progress bound r n st :
  slots_ok bound st → st_runs st !! r = Some n → ¬ over n → progress st.
Proof.
  intros Hs Hn Ho. unfold over in Ho. destruct (rn_ph n) as [|[]|v|a|a] eqn:Ep.
  - eapply progress_by; [by eapply (m_lookup st r n 0)|done].
  - destruct (slot_progress bound (c_store (rn_call n)) st Hs) as [[st1 H1]|H]; [|done].
    eapply progress_by; [by eapply m_rslot|done].
  - eapply progress_by; [by eapply (m_ranswered st r n (Ok []))|done].
  - eapply progress_by; [by eapply (m_rstored st r n 0)|done].
  - eapply progress_by; [by eapply m_rreturns|done].
  - done.
Qed.

Definition returned (c : caller) : bool := match cl_ph c with Returned _ => true | _ => false end.

Lemma caller_progress cfg calls st i c :
  reachable cfg calls st → st_callers st !! i = Some c → returned c = false → progress st.
Proof.
  intros Hr Hc Hnr. destruct (reachable_flow cfg calls st Hr) as [Hfw _].
  pose proof (reachable_slots cfg calls st Hr) as Hs.
  pose proof (flow_callers st Hfw i c Hc) as Hco. unfold caller_ok in Hco. unfold returned in Hnr.
  destruct (cl_ph c) as [| |[]|k|k r|a] eqn:Ep; try done.
  - eapply progress_by; [by eapply (m_enter st i c 0)|done].
  - eapply progress_by; [by eapply (m_probed st i c (Ok []))|done].
  - destruct (slot_progress _ (c_store (cl_call c)) st Hs) as [[st1 H1]|H]; [|done].
    eapply progress_by; [by eapply m_slot|done].
  - eapply progress_by; [by eapply (m_answered st i c (Ok []))|done].
  - eapply progress_by; [by eapply m_join|done].
  - destruct Hco as (_ & _ & n & Hn & _). destruct (rn_ph n) as [| | | |a] eqn:En;
      try (by eapply (run_progress _ r n); [done|done|unfold over; rewrite En; intros []]).
    eapply progress_by; [by eapply m_receive|done].
Qed.

(** ** The guard's promises *)

(** C37: However the callers of a store interleave, at most [maxConcurrency] of
    their queries are with the client at a time, probes apart, when the limit is on
    (positive). *)
Theorem upstream_bounded cfg calls st s :
  reachable cfg calls st → 0 < maxConcurrency cfg →
  Z.of_nat (in_flight s st) ≤ maxConcurrency cfg.
Proof.
  intros Hr Hpos. pose proof (reachable_slots cfg calls st Hr s) as Hs.
  destruct (st_sem st s); lia.
Qed.

(** A caller that is asking the client itself. *)
Definition asking (c : caller) : Prop := cl_ph c = Probing ∨ cl_ph c = Fetching AtUpstream.

(** C38: With the cache on, the client is never asked one query of one store at one
    instant twice at a time, probes apart: a probe bypasses the guard and each of
    its callers asks the client for itself; every other caller leaves the asking to
    an execution, no execution runs a probe, and two executions that are both asking
    differ in store, query or instant. *)
Theorem one_query_in_flight cfg calls st :
  reachable cfg calls st → 0 < cacheMaxSeries cfg →
  (∀ i c, st_callers st !! i = Some c → asking c → isProbe (c_name (cl_call c)) = true) ∧
  (∀ r n, st_runs st !! r = Some n → isProbe (c_name (rn_call n)) = false) ∧
  ∀ r1 r2 n1 n2, st_runs st !! r1 = Some n1 → st_runs st !! r2 = Some n2 →
    rn_ph n1 = RunFetching AtUpstream → rn_ph n2 = RunFetching AtUpstream →
    key_of (rn_call n1) = key_of (rn_call n2) → r1 = r2.
Proof.
  intros Hr Hpos. destruct (reachable_flow cfg calls st Hr) as [Hfw Hfl]. split; [|split].
  - intros i c Hc Ha. pose proof (flow_callers st Hfw i c Hc) as Hco. unfold caller_ok in Hco.
    destruct Ha as [Hp|Hp]; rewrite Hp in Hco; [exact (probe_name _ Hco)|]. destruct Hco as [_ Hnone].
    destruct (reachable_cache cfg calls st Hr Hpos) as [q Hq]. congruence.
  - intros r n Hn. destruct (flow_runs st Hfw r n Hn) as [Hp _]. exact (no_probe_name _ Hp).
  - intros r1 r2 n1 n2 H1 H2 Hp1 Hp2 Hk.
    assert (∀ r n, st_runs st !! r = Some n → rn_ph n = RunFetching AtUpstream →
      fl_running (st_flight st (c_store (rn_call n))) (flightKey (rn_call n)) = Some r) as Hnamed.
    { intros r n Hn Hp. apply (fl_named st Hfl). exists n. split_and!; try done.
      unfold over. rewrite Hp. by intros []. }
    pose proof (Hnamed _ _ H1 Hp1) as E1. pose proof (Hnamed _ _ H2 Hp2) as E2.
    injection Hk as Hs Hq Ht. unfold flightKey in E1, E2. rewrite Hs, Hq, Ht in E1. congruence.
Qed.

(** C39: Every answer is accounted for: a vector handed to a caller is one the client
    answered to that query text, at that instant, on that store; an error is one
    the client answered, the wait of a caller with the same key for its slot that
    ended with that caller's context, or the end of the caller's own context. *)
Theorem answers_from_client cfg calls st i c a :
  reachable cfg calls st → st_callers st !! i = Some c → cl_ph c = Returned a →
  calls !! i = Some (cl_call c) ∧
  match a with
  | Ok v => ∃ u, u ∈ st_log st ∧ key_of (up_call u) = key_of (cl_call c) ∧ up_answer u = Ok v
  | Err err =>
      (∃ u, u ∈ st_log st ∧ key_of (up_call u) = key_of (cl_call c) ∧ up_answer u = Err err) ∨
      (∃ j d e, st_callers st !! j = Some d ∧ key_of (cl_call d) = key_of (cl_call c) ∧
                cl_ctx d = Some e ∧ err = SlotErr (c_name (cl_call d)) e) ∨
      (∃ e, cl_ctx c = Some e ∧ err = CallerErr (c_name (cl_call c)) e)
  end.
Proof.
  intros Hr Hc Hp. split.
  { rewrite <- (reachable_calls cfg calls st Hr).
    change (cl_call <$> st_callers st) with (map cl_call (st_callers st)). by rewrite list_lookup_fmap, Hc. }
  destruct (reachable_flow cfg calls st Hr) as [Hfw _].
  pose proof (flow_callers st Hfw i c Hc) as Hco. unfold caller_ok in Hco. rewrite Hp in Hco.
  unfold delivered, answered in Hco.
  destruct a as [v|err]; destruct Hco as [[Hu|(j & d & e & Hd & Hk & He & Ha)]|(e & He & Ha)]; try done.
  - by left.
  - right. left. exists j, d, e. by injection Ha.
  - right. right. exists e. by injection Ha.
Qed.

(** C35: No call hangs on another: from every reachable state, without any context
    having to end, every caller can be brought to return, and a state in which
    only contexts can still end has every caller returned. With
    [guard_terminates], every maximal run in which the client keeps answering
    ends with every caller answered. *)
Theorem guard_live cfg calls st :
  reachable cfg calls st →
  (∃ st', rtc (λ s s', ∃ a, gstep s a = Some s' ∧ own_action a) st st' ∧ forallb returned (st_callers st') = true) ∧
  (¬ progress st → forallb returned (st_callers st) = true).
Proof.
  assert (∀ st, reachable cfg calls st → ¬ progress st → forallb returned (st_callers st) = true) as Hdone.
  { intros s Hs Hnp. apply forallb_forall. intros c Hin. apply list_elem_of_In, list_elem_of_lookup in Hin as [i Hc].
    destruct (returned c) eqn:Er; [done|]. by destruct Hnp; eapply caller_progress. }
  intros Hr. split; [|by apply Hdone].
  remember (weight st) as w eqn:Hw. revert st Hr Hw. induction w as [w IH] using lt_wf_ind. intros st Hr ->.
  destruct (forallb returned (st_callers st)) eqn:Ef; [by exists st|].
  assert (∃ i c, st_callers st !! i = Some c ∧ returned c = false) as (i & c & Hc & Hnr).
  { apply not_true_iff_false in Ef. rewrite forallb_forall in Ef.
    destruct (decide (Exists (λ c, returned c = false) (st_callers st))) as [He|Hne].
    - apply Exists_exists in He as (c & [i Hc]%list_elem_of_lookup & Hnr). by exists i, c.
    - destruct Ef. intros c Hin%list_elem_of_In. destruct (returned c) eqn:Er; [done|].
      destruct Hne. apply Exists_exists. by exists c. }
  destruct (caller_progress cfg calls st i c Hr Hc Hnr) as (a & st1 & Ha & Hown).
  destruct (IH (weight st1) (gstep_weight _ _ _ Ha) st1) as (st' & Hst' & Hall); [|done|].
  - eapply rtc_r; [exact Hr|by exists a].
  - exists st'. split; [|done]. eapply rtc_l; [|done]. by exists a.
Qed.

(** A probe never queues: whatever the state, it asks the client at once and
    returns what the client answers, and it touches neither the cache, nor the
    slots, nor the flights. *)
Theorem probe_bypasses st i c now a :
  st_callers st !! i = Some c → cl_ph c = Entering → isProbe (c_name (cl_call c)) = true →
  ∃ st1 st2, gstep st (Enter i now) = Some st1 ∧ gstep st1 (CallerAnswered i a) = Some st2 ∧
    st_callers st2 = <[i := at_phase c (Returned a)]> (st_callers st) ∧ st_cache st2 = st_cache st ∧
    st_sem st2 = st_sem st ∧ st_flight st2 = st_flight st ∧ st_runs st2 = st_runs st.
Proof.
  intros Hc Hp Hpr. pose proof (m_enter st i c now Hc Hp) as H1. unfold enter in H1. rewrite Hpr in H1. clear Hpr. cbn in H1.
  set (st1 := set_caller _ _ _) in H1.
  assert (st_callers st1 !! i = Some (at_phase c Probing)) as Hc1
    by (cbn; by rewrite list_lookup_insert_eq by (by eapply lookup_lt_Some)).
  pose proof (m_probed st1 i _ a Hc1 eq_refl) as H2. apply gstep_moved in H1, H2.
  eexists _, _. split_and!; [exact H1|exact H2|..]; try done. cbn. by rewrite list_insert_insert_eq.
Qed.
End guard_theorems.

(** ** Samples *)

(** The documented behaviour has an implementation. *)
#[export] #[refine] Instance counting_semaphore : Semaphore (Z * Z) := {
  sem_new n := (n, 0); sem_cap := fst; sem_held := snd;
  sem_acquire s := if s.2 <? s.1 then Some (s.1, s.2 + 1) else None;
  sem_release s := (s.1, s.2 - 1);
}.
Proof.
  - done.
  - intros [c h]. cbn. destruct (Z.ltb_spec h c); split; try done; lia.
  - intros [c h] s'. cbn. destruct (_ <? _); [|done]. by intros [= <-].
  - done.
Defined.

#[export] #[refine] Instance keyed_flights : FlightGroup (gmap string nat) := {
  fl_new := ∅; fl_running f k := f !! k; fl_start f k r := <[k := r]> f; fl_forget f k := delete k f;
}.
Proof.
  - intros k. apply lookup_empty.
  - intros f k r k'. destruct (decide (k' = k)) as [->|]; [apply lookup_insert_eq|by apply lookup_insert_ne].
  - intros f k k'. destruct (decide (k' = k)) as [->|]; [apply lookup_delete_eq|by apply lookup_delete_ne].
Defined.

(** Running a schedule; an action that cannot happen is skipped. *)
Definition exec (st : state (Sm:=Z * Z) (Fl:=gmap string nat)) (acts : list action) :
    state (Sm:=Z * Z) (Fl:=gmap string nat) :=
  foldl (λ s a, default s (gstep s a)) st acts.

Lemma exec_reachable cfg calls acts : reachable cfg calls (exec (newGuard cfg calls) acts).
Proof.
  unfold exec. induction acts as [|a acts IH] using rev_ind; [by apply rtc_refl|].
  rewrite foldl_app. cbn. destruct (gstep _ a) as [s|] eqn:E; [|done]. cbn.
  eapply rtc_r; [exact IH|by exists a].
Qed.

Definition sample_cfg : guardConfig := newGuardConfig [WithMaxConcurrency 2; WithQueryCache 10 0].
Definition sample_calls : list call :=
  [mkCall 1 "kube_pod_info" "q" 100; mkCall 1 "kube_pod_info" "q" 100;
   mkCall 1 "kube_node_info" "r" 100; mkCall 1 "up" "up" 100].
(** Two callers share a query, a third asks another: two executions ask. *)
Definition sample_schedule : list action :=
  [Enter 0 0; Enter 1 0; Enter 2 0; Join 0; Join 1; Join 2; RunLookup 0 0; RunLookup 1 0; RunSlot 0; RunSlot 1].
Definition sample_asking := exec (newGuard sample_cfg sample_calls) sample_schedule.
(** ... and the shared one is answered. *)
Definition sample_answered := exec sample_asking
  [RunAnswered 0 (Ok [None]); RunStored 0 5; RunReturns 0; Receive 0; Receive 1].

Lemma upstream_bounded_witness : in_flight 1 sample_asking = 2%nat ∧ Z.of_nat (in_flight 1 sample_asking) ≤ 2.
Proof.
  split; [by vm_compute|]. apply (upstream_bounded sample_cfg sample_calls sample_asking 1); [apply exec_reachable|done].
Defined.

Lemma one_query_in_flight_witness :
  key_of (mkCall 1 "kube_pod_info" "q" 100) ≠ key_of (mkCall 1 "kube_node_info" "r" 100).
Proof.
  intros Hk. assert (0%nat = 1%nat); [|done].
  apply (proj2 (proj2 (one_query_in_flight sample_cfg sample_calls sample_asking
    (exec_reachable sample_cfg sample_calls _) eq_refl)) 0%nat 1%nat
    (mkRun 0 (mkCall 1 "kube_pod_info" "q" 100) (RunFetching AtUpstream))
    (mkRun 2 (mkCall 1 "kube_node_info" "r" 100) (RunFetching AtUpstream)));
    [by vm_compute..|exact Hk].
Defined.

Lemma answers_from_client_witness :
  ∃ u, u ∈ st_log sample_answered ∧ key_of (up_call u) = mkCacheKey 1 "q" 100 ∧ up_answer u = Ok [None].
Proof.
  assert (sample_answered = exec (newGuard sample_cfg sample_calls)
    (sample_schedule ++
     [RunAnswered 0 (Ok [None]); RunStored 0 5; RunReturns 0; Receive 0; Receive 1])) as E
    by (unfold sample_answered, sample_asking, exec; by rewrite foldl_app).
  apply (proj2 (answers_from_client sample_cfg sample_calls sample_answered 1
    (mkCaller (mkCall 1 "kube_pod_info" "q" 100) None (Returned (Ok [None]))) (Ok [None])
    (eq_ind_r (reachable sample_cfg sample_calls) (exec_reachable _ _ _) E) ltac:(by vm_compute) eq_refl)).
Defined.

Lemma guard_live_witness :
  ∃ st', rtc (λ s s', ∃ a, gstep s a = Some s' ∧ own_action a) sample_asking st' ∧
         forallb returned (st_callers st') = true.
Proof. exact (proj1 (guard_live sample_cfg sample_calls sample_asking (exec_reachable _ _ _))). Defined.

Lemma probe_bypasses_witness :
  ∃ st1 st2, gstep sample_asking (Enter 3 7) = Some st1 ∧ gstep st1 (CallerAnswered 3 (Ok [])) = Some st2 ∧
    st_sem st2 = st_sem sample_asking.
Proof.
  assert (st_callers sample_asking !! 3%nat = Some (mkCaller (mkCall 1 "up" "up" 100) None Entering)) as Hc
    by (vm_compute; reflexivity).
  assert (isProbe "up" = true) as Hp by (vm_compute; reflexivity).
  destruct (probe_bypasses sample_asking 3 _ 7 (Ok []) Hc eq_refl Hp) as (st1 & st2 & H1 & H2 & _ & _ & H3 & _).
  exists st1, st2. exact (conj H1 (conj H2 H3)).
Defined.

(** Every action of a schedule can happen when its turn comes. *)
Fixpoint possible (st : state (Sm:=Z * Z) (Fl:=gmap string nat)) (acts : list action) : bool :=
  match acts with
  | [] => true
  | a :: rest => match gstep st a with Some s => possible s rest | None => false end
  end.

Lemma possible_nsteps st acts : possible st acts = true → nsteps steps_to (length acts) st (exec st acts).
Proof.
  revert st. induction acts as [|a acts IH]; intros st; cbn; [intros _; constructor|].
  destruct (gstep st a) as [s|] eqn:E; [|done]. intros H. eapply nsteps_l; [by exists a|by apply IH].
Qed.

Lemma guard_terminates_witness : (10 ≤ 16 * length sample_calls)%nat.
Proof.
  apply (proj2 (guard_terminates (Sm:=Z * Z) (Fl:=gmap string nat)) sample_cfg sample_calls 10%nat sample_asking).
  apply (possible_nsteps _ sample_schedule). vm_compute. reflexivity.
Defined.
