(* ===== verification/Router.v ===== *)
(** pkg/promql/router.go: the live routing table. A snapshot is a validated
    table with one guarded client per distinct store; [Swap] replaces it whole,
    carrying over the guards of the stores that stay and releasing the others.
    The client factory is an argument. *)

From S2P Require Import Prelude GoStrings PromStrings Selector Queries PairScope Backend Fanout.
From S2P Require Import Guard.

(** pkg/promql/router.go, [clientKey] *)
Record clientKey := mkClientKey { k_url : string; k_username : string; k_password : string }.

#[export] Instance clientKey_eq_dec : EqDecision clientKey.
Proof. solve_decision. Defined.
#[export] Instance clientKey_countable : Countable clientKey.
Proof.
  by refine (inj_countable' (λ k, (k_url k, k_username k, k_password k))
    (λ '(a, b, c), mkClientKey a b c) _); intros [].
Defined.

(** pkg/promql/router.go, [keyOf] *)
Definition keyOf (b : Backend) : clientKey := mkClientKey (b_url b) (b_username b) (b_password b).

(** The options of a backend's client. *)
Inductive ClientOption :=
  | WithBackendName (name : string)
  | WithBasicAuth (user pass : string).

(** pkg/promql/router.go, [BackendClientOptions] *)
Definition BackendClientOptions (b : Backend) : list ClientOption :=
  WithBackendName (b_name b) ::
  (if negb (bool_decide (b_username b = "")) || negb (bool_decide (b_password b = ""))
   then [WithBasicAuth (b_username b) (b_password b)] else []).

Section router.
(** Clients, and the errors of their construction and of their queries. *)
Context {C E : Type}.

(** The guard of a store: its identity in the cache and the client it wraps. *)
Record storeGuard := mkStoreGuard { g_store : N; g_inner : C }.

(** pkg/promql/router.go, [routerState] *)
Record routerState := mkRouterState {
  rs_table : Table;
  rs_clients : gmap string storeGuard;
  rs_byKey : gmap clientKey storeGuard;
}.

(** What [closeIdle] was called on: a guard, or a client never guarded. *)
Inductive closed :=
  | ClosedGuard (g : storeGuard)
  | ClosedClient (c : C).

(** pkg/promql/router.go, [Router]: the live snapshot, the store counter and
    what was released, in order. *)
Record Router := mkRouter { r_nextStore : N; r_state : option routerState; r_closed : list closed }.

Inductive RouterError :=
  | EmptyTable
  | BackendError (name : string) (e : E).

(** The client constructor. *)
Variable factory : Backend → result E C.

(** What a build of a snapshot has so far. *)
Record building := mkBuilding {
  bu_clients : gmap string storeGuard;
  bu_byKey : gmap clientKey storeGuard;
  bu_fresh : list C;
  bu_next : N;
}.

(** One backend of the loop of [buildState]; [None] is the factory's error. *)
Definition build_step (prev : option routerState) (b : Backend) (bu : building) : result E building :=
  let key := keyOf b in
  let use g byKey := mkBuilding (<[b_name b := g]> (bu_clients bu)) byKey in
  match bu_byKey bu !! key with
  | Some g => Ok (use g (bu_byKey bu) (bu_fresh bu) (bu_next bu))
  | None =>
      match prev ≫= λ p, rs_byKey p !! key with
      | Some g => Ok (use g (<[key := g]> (bu_byKey bu)) (bu_fresh bu) (bu_next bu))
      | None =>
          match factory b with
          | Err e => Err e
          | Ok c =>
              let next := (bu_next bu + 1)%N in
              let g := mkStoreGuard next c in
              Ok (use g (<[key := g]> (bu_byKey bu)) (bu_fresh bu ++ [c]) next)
          end
      end
  end.

Fixpoint build_loop (prev : option routerState) (bs : list Backend) (bu : building)
  : building * option RouterError :=
  match bs with
  | [] => (bu, None)
  | b :: rest =>
      match build_step prev b bu with
      | Ok bu' => build_loop prev rest bu'
      | Err e => (bu, Some (BackendError (b_name b) e))
      end
  end.

(** pkg/promql/router.go, [Router.buildState]: the snapshot or the error, the store
    counter after it, and the fresh clients an error releases. *)
Definition buildState (next : N) (t : Table) (prev : option routerState)
  : result RouterError routerState * N * list closed :=
  let '(bu, err) := build_loop prev (backends t) (mkBuilding ∅ ∅ [] next) in
  match err with
  | Some e => (Err e, bu_next bu, map ClosedClient (bu_fresh bu))
  | None => (Ok (mkRouterState t (bu_clients bu) (bu_byKey bu)), bu_next bu, [])
  end.

(** pkg/promql/router.go, [NewRouter] *)
Definition NewRouter (t : option Table) : result RouterError Router :=
  match t with
  | None => Err EmptyTable
  | Some t =>
      if (Len (Some t) =? 0)%nat then Err EmptyTable else
      match buildState 0 t None with
      | (Ok st, next, cl) => Ok (mkRouter next (Some st) cl)
      | (Err e, _, _) => Err e
      end
  end.

(** pkg/promql/router.go, [Router.Table] *)
Definition live_table (r : Router) : option Table := rs_table <$> r_state r.

(** The guards of [prev] whose identity is not in [next]; Go ranges over the map
    in no particular order. *)
Definition dropped (prev next : routerState) : list closed :=
  map (λ kg, ClosedGuard kg.2)
    (filter (λ kg, rs_byKey next !! kg.1 = None) (map_to_list (rs_byKey prev))).

(** pkg/promql/router.go, [Router.Swap] *)
Definition Swap (r : Router) (t : option Table) : option RouterError * Router :=
  match t with
  | None => (Some EmptyTable, r)
  | Some t =>
      if (Len (Some t) =? 0)%nat then (Some EmptyTable, r) else
      match buildState (r_nextStore r) t (r_state r) with
      | (Err e, next, cl) => (Some e, mkRouter next (r_state r) (r_closed r ++ cl))
      | (Ok st, next, cl) =>
          (None, mkRouter next (Some st)
             (r_closed r ++ cl ++ match r_state r with Some prev => dropped prev st | None => [] end))
      end
  end.

(** pkg/promql/router.go, [Router.Serves] *)
Definition Router_Serves (r : option Router) (f : Family) : bool :=
  match r ≫= r_state with None => false | Some st => familyServed (Some (rs_table st)) f end.

(** ** One build *)

(** What a completed build owes to the build so far. *)
Record built (prev : option routerState) (bs : list Backend) (bu bu' : building) : Prop := {
  built_clients : NoDup (map b_name bs) → ∀ b, b ∈ bs → ∃ g,
    bu_clients bu' !! b_name b = Some g ∧ bu_byKey bu' !! keyOf b = Some g;
  built_mono : bu_byKey bu ⊆ bu_byKey bu';
  built_origin : ∀ k g, bu_byKey bu' !! k = Some g → bu_byKey bu !! k = Some g ∨
    (∃ b, b ∈ bs ∧ keyOf b = k) ∧
    ((prev ≫= λ p, rs_byKey p !! k) = Some g ∨
     (prev ≫= λ p, rs_byKey p !! k) = None ∧ (bu_next bu < g_store g ≤ bu_next bu')%N);
  built_next : (bu_next bu ≤ bu_next bu')%N;
  built_other : ∀ n, n ∉ map b_name bs → bu_clients bu' !! n = bu_clients bu !! n;
}.

Lemma build_step_built prev b bu bu1 : build_step prev b bu = Ok bu1 → built prev [b] bu bu1.
Proof.
  unfold build_step. intros H.
  destruct (bu_byKey bu !! keyOf b) as [g|] eqn:Ek;
    [|destruct (prev ≫= _) as [g|] eqn:Ep; [|destruct (factory b) as [c|e]; [|done]]]; simplify_eq.
  all: split; cbn.
  all: try (intros _ b' ->%list_elem_of_singleton; eexists; rewrite lookup_insert_eq; split; [done|];
            first [done|by rewrite lookup_insert_eq]).
  all: try (by apply insert_subseteq).
  all: try lia; try done.
  all: try (intros n Hn; rewrite lookup_insert_ne; [done|set_solver]).
  - intros k g' Hk. by left.
  - intros k g' [[<- <-]|[_ Hk]]%lookup_insert_Some; [|by left]. right.
    split; [exists b; split; [by left|done]|by left].
  - intros k g' [[<- <-]|[_ Hk]]%lookup_insert_Some; [|by left]. right.
    split; [exists b; split; [by left|done]|]. right. split; [done|]. cbn. lia.
Qed.

Lemma build_loop_built prev bs bu bu' : build_loop prev bs bu = (bu', None) → built prev bs bu bu'.
Proof.
  revert bu. induction bs as [|b bs IH]; intros bu; cbn.
  { intros [= ->]. split; [|done| |lia|done]; [intros _ b Hb; by apply elem_of_nil in Hb|intros; by left]. }
  destruct (build_step prev b bu) as [bu1|e] eqn:E1; [|done]. intros H.
  pose proof (build_step_built _ _ _ _ E1) as [Hc1 Hm1 Ho1 Hn1 Hr1]. destruct (IH bu1 H) as [Hc Hm Ho Hn Hr].
  split.
  - intros Hnd d Hd. cbn in Hnd. apply NoDup_cons in Hnd as [Hni Hnd].
    apply elem_of_cons in Hd as [->|Hd]; [|by apply Hc].
    destruct (Hc1 ltac:(cbn; apply NoDup_singleton) b) as (g & Hg1 & Hg2); [by left|].
    exists g. rewrite Hr by done. split; [done|]. by eapply lookup_weaken.
  - by trans (bu_byKey bu1).
  - intros k g Hk. destruct (Ho k g Hk) as [Hk1|[(d & Hd & Hdk) Hor]].
    + destruct (Ho1 k g Hk1) as [|[(d & ->%list_elem_of_singleton & Hdk) Hor]]; [by left|right].
      split; [exists b; split; [by left|done]|]. destruct Hor as [|[? ?]]; [by left|right]. split; [done|lia].
    + right. split; [exists d; split; [by right|done]|]. destruct Hor as [|[? ?]]; [by left|right]. split; [done|lia].
  - lia.
  - intros n Hnn. cbn in Hnn. apply not_elem_of_cons in Hnn as [Hne Hnn].
    rewrite Hr by done. apply Hr1. cbn. by intros ->%list_elem_of_singleton.
Qed.

(** The counter never goes back, errors included. *)
Lemma build_loop_next prev bs bu : (bu_next bu ≤ bu_next (build_loop prev bs bu).1)%N.
Proof.
  revert bu. induction bs as [|b bs IH]; intros bu; cbn; [lia|].
  destruct (build_step prev b bu) as [bu1|e] eqn:Eb; [|done].
  pose proof (built_next _ _ _ _ (build_step_built _ _ _ _ Eb)). specialize (IH bu1). lia.
Qed.
End router.

(** ** Dispatch *)

Section dispatch.
Context {C E : Type}.

(** How a guard answers a query. *)
Variable ask : storeGuard (C:=C) → Client (E:=E).

(** pkg/promql/router.go, [Router.querier]: the dispatcher bound to one snapshot. *)
Definition querier (st : routerState (C:=C)) (az : list string) : fanoutQuerier (E:=E) :=
  mkFanoutQuerier (rs_table st) (ask <$> rs_clients st) az.

(** pkg/promql/router.go, [Router.QuerierFor] *)
Definition QuerierFor (r : Router (C:=C)) (sel : Selector) : option fanoutQuerier :=
  (λ st, querier st (normaliseValues (sel_AZ sel))) <$> r_state r.

(** The names [ProbeAll] reports: of the selected backends, those without a
    client and those whose probe failed. *)
Definition probe_failed (st : routerState (C:=C)) (ts : Z) (b : Backend) : bool :=
  match rs_clients st !! b_name b with
  | None => true
  | Some g => match ask g (Render QUpProbe 0 (mkLabelKeys "" "") (mkSelector [] [] [] [])) ts with Ok _ => false | Err _ => true end
  end.

(** pkg/promql/router.go, [Router.ProbeAll]: the names of the error, [[]] for none. *)
Definition ProbeAll (st : routerState (C:=C)) (ts : Z) : list string :=
  let selected := Select (Some (rs_table st)) FamilyProbe [] in
  if bool_decide (selected = []) then ["<none configured>"]
  else filter (λ n, n ≠ "") (map b_name (filter (λ b, probe_failed st ts b = true) selected)).

(** pkg/promql/router.go, [ProbeError.Error] *)
Definition ProbeError_Error (failed : list string) : string :=
  "upstream backends did not answer: " +:+ join ", " failed.
End dispatch.
