(* ===== verification/RouterProps.v ===== *)
(** What a reload keeps, drops and never reuses. *)

From stdpp Require Import sorting.
From S2P Require Import Prelude GoStrings PromStrings Selector Queries PairScope Backend Fanout.
From S2P Require Import Guard Router.

Section router_props.
Context {C E : Type} (factory : Backend → result E C).
Abbreviation Router := (Router (C:=C)).
Abbreviation routerState := (routerState (C:=C)).
Implicit Types (r : Router) (st : routerState).

(** A snapshot serves its table: every backend has the guard of its store, and
    only the table's stores have guards. *)
Record snapshot_ok st : Prop := {
  snap_clients : ∀ b, b ∈ backends (rs_table st) → ∃ g,
    rs_clients st !! b_name b = Some g ∧ rs_byKey st !! keyOf b = Some g;
  snap_keys : ∀ k, is_Some (rs_byKey st !! k) ↔ ∃ b, b ∈ backends (rs_table st) ∧ keyOf b = k;
  snap_names : ∀ n, is_Some (rs_clients st !! n) → n ∈ map b_name (backends (rs_table st));
}.

Lemma buildState_ok next t prev st next' cl :
  NoDup (map b_name (backends t)) → buildState factory next t prev = (Ok st, next', cl) →
  snapshot_ok st ∧ rs_table st = t ∧ cl = [] ∧
  ∀ k g, rs_byKey st !! k = Some g →
    (prev ≫= λ p, rs_byKey p !! k) = Some g ∨
    (prev ≫= λ p, rs_byKey p !! k) = None ∧ (next < g_store g ≤ next')%N.
Proof.
  intros Hnd. unfold buildState. destruct (build_loop _ _ _ _) as [bu [e|]] eqn:El; [done|].
  intros [= <- <- <-]. apply build_loop_built in El as [Hc Hm Ho Hn Hr]. cbn in *.
  assert (∀ k g, bu_byKey bu !! k = Some g → (∃ b, b ∈ backends t ∧ keyOf b = k) ∧
    ((prev ≫= λ p, rs_byKey p !! k) = Some g ∨
     (prev ≫= λ p, rs_byKey p !! k) = None ∧ (next < g_store g ≤ bu_next bu)%N)) as Horigin.
  { intros k g Hk. destruct (Ho k g Hk) as [Hk'|H]; [by rewrite lookup_empty in Hk'|done]. }
  split_and!; try done; [|intros k g Hk%Horigin; apply Hk]. split; cbn; [by apply Hc| |].
  - intros k. split; [intros [g Hk%Horigin]; apply Hk|]. intros (b & Hb & <-).
    destruct (Hc Hnd b Hb) as (g & _ & Hg). by rewrite Hg.
  - intros n [g Hg]. destruct (decide (n ∈ map b_name (backends t))) as [|Hni]; [done|].
    by rewrite (Hr n Hni), lookup_empty in Hg.
Qed.

(** A reload either fails, the live snapshot untouched and only clients that
    never served released, or takes effect whole: the new snapshot serves the
    new table; every store both tables name keeps its guard, so its slots and its
    cached results persist; a new store's guard has an identity never given out
    before; and exactly the guards whose store disappeared are released. *)
Theorem Swap_spec r t prev :
  r_state r = Some prev → NoDup (map b_name (Backends t)) →
  match Swap factory r t with
  | (Some _, r') =>
      r_state r' = Some prev ∧ ∃ cs, r_closed r' = r_closed r ++ map ClosedClient cs
  | (None, r') => ∃ st rel, r_state r' = Some st ∧ Some (rs_table st) = t ∧ snapshot_ok st ∧
      (∀ k g, is_Some (rs_byKey st !! k) → rs_byKey prev !! k = Some g → rs_byKey st !! k = Some g) ∧
      (∀ k g, rs_byKey st !! k = Some g → rs_byKey prev !! k = None → (r_nextStore r < g_store g ≤ r_nextStore r')%N) ∧
      r_closed r' = r_closed r ++ rel ∧
      ∀ x, x ∈ rel ↔ ∃ k g, x = ClosedGuard g ∧ rs_byKey prev !! k = Some g ∧ rs_byKey st !! k = None
  end.
Proof.
  intros Hp Hnd. destruct t as [t|]; cbn [Swap]; [|split; [done|by exists []; rewrite app_nil_r]].
  unfold Swap. destruct (_ =? 0)%nat; [split; [done|exists []; by rewrite app_nil_r]|].
  destruct (buildState _ _ _ _) as [[[st|e] next] cl] eqn:Eb.
  - rewrite Hp in *. destruct (buildState_ok _ _ _ _ _ _ Hnd Eb) as (Hok & Ht & -> & Horigin).
    exists st, (dropped prev st). cbn [r_state r_closed r_nextStore app]. cbn [mbind option_bind] in Horigin.
    split_and!; [done|by rewrite Ht|done| | |done|].
    + intros k g [g' Hg'] Hg. destruct (Horigin k g' Hg') as [|[? ?]]; congruence.
    + intros k g Hg Hnone. destruct (Horigin k g Hg) as [|[_ ?]]; [congruence|done].
    + intros x. unfold dropped. rewrite list_elem_of_fmap. split.
      * intros ([k g] & -> & [Hn Hin]%list_elem_of_filter). apply elem_of_map_to_list in Hin. by exists k, g.
      * intros (k & g & -> & Hk & Hn). exists (k, g). split; [done|].
        apply list_elem_of_filter. split; [done|]. by apply elem_of_map_to_list.
  - unfold buildState in Eb. destruct (build_loop _ _ _ _) as [bu [e'|]]; [|done].
    injection Eb as <- <- <-. cbn. split; [done|]. by eexists.
Qed.

(** ** Identities over the life of a router *)

(** Who every identity given out so far belongs to. *)
Definition owners_of (own : gmap N (clientKey * C)) (bk : gmap clientKey (storeGuard (C:=C))) : Prop :=
  ∀ k g, bk !! k = Some g → own !! g_store g = Some (k, g_inner g).
Definition owners_upto (own : gmap N (clientKey * C)) (next : N) : Prop :=
  ∀ s, is_Some (own !! s) → (s ≤ next)%N.

Lemma owners_mono own own' bk : own ⊆ own' → owners_of own bk → owners_of own' bk.
Proof. intros Hs H k g Hk. eapply lookup_weaken; [by apply H|done]. Qed.

Lemma build_loop_owners prev bs bu own :
  owners_upto own (bu_next bu) → owners_of own (bu_byKey bu) →
  (∀ p, prev = Some p → owners_of own (rs_byKey p)) →
  ∃ own', own ⊆ own' ∧ owners_upto own' (bu_next (build_loop factory prev bs bu).1) ∧
          owners_of own' (bu_byKey (build_loop factory prev bs bu).1).
Proof.
  revert bu own. induction bs as [|b bs IH]; intros bu own Hup Hof Hprev; cbn; [by exists own|].
  unfold build_step. destruct (bu_byKey bu !! keyOf b) as [g|] eqn:Ek; [by apply IH|].
  destruct (prev ≫= _) as [g|] eqn:Ep.
  - apply IH; [done| |done]. cbn. intros k g' [[<- <-]|[_ Hk]]%lookup_insert_Some; [|by apply Hof].
    destruct prev as [p|]; [|done]. by eapply Hprev.
  - destruct (factory b) as [c|e]; cbn; [|by exists own].
    assert (own !! (bu_next bu + 1)%N = None) as Hfresh.
    { destruct (own !! _) eqn:Eo; [|done]. assert (bu_next bu + 1 ≤ bu_next bu)%N by (apply Hup; by rewrite Eo). lia. }
    assert (own ⊆ <[(bu_next bu + 1)%N := (keyOf b, c)]> own) as Hsub by (by apply insert_subseteq).
    destruct (IH (mkBuilding (<[b_name b := mkStoreGuard (bu_next bu + 1) c]> (bu_clients bu))
        (<[keyOf b := mkStoreGuard (bu_next bu + 1) c]> (bu_byKey bu)) (bu_fresh bu ++ [c]) (bu_next bu + 1))
        (<[(bu_next bu + 1)%N := (keyOf b, c)]> own)) as (own' & Hs' & H'); cbn.
    + intros s [x [[<- _]|[_ Hs]]%lookup_insert_Some]; [lia|].
      assert (s ≤ bu_next bu)%N by (apply Hup; by rewrite Hs). lia.
    + intros k g [[<- <-]|[_ Hk]]%lookup_insert_Some; cbn; [by rewrite lookup_insert_eq|].
      eapply lookup_weaken; [by apply Hof|done].
    + intros p Hpp. eapply owners_mono; [done|by apply Hprev].
    + exists own'. split; [by trans (<[(bu_next bu + 1)%N := (keyOf b, c)]> own)|done].
Qed.

Definition router_owned (own : gmap N (clientKey * C)) r : Prop :=
  owners_upto own (r_nextStore r) ∧ ∀ st, r_state r = Some st → owners_of own (rs_byKey st).

Lemma Swap_owned own r t :
  router_owned own r → ∃ own', own ⊆ own' ∧ router_owned own' (Swap factory r t).2.
Proof.
  intros [Hup Hof]. unfold Swap. destruct t as [t|]; [|by exists own]. destruct (_ =? 0)%nat; [by exists own|].
  destruct (build_loop_owners (r_state r) (backends t) (mkBuilding ∅ ∅ [] (r_nextStore r)) own)
    as (own' & Hsub & Hup' & Hof'); [done|intros k g Hk; cbn in Hk; by rewrite lookup_empty in Hk|done|].
  unfold buildState. destruct (build_loop _ _ _ _) as [bu [e|]]; cbn in *; exists own'; (split; [done|]); split; cbn; try done.
  - intros st Hst. eapply owners_mono; [done|by apply Hof].
  - by intros st [= <-].
Qed.

(** The router after each reload of a sequence, failed ones included. *)
Fixpoint history r (ts : list (option Table)) : list Router :=
  r :: match ts with [] => [] | t :: rest => history (Swap factory r t).2 rest end.

Lemma history_owned own r ts :
  router_owned own r → ∃ own', own ⊆ own' ∧ ∀ r' st, r' ∈ history r ts → r_state r' = Some st → owners_of own' (rs_byKey st).
Proof.
  revert own r. induction ts as [|t ts IH]; intros own r Hr; cbn.
  - exists own. split; [done|]. intros r' st ->%list_elem_of_singleton Hst. by apply Hr.
  - destruct (Swap_owned own r t Hr) as (own1 & H1 & Hr1). destruct (IH own1 _ Hr1) as (own2 & H2 & Hh).
    exists own2. split; [by trans own1|]. intros r' st [->|Hin]%elem_of_cons Hst; [|by eapply Hh].
    eapply owners_mono; [by trans own1|by apply Hr].
Qed.

(** One identity, one store, for ever: over any sequence of reloads, failed ones
    included, two guards with one identity are one guard of one (URL,
    credentials) pair, so a cached result is never served under another store's
    address or credentials. *)
Theorem store_identity_permanent t0 r0 ts r1 r2 st1 st2 k1 k2 g1 g2 :
  NewRouter factory t0 = Ok r0 →
  r1 ∈ history r0 ts → r2 ∈ history r0 ts → r_state r1 = Some st1 → r_state r2 = Some st2 →
  rs_byKey st1 !! k1 = Some g1 → rs_byKey st2 !! k2 = Some g2 → g_store g1 = g_store g2 →
  k1 = k2 ∧ g1 = g2.
Proof.
  intros Hnew H1 H2 Hst1 Hst2 Hg1 Hg2 Heq.
  assert (∃ own, router_owned own r0) as [own Hown].
  { unfold NewRouter in Hnew. destruct t0 as [t0|]; [|done]. destruct (_ =? 0)%nat; [done|].
    destruct (build_loop_owners None (backends t0) (mkBuilding ∅ ∅ [] 0) ∅) as (own & _ & Hup & Hof).
    - intros s [? Hs]. by rewrite lookup_empty in Hs.
    - intros k g Hk. cbn in Hk. by rewrite lookup_empty in Hk.
    - done.
    - exists own. unfold buildState in Hnew. destruct (build_loop _ _ _ _) as [bu [e|]]; [done|].
      injection Hnew as <-. split; [done|]. by intros st [= <-]. }
  destruct (history_owned own r0 ts Hown) as (own' & _ & Hh).
  pose proof (Hh _ _ H1 Hst1 k1 g1 Hg1) as E1. pose proof (Hh _ _ H2 Hst2 k2 g2 Hg2) as E2.
  rewrite Heq, E2 in E1. injection E1 as -> Hc. split; [done|].
  destruct g1, g2. cbn in *. congruence.
Qed.
End router_props.

(** ** The readiness probe *)

(** The probe names exactly the backends of the probe family whose store did not
    answer, in name order; asking nobody is a failure of its own. *)
Theorem ProbeAll_names {C E} (ask : storeGuard (C:=C) → Client (E:=E)) st ts :
  snapshot_ok st → StronglySorted name_lt (backends (rs_table st)) →
  (∀ b, b ∈ backends (rs_table st) → b_name b ≠ "") →
  Select (Some (rs_table st)) FamilyProbe [] ≠ [] →
  StronglySorted (λ m n, String.compare m n = Lt) (ProbeAll ask st ts) ∧
  ∀ n, n ∈ ProbeAll ask st ts ↔ ∃ b g e, b ∈ backends (rs_table st) ∧ b_name b = n ∧ FamilyProbe ∈ b_families b ∧
    rs_byKey st !! keyOf b = Some g ∧
    ask g (Render QUpProbe 0 (mkLabelKeys "" "") (mkSelector [] [] [] [])) ts = Err e.
Proof.
  intros Hok Hsort Hnames Hne. unfold ProbeAll. rewrite bool_decide_eq_false_2 by done. split.
  - apply StronglySorted_filter. unfold Select in *.
    assert (∀ l, StronglySorted name_lt l → StronglySorted (λ m n, String.compare m n = Lt) (map b_name l)) as Hmap.
    { induction 1 as [|b l Hl IH Hb]; cbn; constructor; [done|]. by apply Forall_fmap. }
    apply Hmap. by do 2 apply StronglySorted_filter.
  - intros n. rewrite list_elem_of_filter, list_elem_of_fmap. unfold Select. rewrite andb_false_r. split.
    + intros (_ & b & -> & [Hf [[Hs _] Hb]%list_elem_of_filter]%list_elem_of_filter).
      destruct (snap_clients st Hok b Hb) as (g & Hg & Hk). unfold probe_failed in Hf. rewrite Hg in Hf.
      destruct (ask g _ ts) as [v|e] eqn:Ea; [done|]. exists b, g, e. split_and!; try done. exact (proj1 (serves_spec (λ _, None) b FamilyProbe) Hs).
    + intros (b & g & e & Hb & <- & Hf & Hk & Ha). split; [by apply Hnames|]. exists b. split; [done|].
      destruct (snap_clients st Hok b Hb) as (g' & Hg & Hk'). rewrite Hk in Hk'. injection Hk' as <-.
      apply list_elem_of_filter. split; [unfold probe_failed; by rewrite Hg, Ha|].
      apply list_elem_of_filter. split; [split; [exact (proj2 (serves_spec (λ _, None) b FamilyProbe) Hf)|done]|done].
Qed.

(** ** Samples *)

Definition sample_factory (b : Backend) : result unit string := Ok (b_url b).
Definition sample_router : Router (C:=string) :=
  match NewRouter sample_factory (Some sample_table) with Ok r => r | Err _ => mkRouter 0 None [] end.
(** The store of [metrics-b] moves. *)
Definition moved_table : Table :=
  mkTable (map (λ b, if bool_decide (b_name b = "metrics-b")
                     then mkBackend (b_name b) "http://c" (b_families b) (b_zones b) (b_username b) (b_password b)
                     else b) (backends sample_table)).
Definition sample_snapshot (r : Router (C:=string)) : routerState (C:=string) :=
  default (mkRouterState (mkTable []) ∅ ∅) (r_state r).

Lemma Swap_spec_witness : ∃ st rel,
  r_state (Swap sample_factory sample_router (Some moved_table)).2 = Some st ∧ snapshot_ok st ∧
  r_closed (Swap sample_factory sample_router (Some moved_table)).2 = r_closed sample_router ++ rel ∧
  ∀ x, x ∈ rel ↔ ∃ k g, x = ClosedGuard g ∧ rs_byKey (sample_snapshot sample_router) !! k = Some g ∧
                         rs_byKey st !! k = None.
Proof.
  assert (r_state sample_router = Some (sample_snapshot sample_router)) as Hp by (vm_compute; reflexivity).
  assert (NoDup (map b_name (Backends (Some moved_table)))) as Hnd
    by (apply (bool_decide_unpack _); vm_compute; exact I).
  assert ((Swap sample_factory sample_router (Some moved_table)).1 = None) as Hs by (vm_compute; reflexivity).
  pose proof (Swap_spec sample_factory sample_router (Some moved_table) _ Hp Hnd) as H.
  destruct (Swap sample_factory sample_router (Some moved_table)) as [[e|] r']; [discriminate Hs|].
  destruct H as (st & rel & H1 & _ & H2 & _ & _ & H3 & H4). exists st, rel. exact (conj H1 (conj H2 (conj H3 H4))).
Defined.

Lemma store_identity_permanent_witness :
  keyOf (mkBackend "metrics-b" "http://b" [] [] "" "") ≠ keyOf (mkBackend "metrics-b" "http://c" [] [] "" "") ∧
  ∀ g1 g2, rs_byKey (sample_snapshot sample_router) !! keyOf (mkBackend "metrics-b" "http://b" [] [] "" "") = Some g1 →
    rs_byKey (sample_snapshot (Swap sample_factory sample_router (Some moved_table)).2)
      !! keyOf (mkBackend "metrics-b" "http://c" [] [] "" "") = Some g2 → g_store g1 ≠ g_store g2.
Proof.
  split; [discriminate|]. intros g1 g2 H1 H2 Heq.
  assert (NewRouter sample_factory (Some sample_table) = Ok sample_router) as Hn by (vm_compute; reflexivity).
  destruct (store_identity_permanent sample_factory (Some sample_table) sample_router [Some moved_table]
    sample_router (Swap sample_factory sample_router (Some moved_table)).2 (sample_snapshot sample_router)
    (sample_snapshot (Swap sample_factory sample_router (Some moved_table)).2)
    (keyOf (mkBackend "metrics-b" "http://b" [] [] "" "")) (keyOf (mkBackend "metrics-b" "http://c" [] [] "" ""))
    g1 g2 Hn) as [Hk _];
    [by left|right; by left|vm_compute; reflexivity|vm_compute; reflexivity|exact H1|exact H2|exact Heq|].
  discriminate Hk.
Defined.
