(* ===== verification/Cytoscape.v ===== *)
(** pkg/cytoscape/cytoscape.go: the body of /v1/graph and its siblings, a
    projected view with the compound groups its nodes nest in. The JSON encoding
    of the body is the standard library's; [omitempty] fields are the zero value
    or [None] here. *)

From S2P Require Import Prelude GoStrings Float64 Strconv GraphNode GraphEdge Graph DeployTime.
From S2P Require Import Project.

#[local] Open Scope ksg_scope.

(** ** Rounding *)

(** The decimal digits of [n], most significant first. *)
Definition decimal_digits (n : positive) : nat := Decimal.nb_digits (Pos.to_uint n).

(** [n / 10^k], to the nearest, ties to even. *)
Definition round_half_even (n : Z) (k : nat) : Z :=
  let p := (10 ^ Z.of_nat k)%Z in
  let q := (n / p)%Z in
  match (2 * (n mod p) ?= p)%Z with
  | Lt => q
  | Gt => (q + 1)%Z
  | Eq => if Z.even q then q else (q + 1)%Z
  end.

(** The digits and the exponent of ['g'] formatting at [prec] digits: the exact
    value is [n * 10^x]. *)
Definition significant (prec : nat) (n : positive) (x : Z) : Z * Z :=
  let k := (decimal_digits n - prec)%nat in
  (round_half_even (Zpos n) k, (x + Z.of_nat k)%Z).

(** pkg/cytoscape/cytoscape.go, [round6]: [FormatFloat] spells infinities and NaN
    as words that parse to themselves. *)
Definition round6 (v : float64) : float64 :=
  match v with
  | S754_finite s m e =>
      let '(n, x) := if (0 <=? e)%Z then (Z.to_pos (Zpos m * 2 ^ e)%Z, 0%Z)
                     else (Z.to_pos (Zpos m * 5 ^ (- e))%Z, e) in
      let '(q, x) := significant 6 n x in
      apply_sign s (round_dec q x)
  | v => v
  end.

(** ** The wire shape *)

(** pkg/cytoscape/cytoscape.go, [HardwareDTO] *)
Record HardwareDTO := mkHardwareDTO {
  hd_Model : string; hd_Serial : string; hd_Version : string; hd_Vendor : string; hd_Location : string;
}.
(** pkg/cytoscape/cytoscape.go, [PerfDTO] *)
Record PerfDTO := mkPerfDTO {
  pd_CPUBusyPct : option float64; pd_TotalOps : option float64;
  pd_TotalLatencyUs : option float64; pd_TotalBytesPerSec : option float64;
}.
(** pkg/cytoscape/cytoscape.go, [AlertDTO]: a zero time is omitted. *)
Record AlertDTO := mkAlertDTO { ad_Name : string; ad_State : string; ad_Severity : string; ad_Time : Z }.
(** pkg/cytoscape/cytoscape.go, [UsageDTO] *)
Record UsageDTO := mkUsageDTO { ud_UsedBytes : option float64; ud_CapacityBytes : option float64 }.
(** pkg/cytoscape/cytoscape.go, [QoSDTO] *)
Record QoSDTO := mkQoSDTO {
  qd_PolicyGroup : string; qd_MaxIOPS : option float64; qd_MaxBytesPerSec : option float64;
}.

(** pkg/cytoscape/cytoscape.go, [NodeData] *)
Record NodeData := mkNodeData {
  nd_ID : string;
  nd_Name : string;
  nd_Type : string;
  nd_Parent : string;
  nd_IPAddress : list string;
  nd_Owner : option Owner;
  nd_Application : string;
  nd_Containers : list Container;
  nd_ReadyStatus : string;
  nd_Health : string;
  nd_Usage : option UsageDTO;
  nd_StorageClass : string;
  nd_QoS : option QoSDTO;
  nd_Hardware : option HardwareDTO;
  nd_Perf : option PerfDTO;
  nd_Alerts : list AlertDTO;
  nd_Status : string;
  nd_NamespaceOwner : string;
  nd_NamespaceGroup : string;
  nd_NamespaceGroupOwner : string;
  nd_NamespaceAlias : string;
  nd_DeployedBy : string;
  nd_DeployedAt : string;
  nd_Labels : labels;
}.

(** pkg/cytoscape/cytoscape.go, [EdgeMetricsDTO] *)
Record EdgeMetricsDTO := mkEdgeMetricsDTO {
  md_Rate : option float64;
  md_ErrorRate : option float64;
  md_P90ServerMs : option float64;
  md_ReadOps : option float64;
  md_WriteOps : option float64;
  md_ReadLatencyUs : option float64;
  md_WriteLatencyUs : option float64;
  md_ReadBytesPerSec : option float64;
  md_WriteBytesPerSec : option float64;
  md_MaxIOPS : option float64;
  md_MaxBytesPerSec : option float64;
  md_ReadOpsDelta : option float64;
  md_WriteOpsDelta : option float64;
  md_ReadLatencyUsDelta : option float64;
  md_WriteLatencyUsDelta : option float64;
  md_ReadBytesPerSecDelta : option float64;
  md_WriteBytesPerSecDelta : option float64;
}.

(** pkg/cytoscape/cytoscape.go, [EdgeData] *)
Record EdgeData := mkEdgeData {
  ed_ID : string;
  ed_Type : string;
  ed_Source : string;
  ed_Target : string;
  ed_Labels : labels;
  ed_Metrics : option EdgeMetricsDTO;
}.

(** pkg/cytoscape/cytoscape.go@29-44, [Body]: with its elements. *)
Record Body := mkBody {
  body_APIVersion : string;
  body_Clusters : list string;
  body_Nodes : list NodeData;
  body_Edges : list EdgeData;
}.

(** pkg/cytoscape/cytoscape.go@24-24, [APIVersion] *)
Definition APIVersion : string := "v1".

(** ** Measurements *)

(** pkg/cytoscape/cytoscape.go, [roundedBeside] *)
Definition roundedBeside (base delta : option float64) : option float64 :=
  match base, delta with Some _, Some d => Some (round6 d) | _, _ => None end.

(** pkg/cytoscape/cytoscape.go, [metricsDTO] *)
Definition metricsDTO (m : option EdgeMetrics) (io : option IOMetrics) : option EdgeMetricsDTO :=
  match m with
  | Some m =>
      Some (mkEdgeMetricsDTO (Some (round6 (em_Rate m))) (round6 <$> em_ErrorRate m) (round6 <$> em_P90ServerMs m)
              None None None None None None None None None None None None None None)
  | None =>
      match io with
      | None => None
      | Some io =>
          let filled := existsb (λ f, bool_decide (is_Some f))
            [ReadOps io; WriteOps io; ReadLatencyUs io; WriteLatencyUs io; ReadBytesPerSec io; WriteBytesPerSec io] in
          let dto := mkEdgeMetricsDTO None None None
            (round6 <$> ReadOps io) (round6 <$> WriteOps io)
            (round6 <$> ReadLatencyUs io) (round6 <$> WriteLatencyUs io)
            (round6 <$> ReadBytesPerSec io) (round6 <$> WriteBytesPerSec io)
            (round6 <$> MaxIOPS io) (round6 <$> MaxBytesPerSec io)
            (roundedBeside (ReadOps io) (ReadOpsDelta io)) (roundedBeside (WriteOps io) (WriteOpsDelta io))
            (roundedBeside (ReadLatencyUs io) (ReadLatencyUsDelta io))
            (roundedBeside (WriteLatencyUs io) (WriteLatencyUsDelta io))
            (roundedBeside (ReadBytesPerSec io) (ReadBytesPerSecDelta io))
            (roundedBeside (WriteBytesPerSec io) (WriteBytesPerSecDelta io)) in
          if filled then Some dto else None
      end
  end.

(** pkg/cytoscape/cytoscape.go, [qosDTO] *)
Definition qosDTO (q : option QoSCeiling) : option QoSDTO :=
  match q with
  | None => None
  | Some q =>
      if bool_decide (qos_MaxIOPS q = None) && bool_decide (qos_MaxBytesPerSec q = None) then None
      else Some (mkQoSDTO (qos_PolicyGroup q) (round6 <$> qos_MaxIOPS q) (round6 <$> qos_MaxBytesPerSec q))
  end.

(** pkg/cytoscape/cytoscape.go, [hardwareDTO] *)
Definition hardwareDTO (h : option Hardware) : option HardwareDTO :=
  match h with
  | None => None
  | Some h => if Hardware_Empty h then None
              else Some (mkHardwareDTO (hw_Model h) (hw_Serial h) (hw_Version h) (hw_Vendor h) (hw_Location h))
  end.

(** pkg/cytoscape/cytoscape.go, [perfDTO] *)
Definition perfDTO (p : option NodePerf) : option PerfDTO :=
  match p with
  | None => None
  | Some p => if NodePerf_Empty p then None
              else Some (mkPerfDTO (round6 <$> perf_CPUBusyPct p) (round6 <$> perf_TotalOps p)
                           (round6 <$> perf_TotalLatencyUs p) (round6 <$> perf_TotalBytesPerSec p))
  end.

(** [time.Time.Unix]: seconds since 1970, rounded down. *)
Definition unix_seconds (t : Z) : Z := (t / nanos - 86400 * day_number 1970 1 1)%Z.

(** pkg/cytoscape/cytoscape.go, [alertsDTO] *)
Definition alertsDTO (alerts : list Alert) : list AlertDTO :=
  map (λ a, mkAlertDTO (alert_Name a) (alert_State a) (alert_Severity a)
              (if bool_decide (alert_Time a = 0%Z) then 0%Z else unix_seconds (alert_Time a))) alerts.

(** pkg/cytoscape/cytoscape.go, [usageDTO] *)
Definition usageDTO (u : option UsageBytes) : option UsageDTO :=
  match u with
  | None => None
  | Some u => if bool_decide (usage_UsedBytes u = None) && bool_decide (usage_CapacityBytes u = None) then None
              else Some (mkUsageDTO (usage_UsedBytes u) (usage_CapacityBytes u))
  end.

(** ** Accessors *)

(** pkg/graph/node.go@36-36, [GraphNode.IPAddress] *)
Definition IPAddress (n : GraphNode) : list string :=
  match n with
  | NPod p => pod_IPAddress p | NK8sNode n => k8s_IPAddress n | NService s => svc_IPAddress s | _ => []
  end.
(** pkg/graph/node.go@42-42, [GraphNode.Owner] *)
Definition NodeOwner (n : GraphNode) : option Owner := match n with NPod p => pod_Owner p | _ => None end.
(** pkg/graph/node.go@59-59, [GraphNode.Containers] *)
Definition Containers (n : GraphNode) : list Container := match n with NPod p => pod_Containers p | _ => [] end.
(** pkg/graph/node.go@78-78, [GraphNode.Usage] *)
Definition Usage (n : GraphNode) : option UsageBytes :=
  match n with NPVC p => pvc_Usage p | NNetAppAggr a => aggr_Usage a | _ => None end.
(** pkg/graph/node.go@83-83, [GraphNode.StorageClass] *)
Definition StorageClass (n : GraphNode) : string := match n with NPVC p => pvc_StorageClass p | _ => "" end.
(** pkg/graph/node.go@90-90, [GraphNode.QoS] *)
Definition QoS (n : GraphNode) : option QoSCeiling := match n with NPVC p => pvc_QoS p | _ => None end.
(** pkg/graph/node.go@95-95, [GraphNode.Hardware] *)
Definition NodeHardware (n : GraphNode) : option Hardware :=
  match n with NNetAppNode n => ctrl_Hardware n | _ => None end.
(** pkg/graph/node.go@106-106, [GraphNode.Perf] *)
Definition Perf (n : GraphNode) : option NodePerf := match n with NNetAppNode n => ctrl_Perf n | _ => None end.

(** ** Times *)

(** The civil date of a day number: [time.Time.Date] in UTC. *)
Definition year_of (d : Z) : Z * Z :=
  let c := (d / 146097)%Z in
  let r := (d mod 146097)%Z in
  let n100 := Z.min (r / 36524) 3 in
  let r := (r - 36524 * n100)%Z in
  let n4 := (r / 1461)%Z in
  let r := (r - 1461 * n4)%Z in
  let n1 := Z.min (r / 365) 3 in
  ((400 * c + 100 * n100 + 4 * n4 + n1 + 1)%Z, (r - 365 * n1)%Z).

(** The last month that starts on or before the day of the year. *)
Fixpoint month_of (m : nat) (y yday : Z) : Z :=
  match m with
  | O => 1%Z
  | S m' => if (days_before (Z.of_nat m) y <=? yday)%Z then Z.of_nat m else month_of m' y yday
  end.

Definition civil_of (t : Z) : civil :=
  let s := (t / nanos)%Z in
  let '(y, yday) := year_of (s / 86400)%Z in
  let r := (s mod 86400)%Z in
  let m := month_of 12 y yday in
  mkCivil y m (yday - days_before m y + 1) (r / 3600) ((r mod 3600) / 60) (r mod 60).

(** A year on at least four digits. *)
Definition year_text (y : Z) : string :=
  let pad u := if (u <? 10000)%Z then four u else pretty.pretty u in
  if (y <? 0)%Z then "-" +:+ pad (- y)%Z else pad y.

(** [t.UTC().Format(time.RFC3339)] *)
Definition format_rfc3339 (t : Z) : string :=
  let c := civil_of t in
  year_text (cv_year c) +:+ String "-" (two (cv_month c)) +:+ String "-" (two (cv_day c)) +:+
  String "T" (two (cv_hour c)) +:+ String ":" (two (cv_min c)) +:+ String ":" (two (cv_sec c)) +:+ "Z".

(** ** Groups *)

(** pkg/cytoscape/cytoscape.go@355-355, [nodeTypeCluster] *)
Definition nodeTypeCluster : string := "cluster".
(** pkg/cytoscape/cytoscape.go@356-356, [nodeTypeStorageCluster] *)
Definition nodeTypeStorageCluster : string := "storage-cluster".
(** pkg/cytoscape/cytoscape.go@357-357, [nodeTypeNamespace] *)
Definition nodeTypeNamespace : string := "namespace".
(** pkg/cytoscape/cytoscape.go@358-358, [nodeTypeApplication] *)
Definition nodeTypeApplication : string := "application".
(** pkg/cytoscape/cytoscape.go@359-359, [nodeTypeController] *)
Definition nodeTypeController : string := "controller".

(** pkg/cytoscape/cytoscape.go, [clusterParentID] *)
Definition clusterParentID (cluster : string) : string := "cluster/" +:+ cluster.
(** pkg/cytoscape/cytoscape.go, [storageClusterParentID] *)
Definition storageClusterParentID (oc : string) : string := "storage-cluster/" +:+ oc.
(** pkg/cytoscape/cytoscape.go, [namespaceParentID] *)
Definition namespaceParentID (cluster ns : string) : string := cluster +:+ "/namespace/" +:+ ns.
(** pkg/cytoscape/cytoscape.go, [applicationParentID] *)
Definition applicationParentID (cluster ns app : string) : string :=
  namespaceParentID cluster ns +:+ "/application/" +:+ app.
(** pkg/cytoscape/cytoscape.go, [controllerParentID] *)
Definition controllerParentID (cluster ns app kind name : string) : string :=
  (if bool_decide (app = "") then namespaceParentID cluster ns else applicationParentID cluster ns app)
    +:+ "/controller/" +:+ kind +:+ "/" +:+ name.

(** pkg/cytoscape/cytoscape.go@387-387, [nsKey] *)
Record nsKey := mkNsKey { nk_cluster : string; nk_ns : string }.
(** pkg/cytoscape/cytoscape.go@388-388, [appKey] *)
Record appKey := mkAppKey { ak_cluster : string; ak_ns : string; ak_app : string }.
(** pkg/cytoscape/cytoscape.go@389-389, [ctrlKey] *)
Record ctrlKey := mkCtrlKey {
  ck_cluster : string; ck_ns : string; ck_app : string; ck_kind : string; ck_name : string;
}.
#[export] Instance nsKey_eq_dec : EqDecision nsKey.
Proof. solve_decision. Defined.
#[export] Instance appKey_eq_dec : EqDecision appKey.
Proof. solve_decision. Defined.
#[export] Instance ctrlKey_eq_dec : EqDecision ctrlKey.
Proof. solve_decision. Defined.
#[export] Program Instance nsKey_countable : Countable nsKey :=
  inj_countable' (λ k, (nk_cluster k, nk_ns k)) (λ '(c, n), mkNsKey c n) _.
Next Obligation. by intros []. Qed.
#[export] Program Instance appKey_countable : Countable appKey :=
  inj_countable' (λ k, (ak_cluster k, ak_ns k, ak_app k)) (λ '(c, n, a), mkAppKey c n a) _.
Next Obligation. by intros []. Qed.
#[export] Program Instance ctrlKey_countable : Countable ctrlKey :=
  inj_countable' (λ k, (ck_cluster k, ck_ns k, ck_app k, ck_kind k, ck_name k))
    (λ '(c, n, a, k, m), mkCtrlKey c n a k m) _.
Next Obligation. by intros []. Qed.

Definition nsKey_id (k : nsKey) : string := namespaceParentID (nk_cluster k) (nk_ns k).
Definition appKey_id (k : appKey) : string := applicationParentID (ak_cluster k) (ak_ns k) (ak_app k).
Definition ctrlKey_id (k : ctrlKey) : string :=
  controllerParentID (ck_cluster k) (ck_ns k) (ck_app k) (ck_kind k) (ck_name k).

(** pkg/cytoscape/cytoscape.go@407-411, [Serialise]: the groups seen. *)
Record seen := mkSeen {
  clusterSeen : gset string;
  storageClusterSeen : gset string;
  nsSeen : gset nsKey;
  appSeen : gset appKey;
  ctrlSeen : gset ctrlKey;
}.

(** A non-empty name added to a set. *)
Definition see_name (x : string) (s : gset string) : gset string := if bool_decide (x = "") then s else {[x]} ∪ s.

(** pkg/cytoscape/cytoscape.go@413-447, [Serialise]: the groups of one node. *)
Definition see (st : seen) (n : GraphNode) : seen :=
  let c := lget (Labels n) "cluster" in
  let ns := lget (Labels n) "namespace" in
  let app := Application n in
  let clusters := see_name c (clusterSeen st) in
  let storage := see_name (lget (Labels n) "ontap_cluster") (storageClusterSeen st) in
  let homeless := bool_decide (c = "") || bool_decide (ns = "") in
  let apps := if bool_decide (app = "") then appSeen st else {[mkAppKey c ns app]} ∪ appSeen st in
  match Type_ n with
  | NodeTypePod =>
      if homeless then mkSeen clusters storage (nsSeen st) (appSeen st) (ctrlSeen st) else
      mkSeen clusters storage ({[mkNsKey c ns]} ∪ nsSeen st) apps
        (match NodeOwner n with
         | Some o => {[mkCtrlKey c ns app (owner_Kind o) (owner_Name o)]} ∪ ctrlSeen st
         | None => ctrlSeen st
         end)
  | NodeTypeService | NodeTypePVC =>
      if homeless then mkSeen clusters storage (nsSeen st) (appSeen st) (ctrlSeen st) else
      mkSeen clusters storage ({[mkNsKey c ns]} ∪ nsSeen st) apps (ctrlSeen st)
  | _ => mkSeen clusters storage (nsSeen st) (appSeen st) (ctrlSeen st)
  end.

(** pkg/cytoscape/cytoscape.go@407-448, [Serialise]: the loop over the view. *)
Definition groups_of (nodes : list GraphNode) : seen := fold_left see nodes (mkSeen ∅ ∅ ∅ ∅ ∅).

(** pkg/cytoscape/cytoscape.go, [compoundParent] *)
Definition compoundParent (n : GraphNode) : string :=
  let c := lget (Labels n) "cluster" in
  let ns := lget (Labels n) "namespace" in
  let oc := lget (Labels n) "ontap_cluster" in
  let app := Application n in
  let homed := negb (bool_decide (c = "")) && negb (bool_decide (ns = "")) in
  let fallback := if bool_decide (c = "") then "" else clusterParentID c in
  let workload := if bool_decide (app = "") then namespaceParentID c ns else applicationParentID c ns app in
  match Type_ n with
  | NodeTypePod =>
      if homed then
        match NodeOwner n with
        | Some o => controllerParentID c ns app (owner_Kind o) (owner_Name o)
        | None => workload
        end
      else fallback
  | NodeTypeService | NodeTypePVC => if homed then workload else fallback
  | NodeTypeNetAppNode | NodeTypeNetAppSVM => if bool_decide (oc = "") then "" else storageClusterParentID oc
  | NodeTypeNetAppAggr =>
      let node := lget (Labels n) "node" in
      if bool_decide (oc = "") then ""
      else if bool_decide (node = "") then storageClusterParentID oc else NetAppNodeID oc node
  | _ => fallback
  end.

(** ** The body *)

(** pkg/cytoscape/cytoscape.go, [groupNode] *)
Definition groupNode (id name typ parent : string) : NodeData :=
  mkNodeData id name typ parent [] None "" [] "" "" None "" None None None [] "" "" "" "" "" "" "" ∅.

(** pkg/cytoscape/cytoscape.go, [namespaceMeta] *)
Definition namespaceMeta (g : option Graph) (cluster ns : string) : NamespaceMeta :=
  default (mkNamespaceMeta "" "" "" "") (g ← g; NamespaceMetadata g !! (cluster, ns)).
(** pkg/cytoscape/cytoscape.go, [applicationMeta] *)
Definition applicationMeta (g : option Graph) (cluster ns app : string) : ApplicationMeta :=
  default (mkApplicationMeta "" 0) (g ← g; ApplicationMetadata g !! (cluster, ns, app)).

(** pkg/cytoscape/cytoscape.go@474-480, [Serialise]: a namespace group. *)
Definition namespace_group (g : option Graph) (k : nsKey) : NodeData :=
  let meta := namespaceMeta g (nk_cluster k) (nk_ns k) in
  mkNodeData (nsKey_id k) (nk_ns k) nodeTypeNamespace (clusterParentID (nk_cluster k))
    [] None "" [] "" "" None "" None None None [] ""
    (nm_Owner meta) (nm_Group meta) (nm_GroupOwner meta) (nm_Alias meta) "" "" ∅.

(** pkg/cytoscape/cytoscape.go@486-492, [Serialise]: an application group. *)
Definition application_group (g : option Graph) (k : appKey) : NodeData :=
  let meta := applicationMeta g (ak_cluster k) (ak_ns k) (ak_app k) in
  mkNodeData (appKey_id k) (ak_app k) nodeTypeApplication (namespaceParentID (ak_cluster k) (ak_ns k))
    [] None "" [] "" "" None "" None None None [] "" "" "" "" ""
    (am_DeployedBy meta) (if bool_decide (am_DeployedAt meta = 0%Z) then "" else format_rfc3339 (am_DeployedAt meta)) ∅.

(** pkg/cytoscape/cytoscape.go@500-505, [Serialise]: a controller group. *)
Definition controller_group (k : ctrlKey) : NodeData :=
  groupNode (ctrlKey_id k) (ck_name k) nodeTypeController
    (if bool_decide (ck_app k = "") then namespaceParentID (ck_cluster k) (ck_ns k)
     else applicationParentID (ck_cluster k) (ck_ns k) (ck_app k)).

(** pkg/cytoscape/cytoscape.go@510-529, [Serialise]: a node of the view. *)
Definition node_data (n : GraphNode) : NodeData :=
  mkNodeData (ID n) (Name n) (node_type_string (Type_ n)) (compoundParent n)
    (IPAddress n) (NodeOwner n) (Application n) (Containers n) (ReadyStatus n) (Health n)
    (usageDTO (Usage n)) (StorageClass n) (qosDTO (QoS n)) (hardwareDTO (NodeHardware n)) (perfDTO (Perf n))
    (alertsDTO (Alerts n)) (Status n) "" "" "" "" "" "" (Labels n).

(** pkg/cytoscape/cytoscape.go@536-544, [Serialise]: an edge of the view. *)
Definition edge_data (e : Edge) : EdgeData :=
  mkEdgeData (edge_ID e) (edge_type_string (edge_Type e)) (Source e) (Target e) (edge_Labels e)
    (metricsDTO (edge_Metrics e) (edge_IO e)).

(** pkg/cytoscape/cytoscape.go@453-506, [Serialise]: the groups, tier by tier,
    each tier in id order; keys with one id are distinct groups, in some order. *)
Definition group_nodes (g : option Graph) (s : seen) : list NodeData :=
  map (λ c, groupNode (clusterParentID c) c nodeTypeCluster "") (SortedKeys (clusterSeen s)) ++
  map (λ oc, groupNode (storageClusterParentID oc) oc nodeTypeStorageCluster "") (SortedKeys (storageClusterSeen s)) ++
  map (namespace_group g) (sort_func (on_key nsKey_id String.compare) (elements (nsSeen s))) ++
  map (application_group g) (sort_func (on_key appKey_id String.compare) (elements (appSeen s))) ++
  map controller_group (sort_func (on_key ctrlKey_id String.compare) (elements (ctrlSeen s))).

(** pkg/cytoscape/cytoscape.go, [Serialise] *)
Definition Serialise (g : option Graph) (view : View) : Body :=
  let s := groups_of (view_Nodes view) in
  mkBody APIVersion (SortedKeys (clusterSeen s))
    (group_nodes g s ++ map node_data (view_Nodes view)) (map edge_data (view_Edges view)).

Example round6_third : Some (round6 (fdiv (f_of_Z 1) (f_of_Z 3))) = ParseFloat "0.333333".
Proof. by vm_compute. Qed.
Example round6_big : Some (round6 (f_of_Z 12345678)) = ParseFloat "1.23457e7".
Proof. by vm_compute. Qed.
Example round6_tie : round6 (f_of_Z 2000005) = f_of_Z 2000000 ∧ round6 (f_of_Z 2000015) = f_of_Z 2000020.
Proof. by vm_compute. Qed.
Example format_sample : format_rfc3339 (instant sample_deploy 0) = "2026-02-28T23:59:58Z".
Proof. by vm_compute. Qed.
