(* ===== verification/CytoscapeProps.v ===== *)
(** The body of a projected view: its compound groups form a tree, none of them
    dangling or spurious, with distinct ids, and its deploy times read back. *)

From S2P Require Import Prelude GoStrings Float64 GraphNode GraphEdge Graph DeployTime.
From S2P Require Import StorageScope.
From S2P Require Import Project ProjectLemmas ProjectProps ProjectStorage.
From S2P Require Import ProjectStorageProps Cytoscape.

(** ** The groups of a view *)

(** A workload object with a cluster and a namespace. *)
Definition homed (n : GraphNode) : Prop :=
  Type_ n ∈ [NodeTypePod; NodeTypeService; NodeTypePVC] ∧
  lget (Labels n) "cluster" ≠ "" ∧ lget (Labels n) "namespace" ≠ "".

#[export] Instance homed_decision n : Decision (homed n).
Proof. unfold homed. apply _. Defined.

Definition ns_key (n : GraphNode) : nsKey := mkNsKey (lget (Labels n) "cluster") (lget (Labels n) "namespace").
Definition app_key (n : GraphNode) : appKey :=
  mkAppKey (lget (Labels n) "cluster") (lget (Labels n) "namespace") (Application n).
Definition ctrl_key (n : GraphNode) (o : Owner) : ctrlKey :=
  mkCtrlKey (lget (Labels n) "cluster") (lget (Labels n) "namespace") (Application n) (owner_Kind o) (owner_Name o).

Lemma groups_field {A} `{Countable A} (f : seen → gset A) (P : GraphNode → A → Prop) :
  (∀ st n x, x ∈ f (see st n) ↔ P n x ∨ x ∈ f st) → f (mkSeen ∅ ∅ ∅ ∅ ∅) = ∅ →
  ∀ l x, x ∈ f (groups_of l) ↔ ∃ n, n ∈ l ∧ P n x.
Proof.
  intros Hsee He l x. unfold groups_of. induction l as [|n l IH] using rev_ind.
  - cbn [fold_left]. rewrite He, elem_of_empty. split; [done|]. by intros (n & ?%elem_of_nil & _).
  - rewrite fold_left_app. cbn [fold_left]. rewrite Hsee, IH. split.
    + intros [HP|(m & Hm & HP)]; [exists n|exists m]; (split; [apply elem_of_app|done]); [right; by left|by left].
    + intros (m & [Hm|Hm%list_elem_of_singleton]%elem_of_app & HP); [right; by exists m|left; by subst].
Qed.

Lemma elem_of_see_name x y s : x ∈ see_name y s ↔ (y ≠ "" ∧ x = y) ∨ x ∈ s.
Proof. unfold see_name. case_bool_decide; set_solver. Qed.

Lemma homed_dec n :
  (Type_ n ∈ [NodeTypePod; NodeTypeService; NodeTypePVC]) →
  bool_decide (lget (Labels n) "cluster" = "") || bool_decide (lget (Labels n) "namespace" = "") = false ↔ homed n.
Proof.
  intros Ht. rewrite orb_false_iff, !bool_decide_eq_false. unfold homed. tauto.
Qed.

Section see.
Context (st : seen) (n : GraphNode).

Lemma see_cluster x : x ∈ clusterSeen (see st n) ↔ (lget (Labels n) "cluster" ≠ "" ∧ x = lget (Labels n) "cluster") ∨ x ∈ clusterSeen st.
Proof. rewrite <-elem_of_see_name. unfold see. by destruct (Type_ n); try destruct (_ || _). Qed.

Lemma see_storage x : x ∈ storageClusterSeen (see st n) ↔
  (lget (Labels n) "ontap_cluster" ≠ "" ∧ x = lget (Labels n) "ontap_cluster") ∨ x ∈ storageClusterSeen st.
Proof. rewrite <-elem_of_see_name. unfold see. by destruct (Type_ n); try destruct (_ || _). Qed.

Lemma see_ns x : x ∈ nsSeen (see st n) ↔ (homed n ∧ x = ns_key n) ∨ x ∈ nsSeen st.
Proof.
  unfold see, ns_key. destruct (Type_ n) eqn:Et; try (split; [by right|]; intros [[(Ht & _) _]|?]; [rewrite Et in Ht; set_solver|done]);
    (destruct (_ || _) eqn:E; cbn [nsSeen];
      [split; [by right|]; intros [[Hh _]|?]; [apply homed_dec in Hh; [congruence|apply Hh]|done]
      |apply homed_dec in E; [set_solver|rewrite Et; set_solver]]).
Qed.

Lemma see_app x : x ∈ appSeen (see st n) ↔ (homed n ∧ Application n ≠ "" ∧ x = app_key n) ∨ x ∈ appSeen st.
Proof.
  unfold see, app_key. destruct (Type_ n) eqn:Et; try (split; [by right|]; intros [[(Ht & _) _]|?]; [rewrite Et in Ht; set_solver|done]);
    (destruct (_ || _) eqn:E; cbn [appSeen];
      [split; [by right|]; intros [[Hh _]|?]; [apply homed_dec in Hh; [congruence|apply Hh]|done]
      |apply homed_dec in E; [case_bool_decide; set_solver|rewrite Et; set_solver]]).
Qed.

Lemma see_ctrl x : x ∈ ctrlSeen (see st n) ↔
  (homed n ∧ ∃ o, NodeOwner n = Some o ∧ x = ctrl_key n o) ∨ x ∈ ctrlSeen st.
Proof.
  assert (Type_ n ≠ NodeTypePod → NodeOwner n = None) as Hno by by destruct n.
  unfold see, ctrl_key. destruct (Type_ n) eqn:Et;
    try (rewrite Hno by done; try destruct (_ || _); cbn [ctrlSeen]; (split; [by right|by intros [(_ & ? & ? & _)|?]])).
  destruct (_ || _) eqn:E; cbn [ctrlSeen].
  - split; [by right|]. intros [[Hh _]|?]; [apply homed_dec in Hh; [congruence|apply Hh]|done].
  - apply homed_dec in E; [|rewrite Et; set_solver]. destruct (NodeOwner n) as [o|].
    + rewrite elem_of_union, elem_of_singleton. split; [intros [->|?]; [left; split; [done|by exists o]|by right]|].
      intros [(_ & o' & [= <-] & ->)|?]; [by left|by right].
    + split; [by right|]. by intros [(_ & ? & ? & _)|?].
Qed.
End see.

Lemma elem_of_clusterSeen l x : x ∈ clusterSeen (groups_of l) ↔
  ∃ n, n ∈ l ∧ lget (Labels n) "cluster" ≠ "" ∧ x = lget (Labels n) "cluster".
Proof. apply (groups_field clusterSeen (λ n x, lget (Labels n) "cluster" ≠ "" ∧ x = lget (Labels n) "cluster")); [intros; apply see_cluster|done]. Qed.
Lemma elem_of_storageClusterSeen l x : x ∈ storageClusterSeen (groups_of l) ↔
  ∃ n, n ∈ l ∧ lget (Labels n) "ontap_cluster" ≠ "" ∧ x = lget (Labels n) "ontap_cluster".
Proof. apply (groups_field storageClusterSeen (λ n x, lget (Labels n) "ontap_cluster" ≠ "" ∧ x = lget (Labels n) "ontap_cluster")); [intros; apply see_storage|done]. Qed.
Lemma elem_of_nsSeen l x : x ∈ nsSeen (groups_of l) ↔ ∃ n, n ∈ l ∧ homed n ∧ x = ns_key n.
Proof. apply (groups_field nsSeen (λ n x, homed n ∧ x = ns_key n)); [intros; apply see_ns|done]. Qed.
Lemma elem_of_appSeen l x : x ∈ appSeen (groups_of l) ↔ ∃ n, n ∈ l ∧ homed n ∧ Application n ≠ "" ∧ x = app_key n.
Proof. apply (groups_field appSeen (λ n x, homed n ∧ Application n ≠ "" ∧ x = app_key n)); [intros; apply see_app|done]. Qed.
Lemma elem_of_ctrlSeen l x : x ∈ ctrlSeen (groups_of l) ↔
  ∃ n, n ∈ l ∧ homed n ∧ ∃ o, NodeOwner n = Some o ∧ x = ctrl_key n o.
Proof. apply (groups_field ctrlSeen (λ n x, homed n ∧ ∃ o, NodeOwner n = Some o ∧ x = ctrl_key n o)); [intros; apply see_ctrl|done]. Qed.

(** ** The tree *)

(** The controllers the drawn aggregates name are drawn. *)
Definition owners_drawn (v : View) : Prop :=
  ∀ n id, n ∈ view_Nodes v → owner_id n = Some id → ∃ p, p ∈ view_Nodes v ∧ ID p = id ∧ Type_ p = NodeTypeNetAppNode.

(** The tier of a group; a node is below every group. *)
Definition tier (d : NodeData) : nat :=
  if bool_decide (nd_Type d ∈ [nodeTypeCluster; nodeTypeStorageCluster]) then 0
  else if bool_decide (nd_Type d = nodeTypeNamespace) then 1
  else if bool_decide (nd_Type d = nodeTypeApplication) then 2
  else if bool_decide (nd_Type d = nodeTypeController) then 3
  else if bool_decide (nd_Type d = node_type_string NodeTypeNetAppAggr) then 5 else 4.

(** The parent of an element is above it in the body. *)
Definition has_parent (b : Body) (d : NodeData) : Prop :=
  ∃ p, p ∈ body_Nodes b ∧ nd_ID p = nd_Parent d ∧ tier p < tier d.

Lemma elem_of_group_nodes g s d : d ∈ group_nodes g s ↔
  (∃ c, d = groupNode (clusterParentID c) c nodeTypeCluster "" ∧ c ∈ clusterSeen s) ∨
  (∃ oc, d = groupNode (storageClusterParentID oc) oc nodeTypeStorageCluster "" ∧ oc ∈ storageClusterSeen s) ∨
  (∃ k, d = namespace_group g k ∧ k ∈ nsSeen s) ∨
  (∃ k, d = application_group g k ∧ k ∈ appSeen s) ∨
  (∃ k, d = controller_group k ∧ k ∈ ctrlSeen s).
Proof.
  unfold group_nodes, SortedKeys. rewrite !elem_of_app, !list_elem_of_fmap.
  by setoid_rewrite elem_of_sort_func; setoid_rewrite elem_of_elements.
Qed.

Section tree.
Context (g : option Graph) (v : View) (Hv : owners_drawn v).

Let b := Serialise g v.
Let s := groups_of (view_Nodes v).

Lemma group_in_body d : d ∈ group_nodes g s → d ∈ body_Nodes b.
Proof. intros Hd. unfold b, Serialise. cbn [body_Nodes]. apply elem_of_app. by left. Qed.

Lemma node_in_body n : n ∈ view_Nodes v → node_data n ∈ body_Nodes b.
Proof. intros Hn. unfold b, Serialise. cbn [body_Nodes]. apply elem_of_app. right. by apply list_elem_of_fmap_2. Qed.

Lemma cluster_group c : c ∈ clusterSeen s →
  ∃ p, p ∈ body_Nodes b ∧ nd_ID p = clusterParentID c ∧ tier p = 0.
Proof.
  intros Hc. exists (groupNode (clusterParentID c) c nodeTypeCluster ""). split_and!; [|done|done].
  apply group_in_body, elem_of_group_nodes. left. by exists c.
Qed.

Lemma ns_group k : k ∈ nsSeen s → ∃ p, p ∈ body_Nodes b ∧ nd_ID p = nsKey_id k ∧ tier p = 1.
Proof.
  intros Hk. exists (namespace_group g k). split_and!; [|done|done].
  apply group_in_body, elem_of_group_nodes. right. right. left. by exists k.
Qed.

Lemma app_group k : k ∈ appSeen s → ∃ p, p ∈ body_Nodes b ∧ nd_ID p = appKey_id k ∧ tier p = 2.
Proof.
  intros Hk. exists (application_group g k). split_and!; [|done|done].
  apply group_in_body, elem_of_group_nodes. right. right. right. left. by exists k.
Qed.

Lemma ctrl_group k : k ∈ ctrlSeen s → ∃ p, p ∈ body_Nodes b ∧ nd_ID p = ctrlKey_id k ∧ tier p = 3.
Proof.
  intros Hk. exists (controller_group k). split_and!; [|done|done].
  apply group_in_body, elem_of_group_nodes. right. right. right. right. by exists k.
Qed.

Lemma node_tier n : 4 ≤ tier (node_data n) ∧ (Type_ n = NodeTypeNetAppAggr → tier (node_data n) = 5).
Proof. destruct n; (split; [by vm_compute; lia|done]). Qed.

Lemma homed_cluster n : n ∈ view_Nodes v → lget (Labels n) "cluster" ≠ "" → lget (Labels n) "cluster" ∈ clusterSeen s.
Proof. intros Hn Hc. apply elem_of_clusterSeen. by exists n. Qed.

Lemma homed_ns n : n ∈ view_Nodes v → homed n → ns_key n ∈ nsSeen s.
Proof. intros Hn Hh. apply elem_of_nsSeen. by exists n. Qed.

Lemma homed_app n : n ∈ view_Nodes v → homed n → Application n ≠ "" → app_key n ∈ appSeen s.
Proof. intros Hn Hh Ha. apply elem_of_appSeen. by exists n. Qed.

(** The workload group of a homed node. *)
Lemma workload_group n : n ∈ view_Nodes v → homed n →
  ∃ p, p ∈ body_Nodes b ∧ tier p < 3 ∧
    nd_ID p = if bool_decide (Application n = "") then nsKey_id (ns_key n) else appKey_id (app_key n).
Proof.
  intros Hn Hh. case_bool_decide as Ha.
  - destruct (ns_group _ (homed_ns n Hn Hh)) as (p & Hp & Hid & Ht). exists p. rewrite Ht. split_and!; [done|lia|done].
  - destruct (app_group _ (homed_app n Hn Hh Ha)) as (p & Hp & Hid & Ht). exists p. rewrite Ht. split_and!; [done|lia|done].
Qed.

Lemma group_has_parent d : d ∈ group_nodes g s → nd_Parent d = "" ∨ has_parent b d.
Proof.
  rewrite elem_of_group_nodes.
  intros [(c & -> & _)|[(oc & -> & _)|[(k & -> & Hk)|[(k & -> & Hk)|(k & -> & Hk)]]]]; [by left|by left|right..].
  - apply elem_of_nsSeen in Hk as (n & Hn & Hh & ->).
    destruct (cluster_group _ (homed_cluster n Hn (proj1 (proj2 Hh)))) as (p & Hp & Hid & Ht).
    exists p. rewrite Ht. split_and!; [done|done|by vm_compute; lia].
  - apply elem_of_appSeen in Hk as (n & Hn & Hh & _ & ->). destruct (ns_group _ (homed_ns n Hn Hh)) as (p & Hp & Hid & Ht).
    exists p. rewrite Ht. split_and!; [done|done|by vm_compute; lia].
  - apply elem_of_ctrlSeen in Hk as (n & Hn & Hh & o & _ & ->). destruct (workload_group n Hn Hh) as (p & Hp & Ht & Hid).
    exists p. split_and!; [done|exact Hid|]. change (tier (controller_group (ctrl_key n o))) with 3. done.
Qed.

(** A group above the node is its parent. *)
Lemma parent_group n id : compoundParent n = id → (∃ p, p ∈ body_Nodes b ∧ nd_ID p = id ∧ tier p < 4) → has_parent b (node_data n).
Proof.
  intros Hc (p & Hp & Hid & Ht). exists p. destruct (node_tier n) as [H4 _]. split_and!; [done|by rewrite Hid, <-Hc|lia].
Qed.

Lemma storage_parent n : n ∈ view_Nodes v → lget (Labels n) "ontap_cluster" ≠ "" →
  ∃ p, p ∈ body_Nodes b ∧ nd_ID p = storageClusterParentID (lget (Labels n) "ontap_cluster") ∧ tier p < 4.
Proof.
  intros Hn Hc. exists (groupNode (storageClusterParentID (lget (Labels n) "ontap_cluster")) (lget (Labels n) "ontap_cluster")
      nodeTypeStorageCluster ""). split_and!; [|done|by vm_compute; lia]. apply group_in_body, elem_of_group_nodes. right. left.
  eexists. split; [done|]. apply elem_of_storageClusterSeen. by exists n.
Qed.

Lemma fallback_parent n : n ∈ view_Nodes v →
  compoundParent n = (if bool_decide (lget (Labels n) "cluster" = "") then "" else clusterParentID (lget (Labels n) "cluster")) →
  compoundParent n = "" ∨ has_parent b (node_data n).
Proof.
  intros Hn Hp. case_bool_decide as Hc; [by left|right]. apply (parent_group n _ Hp).
  destruct (cluster_group _ (homed_cluster n Hn Hc)) as (p & Hb & Hid & Ht). exists p. rewrite Ht. split_and!; [done|done|lia].
Qed.

Lemma homed_parent n : n ∈ view_Nodes v → homed n → has_parent b (node_data n).
Proof.
  intros Hn Hh. pose proof Hh as (Ht & Hc & Hs).
  destruct (NodeOwner n) as [o|] eqn:Ho.
  - assert (Type_ n = NodeTypePod) as Hp by (destruct n; done).
    apply (parent_group n (ctrlKey_id (ctrl_key n o))).
    + unfold compoundParent. by rewrite Hp, Ho, !bool_decide_eq_false_2 by done.
    + destruct (ctrl_group (ctrl_key n o)) as (p & Hb & Hid & Htr); [apply elem_of_ctrlSeen; exists n; split_and!; [done|done|by exists o]|].
      exists p. rewrite Htr. split_and!; [done|done|lia].
  - destruct (workload_group n Hn Hh) as (p & Hb & Htr & Hid). refine (parent_group n _ _ _); [|exists p; split_and!; [done|exact Hid|lia]].
    unfold compoundParent. rewrite Ho, !(bool_decide_eq_false_2 (lget _ _ = "")) by done.
    rewrite !elem_of_cons, elem_of_nil in Ht. by destruct Ht as [->|[->|[->|[]]]].
Qed.

Lemma node_has_parent n : n ∈ view_Nodes v → compoundParent n = "" ∨ has_parent b (node_data n).
Proof.
  intros Hn.
  destruct (decide (Type_ n ∈ [NodeTypePod; NodeTypeService; NodeTypePVC])) as [Ht|Ht].
  - destruct (bool_decide (lget (Labels n) "cluster" = "") || bool_decide (lget (Labels n) "namespace" = "")) eqn:E.
    + apply (fallback_parent n Hn). unfold compoundParent. rewrite <-negb_orb, E. cbn [negb].
      rewrite !elem_of_cons, elem_of_nil in Ht. by destruct Ht as [->|[->|[->|[]]]].
    + right. apply (homed_parent n Hn). by apply homed_dec.
  - destruct (Type_ n) eqn:Ety; try (destruct Ht; set_solver).
    + apply (fallback_parent n Hn). unfold compoundParent. by rewrite Ety.
    + apply (fallback_parent n Hn). unfold compoundParent. by rewrite Ety.
    + destruct (decide (lget (Labels n) "ontap_cluster" = "")) as [Ho|Ho].
      { left. unfold compoundParent. by rewrite Ety, bool_decide_eq_true_2. }
      right. destruct (decide (lget (Labels n) "node" = "")) as [Hd|Hd].
      { apply (parent_group n _ ltac:(unfold compoundParent; by rewrite Ety, bool_decide_eq_false_2, bool_decide_eq_true_2)).
        by apply storage_parent. }
      destruct (Hv n (NetAppNodeID (lget (Labels n) "ontap_cluster") (lget (Labels n) "node")) Hn) as (p & Hp & Hid & Htp).
      { unfold owner_id. by rewrite Ety, bool_decide_eq_true_2, !bool_decide_eq_false_2. }
      exists (node_data p). split_and!; [by apply node_in_body| |].
      * cbn [nd_ID node_data nd_Parent]. rewrite Hid. unfold compoundParent. by rewrite Ety, !bool_decide_eq_false_2.
      * destruct (node_tier n) as [_ H5]. rewrite H5 by done. destruct p; try done. by vm_compute; lia.
    + destruct (decide (lget (Labels n) "ontap_cluster" = "")) as [Ho|Ho].
      { left. unfold compoundParent. by rewrite Ety, bool_decide_eq_true_2. }
      right. apply (parent_group n _ ltac:(unfold compoundParent; by rewrite Ety, bool_decide_eq_false_2)). by apply storage_parent.
    + destruct (decide (lget (Labels n) "ontap_cluster" = "")) as [Ho|Ho].
      { left. unfold compoundParent. by rewrite Ety, bool_decide_eq_true_2. }
      right. apply (parent_group n _ ltac:(unfold compoundParent; by rewrite Ety, bool_decide_eq_false_2)). by apply storage_parent.
Qed.

Lemma serialised_tree d : d ∈ body_Nodes b → nd_Parent d = "" ∨ has_parent b d.
Proof.
  unfold b at 1, Serialise. cbn [body_Nodes]. rewrite elem_of_app. intros [Hd|(n & -> & Hn)%list_elem_of_fmap].
  - by apply group_has_parent.
  - by apply node_has_parent.
Qed.
End tree.

(** ** Projected views *)

(** The controller an aggregate names is a node of the graph. *)
Definition controllers_loaded (g : Graph) : Prop :=
  ∀ i n id, NodesByID g !! i = Some n → owner_id n = Some id → is_Some (NodesByID g !! id).

Lemma pulled_owners g nodes n id : graph_ok g → controllers_loaded g → nodes ⊆ NodesByID g →
  pullNetAppParents g nodes !! ID n = Some n → owner_id n = Some id →
  ∃ p, pullNetAppParents g nodes !! id = Some p ∧ ID p = id ∧ Type_ p = NodeTypeNetAppNode.
Proof.
  intros [Hwf Hctrl] Hload Hsub Hn Ho. destruct (pullNetAppParents_spec g nodes Hsub) as (H1 & H2 & H3).
  pose proof (lookup_weaken _ _ _ _ Hn H2) as Hg.
  destruct (Hload _ _ _ Hg Ho) as [p Hp].
  assert (id ∈ dom (pullNetAppParents g nodes)) as Hid.
  { apply H3. right. assert (ID n ∈ dom (pullNetAppParents g nodes)) as Hdom by (apply elem_of_dom; by exists n).
    apply H3 in Hdom as [Hdom|(i & m & Hm & Hom & _)].
    - apply elem_of_dom in Hdom as [n' Hn']. exists (ID n), n. split_and!; [|done|by exists p].
      pose proof (lookup_weaken _ _ _ _ Hn' Hsub) as Hg'. congruence.
    - pose proof (lookup_weaken _ _ _ _ Hm Hsub) as Hgm. pose proof (Hctrl _ _ _ _ Hgm Hom Hg) as Ht.
      unfold owner_id in Ho. rewrite Ht in Ho. done. }
  apply elem_of_dom in Hid as [p' Hp']. exists p'. pose proof (lookup_weaken _ _ _ _ Hp' H2) as Hgp.
  split_and!; [done|by apply (graph_wf_ID g)|by apply (Hctrl _ _ _ _ Hg Ho Hgp)].
Qed.

(** A view of the graph, through one of its projections. *)
Inductive projected `{EdgeUUID} (g : Graph) : View → Prop :=
  | projected_graph scope : projected g (Project (Some g) scope)
  | projected_storage scope : projected g (ProjectStorage (Some g) scope).

Lemma projected_owners `{EdgeUUID} g v : graph_ok g → controllers_loaded g → projected g v → owners_drawn v.
Proof.
  intros Hok Hload [scope|scope] n id Hn Ho.
  - apply (elem_of_view_Nodes g scope Hok) in Hn.
    destruct (pulled_owners g _ n id Hok Hload ltac:(apply (r_inv g scope Hok)) Hn Ho) as (p & Hp & Hid & Ht).
    exists p. split_and!; [|done|done]. apply (elem_of_view_Nodes g scope Hok). by rewrite Hid.
  - apply (elem_of_storage_nodes g scope Hok) in Hn.
    destruct (pulled_owners g _ n id Hok Hload (proj1 (nodes3_spec g scope)) Hn Ho) as (p & Hp & Hid & Ht).
    exists p. split_and!; [|done|done]. apply (elem_of_storage_nodes g scope Hok). by rewrite Hid.
Qed.

(** ** No spurious group *)

(** The groups a node asks for. *)
Definition group_chain (n : GraphNode) : list string :=
  (if bool_decide (lget (Labels n) "cluster" = "") then [] else [clusterParentID (lget (Labels n) "cluster")]) ++
  (if bool_decide (lget (Labels n) "ontap_cluster" = "") then [] else [storageClusterParentID (lget (Labels n) "ontap_cluster")]) ++
  (if bool_decide (homed n) then
     nsKey_id (ns_key n) ::
     (if bool_decide (Application n = "") then [] else [appKey_id (app_key n)]) ++
     (match NodeOwner n with Some o => [ctrlKey_id (ctrl_key n o)] | None => [] end)
   else []).

Lemma group_ids g l id :
  id ∈ map nd_ID (group_nodes g (groups_of l)) ↔ ∃ n, n ∈ l ∧ id ∈ group_chain n.
Proof.
  rewrite list_elem_of_fmap. setoid_rewrite elem_of_group_nodes. split.
  - intros (d & -> & Hd). destruct Hd as [(c & -> & Hc)|[(c & -> & Hc)|[(k & -> & Hk)|[(k & -> & Hk)|(k & -> & Hk)]]]].
    + apply elem_of_clusterSeen in Hc as (n & Hn & Hne & ->). exists n. split; [done|]. unfold group_chain.
      rewrite (bool_decide_eq_false_2 (lget (Labels n) "cluster" = "")) by done. left.
    + apply elem_of_storageClusterSeen in Hc as (n & Hn & Hne & ->). exists n. split; [done|]. unfold group_chain.
      rewrite (bool_decide_eq_false_2 (lget (Labels n) "ontap_cluster" = "")) by done. apply elem_of_app. right. left.
    + apply elem_of_nsSeen in Hk as (n & Hn & Hh & ->). exists n. split; [done|]. unfold group_chain.
      rewrite (bool_decide_eq_true_2 (homed n)) by done. apply elem_of_app. right. apply elem_of_app. right. left.
    + apply elem_of_appSeen in Hk as (n & Hn & Hh & Ha & ->). exists n. split; [done|]. unfold group_chain.
      rewrite (bool_decide_eq_true_2 (homed n)), (bool_decide_eq_false_2 (Application n = "")) by done.
      apply elem_of_app. right. apply elem_of_app. right. right. left.
    + apply elem_of_ctrlSeen in Hk as (n & Hn & Hh & o & Ho & ->). exists n. split; [done|]. unfold group_chain.
      rewrite (bool_decide_eq_true_2 (homed n)), Ho by done.
      apply elem_of_app. right. apply elem_of_app. right. right. apply elem_of_app. right. left.
  - intros (n & Hn & Hid). unfold group_chain in Hid. rewrite !elem_of_app in Hid. destruct Hid as [Hid|[Hid|Hid]].
    + case_bool_decide as Hc; [by apply elem_of_nil in Hid|]. apply list_elem_of_singleton in Hid as ->.
      eexists. split; [|left; eexists; split; [done|apply elem_of_clusterSeen; by exists n]]. done.
    + case_bool_decide as Hc; [by apply elem_of_nil in Hid|]. apply list_elem_of_singleton in Hid as ->.
      eexists. split; [|right; left; eexists; split; [done|apply elem_of_storageClusterSeen; by exists n]]. done.
    + case_bool_decide as Hh; [|by apply elem_of_nil in Hid]. apply elem_of_cons in Hid as [->|Hid].
      { eexists. split; [|right; right; left; eexists; split; [done|apply elem_of_nsSeen; by exists n]]. done. }
      apply elem_of_app in Hid as [Hid|Hid].
      * case_bool_decide as Ha; [by apply elem_of_nil in Hid|]. apply list_elem_of_singleton in Hid as ->.
        eexists. split; [|right; right; right; left; eexists; split; [done|apply elem_of_appSeen; by exists n]]. done.
      * destruct (NodeOwner n) as [o|] eqn:Ho; [|by apply elem_of_nil in Hid]. apply list_elem_of_singleton in Hid as ->.
        eexists. split; [|right; right; right; right; eexists; split; [done|apply elem_of_ctrlSeen; exists n; split_and!; [done|done|by exists o]]].
        done.
Qed.

(** The body of a projection of a graph that holds the controllers its aggregates
    name is a forest: every element is at the top or its parent is an element of
    the body of a higher tier (a cluster, a namespace, an application, a
    controller group, an ONTAP controller), so nothing dangles and no element is
    its own ancestor. And no group is spurious: the groups are the ones the drawn
    nodes ask for. *)
Theorem body_is_forest `{EdgeUUID} g v : graph_ok g → controllers_loaded g → projected g v →
  (∀ d, d ∈ body_Nodes (Serialise (Some g) v) → nd_Parent d = "" ∨ has_parent (Serialise (Some g) v) d) ∧
  (∀ id, (∃ d, d ∈ body_Nodes (Serialise (Some g) v) ∧ tier d ≤ 3 ∧ nd_ID d = id) ↔
         ∃ n, n ∈ view_Nodes v ∧ id ∈ group_chain n).
Proof.
  intros Hok Hload Hv. split.
  - intros d. apply serialised_tree. by apply (projected_owners g).
  - intros id. rewrite <-(group_ids (Some g)), list_elem_of_fmap. unfold Serialise. cbn [body_Nodes]. split.
    + intros (d & Hd & Ht & <-). apply elem_of_app in Hd as [Hd|(n & -> & _)%list_elem_of_fmap]; [by exists d|].
      destruct (node_tier n). lia.
    + intros (d & -> & Hd). exists d. split_and!; [apply elem_of_app; by left| |done]. apply elem_of_group_nodes in Hd.
      destruct Hd as [(c & -> & _)|[(c & -> & _)|[(k & -> & _)|[(k & -> & _)|(k & -> & _)]]]]; by vm_compute; lia.
Qed.

(** ** Distinct ids *)

(** A name that is one segment of an id. *)
Definition one_segment (s : string) : Prop := contains_byte "/"%char s = false.

(** The names a node's groups are built from are one segment each. *)
Definition plain_names (n : GraphNode) : Prop :=
  one_segment (lget (Labels n) "cluster") ∧ one_segment (lget (Labels n) "ontap_cluster") ∧
  one_segment (lget (Labels n) "namespace") ∧ one_segment (Application n) ∧
  match NodeOwner n with Some o => one_segment (owner_Kind o) ∧ one_segment (owner_Name o) | None => True end.

#[export] Instance plain_names_dec n : Decision (plain_names n).
Proof. unfold plain_names, one_segment. destruct (NodeOwner n); apply _. Defined.

(** An id no group can have. *)
Definition unreserved (id : string) : Prop :=
  match split "/"%char id with
  | [a; _] => a ≠ "cluster" ∧ a ≠ "storage-cluster"
  | _ :: b :: _ => b ≠ "namespace"
  | _ => True
  end.

#[export] Instance unreserved_dec id : Decision (unreserved id).
Proof. unfold unreserved. repeat case_match; apply _. Defined.

Lemma split_path x l : Forall one_segment (x :: l) → split "/"%char (join "/" (x :: l)) = x :: l.
Proof. intros Hs. apply split_join. exact Hs. Qed.

Lemma split_cluster c : one_segment c → split "/"%char (clusterParentID c) = ["cluster"; c].
Proof. intros Hc. apply (split_path "cluster" [c]). by repeat constructor. Qed.
Lemma split_storage c : one_segment c → split "/"%char (storageClusterParentID c) = ["storage-cluster"; c].
Proof. intros Hc. apply (split_path "storage-cluster" [c]). by repeat constructor. Qed.
Lemma split_ns k : one_segment (nk_cluster k) → one_segment (nk_ns k) →
  split "/"%char (nsKey_id k) = [nk_cluster k; "namespace"; nk_ns k].
Proof.
  intros Hc Hn. rewrite <-(split_path (nk_cluster k) ["namespace"; nk_ns k]) by by repeat constructor.
  done.
Qed.
Lemma split_app_group k : one_segment (ak_cluster k) → one_segment (ak_ns k) → one_segment (ak_app k) →
  split "/"%char (appKey_id k) = [ak_cluster k; "namespace"; ak_ns k; "application"; ak_app k].
Proof.
  intros Hc Hn Ha. rewrite <-(split_path (ak_cluster k) ["namespace"; ak_ns k; "application"; ak_app k]) by by repeat constructor.
  f_equal. unfold appKey_id, applicationParentID, namespaceParentID. rewrite !join_cons2, !append_assoc. done.
Qed.
Lemma split_ctrl k : one_segment (ck_cluster k) → one_segment (ck_ns k) → one_segment (ck_app k) →
  one_segment (ck_kind k) → one_segment (ck_name k) →
  split "/"%char (ctrlKey_id k) = [ck_cluster k; "namespace"; ck_ns k] ++
    (if bool_decide (ck_app k = "") then [] else ["application"; ck_app k]) ++ ["controller"; ck_kind k; ck_name k].
Proof.
  intros Hc Hn Ha Hk Hm. unfold ctrlKey_id, controllerParentID. case_bool_decide; cbn [app].
  - rewrite <-(split_path (ck_cluster k) ["namespace"; ck_ns k; "controller"; ck_kind k; ck_name k]) by by repeat constructor.
    f_equal. unfold namespaceParentID. rewrite !join_cons2, !append_assoc. done.
  - rewrite <-(split_path (ck_cluster k) ["namespace"; ck_ns k; "application"; ck_app k; "controller"; ck_kind k; ck_name k])
      by by repeat constructor.
    f_equal. unfold applicationParentID, namespaceParentID. rewrite !join_cons2, !append_assoc. done.
Qed.

(** The ids of a list whose splits are the distinct parts of distinct keys. *)
Lemma NoDup_ids {K} `{EqDecision K} (l : list K) (id : K → string) (parts : K → list string) :
  NoDup l → (∀ k, k ∈ l → split "/"%char (id k) = parts k) → (∀ k k', k ∈ l → k' ∈ l → parts k = parts k' → k = k') →
  NoDup (map id l).
Proof.
  intros Hnd Hsp Hinj. induction Hnd as [|k l Hk Hnd IH]; [constructor|]. cbn [map]. constructor.
  - intros (k' & Heq & Hk')%list_elem_of_fmap. apply Hk. rewrite (Hinj k k'); [done|left|by right|].
    rewrite <-(Hsp k), <-(Hsp k'), Heq; [done|by right|left].
  - apply IH; intros; [apply Hsp|apply Hinj]; by try right.
Qed.

Section distinct.
Context (v : View) (Hnames : Forall plain_names (view_Nodes v)).
Let s := groups_of (view_Nodes v).

Lemma plain_of n : n ∈ view_Nodes v → plain_names n.
Proof. rewrite Forall_forall in Hnames. apply Hnames. Qed.

Lemma cluster_parts c : c ∈ clusterSeen s → split "/"%char (clusterParentID c) = ["cluster"; c].
Proof. intros (n & Hn & _ & ->)%elem_of_clusterSeen. by apply split_cluster, plain_of. Qed.
Lemma storage_parts c : c ∈ storageClusterSeen s → split "/"%char (storageClusterParentID c) = ["storage-cluster"; c].
Proof. intros (n & Hn & _ & ->)%elem_of_storageClusterSeen. by apply split_storage, plain_of. Qed.
Lemma ns_parts k : k ∈ nsSeen s → split "/"%char (nsKey_id k) = [nk_cluster k; "namespace"; nk_ns k].
Proof. intros (n & Hn & _ & ->)%elem_of_nsSeen. by apply split_ns; apply plain_of. Qed.
Lemma app_parts k : k ∈ appSeen s →
  split "/"%char (appKey_id k) = [ak_cluster k; "namespace"; ak_ns k; "application"; ak_app k].
Proof. intros (n & Hn & _ & _ & ->)%elem_of_appSeen. by apply split_app_group; apply plain_of. Qed.
Lemma ctrl_parts k : k ∈ ctrlSeen s →
  split "/"%char (ctrlKey_id k) = [ck_cluster k; "namespace"; ck_ns k] ++
    (if bool_decide (ck_app k = "") then [] else ["application"; ck_app k]) ++ ["controller"; ck_kind k; ck_name k].
Proof.
  intros (n & Hn & _ & o & Ho & ->)%elem_of_ctrlSeen. destruct (plain_of n Hn) as (? & ? & ? & ? & Hown).
  rewrite Ho in Hown. destruct Hown. by apply split_ctrl.
Qed.

(** The tier an id can be of, from its segments. *)
Definition tier_of_id (id : string) : nat :=
  match split "/"%char id with
  | [a; _] => if bool_decide (a = "cluster") then 0 else 1
  | [_; _; _] => 2
  | [_; _; _; _; _] => 3
  | _ => 4
  end.

Lemma NoDup_tiers (A B : list string) t :
  NoDup A → NoDup B → Forall (λ i, tier_of_id i = t) A → Forall (λ i, t < tier_of_id i) B → NoDup (A ++ B).
Proof.
  intros HA HB HtA HtB. rewrite Forall_forall in HtA. rewrite Forall_forall in HtB. apply NoDup_app. split_and!; [done| |done].
  intros i Hi1 Hi2. specialize (HtA i Hi1). specialize (HtB i Hi2). lia.
Qed.

(** One tier's ids. *)
Lemma tier_ids {K} `{Countable K} (S : gset K) (id : K → string) (parts : K → list string) (c : K → K → comparison) t :
  (∀ k, k ∈ S → split "/"%char (id k) = parts k) → (∀ k k', k ∈ S → k' ∈ S → parts k = parts k' → k = k') →
  (∀ k, k ∈ S → tier_of_id (id k) = t) →
  NoDup (map id (sort_func c (elements S))) ∧ Forall (λ i, tier_of_id i = t) (map id (sort_func c (elements S))).
Proof.
  intros Hsp Hinj Ht. assert (∀ k, k ∈ sort_func c (elements S) → k ∈ S) as Hin.
  { intros k. by rewrite elem_of_sort_func, elem_of_elements. }
  split.
  - apply (NoDup_ids _ _ parts); [|by intros; apply Hsp, Hin|by intros; apply Hinj; auto].
    rewrite sort_func_perm. apply NoDup_elements.
  - apply Forall_map, Forall_forall. intros k Hk. by apply Ht, Hin.
Qed.

Lemma group_id_tiers g :
  NoDup (map nd_ID (group_nodes g s)) ∧ ∀ id, id ∈ map nd_ID (group_nodes g s) → ¬ unreserved id.
Proof.
  split.
  - unfold group_nodes, SortedKeys. rewrite !map_app, !map_map.
    destruct (tier_ids (clusterSeen s) clusterParentID (λ c, ["cluster"; c]) String.compare 0) as [N0 T0].
    { apply cluster_parts. } { by intros ???? [= ->]. } { intros k Hk. unfold tier_of_id. by rewrite cluster_parts. }
    destruct (tier_ids (storageClusterSeen s) storageClusterParentID (λ c, ["storage-cluster"; c]) String.compare 1) as [N1 T1].
    { apply storage_parts. } { by intros ???? [= ->]. } { intros k Hk. unfold tier_of_id. by rewrite storage_parts. }
    destruct (tier_ids (nsSeen s) nsKey_id (λ k, [nk_cluster k; "namespace"; nk_ns k]) (on_key nsKey_id String.compare) 2) as [N2 T2].
    { apply ns_parts. } { by intros [] [] ?? [= -> ->]. } { intros k Hk. unfold tier_of_id. by rewrite ns_parts. }
    destruct (tier_ids (appSeen s) appKey_id (λ k, [ak_cluster k; "namespace"; ak_ns k; "application"; ak_app k])
                (on_key appKey_id String.compare) 3) as [N3 T3].
    { apply app_parts. } { by intros [] [] ?? [= -> -> ->]. } { intros k Hk. unfold tier_of_id. by rewrite app_parts. }
    destruct (tier_ids (ctrlSeen s) ctrlKey_id (λ k, [ck_cluster k; "namespace"; ck_ns k] ++
       (if bool_decide (ck_app k = "") then [] else ["application"; ck_app k]) ++ ["controller"; ck_kind k; ck_name k])
                (on_key ctrlKey_id String.compare) 4) as [N4 T4].
    { apply ctrl_parts. }
    { intros [] [] ?? Heq. cbn in Heq. do 2 case_bool_decide; by simplify_eq/=. }
    { intros k Hk. unfold tier_of_id. rewrite ctrl_parts by done. by case_bool_decide. }
    assert (∀ (l : list string) t t', t < t' → Forall (λ i, tier_of_id i = t') l → Forall (λ i, t < tier_of_id i) l) as Hlt.
    { intros l t t' Hlt Hl. eapply Forall_impl; [exact Hl|]. cbn. lia. }
    apply (NoDup_tiers _ _ 0); [exact N0| |exact T0|].
    + apply (NoDup_tiers _ _ 1); [exact N1| |exact T1|].
      * apply (NoDup_tiers _ _ 2); [exact N2| |exact T2|].
        -- apply (NoDup_tiers _ _ 3); [exact N3|exact N4|exact T3|]. by eapply Hlt, T4; lia.
        -- apply Forall_app. split; [by eapply Hlt, T3; lia|by eapply Hlt, T4; lia].
      * apply Forall_app. split; [by eapply Hlt, T2; lia|]. apply Forall_app. split; [by eapply Hlt, T3; lia|by eapply Hlt, T4; lia].
    + apply Forall_app. split; [by eapply Hlt, T1; lia|]. apply Forall_app. split; [by eapply Hlt, T2; lia|].
      apply Forall_app. split; [by eapply Hlt, T3; lia|by eapply Hlt, T4; lia].
  - intros id (d & -> & Hd)%list_elem_of_fmap. apply elem_of_group_nodes in Hd. unfold unreserved.
    destruct Hd as [(c & -> & Hc)|[(c & -> & Hc)|[(k & -> & Hk)|[(k & -> & Hk)|(k & -> & Hk)]]]];
      cbn [nd_ID groupNode namespace_group application_group controller_group].
    + rewrite cluster_parts by done. naive_solver.
    + rewrite storage_parts by done. naive_solver.
    + rewrite ns_parts by done. naive_solver.
    + rewrite app_parts by done. naive_solver.
    + rewrite ctrl_parts by done. cbn [app]. naive_solver.
Qed.
End distinct.

Lemma NoDup_filed_ids (f : gmap string GraphNode) : (∀ i n, f !! i = Some n → ID n = i) →
  NoDup (map ID (SortNodes (map_to_list f).*2)).
Proof.
  intros Hf. unfold SortNodes. rewrite (sort_func_perm (on_key ID String.compare)).
  assert (map ID (map_to_list f).*2 = (map_to_list f).*1) as ->; [|apply NoDup_fst_map_to_list].
  change (map ID ?x) with (ID <$> x). rewrite <-list_fmap_compose.
  apply list_fmap_ext. intros k [i n] Hk%list_elem_of_lookup_2%elem_of_map_to_list. by apply Hf.
Qed.

Lemma projected_ids `{EdgeUUID} g v : graph_ok g → projected g v → NoDup (map ID (view_Nodes v)).
Proof.
  intros Hok [scope|scope].
  - rewrite view_eq. cbn [view_Nodes]. apply NoDup_filed_ids. intros i n Hi.
    apply (graph_wf_ID g); [apply Hok|]. eapply lookup_weaken; [exact Hi|]. by apply final_spec.
  - unfold ProjectStorage. cbn [view_Nodes]. apply NoDup_filed_ids. intros i n Hi.
    apply (graph_wf_ID g); [apply Hok|]. eapply lookup_weaken; [exact Hi|]. by apply storage_final_spec.
Qed.

(** No two elements of a body share an id, when every name a group is built from
    is one segment and no drawn node has the id a group could have (a claim or a
    service of a namespace called namespace has one). *)
Theorem body_ids_distinct `{EdgeUUID} g v : graph_ok g → projected g v →
  Forall plain_names (view_Nodes v) → Forall (λ n, unreserved (ID n)) (view_Nodes v) →
  NoDup (map nd_ID (body_Nodes (Serialise (Some g) v))).
Proof.
  intros Hok Hv Hnames Hids. unfold Serialise. cbn [body_Nodes]. rewrite map_app, map_map.
  destruct (group_id_tiers v Hnames (Some g)) as [Hnd Hres]. apply NoDup_app. split_and!; [exact Hnd| |].
  - intros id Hid (n & -> & Hn)%list_elem_of_fmap. apply (Hres _ Hid). rewrite Forall_forall in Hids. by apply Hids.
  - by apply (projected_ids g v).
Qed.

(** ** Deploy times *)

Section deployed.
#[local] Open Scope Z_scope.

(** A capped quotient and its remainder. *)
Lemma capped_quotient r p : 0 ≤ r → 0 < p → ∃ n, Z.min (r / p) 3 = n ∧ 0 ≤ n ≤ 3 ∧ 0 ≤ r - p * n ∧ (n < 3 → r - p * n < p).
Proof. intros Hr Hp. eexists. split; [reflexivity|]. Z.to_euclidean_division_equations. nia. Qed.

Lemma year_of_spec d : 0 ≤ d →
  let '(y, yday) := year_of d in
  1 ≤ y ∧ 0 ≤ yday < 365 + Z.b2z (leap y) ∧ day_number y 1 1 + yday = d.
Proof.
  intros Hd. unfold year_of.
  pose proof (Z.div_mod d 146097 ltac:(lia)) as Hc. pose proof (Z.mod_pos_bound d 146097 ltac:(lia)) as Hr.
  pose proof (Z.div_pos d 146097 Hd ltac:(lia)) as Hc0. revert Hc Hr Hc0.
  generalize (d / 146097) as c, (d mod 146097) as r. intros c r -> Hr Hc0.
  destruct (capped_quotient r 36524) as (n100 & -> & Hn100 & Hr1 & Hr1lt); [lia|lia|].
  assert (r - 36524 * n100 ≤ 36524) as Hr1le by lia.
  set (r1 := r - 36524 * n100) in *. assert (∃ n4, r1 / 1461 = n4 ∧ 0 ≤ n4 ≤ 24 ∧ 0 ≤ r1 - 1461 * n4 < 1461) as (n4 & -> & Hn4 & Hr2).
  { eexists. split; [reflexivity|]. Z.to_euclidean_division_equations. lia. }
  set (r2 := r1 - 1461 * n4) in *. destruct (capped_quotient r2 365) as (n1 & -> & Hn1 & Hr3 & Hr3lt); [lia|lia|].
  set (y := 400 * c + 100 * n100 + 4 * n4 + n1 + 1).
  assert ((y - 1) / 4 = 100 * c + 25 * n100 + n4) as H4 by (unfold y; Z.to_euclidean_division_equations; lia).
  assert ((y - 1) / 100 = 4 * c + n100) as H100 by (unfold y; Z.to_euclidean_division_equations; lia).
  assert ((y - 1) / 400 = c) as H400 by (unfold y; Z.to_euclidean_division_equations; lia).
  split; [lia|]. split.
  - destruct (decide (r2 - 365 * n1 < 365)) as [?|Hlast]; [destruct (leap y); cbn [Z.b2z]; lia|].
    assert (n1 = 3) as -> by lia. assert (leap y = true) as ->; [|cbn [Z.b2z]; lia]. unfold leap.
    assert (y mod 4 = 0) as -> by (unfold y; Z.to_euclidean_division_equations; lia). cbn [Z.eqb andb].
    destruct (decide (n4 = 24)) as [->|Hn].
    + assert (n100 = 3) as -> by lia. assert (y mod 400 = 0) as -> by (unfold y; Z.to_euclidean_division_equations; lia).
      apply orb_true_r.
    + assert (y mod 100 ≠ 0) as Hm by (unfold y; Z.to_euclidean_division_equations; lia).
      apply Z.eqb_neq in Hm. by rewrite Hm.
  - unfold day_number. rewrite H4, H100, H400. change (days_before 1 y) with 0. unfold y, r2, r1. lia.
Qed.

(** The months of a year depend on whether it is a leap year alone. *)
Lemma days_in_leap m y y' : leap y = leap y' → days_in m y = days_in m y'.
Proof. unfold days_in. by intros ->. Qed.

Lemma days_before_leap m y y' : leap y = leap y' → days_before m y = days_before m y'.
Proof.
  intros Hl. unfold days_before.
  assert (∀ l acc, fold_left (λ acc k, acc + days_in (Z.of_nat k) y) l acc =
                   fold_left (λ acc k, acc + days_in (Z.of_nat k) y') l acc) as Hf; [|apply Hf].
  intros l. induction l as [|k l IH]; intros acc; [done|]. cbn [fold_left]. by rewrite (days_in_leap _ y y' Hl).
Qed.

Lemma month_of_leap k y y' yday : leap y = leap y' → month_of k y yday = month_of k y' yday.
Proof.
  intros Hl. induction k as [|k IH]; [done|]. cbn [month_of]. by rewrite (days_before_leap _ y y' Hl), IH.
Qed.

(** Day by day, over one year. *)
Definition month_ok (y yday : Z) : Prop :=
  let m := month_of 12 y yday in
  1 ≤ m ≤ 12 ∧ days_before m y ≤ yday ∧ yday < days_before m y + days_in m y.
#[local] Instance month_ok_dec y yday : Decision (month_ok y yday).
Proof. unfold month_ok. apply _. Defined.

Lemma month_of_spec y yday : 0 ≤ yday < 365 + Z.b2z (leap y) → month_ok y yday.
Proof.
  intros Hy. set (y' := if leap y then 2000 else 2001).
  assert (leap y = leap y') as Hl by (unfold y'; by destruct (leap y)).
  unfold month_ok. rewrite (month_of_leap _ y y' _ Hl), (days_before_leap _ y y' Hl), (days_in_leap _ y y' Hl). fold (month_ok y' yday).
  assert (Forall (month_ok y') (seqZ 0 (365 + Z.b2z (leap y')))) as Hall.
  { unfold y'. destruct (leap y); apply (bool_decide_unpack _); by vm_compute. }
  rewrite Forall_forall in Hall. apply Hall, elem_of_seqZ. rewrite <-Hl. lia.
Qed.

(** The calendar date of an instant, to the second, names it. *)
Lemma civil_of_spec t : 0 ≤ t → t < instant (mkCivil 10000 1 1 0 0 0) 0 →
  civil_wf (civil_of t) ∧ instant (civil_of t) 0 = nanos * (t / nanos).
Proof.
  intros Ht0 Ht. unfold civil_of. set (s := t / nanos). assert (0 ≤ s) as Hs by (apply Z.div_pos; [done|by vm_compute]).
  pose proof (year_of_spec (s / 86400) ltac:(apply Z.div_pos; lia)) as Hyear.
  destruct (year_of (s / 86400)) as [y yday]. destruct Hyear as (Hy & Hyday & Hd).
  pose proof (month_of_spec y yday Hyday) as (Hm & Hlo & Hhi). set (m := month_of 12 y yday) in *. set (db := days_before m y) in *.
  pose proof (Z.div_mod s 86400 ltac:(lia)) as Hsd. pose proof (Z.mod_pos_bound s 86400 ltac:(lia)) as Hr.
  set (r := s mod 86400) in *.
  assert (day_number y m (yday - db + 1) = s / 86400) as Hday.
  { rewrite <-Hd. unfold day_number. change (days_before 1 y) with 0. fold db. lia. }
  assert (y < 10000) as Hmax.
  { destruct (decide (y < 10000)); [done|]. exfalso. assert (day_number y 1 1 ≤ s / 86400) as Hle by lia.
    assert (3652059 ≤ day_number y 1 1) as Hge.
    { unfold day_number. change (days_before 1 y) with 0. Z.to_euclidean_division_equations. lia. }
    assert (instant (mkCivil 10000 1 1 0 0 0) 0 = nanos * (86400 * 3652059)) as Hi by by vm_compute. rewrite Hi in Ht.
    assert (s < 86400 * 3652059) by (apply Z.div_lt_upper_bound; [by vm_compute|lia]).
    assert (s / 86400 < 3652059) by (apply Z.div_lt_upper_bound; lia). lia. }
  split.
  - unfold civil_wf, civil_ok. cbn [cv_year cv_month cv_day cv_hour cv_min cv_sec].
    assert (0 ≤ r / 3600 < 24) by (Z.to_euclidean_division_equations; lia).
    assert (0 ≤ (r mod 3600) / 60 < 60) by (Z.to_euclidean_division_equations; lia).
    assert (0 ≤ r mod 60 < 60) by (apply Z.mod_pos_bound; lia).
    split_and!; [lia|lia|lia|lia|lia|]. rewrite !andb_true_iff, !Z.leb_le, !Z.ltb_lt. split_and!; lia.
  - unfold instant. cbn [cv_year cv_month cv_day cv_hour cv_min cv_sec]. rewrite Hday. f_equal. fold s.
    assert (r = 3600 * (r / 3600) + 60 * ((r mod 3600) / 60) + r mod 60) by (Z.to_euclidean_division_equations; lia). lia.
Qed.

(** A deploy time survives the wire: the [deployed_at] of a body, read by the
    reader of deploy times, is the instant the build resolved, to the second; from
    year 1 to year 9999. *)
Theorem deployed_at_roundtrip t : 0 ≤ t → t < instant (mkCivil 10000 1 1 0 0 0) 0 →
  parseDeployTime (format_rfc3339 t) = Some (nanos * (t / nanos)).
Proof.
  intros Ht0 Ht. destruct (civil_of_spec t Ht0 Ht) as [Hwf Hi]. rewrite <-Hi.
  assert (format_rfc3339 t = write_civil "-" "T" (civil_of t) +:+ "" +:+ "Z") as ->.
  { unfold format_rfc3339, write_civil, year_text. destruct Hwf as (Hy & _).
    rewrite (proj2 (Z.ltb_ge _ 0)), (proj2 (Z.ltb_lt _ 10000)) by lia.
    repeat (rewrite ?append_assoc; cbn [String.append]). done. }
  pose proof (proj2 (proj1 parseDeployTime_roundtrip (civil_of t) Hwf)) as Hz.
  specialize (Hz "" eq_refl). apply Hz.
Qed.
End deployed.

(** ** Witnesses *)

Lemma body_is_forest_witness :
  ∃ d, d ∈ body_Nodes (Serialise (Some sample_graph) (Project (Some sample_graph) scope_all)) ∧
    nd_Parent d = "netapp/o/k1" ∧ has_parent (Serialise (Some sample_graph) (Project (Some sample_graph) scope_all)) d.
Proof.
  assert (controllers_loaded sample_graph) as Hload.
  { intros i n id Hn Ho. assert (map_Forall (λ _ n, match owner_id n with Some id => bool_decide (is_Some (NodesByID sample_graph !! id)) | None => true end = true)
      (NodesByID sample_graph)) as Hall.
    { apply (bool_decide_unpack _). vm_compute. exact I. }
    specialize (Hall i n Hn). cbn beta in Hall. rewrite Ho in Hall. by apply bool_decide_eq_true in Hall. }
  destruct (body_is_forest (H:=sample_uuid) sample_graph _ sample_ok Hload (projected_graph sample_graph scope_all)) as [Htree _].
  set (b := Serialise (Some sample_graph) (Project (Some sample_graph) scope_all)) in *.
  assert (∃ d, d ∈ body_Nodes b ∧ nd_Parent d = "netapp/o/k1") as (d & Hd & Hp).
  { assert (Exists (λ d, nd_Parent d = "netapp/o/k1") (body_Nodes b)) as He by (apply (bool_decide_unpack _); vm_compute; exact I).
    by apply Exists_exists in He. }
  exists d. split; [done|]. split; [done|]. destruct (Htree d Hd) as [He|He]; [congruence|done].
Defined.

Lemma body_ids_distinct_witness :
  NoDup (map nd_ID (body_Nodes (Serialise (Some sample_graph) (Project (Some sample_graph) scope_all)))).
Proof.
  apply (body_ids_distinct (H:=sample_uuid) sample_graph _ sample_ok (projected_graph sample_graph scope_all)).
  - apply (bool_decide_unpack _). vm_compute. exact I.
  - apply (bool_decide_unpack _). vm_compute. exact I.
Defined.

Lemma deployed_at_roundtrip_witness :
  parseDeployTime (format_rfc3339 (instant sample_deploy 0 + 5)%Z) = Some (instant sample_deploy 0).
Proof. rewrite deployed_at_roundtrip; [by vm_compute|by vm_compute|by vm_compute]. Defined.

(** A claim of a namespace called namespace has the id of the group of the
    namespace that bears the claim's name: both are drawn under one id. *)
Lemma namespace_group_collision :
  let pod := sample_pod "c1/p" "p" "x" "" in
  let claim := NPVC (mkPVCNode (PVCID "c1" "namespace" "x") "x"
                 (list_to_map [("cluster", "c1"); ("namespace", "namespace")]) "" "" None None [] "") in
  map nd_ID (body_Nodes (Serialise None (mkView [pod; claim] []))) =
    ["cluster/c1"; "c1/namespace/namespace"; "c1/namespace/x"; "c1/p"; "c1/namespace/x"].
Proof. by vm_compute. Qed.
