(* ===== verification/ServedBody.v ===== *)
(** The graph a build freezes and the body served for it. The frozen graph holds both
    ends of every edge, typed as the registry declares unless two assembled objects
    share an id, and the controller every aggregate names, so the compound groups of
    its body form a forest. *)

From S2P Require Import Prelude GoStrings Float64 GraphNode GraphEdge Graph Project.
From S2P Require Import ProjectLemmas.
From S2P Require Import Selector BuildIdentity VolumeKey TopologyTypes NetApp NetAppProps.
From S2P Require Import Topology Alerts.
From S2P Require Import PeerAddress ServiceGraph ServiceGraphParse ServiceGraphProps.
From S2P Require Import ServiceGraphTheorems ScopedReads RoutePrescan Fanout.
From S2P Require Import StorageScope ProjectStorage Build Cytoscape CytoscapeProps.

(** What attaching alerts and verdicts keeps. *)
Definition same_frame (n n' : GraphNode) : Prop := ID n' = ID n ∧ Type_ n' = Type_ n ∧ Labels n' = Labels n.

Lemma frame_owner n n' : same_frame n n' → owner_id n' = owner_id n.
Proof. intros (_ & Ht & Hl). unfold owner_id. by rewrite Ht, Hl. Qed.

Lemma attached_frames nodes t : Forall2 same_frame nodes (attachStatus (attachAlerts nodes t)).
Proof.
  unfold attachStatus. apply Forall2_fmap_r.
  assert (∀ n n', same_frame n n' → same_frame n (set_status (status_string (FoldStatus (Alerts n') (Health n') (ReadyStatus n'))) n')) as Hst.
  { intros n n' (Hi & Ht & Hl). by destruct n'. }
  unfold attachAlerts. case_bool_decide.
  { apply Forall_Forall2_diag, Forall_true. intros n. by apply Hst. }
  destruct (resolveAlerts _ _ _ _) as [[byNode amb] unm]. apply Forall2_fmap_r, Forall_Forall2_diag, Forall_true. intros n.
  apply Hst. destruct (default [] (byNode !! ID n)); [done|]. by destruct n.
Qed.

Section frozen.
Context (now : Z) (t : Topology) (nodes : list GraphNode) (edges : list Edge).
Let g := freeze now t nodes edges.

Lemma frozen_origin i n' : NodesByID g !! i = Some n' → ∃ n, n ∈ nodes ∧ same_frame n n' ∧ ID n = i.
Proof.
  unfold g, freeze. cbn [NodesByID].
  destruct (NewGraph_keep_first (attachStatus (attachAlerts nodes t)) edges now i) as (Hl & _ & _).
  unfold NewGraph in Hl. cbn [NodesByID] in Hl. unfold NewGraph. cbn [NodesByID]. rewrite Hl.
  intros ([k m] & Hf & ->)%fmap_Some. cbn [snd]. apply list_find_Some in Hf as (Hk & Hid & _).
  destruct (Forall2_lookup_r _ _ _ _ _ (attached_frames nodes t) Hk) as (n & Hn & Hframe).
  exists n. split_and!; [by eapply list_elem_of_lookup_2|done|]. destruct Hframe as (<- & _). done.
Qed.

Lemma frozen_loaded n : n ∈ nodes → is_Some (NodesByID g !! ID n).
Proof.
  intros Hn. unfold g, freeze. cbn [NodesByID].
  apply (NewGraph_keep_first (attachStatus (attachAlerts nodes t)) edges now (ID n)).
  apply list_elem_of_lookup in Hn as [k Hk].
  destruct (Forall2_lookup_l _ _ _ _ _ (attached_frames nodes t) Hk) as (n' & Hn' & Hi & _).
  rewrite <-Hi. apply list_elem_of_fmap_2. by eapply list_elem_of_lookup_2.
Qed.

Lemma frozen_wf : graph_wf g.
Proof. apply (NewGraph_keep_first (attachStatus (attachAlerts nodes t)) edges now ""). Qed.

Lemma frozen_controllers :
  (∀ n id, n ∈ nodes → owner_id n = Some id → ∃ c, c ∈ nodes ∧ ID c = id) → controllers_loaded g.
Proof.
  intros Hn i n' id Hi Ho. destruct (frozen_origin i n' Hi) as (n & Hin & Hf & _).
  rewrite (frame_owner _ _ Hf) in Ho. destruct (Hn n id Hin Ho) as (c & Hc & <-). by apply frozen_loaded.
Qed.
End frozen.

(** ** The frozen graph is well typed *)






Section typed.
Context `{EdgeUUID, URLHost, MetricFingerprint}.

End typed.

(** ** The body is a forest *)

(** The element [p] is the parent of [d]. *)
Definition child_of (b : Body) (d p : NodeData) : Prop := p ∈ body_Nodes b ∧ nd_Parent d ≠ "" ∧ nd_ID p = nd_Parent d.

Lemma distinct_ids {A} (f : A → string) l x y : NoDup (map f l) → x ∈ l → y ∈ l → f x = f y → x = y.
Proof.
  intros Hnd [i Hi]%list_elem_of_lookup [j Hj]%list_elem_of_lookup Heq.
  assert (i = j) as ->; [|congruence]. apply (NoDup_lookup (map f l) i j (f x) Hnd); rewrite list_lookup_fmap.
  - by rewrite Hi.
  - by rewrite Hj, Heq.
Qed.

(** Where the ids are distinct, an ancestor is of a higher tier. *)
Lemma ancestor_tier b : NoDup (map nd_ID (body_Nodes b)) →
  (∀ d, d ∈ body_Nodes b → nd_Parent d = "" ∨ has_parent b d) →
  ∀ d p, d ∈ body_Nodes b → tc (child_of b) d p → tier p < tier d.
Proof.
  intros Hnd Hpar.
  assert (∀ d p, d ∈ body_Nodes b → child_of b d p → tier p < tier d) as Hstep.
  { intros d p Hd (Hp & Hne & Hid). destruct (Hpar d Hd) as [?|(q & Hq & Hqid & Ht)]; [done|].
    by rewrite (distinct_ids nd_ID _ p q Hnd Hp Hq) by congruence. }
  intros d p Hd Htc. induction Htc as [d p Hc|d q p Hc _ IH]; [by apply Hstep|].
  pose proof (Hstep d q Hd Hc). specialize (IH (proj1 Hc)). lia.
Qed.

Section served.
Context `{EdgeUUID, MetricFingerprint}.

(** The aggregates of a parsed topology come with their controllers. *)
Lemma parsed_owners v keys win sg n id :
  let t := parseTopology v keys win in
  n ∈ (assemble t sg).1 → owner_id n = Some id → ∃ c, c ∈ (assemble t sg).1 ∧ ID c = id.
Proof.
  intros t Hn Ho. assert (∃ a, a ∈ NetAppAggrs t ∧ n = NNetAppAggr a) as (a & Ha & ->).
  { assert (Type_ n = NodeTypeNetAppAggr) as Ht.
    { unfold owner_id in Ho. by case_bool_decide. }
    unfold assemble in Hn. cbn [fst] in Hn. rewrite !elem_of_app in Hn.
    destruct Hn as [Hn|[Hn|[Hn|[Hn|[Hn|[Hn|[Hn|Hn]]]]]]]; apply list_elem_of_fmap in Hn as (x & -> & Hx); try done. by exists x. }
  unfold owner_id in Ho. cbn [Labels Type_] in Ho. rewrite bool_decide_eq_true_2 in Ho by done.
  destruct (bool_decide (lget (aggr_Labels a) "ontap_cluster" = "")); [done|].
  destruct (decide (lget (aggr_Labels a) "node" = "")) as [?|Hne]; [by rewrite bool_decide_eq_true_2 in Ho|].
  rewrite bool_decide_eq_false_2 in Ho by done. injection Ho as <-.
  assert (∃ c, c ∈ NetAppNodes t ∧ ctrl_ID c = NetAppNodeID (lget (aggr_Labels a) "ontap_cluster") (lget (aggr_Labels a) "node"))
    as (c & Hc & Hid).
  { revert Ha. unfold t, parseTopology. cbv zeta. cbn [NetAppAggrs NetAppNodes]. set (r := resolveNetAppStorage _ _ _ _).
    intros Ha. by apply storage_join_closed. }
  exists (NNetAppNode c). split; [|done]. unfold assemble. cbn [fst]. rewrite !elem_of_app.
  do 4 right. left. by apply (list_elem_of_fmap_2 NNetAppNode).
Qed.

(** A controller's id is a controller's alone: no other object of the graph took it. *)
Definition unshadowed (g : Graph) : Prop :=
  ∀ i n id p, NodesByID g !! i = Some n → owner_id n = Some id → NodesByID g !! id = Some p → Type_ p = NodeTypeNetAppNode.

(** C12: The body served for a build over any upstream rows, when no other object of
    the graph took the id of an ONTAP controller: every element is at the top or names
    as its parent an element of a higher tier (a cluster, a namespace, an application,
    a controller group, an ONTAP controller), so nothing dangles; the groups are the
    ones the drawn nodes ask for; and where the elements' ids are distinct - an object
    of a namespace called namespace can take a group's - no element is its own
    ancestor, so the body is a forest. *)
Theorem served_body_is_forest v keys win filtered now message probe read_sg g view :
  Build filtered now message (Ok (parseTopology v keys win)) probe read_sg = Ok g → unshadowed g → projected g view →
  let b := Serialise (Some g) view in
  (∀ d, d ∈ body_Nodes b → nd_Parent d = "" ∨ has_parent b d) ∧
  (∀ id, (∃ d, d ∈ body_Nodes b ∧ tier d ≤ 3 ∧ nd_ID d = id) ↔ ∃ n, n ∈ view_Nodes view ∧ id ∈ group_chain n) ∧
  (NoDup (map nd_ID (body_Nodes b)) → ∀ d, d ∈ body_Nodes b → ¬ tc (child_of b) d d).
Proof.
  intros Hb Hun Hv b.
  assert (∃ sg, g = freeze now (parseTopology v keys win) (assemble (parseTopology v keys win) sg).1
                      (assemble (parseTopology v keys win) sg).2) as [sg ->].
  { revert Hb. unfold Build. destruct (outside_retention _ _ _); [done|].
    destruct (if skips_service_graph _ _ then _ else _) as [sg|e]; [|done]. intros [= <-]. by exists sg. }
  destruct (body_is_forest _ view (conj (frozen_wf _ _ _ _) Hun)) as [Hpar Hgroups]; [|done|].
  { apply frozen_controllers. intros n id. apply parsed_owners. }
  split_and!; [exact Hpar|exact Hgroups|]. intros Hnd d Hd Hc. pose proof (ancestor_tier b Hnd Hpar d d Hd Hc). lia.
Qed.
End served.

#[local] Existing Instance name_uuid.
#[local] Existing Instance no_fingerprint.
#[local] Existing Instance sample_host.

Definition sample_services (t : Topology) : result readError ServiceGraphResult :=
  match sg_read false with Ok sg => Ok sg | Err e => Err (own_error e) end.

(** The graph of the sample read. *)
Definition sample_build : result Error Graph :=
  Build false 7 "" (Ok (parseTopology sg_vectors DefaultLabelKeys (mkAlertWindow 0 0))) (Ok true) sample_services.
Definition sample_view : View :=
  match sample_build with Ok g => Project (Some g) (NewScope [] [] true) | Err _ => mkView [] [] end.

Lemma served_body_is_forest_witness :
  ∃ g, sample_build = Ok g ∧ length (view_Nodes sample_view) = 4 ∧
    ∀ d, d ∈ body_Nodes (Serialise (Some g) sample_view) →
      (nd_Parent d = "" ∨ has_parent (Serialise (Some g) sample_view) d) ∧ ¬ tc (child_of (Serialise (Some g) sample_view)) d d.
Proof.
  destruct sample_build as [g|e] eqn:Eb; [|by vm_compute in Eb]. exists g. split; [done|].
  split; [vm_compute; reflexivity|].
  assert (sample_view = Project (Some g) (NewScope [] [] true)) as Hv by (unfold sample_view; by rewrite Eb).
  assert (match sample_build with
          | Ok g => bool_decide (map_Forall (λ _ n, bool_decide (owner_id n = None) = true) (NodesByID g)) | Err _ => true end = true)
    as Hall by (vm_compute; reflexivity).
  assert (match sample_build with
          | Ok g => bool_decide (NoDup (map nd_ID (body_Nodes (Serialise (Some g) sample_view)))) | Err _ => true end = true)
    as Hnd by (vm_compute; reflexivity).
  rewrite Eb in Hall, Hnd. apply bool_decide_eq_true in Hall, Hnd. rewrite Hv in Hnd |- *.
  assert (unshadowed g) as Hun.
  { intros i n id p Hi Ho. specialize (Hall i n Hi). cbn beta in Hall. apply bool_decide_eq_true in Hall. congruence. }
  destruct (served_body_is_forest sg_vectors DefaultLabelKeys (mkAlertWindow 0 0) false 7 "" (Ok true)
    sample_services g (Project (Some g) (NewScope [] [] true)) Eb Hun (projected_graph g _)) as (Hpar & _ & Hacyclic).
  intros d Hd. split; [by apply Hpar|by apply Hacyclic].
Defined.

