(* ===== verification/Engine.v ===== *)
(** pkg/kubegraph/engine.go: the two root-bearing pipelines of the engine - parse,
    align, build, project, serialise. The upstream answers at an instant; the read
    itself is [ReadTopology]'s. The constructors, the guard they wrap a querier in,
    the probe and the unrooted pipeline are left out. *)

From S2P Require Import Prelude GoStrings GraphNode GraphEdge Graph Selector Queries.
From S2P Require Import StorageScope ProjectStorage ProjectK8s Cytoscape BuildIdentity.
From S2P Require Import VolumeKey NetApp NameScopes ScopedReads ReadPlan ScopedRender.
From S2P Require Import TopologyTypes Topology Fanout Build ReadTopology K8sReadTheorems.
From S2P Require Import DeployTime RequestParse Upstream.

#[local] Open Scope ksg_scope.

(** An error of a pipeline: of the parser, or of the build. *)
Inductive engine_error :=
  | EParse (e : ParseError)
  | EBuild (e : Error).

Section engine.
Context (upstream : Time → Querier) `{Scheduler} `{MetricFingerprint} `{RegexpCompile} `{EdgeUUID}.
Context (is_bad_query : readError → bool) (gone : bool) (quote : string → string).
Context (opts : Options) (endAlign : Z).

(** pkg/kubegraph/engine.go@181-183, [Engine.BuildStorageWith]: the window and the
    instant of the queries are nanoseconds. *)
Definition EngineBuildStorageWith (now : Z) (window : Z) (end_ : Time) (sel : Selector) (roots : StorageRoots)
    (rollup : Rollup) (delta : bool) : result Error Graph :=
  BuildStorageWith (H:=upstream end_) is_bad_query gone quote window (ns end_) now opts sel rollup delta roots.

(** pkg/kubegraph/engine.go@211-213, [Engine.BuildK8s] *)
Definition EngineBuildK8s (now : Z) (window : Z) (end_ : Time) (sel : Selector) (roots : StorageRoots) : result Error Graph :=
  BuildK8s (H:=upstream end_) is_bad_query gone quote window (ns end_) now opts sel roots.

(** pkg/kubegraph/engine.go@192-203, [Engine.BuildStorageFromValues] *)
Definition BuildStorageFromValues (now : Z) (v : Values) : result engine_error Body :=
  match ParseStorageValues quote v with
  | Err e => Err (EParse e)
  | Ok req =>
      let '(start, end_) := AlignWindow (sr_Start req) (sr_End req) endAlign in
      match EngineBuildStorageWith now (Sub end_ start) end_ (sr_Selector req) (Roots (sr_Scope req)) (sr_IORollup req) (sr_IODelta req) with
      | Err e => Err (EBuild e)
      | Ok g => Ok (Serialise (Some g) (ProjectStorage (Some g) (sr_Scope req)))
      end
  end.

(** pkg/kubegraph/engine.go@220-231, [Engine.BuildK8sFromValues] *)
Definition BuildK8sFromValues (now : Z) (v : Values) : result engine_error Body :=
  match ParseK8sValues quote v with
  | Err e => Err (EParse e)
  | Ok req =>
      let '(start, end_) := AlignWindow (kr_Start req) (kr_End req) endAlign in
      match EngineBuildK8s now (Sub end_ start) end_ (kr_Selector req) (Roots (kr_Scope req)) with
      | Err e => Err (EBuild e)
      | Ok g => Ok (Serialise (Some g) (ProjectK8s (Some g) (kr_Scope req)))
      end
  end.

(** ** The clock *)

(** A graph stamped with another build time. *)
Definition restamp (now : Z) (g : Graph) : Graph :=
  mkGraph now (NodesByID g) (Edges g) (ClusterIdentities g) (NamespaceMetadata g) (ApplicationMetadata g).

Definition result_map {E A B} (f : A → B) (r : result E A) : result E B :=
  match r with Ok a => Ok (f a) | Err e => Err e end.

Lemma buildStorage_restamp kubernetesOnly now now' t :
  buildStorage kubernetesOnly now' t = result_map (restamp now') (buildStorage kubernetesOnly now t).
Proof. unfold buildStorage. destruct t as [t|e]; [|done]. by destruct (run_assemble kubernetesOnly t). Qed.

Lemma buildStorage_plan_restamp `{Querier} now now' window end_ sel rollup delta plan :
  buildStorage_plan is_bad_query gone quote window end_ now' opts sel rollup delta plan =
  result_map (restamp now') (buildStorage_plan is_bad_query gone quote window end_ now opts sel rollup delta plan).
Proof. unfold buildStorage_plan. destruct (prepare _ _ _ _ _); [|done]. apply buildStorage_restamp. Qed.

Lemma ProjectStorage_restamp now g scope : ProjectStorage (Some (restamp now g)) scope = ProjectStorage (Some g) scope.
Proof. by destruct g. Qed.

Lemma ProjectK8s_restamp now g scope : ProjectK8s (Some (restamp now g)) scope = ProjectK8s (Some g) scope.
Proof. by destruct g. Qed.

(** ** Requests that differ in their window alone *)

(** Two requests that name the same parameters, [start] and [end] apart. *)
Definition same_but_window (v v' : Values) : Prop := ∀ k, k ≠ "start" → k ≠ "end" → vals v' k = vals v k.

Lemma validate_params_ext v v' params : (∀ p, p ∈ params → vals v' p = vals v p) →
  validate_params v' params = validate_params v params.
Proof.
  induction params as [|p ps IH]; intros Hp; [done|]. cbn [validate_params]. rewrite Hp by (by left).
  destruct (validateSelectorValues p (vals v p)); [|done]. apply IH. intros q Hq. apply Hp. by right.
Qed.

Lemma oneStorageRoot_ext v v' params msg : (∀ p, p ∈ params → vals v' p = vals v p) →
  oneStorageRoot v' params msg = oneStorageRoot v params msg.
Proof.
  intros Hp. unfold oneStorageRoot.
  assert (filter (λ p, hasNonEmpty (vals v' p) = true) params = filter (λ p, hasNonEmpty (vals v p) = true) params) as ->.
  { clear msg. induction params as [|p ps IH]; [done|]. rewrite !filter_cons, IH by (intros q Hq; apply Hp; by right).
    by rewrite (Hp p) by (by left). }
  destruct (filter _ params) as [|p [|]] eqn:Ef; [done| |done]. rewrite Hp; [done|].
  assert (p ∈ filter (λ p, hasNonEmpty (vals v p) = true) params) as Hin by (rewrite Ef; by left).
  by apply list_elem_of_filter in Hin as [_ ?].
Qed.

Lemma no_window_params (v v' : Values) params : same_but_window v v' → Forall (λ p, p ≠ "start" ∧ p ≠ "end") params →
  ∀ p, p ∈ params → vals v' p = vals v p.
Proof. intros Hs Hf p Hp. rewrite Forall_forall in Hf. destruct (Hf p Hp). by apply Hs. Qed.

#[local] Ltac not_window := apply (bool_decide_unpack _); by vm_compute.

(** What a request asks for besides its window. *)
Definition with_window (w : Time * Time) (r : StorageRequest) : StorageRequest :=
  mkStorageRequest w.1 w.2 (sr_Scope r) (sr_Selector r) (sr_IORollup r) (sr_IODelta r).
Definition k8s_with_window (w : Time * Time) (r : K8sRequest) : K8sRequest :=
  mkK8sRequest w.1 w.2 (kr_Scope r) (kr_Selector r).

Lemma ParseStorageValues_window v v' w w' : same_but_window v v' →
  parseWindow quote v = Ok w → parseWindow quote v' = Ok w' →
  (∀ req, ParseStorageValues quote v = Ok req → sr_Start req = w.1 ∧ sr_End req = w.2) ∧
  ParseStorageValues quote v' = result_map (with_window w') (ParseStorageValues quote v).
Proof.
  intros Hs Hw Hw'. unfold ParseStorageValues. rewrite Hw, Hw'. cbn [rbind].
  rewrite !Hs by done.
  rewrite (validate_params_ext v v') by (apply (no_window_params _ _ _ Hs); not_window).
  rewrite (oneStorageRoot_ext v v') by (apply (no_window_params _ _ _ Hs); not_window).
  destruct (atLeastOne "az" _) as [az|]; [|done]. destruct (atLeastOne "env" _) as [env|]; [|done]. cbn [rbind].
  destruct (validate_params _ _) as [u|]; [|done]. destruct (oneStorageRoot _ _ _) as [root|]; [|done]. cbn [rbind].
  destruct (parse_scope _ _ _ _) as [sc|]; [|done]. destruct (parseIORollup _ _) as [ro|]; [|done]. cbn [rbind].
  destruct (parseIODelta _ _) as [de|]; [|done]. split; [|done]. by intros req [= <-].
Qed.

Lemma ParseK8sValues_window v v' w w' : same_but_window v v' →
  parseWindow quote v = Ok w → parseWindow quote v' = Ok w' →
  (∀ req, ParseK8sValues quote v = Ok req → kr_Start req = w.1 ∧ kr_End req = w.2) ∧
  ParseK8sValues quote v' = result_map (k8s_with_window w') (ParseK8sValues quote v).
Proof.
  intros Hs Hw Hw'. unfold ParseK8sValues. rewrite Hw, Hw'. cbn [rbind].
  rewrite !Hs by done.
  rewrite (validate_params_ext v v') by (apply (no_window_params _ _ _ Hs); not_window).
  rewrite (oneStorageRoot_ext v v') by (apply (no_window_params _ _ _ Hs); not_window).
  destruct (atLeastOne "cluster" _) as [cl|]; [|done]. cbn [rbind].
  destruct (atLeastOne "az" _) as [az|]; [|done]. destruct (atLeastOne "env" _) as [env|]; [|done]. cbn [rbind].
  destruct (validate_params _ _) as [u|]; [|done]. destruct (oneStorageRoot _ _ _) as [root|]; [|done]. cbn [rbind].
  destruct (parse_scope _ _ _ _) as [sc|]; [|done]. split; [|done]. by intros req [= <-].
Qed.

(** Two windows of one length that end within one step of the grid, over the instants
    package time computes with exactly. *)
Definition one_step (w w' : Time * Time) : Prop :=
  (dated w.1 ∧ dated w.2 ∧ dated w'.1 ∧ dated w'.2 ∧
   -2 ^ 63 ≤ ns w.2 - nanos * unixToInternal < 2 ^ 63 ∧ -2 ^ 63 ≤ ns w'.2 - nanos * unixToInternal < 2 ^ 63 ∧
   grid_step w'.2 endAlign = grid_step w.2 endAlign ∧ ns w'.2 - ns w'.1 = ns w.2 - ns w.1)%Z.

(** C23: One grid step is one answer: two requests with the same values for every
    parameter other than [start] and [end] (zones, environments, clusters, namespaces,
    root, rollup, delta), whose windows have one length and end within one step of the
    grid, get the same body or the same error from both endpoints,
    whenever each is served - even of an upstream that answers every instant
    differently, since both ask it the same queries at the same instant. *)
Theorem one_step_one_body v v' w w' now now' :
  (0 < endAlign < 2 ^ 63)%Z → same_but_window v v' →
  parseWindow quote v = Ok w → parseWindow quote v' = Ok w' → one_step w w' →
  BuildStorageFromValues now' v' = BuildStorageFromValues now v ∧ BuildK8sFromValues now' v' = BuildK8sFromValues now v.
Proof.
  intros Hg Hs Hw Hw' (D1 & D2 & D3 & D4 & R1 & R2 & Hstep & Hlen).
  pose proof (AlignWindow_step w.1 w.2 w'.1 w'.2 endAlign Hg D1 D2 D3 D4 R1 R2 Hstep Hlen) as Ha. split.
  - unfold BuildStorageFromValues. destruct (ParseStorageValues_window v v' w w' Hs Hw Hw') as [Hreq ->].
    destruct (ParseStorageValues quote v) as [req|e]; [|done]. destruct (Hreq req eq_refl) as [-> ->]. cbn [result_map with_window sr_Start sr_End].
    rewrite Ha. destruct (AlignWindow w.1 w.2 endAlign) as [s e].
    unfold EngineBuildStorageWith, BuildStorageWith. destruct (negb (Valid _)); [done|].
    rewrite (buildStorage_plan_restamp now now'). cbn [sr_Selector sr_Scope sr_IORollup sr_IODelta].
    destruct (buildStorage_plan _ _ _ _ _ _ _ _ _ _ _) as [g|]; [|done]. cbn [result_map]. by rewrite ProjectStorage_restamp.
  - unfold BuildK8sFromValues. destruct (ParseK8sValues_window v v' w w' Hs Hw Hw') as [Hreq ->].
    destruct (ParseK8sValues quote v) as [req|e]; [|done]. destruct (Hreq req eq_refl) as [-> ->]. cbn [result_map k8s_with_window kr_Start kr_End].
    rewrite Ha. destruct (AlignWindow w.1 w.2 endAlign) as [s e].
    unfold EngineBuildK8s, BuildK8s. destruct (negb (k8sRoots _)); [done|].
    rewrite (buildStorage_plan_restamp now now'). cbn [kr_Selector kr_Scope].
    destruct (buildStorage_plan _ _ _ _ _ _ _ _ _ _ _) as [g|]; [|done]. cbn [result_map]. by rewrite ProjectK8s_restamp.
Qed.
End engine.

Lemma vals_insert_ne (m : gmap string (list string)) a x k : a ≠ k → vals (<[a:=x]> m) k = vals m k.
Proof. intros Hk. unfold vals. f_equal. by apply lookup_insert_ne. Qed.

(** ** Samples *)

#[local] Existing Instances Estate.scheduler NetAppProps.no_fingerprint VolumeKey.literal_regexp NetAppProps.name_uuid.

(** An estate that is up at one instant only. *)
Definition up_at (t : Time) (now : Time) : Querier :=
  if bool_decide (t_sec now = t_sec t ∧ t_nsec now = t_nsec t)
  then estate_querier Estate.estate Estate.window DefaultLabelKeys (mkSelector ["z1"] ["e1"] ["c1"] []) None
  else {| ScopedReads.Instant := λ _ _, Err (own_error "down"); ScopedReads.FamilyServer := None |}.

Definition sample_rest : gmap string (list string) :=
  list_to_map [("cluster", ["c1"; ""]); ("az", ["z1"]); ("env", ["e1"]); ("pod", ["shop/a"])].
Definition sample_request (start end_ : string) : Values := <["start" := [start]]> (<["end" := [end_]]> sample_rest).
Definition sample_answer (now : Z) (v : Values) : result engine_error Body :=
  BuildK8sFromValues (up_at (Unix 1700000310)) (λ _, false) false (λ s, s) Estate.opts DefaultEndAlign now v.
Definition sample_shape (r : result engine_error Body) : option (nat * nat) :=
  match r with Ok b => Some (length (body_Nodes b), length (body_Edges b)) | Err _ => None end.

Lemma one_step_one_body_witness :
  let asked := sample_request "1700000017" "1700000317" in
  let again := sample_request "2023-11-14T22:13:31Z" "2023-11-14T22:18:31Z" in
  sample_answer 9 again = sample_answer 7 asked ∧ sample_shape (sample_answer 7 asked) = Some (4, 1)%nat.
Proof.
  intros asked again. split; [|vm_compute; reflexivity].
  refine (proj2 (one_step_one_body (up_at (Unix 1700000310)) (λ _, false) false (λ s, s) Estate.opts DefaultEndAlign
    asked again (Unix 1700000017, Unix 1700000317) (Unix 1700000011, Unix 1700000311) 7 9 _ _ _ _ _)).
  - split; vm_compute; reflexivity.
  - intros k Hs He. unfold asked, again, sample_request. by rewrite !vals_insert_ne by congruence.
  - vm_compute. reflexivity.
  - vm_compute. reflexivity.
  - unfold one_step, dated, grid_step. vm_compute. repeat split; discriminate.
Defined.
